(* ===== verification/_CoqProject ===== *)
-Q . S2P
Prelude.v
Platform.v
State.v
Frame.v
TeeMisc.v
MmuDesc.v
CoreMmu.v
Qsort.v
MemMap.v
Csu.v
Emulation.v
Interrupt.v
Gic.v
Gpio.v
Dt.v
Protection.v
GpioKeys.v
Fb.v
Entry.v
Drivers.v
Cloak.v
Thread.v
ThreadInv.v
Monitor.v
Smc.v
Boot.v
Abort.v
Fdt.v
FdtTree.v
FdtScan.v
FdtSpec.v
DtProbe.v
DtRead.v
DtPlaces.v
FdtPath.v
KeysProbe.v
DtProbeSpec.v
Divmod.v
Newlib.v
NewlibSpec.v
FdtPack.v
FdtPackSpec.v
Printk.v
PrintkSpec.v
Console.v
ConsoleSpec.v
TraceSpec.v
SepLogic.v
Bget.v
BgetSpec.v
Malloc.v
MallocSpec.v
GenericBoot.v
GenericBootSpec.v
Trap.v
TrapSpec.v
