(* ===== verification/Prelude.v ===== *)
(** * SeCloak secure kernel: verification library

    SeCloak is a small TrustZone kernel for the i.MX6.  The non-secure world
    asks it to switch classes of devices (wifi, camera, ...) off; the kernel
    shows the request on a display it has taken over, waits for a hardware key,
    and on confirmation denies the non-secure world every access to the devices
    of the refused classes, by the Central Security Unit (CSU), by denying the
    trapped accesses it emulates, and by taking their interrupts.

    This library models that kernel as executable functions on an explicit
    state and proves what makes it correct.

    ** The files and what they model (paths below src/core/)

    - [Prelude]: machine words with their wrap-around, the monad [M] of kernel
      routines, the rules of [wp] (a routine returns and ...), list lemmas.
    - [Platform]: the hardware.  A platform is a state with loads, stores and a
      heap; what a driver relies on is a class of laws ([PlainRegs],
      [HeapAvailable]).  [ram] and [bigram] are concrete platforms.
    - [State]: the structures and statics of all modules as records, and the
      state [kernel P] over a platform [P].
    - [Frame]: routines whose only effect are accesses inside a window of
      addresses, and what such accesses leave unchanged.
    - [TeeMisc]: kernel/tee_misc.c.
    - [MmuDesc], [CoreMmu]: arch/arm/mm/core_mmu_v7.c and core_mmu.c:
      descriptors, translation tables, the static memory map and its checks,
      translation between physical and virtual addresses, dynamic mappings.
    - [Qsort]: lib/libutils/isoc/qsort.c (below src/); [MemMap]: the building of
      the memory map in core_mmu.c.
    - [Emulation]: arch/arm/secloak/emulation.c: regions, checks, and the
      decoding and execution of trapped accesses.
    - [Interrupt], [Gic], [Gpio]: kernel/interrupt.c, drivers/gic.c,
      drivers/imx_gpio.c.
    - [Dt]: the device table and the switching of devices in drivers/dt.c.
    - [Protection]: the invariant that ties device flags, CSU counters and deny
      regions together, the abstract specification of class switching, and the
      proof that drivers/dt.c refines it.
    - [GpioKeys], [Fb]: drivers/imx_gpio_keys.c, drivers/imx_fb.c.
    - [Entry]: arch/arm/secloak/entry.c, the service itself.
    - [Drivers]: the dispatch tables: which driver implements which interface.
    - [Cloak]: the correctness of the service and the device layer, and a
      small concrete board on which the theorems are instantiated.
    - [Thread]: arch/arm/kernel/thread.c, spin_lock_debug.c and the entries of
      thread_a32.S; [ThreadInv]: its invariant under every interleaving of the
      cores.
    - [Monitor]: the secure monitor, arch/arm/sm and plat-imx/psci.c; [Smc]: a
      call of the normal world through monitor, threads and service.
    - [Boot]: plat-imx/imx6.c and drivers/tzc380.c.
    - [Abort]: arch/arm/kernel/abort.c.
    - [Fdt]: the read-only half of lib/libfdt, on a blob in memory.  [FdtTree] is
      the reference: device trees as a data type and their encoding as a blob;
      [FdtScan] is about the walk over the tags of any blob, [FdtSpec] about
      reading the encoding of a tree.
    - [DtProbe]: the probing of the device tree, kernel/dt.c and the first half
      of drivers/dt.c; [KeysProbe]: gpio_keys_probe and the table of drivers.
      [DtRead] and [DtPlaces] are the reference (what a tree says of a device, and
      which nodes get one); [DtProbeSpec] proves that probing implements it.
    - [Bget]: the memory allocator, lib/libutils/isoc/bget.c and bget_malloc.c
      (below src/), on a memory of words.  [SepLogic] is a separation logic for
      such routines; [BgetSpec] describes the blocks of the heap in it and proves
      triples of bget.c, [Malloc] is the abstract allocator and the proof that
      bget_malloc.c refines it, [MallocSpec] has the theorems in terms of memory
      alone.
    - [Newlib]: the string functions, lib/libutils/isoc/newlib and ext (below
      src/), with both of their bodies; [NewlibSpec] has the functions on lists
      that are their reference.  [Divmod]: division in software,
      lib/libutils/isoc/arch/arm.
    - [FdtPath]: paths of a device tree.  [FdtPack]: the part of lib/libfdt that
      writes and that booting uses, on a memory of bytes; [FdtPackSpec]: it keeps
      the tree.
    - [Printk]: lib/libutils/ext/snprintk.c; [PrintkSpec] has the reference
      renderer and the proof that printing agrees with it.
    - [Console]: kernel/console.c, drivers/imx_uart.c, arch/arm/kernel/trace_ext.c
      and lib/libutils/ext/trace.c; [ConsoleSpec] is about what goes out of a
      serial chip, [TraceSpec] about a whole trace.
    - [GenericBoot]: arch/arm/kernel/generic_boot.c; [GenericBootSpec] puts the
      theorems on the components together for the start of the primary core.

    ** How components are connected

    The components call each other as in the source.  Where the source calls
    through a pointer, the model has an interface class: [IrqDrivers] (operation
    tables and handlers of interrupt chips), [EmuClients] (checks of regions),
    [ButtonClients] (key handlers), [SerialOps] (serial chips).  Theorems of the calling layer are proved
    against the interface and its laws ([IrqQuiet], [ClientsReturn],
    [DialogueConsumes], [SerialPrints]); [Drivers], and [ConsoleSpec] for the UART,
    discharge them.  Hardware behaviour enters
    only through the law classes [PlainRegs], [HeapAvailable], [GicDist] and
    [UartDevice], each with a concrete instance.

    ** Outcomes

    A routine returns, panics ([panic()] or a failing assertion), faults (an
    access that C gives no meaning to: null pointer, index out of range, signed
    overflow, a cyclic list), or spins (a busy wait whose condition the supplied
    environment never establishes).  [wp m s Q] says that [m] returns: it is
    total correctness; [wpp m s Q] allows it to stop in a panic as well.
    Assertions are evaluated unless [cfg_ndebug], as in assert.h.

    ** What the theorems show

    - [Cloak], [Protection], [Dt]: applying settings disables exactly the devices
      reached from the denied classes, every one that can be protected is shut
      in the CSU and in the emulator, switching is reversible, and class
      switching refines its abstract specification; the dialogue decodes the
      request and only an allowed confirmation has an effect; the device table
      is a correct hash table and its iteration terminates and is complete.
    - [Csu]: the fields of the hardware follow the protection counters.
    - [Emulation]: a denied access never reaches the device; every trapped access
      has a defined outcome; the list of regions is kept correctly.
    - [Gpio], [GpioKeys], [Fb]: the access filters, pin ownership, termination of
      the interrupt loop, key presses kept from the non-secure world, bounds of
      all drawing, restoration of the display.
    - [CoreMmu]: the checks of the memory map separate secure from shared memory,
      and the conversions of addresses and descriptors are inverse.
    - [ThreadInv]: from the state after booting and in every interleaving of the
      cores, a thread is claimed by at most one core, a call is refused only when
      no thread is free, no assertion fails and no core waits for ever; a
      standard call runs its handler as a thread and gives it back.
    - [Smc]: the normal world gets its registers back as they were but for the
      results, and no call leaves a trace in the threads or the banked registers;
      power calls never enter the kernel.
    - [Boot]: the address space controller shuts the normal world out of the
      kernel memory.
    - [FdtSpec]: libfdt reads from the encoding of a tree exactly that tree.
      [FdtScan]: the walk over the nodes of a blob terminates when property
      lengths fit in the blob, and runs for ever on some blobs where they do not.
    - [MemMap], [Qsort]: the memory map built at boot has the types and addresses
      the rest of the kernel relies on; sorting terminates for any comparison.
    - [MallocSpec]: whatever a client of malloc does that the abstract allocator
      allows, the code returns and agrees with it; buffers never overlap and keep
      their contents; a request is served when the free memory has room for it.
    - [NewlibSpec]: the bodies that go byte by byte and those that go word by word
      compute the same functions of the strings and buffers.  [Divmod]: quotients
      and remainders are those of C.
    - [DtProbeSpec]: probing ends on every tree in which no node is its own
      interrupt controller, and its device table is the one of the tree.
    - [FdtPath]: a path leads to the node the tree has under it.  [FdtPackSpec]:
      opening and packing a blob keeps its tree, in whatever order its blocks are.
    - [PrintkSpec]: what is printed, and what is stored of it, is the text of the
      reference, for every format made of directives; [TraceSpec]: a trace comes
      out of the serial chip as one line, whatever its message is.
    - [GenericBootSpec]: the composition.  From the entry of the primary core with
      the tree of the boot loader to the normal world: the threads are in the
      invariant of [ThreadInv], the heap in that of [Malloc], the monitor returns
      where the normal world starts, and the device table is the one of the tree.
    - Some theorems record defects: they state what the code does where that
      differs from its intention (the lock of the service, the interrupt
      operations, sub-word accesses to filtered registers, ...).

    ** Bounds and fuel

    The GPIO interrupt loop runs on 32 steps of fuel: each step clears the
    highest pending bit of a 32-bit word.  The walk of the device table has one
    step per device and one to notice the end.  The walk to the parents has as
    many steps as devices were allocated: a parent is allocated before its
    children.  The loops of libfdt have one step per byte of the blob
    ([scan_fuel]): each step passes at least one tag or one byte.  [dt_probe] takes
    the depth of its recursion as an argument; the height of the tree plus the
    longest path through parents and interrupt controllers is enough.  Interrupt
    handlers may nest [n] deep in [drivers n]; the GIC, a GPIO port and a key make
    three.  The walk of the allocator over its free blocks has one step per word of
    memory, the search for the end of a string one per byte, and the loops of the
    division one per bit (one more for the last test).  The loop of [kprintf] has
    one step per byte of memory, since each piece of a format has at least one, the
    loops over the digits of a number 64; [fdt_path_offset] follows as many aliases
    as its argument says (one more step than aliases).  The UART is polled [polls]
    times, which [UartDevice] says is enough; the other core opens the lock of the
    console in [until_unlocked].  The blob is looked for in the
    [CFG_DTB_MAX_SIZE] bytes that [init_fdt] opens.  None of these limits is reached in the theorems, which state that the routines return.

    ** Not modelled

    The messages of the components: [trace_printf] is modelled and proved as a
    component, but the others are modelled without their calls of it (the call of a
    print with arguments that its format takes has no effect on their state).
    Cache and TLB maintenance (no effect on the modelled state), assembly beyond
    the monitor and thread entries.  The exception masks and lock depths are part
    of [Thread] and [Console]: the drivers are modelled between their lock and
    unlock operations; malloc_lock is left out of [Bget] likewise.  Copies by
    [memcpy] are byte by byte, in [Bget] word by word.  The names and classes of
    devices stay in the blob, in memory of the normal world; the model reads them
    once, when the device is created.  The devices allocate from the heap of the
    platform, which may refuse; [Bget] is a component of its own.  Of libfdt, the
    functions that edit a tree are left out: the kernel calls none of them. *)

From stdpp Require Import prelude gmap list strings.
From Stdlib Require Import ZArith Lia.
#[local] Open Scope Z_scope.

(** ** Machine words

    The kernel is built for a 32-bit ARM core: [unsigned long], [size_t],
    [paddr_t], [vaddr_t] and [uint32_t] are all 32 bits wide.  A word is the
    [Z] of its unsigned value; every arithmetic result is reduced
    explicitly. *)

Definition u8 (z : Z) : Z := z mod 2 ^ 8.
Definition u16 (z : Z) : Z := z mod 2 ^ 16.
Definition u32 (z : Z) : Z := z mod 2 ^ 32.
(** A 32-bit pattern read as a signed [int]. *)
Definition i32 (z : Z) : Z := if u32 z <? 2 ^ 31 then u32 z else u32 z - 2 ^ 32.
(** [~z] on [uint32_t]. *)
Definition not32 (z : Z) : Z := u32 (Z.lnot z).
(** [1 << n]: the shifter of the core yields 0 for amounts of 32 and above. *)
Definition bit32 (n : Z) : Z := u32 (Z.shiftl 1 n).
Definition shl32 (z n : Z) : Z := u32 (Z.shiftl z n).
(** C truth value of an integer, as in [if (x & mask)]. *)
Definition truth (z : Z) : bool := negb (z =? 0).

(** [ROUNDUP] of util.h on 32-bit operands. *)
Definition ROUNDUP (v size : Z) : Z := Z.land (u32 (v + u32 (size - 1))) (not32 (size - 1)).

(** The values of a spin lock (kernel/spinlock.h). *)
Definition SPINLOCK_UNLOCK : Z := 0.
Definition SPINLOCK_LOCK : Z := 1.

Definition is_u32 (z : Z) : Prop := 0 <= z < 2 ^ 32.
#[global] Instance is_u32_dec z : Decision (is_u32 z).
Proof. unfold is_u32. apply _. Defined.

Lemma u32_range z : is_u32 (u32 z).
Proof. unfold is_u32, u32. apply Z.mod_pos_bound. lia. Qed.

Lemma u32_small z : is_u32 z -> u32 z = z.
Proof. unfold is_u32, u32. intros. apply Z.mod_small. lia. Qed.

Lemma u32_u32 z : u32 (u32 z) = u32 z.
Proof. apply u32_small, u32_range. Qed.

Lemma u8_range z : 0 <= u8 z < 256.
Proof. unfold u8. apply Z.mod_pos_bound. lia. Qed.

Lemma u32_testbit z i : 0 <= i -> Z.testbit (u32 z) i = (i <? 32) && Z.testbit z i.
Proof.
  intros. unfold u32. destruct (Z.ltb_spec i 32).
  - by rewrite Z.mod_pow2_bits_low by lia.
  - by rewrite Z.mod_pow2_bits_high by lia.
Qed.

Lemma is_u32_testbit z i : is_u32 z -> 32 <= i -> Z.testbit z i = false.
Proof.
  intros Hz Hi. rewrite <- (u32_small z Hz), u32_testbit by lia.
  by rewrite (proj2 (Z.ltb_ge _ _)) by lia.
Qed.

Lemma not32_testbit z i :
  0 <= i -> Z.testbit (not32 z) i = (i <? 32) && negb (Z.testbit z i).
Proof. intros. unfold not32. by rewrite u32_testbit, Z.lnot_spec by lia. Qed.

Lemma bit32_testbit n i :
  0 <= n -> 0 <= i -> Z.testbit (bit32 n) i = (i <? 32) && (i =? n).
Proof.
  intros. unfold bit32. rewrite u32_testbit, Z.shiftl_spec by lia. f_equal.
  destruct (Z.eqb_spec i n) as [->|Hne]; [by rewrite Z.sub_diag|].
  destruct (Z.ltb_spec i n).
  - by rewrite Z.testbit_neg_r by lia.
  - apply Z.bits_above_log2; simpl; lia.
Qed.

Lemma shl32_testbit z n i :
  0 <= i -> Z.testbit (shl32 z n) i = (i <? 32) && Z.testbit z (i - n).
Proof. intros. unfold shl32. by rewrite u32_testbit, Z.shiftl_spec by lia. Qed.

Lemma is_u32_land_l a b : is_u32 a -> 0 <= b -> is_u32 (Z.land a b).
Proof.
  unfold is_u32. intros [Ha1 Ha2] Hb. split; [by apply Z.land_nonneg; left|].
  destruct (Z.eq_dec (Z.land a b) 0) as [->|Hnz]; [lia|].
  assert (0 <= Z.land a b) by (apply Z.land_nonneg; by left).
  apply Z.log2_lt_pow2; [lia|].
  pose proof (Z.log2_land a b Ha1 Hb) as Hl.
  destruct (Z.eq_dec a 0) as [->|]; [by rewrite Z.land_0_l in Hnz|].
  assert (Z.log2 a < 32) by (apply Z.log2_lt_pow2; lia). lia.
Qed.

Lemma is_u32_lor a b : is_u32 a -> is_u32 b -> is_u32 (Z.lor a b).
Proof.
  unfold is_u32. intros [Ha1 Ha2] [Hb1 Hb2].
  assert (0 <= Z.lor a b) by (by apply Z.lor_nonneg).
  split; [done|].
  destruct (Z.eq_dec (Z.lor a b) 0) as [->|Hnz]; [lia|].
  apply Z.log2_lt_pow2; [lia|].
  rewrite Z.log2_lor by done.
  destruct (Z.eq_dec a 0) as [->|], (Z.eq_dec b 0) as [->|]; simpl in *;
    repeat match goal with
    | |- context [Z.log2 ?x] =>
        lazymatch x with 0 => fail | _ =>
        lazymatch goal with H : Z.log2 x < 32 |- _ => fail | _ =>
          assert (Z.log2 x < 32) by (apply Z.log2_lt_pow2; lia) end end
    end; try lia.
Qed.

Lemma not32_range z : is_u32 (not32 z).
Proof. apply u32_range. Qed.
Lemma bit32_range n : is_u32 (bit32 n).
Proof. apply u32_range. Qed.

(** Two words agree when their 32 low bits do. *)
Lemma u32_bits_eq a b :
  is_u32 a -> is_u32 b ->
  (forall i, 0 <= i < 32 -> Z.testbit a i = Z.testbit b i) -> a = b.
Proof.
  intros Ha Hb H. apply Z.bits_inj'. intros i Hi.
  destruct (Z.ltb_spec i 32); [by apply H; lia|].
  by rewrite !is_u32_testbit by (done || lia).
Qed.

Create HintDb word.
#[global] Create Rewrite HintDb word_bits.
#[export] Hint Resolve u32_range not32_range bit32_range is_u32_land_l is_u32_lor : word.
#[export] Hint Rewrite Z.land_spec Z.lor_spec Z.lxor_spec Z.bits_0 : word_bits.
#[export] Hint Rewrite u32_testbit not32_testbit bit32_testbit shl32_testbit
  Z.shiftr_spec using lia : word_bits.

(** Equality of two bit expressions, bit by bit. *)
Ltac bitwise i :=
  apply Z.bits_inj'; intros i ?; autorewrite with word_bits.

(** A mask test [x & (1 << n)] is the bit [n] of [x]. *)
Lemma truth_land_bit x n : 0 <= n < 32 -> truth (Z.land x (bit32 n)) = Z.testbit x n.
Proof.
  intros Hn. unfold truth. destruct (Z.testbit x n) eqn:Hx.
  - apply negb_true_iff, Z.eqb_neq. intros H0.
    assert (Hb : Z.testbit (Z.land x (bit32 n)) n = false) by (by rewrite H0, Z.bits_0).
    autorewrite with word_bits in Hb. rewrite Hx, Z.eqb_refl in Hb.
    rewrite (proj2 (Z.ltb_lt n 32)) in Hb by lia. done.
  - apply negb_false_iff, Z.eqb_eq. bitwise i.
    destruct (Z.eqb_spec i n) as [->|]; [by rewrite Hx|].
    by rewrite !andb_false_r.
Qed.

(** ** The kernel monad

    A kernel routine runs on a state and ends in one of four ways: it
    returns; it stops in [panic()] (or a failing [assert]); it performs an
    access the C language gives no meaning to (a null pointer or an index out
    of range); or it spins in a busy loop on a condition which only the
    environment can change and which the supplied environment never
    established. *)

Inductive outcome (S A : Type) : Type :=
| Ret (a : A) (s : S)
| Panic
| Fault
| Spin.
Arguments Ret {S A} _ _.
Arguments Panic {S A}.
Arguments Fault {S A}.
Arguments Spin {S A}.

Definition M (S A : Type) : Type := S -> outcome S A.

Section monad.
Context {S : Type}.

Definition ret {A} (a : A) : M S A := fun s => Ret a s.
Definition bind {A B} (m : M S A) (k : A -> M S B) : M S B := fun s =>
  match m s with
  | Ret a s' => k a s'
  | Panic => Panic
  | Fault => Fault
  | Spin => Spin
  end.
Definition panic {A} : M S A := fun _ => Panic.
Definition fault {A} : M S A := fun _ => Fault.
Definition spin {A} : M S A := fun _ => Spin.
Definition gets {A} (f : S -> A) : M S A := fun s => Ret (f s) s.
Definition modify (f : S -> S) : M S unit := fun s => Ret tt (f s).
Definition when (b : bool) (m : M S unit) : M S unit := if b then m else ret tt.

(** Dereference: a missing object is a fault. *)
Definition deref {A} (o : option A) : M S A :=
  match o with Some a => ret a | None => fault end.

(** [a[i]] and [a[i] = v] on an array: out of range is a fault. *)
Definition aget {A} (l : list A) (i : Z) : M S A :=
  if i <? 0 then fault else deref (l !! Z.to_nat i).

(** [for (x : l) f(x)] *)
Fixpoint for_each {A} (l : list A) (f : A -> M S unit) : M S unit :=
  match l with
  | [] => ret tt
  | x :: l' => bind (f x) (fun _ => for_each l' f)
  end.
End monad.

(** Running a sequence whose first part is known to return. *)
Lemma bind_run {S A B} (m : M S A) (k : A -> M S B) s a s' :
  m s = Ret a s' -> bind m k s = k a s'.
Proof. unfold bind. by intros ->. Qed.

Lemma Ret_inj {S A} (a b : A) (s s' : S) : Ret a s = Ret b s' -> a = b /\ s = s'.
Proof. by intros [= -> ->]. Qed.

Declare Scope kernel_scope.
Delimit Scope kernel_scope with K.
Notation "x <- m ;; k" := (bind m (fun x => k))
  (at level 20, m at level 99, k at level 200, right associativity) : kernel_scope.
Notation "' p <- m ;; k" := (bind m (fun x => match x with p => k end))
  (at level 20, p pattern, m at level 99, k at level 200, right associativity) : kernel_scope.
Notation "m ;;; k" := (bind m (fun _ => k))
  (at level 100, k at level 200, right associativity) : kernel_scope.

(** Build configuration: [NDEBUG] removes the assertions together with the
    evaluation of their argument (assert.h). *)
Class Config := { cfg_ndebug : bool }.

Definition massert `{Config} {S} (c : M S bool) : M S unit :=
  if cfg_ndebug then ret tt
  else bind c (fun b => if b then ret tt else panic).

(** ** Total and partial correctness of kernel routines *)

Definition wp {S A} (m : M S A) (s : S) (Q : A -> S -> Prop) : Prop :=
  match m s with Ret a s' => Q a s' | _ => False end.

(** The routine returns or stops the kernel in [panic()]; it neither faults nor
    runs for ever. *)
Definition wpp {S A} (m : M S A) (s : S) (Q : A -> S -> Prop) : Prop :=
  match m s with Ret a s' => Q a s' | Panic => True | _ => False end.

Section wp.
Context {S : Type}.
Implicit Types s : S.

Lemma wp_elim {A} (m : M S A) s Q :
  wp m s Q -> exists a s', m s = Ret a s' /\ Q a s'.
Proof. unfold wp. destruct (m s); naive_solver. Qed.
Lemma wp_intro {A} (m : M S A) s Q a s' : m s = Ret a s' -> Q a s' -> wp m s Q.
Proof. unfold wp. by intros ->. Qed.
Lemma wp_mono {A} (m : M S A) s (Q Q' : A -> S -> Prop) :
  (forall a s', Q a s' -> Q' a s') -> wp m s Q -> wp m s Q'.
Proof. unfold wp. destruct (m s); auto. Qed.
Lemma wp_and {A} (m : M S A) s (Q Q' : A -> S -> Prop) :
  wp m s Q -> wp m s Q' -> wp m s (fun a s' => Q a s' /\ Q' a s').
Proof. unfold wp. destruct (m s); auto. Qed.
Lemma wp_ret {A} (a : A) s (Q : A -> S -> Prop) : Q a s -> wp (ret a) s Q.
Proof. done. Qed.
Lemma wp_bind {A B} (m : M S A) (k : A -> M S B) s Q :
  wp m s (fun a s' => wp (k a) s' Q) -> wp (bind m k) s Q.
Proof. unfold wp, bind. destruct (m s); auto. Qed.
Lemma wp_assoc {A B C} (m : M S A) (k : A -> M S B) (f : B -> M S C) s Q :
  wp (bind (bind m k) f) s Q -> wp (bind m (fun a => bind (k a) f)) s Q.
Proof. unfold wp, bind. by destruct (m s). Qed.
Lemma wp_gets {A} (f : S -> A) s (Q : A -> S -> Prop) : Q (f s) s -> wp (gets f) s Q.
Proof. done. Qed.
Lemma wp_modify f s (Q : unit -> S -> Prop) : Q tt (f s) -> wp (modify f) s Q.
Proof. done. Qed.
Lemma wp_when (b : bool) (m : M S unit) s (Q : unit -> S -> Prop) : (if b then wp m s Q else Q tt s) -> wp (when b m) s Q.
Proof. by destruct b. Qed.
Lemma wp_massert `{Config} (c : M S bool) s (Q : unit -> S -> Prop) :
  wp c s (fun b s' => b = true /\ Q tt s') -> Q tt s -> wp (massert c) s Q.
Proof.
  intros Hc Hs. unfold massert. destruct cfg_ndebug; [done|].
  apply wp_bind. eapply wp_mono; [|exact Hc]. by intros b s' [-> ?].
Qed.

(** Loop rule: an invariant indexed by the elements already processed. *)
Lemma wp_for_each {A} (I : list A -> S -> Prop) (l : list A) (f : A -> M S unit) s :
  I [] s ->
  (forall done x rest s', l = done ++ x :: rest -> I done s' ->
     wp (f x) s' (fun _ s'' => I (done ++ [x]) s'')) ->
  wp (for_each l f) s (fun _ s' => I l s').
Proof.
  intros H0 Hstep.
  cut (forall rest done s', l = done ++ rest -> I done s' ->
         wp (for_each rest f) s' (fun _ s'' => I l s'')).
  { intros Hc. by apply (Hc l []). }
  induction rest as [|x rest IH]; intros done s' -> HI; simpl.
  - apply wp_ret. by rewrite app_nil_r.
  - apply wp_bind. eapply wp_mono; [|by eapply Hstep].
    intros [] s'' HI''. apply (IH (done ++ [x])); [|done].
    by rewrite <- app_assoc.
Qed.

(** The special case of an invariant that does not mention the position. *)
Lemma wp_for_each_inv {A} (I : S -> Prop) (l : list A) (f : A -> M S unit) s :
  I s -> (forall x s', x ∈ l -> I s' -> wp (f x) s' (fun _ s'' => I s'')) ->
  wp (for_each l f) s (fun _ s' => I s').
Proof.
  intros H0 Hstep. apply (wp_for_each (fun _ => I)); [done|].
  intros done x rest s' -> HI. apply Hstep; [set_solver|done].
Qed.

(** Whether a routine returns, on a concrete state. *)
Definition returns {A} (m : M S A) s : bool := match m s with Ret _ _ => true | _ => false end.
Lemma wpp_returns {A} (m : M S A) s Q : wpp m s Q -> returns m s = true -> exists a s', m s = Ret a s' /\ Q a s'.
Proof. unfold wpp, returns. destruct (m s); [by eauto|done..]. Qed.

(** The rules of [wpp]. *)
Lemma wpp_mono {A} (m : M S A) s (Q Q' : A -> S -> Prop) :
  wpp m s Q -> (forall a s', Q a s' -> Q' a s') -> wpp m s Q'.
Proof. unfold wpp. destruct (m s); auto. Qed.
Lemma wpp_ret {A} (a : A) s (Q : A -> S -> Prop) : Q a s -> wpp (ret a) s Q.
Proof. done. Qed.
Lemma wpp_panic {A} s (Q : A -> S -> Prop) : wpp panic s Q.
Proof. done. Qed.
Lemma wpp_intro {A} (m : M S A) s Q a s' : m s = Ret a s' -> Q a s' -> wpp m s Q.
Proof. unfold wpp. by intros ->. Qed.
Lemma wpp_bind {A B} (m : M S A) (k : A -> M S B) s Q :
  wpp m s (fun a s' => wpp (k a) s' Q) -> wpp (bind m k) s Q.
Proof. unfold wpp, bind. destruct (m s); auto. Qed.
(** A step with a known postcondition. *)
Lemma wpp_step {A B} (m : M S A) (k : A -> M S B) s Q Q' :
  wpp m s Q' -> (forall a s', Q' a s' -> wpp (k a) s' Q) -> wpp (bind m k) s Q.
Proof. intros H1 H2. apply wpp_bind. by eapply wpp_mono. Qed.
Lemma wpp_assoc {A B C} (m : M S A) (k : A -> M S B) (f : B -> M S C) s Q :
  wpp (bind (bind m k) f) s Q -> wpp (bind m (fun a => bind (k a) f)) s Q.
Proof. unfold wpp, bind. by destruct (m s). Qed.
(** A step with a known result. *)
Lemma wpp_run {A B} (m : M S A) (k : A -> M S B) s a s' Q :
  m s = Ret a s' -> wpp (k a) s' Q -> wpp (bind m k) s Q.
Proof. intros Hm Hk. apply wpp_bind. by eapply wpp_intro. Qed.
Lemma wpp_massert `{Config} b s (Q : unit -> S -> Prop) : Q tt s -> wpp (massert (ret b)) s Q.
Proof. unfold massert. destruct cfg_ndebug; [done|]. by destruct b. Qed.
Lemma wpp_for_each {A} (I : list A -> S -> Prop) (l : list A) (f : A -> M S unit) s :
  I [] s ->
  (forall done x rest s', l = done ++ x :: rest -> I done s' ->
     wpp (f x) s' (fun _ s'' => I (done ++ [x]) s'')) ->
  wpp (for_each l f) s (fun _ s' => I l s').
Proof.
  intros H0 Hstep.
  cut (forall rest done s', l = done ++ rest -> I done s' ->
         wpp (for_each rest f) s' (fun _ s'' => I l s'')).
  { intros Hc. by apply (Hc l []). }
  induction rest as [|x rest IH]; intros done s' -> HI; simpl.
  - apply wpp_ret. by rewrite app_nil_r.
  - eapply wpp_step; [by eapply Hstep|].
    intros [] s'' HI''. apply (IH (done ++ [x])); [|done]. by rewrite <- app_assoc.
Qed.
End wp.

Definition aset {A S} (l : list A) (i : Z) (v : A) : M S (list A) :=
  if (0 <=? i) && (i <? Z.of_nat (length l)) then ret (<[Z.to_nat i := v]> l) else fault.

Lemma aget_lookup {A S} (l : list A) (i : nat) x (s : S) :
  l !! i = Some x -> aget l (Z.of_nat i) s = Ret x s.
Proof.
  intros H. unfold aget. rewrite (proj2 (Z.ltb_ge _ _)) by lia.
  by rewrite Nat2Z.id, H.
Qed.
Lemma aget_run {A S} (l : list A) i x (s : S) :
  0 <= i -> l !! Z.to_nat i = Some x -> aget l i s = Ret x s.
Proof. intros Hi H. unfold aget. rewrite (proj2 (Z.ltb_ge _ _)) by lia. by rewrite H. Qed.
Lemma aset_insert {A S} (l : list A) (i : nat) v (s : S) :
  (i < length l)%nat -> aset l (Z.of_nat i) v s = Ret (<[i := v]> l) s.
Proof.
  intros H. unfold aset. rewrite (proj2 (Z.leb_le _ _)), (proj2 (Z.ltb_lt _ _)) by lia.
  by rewrite Nat2Z.id.
Qed.

(** The value of a signed [int] expression; overflow is undefined. *)
Definition int_result {S} (z : Z) : M S Z :=
  if (- 2 ^ 31 <=? z) && (z <? 2 ^ 31) then ret z else fault.

(** A signed value survives being stored as a word. *)
Lemma i32_u32 z : - 2 ^ 31 <= z < 2 ^ 31 -> i32 (u32 z) = z.
Proof.
  intros H. unfold i32. rewrite u32_u32. unfold u32.
  destruct (Z.ltb_spec (z mod 2 ^ 32) (2 ^ 31)); Z.div_mod_to_equations; lia.
Qed.
Lemma i32_small z : - 2 ^ 31 <= z < 2 ^ 31 -> i32 z = z.
Proof. intros H. rewrite <- (i32_u32 z) at 2 by done. unfold i32. by rewrite u32_u32. Qed.

Lemma int_result_run {S} z (s : S) : - 2 ^ 31 <= z < 2 ^ 31 -> int_result z s = Ret z s.
Proof.
  intros. unfold int_result. by rewrite (proj2 (Z.leb_le _ _)), (proj2 (Z.ltb_lt _ _)) by lia.
Qed.

(** An assertion whose condition has no effect and holds. *)
Lemma massert_ok `{Config} {S} (b : M S bool) (s : S) : b s = Ret true s -> massert b s = Ret tt s.
Proof.
  intros H'. unfold massert. destruct cfg_ndebug; [done|]. by rewrite (bind_run _ _ _ _ _ H').
Qed.
Lemma wp_massert_ok `{Config} {S} (b : M S bool) (s : S) (Q : unit -> S -> Prop) :
  b s = Ret true s -> Q tt s -> wp (massert b) s Q.
Proof. intros H' HQ. unfold wp. by rewrite massert_ok. Qed.
Lemma massert_run `{Config} {S} (s : S) (b : bool) : b = true -> massert (ret b) s = Ret tt s.
Proof. intros ->. unfold massert. by destruct cfg_ndebug. Qed.

(** ** Lists *)

Lemma elem_of_snoc {A} (x y : A) l : x ∈ l ++ [y] <-> x ∈ l \/ x = y.
Proof. by rewrite elem_of_app, list_elem_of_singleton. Qed.
Lemma bool_decide_snoc_ne (x y : Z) l :
  x <> y -> bool_decide (x ∈ l ++ [y]) = bool_decide (x ∈ l).
Proof. intros. apply bool_decide_ext. rewrite elem_of_snoc. intuition. Qed.
Lemma bool_decide_snoc_eq (x : Z) l : bool_decide (x ∈ l ++ [x]) = true.
Proof. apply bool_decide_eq_true, elem_of_snoc. by right. Qed.

(** The prefixes of a range of indices. *)
Lemma seqZ_prefix (m n : Z) done x rest :
  seqZ m n = done ++ x :: rest -> m <= x < m + n /\ forall y, y ∈ done -> m <= y < x.
Proof.
  intros H.
  assert (Hk : seqZ m n !! length done = Some x) by (by rewrite H, list_lookup_middle).
  apply lookup_seqZ in Hk as [-> Hk]. split; [lia|].
  intros y Hy. apply list_elem_of_lookup in Hy as [i Hi].
  assert (Hi' : seqZ m n !! i = Some y) by (rewrite H; by apply lookup_app_l_Some).
  apply lookup_lt_Some in Hi. apply lookup_seqZ in Hi' as [-> ?]. lia.
Qed.

(** ** Addresses *)

Lemma u32_add_inj b x y :
  0 <= x < 2 ^ 32 -> 0 <= y < 2 ^ 32 -> u32 (b + x) = u32 (b + y) -> x = y.
Proof.
  unfold u32. intros Hx Hy H.
  assert (Hz : (x - y) mod 2 ^ 32 = 0).
  { replace (x - y) with ((b + x) - (b + y)) by lia.
    by rewrite Zminus_mod, H, Z.sub_diag. }
  apply Z.mod_divide in Hz as [k Hk]; [|lia]. nia.
Qed.

(** Unfolds the monadic glue of a routine on a concrete state. *)
Ltac unfold_monad :=
  unfold bind, ret, gets, modify, when, deref, panic, fault, spin in *; simpl in *.
