(* ===== verification/Platform.v ===== *)
(** * The platform: memory-mapped I/O and the heap

    Everything the kernel reaches through a volatile access
    (core/include/io.h) or through [malloc]/[free] is outside the C sources
    modelled here.  It is a parameter: a type of platform states with the
    effect of each access.  What a driver relies on is stated as a class of
    laws over these operations (documented register behaviour), never as part
    of the operations.  [ram] at the end is one concrete platform. *)

From stdpp Require Import prelude gmap.
From Stdlib Require Import ZArith Lia.
From S2P Require Import Prelude.
#[local] Open Scope Z_scope.

(** [io_read n a p]: an [n]-byte load at virtual address [a], which may change
    the device (an acknowledge register).  [heap_alloc n p] is [None] when
    [malloc(n)] returns [NULL].  [par_of_va va p] is what the translation
    operation [ATS1CPR] leaves in the physical address register. *)
Class Platform (P : Type) := {
  io_read : Z -> Z -> P -> Z * P;
  io_write : Z -> Z -> Z -> P -> P;
  heap_alloc : Z -> P -> option P;
  heap_free : Z -> P -> P;
  par_of_va : Z -> P -> Z;
}.

(** A kernel state that contains a platform. *)
Class HasPlatform (P S : Type) := {
  get_platform : S -> P;
  set_platform : P -> S -> S;
  get_set_platform : forall p s, get_platform (set_platform p s) = p;
  set_set_platform : forall p q s, set_platform p (set_platform q s) = set_platform p s;
  set_get_platform : forall s, set_platform (get_platform s) s = s;
}.

Section io.
Context {P S : Type} {plat : Platform P} {hp : HasPlatform P S}.

Definition io_load (n : Z) (a : Z) : M S Z := fun s =>
  let '(v, p) := io_read n (u32 a) (get_platform s) in
  Ret (v mod 2 ^ (8 * n)) (set_platform p s).
Definition io_store (n : Z) (v a : Z) : M S unit := fun s =>
  Ret tt (set_platform (io_write n (u32 a) (v mod 2 ^ (8 * n)) (get_platform s)) s).

Definition read8 (a : Z) : M S Z := io_load 1 a.
Definition read16 (a : Z) : M S Z := io_load 2 a.
Definition read32 (a : Z) : M S Z := io_load 4 a.
Definition write8 (v a : Z) : M S unit := io_store 1 v a.
Definition write16 (v a : Z) : M S unit := io_store 2 v a.
Definition write32 (v a : Z) : M S unit := io_store 4 v a.
Definition io_mask8 (addr v mask : Z) : M S unit :=
  (x <- read8 addr;; write8 (Z.lor (Z.land x (Z.lnot mask)) (Z.land v mask)) addr)%K.
Definition io_mask16 (addr v mask : Z) : M S unit :=
  (x <- read16 addr;; write16 (Z.lor (Z.land x (Z.lnot mask)) (Z.land v mask)) addr)%K.
Definition io_mask32 (addr v mask : Z) : M S unit :=
  (x <- read32 addr;; write32 (Z.lor (Z.land x (Z.lnot mask)) (Z.land v mask)) addr)%K.

(** [malloc]: whether a block was obtained. *)
Definition malloc (n : Z) : M S bool := fun s =>
  match heap_alloc (u32 n) (get_platform s) with
  | Some p => Ret true (set_platform p s)
  | None => Ret false s
  end.
Definition free (n : Z) : M S unit := fun s =>
  Ret tt (set_platform (heap_free (u32 n) (get_platform s)) s).
End io.

(** ** Laws *)

(** The [n] bytes at [a] and the [m] bytes at [b] do not overlap. *)
Definition apart (a n b m : Z) : Prop := a + n <= b \/ b + m <= a.

(** The addresses in [R] are plain 32-bit read/write registers: a load has no
    side effect and yields the last value stored, and no access elsewhere, nor
    the allocator, changes them. *)
Class PlainRegs (P : Type) `{Platform P} (R : Z -> Prop) : Prop := {
  reg_read_pure : forall a p, R a -> (io_read 4 a p).2 = p;
  reg_read_same : forall a v p, R a -> (io_read 4 a (io_write 4 a v p)).1 mod 2 ^ 32 = v mod 2 ^ 32;
  reg_frame_write : forall a n b v p, R a -> 0 < n -> apart a 4 b n ->
    (io_read 4 a (io_write n b v p)).1 = (io_read 4 a p).1;
  reg_frame_read : forall a n b p, R a -> 0 < n -> apart a 4 b n ->
    (io_read 4 a (io_read n b p).2).1 = (io_read 4 a p).1;
  reg_alloc : forall a n p p', R a -> heap_alloc n p = Some p' ->
    (io_read 4 a p').1 = (io_read 4 a p).1;
  reg_free : forall a n p, R a -> (io_read 4 a (heap_free n p)).1 = (io_read 4 a p).1;
}.

(** The heap is not exhausted. *)
Class HeapAvailable (P : Type) `{Platform P} (ok : P -> Prop) : Prop := {
  heap_ok_alloc : forall n p, ok p -> exists p', heap_alloc n p = Some p' /\ ok p';
  heap_ok_free : forall n p, ok p -> ok (heap_free n p);
  heap_ok_write : forall n a v p, ok p -> ok (io_write n a v p);
  heap_ok_read : forall n a p, ok p -> ok (io_read n a p).2;
}.

Section plain.
Context {P : Type} {plat : Platform P} (R : Z -> Prop) {regs : PlainRegs P R}.

(** The contents of a plain register. *)
Definition reg (p : P) (a : Z) : Z := u32 (io_read 4 (u32 a) p).1.

Lemma reg_u32 p a : is_u32 (reg p a).
Proof. apply u32_range. Qed.

Lemma reg_write_same a v p : R (u32 a) -> reg (io_write 4 (u32 a) v p) a = u32 v.
Proof. intros. by apply reg_read_same. Qed.
Lemma reg_write_other n a b v p :
  R (u32 a) -> 0 < n -> apart (u32 a) 4 (u32 b) n -> reg (io_write n (u32 b) v p) a = reg p a.
Proof. intros. unfold reg. by rewrite reg_frame_write. Qed.
Lemma reg_read_other n a b p :
  R (u32 a) -> 0 < n -> apart (u32 a) 4 (u32 b) n -> reg (io_read n (u32 b) p).2 a = reg p a.
Proof. intros. unfold reg. by rewrite reg_frame_read. Qed.

Context {S : Type} {hp : HasPlatform P S}.

Lemma read32_reg a s : R (u32 a) -> read32 a s = Ret (reg (get_platform s) a) s.
Proof.
  intros HR. unfold read32, io_load, reg, u32 at 2.
  pose proof (reg_read_pure (u32 a) (get_platform s) HR) as Hp.
  destruct (io_read _ _ _) as [v p]; simpl in *. subst p.
  by rewrite set_get_platform.
Qed.

Lemma wp_read32_reg a s (Q : Z -> S -> Prop) :
  R (u32 a) -> Q (reg (get_platform s) a) s -> wp (read32 a) s Q.
Proof. intros. unfold wp. by rewrite read32_reg. Qed.
End plain.

Lemma write32_run {P S} `{Platform P, HasPlatform P S} v a (s : S) :
  is_u32 v -> write32 v a s = Ret tt (set_platform (io_write 4 (u32 a) v (get_platform s)) s).
Proof. intros Hv. unfold write32, io_store. by rewrite Z.mod_small. Qed.
Lemma wp_write32 {P S} `{Platform P, HasPlatform P S} v a s (Q : unit -> S -> Prop) :
  Q tt (set_platform (io_write 4 (u32 a) (u32 v) (get_platform s)) s) ->
  wp (write32 v a) s Q.
Proof. done. Qed.

(** ** A concrete platform: word-addressed storage and a finite heap *)

Record ram := mk_ram { ram_cells : gmap Z Z; ram_heap : nat }.

#[global] Instance ram_platform : Platform ram := {
  io_read n a p := (default 0 (ram_cells p !! a), p);
  io_write n a v p := mk_ram (<[a := v]> (ram_cells p)) (ram_heap p);
  heap_alloc n p := match ram_heap p with
                    | O => None
                    | S k => Some (mk_ram (ram_cells p) k)
                    end;
  heap_free n p := mk_ram (ram_cells p) (S (ram_heap p));
  par_of_va va p := Z.land va (not32 0xfff);
}.

#[global] Instance ram_plain : PlainRegs ram (fun _ => True).
Proof.
  split; simpl; intros.
  - done.
  - by rewrite lookup_insert_eq.
  - rewrite lookup_insert_ne; [done|unfold apart in *; lia].
  - done.
  - destruct (ram_heap p); by simplify_eq.
  - done.
Qed.

(** The same storage with a heap that never runs out. *)
Record bigram := mk_bigram { bigram_cells : gmap Z Z }.

#[global] Instance bigram_platform : Platform bigram := {
  io_read n a p := (default 0 (bigram_cells p !! a), p);
  io_write n a v p := mk_bigram (<[a := v]> (bigram_cells p));
  heap_alloc n p := Some p;
  heap_free n p := p;
  par_of_va va p := Z.land va (not32 0xfff);
}.

#[global] Instance bigram_plain : PlainRegs bigram (fun _ => True).
Proof.
  split; simpl; intros.
  - done.
  - by rewrite lookup_insert_eq.
  - rewrite lookup_insert_ne; [done|unfold apart in *; lia].
  - done.
  - by simplify_eq.
  - done.
Qed.

#[global] Instance bigram_heap : HeapAvailable bigram (fun _ => True).
Proof. split; simpl; eauto. Qed.
