(* ===== verification/State.v ===== *)
(** * Kernel data: the C structures and the static variables

    One record per C [struct], one per component for its file-scope
    variables, and [kernel] for the whole secure kernel.  Pointers are indices
    in allocation order ([dev_ptr], [port_ptr]) or names of the one object
    they can designate; a function pointer is the name of the function.  An
    array member together with its [num_] companion is a list. *)

From stdpp Require Import prelude gmap list strings.
From Stdlib Require Import ZArith Lia.
From S2P Require Import Prelude Platform.
#[local] Open Scope Z_scope.

(** Index of a [struct device] in allocation order. *)
Abbreviation dev_ptr := nat (only parsing).
(** Index of a [struct mxc_gpio_port] in allocation order. *)
Abbreviation port_ptr := nat (only parsing).

(** ** Memory mapping (core_mmu.h, tee_mmu_types.h) *)

Inductive teecore_memtypes :=
| MEM_AREA_NOTYPE
| MEM_AREA_TEE_RAM
| MEM_AREA_TEE_RAM_RX
| MEM_AREA_TEE_RAM_RO
| MEM_AREA_TEE_RAM_RW
| MEM_AREA_TEE_COHERENT
| MEM_AREA_TA_RAM
| MEM_AREA_NSEC_SHM
| MEM_AREA_RAM_NSEC
| MEM_AREA_RAM_SEC
| MEM_AREA_IO_NSEC
| MEM_AREA_IO_SEC
| MEM_AREA_RES_VASPACE
| MEM_AREA_SHM_VASPACE
| MEM_AREA_TA_VASPACE
| MEM_AREA_SDP_MEM
| MEM_AREA_MAXTYPE.
#[global] Instance teecore_memtypes_eq_dec : EqDecision teecore_memtypes.
Proof. solve_decision. Defined.

(** [struct tee_mmap_region] *)
Record tee_mmap_region := TeeMmapRegion {
  mm_type : teecore_memtypes;
  mm_region_size : Z;
  mm_pa : Z;
  mm_va : Z;
  mm_size : Z;
  mm_attr : Z;
}.
Definition set_mm_type (v : teecore_memtypes) (r : tee_mmap_region) : tee_mmap_region := TeeMmapRegion v (mm_region_size r) (mm_pa r) (mm_va r) (mm_size r) (mm_attr r).
Definition set_mm_region_size (v : Z) (r : tee_mmap_region) : tee_mmap_region := TeeMmapRegion (mm_type r) v (mm_pa r) (mm_va r) (mm_size r) (mm_attr r).
Definition set_mm_pa (v : Z) (r : tee_mmap_region) : tee_mmap_region := TeeMmapRegion (mm_type r) (mm_region_size r) v (mm_va r) (mm_size r) (mm_attr r).
Definition set_mm_va (v : Z) (r : tee_mmap_region) : tee_mmap_region := TeeMmapRegion (mm_type r) (mm_region_size r) (mm_pa r) v (mm_size r) (mm_attr r).
Definition set_mm_size (v : Z) (r : tee_mmap_region) : tee_mmap_region := TeeMmapRegion (mm_type r) (mm_region_size r) (mm_pa r) (mm_va r) v (mm_attr r).
Definition set_mm_attr (v : Z) (r : tee_mmap_region) : tee_mmap_region := TeeMmapRegion (mm_type r) (mm_region_size r) (mm_pa r) (mm_va r) (mm_size r) v.

(** Statics of core_mmu.c and core_mmu_v7.c.  [static_memory_map] holds the
    entries before the terminating [MEM_AREA_NOTYPE] one; an entry absent from
    a translation table is 0, and the level-2 tables are laid out one after
    the other, 256 entries each. *)
Record mmu_data := MmuData {
  static_memory_map : list tee_mmap_region;
  main_mmu_l1_ttb : gmap Z Z;
  main_mmu_l2_ttb : gmap Z Z;
  tables_used : Z;
}.
Definition set_static_memory_map (v : list tee_mmap_region) (r : mmu_data) : mmu_data := MmuData v (main_mmu_l1_ttb r) (main_mmu_l2_ttb r) (tables_used r).
Definition set_main_mmu_l1_ttb (v : gmap Z Z) (r : mmu_data) : mmu_data := MmuData (static_memory_map r) v (main_mmu_l2_ttb r) (tables_used r).
Definition set_main_mmu_l2_ttb (v : gmap Z Z) (r : mmu_data) : mmu_data := MmuData (static_memory_map r) (main_mmu_l1_ttb r) v (tables_used r).
Definition set_tables_used (v : Z) (r : mmu_data) : mmu_data := MmuData (static_memory_map r) (main_mmu_l1_ttb r) (main_mmu_l2_ttb r) v.

(** ** Emulation (secloak/emulation.h) *)

(** Values of [emu_check_t]: the functions ever stored in a region. *)
Inductive emu_check_t := EMU_ALLOW_ALL | EMU_DENY_ALL | GPIO_EMU_CHECK | FB_EMU_CHECK.
#[global] Instance emu_check_t_eq_dec : EqDecision emu_check_t.
Proof. solve_decision. Defined.

Inductive emu_state := EMU_STATE_WRITE | EMU_STATE_READ_BEFORE | EMU_STATE_READ_AFTER.
#[global] Instance emu_state_eq_dec : EqDecision emu_state.
Proof. solve_decision. Defined.

(** [struct region]; the [SLIST] link is the position in the list. *)
Record region := Region {
  rg_base : Z;
  rg_size : Z;
  rg_check : emu_check_t;
}.

#[global] Instance region_eq_dec : EqDecision region.
Proof. solve_decision. Defined.

(** Statics of emulation.c *)
Record emu_data := EmuData {
  emu_data_pstart : Z;
  emu_data_vstart : Z;
  emu_data_size : Z;
  emu_instr_pstart : Z;
  emu_instr_vstart : Z;
  emu_instr_size : Z;
  regions : list region;
}.
Definition set_emu_data_pstart (v : Z) (r : emu_data) : emu_data := EmuData v (emu_data_vstart r) (emu_data_size r) (emu_instr_pstart r) (emu_instr_vstart r) (emu_instr_size r) (regions r).
Definition set_emu_data_vstart (v : Z) (r : emu_data) : emu_data := EmuData (emu_data_pstart r) v (emu_data_size r) (emu_instr_pstart r) (emu_instr_vstart r) (emu_instr_size r) (regions r).
Definition set_emu_data_size (v : Z) (r : emu_data) : emu_data := EmuData (emu_data_pstart r) (emu_data_vstart r) v (emu_instr_pstart r) (emu_instr_vstart r) (emu_instr_size r) (regions r).
Definition set_emu_instr_pstart (v : Z) (r : emu_data) : emu_data := EmuData (emu_data_pstart r) (emu_data_vstart r) (emu_data_size r) v (emu_instr_vstart r) (emu_instr_size r) (regions r).
Definition set_emu_instr_vstart (v : Z) (r : emu_data) : emu_data := EmuData (emu_data_pstart r) (emu_data_vstart r) (emu_data_size r) (emu_instr_pstart r) v (emu_instr_size r) (regions r).
Definition set_emu_instr_size (v : Z) (r : emu_data) : emu_data := EmuData (emu_data_pstart r) (emu_data_vstart r) (emu_data_size r) (emu_instr_pstart r) (emu_instr_vstart r) v (regions r).
Definition set_regions (v : list region) (r : emu_data) : emu_data := EmuData (emu_data_pstart r) (emu_data_vstart r) (emu_data_size r) (emu_instr_pstart r) (emu_instr_vstart r) (emu_instr_size r) v.

(** Statics of imx_csu.c *)
Record csu_data := CsuData {
  csu_base : Z;
  csu_csl_counts : list Z;
}.
Definition set_csu_base (v : Z) (r : csu_data) : csu_data := CsuData v (csu_csl_counts r).
Definition set_csu_csl_counts (v : list Z) (r : csu_data) : csu_data := CsuData (csu_base r) v.

(** ** Interrupts (kernel/interrupt.h) *)

Inductive irq_return := ITRR_NONE | ITRR_HANDLED | ITRR_HANDLED_PASS | ITRR_HANDLED_DEFAULT.
#[global] Instance irq_return_eq_dec : EqDecision irq_return.
Proof. solve_decision. Defined.

(** The objects a [struct irq_chip *] designates: the two chips embedded in
    [g_gic], the one embedded in each GPIO port, and the null pointer, which designates none. *)
Inductive chip_ptr := CHIP_GIC | CHIP_GPC | CHIP_GPIO (port : port_ptr) | CHIP_NULL.
#[global] Instance chip_ptr_eq_dec : EqDecision chip_ptr.
Proof. solve_decision. Defined.
#[global] Program Instance chip_ptr_countable : Countable chip_ptr :=
  inj_countable'
    (fun c => match c with CHIP_GIC => Some (inl false) | CHIP_GPC => Some (inl true) | CHIP_GPIO p => Some (inr p) | CHIP_NULL => None end)
    (fun x => match x with Some (inl false) => CHIP_GIC | Some (inl true) => CHIP_GPC | Some (inr p) => CHIP_GPIO p | None => CHIP_NULL end) _.
Next Obligation. by intros []. Qed.

(** The two [struct irq_chip_ops] tables. *)
Inductive irq_chip_ops := GIC_OPS | GPIO_OPS.
#[global] Instance irq_chip_ops_eq_dec : EqDecision irq_chip_ops.
Proof. solve_decision. Defined.

(** The objects a [struct irq_handler *] designates. *)
Inductive handler_ptr :=
| PORT_HANDLER (port : port_ptr)
| PORT_HANDLER_HIGH (port : port_ptr)
| BUTTON_HANDLER (button : nat).
#[global] Instance handler_ptr_eq_dec : EqDecision handler_ptr.
Proof. solve_decision. Defined.

(** Values of [irq_handler.handle] and of the [void *data] beside it. *)
Inductive handle_fn := MX2_GPIO_IRQ_HANDLER | MX3_GPIO_IRQ_HANDLER | GPIO_KEYS_HANDLER.
Inductive handler_data := DATA_PORT (port : port_ptr) | DATA_BUTTON (button : nat).

(** [struct irq_handler] *)
Record irq_handler := IrqHandler {
  ih_data : handler_data;
  ih_handle : handle_fn;
}.

(** [struct irq_chip]; [data] is determined by the chip: the port of
    [CHIP_GPIO], [g_gic] otherwise. *)
Record irq_chip := IrqChip {
  ic_dev : dev_ptr;
  ic_ops : irq_chip_ops;
  ic_num_irqs : Z;
  ic_default_handler : bool;
  ic_handlers : list (option handler_ptr);
}.
Definition set_ic_dev (v : dev_ptr) (r : irq_chip) : irq_chip := IrqChip v (ic_ops r) (ic_num_irqs r) (ic_default_handler r) (ic_handlers r).
Definition set_ic_ops (v : irq_chip_ops) (r : irq_chip) : irq_chip := IrqChip (ic_dev r) v (ic_num_irqs r) (ic_default_handler r) (ic_handlers r).
Definition set_ic_num_irqs (v : Z) (r : irq_chip) : irq_chip := IrqChip (ic_dev r) (ic_ops r) v (ic_default_handler r) (ic_handlers r).
Definition set_ic_default_handler (v : bool) (r : irq_chip) : irq_chip := IrqChip (ic_dev r) (ic_ops r) (ic_num_irqs r) v (ic_handlers r).
Definition set_ic_handlers (v : list (option handler_ptr)) (r : irq_chip) : irq_chip := IrqChip (ic_dev r) (ic_ops r) (ic_num_irqs r) (ic_default_handler r) v.

(** [struct irq_desc] *)
Record irq_desc := IrqDesc {
  id_chip : chip_ptr;
  id_irq : Z;
}.

(** [struct irq_info] *)
Record irq_info := IrqInfo {
  ii_desc : irq_desc;
  ii_flags : Z;
}.

(** The [chips] list of interrupt.c and the chip objects it links. *)
Record irq_data := IrqData {
  chips : list chip_ptr;
  chip_objs : gmap chip_ptr irq_chip;
}.
Definition set_chips (v : list chip_ptr) (r : irq_data) : irq_data := IrqData v (chip_objs r).
Definition set_chip_objs (v : gmap chip_ptr irq_chip) (r : irq_data) : irq_data := IrqData (chips r) v.

(** [struct gic_data] without the two embedded chips (see [chip_objs]). *)
Record gic_data := GicData {
  gicc_base : Z;
  gicd_base : Z;
  max_it : Z;
}.
Definition set_gicc_base (v : Z) (r : gic_data) : gic_data := GicData v (gicd_base r) (max_it r).
Definition set_gicd_base (v : Z) (r : gic_data) : gic_data := GicData (gicc_base r) v (max_it r).
Definition set_max_it (v : Z) (r : gic_data) : gic_data := GicData (gicc_base r) (gicd_base r) v.

(** ** Devices (drivers/dt.h) *)

Inductive resource_type := RESOURCE_MEM | RESOURCE_OTHER.
#[global] Instance resource_type_eq_dec : EqDecision resource_type.
Proof. solve_decision. Defined.

(** [struct resource]: the [FDT_MAX_NCELLS] cells of each array. *)
Record resource := Resource {
  rs_address : list Z;
  rs_size : list Z;
}.

(** [struct device]; [deps], [num_deps] and [probed] are never used. *)
Record device := Device {
  dv_node : Z;
  dv_phandle : Z;
  dv_name : string;
  dv_parent : option dev_ptr;
  dv_resource_type : resource_type;
  dv_resources : list resource;
  dv_irqs : list irq_info;
  dv_csu : list Z;
  dv_classes : list string;
  dv_enabled : bool;
  dv_is_simple_bus : bool;
}.
Definition set_dv_node (v : Z) (r : device) : device := Device v (dv_phandle r) (dv_name r) (dv_parent r) (dv_resource_type r) (dv_resources r) (dv_irqs r) (dv_csu r) (dv_classes r) (dv_enabled r) (dv_is_simple_bus r).
Definition set_dv_phandle (v : Z) (r : device) : device := Device (dv_node r) v (dv_name r) (dv_parent r) (dv_resource_type r) (dv_resources r) (dv_irqs r) (dv_csu r) (dv_classes r) (dv_enabled r) (dv_is_simple_bus r).
Definition set_dv_name (v : string) (r : device) : device := Device (dv_node r) (dv_phandle r) v (dv_parent r) (dv_resource_type r) (dv_resources r) (dv_irqs r) (dv_csu r) (dv_classes r) (dv_enabled r) (dv_is_simple_bus r).
Definition set_dv_parent (v : option dev_ptr) (r : device) : device := Device (dv_node r) (dv_phandle r) (dv_name r) v (dv_resource_type r) (dv_resources r) (dv_irqs r) (dv_csu r) (dv_classes r) (dv_enabled r) (dv_is_simple_bus r).
Definition set_dv_resource_type (v : resource_type) (r : device) : device := Device (dv_node r) (dv_phandle r) (dv_name r) (dv_parent r) v (dv_resources r) (dv_irqs r) (dv_csu r) (dv_classes r) (dv_enabled r) (dv_is_simple_bus r).
Definition set_dv_resources (v : list resource) (r : device) : device := Device (dv_node r) (dv_phandle r) (dv_name r) (dv_parent r) (dv_resource_type r) v (dv_irqs r) (dv_csu r) (dv_classes r) (dv_enabled r) (dv_is_simple_bus r).
Definition set_dv_irqs (v : list irq_info) (r : device) : device := Device (dv_node r) (dv_phandle r) (dv_name r) (dv_parent r) (dv_resource_type r) (dv_resources r) v (dv_csu r) (dv_classes r) (dv_enabled r) (dv_is_simple_bus r).
Definition set_dv_csu (v : list Z) (r : device) : device := Device (dv_node r) (dv_phandle r) (dv_name r) (dv_parent r) (dv_resource_type r) (dv_resources r) (dv_irqs r) v (dv_classes r) (dv_enabled r) (dv_is_simple_bus r).
Definition set_dv_classes (v : list string) (r : device) : device := Device (dv_node r) (dv_phandle r) (dv_name r) (dv_parent r) (dv_resource_type r) (dv_resources r) (dv_irqs r) (dv_csu r) v (dv_enabled r) (dv_is_simple_bus r).
Definition set_dv_enabled (v : bool) (r : device) : device := Device (dv_node r) (dv_phandle r) (dv_name r) (dv_parent r) (dv_resource_type r) (dv_resources r) (dv_irqs r) (dv_csu r) (dv_classes r) v (dv_is_simple_bus r).
Definition set_dv_is_simple_bus (v : bool) (r : device) : device := Device (dv_node r) (dv_phandle r) (dv_name r) (dv_parent r) (dv_resource_type r) (dv_resources r) (dv_irqs r) (dv_csu r) (dv_classes r) (dv_enabled r) v.

(** [g_device_table] of drivers/dt.c: the buckets, the device objects they link,
    and the next fresh index. *)
Record dt_data := DtData {
  device_table : list (list dev_ptr);
  device_objs : gmap dev_ptr device;
  next_device : dev_ptr;
}.
Definition set_device_table (v : list (list dev_ptr)) (r : dt_data) : dt_data := DtData v (device_objs r) (next_device r).
Definition set_device_objs (v : gmap dev_ptr device) (r : dt_data) : dt_data := DtData (device_table r) v (next_device r).
Definition set_next_device (v : dev_ptr) (r : dt_data) : dt_data := DtData (device_table r) (device_objs r) v.

(** ** GPIO (drivers/imx_gpio.c) *)

(** [struct mxc_gpio_hwdata] *)
Record mxc_gpio_hwdata := MxcGpioHwdata {
  dr_reg : Z;
  gdir_reg : Z;
  psr_reg : Z;
  icr1_reg : Z;
  icr2_reg : Z;
  imr_reg : Z;
  isr_reg : Z;
  edge_sel_reg : Z;
  low_level : Z;
  high_level : Z;
  rise_edge : Z;
  fall_edge : Z;
}.

(** [struct mxc_gpio_port]; the descriptors it points to are never modified, so
    they are held by value. *)
Record mxc_gpio_port := MxcGpioPort {
  gp_dev : dev_ptr;
  gp_pbase : Z;
  gp_base : Z;
  gp_irq : option irq_desc;
  gp_handler : option irq_handler;
  gp_irq_high : option irq_desc;
  gp_handler_high : option irq_handler;
  gp_irq_pass : option irq_desc;
  gp_both_edges : Z;
  gp_imr_previous : Z;
  gp_secure_mask : Z;
  gp_secure_irq_mask : Z;
  gp_passed_irq_mask : Z;
}.
Definition set_gp_dev (v : dev_ptr) (r : mxc_gpio_port) : mxc_gpio_port := MxcGpioPort v (gp_pbase r) (gp_base r) (gp_irq r) (gp_handler r) (gp_irq_high r) (gp_handler_high r) (gp_irq_pass r) (gp_both_edges r) (gp_imr_previous r) (gp_secure_mask r) (gp_secure_irq_mask r) (gp_passed_irq_mask r).
Definition set_gp_pbase (v : Z) (r : mxc_gpio_port) : mxc_gpio_port := MxcGpioPort (gp_dev r) v (gp_base r) (gp_irq r) (gp_handler r) (gp_irq_high r) (gp_handler_high r) (gp_irq_pass r) (gp_both_edges r) (gp_imr_previous r) (gp_secure_mask r) (gp_secure_irq_mask r) (gp_passed_irq_mask r).
Definition set_gp_base (v : Z) (r : mxc_gpio_port) : mxc_gpio_port := MxcGpioPort (gp_dev r) (gp_pbase r) v (gp_irq r) (gp_handler r) (gp_irq_high r) (gp_handler_high r) (gp_irq_pass r) (gp_both_edges r) (gp_imr_previous r) (gp_secure_mask r) (gp_secure_irq_mask r) (gp_passed_irq_mask r).
Definition set_gp_irq (v : option irq_desc) (r : mxc_gpio_port) : mxc_gpio_port := MxcGpioPort (gp_dev r) (gp_pbase r) (gp_base r) v (gp_handler r) (gp_irq_high r) (gp_handler_high r) (gp_irq_pass r) (gp_both_edges r) (gp_imr_previous r) (gp_secure_mask r) (gp_secure_irq_mask r) (gp_passed_irq_mask r).
Definition set_gp_handler (v : option irq_handler) (r : mxc_gpio_port) : mxc_gpio_port := MxcGpioPort (gp_dev r) (gp_pbase r) (gp_base r) (gp_irq r) v (gp_irq_high r) (gp_handler_high r) (gp_irq_pass r) (gp_both_edges r) (gp_imr_previous r) (gp_secure_mask r) (gp_secure_irq_mask r) (gp_passed_irq_mask r).
Definition set_gp_irq_high (v : option irq_desc) (r : mxc_gpio_port) : mxc_gpio_port := MxcGpioPort (gp_dev r) (gp_pbase r) (gp_base r) (gp_irq r) (gp_handler r) v (gp_handler_high r) (gp_irq_pass r) (gp_both_edges r) (gp_imr_previous r) (gp_secure_mask r) (gp_secure_irq_mask r) (gp_passed_irq_mask r).
Definition set_gp_handler_high (v : option irq_handler) (r : mxc_gpio_port) : mxc_gpio_port := MxcGpioPort (gp_dev r) (gp_pbase r) (gp_base r) (gp_irq r) (gp_handler r) (gp_irq_high r) v (gp_irq_pass r) (gp_both_edges r) (gp_imr_previous r) (gp_secure_mask r) (gp_secure_irq_mask r) (gp_passed_irq_mask r).
Definition set_gp_irq_pass (v : option irq_desc) (r : mxc_gpio_port) : mxc_gpio_port := MxcGpioPort (gp_dev r) (gp_pbase r) (gp_base r) (gp_irq r) (gp_handler r) (gp_irq_high r) (gp_handler_high r) v (gp_both_edges r) (gp_imr_previous r) (gp_secure_mask r) (gp_secure_irq_mask r) (gp_passed_irq_mask r).
Definition set_gp_both_edges (v : Z) (r : mxc_gpio_port) : mxc_gpio_port := MxcGpioPort (gp_dev r) (gp_pbase r) (gp_base r) (gp_irq r) (gp_handler r) (gp_irq_high r) (gp_handler_high r) (gp_irq_pass r) v (gp_imr_previous r) (gp_secure_mask r) (gp_secure_irq_mask r) (gp_passed_irq_mask r).
Definition set_gp_imr_previous (v : Z) (r : mxc_gpio_port) : mxc_gpio_port := MxcGpioPort (gp_dev r) (gp_pbase r) (gp_base r) (gp_irq r) (gp_handler r) (gp_irq_high r) (gp_handler_high r) (gp_irq_pass r) (gp_both_edges r) v (gp_secure_mask r) (gp_secure_irq_mask r) (gp_passed_irq_mask r).
Definition set_gp_secure_mask (v : Z) (r : mxc_gpio_port) : mxc_gpio_port := MxcGpioPort (gp_dev r) (gp_pbase r) (gp_base r) (gp_irq r) (gp_handler r) (gp_irq_high r) (gp_handler_high r) (gp_irq_pass r) (gp_both_edges r) (gp_imr_previous r) v (gp_secure_irq_mask r) (gp_passed_irq_mask r).
Definition set_gp_secure_irq_mask (v : Z) (r : mxc_gpio_port) : mxc_gpio_port := MxcGpioPort (gp_dev r) (gp_pbase r) (gp_base r) (gp_irq r) (gp_handler r) (gp_irq_high r) (gp_handler_high r) (gp_irq_pass r) (gp_both_edges r) (gp_imr_previous r) (gp_secure_mask r) v (gp_passed_irq_mask r).
Definition set_gp_passed_irq_mask (v : Z) (r : mxc_gpio_port) : mxc_gpio_port := MxcGpioPort (gp_dev r) (gp_pbase r) (gp_base r) (gp_irq r) (gp_handler r) (gp_irq_high r) (gp_handler_high r) (gp_irq_pass r) (gp_both_edges r) (gp_imr_previous r) (gp_secure_mask r) (gp_secure_irq_mask r) v.

(** Statics of imx_gpio.c and the port objects. *)
Record gpio_data := GpioData {
  mxc_gpio_hwtype : Z;
  mxc_gpio_hw : option mxc_gpio_hwdata;
  mxc_gpio_ports : list port_ptr;
  port_objs : gmap port_ptr mxc_gpio_port;
  next_port : port_ptr;
}.
Definition set_mxc_gpio_hwtype (v : Z) (r : gpio_data) : gpio_data := GpioData v (mxc_gpio_hw r) (mxc_gpio_ports r) (port_objs r) (next_port r).
Definition set_mxc_gpio_hw (v : option mxc_gpio_hwdata) (r : gpio_data) : gpio_data := GpioData (mxc_gpio_hwtype r) v (mxc_gpio_ports r) (port_objs r) (next_port r).
Definition set_mxc_gpio_ports (v : list port_ptr) (r : gpio_data) : gpio_data := GpioData (mxc_gpio_hwtype r) (mxc_gpio_hw r) v (port_objs r) (next_port r).
Definition set_port_objs (v : gmap port_ptr mxc_gpio_port) (r : gpio_data) : gpio_data := GpioData (mxc_gpio_hwtype r) (mxc_gpio_hw r) (mxc_gpio_ports r) v (next_port r).
Definition set_next_port (v : port_ptr) (r : gpio_data) : gpio_data := GpioData (mxc_gpio_hwtype r) (mxc_gpio_hw r) (mxc_gpio_ports r) (port_objs r) v.

(** ** GPIO keys (drivers/imx_gpio_keys.c) *)

(** The objects a [struct button_handler *] designates. *)
Inductive button_handler := CLOAK_BUTTON_HANDLER | SECPWR_BUTTON_HANDLER.
#[global] Instance button_handler_eq_dec : EqDecision button_handler.
Proof. solve_decision. Defined.

Inductive secpwr_state_t := SECPWR_STATE0 | SECPWR_STATE1 | SECPWR_STATE2 | SECPWR_STATE3.
#[global] Instance secpwr_state_t_eq_dec : EqDecision secpwr_state_t.
Proof. solve_decision. Defined.

(** [struct gpio_keys_button] without its description string. *)
Record gpio_keys_button := GpioKeysButton {
  gk_code : Z;
  gk_gpio_irq : irq_desc;
  gk_gpio_irq_flags : Z;
  gk_gpio_irq_handler : irq_handler;
}.

(** [struct gpio_keys_platform_data] without the unused members. *)
Record gpio_keys_platform_data := GpioKeysPlatformData {
  gk_buttons : list gpio_keys_button;
  gk_handlers : list button_handler;
}.
Definition set_gk_buttons (v : list gpio_keys_button) (r : gpio_keys_platform_data) : gpio_keys_platform_data := GpioKeysPlatformData v (gk_handlers r).
Definition set_gk_handlers (v : list button_handler) (r : gpio_keys_platform_data) : gpio_keys_platform_data := GpioKeysPlatformData (gk_buttons r) v.

(** Statics of imx_gpio_keys.c *)
Record keys_data := KeysData {
  pdata : option gpio_keys_platform_data;
  secpwr_state : secpwr_state_t;
}.
Definition set_pdata (v : option gpio_keys_platform_data) (r : keys_data) : keys_data := KeysData v (secpwr_state r).
Definition set_secpwr_state (v : secpwr_state_t) (r : keys_data) : keys_data := KeysData (pdata r) v.

(** ** Frame buffer (drivers/imx_fb.h) *)

(** [struct fb_info]; a null [buffer] is 0. *)
Record fb_info := FbInfo {
  fi_buffer : Z;
  fi_width : Z;
  fi_height : Z;
  fi_stride : Z;
  fi_prev_params_ch0 : list Z;
  fi_prev_params_ch1 : list Z;
}.
Definition set_fi_buffer (v : Z) (r : fb_info) : fb_info := FbInfo v (fi_width r) (fi_height r) (fi_stride r) (fi_prev_params_ch0 r) (fi_prev_params_ch1 r).
Definition set_fi_width (v : Z) (r : fb_info) : fb_info := FbInfo (fi_buffer r) v (fi_height r) (fi_stride r) (fi_prev_params_ch0 r) (fi_prev_params_ch1 r).
Definition set_fi_height (v : Z) (r : fb_info) : fb_info := FbInfo (fi_buffer r) (fi_width r) v (fi_stride r) (fi_prev_params_ch0 r) (fi_prev_params_ch1 r).
Definition set_fi_stride (v : Z) (r : fb_info) : fb_info := FbInfo (fi_buffer r) (fi_width r) (fi_height r) v (fi_prev_params_ch0 r) (fi_prev_params_ch1 r).
Definition set_fi_prev_params_ch0 (v : list Z) (r : fb_info) : fb_info := FbInfo (fi_buffer r) (fi_width r) (fi_height r) (fi_stride r) v (fi_prev_params_ch1 r).
Definition set_fi_prev_params_ch1 (v : list Z) (r : fb_info) : fb_info := FbInfo (fi_buffer r) (fi_width r) (fi_height r) (fi_stride r) (fi_prev_params_ch0 r) v.

(** [struct image]: the pixel data by its address. *)
Record image := Image {
  im_buffer : Z;
  im_width : Z;
  im_height : Z;
}.

(** [struct blit] *)
Record blit := Blit {
  bl_x : Z;
  bl_y : Z;
  bl_image : image;
}.

(** Statics of imx_fb.c *)
Record fb_data := FbData {
  g_base_paddr : Z;
  g_base_vaddr : Z;
  g_cpmem_vaddr : Z;
}.
Definition set_g_base_paddr (v : Z) (r : fb_data) : fb_data := FbData v (g_base_vaddr r) (g_cpmem_vaddr r).
Definition set_g_base_vaddr (v : Z) (r : fb_data) : fb_data := FbData (g_base_paddr r) v (g_cpmem_vaddr r).
Definition set_g_cpmem_vaddr (v : Z) (r : fb_data) : fb_data := FbData (g_base_paddr r) (g_base_vaddr r) v.

(** Statics of secloak/entry.c *)
Record cloak_data := CloakData {
  cloak_lock : Z;
  cloak_prev_settings : Z;
  cloak_confirm_status : Z;
}.
Definition set_cloak_lock (v : Z) (r : cloak_data) : cloak_data := CloakData v (cloak_prev_settings r) (cloak_confirm_status r).
Definition set_cloak_prev_settings (v : Z) (r : cloak_data) : cloak_data := CloakData (cloak_lock r) v (cloak_confirm_status r).
Definition set_cloak_confirm_status (v : Z) (r : cloak_data) : cloak_data := CloakData (cloak_lock r) (cloak_prev_settings r) v.

(** ** World contexts of the monitor (sm/sm.h) and SMC arguments (kernel/thread.h) *)

(** [struct sm_nsec_ctx] and [struct sm_sec_ctx], which have the same members: the
    17 banked registers, r8 to r12, lr, r0 to r7, and the return state. *)
Record sm_world_ctx := SmWorldCtx {
  wc_mode_regs : list Z;
  wc_r8 : list Z;
  wc_lr : Z;
  wc_r0 : list Z;
  wc_mon_lr : Z;
  wc_mon_spsr : Z;
}.
Definition set_wc_mode_regs (v : list Z) (r : sm_world_ctx) : sm_world_ctx := SmWorldCtx v (wc_r8 r) (wc_lr r) (wc_r0 r) (wc_mon_lr r) (wc_mon_spsr r).
Definition set_wc_r8 (v : list Z) (r : sm_world_ctx) : sm_world_ctx := SmWorldCtx (wc_mode_regs r) v (wc_lr r) (wc_r0 r) (wc_mon_lr r) (wc_mon_spsr r).
Definition set_wc_lr (v : Z) (r : sm_world_ctx) : sm_world_ctx := SmWorldCtx (wc_mode_regs r) (wc_r8 r) v (wc_r0 r) (wc_mon_lr r) (wc_mon_spsr r).
Definition set_wc_r0 (v : list Z) (r : sm_world_ctx) : sm_world_ctx := SmWorldCtx (wc_mode_regs r) (wc_r8 r) (wc_lr r) v (wc_mon_lr r) (wc_mon_spsr r).
Definition set_wc_mon_lr (v : Z) (r : sm_world_ctx) : sm_world_ctx := SmWorldCtx (wc_mode_regs r) (wc_r8 r) (wc_lr r) (wc_r0 r) v (wc_mon_spsr r).
Definition set_wc_mon_spsr (v : Z) (r : sm_world_ctx) : sm_world_ctx := SmWorldCtx (wc_mode_regs r) (wc_r8 r) (wc_lr r) (wc_r0 r) (wc_mon_lr r) v.

(** [struct sm_ctx] *)
Record sm_ctx := SmCtx {
  sc_sec : sm_world_ctx;
  sc_nsec : sm_world_ctx;
}.
Definition set_sc_sec (v : sm_world_ctx) (r : sm_ctx) : sm_ctx := SmCtx v (sc_nsec r).
Definition set_sc_nsec (v : sm_world_ctx) (r : sm_ctx) : sm_ctx := SmCtx (sc_sec r) v.

(** [struct thread_smc_args] *)
Record thread_smc_args := ThreadSmcArgs {
  a0 : Z;
  a1 : Z;
  a2 : Z;
  a3 : Z;
  a4 : Z;
  a5 : Z;
  a6 : Z;
  a7 : Z;
}.
Definition set_a0 (v : Z) (r : thread_smc_args) : thread_smc_args := ThreadSmcArgs v (a1 r) (a2 r) (a3 r) (a4 r) (a5 r) (a6 r) (a7 r).
Definition set_a1 (v : Z) (r : thread_smc_args) : thread_smc_args := ThreadSmcArgs (a0 r) v (a2 r) (a3 r) (a4 r) (a5 r) (a6 r) (a7 r).
Definition set_a2 (v : Z) (r : thread_smc_args) : thread_smc_args := ThreadSmcArgs (a0 r) (a1 r) v (a3 r) (a4 r) (a5 r) (a6 r) (a7 r).
Definition set_a3 (v : Z) (r : thread_smc_args) : thread_smc_args := ThreadSmcArgs (a0 r) (a1 r) (a2 r) v (a4 r) (a5 r) (a6 r) (a7 r).
Definition set_a4 (v : Z) (r : thread_smc_args) : thread_smc_args := ThreadSmcArgs (a0 r) (a1 r) (a2 r) (a3 r) v (a5 r) (a6 r) (a7 r).
Definition set_a5 (v : Z) (r : thread_smc_args) : thread_smc_args := ThreadSmcArgs (a0 r) (a1 r) (a2 r) (a3 r) (a4 r) v (a6 r) (a7 r).
Definition set_a6 (v : Z) (r : thread_smc_args) : thread_smc_args := ThreadSmcArgs (a0 r) (a1 r) (a2 r) (a3 r) (a4 r) (a5 r) v (a7 r).
Definition set_a7 (v : Z) (r : thread_smc_args) : thread_smc_args := ThreadSmcArgs (a0 r) (a1 r) (a2 r) (a3 r) (a4 r) (a5 r) (a6 r) v.

(** ** The whole kernel *)

(** The state of the secure kernel over a platform [P]. *)
Record kernel (P : Type) := Kernel {
  k_plat : P;
  k_mmu : mmu_data;
  k_emu : emu_data;
  k_csu : csu_data;
  k_irq : irq_data;
  k_gic : gic_data;
  k_dt : dt_data;
  k_gpio : gpio_data;
  k_keys : keys_data;
  k_fb : fb_data;
  k_cloak : cloak_data;
}.
Arguments k_plat {P} _.
Arguments k_mmu {P} _.
Arguments k_emu {P} _.
Arguments k_csu {P} _.
Arguments k_irq {P} _.
Arguments k_gic {P} _.
Arguments k_dt {P} _.
Arguments k_gpio {P} _.
Arguments k_keys {P} _.
Arguments k_fb {P} _.
Arguments k_cloak {P} _.
Arguments Kernel {P} _ _ _ _ _ _ _ _ _ _ _.
Definition set_k_plat {P} (v : P) (r : kernel P) : kernel P := Kernel v (k_mmu r) (k_emu r) (k_csu r) (k_irq r) (k_gic r) (k_dt r) (k_gpio r) (k_keys r) (k_fb r) (k_cloak r).
Definition set_k_mmu {P} (v : mmu_data) (r : kernel P) : kernel P := Kernel (k_plat r) v (k_emu r) (k_csu r) (k_irq r) (k_gic r) (k_dt r) (k_gpio r) (k_keys r) (k_fb r) (k_cloak r).
Definition set_k_emu {P} (v : emu_data) (r : kernel P) : kernel P := Kernel (k_plat r) (k_mmu r) v (k_csu r) (k_irq r) (k_gic r) (k_dt r) (k_gpio r) (k_keys r) (k_fb r) (k_cloak r).
Definition set_k_csu {P} (v : csu_data) (r : kernel P) : kernel P := Kernel (k_plat r) (k_mmu r) (k_emu r) v (k_irq r) (k_gic r) (k_dt r) (k_gpio r) (k_keys r) (k_fb r) (k_cloak r).
Definition set_k_irq {P} (v : irq_data) (r : kernel P) : kernel P := Kernel (k_plat r) (k_mmu r) (k_emu r) (k_csu r) v (k_gic r) (k_dt r) (k_gpio r) (k_keys r) (k_fb r) (k_cloak r).
Definition set_k_gic {P} (v : gic_data) (r : kernel P) : kernel P := Kernel (k_plat r) (k_mmu r) (k_emu r) (k_csu r) (k_irq r) v (k_dt r) (k_gpio r) (k_keys r) (k_fb r) (k_cloak r).
Definition set_k_dt {P} (v : dt_data) (r : kernel P) : kernel P := Kernel (k_plat r) (k_mmu r) (k_emu r) (k_csu r) (k_irq r) (k_gic r) v (k_gpio r) (k_keys r) (k_fb r) (k_cloak r).
Definition set_k_gpio {P} (v : gpio_data) (r : kernel P) : kernel P := Kernel (k_plat r) (k_mmu r) (k_emu r) (k_csu r) (k_irq r) (k_gic r) (k_dt r) v (k_keys r) (k_fb r) (k_cloak r).
Definition set_k_keys {P} (v : keys_data) (r : kernel P) : kernel P := Kernel (k_plat r) (k_mmu r) (k_emu r) (k_csu r) (k_irq r) (k_gic r) (k_dt r) (k_gpio r) v (k_fb r) (k_cloak r).
Definition set_k_fb {P} (v : fb_data) (r : kernel P) : kernel P := Kernel (k_plat r) (k_mmu r) (k_emu r) (k_csu r) (k_irq r) (k_gic r) (k_dt r) (k_gpio r) (k_keys r) v (k_cloak r).
Definition set_k_cloak {P} (v : cloak_data) (r : kernel P) : kernel P := Kernel (k_plat r) (k_mmu r) (k_emu r) (k_csu r) (k_irq r) (k_gic r) (k_dt r) (k_gpio r) (k_keys r) (k_fb r) v.

#[global] Program Instance kernel_platform (P : Type) : HasPlatform P (kernel P) := {
  get_platform := k_plat;
  set_platform := set_k_plat;
}.
Next Obligation. done. Qed.
Next Obligation. done. Qed.
Next Obligation. by intros P []. Qed.

(** The state after the image is loaded: zero-initialised statics. *)
Definition kernel_init {P} (p : P) : kernel P :=
  Kernel p (MmuData [] ∅ ∅ 0)
    (EmuData 0 0 0 0 0 0 []) (CsuData 0 (replicate 80 0)) (IrqData [] ∅) (GicData 0 0 0)
    (DtData (replicate 128 []) ∅ 0%nat) (GpioData 0 None [] ∅ 0%nat)
    (KeysData None SECPWR_STATE0) (FbData 0 0 0) (CloakData 0 0 0).

(** [*dev] *)
Definition get_device {P} (d : dev_ptr) : M (kernel P) device :=
  bind (gets (fun s => device_objs (k_dt s) !! d)) deref.
(** [dev->resources[r].address[0]] and [dev->resources[r].size[0]] *)
Definition resource_of {P} (dev : device) (r : Z) : M (kernel P) (Z * Z) :=
  bind (aget (dv_resources dev) r) (fun rs =>
  bind (aget (rs_address rs) 0) (fun a => bind (aget (rs_size rs) 0) (fun n => ret (a, n)))).
