(* ===== verification/Frame.v ===== *)
(** * Framing of hardware accesses

    [io_path W p p']: the platform [p'] is reached from [p] by accesses inside
    the window [W] only ([W true a n]: an [n]-byte store at [a]; [W false a n]: a load).  [io_only]: a routine that returns and whose only
    effect on the kernel is such a path.  Plain registers outside the window
    and the state of the heap are then unchanged, which is how the drivers'
    theorems are combined. *)

From stdpp Require Import prelude gmap list.
From Stdlib Require Import ZArith Lia.
From S2P Require Import Prelude Platform State.
#[local] Open Scope Z_scope.
#[local] Open Scope kernel_scope.

Section path.
Context {P : Type} {plat : Platform P}.

Inductive io_path (W : bool -> Z -> Z -> Prop) : P -> P -> Prop :=
| io_path_refl p : io_path W p p
| io_path_read p n a p' :
    0 < n -> W false a n -> io_path W (io_read n a p).2 p' -> io_path W p p'
| io_path_write p n a v p' :
    0 < n -> W true a n -> io_path W (io_write n a v p) p' -> io_path W p p'.

Lemma io_path_trans W p q r : io_path W p q -> io_path W q r -> io_path W p r.
Proof. induction 1; intros; [done|by eapply io_path_read; eauto|by eapply io_path_write; eauto]. Qed.

Lemma io_path_snoc W p q n a v : io_path W p q -> 0 < n -> W true a n -> io_path W p (io_write n a v q).
Proof. intros Hp Hn HW. eapply io_path_trans; [exact Hp|]. by eapply io_path_write; [..|constructor]. Qed.

Lemma io_path_mono (W W' : bool -> Z -> Z -> Prop) p q :
  (forall k a n, W k a n -> W' k a n) -> io_path W p q -> io_path W' p q.
Proof. intros HW. induction 1; [constructor|eapply io_path_read; eauto|eapply io_path_write; eauto]. Qed.

Lemma io_path_reg (R : Z -> Prop) {regs : PlainRegs P R} W p q a :
  R (u32 a) -> (forall k b n, W k b n -> apart (u32 a) 4 b n) -> io_path W p q -> reg q a = reg p a.
Proof.
  intros HR Hap. induction 1 as [|p n b q Hn HW _ IH|p n b v q Hn HW _ IH]; [done| |];
    rewrite IH; unfold reg; f_equal.
  - apply reg_frame_read; [done..|]. by apply (Hap false).
  - apply reg_frame_write; [done..|]. by apply (Hap true).
Qed.

Lemma io_path_heap (ok : P -> Prop) {heap : HeapAvailable P ok} W p q : ok p -> io_path W p q -> ok q.
Proof.
  intros Hok. induction 1; [done| |]; apply IHio_path; [by apply heap_ok_read|by apply heap_ok_write].
Qed.
End path.

#[global] Instance io_path_preorder {P} `{Platform P} W : PreOrder (io_path (P:=P) W).
Proof. split; [intros p; constructor|intros p q r; apply io_path_trans]. Qed.

Section io_only.
Context {P : Type} {plat : Platform P} (W : bool -> Z -> Z -> Prop).
Implicit Types s : kernel P.

(** Same kernel, except for the platform. *)
Definition io_step (s s' : kernel P) : Prop :=
  exists p', s' = set_k_plat p' s /\ io_path W (k_plat s) p'.

Lemma io_step_refl s : io_step s s.
Proof. exists (k_plat s). split; [by destruct s|constructor]. Qed.
Lemma io_step_trans s s' s'' : io_step s s' -> io_step s' s'' -> io_step s s''.
Proof. intros (p & -> & Hp) (q & -> & Hq). exists q. split; [done|]. by etrans. Qed.

(** [G] restricts the part of the state the routine finds its addresses in. *)
Definition io_only {A} (G : kernel P -> Prop) (m : M (kernel P) A) : Prop :=
  forall s, G s -> wp m s (fun _ s' => io_step s s').

Definition plat_stable (G : kernel P -> Prop) : Prop := forall s p, G s -> G (set_k_plat p s).

Lemma io_only_ret {A} G (a : A) : io_only G (ret a).
Proof. intros s _. apply wp_ret, io_step_refl. Qed.
Lemma io_only_gets {A} G (f : kernel P -> A) : io_only G (gets f).
Proof. intros s _. apply wp_gets, io_step_refl. Qed.
Lemma io_only_when G (b : bool) m : io_only G m -> io_only G (when b m).
Proof. destruct b; [done|]. intros _. apply io_only_ret. Qed.
Lemma io_only_bind {A B} G (m : M (kernel P) A) (k : A -> M (kernel P) B) :
  plat_stable G -> io_only G m -> (forall a, io_only G (k a)) -> io_only G (bind m k).
Proof.
  intros HG Hm Hk s Hs. apply wp_bind. eapply wp_mono; [|by apply Hm].
  intros a s' Hs'. assert (Hg : G s') by (destruct Hs' as (p & -> & _); by apply HG).
  eapply wp_mono; [|exact (Hk a s' Hg)]. intros b s'' Hs''. exact (io_step_trans _ _ _ Hs' Hs'').
Qed.
(** A value read from the guarded part of the state. *)
Lemma io_only_gets_bind {A B} G (f : kernel P -> A) a (k : A -> M (kernel P) B) :
  (forall s, G s -> f s = a) -> io_only G (k a) -> io_only G (bind (gets f) k).
Proof. intros Hf Hk s Hs. apply wp_bind, wp_gets. rewrite (Hf s Hs). by apply Hk. Qed.
Lemma io_only_for_each {A} G (l : list A) (f : A -> M (kernel P) unit) :
  plat_stable G -> (forall x, x ∈ l -> io_only G (f x)) -> io_only G (for_each l f).
Proof.
  intros HG. induction l as [|x l IH]; intros Hf; cbn [for_each]; [apply io_only_ret|].
  apply io_only_bind; [done|apply Hf; left|]. intros _. apply IH. intros y Hy. apply Hf. by right.
Qed.
Lemma io_only_load G n a : 0 < n -> W false (u32 a) n -> io_only G (io_load n a).
Proof.
  intros Hn HW s _. unfold wp, io_load.
  destruct (io_read n (u32 a) (get_platform s)) as [v p] eqn:E. exists p. split; [done|].
  eapply io_path_read; [done..|]. cbn in E. rewrite E. constructor.
Qed.
Lemma io_only_store G n v a : 0 < n -> W true (u32 a) n -> io_only G (io_store n v a).
Proof.
  intros Hn HW s _. unfold wp, io_store. eexists. split; [done|]. eapply io_path_write; [done..|constructor].
Qed.
Lemma io_only_massert_ndebug `{Config} G c : cfg_ndebug = true -> io_only G (massert c).
Proof. intros Hd. unfold massert. rewrite Hd. apply io_only_ret. Qed.
End io_only.

Create HintDb io_only.
#[export] Hint Resolve io_only_ret io_only_gets io_only_when io_only_massert_ndebug : io_only.
