(* ===== verification/TeeMisc.v ===== *)
(** * Buffer geometry and hex strings (core/kernel/tee_misc.c)

    The interval tests every memory check of the MMU code rests on, and the
    binary/hexadecimal conversions.  The state of the conversions is the
    destination buffer; an access outside a buffer is a fault. *)

From stdpp Require Import prelude list.
From Stdlib Require Import ZArith Lia.
From S2P Require Import Prelude.
#[local] Open Scope Z_scope.
#[local] Open Scope kernel_scope.


(** ** Definitions *)

Definition tee_b2hs_add_base (x : Z) : Z := if 9 <? x then u8 (x + 55) else u8 (x + 48).

Definition tee_hs2b_rem_base (x : Z) : option Z :=
  if (x <? 48) || (70 <? x) || ((57 <? x) && (x <? 65)) then None
  else if x <? 58 then Some (u8 (x - 48)) else Some (u8 (x - 55)).

Definition TEE_HS2B_BBUF_SIZE (x : Z) : Z := Z.shiftr (u32 (x + 1)) 1.

(** One iteration of the loop of [tee_b2hs]. *)
Definition tee_b2hs_step (b : list Z) (i : Z) : M (list Z) unit :=
  x <- aget b i;;
  hs <- gets id;; hs1 <- aset hs (u32 (i * 2 + 1)) (tee_b2hs_add_base (Z.land x 15));;
  hs2 <- aset hs1 (u32 (i * 2)) (tee_b2hs_add_base (Z.shiftr x 4));;
  modify (fun _ => hs2).

Definition tee_b2hs (b : list Z) (blen hslen : Z) : M (list Z) Z :=
  if hslen <? u32 (u32 (blen * 2) + 1) then ret 0
  else
  for_each (seqZ 0 blen) (tee_b2hs_step b);;;
  hs <- gets id;; hs' <- aset hs (u32 (blen * 2)) 0;; modify (fun _ => hs');;;
  ret (u32 (blen * 2)).

(** The loop of [tee_hs2b] from index [i], with [n] iterations left: [false]
  when a character is not an upper-case hexadecimal digit. *)
Fixpoint tee_hs2b_loop (hs : list Z) (n : nat) (i : Z) : M (list Z) bool :=
  match n with
  | O => ret true
  | S n' =>
    c1 <- aget hs (u32 (i * 2));;
    match tee_hs2b_rem_base c1 with
    | None => ret false
    | Some hi =>
        c2 <- aget hs (u32 (i * 2 + 1));;
        match tee_hs2b_rem_base c2 with
        | None => ret false
        | Some lo =>
            b <- gets id;; b' <- aset b i (u8 (Z.shiftl hi 4 + lo));; modify (fun _ => b');;;
            tee_hs2b_loop hs n' (i + 1)
        end
    end
  end.

Definition tee_hs2b (hs : list Z) (hslen blen : Z) : M (list Z) Z :=
  let len := TEE_HS2B_BBUF_SIZE hslen in
  if blen <? len then ret 0
  else
  ok <- tee_hs2b_loop hs (Z.to_nat len) 0;;
  ret (if ok : bool then len else 0).

Definition is_valid_conf_and_notnull_size (b bl a al : Z) : bool :=
  if (u32 (b - 1 + bl) <? b) || (u32 (a - 1 + al) <? a) then false
  else if (bl =? 0) || (al =? 0) then false else true.

Definition core_is_buffer_inside (b bl a al : Z) : bool :=
  if negb (is_valid_conf_and_notnull_size b bl a al) then false
  else (a <=? b) && (u32 (b - 1 + bl) <=? u32 (a - 1 + al)).

Definition core_is_buffer_outside (b bl a al : Z) : bool :=
  if negb (is_valid_conf_and_notnull_size b bl a al) then false
  else (u32 (b + bl) <=? a) || (u32 (a + al) <=? b).

Definition core_is_buffer_intersect (b bl a al : Z) : bool :=
  if negb (is_valid_conf_and_notnull_size b bl a al) then false
  else negb ((u32 (b + bl) <=? a) || (u32 (a + al) <=? b)).

(** ** Buffer geometry *)

(** [x] is an address of the buffer of [bl] bytes at [b]. *)
Definition in_buffer (b bl x : Z) : Prop := b <= x < b + bl.

Lemma u32_last b bl :
  is_u32 b -> is_u32 bl -> 0 < bl ->
  u32 (b - 1 + bl) = if b + bl <=? 2 ^ 32 then b + bl - 1 else b + bl - 1 - 2 ^ 32.
Proof.
  unfold is_u32, u32. intros. destruct (Z.leb_spec (b + bl) (2 ^ 32)).
  - rewrite Z.mod_small by lia. lia.
  - symmetry. apply (Z.mod_unique _ _ 1); lia.
Qed.

Lemma is_valid_conf_spec b bl a al :
  is_u32 b -> is_u32 bl -> is_u32 a -> is_u32 al ->
  is_valid_conf_and_notnull_size b bl a al =
  bool_decide (0 < bl /\ 0 < al /\ b + bl <= 2 ^ 32 /\ a + al <= 2 ^ 32).
Proof.
  intros Hb Hbl Ha Hal. unfold is_valid_conf_and_notnull_size.
  destruct (Z.eqb_spec bl 0) as [->|]; [|destruct (Z.eqb_spec al 0) as [->|]].
  1, 2: rewrite ?orb_true_r, bool_decide_eq_false_2 by lia; by destruct (_ || _).
  rewrite !u32_last by (done || unfold is_u32 in *; lia). unfold is_u32 in *.
  destruct (Z.leb_spec (b + bl) (2 ^ 32)), (Z.leb_spec (a + al) (2 ^ 32));
  repeat match goal with |- context [?x <? ?y] => destruct (Z.ltb_spec x y); try lia end;
  simpl; symmetry; (apply bool_decide_eq_true || apply bool_decide_eq_false); lia.
Qed.

Lemma core_is_buffer_inside_range b bl a al :
  is_u32 b -> is_u32 bl -> is_u32 a -> is_u32 al ->
  core_is_buffer_inside b bl a al = true <->
  0 < bl /\ 0 < al /\ a <= b /\ b + bl <= a + al <= 2 ^ 32.
Proof.
  intros. unfold core_is_buffer_inside. rewrite is_valid_conf_spec by done.
  case_bool_decide as Hv; simpl; [|split; [done|lia]].
  rewrite !u32_last by (done || lia).
  rewrite (proj2 (Z.leb_le (b + bl) _)), (proj2 (Z.leb_le (a + al) _)) by lia.
  rewrite andb_true_iff, !Z.leb_le. lia.
Qed.

Lemma core_is_buffer_intersect_range b bl a al :
  is_u32 b -> is_u32 bl -> is_u32 a -> is_u32 al ->
  b + bl < 2 ^ 32 -> a + al < 2 ^ 32 ->
  core_is_buffer_intersect b bl a al = true <->
  0 < bl /\ 0 < al /\ a < b + bl /\ b < a + al.
Proof.
  intros. unfold core_is_buffer_intersect. rewrite is_valid_conf_spec by done.
  case_bool_decide as Hv; simpl; [|split; [done|lia]].
  rewrite !u32_small by (unfold is_u32 in *; lia).
  rewrite negb_true_iff, orb_false_iff, !Z.leb_gt. lia.
Qed.

(** ** Hex strings *)

Definition is_byte (x : Z) : Prop := 0 <= x < 256.
#[global] Instance is_byte_dec x : Decision (is_byte x).
Proof. unfold is_byte. apply _. Defined.

Lemma hex_digit_roundtrip x :
  0 <= x < 16 -> tee_hs2b_rem_base (tee_b2hs_add_base x) = Some x.
Proof.
  intros H. unfold tee_b2hs_add_base, tee_hs2b_rem_base, u8.
  destruct (Z.ltb_spec 9 x); rewrite (Z.mod_small (x + _)) by lia.
  - rewrite (proj2 (Z.ltb_ge (x + 55) 48)), (proj2 (Z.ltb_ge 70 _)),
    (proj2 (Z.ltb_ge (x + 55) 65)), (proj2 (Z.ltb_ge (x + 55) 58)) by lia.
  rewrite andb_false_r. simpl. f_equal. rewrite Z.mod_small; lia.
  - rewrite (proj2 (Z.ltb_ge (x + 48) 48)), (proj2 (Z.ltb_ge 70 _)),
    (proj2 (Z.ltb_ge 57 _)), (proj2 (Z.ltb_lt (x + 48) 58)) by lia.
  simpl. f_equal. rewrite Z.mod_small; lia.
Qed.

Lemma byte_nibbles x : is_byte x -> u8 (Z.shiftl (Z.shiftr x 4) 4 + Z.land x 15) = x.
Proof.
  unfold is_byte, u8. intros. rewrite Z.shiftl_mul_pow2, Z.shiftr_div_pow2 by lia.
  change 15 with (Z.ones 4). rewrite Z.land_ones by lia.
  replace (x / 2 ^ 4 * 2 ^ 4 + x mod 2 ^ 4) with x by (rewrite (Z.div_mod x (2 ^ 4)) at 1; lia).
  apply Z.mod_small. lia.
Qed.

Lemma nibble_hi x : is_byte x -> 0 <= Z.shiftr x 4 < 16.
Proof.
  unfold is_byte. intros. rewrite Z.shiftr_div_pow2 by lia.
  split; [apply Z.div_pos; lia | apply Z.div_lt_upper_bound; lia].
Qed.
Lemma nibble_lo x : 0 <= Z.land x 15 < 16.
Proof. change 15 with (Z.ones 4). rewrite Z.land_ones by lia. apply Z.mod_pos_bound. lia. Qed.

(** The characters [tee_b2hs] writes for the bytes [b]. *)
Definition hex_chars (b : list Z) : list Z :=
  b ≫= fun x => [tee_b2hs_add_base (Z.shiftr x 4); tee_b2hs_add_base (Z.land x 15)].

Lemma hex_chars_length b : length (hex_chars b) = (2 * length b)%nat.
Proof. induction b as [|x b IH]; [done|]. simpl. change (mbind _ b) with (hex_chars b). lia. Qed.

Lemma hex_chars_snoc b x :
  hex_chars (b ++ [x]) =
  hex_chars b ++ [tee_b2hs_add_base (Z.shiftr x 4); tee_b2hs_add_base (Z.land x 15)].
Proof. unfold hex_chars. by rewrite bind_app. Qed.

Lemma seqZ_split_at done_ i rest n :
  seqZ 0 n = done_ ++ i :: rest -> i = Z.of_nat (length done_) /\ 0 <= i < n.
Proof.
  intros H. assert (Hl : seqZ 0 n !! length done_ = Some i)
  by (rewrite H; by apply list_lookup_middle).
  apply lookup_seqZ in Hl. lia.
Qed.

(** After [i] iterations the buffer starts with the digits of the first [i]
  bytes, and the rest of it is untouched. *)
Definition b2hs_prefix (b hs0 hs : list Z) (i : nat) : Prop :=
  hs = hex_chars (take i b) ++ drop (2 * i) hs0.

Lemma tee_b2hs_step_prefix b hs0 hs i :
  (2 * length b < length hs0)%nat -> Z.of_nat (length hs0) < 2 ^ 32 -> (i < length b)%nat ->
  b2hs_prefix b hs0 hs i ->
  exists hs', tee_b2hs_step b (Z.of_nat i) hs = Ret tt hs' /\ b2hs_prefix b hs0 hs' (S i).
Proof.
  intros Hlen Hmax Hi ->. destruct (lookup_lt_is_Some_2 b i Hi) as [x Hx].
  unfold tee_b2hs_step. rewrite (bind_run _ _ _ _ _ (aget_lookup _ _ _ _ Hx)).
  erewrite bind_run by reflexivity. unfold id.
  set (hs := hex_chars (take i b) ++ drop (2 * i) hs0).
  assert (Hl : length hs = length hs0).
  { unfold hs. rewrite length_app, hex_chars_length, length_take, length_drop. lia. }
  rewrite (u32_small (Z.of_nat i * 2 + 1)), (u32_small (Z.of_nat i * 2)) by (unfold is_u32; lia).
  replace (Z.of_nat i * 2 + 1) with (Z.of_nat (2 * i + 1)) by lia.
  replace (Z.of_nat i * 2) with (Z.of_nat (2 * i)) by lia.
  erewrite bind_run by (apply aset_insert; lia).
  erewrite bind_run by (apply aset_insert; rewrite length_insert; lia).
  eexists; split; [reflexivity|]. unfold b2hs_prefix, hs.
  rewrite (take_S_r _ _ _ Hx), hex_chars_snoc.
  assert (Hp : length (hex_chars (take i b)) = (2 * i)%nat)
  by (rewrite hex_chars_length, length_take; lia).
  rewrite (insert_app_r_alt _ _ (2 * i + 1)), (insert_app_r_alt _ _ (2 * i)) by lia.
  rewrite Hp, Nat.sub_diag, <- app_assoc. f_equal.
  replace (2 * i + 1 - 2 * i)%nat with 1%nat by lia.
  replace (2 * S i)%nat with (2 * i + 2)%nat by lia. rewrite <- drop_drop.
  assert (2 <= length (drop (2 * i) hs0))%nat by (rewrite length_drop; lia).
  by destruct (drop (2 * i) hs0) as [|? [|? ?]]; simpl in *; try lia.
Qed.

Lemma drop_S_tl {A} (l : list A) n y l' : drop n l = y :: l' -> drop (S n) l = l'.
Proof.
  intros H. replace (S n) with (n + 1)%nat by lia. by rewrite <- drop_drop, H.
Qed.

Lemma tee_b2hs_run b hs :
  (2 * length b < length hs)%nat -> Z.of_nat (length hs) < 2 ^ 32 ->
  tee_b2hs b (Z.of_nat (length b)) (Z.of_nat (length hs)) hs =
  Ret (Z.of_nat (2 * length b)) (hex_chars b ++ 0 :: drop (S (2 * length b)) hs).
Proof.
  intros Hlen Hmax. unfold tee_b2hs.
  rewrite !(u32_small (Z.of_nat (length b) * 2)), u32_small by (unfold is_u32; lia).
  rewrite (proj2 (Z.ltb_ge _ _)) by lia.
  assert (Hloop : wp (for_each (seqZ 0 (Z.of_nat (length b))) (tee_b2hs_step b)) hs
   (fun _ hs' => b2hs_prefix b hs hs' (length (seqZ 0 (Z.of_nat (length b)))))).
  { apply (wp_for_each (fun dn hs' => b2hs_prefix b hs hs' (length dn))).
  - unfold b2hs_prefix. by rewrite take_0.
  - intros dn x rest hs' Hs HI. destruct (seqZ_split_at _ _ _ _ Hs) as [-> ?].
    rewrite length_app. simpl. rewrite Nat.add_comm. simpl.
    destruct (tee_b2hs_step_prefix b hs hs' (length dn)) as (hs'' & Hr & HI'); [lia..|done|].
    by eapply wp_intro. }
  apply wp_elim in Hloop as ([] & hs' & Hr & HI). unfold bind at 1. rewrite Hr.
  rewrite length_seqZ, Nat2Z.id in HI. unfold b2hs_prefix in HI. rewrite take_ge in HI by lia.
  subst hs'. erewrite bind_run by reflexivity. unfold id.
  replace (Z.of_nat (length b) * 2) with (Z.of_nat (2 * length b)) by lia.
  erewrite bind_run by (apply aset_insert; rewrite length_app, hex_chars_length, length_drop; lia).
  unfold bind, modify, ret. do 2 f_equal.
  rewrite insert_app_r_alt by (rewrite hex_chars_length; lia).
  rewrite hex_chars_length, Nat.sub_diag. f_equal.
  clear Hr. remember (2 * length b)%nat as n eqn:Hn. clear Hn.
  destruct (drop n hs) as [|y l] eqn:E.
  { apply (f_equal length) in E. rewrite length_drop in E. simpl in E. lia. }
  by rewrite (drop_S_tl _ _ _ _ E).
Qed.

Lemma hex_chars_lookup b rest i x :
  b !! i = Some x ->
  (hex_chars b ++ rest) !! (2 * i)%nat = Some (tee_b2hs_add_base (Z.shiftr x 4)) /\
  (hex_chars b ++ rest) !! (2 * i + 1)%nat = Some (tee_b2hs_add_base (Z.land x 15)).
Proof.
  intros Hx. rewrite <- (take_drop_middle b i x Hx).
  replace (take i b ++ x :: drop (S i) b) with ((take i b ++ [x]) ++ drop (S i) b)
  by (by rewrite <- app_assoc).
  unfold hex_chars at 1 2. rewrite bind_app.
  change (mbind _ (take i b ++ [x])) with (hex_chars (take i b ++ [x])).
  rewrite hex_chars_snoc, <- !app_assoc.
  assert (Hp : length (hex_chars (take i b)) = (2 * i)%nat).
  { rewrite hex_chars_length, length_take. apply lookup_lt_Some in Hx. lia. }
  split; rewrite lookup_app_r by lia; rewrite Hp.
  - by rewrite Nat.sub_diag.
  - by replace (2 * i + 1 - 2 * i)%nat with 1%nat by lia.
Qed.

Lemma tee_hs2b_loop_run b rest (dst : list Z) n i :
  Forall is_byte b -> (i + n = length b)%nat -> (length b <= length dst)%nat ->
  Z.of_nat (2 * length b) < 2 ^ 32 -> take i dst = take i b ->
  exists dst', tee_hs2b_loop (hex_chars b ++ rest) n (Z.of_nat i) dst = Ret true dst' /\
  take (length b) dst' = b /\ drop (length b) dst' = drop (length b) dst.
Proof.
  intros Hb. revert i dst. induction n as [|n IH]; intros i dst Hin Hdst Hmax Htk; simpl.
  - exists dst. split; [done|]. replace i with (length b) in Htk by lia. split; [|done].
  by rewrite Htk, take_ge by lia.
  - destruct (lookup_lt_is_Some_2 b i) as [x Hx]; [lia|].
  destruct (hex_chars_lookup b rest i x Hx) as [H1 H2].
  assert (Hxb : is_byte x) by (by eapply Forall_lookup_1).
  rewrite !u32_small by (unfold is_u32; lia).
  replace (Z.of_nat i * 2 + 1) with (Z.of_nat (2 * i + 1)) by lia.
  replace (Z.of_nat i * 2) with (Z.of_nat (2 * i)) by lia.
  unfold bind at 1. rewrite (aget_lookup _ _ _ _ H1), hex_digit_roundtrip by (by apply nibble_hi).
  unfold bind at 1. rewrite (aget_lookup _ _ _ _ H2), hex_digit_roundtrip by apply nibble_lo.
  unfold bind, gets, id, modify. rewrite aset_insert, byte_nibbles by (done || lia).
  replace (Z.of_nat i + 1) with (Z.of_nat (S i)) by lia.
  destruct (IH (S i) (<[i:=x]> dst)) as (dst' & Hr & Ht & Hd); [lia| |done| |].
  + by rewrite length_insert.
  + rewrite (take_S_r _ _ x), (take_S_r b _ x) by (done || apply list_lookup_insert_eq; lia).
    by rewrite take_insert_ge, Htk by lia.
  + exists dst'. rewrite Hd, drop_insert_lt by lia. done.
Qed.

(** ** Properties *)

(** [core_is_buffer_inside] decides containment exactly: on any four
  machine words it answers true precisely when both buffers are non-empty,
  neither wraps around the end of the address space, and every address of
  the buffer is an address of the area. *)
Theorem core_is_buffer_inside_correct b bl a al :
  is_u32 b -> is_u32 bl -> is_u32 a -> is_u32 al ->
  core_is_buffer_inside b bl a al = true <->
  0 < bl /\ 0 < al /\ b + bl <= 2 ^ 32 /\ a + al <= 2 ^ 32 /\
  (forall x, in_buffer b bl x -> in_buffer a al x).
Proof.
  intros. rewrite core_is_buffer_inside_range by done. unfold in_buffer. split.
  - intros. split_and!; try lia; intros; lia.
  - intros (? & ? & ? & ? & Hx). pose proof (Hx b). pose proof (Hx (b + bl - 1)). lia.
Qed.

Lemma core_is_buffer_inside_correct_witness :
  core_is_buffer_inside 0x1000 0x100 0x1000 0x1000 = true.
Proof.
  apply core_is_buffer_inside_correct; unfold is_u32, in_buffer; [lia..|].
  split_and!; try lia; intros x; lia.
Defined.

(** For buffers that end strictly below the top of the address space
  [core_is_buffer_intersect] decides overlap exactly: it answers true
  precisely when some address belongs to both. *)
Theorem core_is_buffer_intersect_correct b bl a al :
  is_u32 b -> is_u32 bl -> is_u32 a -> is_u32 al ->
  b + bl < 2 ^ 32 -> a + al < 2 ^ 32 ->
  core_is_buffer_intersect b bl a al = true <->
  exists x, in_buffer b bl x /\ in_buffer a al x.
Proof.
  intros. rewrite core_is_buffer_intersect_range by done. unfold in_buffer. split.
  - intros. exists (Z.max a b). lia.
  - intros (x & ? & ?). lia.
Qed.

Lemma core_is_buffer_intersect_correct_witness :
  core_is_buffer_intersect 0x1800 0x1000 0x1000 0x1000 = true.
Proof.
  apply core_is_buffer_intersect_correct; unfold is_u32; [lia..|].
  exists 0x1800. unfold in_buffer. lia.
Defined.

(** a non-empty buffer whose last byte is the last byte of the address
  space overlaps nothing according to [core_is_buffer_intersect], not even
  itself, and [core_is_buffer_outside] calls it outside of itself: the end
  address wraps to 0. *)
Theorem core_is_buffer_intersect_top_of_memory b :
  0 < b < 2 ^ 32 ->
  core_is_buffer_intersect b (2 ^ 32 - b) b (2 ^ 32 - b) = false /\
  core_is_buffer_outside b (2 ^ 32 - b) b (2 ^ 32 - b) = true /\
  core_is_buffer_inside b (2 ^ 32 - b) b (2 ^ 32 - b) = true.
Proof.
  intros H. unfold core_is_buffer_intersect, core_is_buffer_outside.
  rewrite core_is_buffer_inside_range, is_valid_conf_spec by (unfold is_u32; lia).
  rewrite bool_decide_eq_true_2 by lia. simpl.
  replace (b + (2 ^ 32 - b)) with (2 ^ 32) by lia.
  change (u32 (2 ^ 32)) with 0. rewrite (proj2 (Z.leb_le 0 b)) by lia.
  split_and!; try done; lia.
Qed.

Lemma core_is_buffer_intersect_top_witness :
  core_is_buffer_intersect 0xF0000000 0x10000000 0xF0000000 0x10000000 = false.
Proof. apply (core_is_buffer_intersect_top_of_memory 0xF0000000). lia. Defined.

(** hexadecimal round trip: encoding [n] bytes into a buffer of at least
  [2n+1] characters returns [2n], terminates the string with a zero byte and
  leaves the rest of the buffer alone; decoding these [2n] characters
  returns [n] and restores exactly the original bytes, leaving the rest of
  the destination alone. *)
Theorem tee_hex_roundtrip (b hs dst : list Z) :
  Forall is_byte b ->
  (2 * length b < length hs)%nat -> Z.of_nat (length hs) < 2 ^ 31 ->
  (length b <= length dst)%nat ->
  exists hs' dst',
  tee_b2hs b (Z.of_nat (length b)) (Z.of_nat (length hs)) hs = Ret (Z.of_nat (2 * length b)) hs' /\
  hs' !! (2 * length b)%nat = Some 0 /\
  drop (S (2 * length b)) hs' = drop (S (2 * length b)) hs /\
  tee_hs2b hs' (Z.of_nat (2 * length b)) (Z.of_nat (length dst)) dst =
    Ret (Z.of_nat (length b)) dst' /\
  take (length b) dst' = b /\ drop (length b) dst' = drop (length b) dst.
Proof.
  intros Hb Hlen Hmax Hdst.
  destruct (tee_hs2b_loop_run b (0 :: drop (S (2 * length b)) hs) dst (length b) 0)
  as (dst' & Hr & Ht & Hd); [done|lia|done|lia|done|].
  assert (Hp := hex_chars_length b).
  eexists _, dst'. split; [by apply tee_b2hs_run; lia|].
  split; [by rewrite lookup_app_r, Hp, Nat.sub_diag by lia|].
  split; [by rewrite <- Hp, drop_app_ge, Nat.sub_succ_l, Nat.sub_diag by lia|].
  split; [|done]. unfold tee_hs2b, TEE_HS2B_BBUF_SIZE.
  rewrite u32_small by (unfold is_u32; lia). rewrite Z.shiftr_div_pow2 by lia.
  replace ((Z.of_nat (2 * length b) + 1) / 2 ^ 1) with (Z.of_nat (length b))
  by (apply (Z.div_unique _ _ _ 1); lia).
  rewrite (proj2 (Z.ltb_ge _ _)), Nat2Z.id by lia. by rewrite (bind_run _ _ _ _ _ Hr).
Qed.

Lemma tee_hex_roundtrip_witness : exists hs' dst',
  tee_b2hs [0xDE; 0x0A] 2 8 (replicate 8 1) = Ret 4 hs' /\
  tee_hs2b hs' 4 2 [0; 0] = Ret 2 dst' /\ take 2 dst' = [0xDE; 0x0A].
Proof.
  destruct (tee_hex_roundtrip [0xDE; 0x0A] (replicate 8 1) [0; 0])
  as (hs' & dst' & H1 & _ & _ & H2 & H3 & _);
  [by repeat constructor|simpl; lia..|]. by exists hs', dst'.
Defined.

