(* ===== verification/MmuDesc.v ===== *)
(** * Translation-table descriptors (core/arch/arm/mm/core_mmu_v7.c)

    Conversion between memory attributes ([TEE_MATTR_*], tee_mmu_types.h) and
    ARMv7 short descriptors, for the target's build: SMP, no [PXN] support
    (Cortex-A9). *)

From stdpp Require Import prelude.
From Stdlib Require Import ZArith Lia.
From S2P Require Import Prelude State.
#[local] Open Scope Z_scope.
#[local] Open Scope kernel_scope.

(** ** Attributes (tee_mmu_types.h) *)

Definition TEE_MATTR_VALID_BLOCK : Z := 0x1.
Definition TEE_MATTR_HIDDEN_BLOCK : Z := 0x2.
Definition TEE_MATTR_HIDDEN_DIRTY_BLOCK : Z := 0x4.
Definition TEE_MATTR_TABLE : Z := 0x8.
Definition TEE_MATTR_PR : Z := 0x10.
Definition TEE_MATTR_PW : Z := 0x20.
Definition TEE_MATTR_PX : Z := 0x40.
Definition TEE_MATTR_PRW : Z := Z.lor TEE_MATTR_PR TEE_MATTR_PW.
Definition TEE_MATTR_PRX : Z := Z.lor TEE_MATTR_PR TEE_MATTR_PX.
Definition TEE_MATTR_PRWX : Z := Z.lor TEE_MATTR_PRW TEE_MATTR_PX.
Definition TEE_MATTR_UR : Z := 0x80.
Definition TEE_MATTR_UW : Z := 0x100.
Definition TEE_MATTR_UX : Z := 0x200.
Definition TEE_MATTR_URX : Z := Z.lor TEE_MATTR_UR TEE_MATTR_UX.
Definition TEE_MATTR_GLOBAL : Z := 0x400.
Definition TEE_MATTR_SECURE : Z := 0x800.
Definition TEE_MATTR_CACHE_MASK : Z := 0x7.
Definition TEE_MATTR_CACHE_SHIFT : Z := 12.
Definition TEE_MATTR_CACHE_NONCACHE : Z := 0.
Definition TEE_MATTR_CACHE_CACHED : Z := 1.

(** ** Descriptors *)

Definition INVALID_DESC : Z := 0x0.
Definition HIDDEN_DESC : Z := 0x4.
Definition HIDDEN_DIRTY_DESC : Z := 0x8.

Definition SECTION_SHIFT : Z := 20.
Definition SECTION_MASK : Z := 0x000fffff.
Definition SECTION_SIZE : Z := 0x00100000.
Definition SECTION_NOTSECURE : Z := 0x80000.
Definition SECTION_SHARED : Z := 0x10000.
Definition SECTION_NOTGLOBAL : Z := 0x20000.
Definition SECTION_ACCESS_FLAG : Z := 0x400.
Definition SECTION_UNPRIV : Z := 0x800.
Definition SECTION_RO : Z := 0x8000.
Definition SECTION_TEXCB (texcb : Z) : Z :=
  Z.lor (Z.lor (Z.shiftl (Z.shiftr texcb 2) 12)
               (Z.shiftl (Z.land (Z.shiftr texcb 1) 1) 3))
        (Z.shiftl (Z.land texcb 1) 2).
Definition SECTION_XN : Z := 0x10.
Definition SECTION_PXN : Z := 0x1.
Definition SECTION_SECTION : Z := 0x2.
Definition SECTION_PT_NOTSECURE : Z := 0x8.
Definition SECTION_PT_PT : Z := 0x1.
Definition SECTION_PT_ATTR_MASK : Z := not32 0x3ff.

Definition SMALL_PAGE_SHIFT : Z := 12.
Definition SMALL_PAGE_MASK : Z := 0xfff.
Definition SMALL_PAGE_SIZE : Z := 0x1000.
Definition SMALL_PAGE_SMALL_PAGE : Z := 0x2.
Definition SMALL_PAGE_SHARED : Z := 0x400.
Definition SMALL_PAGE_NOTGLOBAL : Z := 0x800.
Definition SMALL_PAGE_TEXCB (texcb : Z) : Z :=
  Z.lor (Z.lor (Z.shiftl (Z.shiftr texcb 2) 6)
               (Z.shiftl (Z.land (Z.shiftr texcb 1) 1) 3))
        (Z.shiftl (Z.land texcb 1) 2).
Definition SMALL_PAGE_ACCESS_FLAG : Z := 0x10.
Definition SMALL_PAGE_UNPRIV : Z := 0x20.
Definition SMALL_PAGE_RO : Z := 0x200.
Definition SMALL_PAGE_XN : Z := 0x1.

Inductive desc_type :=
| DESC_TYPE_PAGE_TABLE
| DESC_TYPE_SECTION
| DESC_TYPE_SUPER_SECTION
| DESC_TYPE_LARGE_PAGE
| DESC_TYPE_SMALL_PAGE
| DESC_TYPE_INVALID.
#[global] Instance desc_type_eq_dec : EqDecision desc_type.
Proof. solve_decision. Defined.

(** [x |= bits] under a condition. *)
Definition or_if (c : bool) (bits x : Z) : Z := if c then Z.lor x bits else x.
Definition clear_if (c : bool) (bits x : Z) : Z := if c then Z.land x (not32 bits) else x.
Definition tst (x mask : Z) : bool := truth (Z.land x mask).

Section desc.
Context {cfg : Config} {St : Type}.

(** The body of [get_desc_type] below its assertion. *)
Definition desc_type_of (level desc : Z) : desc_type :=
  if level =? 1 then
    if Z.land desc 3 =? 1 then DESC_TYPE_PAGE_TABLE
    else if Z.land desc 2 =? 2 then
      if tst desc (Z.shiftl 1 18) then DESC_TYPE_SUPER_SECTION else DESC_TYPE_SECTION
    else DESC_TYPE_INVALID
  else
    if Z.land desc 3 =? 1 then DESC_TYPE_LARGE_PAGE
    else if Z.land desc 2 =? 2 then DESC_TYPE_SMALL_PAGE
    else DESC_TYPE_INVALID.

Definition get_desc_type (level desc : Z) : M St desc_type :=
  massert (ret ((1 <=? level) && (level <=? 2)));;; ret (desc_type_of level desc).

Definition texcb_to_mattr (texcb : Z) : Z := Z.shiftl texcb TEE_MATTR_CACHE_SHIFT.
Definition mattr_to_texcb (attr : Z) : Z :=
  Z.land (Z.shiftr attr TEE_MATTR_CACHE_SHIFT) TEE_MATTR_CACHE_MASK.

(** The [switch] of [desc_to_mattr]. *)
Definition desc_attrs (t : desc_type) (desc : Z) : Z :=
  match t with
  | DESC_TYPE_PAGE_TABLE =>
      or_if (negb (tst desc SECTION_PT_NOTSECURE)) TEE_MATTR_SECURE TEE_MATTR_TABLE
  | DESC_TYPE_SECTION =>
      let a := TEE_MATTR_VALID_BLOCK in
      let a := or_if (tst desc SECTION_ACCESS_FLAG) (Z.lor TEE_MATTR_PRX TEE_MATTR_URX) a in
      let a := or_if (negb (tst desc SECTION_RO)) (Z.lor TEE_MATTR_PW TEE_MATTR_UW) a in
      let a := clear_if (tst desc SECTION_XN) (Z.lor TEE_MATTR_PX TEE_MATTR_UX) a in
      let a := clear_if (tst desc SECTION_PXN) TEE_MATTR_PX a in
      let a := Z.lor a (texcb_to_mattr (Z.lor (Z.land (Z.shiftr desc 12) 7) (Z.land (Z.shiftr desc 2) 3))) in
      let a := or_if (negb (tst desc SECTION_NOTGLOBAL)) TEE_MATTR_GLOBAL a in
      or_if (negb (tst desc SECTION_NOTSECURE)) TEE_MATTR_SECURE a
  | DESC_TYPE_SMALL_PAGE =>
      let a := TEE_MATTR_VALID_BLOCK in
      let a := or_if (tst desc SMALL_PAGE_ACCESS_FLAG) (Z.lor TEE_MATTR_PRX TEE_MATTR_URX) a in
      let a := or_if (negb (tst desc SMALL_PAGE_RO)) (Z.lor TEE_MATTR_PW TEE_MATTR_UW) a in
      let a := clear_if (tst desc SMALL_PAGE_XN) (Z.lor TEE_MATTR_PX TEE_MATTR_UX) a in
      let a := Z.lor a (texcb_to_mattr (Z.lor (Z.land (Z.shiftr desc 6) 7) (Z.land (Z.shiftr desc 2) 3))) in
      or_if (negb (tst desc SMALL_PAGE_NOTGLOBAL)) TEE_MATTR_GLOBAL a
  | DESC_TYPE_INVALID =>
      if tst desc HIDDEN_DESC then TEE_MATTR_HIDDEN_BLOCK
      else if tst desc HIDDEN_DIRTY_DESC then TEE_MATTR_HIDDEN_DIRTY_BLOCK
      else 0
  | _ => 0
  end.

Definition desc_to_mattr (level desc : Z) : M St Z :=
  t <- get_desc_type level desc;; ret (desc_attrs t desc).

Definition mattr_to_desc (level attr : Z) : Z :=
  if tst attr TEE_MATTR_HIDDEN_BLOCK then Z.lor INVALID_DESC HIDDEN_DESC
  else if tst attr TEE_MATTR_HIDDEN_DIRTY_BLOCK then Z.lor INVALID_DESC HIDDEN_DIRTY_DESC
  else if (level =? 1) && tst attr TEE_MATTR_TABLE then
    or_if (negb (tst attr TEE_MATTR_SECURE)) SECTION_PT_NOTSECURE SECTION_PT_PT
  else if negb (tst attr TEE_MATTR_VALID_BLOCK) then INVALID_DESC
  else
    let a := or_if (tst attr (Z.lor TEE_MATTR_PX TEE_MATTR_PW)) TEE_MATTR_PR attr in
    let a := or_if (tst a (Z.lor TEE_MATTR_UX TEE_MATTR_UW)) TEE_MATTR_UR a in
    let a := or_if (tst a TEE_MATTR_UR) TEE_MATTR_PR a in
    let a := or_if (tst a TEE_MATTR_UW) TEE_MATTR_PW a in
    let texcb := mattr_to_texcb a in
    if level =? 1 then
      let d := Z.lor SECTION_SECTION SECTION_SHARED in
      let d := or_if (negb (tst a (Z.lor TEE_MATTR_PX TEE_MATTR_UX))) SECTION_XN d in
      let d := or_if (tst a TEE_MATTR_UR) SECTION_UNPRIV d in
      let d := or_if (negb (tst a TEE_MATTR_PW)) SECTION_RO d in
      let d := or_if (tst a (Z.lor TEE_MATTR_UR TEE_MATTR_PR)) SECTION_ACCESS_FLAG d in
      let d := or_if (negb (tst a TEE_MATTR_GLOBAL)) SECTION_NOTGLOBAL d in
      let d := or_if (negb (tst a TEE_MATTR_SECURE)) SECTION_NOTSECURE d in
      Z.lor d (SECTION_TEXCB texcb)
    else
      let d := Z.lor SMALL_PAGE_SMALL_PAGE SMALL_PAGE_SHARED in
      let d := or_if (negb (tst a (Z.lor TEE_MATTR_PX TEE_MATTR_UX))) SMALL_PAGE_XN d in
      let d := or_if (tst a TEE_MATTR_UR) SMALL_PAGE_UNPRIV d in
      let d := or_if (negb (tst a TEE_MATTR_PW)) SMALL_PAGE_RO d in
      let d := or_if (tst a (Z.lor TEE_MATTR_UR TEE_MATTR_PR)) SMALL_PAGE_ACCESS_FLAG d in
      let d := or_if (negb (tst a TEE_MATTR_GLOBAL)) SMALL_PAGE_NOTGLOBAL d in
      Z.lor d (SMALL_PAGE_TEXCB texcb).

(** The [switch] of [desc_to_pa]. *)
Definition desc_shift_mask (t : desc_type) : Z :=
  match t with
  | DESC_TYPE_PAGE_TABLE => 10
  | DESC_TYPE_SECTION => 20
  | DESC_TYPE_SUPER_SECTION => 24
  | DESC_TYPE_LARGE_PAGE => 16
  | DESC_TYPE_SMALL_PAGE => 12
  | DESC_TYPE_INVALID => 4
  end.

Definition desc_to_pa (level desc : Z) : M St Z :=
  t <- get_desc_type level desc;;
  ret (Z.land desc (not32 (Z.shiftl 1 (desc_shift_mask t) - 1))).
End desc.

(** Memory attributes of each memory type; [None] is the panic on an invalid
    type. *)
Definition core_mmu_type_to_attr (t : teecore_memtypes) : option Z :=
  let attr := Z.lor TEE_MATTR_VALID_BLOCK TEE_MATTR_GLOBAL in
  let cached := Z.shiftl TEE_MATTR_CACHE_CACHED TEE_MATTR_CACHE_SHIFT in
  let noncache := Z.shiftl TEE_MATTR_CACHE_NONCACHE TEE_MATTR_CACHE_SHIFT in
  let mk sec perm cache := Some (Z.lor (Z.lor (Z.lor attr sec) perm) cache) in
  match t with
  | MEM_AREA_TEE_RAM => mk TEE_MATTR_SECURE TEE_MATTR_PRWX cached
  | MEM_AREA_TEE_RAM_RX => mk TEE_MATTR_SECURE TEE_MATTR_PRX cached
  | MEM_AREA_TEE_RAM_RO => mk TEE_MATTR_SECURE TEE_MATTR_PR cached
  | MEM_AREA_TEE_RAM_RW => mk TEE_MATTR_SECURE TEE_MATTR_PRW cached
  | MEM_AREA_TA_RAM => mk TEE_MATTR_SECURE TEE_MATTR_PRW cached
  | MEM_AREA_NSEC_SHM => mk 0 TEE_MATTR_PRW cached
  | MEM_AREA_IO_NSEC => mk 0 TEE_MATTR_PRW noncache
  | MEM_AREA_IO_SEC => mk TEE_MATTR_SECURE TEE_MATTR_PRW noncache
  | MEM_AREA_RAM_NSEC => mk 0 TEE_MATTR_PRW cached
  | MEM_AREA_RAM_SEC => mk TEE_MATTR_SECURE TEE_MATTR_PRW cached
  | MEM_AREA_RES_VASPACE | MEM_AREA_SHM_VASPACE => Some 0
  | _ => None
  end.

Definition core_mmu_mattr_is_ok (mattr : Z) : bool :=
  let c := Z.land (Z.shiftr mattr TEE_MATTR_CACHE_SHIFT) TEE_MATTR_CACHE_MASK in
  (c =? TEE_MATTR_CACHE_NONCACHE) || (c =? TEE_MATTR_CACHE_CACHED).

(** ** Fault status (core_mmu_v7.c) *)

Inductive core_mmu_fault :=
| CORE_MMU_FAULT_ALIGNMENT
| CORE_MMU_FAULT_DEBUG_EVENT
| CORE_MMU_FAULT_TRANSLATION
| CORE_MMU_FAULT_WRITE_PERMISSION
| CORE_MMU_FAULT_READ_PERMISSION
| CORE_MMU_FAULT_ASYNC_EXTERNAL
| CORE_MMU_FAULT_ACCESS_BIT
| CORE_MMU_FAULT_OTHER.
#[global] Instance core_mmu_fault_eq_dec : EqDecision core_mmu_fault.
Proof. solve_decision. Defined.

Definition FSR_LPAE : Z := 0x200.
Definition FSR_WNR : Z := 0x800.
Definition FSR_FS_MASK : Z := 0x40f.

Definition core_mmu_get_fault_type `{Config} {St} (fsr : Z) : M St core_mmu_fault :=
  massert (ret (negb (tst fsr FSR_LPAE)));;;
  let fs := Z.land fsr FSR_FS_MASK in
  ret (if fs =? 0x1 then CORE_MMU_FAULT_ALIGNMENT
       else if fs =? 0x2 then CORE_MMU_FAULT_DEBUG_EVENT
       else if (fs =? 0x4) || (fs =? 0x5) || (fs =? 0x7) then CORE_MMU_FAULT_TRANSLATION
       else if (fs =? 0xd) || (fs =? 0xf) then
         if tst fsr FSR_WNR then CORE_MMU_FAULT_WRITE_PERMISSION
         else CORE_MMU_FAULT_READ_PERMISSION
       else if (fs =? 0x3) || (fs =? 0x6) then CORE_MMU_FAULT_ACCESS_BIT
       else if fs =? Z.lor (Z.shiftl 1 10) 0x6 then CORE_MMU_FAULT_ASYNC_EXTERNAL
       else CORE_MMU_FAULT_OTHER).

(** ** Lemmas *)

Lemma land_lor_high d n k m :
  0 <= k -> 0 <= m < 2 ^ k -> Z.land (Z.lor d (Z.shiftl n k)) m = Z.land d m.
Proof.
  intros Hk Hm. apply Z.bits_inj'. intros i Hi. rewrite !Z.land_spec, Z.lor_spec.
  destruct (Z.ltb_spec i k).
  - by rewrite Z.shiftl_spec_low, orb_false_r by lia.
  - rewrite <- (Z.mod_small m (2 ^ k)) by lia.
    by rewrite Z.mod_pow2_bits_high, !andb_false_r by lia.
Qed.

Lemma shiftr_lor_high d n k s m :
  0 <= k -> 0 <= s -> 0 <= m -> Z.shiftl m s < 2 ^ k ->
  Z.land (Z.shiftr (Z.lor d (Z.shiftl n k)) s) m = Z.land (Z.shiftr d s) m.
Proof.
  intros Hk Hs Hm Hlt.
  assert (forall x, Z.land (Z.shiftr x s) m = Z.shiftr (Z.land x (Z.shiftl m s)) s) as Hx.
  { intros x. rewrite Z.shiftr_land, Z.shiftr_shiftl_l, Z.sub_diag by lia. done. }
  rewrite !Hx, land_lor_high; [done|done|].
  split; [by apply Z.shiftl_nonneg|done].
Qed.

(** A descriptor's address field does not disturb its type or attributes. *)
Lemma section_low d n :
  desc_type_of 1 (Z.lor d (Z.shiftl n 20)) = desc_type_of 1 d /\
  desc_attrs DESC_TYPE_SECTION (Z.lor d (Z.shiftl n 20)) = desc_attrs DESC_TYPE_SECTION d.
Proof.
  unfold desc_type_of, desc_attrs, tst.
  rewrite !shiftr_lor_high, !land_lor_high by (try split; vm_compute; congruence).
  by split.
Qed.

Lemma small_page_low d n :
  desc_type_of 2 (Z.lor d (Z.shiftl n 12)) = desc_type_of 2 d /\
  desc_attrs DESC_TYPE_SMALL_PAGE (Z.lor d (Z.shiftl n 12)) = desc_attrs DESC_TYPE_SMALL_PAGE d.
Proof.
  unfold desc_type_of, desc_attrs, tst. change (2 =? 1) with false. cbv iota.
  rewrite !shiftr_lor_high, !land_lor_high by (try split; vm_compute; congruence).
  by split.
Qed.

(** The address field is recovered by the mask of its granularity. *)
Lemma address_field d n k :
  0 <= k < 32 -> 0 <= d < 2 ^ k -> 0 <= n < 2 ^ (32 - k) ->
  Z.land (Z.lor d (Z.shiftl n k)) (not32 (Z.shiftl 1 k - 1)) = Z.shiftl n k.
Proof.
  intros Hk Hd Hn. apply Z.bits_inj'. intros i Hi.
  rewrite Z.land_spec, Z.lor_spec, not32_testbit by lia.
  replace (Z.shiftl 1 k - 1) with (Z.ones k) by (rewrite Z.ones_equiv, Z.shiftl_1_l; lia).
  destruct (Z.ltb_spec i k).
  - rewrite Z.ones_spec_low, Z.shiftl_spec_low by lia. by rewrite andb_false_r, andb_false_r.
  - rewrite Z.ones_spec_high by lia.
    rewrite <- (Z.mod_small d (2 ^ k)), Z.mod_pow2_bits_high by lia. simpl.
    rewrite Z.shiftl_spec by lia. destruct (Z.ltb_spec i 32); [by rewrite andb_true_r|].
    rewrite <- (Z.mod_small n (2 ^ (32 - k))), Z.mod_pow2_bits_high by lia. done.
Qed.

(** The attribute word of a block mapping, by its flags. *)
Definition block_attr (pr pw px ur uw ux global secure cached : bool) : Z :=
  or_if pr TEE_MATTR_PR (or_if pw TEE_MATTR_PW (or_if px TEE_MATTR_PX
  (or_if ur TEE_MATTR_UR (or_if uw TEE_MATTR_UW (or_if ux TEE_MATTR_UX
  (or_if global TEE_MATTR_GLOBAL (or_if secure TEE_MATTR_SECURE
  (or_if cached (Z.shiftl TEE_MATTR_CACHE_CACHED TEE_MATTR_CACHE_SHIFT)
   TEE_MATTR_VALID_BLOCK)))))))).

Lemma section_roundtrip pr pw px ur uw ux global secure cached :
  let d := mattr_to_desc 1 (block_attr pr pw px ur uw ux global secure cached) in
  let r := pr || pw || px || ur || uw || ux in let w := pw || uw in let x := px || ux in
  desc_type_of 1 d = DESC_TYPE_SECTION /\ 0 <= d < 2 ^ 20 /\
  desc_attrs DESC_TYPE_SECTION d = block_attr r w (r && x) r w (r && x) global secure cached.
Proof.
  destruct pr, pw, px, ur, uw, ux, global, secure, cached; vm_compute;
    (split; [reflexivity|split; [split; [discriminate|reflexivity]|reflexivity]]).
Qed.

Lemma small_page_roundtrip pr pw px ur uw ux global secure cached :
  let d := mattr_to_desc 2 (block_attr pr pw px ur uw ux global secure cached) in
  let r := pr || pw || px || ur || uw || ux in let w := pw || uw in let x := px || ux in
  desc_type_of 2 d = DESC_TYPE_SMALL_PAGE /\ 0 <= d < 2 ^ 12 /\
  desc_attrs DESC_TYPE_SMALL_PAGE d = block_attr r w (r && x) r w (r && x) global false cached.
Proof.
  destruct pr, pw, px, ur, uw, ux, global, secure, cached; vm_compute;
    (split; [reflexivity|split; [split; [discriminate|reflexivity]|reflexivity]]).
Qed.

Lemma get_desc_type_run `{Config} {St} level desc (s : St) :
  1 <= level <= 2 -> get_desc_type level desc s = Ret (desc_type_of level desc) s.
Proof.
  intros Hl. unfold get_desc_type, massert.
  rewrite !(proj2 (Z.leb_le _ _)) by lia. by destruct cfg_ndebug.
Qed.
Lemma desc_to_mattr_run `{Config} {St} level desc (s : St) :
  1 <= level <= 2 -> desc_to_mattr level desc s = Ret (desc_attrs (desc_type_of level desc) desc) s.
Proof. intros. unfold desc_to_mattr. by erewrite bind_run by (by apply get_desc_type_run). Qed.
