(* ===== verification/CoreMmu.v ===== *)
(** * Memory map and address translation (core/arch/arm/mm/core_mmu.c and
    the table walks of core_mmu_v7.c)

    The static memory map is the list of its entries before the terminating
    one; a pointer to an entry is its index.  Translation tables are the
    level-1 table and the pool of level-2 tables. *)

From stdpp Require Import prelude gmap list.
From Stdlib Require Import ZArith Lia Sorting.Sorted.
From S2P Require Import Prelude Platform State TeeMisc MmuDesc.
#[local] Open Scope Z_scope.
#[local] Open Scope kernel_scope.

(** ** Constants *)

Definition MAX_MMAP_REGIONS : Z := 13.
Definition CORE_MMU_PGDIR_SIZE : Z := 0x100000.
Definition CORE_MMU_PGDIR_MASK : Z := 0xfffff.
Definition NUM_L1_ENTRIES : Z := 4096.
Definition NUM_L2_ENTRIES : Z := 256.
Definition NUM_UL1_ENTRIES : Z := 32.
Definition MAX_XLAT_TABLES : Z := 8.
Definition UINT_MAX : Z := 0xffffffff.

(** [ROUNDDOWN] (util.h) on 32-bit operands. *)
Definition ROUNDDOWN (v size : Z) : Z := Z.land v (not32 (size - 1)).

(** i.MX6 memory layout (platform_config.h). *)
Definition CFG_NSECMEM_START : Z := 0x10000000.
Definition CFG_NSECMEM_SIZE : Z := 0x3B800000.
Definition CFG_FBMEM_START : Z := CFG_NSECMEM_START + CFG_NSECMEM_SIZE.
Definition CFG_FBMEM_SIZE : Z := 0x00800000.
Definition CFG_DDR_TEETZ_RESERVED_START : Z := CFG_FBMEM_START + CFG_FBMEM_SIZE.
Definition CFG_DDR_TEETZ_RESERVED_SIZE : Z := 0x04000000.
Definition CFG_PUB_RAM_SIZE : Z := 0x100000.
Definition CFG_TEE_RAM_PH_SIZE : Z := 0x100000.
Definition TZDRAM_BASE : Z := CFG_DDR_TEETZ_RESERVED_START.
Definition TZDRAM_SIZE : Z := CFG_DDR_TEETZ_RESERVED_SIZE - CFG_PUB_RAM_SIZE.
Definition CFG_TA_RAM_START : Z := CFG_DDR_TEETZ_RESERVED_START + CFG_TEE_RAM_PH_SIZE.
Definition CFG_TA_RAM_SIZE : Z :=
  CFG_DDR_TEETZ_RESERVED_SIZE - CFG_TEE_RAM_PH_SIZE - CFG_PUB_RAM_SIZE.
Definition CFG_SHMEM_START : Z := CFG_DDR_TEETZ_RESERVED_START + TZDRAM_SIZE.
Definition CFG_SHMEM_SIZE : Z := CFG_PUB_RAM_SIZE.
Definition CFG_TEE_RAM_START : Z := TZDRAM_BASE.

(** Numeric value of a memory type (core_mmu.h). *)
Definition memtype_val (t : teecore_memtypes) : Z :=
  match t with
  | MEM_AREA_NOTYPE => 0 | MEM_AREA_TEE_RAM => 1 | MEM_AREA_TEE_RAM_RX => 2
  | MEM_AREA_TEE_RAM_RO => 3 | MEM_AREA_TEE_RAM_RW => 4 | MEM_AREA_TEE_COHERENT => 5
  | MEM_AREA_TA_RAM => 6 | MEM_AREA_NSEC_SHM => 7 | MEM_AREA_RAM_NSEC => 8
  | MEM_AREA_RAM_SEC => 9 | MEM_AREA_IO_NSEC => 10 | MEM_AREA_IO_SEC => 11
  | MEM_AREA_RES_VASPACE => 12 | MEM_AREA_SHM_VASPACE => 13 | MEM_AREA_TA_VASPACE => 14
  | MEM_AREA_SDP_MEM => 15 | MEM_AREA_MAXTYPE => 16
  end.

(** [struct memaccess_area] and the two tables of it. *)
Record memaccess_area := MemaccessArea { ma_paddr : Z; ma_size : Z }.
Definition secure_only : list memaccess_area := [MemaccessArea TZDRAM_BASE TZDRAM_SIZE].
Definition nsec_shared : list memaccess_area := [MemaccessArea CFG_SHMEM_START CFG_SHMEM_SIZE].

(** [struct core_mmu_phys_mem] without the name. *)
Record core_mmu_phys_mem := CoreMmuPhysMem { pm_type : teecore_memtypes; pm_addr : Z; pm_size : Z }.

(** ** Pure lookups *)

Definition pbuf_intersects (a : list memaccess_area) (pa size : Z) : bool :=
  existsb (fun m => TeeMisc.core_is_buffer_intersect pa size (ma_paddr m) (ma_size m)) a.
Definition pbuf_is_inside (a : list memaccess_area) (pa size : Z) : bool :=
  existsb (fun m => TeeMisc.core_is_buffer_inside pa size (ma_paddr m) (ma_size m)) a.

Definition pa_is_in_map (map : tee_mmap_region) (pa : Z) : bool :=
  (mm_pa map <=? pa) && (pa <=? u32 (mm_pa map + mm_size map - 1)).
Definition va_is_in_map (map : tee_mmap_region) (va : Z) : bool :=
  (mm_va map <=? va) && (va <=? u32 (mm_va map + mm_size map - 1)).
Definition pbuf_inside_map_area (p l : Z) (map : tee_mmap_region) : bool :=
  TeeMisc.core_is_buffer_inside p l (mm_pa map) (mm_size map).

(** First entry satisfying a test, as a scan of the map does. *)
Definition scan_map (f : tee_mmap_region -> bool) (l : list tee_mmap_region)
  : option (nat * tee_mmap_region) := list_find (fun m => Is_true (f m)) l.

Definition find_map_by_type (t : teecore_memtypes) := scan_map (fun m => bool_decide (mm_type m = t)).
Definition find_map_by_type_and_pa (t : teecore_memtypes) (pa : Z) :=
  scan_map (fun m => bool_decide (mm_type m = t) && pa_is_in_map m pa).
Definition find_map_by_va (va : Z) :=
  scan_map (fun m => (mm_va m <=? va) && (va <=? u32 (mm_va m - 1 + mm_size m))).
Definition find_map_by_pa (pa : Z) :=
  scan_map (fun m => (mm_pa m <=? pa) && (pa <? u32 (mm_pa m + mm_size m))).

Definition pbuf_is_special_mem (pbuf len : Z) (mems : list core_mmu_phys_mem) : bool :=
  existsb (fun m => TeeMisc.core_is_buffer_inside pbuf len (pm_addr m) (pm_size m)) mems.

(** [map_pa2va]: 0 is the null pointer. *)
Definition map_pa2va (map : option tee_mmap_region) (pa : Z) : Z :=
  match map with
  | Some m => if pa_is_in_map m pa then u32 (mm_va m + pa - mm_pa m) else 0
  | None => 0
  end.

Definition core_mmu_get_mem_by_type (t : teecore_memtypes) (l : list tee_mmap_region) : Z * Z :=
  match find_map_by_type t l with
  | Some (_, m) => (mm_va m, u32 (mm_va m + mm_size m))
  | None => (0, 0)
  end.
Definition core_mmu_get_type_by_pa (pa : Z) (l : list tee_mmap_region) : teecore_memtypes :=
  match find_map_by_pa pa l with Some (_, m) => mm_type m | None => MEM_AREA_NOTYPE end.

(** [core_va2pa_helper]: [None] is the error return. *)
Definition core_va2pa_helper (va : Z) (l : list tee_mmap_region) : option Z :=
  match find_map_by_va va l with
  | Some (_, m) =>
      if va_is_in_map m va then
        Some (if mm_pa m =? 0 then 0 else u32 (mm_pa m + va - mm_va m))
      else None
  | None => None
  end.

Definition phys_to_virt_tee_ram (pa : Z) (l : list tee_mmap_region) : Z :=
  let try t (k : option (nat * tee_mmap_region)) :=
    match k with Some _ => k | None => find_map_by_type_and_pa t pa l end in
  let m := find_map_by_type_and_pa MEM_AREA_TEE_RAM pa l in
  let m := try MEM_AREA_TEE_RAM_RW m in
  let m := try MEM_AREA_TEE_RAM_RO m in
  let m := try MEM_AREA_TEE_RAM_RX m in
  map_pa2va (snd <$> m) pa.

(** The lookup of [phys_to_virt] below its debug check. *)
Definition phys_to_virt_lookup (pa : Z) (m : teecore_memtypes) (l : list tee_mmap_region) : Z :=
  match m with
  | MEM_AREA_TEE_RAM | MEM_AREA_TEE_RAM_RX | MEM_AREA_TEE_RAM_RO | MEM_AREA_TEE_RAM_RW =>
      phys_to_virt_tee_ram pa l
  | _ => map_pa2va (snd <$> find_map_by_type_and_pa m pa l) pa
  end.

(** ** Building the map *)

Definition phys_overlaps (mem : core_mmu_phys_mem) (m : tee_mmap_region) : bool :=
  ((mm_pa m <=? pm_addr mem) && (pm_addr mem <=? u32 (mm_pa m + u32 (mm_size m - 1)))) ||
  ((pm_addr mem <=? mm_pa m) && (mm_pa m <=? u32 (pm_addr mem + u32 (pm_size mem - 1)))).

Definition coalesce (mem : core_mmu_phys_mem) (m : tee_mmap_region) : tee_mmap_region :=
  let pa := Z.min (mm_pa m) (pm_addr mem) in
  set_mm_size (u32 (Z.max (mm_size m) (pm_size mem) + (mm_pa m - pa))) (set_mm_pa pa m).

Definition phys_before (mem : core_mmu_phys_mem) (m : tee_mmap_region) : bool :=
  (memtype_val (pm_type mem) <? memtype_val (mm_type m)) ||
  (bool_decide (pm_type mem = mm_type m) && (pm_addr mem <? mm_pa m)).

(** [add_phys_mem] from entry [n] on: the entries from [n] up to [*last] are
    [l]; [None] is the panic when the table of [num_elems] entries is full. *)
Fixpoint add_phys_mem_from (num_elems n : Z) (mem : core_mmu_phys_mem)
    (l : list tee_mmap_region) : option (list tee_mmap_region) :=
  if num_elems - 1 <=? n then None
  else match l with
  | [] => Some [TeeMmapRegion (pm_type mem) 0 (pm_addr mem) 0 (pm_size mem) 0]
  | m :: l' =>
      if bool_decide (pm_type mem = mm_type m) && phys_overlaps mem m then Some (coalesce mem m :: l')
      else if phys_before mem m then
        Some (TeeMmapRegion (pm_type mem) 0 (pm_addr mem) 0 (pm_size mem) 0 :: m :: l')
      else cons m <$> add_phys_mem_from num_elems (n + 1) mem l'
  end.
Definition add_phys_mem (num_elems : Z) (mem : core_mmu_phys_mem) (l : list tee_mmap_region) :=
  add_phys_mem_from num_elems 0 mem l.

Fixpoint add_va_space_from (num_elems n : Z) (t : teecore_memtypes) (size : Z)
    (l : list tee_mmap_region) : option (list tee_mmap_region) :=
  if num_elems - 1 <=? n then None
  else match l with
  | [] => Some [TeeMmapRegion t 0 0 0 size 0]
  | m :: l' =>
      if memtype_val t <? memtype_val (mm_type m) then Some (TeeMmapRegion t 0 0 0 size 0 :: m :: l')
      else cons m <$> add_va_space_from num_elems (n + 1) t size l'
  end.
Definition add_va_space (num_elems : Z) (t : teecore_memtypes) (size : Z) (l : list tee_mmap_region) :=
  add_va_space_from num_elems 0 t size l.

(** [verify_special_mem_areas]: [false] is the panic. *)
Fixpoint special_disjoint (mems : list core_mmu_phys_mem) : bool :=
  match mems with
  | [] => true
  | m :: rest =>
      forallb (fun m2 => negb (TeeMisc.core_is_buffer_intersect (pm_addr m2) (pm_size m2) (pm_addr m) (pm_size m))) rest
      && special_disjoint rest
  end.
Definition verify_special_mem_areas (mem_map : list tee_mmap_region) (mems : list core_mmu_phys_mem) : bool :=
  match mems with
  | [] => true
  | _ =>
      special_disjoint mems &&
      forallb (fun m => forallb (fun mm =>
        negb (TeeMisc.core_is_buffer_intersect (pm_addr m) (pm_size m) (mm_pa mm) (mm_size mm))) mem_map) mems
  end.

Definition map_is_tee_ram (m : tee_mmap_region) : bool :=
  match mm_type m with
  | MEM_AREA_TEE_RAM | MEM_AREA_TEE_RAM_RX | MEM_AREA_TEE_RAM_RO | MEM_AREA_TEE_RAM_RW => true
  | _ => false
  end.
Definition map_is_flat_mapped (m : tee_mmap_region) : bool := map_is_tee_ram m.
Definition map_is_secure (m : tee_mmap_region) : option bool :=
  (fun a => tst a TEE_MATTR_SECURE) <$> core_mmu_type_to_attr (mm_type m).
Definition map_is_pgdir (m : tee_mmap_region) : bool := mm_region_size m =? CORE_MMU_PGDIR_SIZE.

(** The region-size assignment loop of [init_mem_map]; [None] is the panic. *)
Definition assign_region_size (m : tee_mmap_region) : option tee_mmap_region :=
  let mask := Z.lor (mm_pa m) (mm_size m) in
  if negb (tst mask CORE_MMU_PGDIR_MASK) then Some (set_mm_region_size CORE_MMU_PGDIR_SIZE m)
  else if negb (tst mask SMALL_PAGE_MASK) then Some (set_mm_region_size SMALL_PAGE_SIZE m)
  else None.

(** The validation loop of [core_init_mmu_map] on one entry. *)
Definition map_entry_allowed (m : tee_mmap_region) : bool :=
  match mm_type m with
  | MEM_AREA_TEE_RAM | MEM_AREA_TEE_RAM_RX | MEM_AREA_TEE_RAM_RO | MEM_AREA_TEE_RAM_RW
  | MEM_AREA_TA_RAM => pbuf_is_inside secure_only (mm_pa m) (mm_size m)
  | MEM_AREA_NSEC_SHM => pbuf_is_inside nsec_shared (mm_pa m) (mm_size m)
  | MEM_AREA_IO_SEC | MEM_AREA_IO_NSEC | MEM_AREA_RAM_SEC | MEM_AREA_RAM_NSEC
  | MEM_AREA_RES_VASPACE | MEM_AREA_SHM_VASPACE => true
  | _ => false
  end.
(** The two checks of [core_init_mmu_map]. *)
Definition core_init_mmu_map_checks (l : list tee_mmap_region) : bool :=
  forallb (fun a => negb (pbuf_intersects nsec_shared (ma_paddr a) (ma_size a))) secure_only
  && forallb map_entry_allowed l.

Definition core_mmu_is_dynamic_vaspace (m : tee_mmap_region) : bool :=
  match mm_type m with MEM_AREA_RES_VASPACE | MEM_AREA_SHM_VASPACE => true | _ => false end.
Definition core_mmu_place_tee_ram_at_top (paddr : Z) : bool := 0x80000000 <? paddr.

(** ** Translation tables *)

(** What a [void *table] designates. *)
Inductive table_ptr := L1_TABLE | L2_TABLE (k : Z).
#[global] Instance table_ptr_eq_dec : EqDecision table_ptr.
Proof. solve_decision. Defined.

(** [struct core_mmu_table_info] *)
Record core_mmu_table_info := CoreMmuTableInfo {
  ti_table : table_ptr; ti_va_base : Z; ti_level : Z; ti_shift : Z; ti_num_entries : Z }.

Definition core_mmu_va2idx (ti : core_mmu_table_info) (va : Z) : Z :=
  Z.shiftr (u32 (va - ti_va_base ti)) (ti_shift ti).
Definition core_mmu_idx2va (ti : core_mmu_table_info) (idx : Z) : Z :=
  u32 (shl32 idx (ti_shift ti) + ti_va_base ti).
Definition core_mmu_get_block_offset (ti : core_mmu_table_info) (pa : Z) : Z :=
  Z.land pa (Z.shiftl 1 (ti_shift ti) - 1).

(** Where the linker placed the pool of level-2 tables. *)
Class Layout := { main_mmu_l2_ttb_va : Z }.

(** The level-2 table at a virtual address. *)
Definition l2_table_of_va `{Layout} (va : Z) : option table_ptr :=
  let off := va - main_mmu_l2_ttb_va in
  if (0 <=? off) && (off <? MAX_XLAT_TABLES * 1024) && (off mod 1024 =? 0)
  then Some (L2_TABLE (off / 1024)) else None.
Definition l2_table_va `{Layout} (k : Z) : Z := u32 (main_mmu_l2_ttb_va + 1024 * k).

Definition table_get (d : mmu_data) (t : table_ptr) (idx : Z) : Z :=
  match t with
  | L1_TABLE => default 0 (main_mmu_l1_ttb d !! idx)
  | L2_TABLE k => default 0 (main_mmu_l2_ttb d !! (k * NUM_L2_ENTRIES + idx))
  end.
Definition table_set (t : table_ptr) (idx v : Z) (d : mmu_data) : mmu_data :=
  match t with
  | L1_TABLE => set_main_mmu_l1_ttb (<[idx := v]> (main_mmu_l1_ttb d)) d
  | L2_TABLE k => set_main_mmu_l2_ttb (<[k * NUM_L2_ENTRIES + idx := v]> (main_mmu_l2_ttb d)) d
  end.
Definition table_len (t : table_ptr) : Z :=
  match t with L1_TABLE => NUM_L1_ENTRIES | L2_TABLE _ => NUM_L2_ENTRIES end.

Section mmu.
Context {P : Type} {plat : Platform P} {cfg : Config} {lay : Layout}.
Abbreviation K := (M (kernel P)).

Definition get_map : K (list tee_mmap_region) := gets (fun s => static_memory_map (k_mmu s)).
Definition modify_mmu (f : mmu_data -> mmu_data) : K unit :=
  modify (fun s => set_k_mmu (f (k_mmu s)) s).

(** [tbl[idx]]; outside of the table is a fault. *)
Definition tbl_read (t : table_ptr) (idx : Z) : K Z :=
  if (0 <=? idx) && (idx <? table_len t) then gets (fun s => table_get (k_mmu s) t idx) else fault.
Definition tbl_write (t : table_ptr) (idx v : Z) : K unit :=
  if (0 <=? idx) && (idx <? table_len t) then modify_mmu (table_set t idx v) else fault.

Definition PAR_F : Z := 1.
(** [arm_va2pa_helper]; masking the exceptions around it has no effect on
    the result. *)
Definition arm_va2pa_helper (va : Z) : K (option Z) :=
  par <- gets (fun s => par_of_va va (k_plat s));;
  ret (if tst par PAR_F then None
       else Some (Z.lor (Z.land par (shl32 0xfffff 12)) (Z.land va 0xfff))).

(** [check_pa_matches_va] and [check_va_matches_pa] exist only in debug
    builds. *)
Definition check_pa_matches_va (va pa : Z) : K unit :=
  if cfg_ndebug then ret tt
  else
    l <- get_map;;
    match core_va2pa_helper va l with
    | Some p => if negb (p =? 0) && negb (pa =? p) then panic else ret tt
    | None => if negb (pa =? 0) then panic else ret tt
    end.

Definition virt_to_phys (va : Z) : K Z :=
  o <- arm_va2pa_helper va;;
  let pa := default 0 o in
  check_pa_matches_va va pa;;; ret pa.

Definition check_va_matches_pa (pa va : Z) : K unit :=
  if cfg_ndebug then ret tt
  else if va =? 0 then ret tt
  else p <- virt_to_phys va;; if negb (p =? pa) then panic else ret tt.

Definition phys_to_virt (pa : Z) (m : teecore_memtypes) : K Z :=
  l <- get_map;;
  let va := phys_to_virt_lookup pa m l in
  check_va_matches_pa pa va;;; ret va.

(** [core_mmu_get_va]; [mmu_on] is the MMU bit of the control register, which
    [cpu_mmu_enabled] reads. *)
Definition core_mmu_get_va (mmu_on : bool) (pa : Z) (type : teecore_memtypes) : K Z :=
  if mmu_on then phys_to_virt pa type else ret pa.

Definition phys_to_virt_io (pa : Z) : K Z :=
  l <- get_map;;
  let m := match find_map_by_type_and_pa MEM_AREA_IO_SEC pa l with
           | Some m => Some m
           | None => find_map_by_type_and_pa MEM_AREA_IO_NSEC pa l
           end in
  match m with
  | None => ret 0
  | Some (_, m) => let va := map_pa2va (Some m) pa in check_va_matches_pa pa va;;; ret va
  end.

(** Attribute tests on physical buffers (enum buf_is_attr). *)
Inductive buf_is_attr :=
| CORE_MEM_CACHED | CORE_MEM_NSEC_SHM | CORE_MEM_NON_SEC | CORE_MEM_SEC
| CORE_MEM_TEE_RAM | CORE_MEM_TA_RAM | CORE_MEM_SDP_MEM | CORE_MEM_REG_SHM.

(** [nsec_ddr] is the linker section of registered non-secure DDR ranges. *)
Definition core_pbuf_is (nsec_ddr : list core_mmu_phys_mem) (attr : buf_is_attr) (pbuf len : Z) : K bool :=
  if len =? 0 then ret true
  else match attr with
  | CORE_MEM_SEC => ret (pbuf_is_inside secure_only pbuf len)
  | CORE_MEM_NON_SEC =>
      ret (pbuf_is_inside nsec_shared pbuf len || pbuf_is_special_mem pbuf len nsec_ddr)
  | CORE_MEM_TEE_RAM => ret (TeeMisc.core_is_buffer_inside pbuf len CFG_TEE_RAM_START CFG_TEE_RAM_PH_SIZE)
  | CORE_MEM_TA_RAM => ret (TeeMisc.core_is_buffer_inside pbuf len CFG_TA_RAM_START CFG_TA_RAM_SIZE)
  | CORE_MEM_NSEC_SHM => ret (TeeMisc.core_is_buffer_inside pbuf len CFG_SHMEM_START CFG_SHMEM_SIZE)
  | CORE_MEM_CACHED =>
      l <- get_map;;
      ret match find_map_by_pa pbuf l with
          | Some (_, m) =>
              if pbuf_inside_map_area pbuf len m
              then Z.shiftr (mm_attr m) TEE_MATTR_CACHE_SHIFT =? TEE_MATTR_CACHE_CACHED
              else false
          | None => false
          end
  | _ => ret false
  end.

Definition core_vbuf_is (nsec_ddr : list core_mmu_phys_mem) (attr : buf_is_attr) (vbuf len : Z) : K bool :=
  if len =? 0 then ret true
  else p <- virt_to_phys vbuf;;
       if p =? 0 then ret false else core_pbuf_is nsec_ddr attr p len.

Definition core_mmu_set_info_table (level va_base : Z) (t : table_ptr) : K core_mmu_table_info :=
  massert (ret (level <=? 2));;;
  ret (if level =? 1 then CoreMmuTableInfo t va_base level SECTION_SHIFT NUM_L1_ENTRIES
       else CoreMmuTableInfo t va_base level SMALL_PAGE_SHIFT NUM_L2_ENTRIES).

(** [core_mmu_find_table]: [None] is the error return.  The kernel is built
    with [CFG_CORE_RWDATA_NOEXEC]. *)
Definition core_mmu_find_table (va max_level : Z) : K (option core_mmu_table_info) :=
  let n := Z.shiftr va SECTION_SHIFT in
  e <- tbl_read L1_TABLE n;;
  if (max_level =? 1) || negb (Z.land e 3 =? 1) then
    ti <- core_mmu_set_info_table 1 0 L1_TABLE;; ret (Some ti)
  else
    l2 <- phys_to_virt (Z.land e SECTION_PT_ATTR_MASK) MEM_AREA_TEE_RAM_RW;;
    if l2 =? 0 then ret None
    else t <- deref (l2_table_of_va l2);;
         ti <- core_mmu_set_info_table 2 (shl32 n SECTION_SHIFT) t;; ret (Some ti).

Definition core_mmu_set_entry_primitive (t : table_ptr) (level idx pa attr : Z) : K unit :=
  tbl_write t idx (Z.lor (mattr_to_desc level attr) pa).
Definition core_mmu_get_entry_primitive (t : table_ptr) (level idx : Z) : K (Z * Z) :=
  e <- tbl_read t idx;;
  pa <- desc_to_pa level e;; attr <- desc_to_mattr level e;; ret (pa, attr).

Definition core_mmu_set_entry (ti : core_mmu_table_info) (idx pa attr : Z) : K unit :=
  massert (ret (idx <? ti_num_entries ti));;;
  core_mmu_set_entry_primitive (ti_table ti) (ti_level ti) idx pa attr.
Definition core_mmu_get_entry (ti : core_mmu_table_info) (idx : Z) : K (Z * Z) :=
  massert (ret (idx <? ti_num_entries ti));;;
  core_mmu_get_entry_primitive (ti_table ti) (ti_level ti) idx.

(** The loop of [set_region]: entries [idx], ..., one per block. *)
Definition set_region (ti : core_mmu_table_info) (r : tee_mmap_region) : K unit :=
  massert (ret (core_mmu_get_block_offset ti (mm_va r) =? 0));;;
  massert (ret (core_mmu_get_block_offset ti (mm_size r) =? 0));;;
  massert (ret (core_mmu_get_block_offset ti (mm_pa r) =? 0));;;
  let idx := core_mmu_va2idx ti (mm_va r) in
  let end_ := core_mmu_va2idx ti (u32 (mm_va r + mm_size r)) in
  for_each (seqZ 0 (end_ - idx)) (fun i =>
    core_mmu_set_entry ti (idx + i) (u32 (mm_pa r + shl32 i (ti_shift ti))) (mm_attr r)).

(** [core_mmu_add_mapping] *)
Definition core_mmu_add_mapping (t : teecore_memtypes) (addr len : Z) : K bool :=
  if len =? 0 then ret true
  else
  l <- get_map;;
  if match find_map_by_type_and_pa t addr l with
     | Some (_, m) => pbuf_inside_map_area addr len m
     | None => false
     end then ret true
  else match find_map_by_type MEM_AREA_RES_VASPACE l with
  | None => ret false
  | Some (i, m) =>
      o <- core_mmu_find_table (mm_va m) UINT_MAX;;
      match o with
      | None => ret false
      | Some ti =>
          let granule := shl32 1 (ti_shift ti) in
          let p := ROUNDDOWN addr granule in
          let sz := ROUNDUP (u32 (u32 (len + addr) - p)) granule in
          if ti_num_entries ti <=? core_mmu_va2idx ti (u32 (mm_va m + len)) then ret false
          else
          attr <- (match core_mmu_type_to_attr t with Some a => ret a | None => panic end);;
          let entry va := TeeMmapRegion t granule p va sz attr in
          if Z.of_nat (length l) <? MAX_MMAP_REGIONS then
            modify_mmu (set_static_memory_map
              (<[i := set_mm_size (u32 (mm_size m - sz)) (set_mm_va (u32 (mm_va m + sz)) m)]> l
               ++ [entry (mm_va m)]));;;
            set_region ti (entry (mm_va m));;; ret true
          else
            modify_mmu (set_static_memory_map (<[i := entry (mm_va m)]> l));;;
            set_region ti (entry (mm_va m));;; ret true
      end
  end.

(** [core_mmu_alloc_l2]: the first of the tables obtained, or null. *)
Definition core_mmu_alloc_l2 (size : Z) : K (option table_ptr) :=
  used <- gets (fun s => tables_used (k_mmu s));;
  let to_alloc := ROUNDUP size (NUM_L2_ENTRIES * SMALL_PAGE_SIZE) / (NUM_L2_ENTRIES * SMALL_PAGE_SIZE) in
  if MAX_XLAT_TABLES <? u32 (used + to_alloc) then ret None
  else
    for_each (seqZ 0 (to_alloc * NUM_L2_ENTRIES)) (fun i =>
      modify_mmu (fun d => set_main_mmu_l2_ttb (<[used * NUM_L2_ENTRIES + i := 0]> (main_mmu_l2_ttb d)) d));;;
    modify_mmu (set_tables_used (u32 (used + to_alloc)));;;
    ret (Some (L2_TABLE used)).

(** [map_page_memarea]: fills the pages of one level-2 table and returns the
    physical address of that table. *)
Definition map_page_memarea (mm : tee_mmap_region) (xlat : Z) : K Z :=
  l2 <- (if xlat =? 0 then core_mmu_alloc_l2 (mm_size mm)
         else va <- phys_to_virt (Z.land xlat SECTION_PT_ATTR_MASK) MEM_AREA_TEE_RAM_RW;;
              ret (l2_table_of_va va));;
  massert (ret (bool_decide (is_Some l2)));;;
  l2 <- deref l2;;
  let attr := mattr_to_desc 2 (mm_attr mm) in
  let off := Z.land (mm_va mm) SECTION_MASK in
  let first := Z.shiftr off SMALL_PAGE_SHIFT in
  let count := (mm_size mm + off - first * SMALL_PAGE_SIZE + SMALL_PAGE_SIZE - 1) / SMALL_PAGE_SIZE in
  for_each (seqZ first count) (fun pg_idx =>
    let desc := if attr =? INVALID_DESC then attr
                else Z.lor attr (u32 (Z.land (mm_pa mm) (not32 SECTION_MASK) + pg_idx * SMALL_PAGE_SIZE)) in
    e <- tbl_read l2 pg_idx;;
    massert (ret ((desc =? 0) || (e =? 0) || (e =? desc)));;;
    tbl_write l2 pg_idx desc);;;
  virt_to_phys (match l2 with L2_TABLE k => l2_table_va k | L1_TABLE => 0 end).

(** The loop shared by the two level-1 fillers. *)
Definition fill_l1 (ttb_idx n pa attr : Z) : K unit :=
  for_each (seqZ 0 n) (fun i =>
    e <- tbl_read L1_TABLE (ttb_idx + i);;
    let d := Z.lor (u32 (pa + i * SECTION_SIZE)) attr in
    massert (ret ((attr =? 0) || (e =? 0) || (e =? d)));;;
    tbl_write L1_TABLE (ttb_idx + i) d).

Definition map_page_memarea_in_pgdirs (mm : tee_mmap_region) : K unit :=
  let idx := Z.shiftr (mm_va mm) SECTION_SHIFT in
  if mm_size mm =? 0 then ret tt
  else
  '(attr, pa) <- (if tst (mm_attr mm) TEE_MATTR_VALID_BLOCK then
                   e <- tbl_read L1_TABLE idx;;
                   pa <- map_page_memarea mm e;;
                   ret (mattr_to_desc 1 (Z.lor (mm_attr mm) TEE_MATTR_TABLE), pa)
                 else ret (INVALID_DESC, 0));;
  fill_l1 idx (Z.shiftr (ROUNDUP (mm_size mm) SECTION_SIZE) SECTION_SHIFT) pa attr.

Definition map_memarea_sections (mm : tee_mmap_region) : K unit :=
  let idx := Z.shiftr (mm_va mm) SECTION_SHIFT in
  if mm_size mm =? 0 then ret tt
  else
  let attr := mattr_to_desc 1 (mm_attr mm) in
  let pa := if attr =? INVALID_DESC then 0 else mm_pa mm in
  fill_l1 idx (Z.shiftr (ROUNDUP (mm_size mm) SECTION_SIZE) SECTION_SHIFT) pa attr.

(** The page-mapping loop of [map_memarea]; each round maps up to the next
    section boundary, so [fuel] rounds suffice for [fuel] sections. *)
Fixpoint map_memarea_pages (fuel : nat) (mm2 : tee_mmap_region) (size : Z) : K unit :=
  if size =? 0 then ret tt
  else match fuel with
  | O => spin
  | S fuel' =>
      let chunk := Z.min size (SECTION_SIZE - (mm_va mm2 - ROUNDDOWN (mm_va mm2) SECTION_SIZE)) in
      map_page_memarea_in_pgdirs (set_mm_size chunk mm2);;;
      map_memarea_pages fuel'
        (set_mm_size chunk (set_mm_pa (u32 (mm_pa mm2 + chunk)) (set_mm_va (u32 (mm_va mm2 + chunk)) mm2)))
        (size - chunk)
  end.

Definition map_memarea (mm : tee_mmap_region) : K unit :=
  if mm_va mm <? NUM_UL1_ENTRIES * SECTION_SIZE then panic
  else
  let all := Z.lor (Z.lor (mm_va mm) (mm_pa mm)) (mm_size mm) in
  if negb (tst all SECTION_MASK) then map_memarea_sections mm
  else if tst all SMALL_PAGE_MASK then panic
  else map_memarea_pages 4097 mm (mm_size mm).

(** [core_init_mmu_tables] on the entries with a non-zero size. *)
Fixpoint map_all (l : list tee_mmap_region) : K unit :=
  match l with
  | [] => ret tt
  | m :: l' =>
      if mm_size m =? 0 then ret tt
      else (if core_mmu_is_dynamic_vaspace m then ret tt else map_memarea m);;; map_all l'
  end.
Definition core_init_mmu_tables (l : list tee_mmap_region) : K unit :=
  modify_mmu (set_main_mmu_l1_ttb ∅);;; map_all l.
End mmu.

(** ** Lookups *)

Lemma scan_map_Some f l i m :
  scan_map f l = Some (i, m) <->
  l !! i = Some m /\ f m = true /\ (forall j m', (j < i)%nat -> l !! j = Some m' -> f m' = false).
Proof.
  unfold scan_map. rewrite list_find_Some. split; intros (H1 & H2 & H3); split_and!; try done.
  - by apply Is_true_true.
  - intros j m' Hj Hm. apply not_true_iff_false. intros Ht. eapply H3; [done..|].
    by apply Is_true_true.
  - by apply Is_true_true.
  - intros j m' Hm Hj Ht. apply Is_true_true in Ht. by rewrite (H3 j m') in Ht.
Qed.

(** An entry describes two ranges of the same size that do not wrap.  Only a
    range of virtual addresses has no physical address. *)
Record wf_entry (m : tee_mmap_region) : Prop := {
  wf_size : 0 < mm_size m;
  wf_pa : 0 <= mm_pa m /\ mm_pa m + mm_size m <= 2 ^ 32;
  wf_pa_null : mm_pa m = 0 -> core_mmu_is_dynamic_vaspace m = true;
  wf_va : 0 < mm_va m /\ mm_va m + mm_size m <= 2 ^ 32;
}.
Definition va_range (m : tee_mmap_region) (va : Z) : Prop := mm_va m <= va < mm_va m + mm_size m.
Definition pa_range (m : tee_mmap_region) (pa : Z) : Prop := mm_pa m <= pa < mm_pa m + mm_size m.

(** The virtual ranges of distinct entries are disjoint. *)
Definition wf_map (l : list tee_mmap_region) : Prop :=
  Forall wf_entry l /\
  forall i j m n va, l !! i = Some m -> l !! j = Some n -> va_range m va -> va_range n va -> i = j.

Lemma pa_is_in_map_range m pa : wf_entry m -> pa_is_in_map m pa = true <-> pa_range m pa.
Proof.
  intros []. unfold pa_is_in_map, pa_range. rewrite u32_small by (unfold is_u32; lia).
  rewrite andb_true_iff, !Z.leb_le. lia.
Qed.
Lemma va_is_in_map_range m va : wf_entry m -> va_is_in_map m va = true <-> va_range m va.
Proof.
  intros []. unfold va_is_in_map, va_range. rewrite u32_small by (unfold is_u32; lia).
  rewrite andb_true_iff, !Z.leb_le. lia.
Qed.

Lemma find_map_by_va_unique l i m va :
  wf_map l -> l !! i = Some m -> va_range m va -> find_map_by_va va l = Some (i, m).
Proof.
  intros [Hwf Hdis] Hi Hva. apply scan_map_Some.
  assert (Ht : forall m', m' ∈ l ->
     (mm_va m' <=? va) && (va <=? u32 (mm_va m' - 1 + mm_size m')) = true <-> va_range m' va).
  { intros m' Hm'. rewrite Forall_forall in Hwf. destruct (Hwf m' Hm').
    rewrite u32_small by (unfold is_u32; lia). unfold va_range.
    rewrite andb_true_iff, !Z.leb_le. lia. }
  split_and!; [done| |].
  - apply Ht; [|done]. by eapply list_elem_of_lookup_2.
  - intros j m' Hj Hm'. apply not_true_iff_false. intros H.
    apply Ht in H; [|by eapply list_elem_of_lookup_2]. by pose proof (Hdis j i m' m va Hm' Hi H Hva) as ->; lia.
Qed.

Lemma map_pa2va_some (o : option (nat * tee_mmap_region)) pa :
  map_pa2va (snd <$> o) pa <> 0 ->
  exists i m, o = Some (i, m) /\ map_pa2va (snd <$> o) pa = map_pa2va (Some m) pa.
Proof. destruct o as [[i m]|]; simpl; [|done]. by exists i, m. Qed.

Definition is_vaspace_type (t : teecore_memtypes) : bool :=
  match t with MEM_AREA_RES_VASPACE | MEM_AREA_SHM_VASPACE => true | _ => false end.

Lemma phys_to_virt_tee_ram_some pa l :
  phys_to_virt_tee_ram pa l <> 0 ->
  exists t i m, find_map_by_type_and_pa t pa l = Some (i, m) /\
    phys_to_virt_tee_ram pa l = map_pa2va (Some m) pa /\ is_vaspace_type t = false.
Proof.
  unfold phys_to_virt_tee_ram. intros H.
  destruct (find_map_by_type_and_pa MEM_AREA_TEE_RAM pa l) as [[i m]|] eqn:E1;
    [by exists MEM_AREA_TEE_RAM, i, m|].
  destruct (find_map_by_type_and_pa MEM_AREA_TEE_RAM_RW pa l) as [[i m]|] eqn:E2;
    [by exists MEM_AREA_TEE_RAM_RW, i, m|].
  destruct (find_map_by_type_and_pa MEM_AREA_TEE_RAM_RO pa l) as [[i m]|] eqn:E3;
    [by exists MEM_AREA_TEE_RAM_RO, i, m|].
  destruct (find_map_by_type_and_pa MEM_AREA_TEE_RAM_RX pa l) as [[i m]|] eqn:E4;
    [by exists MEM_AREA_TEE_RAM_RX, i, m|]. done.
Qed.

Definition is_tee_ram_type (t : teecore_memtypes) : bool :=
  match t with
  | MEM_AREA_TEE_RAM | MEM_AREA_TEE_RAM_RX | MEM_AREA_TEE_RAM_RO | MEM_AREA_TEE_RAM_RW => true
  | _ => false
  end.

Lemma phys_to_virt_lookup_found pa t l :
  phys_to_virt_lookup pa t l <> 0 ->
  exists t' i m, find_map_by_type_and_pa t' pa l = Some (i, m) /\
    phys_to_virt_lookup pa t l = map_pa2va (Some m) pa /\ (is_tee_ram_type t = false -> t' = t) /\
    (is_vaspace_type t = false -> is_vaspace_type t' = false).
Proof.
  intros H. destruct (is_tee_ram_type t) eqn:Ht.
  - assert (Hl : phys_to_virt_lookup pa t l = phys_to_virt_tee_ram pa l) by (by destruct t).
    rewrite Hl in *. destruct (phys_to_virt_tee_ram_some _ _ H) as (t' & i & m & ? & ? & ?).
    by exists t', i, m.
  - assert (Hl : phys_to_virt_lookup pa t l = map_pa2va (snd <$> find_map_by_type_and_pa t pa l) pa)
      by (by destruct t).
    rewrite Hl in *. destruct (map_pa2va_some _ _ H) as (i & m & ? & ?). by exists t, i, m.
Qed.

(** A successful physical lookup lands on an entry that contains the address. *)
Lemma phys_to_virt_lookup_entry pa t l va :
  Forall wf_entry l -> phys_to_virt_lookup pa t l = va -> va <> 0 ->
  exists i m, l !! i = Some m /\ pa_range m pa /\ va = mm_va m + pa - mm_pa m /\
    (is_tee_ram_type t = false -> mm_type m = t) /\
    (is_vaspace_type t = false -> mm_pa m <> 0).
Proof.
  intros Hwf <- Hnz.
  destruct (phys_to_virt_lookup_found _ _ _ Hnz) as (t' & i & m & Hf & -> & Ht & Hv).
  apply scan_map_Some in Hf as (Hi & Hm & _).
  apply andb_true_iff in Hm as [Hty Hpa]. apply bool_decide_eq_true in Hty.
  assert (Hw : wf_entry m) by (by eapply Forall_lookup_1).
  exists i, m. simpl. rewrite Hpa. apply pa_is_in_map_range in Hpa; [|done].
  split_and!; [done|done| |intros; by rewrite Hty, Ht|].
  2:{ intros Hnv H0. apply (wf_pa_null m Hw) in H0. specialize (Hv Hnv). rewrite <- Hty in Hv.
    unfold core_mmu_is_dynamic_vaspace in H0. by destruct (mm_type m). }
  destruct Hw. unfold pa_range in *. apply u32_small. unfold is_u32. lia.
Qed.

(** ** Section entries *)

Section entries.
Context {P : Type} {plat : Platform P} {cfg : Config} {lay : Layout}.

Lemma table_get_set d t idx v : table_get (table_set t idx v d) t idx = v.
Proof. destruct t; simpl; by rewrite lookup_insert_eq. Qed.
Lemma table_get_set_ne d t idx idx' v :
  idx <> idx' -> table_get (table_set t idx v d) t idx' = table_get d t idx'.
Proof. intros. destruct t; simpl; rewrite lookup_insert_ne by lia; done. Qed.

Lemma tbl_write_run t idx v (s : kernel P) :
  0 <= idx < table_len t ->
  tbl_write t idx v s = Ret tt (set_k_mmu (table_set t idx v (k_mmu s)) s).
Proof.
  intros. unfold tbl_write. by rewrite (proj2 (Z.leb_le _ _)), (proj2 (Z.ltb_lt _ _)) by lia.
Qed.
Lemma tbl_read_run t idx (s : kernel P) :
  0 <= idx < table_len t -> tbl_read t idx s = Ret (table_get (k_mmu s) t idx) s.
Proof.
  intros. unfold tbl_read. by rewrite (proj2 (Z.leb_le _ _)), (proj2 (Z.ltb_lt _ _)) by lia.
Qed.
End entries.

Lemma desc_to_pa_section `{Config} {St} d n (s : St) :
  desc_type_of 1 d = DESC_TYPE_SECTION -> 0 <= d < 2 ^ 20 -> 0 <= n < 2 ^ 12 ->
  desc_to_pa 1 (Z.lor d (Z.shiftl n 20)) s = Ret (Z.shiftl n 20) s.
Proof.
  intros Ht Hd Hn. unfold desc_to_pa.
  erewrite bind_run by (apply get_desc_type_run; lia).
  rewrite (proj1 (section_low d n)), Ht. simpl desc_shift_mask.
  unfold ret. f_equal. apply address_field; lia.
Qed.
Lemma desc_to_pa_page `{Config} {St} d n (s : St) :
  desc_type_of 2 d = DESC_TYPE_SMALL_PAGE -> 0 <= d < 2 ^ 12 -> 0 <= n < 2 ^ 20 ->
  desc_to_pa 2 (Z.lor d (Z.shiftl n 12)) s = Ret (Z.shiftl n 12) s.
Proof.
  intros Ht Hd Hn. unfold desc_to_pa.
  erewrite bind_run by (apply get_desc_type_run; lia).
  rewrite (proj1 (small_page_low d n)), Ht. simpl desc_shift_mask.
  unfold ret. f_equal. apply address_field; lia.
Qed.

(** ** Ordering of the map *)

(** The sort key of an entry: type, then physical address. *)
Definition key_le (t1 a1 t2 a2 : Z) : Prop := t1 < t2 \/ (t1 = t2 /\ a1 <= a2).
Definition entry_le (m n : tee_mmap_region) : Prop :=
  key_le (memtype_val (mm_type m)) (mm_pa m) (memtype_val (mm_type n)) (mm_pa n).
Definition new_entry (mem : core_mmu_phys_mem) : tee_mmap_region :=
  TeeMmapRegion (pm_type mem) 0 (pm_addr mem) 0 (pm_size mem) 0.

Lemma memtype_val_inj t t' : memtype_val t = memtype_val t' -> t = t'.
Proof. destruct t, t'; simpl; intros; (reflexivity || discriminate). Qed.

Lemma phys_before_false mem m :
  phys_before mem m = false -> entry_le m (new_entry mem).
Proof.
  unfold phys_before, entry_le, key_le. simpl. intros H. apply orb_false_iff in H as [H1 H2].
  apply Z.ltb_ge in H1.
  destruct (Z.eq_dec (memtype_val (mm_type m)) (memtype_val (pm_type mem))) as [He|]; [|lia].
  apply memtype_val_inj in He. rewrite bool_decide_eq_true_2 in H2 by done.
  apply Z.ltb_ge in H2. lia.
Qed.
Lemma phys_before_true mem m :
  phys_before mem m = true -> entry_le (new_entry mem) m.
Proof.
  unfold phys_before, entry_le, key_le. simpl. intros H. apply orb_true_iff in H as [H|H].
  - apply Z.ltb_lt in H. lia.
  - apply andb_true_iff in H as [H1 H2]. apply bool_decide_eq_true in H1.
    apply Z.ltb_lt in H2. rewrite H1. lia.
Qed.
#[global] Instance entry_le_trans : Transitive entry_le.
Proof. unfold entry_le, key_le. intros x y z. lia. Qed.

Lemma coalesce_le mem m n :
  pm_type mem = mm_type m -> entry_le n m -> entry_le n (new_entry mem) -> entry_le n (coalesce mem m).
Proof. unfold entry_le, key_le. simpl. intros ->. lia. Qed.
Lemma coalesce_ge mem m n : entry_le m n -> entry_le (coalesce mem m) n.
Proof. unfold entry_le, key_le. simpl. lia. Qed.

Lemma add_phys_mem_from_sorted num n mem l l' :
  StronglySorted entry_le l -> add_phys_mem_from num n mem l = Some l' ->
  StronglySorted entry_le l' /\
  (forall x, entry_le x (new_entry mem) -> Forall (entry_le x) l -> Forall (entry_le x) l').
Proof.
  revert n l'. induction l as [|m l IH]; intros n l' Hs Ha; simpl in Ha.
  { destruct (_ <=? _); simplify_eq. split; [repeat constructor|]. intros x Hx _.
    constructor; [exact Hx|done]. }
  destruct (num - 1 <=? n); [done|].
  apply StronglySorted_inv in Hs as [Hs Hm].
  destruct (bool_decide _ && _) eqn:Eov; [|destruct (phys_before mem m) eqn:Eb].
  - simplify_eq. apply andb_true_iff in Eov as [Ht _]. apply bool_decide_eq_true in Ht. split.
    + constructor; [done|]. eapply Forall_impl; [exact Hm|]. intros y. apply coalesce_ge.
    + intros x Hx Hl. apply Forall_cons in Hl as [? ?]. constructor; [by apply coalesce_le|done].
  - simplify_eq. apply phys_before_true in Eb. split.
    + constructor; [by constructor|]. constructor; [done|].
      eapply Forall_impl; [exact Hm|]. intros y ?. by etrans.
    + intros x Hx Hl. by constructor.
  - apply fmap_Some in Ha as (l2 & Ha & ->). destruct (IH _ _ Hs Ha) as [IH1 IH2].
    apply phys_before_false in Eb. split.
    + constructor; [done|]. by apply IH2.
    + intros x Hx Hl. apply Forall_cons in Hl as [? ?]. constructor; [done|]. by apply IH2.
Qed.

Lemma add_phys_mem_from_perm num n mem l l' :
  Forall (fun m => bool_decide (pm_type mem = mm_type m) && phys_overlaps mem m = false) l ->
  add_phys_mem_from num n mem l = Some l' -> l' ≡ₚ new_entry mem :: l.
Proof.
  intros Hno. revert n l'. induction Hno as [|m l Hm Hno IH]; intros n l' Ha; simpl in Ha.
  { destruct (_ <=? _); simplify_eq. done. }
  destruct (num - 1 <=? n); [done|]. rewrite Hm in Ha. destruct (phys_before mem m).
  - by simplify_eq.
  - apply fmap_Some in Ha as (l2 & Ha & ->). rewrite (IH _ _ Ha). apply Permutation_swap.
Qed.

(** ** Properties *)

(** Writing a section (level 1) or small-page (level 2) entry and reading
    it back yields the block-aligned physical address and the attributes the
    hardware can express: read permission implied by any other, write and
    execute permissions merged over both privilege levels, the global and
    cache attributes, and at level 1 the security attribute.  In particular a
    mapping is never more secure, writable or executable for the secure
    privileged world than asked. *)
Theorem core_mmu_entry_roundtrip {P} `{Platform P, Config, Layout}
    (s : kernel P) pr pw px ur uw ux global secure cached idx k n :
  let r := pr || pw || px || ur || uw || ux in let w := pw || uw in let x := r && (px || ux) in
  (0 <= idx < NUM_L1_ENTRIES -> 0 <= n < 2 ^ 12 ->
   exists s', core_mmu_set_entry_primitive L1_TABLE 1 idx (Z.shiftl n 20)
                (block_attr pr pw px ur uw ux global secure cached) s = Ret tt s' /\
     core_mmu_get_entry_primitive L1_TABLE 1 idx s' =
       Ret (Z.shiftl n 20, block_attr r w x r w x global secure cached) s') /\
  (0 <= idx < NUM_L2_ENTRIES -> 0 <= n < 2 ^ 20 ->
   exists s', core_mmu_set_entry_primitive (L2_TABLE k) 2 idx (Z.shiftl n 12)
                (block_attr pr pw px ur uw ux global secure cached) s = Ret tt s' /\
     core_mmu_get_entry_primitive (L2_TABLE k) 2 idx s' =
       Ret (Z.shiftl n 12, block_attr r w x r w x global false cached) s').
Proof.
  intros r w x. split; intros Hidx Hn; unfold core_mmu_set_entry_primitive.
  - destruct (section_roundtrip pr pw px ur uw ux global secure cached) as (Ht & Hd & Ha).
    eexists. split; [by apply tbl_write_run|].
    unfold core_mmu_get_entry_primitive. rewrite (bind_run _ _ _ _ _ (tbl_read_run L1_TABLE idx _ Hidx)).
    cbn [k_mmu set_k_mmu]. rewrite table_get_set. erewrite bind_run by (by apply desc_to_pa_section).
    erewrite bind_run by (apply desc_to_mattr_run; lia).
    unfold ret. rewrite (proj1 (section_low _ _)), Ht, (proj2 (section_low _ _)), Ha. done.
  - destruct (small_page_roundtrip pr pw px ur uw ux global secure cached) as (Ht & Hd & Ha).
    eexists. split; [by apply tbl_write_run|].
    unfold core_mmu_get_entry_primitive. rewrite (bind_run _ _ _ _ _ (tbl_read_run (L2_TABLE k) idx _ Hidx)).
    cbn [k_mmu set_k_mmu]. rewrite table_get_set. erewrite bind_run by (by apply desc_to_pa_page).
    erewrite bind_run by (apply desc_to_mattr_run; lia).
    unfold ret. rewrite (proj1 (small_page_low _ _)), Ht, (proj2 (small_page_low _ _)), Ha. done.
Qed.

(** C28: physical-to-virtual lookups are inverted by the virtual-to-physical
    one: in a map whose entries do not wrap and whose virtual ranges are
    disjoint, a non-null result of [phys_to_virt] for [pa] is a virtual
    address that [core_va2pa_helper] sends back to [pa], inside an entry of
    the requested type (any core RAM type for a core RAM request).  The types
    of plain virtual ranges are excluded: these have no physical address. *)
Theorem phys_to_virt_roundtrip l pa t :
  wf_map l -> is_vaspace_type t = false -> phys_to_virt_lookup pa t l <> 0 ->
  core_va2pa_helper (phys_to_virt_lookup pa t l) l = Some pa /\
  exists m, m ∈ l /\ pa_range m pa /\ (is_tee_ram_type t = false -> mm_type m = t).
Proof.
  intros Hwf Hv Hnz. destruct (phys_to_virt_lookup_entry pa t l _ (proj1 Hwf) eq_refl Hnz)
    as (i & m & Hi & Hpa & Hva & Ht & H0).
  assert (Hw : wf_entry m) by (eapply Forall_lookup_1; [apply Hwf|done]).
  assert (Hr : va_range m (phys_to_virt_lookup pa t l))
    by (rewrite Hva; unfold va_range, pa_range in *; lia).
  split; [|exists m; split; [by eapply list_elem_of_lookup_2|done]].
  unfold core_va2pa_helper. rewrite (find_map_by_va_unique _ _ _ _ Hwf Hi Hr).
  rewrite (proj2 (va_is_in_map_range m _ Hw) Hr), Hva.
  destruct Hw as [_ Hp _ _]. unfold pa_range in Hpa.
  rewrite (proj2 (Z.eqb_neq (mm_pa m) 0)) by auto. f_equal.
  rewrite u32_small; [lia|unfold is_u32; lia].
Qed.

Lemma phys_to_virt_roundtrip_witness :
  let l := [TeeMmapRegion MEM_AREA_IO_SEC 0x100000 0x02000000 0x60000000 0x00200000 0] in
  core_va2pa_helper (phys_to_virt_lookup 0x021C0000 MEM_AREA_IO_SEC l) l = Some 0x021C0000.
Proof.
  intros l. apply (phys_to_virt_roundtrip l); [|done|vm_compute; discriminate].
  split; [repeat constructor; simpl; lia|].
  intros [|[]] [|[]] ???; simpl; intros; done.
Defined.

(** C27: when the checks of [core_init_mmu_map] pass, secure memory is not
    shared: every core-RAM or TA-RAM entry lies inside the secure DRAM, every
    non-secure shared-memory entry lies inside the shared area, and no
    physical address belongs to entries of both kinds. *)
Theorem core_init_mmu_map_checks_sound l m n pa :
  core_init_mmu_map_checks l = true ->
  Forall (fun e => is_u32 (mm_pa e) /\ is_u32 (mm_size e)) l ->
  m ∈ l -> n ∈ l ->
  map_is_tee_ram m = true \/ mm_type m = MEM_AREA_TA_RAM -> mm_type n = MEM_AREA_NSEC_SHM ->
  pa_range m pa -> TZDRAM_BASE <= pa < TZDRAM_BASE + TZDRAM_SIZE /\ ~ pa_range n pa.
Proof.
  intros Hc Hu Hm Hn Hmt Hnt Hpa. unfold core_init_mmu_map_checks in Hc.
  apply andb_true_iff in Hc as [_ Hc].
  assert (Hall : forall e, e ∈ l -> map_entry_allowed e = true).
  { intros e He. eapply forallb_forall; [exact Hc|]. by apply list_elem_of_In. }
  rewrite Forall_forall in Hu. destruct (Hu m Hm) as [Hm1 Hm2], (Hu n Hn) as [Hn1 Hn2].
  pose proof (Hall m Hm) as Ham. pose proof (Hall n Hn) as Han.
  unfold map_entry_allowed in Han. rewrite Hnt in Han.
  assert (Hin : pbuf_is_inside secure_only (mm_pa m) (mm_size m) = true).
  { unfold map_entry_allowed, map_is_tee_ram in *.
    destruct Hmt as [Hmt|Hmt]; destruct (mm_type m); (discriminate || done). }
  unfold pbuf_is_inside, existsb, secure_only, nsec_shared in *. rewrite orb_false_r in *.
  assert (is_u32 TZDRAM_BASE /\ is_u32 TZDRAM_SIZE /\ is_u32 CFG_SHMEM_START /\ is_u32 CFG_SHMEM_SIZE)
    as (? & ? & ? & ?) by (split_and!; split; vm_compute; congruence).
  simpl in Hin, Han. apply TeeMisc.core_is_buffer_inside_range in Hin, Han; [|assumption..].
  unfold pa_range in *. unfold CFG_SHMEM_START in *. fold TZDRAM_BASE in *. lia.
Qed.

Lemma core_init_mmu_map_checks_witness :
  let m := TeeMmapRegion MEM_AREA_TEE_RAM_RW 0x1000 TZDRAM_BASE 0x4e000000 0x1000 0 in
  let n := TeeMmapRegion MEM_AREA_NSEC_SHM 0x1000 CFG_SHMEM_START 0x50000000 0x1000 0 in
  ~ pa_range n TZDRAM_BASE.
Proof.
  intros m n.
  apply (core_init_mmu_map_checks_sound [m; n; TeeMmapRegion MEM_AREA_TA_RAM 0x1000 CFG_TA_RAM_START 0x51000000 0x1000 0] m n TZDRAM_BASE).
  - vm_compute. reflexivity.
  - repeat constructor; vm_compute; congruence.
  - left.
  - right. left.
  - left. reflexivity.
  - reflexivity.
  - unfold pa_range. vm_compute. intuition congruence.
Defined.
