(* ===== verification/Qsort.v ===== *)
(** * Sorting (lib/libutils/isoc/qsort.c)

    Bentley and McIlroy's quicksort with its switch to insertion sort.  The
    array is a list, a pointer into it is an index (the element size [es] is the
    unit), and the comparison is a routine of the kernel monad, as it may panic.
    An index outside of the array is a fault.  [swaptype] selects the width of
    the words in which two elements are exchanged; every element is exchanged
    as a whole.  Arrays are below 2 GiB, so that [d] and [r] are exact.

    The proof is in two layers.  Whatever the comparison answers, sorting
    returns, exchanges elements of the array and of nothing else ([shuffle]).
    When the answers are an order on the elements ([CmpOrder]), the result is
    sorted.  The second layer is kept separate because [cmp_mmap_by_secure_attr]
    is not an order. *)

From stdpp Require Import prelude list relations.
From Stdlib Require Import ZArith Lia Sorting.Sorted.
From S2P Require Import Prelude.
#[local] Open Scope Z_scope.
#[local] Open Scope kernel_scope.

Section qsort.
Context {A S : Type} (cmp : A -> A -> M S Z).

(** [cmp(&a[i], &a[j])] *)
Definition cmp_at (l : list A) (i j : Z) : M S Z :=
  x <- aget l i;; y <- aget l j;; cmp x y.

(** The [swap] macro. *)
Definition swap (i j : Z) (l : list A) : M S (list A) :=
  x <- aget l i;; y <- aget l j;;
  l1 <- aset l i y;; aset l1 j x.

(** [vecswap]: [swapfunc] over [n] elements, when there are any. *)
Fixpoint swapfunc (n : nat) (i j : Z) (l : list A) : M S (list A) :=
  match n with
  | O => ret l
  | Datatypes.S n => l' <- swap i j l;; swapfunc n (i + 1) (j + 1) l'
  end.
Definition vecswap (i j n : Z) (l : list A) : M S (list A) :=
  if 0 <? n then swapfunc (Z.to_nat n) i j l else ret l.

Definition med3 (l : list A) (a b c : Z) : M S Z :=
  ab <- cmp_at l a b;;
  bc <- cmp_at l b c;;
  if ab <? 0 then
    (if bc <? 0 then ret b else ac <- cmp_at l a c;; ret (if ac <? 0 then c else a))
  else
    (if 0 <? bc then ret b else ac <- cmp_at l a c;; ret (if ac <? 0 then a else c)).

(** The inner and the outer loop of the insertion sort. *)
Fixpoint sift (fuel : nat) (a pl : Z) (l : list A) : M S (list A) :=
  if pl >? a then
    c <- cmp_at l (pl - 1) pl;;
    if 0 <? c then
      l' <- swap pl (pl - 1) l;;
      match fuel with O => spin | Datatypes.S fuel => sift fuel a (pl - 1) l' end
    else ret l
  else ret l.
Fixpoint insertion (fuel : nat) (a n pm : Z) (l : list A) : M S (list A) :=
  if pm <? a + n then
    match fuel with
    | O => spin
    | Datatypes.S fuel => l' <- sift (Z.to_nat (pm - a)) a pm l;; insertion fuel a n (pm + 1) l'
    end
  else ret l.
Definition insertion_sort (a n : Z) (l : list A) : M S (list A) :=
  insertion (Z.to_nat n) a n (a + 1) l.

(** The locals of the partition loop together with the array. *)
Record part := Part { pa : Z; pb : Z; pc : Z; pd : Z; swap_cnt : bool; arr : list A }.

Fixpoint scan_up (fuel : nat) (a : Z) (p : part) : M S part :=
  if pb p <=? pc p then
    r <- cmp_at (arr p) (pb p) a;;
    if r <=? 0 then
      p' <- (if r =? 0 then
               l' <- swap (pa p) (pb p) (arr p);;
               ret (Part (pa p + 1) (pb p) (pc p) (pd p) true l')
             else ret p);;
      match fuel with
      | O => spin
      | Datatypes.S fuel => scan_up fuel a (Part (pa p') (pb p' + 1) (pc p') (pd p') (swap_cnt p') (arr p'))
      end
    else ret p
  else ret p.
Fixpoint scan_down (fuel : nat) (a : Z) (p : part) : M S part :=
  if pb p <=? pc p then
    r <- cmp_at (arr p) (pc p) a;;
    if 0 <=? r then
      p' <- (if r =? 0 then
               l' <- swap (pc p) (pd p) (arr p);;
               ret (Part (pa p) (pb p) (pc p) (pd p - 1) true l')
             else ret p);;
      match fuel with
      | O => spin
      | Datatypes.S fuel => scan_down fuel a (Part (pa p') (pb p') (pc p' - 1) (pd p') (swap_cnt p') (arr p'))
      end
    else ret p
  else ret p.
(** The [for (;;)] loop. *)
Fixpoint partition (fuel : nat) (a : Z) (p : part) : M S part :=
  match fuel with
  | O => spin
  | Datatypes.S fuel' =>
      p1 <- scan_up fuel a p;;
      p2 <- scan_down fuel a p1;;
      if pb p2 >? pc p2 then ret p2
      else
        l' <- swap (pb p2) (pc p2) (arr p2);;
        partition fuel' a (Part (pa p2) (pb p2 + 1) (pc p2 - 1) (pd p2) true l')
  end.

(** The choice of the pivot. *)
Definition choose_pivot (a n : Z) (l : list A) : M S Z :=
  let pm := a + n / 2 in
  if 7 <? n then
    let pl := a in
    let pn := a + (n - 1) in
    if 40 <? n then
      let d := n / 8 in
      pl <- med3 l pl (pl + d) (pl + 2 * d);;
      pm <- med3 l (pm - d) pm (pm + d);;
      pn <- med3 l (pn - 2 * d) (pn - d) pn;;
      med3 l pl pm pn
    else med3 l pl pm pn
  else ret pm.

(** [qsort(a, n, es, cmp)]; one unit of fuel per pass through [loop:]. *)
Fixpoint qsort_loop (fuel : nat) (a n : Z) (l : list A) : M S (list A) :=
  match fuel with
  | O => spin
  | Datatypes.S fuel =>
      if n <? 7 then insertion_sort a n l
      else
        pm <- choose_pivot a n l;;
        l <- swap a pm l;;
        p <- partition (Z.to_nat n) a (Part (a + 1) (a + 1) (a + (n - 1)) (a + (n - 1)) false l);;
        if negb (swap_cnt p) then insertion_sort a n (arr p)
        else
          let pn := a + n in
          let r := Z.min (pa p - a) (pb p - pa p) in
          l <- vecswap a (pb p - r) r (arr p);;
          let r := Z.min (pd p - pc p) (pn - pd p - 1) in
          l <- vecswap (pb p) (pn - r) r l;;
          let r := pb p - pa p in
          l <- (if 1 <? r then qsort_loop fuel a r l else ret l);;
          let r := pd p - pc p in
          if 1 <? r then qsort_loop fuel (pn - r) r l else ret l
  end.
Definition qsort (a n : Z) (l : list A) : M S (list A) := qsort_loop (Datatypes.S (Z.to_nat n)) a n l.
End qsort.

Arguments part A : clear implicits.
Arguments Part {A} _ _ _ _ _ _.

(** ** Arrays and exchanges *)

Section arrays.
Context {A : Type}.
Implicit Types (l : list A) (P : A -> Prop).

(** [*(a + i)] *)
Definition elem (l : list A) (i : Z) : option A := l !! Z.to_nat i.
Definition size (l : list A) : Z := Z.of_nat (length l).

(** The array after an exchange of two elements. *)
Definition exch (i j : Z) (l : list A) : list A :=
  match elem l i, elem l j with
  | Some x, Some y => <[Z.to_nat j := x]> (<[Z.to_nat i := y]> l)
  | _, _ => l
  end.

Lemma elem_Some l i : 0 <= i < size l -> exists x, elem l i = Some x.
Proof. intros H. apply lookup_lt_is_Some. unfold size in H. lia. Qed.

Lemma size_exch i j l : size (exch i j l) = size l.
Proof. unfold exch, size. destruct (elem l i), (elem l j); by rewrite ?length_insert. Qed.

Lemma exch_perm i j l : exch i j l ≡ₚ l.
Proof.
  unfold exch. destruct (elem l i) eqn:Hi, (elem l j) eqn:Hj; try done.
  by apply Permutation_insert_swap.
Qed.

Lemma elem_exch i j l k :
  0 <= i < size l -> 0 <= j < size l -> 0 <= k ->
  elem (exch i j l) k = if k =? j then elem l i else if k =? i then elem l j else elem l k.
Proof.
  intros Hi Hj Hk. unfold exch.
  destruct (elem_Some l i Hi) as [x Hx], (elem_Some l j Hj) as [y Hy].
  rewrite Hx, Hy. unfold elem, size in *.
  destruct (Z.eqb_spec k j) as [->|Hkj].
  { rewrite list_lookup_insert_eq; [done|]. rewrite length_insert. lia. }
  rewrite list_lookup_insert_ne by lia.
  destruct (Z.eqb_spec k i) as [->|Hki].
  { rewrite list_lookup_insert_eq; [done|lia]. }
  by rewrite list_lookup_insert_ne by lia.
Qed.

(** ** Exchanges inside of a range *)

Definition exch_in (lo hi : Z) (l l' : list A) : Prop :=
  exists i j, lo <= i < hi /\ lo <= j < hi /\ l' = exch i j l.
(** [shuffle lo hi l l']: [l'] comes from [l] by exchanges of elements with
    indices from [lo] to [hi - 1]. *)
Definition shuffle (lo hi : Z) : list A -> list A -> Prop := rtc (exch_in lo hi).

#[global] Instance shuffle_preorder lo hi : PreOrder (shuffle lo hi).
Proof. unfold shuffle. apply _. Qed.

Lemma shuffle_exch lo hi i j l : lo <= i < hi -> lo <= j < hi -> shuffle lo hi l (exch i j l).
Proof. intros. apply rtc_once. by exists i, j. Qed.
Lemma shuffle_mono lo hi lo' hi' l l' : lo' <= lo -> hi <= hi' -> shuffle lo hi l l' -> shuffle lo' hi' l l'.
Proof.
  intros Hlo Hhi. apply rtc_subrel. intros x y (i & j & ? & ? & ->).
  exists i, j. split_and!; (lia || done).
Qed.
Lemma shuffle_size lo hi l l' : shuffle lo hi l l' -> size l' = size l.
Proof. induction 1 as [|x y z (i & j & ? & ? & ->) _ ->]; [done|]. apply size_exch. Qed.
Lemma shuffle_perm lo hi l l' : shuffle lo hi l l' -> l' ≡ₚ l.
Proof. induction 1 as [|x y z (i & j & ? & ? & ->) _ ->]; [done|]. apply exch_perm. Qed.
Lemma shuffle_outside lo hi l l' k :
  shuffle lo hi l l' -> 0 <= lo -> hi <= size l -> 0 <= k -> k < lo \/ hi <= k -> elem l' k = elem l k.
Proof.
  induction 1 as [|x y z (i & j & ? & ? & ->) _ IH]; [done|]. intros Hlo Hhi Hk Hout.
  rewrite IH, elem_exch by (rewrite ?size_exch; lia).
  by rewrite (proj2 (Z.eqb_neq k j)), (proj2 (Z.eqb_neq k i)) by lia.
Qed.

(** ** Ranges whose elements have a property *)

Definition seg (lo hi : Z) (P : A -> Prop) (l : list A) : Prop :=
  forall k, lo <= k < hi -> exists x, elem l k = Some x /\ P x.

Lemma seg_impl lo hi P P' l : (forall x, P x -> P' x) -> seg lo hi P l -> seg lo hi P' l.
Proof. intros HP H k Hk. destruct (H k Hk) as (x & Hx & HPx). eauto. Qed.
Lemma seg_sub lo hi lo' hi' P l : lo <= lo' -> hi' <= hi -> seg lo hi P l -> seg lo' hi' P l.
Proof. intros ?? H k Hk. apply H. lia. Qed.
Lemma seg_elem lo hi P l k x : seg lo hi P l -> lo <= k < hi -> elem l k = Some x -> P x.
Proof. intros H Hk Hx. destruct (H k Hk) as (y & Hy & HP). by simplify_eq. Qed.
Lemma seg_and lo hi P P' l : seg lo hi P l -> seg lo hi P' l -> seg lo hi (fun x => P x /\ P' x) l.
Proof.
  intros H H' k Hk. destruct (H k Hk) as (x & Hx & HP), (H' k Hk) as (y & Hy & HP').
  simplify_eq. eauto.
Qed.
Lemma seg_Forall l P : Forall P l -> seg 0 (size l) P l.
Proof.
  intros HP k Hk. destruct (elem_Some l k Hk) as [x Hx]. exists x. split; [done|].
  by eapply Forall_lookup_1.
Qed.

(** An element found after an exchange was in the array before. *)
Lemma seg_exch lo hi P i j l :
  0 <= lo -> hi <= size l -> lo <= i < hi -> lo <= j < hi ->
  seg lo hi P l -> seg lo hi P (exch i j l).
Proof.
  intros ???? H k Hk. rewrite elem_exch by lia.
  destruct (Z.eqb_spec k j); [by apply H|]. destruct (Z.eqb_spec k i); by apply H.
Qed.
Lemma seg_shuffle lo hi P l l' :
  0 <= lo -> hi <= size l -> shuffle lo hi l l' -> seg lo hi P l -> seg lo hi P l'.
Proof.
  intros Hlo. induction 2 as [|x y z (i & j & Hi & Hj & ->) Hr IH]; [done|]. intros HP.
  apply IH; [by rewrite size_exch|]. by apply seg_exch.
Qed.
Lemma seg_outside lo hi lo' hi' P l l' :
  0 <= lo -> hi <= size l -> 0 <= lo' -> hi' <= lo \/ hi <= lo' ->
  shuffle lo hi l l' -> seg lo' hi' P l -> seg lo' hi' P l'.
Proof.
  intros ???? Hs H k Hk. destruct (H k Hk) as (x & Hx & HP). exists x. split; [|done].
  rewrite <- Hx. eapply shuffle_outside; (done || lia).
Qed.

(** Later elements are not below earlier ones. *)
Definition sorted_in (R : A -> A -> Prop) (lo hi : Z) (l : list A) : Prop :=
  forall i j x y, lo <= i -> i < j -> j < hi -> elem l i = Some x -> elem l j = Some y -> R x y.

Lemma sorted_in_short R lo hi l : hi <= lo + 1 -> sorted_in R lo hi l.
Proof. intros ? i j. lia. Qed.
Lemma sorted_in_outside R lo hi lo' hi' l l' :
  0 <= lo -> hi <= size l -> 0 <= lo' -> hi' <= lo \/ hi <= lo' ->
  shuffle lo hi l l' -> sorted_in R lo' hi' l -> sorted_in R lo' hi' l'.
Proof.
  intros ???? Hs H i j x y ???. rewrite !(shuffle_outside lo hi l l') by (done || lia).
  by apply H.
Qed.
(** Two sorted ranges next to each other, the first below the second. *)
Lemma sorted_in_app R (mid lo hi : Z) P P' l :
  (forall x y, P x -> P' y -> R x y) ->
  seg lo mid P l -> seg mid hi P' l ->
  sorted_in R lo mid l -> sorted_in R mid hi l -> sorted_in R lo hi l.
Proof.
  intros HR H1 H2 Hs1 Hs2 i j x y Hi Hij Hj Hx Hy.
  destruct (Z_lt_le_dec j mid); [by apply (Hs1 i j)|].
  destruct (Z_lt_le_dec i mid); [|by apply (Hs2 i j)].
  apply HR; [by apply (seg_elem _ _ _ _ i x H1)|by apply (seg_elem _ _ _ _ j y H2)].
Qed.
Lemma sorted_in_all R l : sorted_in R 0 (size l) l -> StronglySorted R l.
Proof.
  unfold sorted_in, elem, size. induction l as [|x l IH]; intros H; constructor.
  - apply IH. intros i j y z ??? Hy Hz. apply (H (i + 1) (j + 1)); [rewrite ?length_cons; lia..| |].
    + by replace (Z.to_nat (i + 1)) with (Datatypes.S (Z.to_nat i)) by lia.
    + by replace (Z.to_nat (j + 1)) with (Datatypes.S (Z.to_nat j)) by lia.
  - apply Forall_lookup_2. intros i y Hy.
    pose proof (lookup_lt_Some _ _ _ Hy).
    apply (H 0 (Z.of_nat i + 1)); [lia|lia|rewrite length_cons; lia|done|].
    by replace (Z.to_nat (Z.of_nat i + 1)) with (Datatypes.S i) by lia.
Qed.
End arrays.

(** ** Sorting with any comparison *)

Section any.
Context {A S : Type} (cmp : A -> A -> M S Z) (f : A -> A -> Z) (ok : A -> Prop) (s : S).
(** On the elements [ok] the comparison returns [f] and leaves the state. *)
Hypothesis cmp_run : forall x y, ok x -> ok y -> cmp x y s = Ret (f x y) s.
Implicit Types (l : list A).

Lemma aget_elem l i x : 0 <= i -> elem l i = Some x -> aget l i s = Ret x s.
Proof. apply aget_run. Qed.

Lemma cmp_at_run l i j x y :
  0 <= i -> 0 <= j -> elem l i = Some x -> elem l j = Some y -> ok x -> ok y ->
  cmp_at cmp l i j s = Ret (f x y) s.
Proof.
  intros Hi Hj Hx Hy Hox Hoy. unfold cmp_at.
  rewrite (bind_run _ _ _ _ _ (aget_elem _ _ _ Hi Hx)), (bind_run _ _ _ _ _ (aget_elem _ _ _ Hj Hy)).
  by apply cmp_run.
Qed.

Lemma aset_elem l i v : 0 <= i < size l -> aset l i v s = Ret (<[Z.to_nat i := v]> l) s.
Proof.
  unfold aset, size. intros. by rewrite (proj2 (Z.leb_le _ _)), (proj2 (Z.ltb_lt _ _)) by lia.
Qed.

Lemma swap_run l i j : 0 <= i < size l -> 0 <= j < size l -> swap i j l s = Ret (exch i j l) s.
Proof.
  intros Hi Hj. destruct (elem_Some l i Hi) as [x Hx], (elem_Some l j Hj) as [y Hy].
  unfold swap, exch. rewrite Hx, Hy.
  rewrite (bind_run _ _ _ _ _ (aget_elem _ _ _ (proj1 Hi) Hx)).
  rewrite (bind_run _ _ _ _ _ (aget_elem _ _ _ (proj1 Hj) Hy)).
  rewrite (bind_run _ _ _ _ _ (aset_elem _ _ _ Hi)).
  apply aset_elem. unfold size. by rewrite length_insert.
Qed.

Lemma wp_swap l i j (Q : list A -> S -> Prop) :
  0 <= i < size l -> 0 <= j < size l -> Q (exch i j l) s -> wp (swap i j l) s Q.
Proof. intros. eapply wp_intro; [by apply swap_run|done]. Qed.
Lemma wp_cmp_at l i j x y (Q : Z -> S -> Prop) :
  0 <= i -> 0 <= j -> elem l i = Some x -> elem l j = Some y -> ok x -> ok y ->
  Q (f x y) s -> wp (cmp_at cmp l i j) s Q.
Proof. intros. eapply wp_intro; [by eapply cmp_at_run|done]. Qed.

(** The postcondition of a routine that leaves the state and returns a list. *)
Definition post (Q : list A -> Prop) : list A -> S -> Prop := fun l' s' => s' = s /\ Q l'.

(** *** Exchanging blocks *)

Lemma swapfunc_run n : forall i j l,
  0 <= i -> 0 <= j -> i + Z.of_nat n <= j \/ j + Z.of_nat n <= i ->
  i + Z.of_nat n <= size l -> j + Z.of_nat n <= size l ->
  wp (swapfunc n i j l) s (post (fun l' =>
    (forall lo hi, lo <= i -> i + Z.of_nat n <= hi -> lo <= j -> j + Z.of_nat n <= hi -> shuffle lo hi l l') /\
    forall k, 0 <= k -> elem l' k =
      if decide (i <= k < i + Z.of_nat n) then elem l (k - i + j)
      else if decide (j <= k < j + Z.of_nat n) then elem l (k - j + i) else elem l k)).
Proof.
  induction n as [|n IH]; intros i j l Hi Hj Hd Hsi Hsj; simpl swapfunc.
  { split; [done|]. split; [done|]. intros k Hk. by rewrite !decide_False by lia. }
  apply wp_bind, wp_swap; [lia..|].
  eapply wp_mono; [|apply (IH (i + 1) (j + 1)); rewrite ?size_exch; lia].
  intros l' _ [-> [Hsh Hel]]. split; [done|]. split.
  - intros lo hi ????. etrans; [apply (shuffle_exch lo hi i j); lia|]. apply Hsh; lia.
  - intros k Hk. rewrite Hel by done.
    repeat case_decide; try lia; rewrite elem_exch by lia;
      repeat match goal with |- context [?x =? ?y] => destruct (Z.eqb_spec x y) end;
      try lia; f_equal; lia.
Qed.

Lemma vecswap_run i j n l :
  0 <= i -> 0 <= j -> i + n <= j -> j + n <= size l ->
  wp (vecswap i j n l) s (post (fun l' =>
    (forall lo hi, lo <= i -> j + n <= hi -> i <= hi -> lo <= j -> shuffle lo hi l l') /\
    forall k, 0 <= k -> elem l' k =
      if decide (i <= k < i + n) then elem l (k - i + j)
      else if decide (j <= k < j + n) then elem l (k - j + i) else elem l k)).
Proof.
  intros. unfold vecswap. destruct (Z.ltb_spec 0 n).
  - eapply wp_mono; [|apply swapfunc_run; lia]. intros l' _ [-> [Hsh Hel]].
    rewrite Z2Nat.id in * by lia. split; [done|]. split; [|done]. intros. apply Hsh; lia.
  - split; [done|]. split; [done|]. intros k Hk. by rewrite !decide_False by lia.
Qed.

(** *** Insertion sort *)

Lemma sift_shuffles fuel : forall a pl hi l,
  0 <= a <= pl -> pl < hi -> hi <= size l -> pl - a <= Z.of_nat fuel -> seg a hi ok l ->
  wp (sift cmp fuel a pl l) s (post (shuffle a hi l)).
Proof.
  induction fuel as [|fuel IH]; intros a pl hi l Ha Hp Hhi Hf Hok; simpl sift.
  { rewrite Z.gtb_ltb, (proj2 (Z.ltb_ge _ _)) by lia. by split. }
  rewrite Z.gtb_ltb. destruct (Z.ltb_spec a pl); [|by split].
  destruct (Hok (pl - 1)) as (x & Hx & Hox); [lia|]. destruct (Hok pl) as (y & Hy & Hoy); [lia|].
  apply wp_bind. eapply wp_cmp_at; [lia|lia|done..|].
  destruct (0 <? f x y); [|by split].
  apply wp_bind, wp_swap; [lia..|].
  assert (shuffle a hi l (exch pl (pl - 1) l)) by (apply shuffle_exch; lia).
  eapply wp_mono; [|apply (IH a (pl - 1) hi)]; [|rewrite ?size_exch; lia..|by apply seg_exch; (lia||done)].
  intros l' _ [-> Hl']. split; [done|]. by etrans.
Qed.

Lemma insertion_shuffles fuel : forall a n pm l,
  0 <= a -> a < pm -> a + n <= size l -> a + n - pm <= Z.of_nat fuel -> seg a (a + n) ok l ->
  wp (insertion cmp fuel a n pm l) s (post (shuffle a (a + n) l)).
Proof.
  induction fuel as [|fuel IH]; intros a n pm l Ha Hp Hn Hf Hok; simpl insertion.
  { rewrite (proj2 (Z.ltb_ge _ _)) by lia. by split. }
  destruct (Z.ltb_spec pm (a + n)); [|by split].
  apply wp_bind. eapply wp_mono; [|apply (sift_shuffles _ _ _ (a + n)); (lia || done)].
  intros l1 _ [-> Hl1].
  eapply wp_mono; [|apply IH]; try lia.
  - intros l2 _ [-> Hl2]. split; [done|]. by etrans.
  - erewrite shuffle_size by done. lia.
  - by eapply seg_shuffle.
Qed.

(** *** Partition *)

Lemma med3_run l a b c (lo hi : Z) :
  0 <= lo -> lo <= a < hi -> lo <= b < hi -> lo <= c < hi -> seg lo hi ok l ->
  exists m, lo <= m < hi /\ med3 cmp l a b c s = Ret m s.
Proof.
  intros Hlo Ha Hb Hc Hok.
  destruct (Hok a Ha) as (x & Hx & Hox), (Hok b Hb) as (y & Hy & Hoy), (Hok c Hc) as (z & Hz & Hoz).
  unfold med3.
  rewrite (bind_run _ _ _ _ _ (cmp_at_run l a b x y ltac:(lia) ltac:(lia) Hx Hy Hox Hoy)).
  rewrite (bind_run _ _ _ _ _ (cmp_at_run l b c y z ltac:(lia) ltac:(lia) Hy Hz Hoy Hoz)).
  pose proof (cmp_at_run l a c x z ltac:(lia) ltac:(lia) Hx Hz Hox Hoz) as Hac.
  destruct (f x y <? 0).
  - destruct (f y z <? 0); [by exists b|]. rewrite (bind_run _ _ _ _ _ Hac).
    eexists. split; [|done]. by destruct (_ <? _).
  - destruct (0 <? f y z); [by exists b|]. rewrite (bind_run _ _ _ _ _ Hac).
    eexists. split; [|done]. by destruct (_ <? _).
Qed.

Lemma choose_pivot_run a n l :
  0 <= a -> 7 <= n -> seg a (a + n) ok l ->
  exists m, a <= m < a + n /\ choose_pivot cmp a n l s = Ret m s.
Proof.
  intros Ha Hn Hok. unfold choose_pivot.
  assert (0 < n / 2 < n) by (split; [apply Z.div_str_pos; lia|apply Z.div_lt; lia]).
  destruct (Z.ltb_spec 7 n); [|exists (a + n / 2); split; [lia|done]].
  destruct (Z.ltb_spec 40 n).
  - pose proof (Z.div_mod n 8 ltac:(lia)). pose proof (Z.mod_pos_bound n 8 ltac:(lia)).
    pose proof (Z.div_mod n 2 ltac:(lia)). pose proof (Z.mod_pos_bound n 2 ltac:(lia)).
    destruct (med3_run l a (a + n / 8) (a + 2 * (n / 8)) a (a + n)) as (m1 & Hm1 & E1); try (lia || done).
    rewrite (bind_run _ _ _ _ _ E1).
    destruct (med3_run l (a + n / 2 - n / 8) (a + n / 2) (a + n / 2 + n / 8) a (a + n)) as (m2 & Hm2 & E2); try (lia || done).
    rewrite (bind_run _ _ _ _ _ E2).
    destruct (med3_run l (a + (n - 1) - 2 * (n / 8)) (a + (n - 1) - n / 8) (a + (n - 1)) a (a + n)) as (m3 & Hm3 & E3); try (lia || done).
    rewrite (bind_run _ _ _ _ _ E3).
    by apply (med3_run l m1 m2 m3 a (a + n)).
  - apply (med3_run l _ _ _ a (a + n)); (lia || done).
Qed.

(** What holds between the steps of the partition: the pivot [v] is at [a];
    from left to right come elements equal to it, below it, unread ones, above
    it, equal to it. *)
Record parted (a n : Z) (v : A) (l0 : list A) (p : part A) : Prop := {
  pt_a : 0 <= a; pt_n : a + n <= size l0;
  pt_pa : a < pa p <= pb p; pt_pb : pb p <= pc p + 1; pt_pc : pc p <= pd p < a + n;
  pt_pivot : elem (arr p) a = Some v;
  pt_eq1 : seg (a + 1) (pa p) (fun x => f x v = 0) (arr p);
  pt_lt : seg (pa p) (pb p) (fun x => f x v < 0) (arr p);
  pt_gt : seg (pc p + 1) (pd p + 1) (fun x => 0 < f x v) (arr p);
  pt_eq2 : seg (pd p + 1) (a + n) (fun x => f x v = 0) (arr p);
  pt_shuffle : shuffle a (a + n) l0 (arr p);
  pt_ok : seg a (a + n) ok (arr p) }.

Lemma parted_size a n v l0 p : parted a n v l0 p -> size (arr p) = size l0.
Proof. intros H. by eapply shuffle_size, pt_shuffle. Qed.

(** Looks an index up in the array after an exchange. *)
Ltac exch_cases :=
  unfold seg in *;
  let k := fresh "k" in let Hk := fresh in
  intros k Hk; rewrite elem_exch by lia;
  repeat match goal with |- context [?x =? ?y] => destruct (Z.eqb_spec x y) end;
  subst; first
    [ lia
    | match goal with H : elem _ ?i = Some ?x |- exists _, elem _ ?j = _ /\ _ =>
        replace j with i by lia; exists x; split; [assumption|lia] end
    | match goal with H : forall k, _ -> exists x, elem _ k = Some x /\ _ |- _ => apply H; lia end ].

(** An element found equal to the pivot moves to the outer range. *)
Lemma parted_up_eq a n v l0 p x c :
  parted a n v l0 p -> pb p <= pc p -> elem (arr p) (pb p) = Some x -> f x v = 0 ->
  parted a n v l0 (Part (pa p + 1) (pb p + 1) (pc p) (pd p) c (exch (pa p) (pb p) (arr p))).
Proof.
  intros H Hle Hx Hf. pose proof (parted_size _ _ _ _ _ H) as Hs. destruct p; simpl in *.
  destruct H as [Ha Hn Hpa Hpb Hpc Hv He1 Hlt Hgt He2 Hsh Hok]; simpl in *.
  split; simpl; try lia.
  - rewrite elem_exch by lia. by rewrite !(proj2 (Z.eqb_neq _ _)) by lia.
  - exch_cases.
  - exch_cases.
  - exch_cases.
  - exch_cases.
  - etrans; [done|]. apply shuffle_exch; lia.
  - apply seg_exch; (lia || done).
Qed.
Lemma parted_down_eq a n v l0 p x c :
  parted a n v l0 p -> pb p <= pc p -> elem (arr p) (pc p) = Some x -> f x v = 0 ->
  parted a n v l0 (Part (pa p) (pb p) (pc p - 1) (pd p - 1) c (exch (pc p) (pd p) (arr p))).
Proof.
  intros H Hle Hx Hf. pose proof (parted_size _ _ _ _ _ H) as Hs. destruct p; simpl in *.
  destruct H as [Ha Hn Hpa Hpb Hpc Hv He1 Hlt Hgt He2 Hsh Hok]; simpl in *.
  split; simpl; try lia.
  - rewrite elem_exch by lia. by rewrite !(proj2 (Z.eqb_neq _ _)) by lia.
  - exch_cases.
  - exch_cases.
  - exch_cases.
  - exch_cases.
  - etrans; [done|]. apply shuffle_exch; lia.
  - apply seg_exch; (lia || done).
Qed.
(** Two elements on the wrong sides are exchanged. *)
Lemma parted_swap a n v l0 p x y c :
  parted a n v l0 p -> pb p <= pc p ->
  elem (arr p) (pb p) = Some x -> 0 < f x v -> elem (arr p) (pc p) = Some y -> f y v < 0 ->
  parted a n v l0 (Part (pa p) (pb p + 1) (pc p - 1) (pd p) c (exch (pb p) (pc p) (arr p))).
Proof.
  intros H Hle Hx Hfx Hy Hfy. pose proof (parted_size _ _ _ _ _ H) as Hs.
  destruct p as [pa1 pb1 pc1 pd1 sc ar]; simpl in *.
  assert (pb1 <> pc1) by (intros ->; simplify_eq; lia).
  destruct H as [Ha Hn Hpa Hpb Hpc Hv He1 Hlt Hgt He2 Hsh Hok]; simpl in *.
  split; simpl; try lia.
  - rewrite elem_exch by lia. by rewrite !(proj2 (Z.eqb_neq _ _)) by lia.
  - exch_cases.
  - exch_cases.
  - exch_cases.
  - exch_cases.
  - etrans; [done|]. apply shuffle_exch; lia.
  - apply seg_exch; (lia || done).
Qed.
(** An element on its right side stays where it is. *)
Lemma parted_up_lt a n v l0 p x c :
  parted a n v l0 p -> pb p <= pc p -> elem (arr p) (pb p) = Some x -> f x v < 0 ->
  parted a n v l0 (Part (pa p) (pb p + 1) (pc p) (pd p) c (arr p)).
Proof.
  intros [Ha Hn Hpa Hpb Hpc Hv He1 Hlt Hgt He2 Hsh Hok] Hle Hx Hf. split; simpl; try (lia || done).
  intros k Hk. destruct (Z.eq_dec k (pb p)) as [->|]; [by exists x|]. apply Hlt. lia.
Qed.
Lemma parted_down_gt a n v l0 p x c :
  parted a n v l0 p -> pb p <= pc p -> elem (arr p) (pc p) = Some x -> 0 < f x v ->
  parted a n v l0 (Part (pa p) (pb p) (pc p - 1) (pd p) c (arr p)).
Proof.
  intros [Ha Hn Hpa Hpb Hpc Hv He1 Hlt Hgt He2 Hsh Hok] Hle Hx Hf. split; simpl; try (lia || done).
  intros k Hk. destruct (Z.eq_dec k (pc p)) as [->|]; [by exists x|]. apply Hgt. lia.
Qed.

Section scans.
Variables (a n : Z) (v : A) (l0 : list A).
Abbreviation parted := (parted a n v l0).

(** [*pc] is below the pivot, unless the two pointers have met. *)
Definition stopped (i : Z) (Q : Z -> Prop) (p : part A) : Prop :=
  pb p <= pc p -> exists x, elem (arr p) i = Some x /\ Q (f x v).

(** The comparison of an element with the pivot. *)
Lemma pivot_cmp p i :
  parted p -> a <= i < a + n ->
  exists x, elem (arr p) i = Some x /\ cmp_at cmp (arr p) i a s = Ret (f x v) s.
Proof.
  intros H Hi. destruct (pt_ok _ _ _ _ _ H i Hi) as (x & Hx & Hox). exists x. split; [done|].
  pose proof (pt_pa _ _ _ _ _ H). pose proof (pt_pb _ _ _ _ _ H). pose proof (pt_pc _ _ _ _ _ H).
  pose proof (pt_a _ _ _ _ _ H). pose proof (pt_pivot _ _ _ _ _ H) as Hv.
  apply cmp_at_run; try (lia || done).
  eapply seg_elem; [by eapply pt_ok| |done]. lia.
Qed.

Lemma scan_up_run fuel : forall p,
  parted p -> pc p - pb p < Z.of_nat fuel ->
  wp (scan_up cmp fuel a p) s (fun p' s' => s' = s /\ parted p' /\ pb p <= pb p' /\
    pc p' = pc p /\ stopped (pb p') (fun r => 0 < r) p').
Proof.
  induction fuel as [|fuel IH]; intros p H Hf; simpl scan_up.
  { rewrite (proj2 (Z.leb_gt _ _)) by lia. split_and!; (done || unfold stopped; lia). }
  destruct (Z.leb_spec (pb p) (pc p)); [|split_and!; (done || unfold stopped; lia)].
  pose proof (pt_pa _ _ _ _ _ H). pose proof (pt_pc _ _ _ _ _ H). pose proof (pt_a _ _ _ _ _ H).
  pose proof (pt_n _ _ _ _ _ H). pose proof (parted_size _ _ _ _ _ H).
  destruct (pivot_cmp p (pb p) H) as (x & Hx & E); [lia|].
  apply wp_bind. eapply wp_intro; [exact E|].
  destruct (Z.leb_spec (f x v) 0); [|split_and!; (done || lia || (intros _; exists x; split; [done|lia]))].
  apply wp_bind.
  apply (wp_mono _ _ (fun p' s' => s' = s /\ pb p' = pb p /\ pc p' = pc p /\
    parted (Part (pa p') (pb p' + 1) (pc p') (pd p') (swap_cnt p') (arr p')))).
  - intros p' _ (-> & Hb & Hc & Hp').
    eapply wp_mono; [|apply IH; [exact Hp'|simpl; lia]]. simpl.
    intros p'' _ (-> & Hp'' & ? & ? & ?). split_and!; (done || lia).
  - destruct (Z.eqb_spec (f x v) 0).
    + apply wp_bind, wp_swap; [lia..|]. split_and!; [done..|]. simpl. by eapply parted_up_eq.
    + split_and!; [done..|]. eapply parted_up_lt; (done || lia).
Qed.

(** While the right pointer comes down, the element the left one stopped at
    stays. *)
Lemma scan_down_run fuel : forall p,
  parted p -> pc p - pb p < Z.of_nat fuel -> stopped (pb p) (fun r => 0 < r) p ->
  wp (scan_down cmp fuel a p) s (fun p' s' => s' = s /\ parted p' /\ pb p' = pb p /\
    pc p' <= pc p /\ stopped (pb p') (fun r => 0 < r) p' /\ stopped (pc p') (fun r => r < 0) p').
Proof.
  induction fuel as [|fuel IH]; intros p H Hf Hst; simpl scan_down.
  { rewrite (proj2 (Z.leb_gt _ _)) by lia. split_and!; (done || unfold stopped; lia). }
  destruct (Z.leb_spec (pb p) (pc p)) as [Hle|]; [|split_and!; (done || unfold stopped; lia)].
  pose proof (pt_pa _ _ _ _ _ H). pose proof (pt_pc _ _ _ _ _ H). pose proof (pt_a _ _ _ _ _ H).
  pose proof (pt_n _ _ _ _ _ H). pose proof (parted_size _ _ _ _ _ H).
  destruct (pivot_cmp p (pc p) H) as (x & Hx & E); [lia|].
  destruct (Hst Hle) as (y & Hy & Hfy).
  apply wp_bind. eapply wp_intro; [exact E|].
  destruct (Z.leb_spec 0 (f x v)); [|split_and!; (done || lia || (intros _; exists x; split; [done|lia]))].
  apply wp_bind.
  apply (wp_mono _ _ (fun p' s' => s' = s /\ pb p' = pb p /\ pc p' = pc p /\
    parted (Part (pa p') (pb p') (pc p' - 1) (pd p') (swap_cnt p') (arr p')) /\
    (pb p < pc p -> elem (arr p') (pb p) = Some y))).
  - intros p' _ (-> & Hb & Hc & Hp' & Hy').
    eapply wp_mono; [|apply IH; [exact Hp'|simpl; lia|]]; simpl.
    + intros p'' _ (-> & Hp'' & ? & ? & ? & ?). split_and!; (done || lia).
    + unfold stopped. simpl. rewrite Hb, Hc. intros ?. exists y. split; [apply Hy'; lia|done].
  - destruct (Z.eqb_spec (f x v) 0).
    + apply wp_bind, wp_swap; [lia..|]. split_and!; [done..|simpl; by eapply parted_down_eq|]. simpl.
      intros ?. rewrite elem_exch by lia. by rewrite !(proj2 (Z.eqb_neq _ _)) by lia.
    + split_and!; [done..| |done]. eapply parted_down_gt; (done || lia).
Qed.

Lemma partition_run fuel : forall p,
  parted p -> pc p - pb p + 1 < Z.of_nat fuel ->
  wp (partition cmp fuel a p) s (fun p' s' => s' = s /\ parted p' /\ pb p' = pc p' + 1).
Proof.
  induction fuel as [|fuel IH]; intros p H Hf; [pose proof (pt_pb _ _ _ _ _ H); lia|].
  cbn [partition]. apply wp_bind.
  eapply wp_mono; [|apply scan_up_run; [exact H|lia]]. intros p1 _ (-> & Hp1 & ? & ? & Hst1).
  apply wp_bind.
  eapply wp_mono; [|apply scan_down_run; [exact Hp1|lia|done]].
  intros p2 _ (-> & Hp2 & Hb & Hc & Hst2 & Hst2').
  rewrite Z.gtb_ltb. destruct (Z.ltb_spec (pc p2) (pb p2)) as [|Hle].
  { split_and!; [done..|]. pose proof (pt_pb _ _ _ _ _ Hp2). lia. }
  pose proof (pt_pa _ _ _ _ _ Hp2). pose proof (pt_pc _ _ _ _ _ Hp2). pose proof (pt_a _ _ _ _ _ Hp2).
  pose proof (pt_n _ _ _ _ _ Hp2). pose proof (parted_size _ _ _ _ _ Hp2).
  destruct (Hst2 Hle) as (x & Hx & Hfx), (Hst2' Hle) as (y & Hy & Hfy).
  apply wp_bind, wp_swap; [lia..|]. apply IH; [by eapply parted_swap|]. simpl. lia.
Qed.
End scans.

(** The two exchanges of blocks after the partition bring the elements equal to
    the pivot into the middle. *)
Lemma gather_run a n v l0 p :
  parted a n v l0 p -> pb p = pc p + 1 ->
  let nl := pb p - pa p in let ng := pd p - pc p in let pn := a + n in
  wp (l <- vecswap a (pb p - Z.min (pa p - a) (pb p - pa p)) (Z.min (pa p - a) (pb p - pa p)) (arr p);;
      vecswap (pb p) (pn - Z.min (pd p - pc p) (pn - pd p - 1)) (Z.min (pd p - pc p) (pn - pd p - 1)) l) s
    (post (fun l => shuffle a pn l0 l /\
      seg a (a + nl) (fun x => f x v < 0) l /\
      seg (a + nl) (pn - ng) (fun x => x = v \/ f x v = 0) l /\
      seg (pn - ng) pn (fun x => 0 < f x v) l)).
Proof.
  intros H Hmeet. pose proof (parted_size _ _ _ _ _ H) as Hs. destruct p as [pa1 pb1 pc1 pd1 sc ar].
  destruct H as [Ha Hn Hpa Hpb Hpc Hv He1 Hlt Hgt He2 Hsh Hok]. cbn in *. subst pb1.
  apply wp_bind. eapply wp_mono; [|apply vecswap_run; lia]. intros l1 _ [-> [Hsh1 Hel1]].
  assert (size l1 = size ar) as Hs1 by (eapply shuffle_size, (Hsh1 a (a + n)); lia).
  eapply wp_mono; [|apply vecswap_run; lia]. intros l2 _ [-> [Hsh2 Hel2]].
  split; [done|]. split_and!.
  - etrans; [done|]. etrans; [apply Hsh1; lia|]. apply Hsh2; lia.
  - intros k Hk. rewrite Hel2, !decide_False, Hel1 by lia.
    repeat case_decide; first [lia | apply Hlt; lia].
  - assert (seg a (pa1) (fun x => x = v \/ f x v = 0) ar) as He1'.
    { intros k Hk. destruct (Z.eq_dec k a) as [->|]; [eauto|].
      destruct (He1 k) as (x & ? & ?); [lia|eauto]. }
    apply (seg_impl _ _ _ (fun x => x = v \/ f x v = 0)) in He2; [|by right].
    intros k Hk. rewrite Hel2 by lia.
    repeat case_decide; try lia; rewrite Hel1 by lia; repeat case_decide;
      first [lia | apply He1'; lia | apply He2; lia
            | destruct (Z_lt_le_dec k (pc1 + 1)); [apply He1'; lia|apply He2; lia]].
  - intros k Hk. rewrite Hel2 by lia.
    repeat case_decide; try lia; rewrite Hel1, !decide_False by lia; apply Hgt; lia.
Qed.

(** ** Sorting with an order *)

(** The comparison is a total preorder on the elements, in the form of the sign
    convention of C. *)
Class CmpOrder : Prop := {
  cmp_trans x y z : ok x -> ok y -> ok z -> f x y <= 0 -> f y z <= 0 -> f x z <= 0;
  cmp_sign x y : ok x -> ok y -> f x y < 0 <-> 0 < f y x }.

Definition cmp_le (x y : A) : Prop := f x y <= 0.

Section order.
Context {ord : CmpOrder}.

Lemma cmp_refl x : ok x -> f x x = 0.
Proof. intros H. pose proof (cmp_sign x x H H). lia. Qed.
Lemma cmp_ge x y : ok x -> ok y -> 0 <= f x y <-> f y x <= 0.
Proof. intros Hx Hy. pose proof (cmp_sign x y Hx Hy). lia. Qed.

(** Everything up to [hi] but the element at [pl] is sorted, and that one is not
    above its successors. *)
Definition sorted_but (pl a hi : Z) (l : list A) : Prop :=
  forall i j x y, a <= i -> i < j -> j < hi -> j <> pl -> elem l i = Some x -> elem l j = Some y ->
  f x y <= 0.

Lemma sift_sorts fuel : forall a pl hi l,
  0 <= a <= pl -> pl < hi -> hi <= size l -> pl - a <= Z.of_nat fuel -> seg a hi ok l ->
  sorted_but pl a hi l ->
  wp (sift cmp fuel a pl l) s (post (sorted_in cmp_le a hi)).
Proof.
  induction fuel as [|fuel IH]; intros a pl hi l Ha Hp Hhi Hf Hok Hsrt; simpl sift.
  { rewrite Z.gtb_ltb, (proj2 (Z.ltb_ge _ _)) by lia. split; [done|].
    intros i j x y ???. apply Hsrt; lia. }
  rewrite Z.gtb_ltb. destruct (Z.ltb_spec a pl).
  2:{ split; [done|]. intros i j x y ???. apply Hsrt; lia. }
  destruct (Hok (pl - 1)) as (x & Hx & Hox); [lia|]. destruct (Hok pl) as (y & Hy & Hoy); [lia|].
  apply wp_bind. eapply wp_cmp_at; [lia|lia|done..|].
  destruct (Z.ltb_spec 0 (f x y)) as [Hxy|Hxy].
  - apply wp_bind, wp_swap; [lia..|].
    apply IH; rewrite ?size_exch; try lia; [by apply seg_exch; (lia||done)|].
    intros i j x' y' ????. rewrite !elem_exch by lia.
    repeat match goal with |- context [?x =? ?y] => destruct (Z.eqb_spec x y) end;
      try lia; subst; intros Hx' Hy'; simplify_eq.
    + apply cmp_ge; (done || lia).
    + by apply (Hsrt pl j); (lia || done).
    + by apply (Hsrt (pl - 1) j); (lia || done).
    + by apply (Hsrt i (pl - 1)); (lia || done).
    + by apply (Hsrt i j); (lia || done).
  - split; [done|]. intros i j x' y' ??? Hx' Hy'.
    destruct (Z.eq_dec j pl) as [->|]; [|by apply (Hsrt i j)]. simplify_eq.
    destruct (Z.eq_dec i (pl - 1)) as [->|]; [by simplify_eq|].
    apply (cmp_trans x' x y); try done.
    + eapply seg_elem; [exact Hok| |done]. lia.
    + apply (Hsrt i (pl - 1)); (lia || done).
Qed.

Lemma insertion_sorts fuel : forall a n pm l,
  0 <= a -> a < pm -> a + n <= size l -> a + n - pm <= Z.of_nat fuel -> seg a (a + n) ok l ->
  sorted_in cmp_le a (Z.min pm (a + n)) l ->
  wp (insertion cmp fuel a n pm l) s (post (sorted_in cmp_le a (a + n))).
Proof.
  induction fuel as [|fuel IH]; intros a n pm l Ha Hp Hn Hf Hok Hs; simpl insertion.
  { rewrite (proj2 (Z.ltb_ge _ _)) by lia. rewrite Z.min_r in Hs by lia. by split. }
  destruct (Z.ltb_spec pm (a + n)); [|rewrite Z.min_r in Hs by lia; by split].
  rewrite Z.min_l in Hs by lia.
  apply wp_bind. eapply wp_mono; [|apply wp_and;
    [apply (sift_shuffles _ a pm (a + n)); (lia || done)|apply (sift_sorts _ a pm (pm + 1))]]; try lia.
  - intros l1 _ [[-> Hl1] [_ Hs1]]. apply IH; try lia.
    + erewrite shuffle_size by done. lia.
    + by eapply seg_shuffle.
    + by rewrite Z.min_l by lia.
  - eapply seg_sub; [| |exact Hok]; lia.
  - intros i j x y ????. apply Hs; lia.
Qed.
End order.

(** ** The whole routine *)

(** What sorting [n] elements from [a] on makes of the array. *)
Definition qsorted (a n : Z) (l l' : list A) : Prop :=
  shuffle a (a + n) l l' /\ (CmpOrder -> sorted_in cmp_le a (a + n) l').

Lemma insertion_sort_run a n l :
  0 <= a -> a + n <= size l -> seg a (a + n) ok l ->
  wp (insertion_sort cmp a n l) s (post (qsorted a n l)).
Proof.
  intros Ha Hn Hok. unfold insertion_sort.
  pose proof (insertion_shuffles (Z.to_nat n) a n (a + 1) l ltac:(lia) ltac:(lia) Hn ltac:(lia) Hok) as H1.
  destruct (wp_elim _ _ _ H1) as (l' & s' & E & -> & Hsh). eapply wp_intro; [exact E|].
  split; [done|]. split; [done|]. intros Hord.
  assert (H2 : wp (insertion cmp (Z.to_nat n) a n (a + 1) l) s (post (sorted_in cmp_le a (a + n)))).
  { apply insertion_sorts; try (lia || done). apply sorted_in_short. lia. }
  destruct (wp_elim _ _ _ H2) as (l2 & s2 & E2 & -> & Hso). rewrite E in E2. by simplify_eq.
Qed.

Lemma sorted_in_seg (R : A -> A -> Prop) lo hi P l :
  (forall x y, P x -> P y -> R x y) -> seg lo hi P l -> sorted_in R lo hi l.
Proof.
  intros HR H i j x y ??? Hx Hy. apply HR; eapply seg_elem; try done; lia.
Qed.

(** Sorting the outer parts of a gathered array sorts the array. *)
Lemma qsorted_glue a n nl ng v l l1 l2 :
  0 <= a -> a + n <= size l -> 0 <= nl -> 0 <= ng -> nl + ng <= n -> ok v -> seg a (a + n) ok l ->
  seg a (a + nl) (fun x => f x v < 0) l ->
  seg (a + nl) (a + n - ng) (fun x => x = v \/ f x v = 0) l ->
  seg (a + n - ng) (a + n) (fun x => 0 < f x v) l ->
  qsorted a nl l l1 -> qsorted (a + n - ng) ng l1 l2 -> qsorted a n l l2.
Proof.
  intros Ha Hn Hnl Hng Hsum Hv Hok Hlt Heq Hgt [Hsh1 Hso1] [Hsh2 Hso2].
  assert (Hsz : size l1 = size l) by (by eapply shuffle_size).
  replace (a + n - ng + ng) with (a + n) in * by lia.
  assert (Hsh : shuffle a (a + n) l l2).
  { etrans; [eapply shuffle_mono; [| |exact Hsh1]|eapply shuffle_mono; [| |exact Hsh2]]; lia. }
  split; [exact Hsh|].
  intros Hord. specialize (Hso1 Hord). specialize (Hso2 Hord).
  assert (Hok2 : seg a (a + n) ok l2) by (by eapply seg_shuffle).
  apply (seg_shuffle _ _ _ l l1) in Hlt; [|lia|lia|done].
  apply (seg_outside a (a + nl) _ _ _ l l1) in Heq; [|lia|lia|lia|lia|done].
  apply (seg_outside a (a + nl) _ _ _ l l1) in Hgt; [|lia|lia|lia|lia|done].
  apply (seg_outside (a + n - ng) (a + n) _ _ _ l1 l2) in Hlt; [|lia|lia|lia|lia|done].
  apply (seg_outside (a + n - ng) (a + n) _ _ _ l1 l2) in Heq; [|lia|lia|lia|lia|done].
  apply (seg_shuffle _ _ _ l1 l2) in Hgt; [|lia|lia|done].
  apply (sorted_in_outside _ (a + n - ng) (a + n) _ _ l1 l2) in Hso1; [|lia|lia|lia|lia|done].
  assert (Hpiv : forall x, ok x -> x = v \/ f x v = 0 -> f x v <= 0 /\ f v x <= 0).
  { intros x Hx [->|Hf]; [by rewrite cmp_refl|]. split; [lia|]. apply cmp_ge; (done || lia). }
  pose proof (seg_and a (a + nl) ok _ _ ltac:(eapply seg_sub; [| |exact Hok2]; lia) Hlt) as Hlt'.
  pose proof (seg_and (a + nl) (a + n - ng) ok _ _ ltac:(eapply seg_sub; [| |exact Hok2]; lia) Heq) as Heq'.
  pose proof (seg_and (a + n - ng) (a + n) ok _ _ ltac:(eapply seg_sub; [| |exact Hok2]; lia) Hgt) as Hgt'.
  apply (sorted_in_app _ (a + nl) _ _ (fun x => ok x /\ f x v <= 0) (fun x => ok x /\ f v x <= 0)).
  - intros x y [??] [??]. by apply (cmp_trans x v y).
  - eapply seg_impl; [|exact Hlt']. intros x [??]. split; [done|lia].
  - intros k Hk. destruct (Z_lt_le_dec k (a + n - ng)).
    + destruct (Heq' k) as (x & Hx & Hox & Hd); [lia|]. exists x. split_and!; [done..|]. by apply Hpiv.
    + destruct (Hgt' k) as (x & Hx & Hox & Hd); [lia|]. exists x. split_and!; [done..|]. apply cmp_ge; (done || lia).
  - done.
  - apply (sorted_in_app _ (a + n - ng) _ _ (fun x => ok x /\ f x v <= 0) (fun x => ok x /\ f v x <= 0)).
    + intros x y [??] [??]. by apply (cmp_trans x v y).
    + eapply seg_impl; [|exact Heq']. intros x [? Hd]. split; [done|]. by apply Hpiv.
    + eapply seg_impl; [|exact Hgt']. intros x [??]. split; [done|]. apply cmp_ge; (done || lia).
    + eapply sorted_in_seg; [|exact Heq']. intros x y [Hx Hdx] [Hy Hdy].
      apply (cmp_trans x v y); try done; by apply Hpiv.
    + done.
Qed.

Lemma qsorted_shuffle a n l0 l l' :
  shuffle a (a + n) l0 l -> qsorted a n l l' -> qsorted a n l0 l'.
Proof. intros H [? ?]. split; [by etrans|done]. Qed.

(** The branch of [loop:] after the partition. *)
Lemma qsort_parts_run fuel a n v l0 p :
  (forall a n l, 0 <= a -> a + n <= size l -> 0 <= n < Z.of_nat fuel -> seg a (a + n) ok l ->
    wp (qsort_loop cmp fuel a n l) s (post (qsorted a n l))) ->
  n <= Z.of_nat fuel -> seg a (a + n) ok l0 -> parted a n v l0 p -> pb p = pc p + 1 ->
  let pn := a + n in
  wp (l <- vecswap a (pb p - Z.min (pa p - a) (pb p - pa p)) (Z.min (pa p - a) (pb p - pa p)) (arr p);;
      l <- vecswap (pb p) (pn - Z.min (pd p - pc p) (pn - pd p - 1)) (Z.min (pd p - pc p) (pn - pd p - 1)) l;;
      l <- (if 1 <? pb p - pa p then qsort_loop cmp fuel a (pb p - pa p) l else ret l);;
      if 1 <? pd p - pc p then qsort_loop cmp fuel (pn - (pd p - pc p)) (pd p - pc p) l else ret l) s
    (post (qsorted a n l0)).
Proof.
  intros IH Hf Hok H Hmeet pn. pose proof (gather_run _ _ _ _ _ H Hmeet) as Hg.
  apply wp_elim in Hg as (l & s' & E & -> & Hsh & Hlt & Heq & Hgt).
  apply wp_assoc, wp_bind. eapply wp_intro; [exact E|].
  assert (Hsz : size l = size l0) by (by eapply shuffle_size).
  destruct H as [Ha Hn Hpa Hpb Hpc Hv _ _ _ _ _ Hokp].
  assert (Hov : ok v) by (eapply seg_elem; [exact Hokp| |exact Hv]; lia).
  set (nl := pb p - pa p) in *. set (ng := pd p - pc p) in *.
  assert (sub : forall a' m l', a <= a' -> a' + m <= a + n -> 0 <= m < n -> size l' = size l0 -> seg a (a + n) ok l' ->
    wp (if 1 <? m then qsort_loop cmp fuel a' m l' else ret l') s (post (qsorted a' m l'))).
  { intros a' m l' ??? Hs Hok'. destruct (Z.ltb_spec 1 m).
    - apply IH; try lia. eapply seg_sub; [| |exact Hok']; lia.
    - split; [done|]. split; [done|]. intros _. apply sorted_in_short. lia. }
  assert (Hok0 : seg a (a + n) ok l) by (eapply seg_shuffle; [| |exact Hsh|exact Hok]; lia).
  apply wp_bind. eapply wp_mono; [|apply sub; unfold nl; (lia || done)].
  intros l1 _ [-> Hq1]. pose proof (shuffle_size _ _ _ _ (proj1 Hq1)).
  eapply wp_mono; [|apply sub; unfold ng, pn; try lia].
  - intros l2 _ [-> Hq2]. split; [done|]. eapply qsorted_shuffle; [exact Hsh|].
    eapply (qsorted_glue a n nl ng v l l1 l2); unfold nl, ng; (lia || done).
  - eapply (seg_shuffle a (a + n) ok l); [lia|lia| |exact Hok0].
    eapply shuffle_mono; [| |exact (proj1 Hq1)]; unfold nl; lia.
Qed.

Lemma qsort_loop_run fuel : forall a n l,
  0 <= a -> a + n <= size l -> 0 <= n < Z.of_nat fuel -> seg a (a + n) ok l ->
  wp (qsort_loop cmp fuel a n l) s (post (qsorted a n l)).
Proof.
  induction fuel as [|fuel IH]; intros a n l Ha Hn Hf Hok; [lia|].
  cbn [qsort_loop]. destruct (Z.ltb_spec n 7); [by apply insertion_sort_run|].
  destruct (choose_pivot_run a n l) as (m & Hm & E); [lia..|done|].
  apply wp_bind. eapply wp_intro; [exact E|].
  apply wp_bind, wp_swap; [lia..|].
  set (l0 := exch a m l).
  assert (Hsh : shuffle a (a + n) l l0) by (apply shuffle_exch; lia).
  assert (Hok0 : seg a (a + n) ok l0) by (apply seg_exch; (lia || done)).
  assert (Hs0 : size l0 = size l) by apply size_exch.
  destruct (elem_Some l0 a) as [v Hv]; [lia|].
  apply wp_bind. eapply wp_mono; [|apply (partition_run a n v l0 (Z.to_nat n))].
  - intros p _ (-> & Hp & Hmeet).
    pose proof (parted_size _ _ _ _ _ Hp).
    eapply (wp_mono _ _ (post (qsorted a n l0))).
    { intros l' _ [-> Hq]. split; [done|]. by eapply qsorted_shuffle. }
    destruct (swap_cnt p); cbn [negb].
    + apply (qsort_parts_run fuel a n v l0 p); (done || lia).
    + eapply wp_mono; [|apply insertion_sort_run; [lia|lia|by eapply pt_ok]].
      intros l' _ [-> Hq]. split; [done|]. eapply qsorted_shuffle; [|exact Hq]. by eapply pt_shuffle.
  - split; simpl; try (lia || done); intros k Hk; lia.
  - simpl. lia.
Qed.

Lemma qsort_run a n l :
  0 <= a -> 0 <= n -> a + n <= size l -> seg a (a + n) ok l ->
  wp (qsort cmp a n l) s (post (qsorted a n l)).
Proof. intros. apply qsort_loop_run; (lia || done). Qed.
End any.

(** C36: sorting an array returns on every array and with every comparison that
    returns on the elements: it never indexes outside of the array, gives a
    permutation of it, and, when the comparison is an order on the elements, an
    ascending one. *)
Theorem qsort_sorts {A S} (cmp : A -> A -> M S Z) (f : A -> A -> Z) (ok : A -> Prop) (s : S) l :
  (forall x y, ok x -> ok y -> cmp x y s = Ret (f x y) s) -> Forall ok l ->
  exists l', qsort cmp 0 (size l) l s = Ret l' s /\ l' ≡ₚ l /\
    (CmpOrder f ok -> StronglySorted (fun x y => f x y <= 0) l').
Proof.
  intros Hcmp Hok.
  pose proof (qsort_run cmp f ok s Hcmp 0 (size l) l) as H.
  destruct (wp_elim _ _ _ (H ltac:(lia) ltac:(unfold size; lia) ltac:(lia) (seg_Forall _ _ Hok)))
    as (l' & s' & E & -> & Hsh & Hso).
  exists l'. split_and!; [done|by eapply shuffle_perm|]. intros Hord.
  apply sorted_in_all. erewrite shuffle_size by done. by apply Hso.
Qed.

Lemma cmp_sub_order : CmpOrder (fun x y => x - y) (fun _ : Z => True).
Proof. split; intros; lia. Qed.

(** Ten numbers in descending order. *)
Lemma qsort_sorts_witness :
  exists l', qsort (fun x y => ret (x - y)) 0 10 [9; 8; 7; 6; 5; 4; 3; 2; 1; 0] tt = Ret l' tt /\
    l' = [0; 1; 2; 3; 4; 5; 6; 7; 8; 9] /\ StronglySorted (fun x y => x - y <= 0) l'.
Proof.
  destruct (qsort_sorts (fun x y => ret (x - y)) (fun x y => x - y) (fun _ => True) tt
    [9; 8; 7; 6; 5; 4; 3; 2; 1; 0]) as (l' & E & _ & Hs); [done|by apply Forall_true|].
  exists l'. split_and!; [exact E| |by apply Hs, cmp_sub_order].
  vm_compute in E. by injection E as <-.
Defined.
