(* ===== verification/MemMap.v ===== *)
(** * Laying out the memory map (core/arch/arm/mm/core_mmu.c)

    [init_mem_map] turns the registered physical areas into the static memory
    map: it collects the areas, chooses the size of the mapping units, gives
    every entry a virtual address, and sorts the entries by it.  The entries
    are a local list here, which is stored once at the end: nothing else reads
    the map in between.  The sections of the linker ([phys_mem_map_section],
    [phys_nsec_ddr_section]) are arguments; [imx6_areas] is what the files of
    the i.MX6 platform register.

    [init_mem_map_lays_out] is the correctness of the layout; what it shows of
    the map is what the translation of addresses in [CoreMmu] relies on. *)

From stdpp Require Import prelude list.
From Stdlib Require Import ZArith Lia Sorting.Sorted.
From S2P Require Import Prelude Platform State TeeMisc MmuDesc CoreMmu Qsort.
#[local] Open Scope Z_scope.
#[local] Open Scope kernel_scope.

Definition CFG_TEE_RAM_VA_SIZE : Z := 8 * 1024 * 1024.
Definition RES_VASPACE_SIZE : Z := CORE_MMU_PGDIR_SIZE * 10.
Definition CORE_MMU_DEVICE_SIZE : Z := 0x100000.
Definition PL310_BASE : Z := 0x00A02000.

(** The areas registered by core_mmu.c, plat-imx/main.c and imx_pl310.c. *)
Definition imx6_areas : list core_mmu_phys_mem :=
  [CoreMmuPhysMem MEM_AREA_TEE_RAM CFG_TEE_RAM_START CFG_TEE_RAM_PH_SIZE;
   CoreMmuPhysMem MEM_AREA_TA_RAM CFG_TA_RAM_START CFG_TA_RAM_SIZE;
   CoreMmuPhysMem MEM_AREA_NSEC_SHM CFG_SHMEM_START CFG_SHMEM_SIZE;
   CoreMmuPhysMem MEM_AREA_RAM_NSEC CFG_NSECMEM_START CFG_NSECMEM_SIZE;
   CoreMmuPhysMem MEM_AREA_IO_SEC PL310_BASE CORE_MMU_DEVICE_SIZE;
   CoreMmuPhysMem MEM_AREA_IO_SEC 0x00100000 0x03300000;
   CoreMmuPhysMem MEM_AREA_IO_SEC CFG_FBMEM_START CFG_FBMEM_SIZE].

(** ** Definitions *)

Section defs.
Context {P : Type} {plat : Platform P} {cfg : Config} {lay : Layout}.
Abbreviation K := (M (kernel P)).

(** [core_mmu_type_to_attr], with its panic. *)
Definition type_to_attr (t : teecore_memtypes) : K Z :=
  match core_mmu_type_to_attr t with Some a => ret a | None => panic end.
Definition entry_is_secure (m : tee_mmap_region) : K bool :=
  match map_is_secure m with Some b => ret b | None => panic end.

(** The comparisons.  A difference of two [size_t] is converted to [int]. *)
Definition cmp_mmap_by_lower_va (a b : tee_mmap_region) : K Z := ret (i32 (mm_va a - mm_va b)).
Definition cmp_mmap_by_secure_attr (a b : tee_mmap_region) : K Z :=
  aa <- type_to_attr (mm_type a);;
  if aa =? 0 then ret 0
  else
    ab <- type_to_attr (mm_type b);;
    if ab =? 0 then ret 0
    else
      sb <- entry_is_secure b;;
      sa <- entry_is_secure a;;
      ret (Z.b2z sb - Z.b2z sa).
Definition cmp_mmap_by_bigger_region_size (a b : tee_mmap_region) : K Z :=
  ret (i32 (mm_region_size b - mm_region_size a)).

(** Devices are mapped in units of directories. *)
Definition round_area (mem : core_mmu_phys_mem) : core_mmu_phys_mem :=
  match pm_type mem with
  | MEM_AREA_IO_NSEC | MEM_AREA_IO_SEC =>
      let addr := ROUNDDOWN (pm_addr mem) CORE_MMU_PGDIR_SIZE in
      CoreMmuPhysMem (pm_type mem) addr
        (ROUNDUP (u32 (pm_size mem + u32 (pm_addr mem - addr))) CORE_MMU_PGDIR_SIZE)
  | _ => mem
  end.

(** A call of [add_phys_mem] or [add_va_space].  Both compare the place of the
    new entry with the size of the table, not the number of entries: an entry
    that goes below the end of a full table is moved behind its last slot. *)
Definition add_entry (num_elems : Z) (o : option (list tee_mmap_region)) : K (list tee_mmap_region) :=
  match o with
  | None => panic
  | Some l => if size l <=? num_elems then ret l else fault
  end.

(** The loop over the registered areas. *)
Fixpoint add_areas (num_elems : Z) (areas : list core_mmu_phys_mem) (l : list tee_mmap_region)
  : K (list tee_mmap_region) :=
  match areas with
  | [] => ret l
  | mem :: areas =>
      if pm_size mem =? 0 then add_areas num_elems areas l
      else
        massert (if pm_addr mem =? 0 then a <- type_to_attr (pm_type mem);; ret (a =? 0) else ret true);;;
        l <- add_entry num_elems (add_phys_mem num_elems (round_area mem) l);;
        add_areas num_elems areas l
  end.

(** The entries before the layout.  [verify_special_mem_areas] looks at the whole
    table; writing the terminator [memory_map[last]] needs a slot for it. *)
Definition collect (num_elems : Z) (areas nsec_ddr : list core_mmu_phys_mem) : K (list tee_mmap_region) :=
  l <- add_areas num_elems areas [];;
  (if verify_special_mem_areas
        (l ++ replicate (Z.to_nat (num_elems - size l)) (TeeMmapRegion MEM_AREA_NOTYPE 0 0 0 0 0)) nsec_ddr
   then ret tt else panic);;;
  l <- add_entry num_elems (add_va_space num_elems MEM_AREA_RES_VASPACE RES_VASPACE_SIZE l);;
  l <- add_entry num_elems (add_va_space num_elems MEM_AREA_SHM_VASPACE RES_VASPACE_SIZE l);;
  if size l <? num_elems then ret l else fault.

(** [for (map = memory_map; map->type != MEM_AREA_NOTYPE; map++)]: a loop that
    changes entries and keeps local variables [A]. *)
Fixpoint map_loop {A} (f : A -> tee_mmap_region -> K (A * tee_mmap_region)) (x : A) (l : list tee_mmap_region)
  : K (A * list tee_mmap_region) :=
  match l with
  | [] => ret (x, [])
  | m :: l' =>
      if bool_decide (mm_type m = MEM_AREA_NOTYPE) then ret (x, l)
      else
        '(x', m') <- f x m;;
        '(x'', l'') <- map_loop f x' l';;
        ret (x'', m' :: l'')
  end.

Definition region_size_step (_ : unit) (m : tee_mmap_region) : K (unit * tee_mmap_region) :=
  match assign_region_size m with Some m' => ret (tt, m') | None => panic end.

(** [for (count = 0; map_is_pgdir(map); count++, map++)]; the terminator is no
    directory mapping. *)
Fixpoint count_pgdir (l : list tee_mmap_region) : Z :=
  match l with
  | m :: l' => if map_is_pgdir m then 1 + count_pgdir l' else 0
  | [] => 0
  end.

Definition flat_step (x : Z * Z) (m : tee_mmap_region) : K ((Z * Z) * tee_mmap_region) :=
  let '(va, end_) := x in
  if negb (map_is_flat_mapped m) then ret (x, m)
  else
    attr <- type_to_attr (mm_type m);;
    let m := set_mm_va (mm_pa m) (set_mm_attr attr m) in
    ret ((Z.min va (ROUNDDOWN (mm_va m) (mm_region_size m)),
          Z.max end_ (ROUNDUP (u32 (mm_va m + mm_size m)) (mm_region_size m))), m).

(** The locals of the two placement loops are [va] and [va_is_secure]. *)
Definition below_step (x : Z * bool) (m : tee_mmap_region) : K ((Z * bool) * tee_mmap_region) :=
  let '(va, va_is_secure) := x in
  if map_is_flat_mapped m then ret (x, m)
  else
    sec <- entry_is_secure m;;
    let '(va, va_is_secure) :=
      if negb (Bool.eqb va_is_secure sec) then (ROUNDDOWN va CORE_MMU_PGDIR_SIZE, negb va_is_secure)
      else (va, va_is_secure) in
    attr <- type_to_attr (mm_type m);;
    let va := u32 (va - mm_size m) in
    let va := ROUNDDOWN va (mm_region_size m) in
    let va := ROUNDDOWN va CORE_MMU_PGDIR_SIZE in
    ret ((va, va_is_secure), set_mm_va va (set_mm_attr attr m)).
Definition above_step (x : Z * bool) (m : tee_mmap_region) : K ((Z * bool) * tee_mmap_region) :=
  let '(va, va_is_secure) := x in
  if map_is_flat_mapped m then ret (x, m)
  else
    sec <- entry_is_secure m;;
    let '(va, va_is_secure) :=
      if negb (Bool.eqb va_is_secure sec) then (ROUNDUP va CORE_MMU_PGDIR_SIZE, negb va_is_secure)
      else (va, va_is_secure) in
    attr <- type_to_attr (mm_type m);;
    let va := ROUNDUP va (mm_region_size m) in
    let va := ROUNDUP va CORE_MMU_PGDIR_SIZE in
    ret ((u32 (va + mm_size m), va_is_secure), set_mm_va va (set_mm_attr attr m)).

(** The second half of [init_mem_map]. *)
Definition place_map (l : list tee_mmap_region) : K (list tee_mmap_region) :=
  let last := size l in
  '(_, l) <- map_loop region_size_step tt l;;
  l <- qsort cmp_mmap_by_bigger_region_size 0 last l;;
  let count := count_pgdir l in
  l <- qsort cmp_mmap_by_secure_attr count (last - count) l;;
  '(x, l) <- map_loop flat_step (not32 0, 0) l;;
  let '(va, end_) := x in
  massert (ret (CFG_TEE_RAM_START <=? va));;;
  massert (ret (end_ <=? CFG_TEE_RAM_START + CFG_TEE_RAM_VA_SIZE));;;
  '(_, l) <- (if core_mmu_place_tee_ram_at_top va then map_loop below_step (va, true) l
              else map_loop above_step
                     (ROUNDUP (u32 (va + CFG_TEE_RAM_VA_SIZE)) CORE_MMU_PGDIR_SIZE, true) l);;
  qsort cmp_mmap_by_lower_va 0 last l.

Definition init_mem_map (num_elems : Z) (areas nsec_ddr : list core_mmu_phys_mem) : K unit :=
  l <- collect num_elems areas nsec_ddr;;
  l <- place_map l;;
  modify_mmu (set_static_memory_map l).

(** [mem_map_inited] is never set, so the map is always built. *)
Definition core_init_mmu_map (areas nsec_ddr : list core_mmu_phys_mem) : K unit :=
  (if forallb (fun a => negb (pbuf_intersects nsec_shared (ma_paddr a) (ma_size a))) secure_only
   then ret tt else panic);;;
  init_mem_map (MAX_MMAP_REGIONS + 1) areas nsec_ddr;;;
  l <- get_map;;
  '(_, l) <- map_loop (fun _ m => if map_entry_allowed m then ret (tt, m) else panic) tt l;;
  core_init_mmu_tables l.
End defs.

(** ** Rounding *)

Lemma land_not32 v k : is_u32 v -> 0 <= k <= 32 -> Z.land v (not32 (2 ^ k - 1)) = v - v mod 2 ^ k.
Proof.
  intros Hv Hk. transitivity (Z.ldiff v (Z.ones k)).
  - apply Z.bits_inj'. intros i Hi. rewrite Z.land_spec, Z.ldiff_spec, not32_testbit by done.
    rewrite Z.ones_equiv, Z.sub_1_r. destruct (Z.ltb_spec i 32); [done|].
    by rewrite (is_u32_testbit v i) by (done || lia).
  - rewrite Z.ldiff_ones_r, Z.shiftl_mul_pow2, Z.shiftr_div_pow2 by lia.
    pose proof (Z.div_mod v (2 ^ k) ltac:(lia)). lia.
Qed.

(** The unit [z] of a mapping is a page or a directory. *)
Definition is_unit (z : Z) : Prop := z = SMALL_PAGE_SIZE \/ z = CORE_MMU_PGDIR_SIZE.

(** [z] rounded up, without the width. *)
Definition up (v z : Z) : Z := v + (- v) mod z.

Lemma ROUNDDOWN_unit v z : is_unit z -> is_u32 v -> ROUNDDOWN v z = v - v mod z.
Proof. intros [->| ->] Hv; [apply (land_not32 v 12)|apply (land_not32 v 20)]; (done || lia). Qed.

Lemma ROUNDUP_unit v z : is_unit z -> 0 <= v -> v + z <= 2 ^ 32 -> ROUNDUP v z = up v z.
Proof.
  intros Hz Hv Hb. unfold ROUNDUP, up.
  assert (0 < z < 2 ^ 32) by (destruct Hz as [->| ->]; done).
  assert (is_u32 (v + (z - 1))) by (unfold is_u32; lia).
  rewrite (u32_small (z - 1)), u32_small by (unfold is_u32; lia).
  change (ROUNDDOWN (v + (z - 1)) z = v + - v mod z). rewrite ROUNDDOWN_unit by done.
  pose proof (Z.div_mod (v + (z - 1)) z ltac:(lia)). pose proof (Z.mod_pos_bound (v + (z - 1)) z ltac:(lia)).
  pose proof (Z.div_mod (- v) z ltac:(lia)). pose proof (Z.mod_pos_bound (- v) z ltac:(lia)).
  set (q := (v + (z - 1)) / z) in *. set (q' := (- v) / z) in *.
  assert (z * (q + q') = z - 1 - (v + (z - 1)) mod z - (- v) mod z) by lia.
  assert (q + q' = 0) by nia. nia.
Qed.

Lemma up_bounds v z : 0 < z -> v <= up v z < v + z.
Proof. intros. unfold up. pose proof (Z.mod_pos_bound (- v) z). lia. Qed.
Lemma up_mod v z : 0 < z -> up v z mod z = 0.
Proof.
  intros. unfold up. pose proof (Z.div_mod (- v) z ltac:(lia)).
  replace (v + - v mod z) with ((- ((- v) / z)) * z) by lia. by apply Z.mod_mul; lia.
Qed.
Lemma up_id v z : 0 < z -> v mod z = 0 -> up v z = v.
Proof. intros Hz Hm. unfold up. rewrite Z.mod_opp_l_z by lia. lia. Qed.
Lemma up_add v w z : 0 < z -> v mod z = 0 -> up (v + w) z = v + up w z.
Proof.
  intros Hz Hm. unfold up. rewrite Z.opp_add_distr, Z.add_mod, Z.mod_opp_l_z, Z.add_0_l, Z.mod_mod by lia. lia.
Qed.
Lemma up_mono v w z : 0 < z -> v <= w -> up v z <= up w z.
Proof.
  intros Hz Hle. pose proof (up_bounds v z Hz). pose proof (up_bounds w z Hz).
  apply Z.le_ngt. intros Hlt.
  pose proof (up_mod v z Hz) as Hv. pose proof (up_mod w z Hz) as Hw.
  apply Z.mod_divide in Hv as [a Ha]; [|lia]. apply Z.mod_divide in Hw as [b Hb]; [|lia].
  rewrite Ha, Hb in *. assert (a - b - 1 < 0) by nia. nia.
Qed.
(** Rounding to a page first makes no difference. *)
Lemma up_unit v z : is_unit z -> up (up v z) CORE_MMU_PGDIR_SIZE = up v CORE_MMU_PGDIR_SIZE.
Proof.
  intros Hz. assert (Hz0 : 0 < z) by (destruct Hz as [->| ->]; done).
  set (D := CORE_MMU_PGDIR_SIZE). assert (0 < D) by done.
  apply Z.le_antisymm; [|apply up_mono; [done|apply up_bounds; done]].
  replace (up v D) with (up (up v D) D) by (apply up_id, up_mod; done).
  apply up_mono; [done|]. replace (up v D) with (up (up v D) z); [apply up_mono; [done|by apply up_bounds]|].
  apply up_id; [done|]. pose proof (up_mod v D ltac:(done)) as Hm.
  destruct Hz as [->| ->]; [|done]. unfold D in *.
  apply Z.mod_divide in Hm as [a Ha]; [|done]. rewrite Ha.
  change CORE_MMU_PGDIR_SIZE with (256 * SMALL_PAGE_SIZE). rewrite Z.mul_assoc. by apply Z.mod_mul.
Qed.

Definition down (v z : Z) : Z := v - v mod z.
Lemma down_bounds v z : 0 < z -> v - z < down v z <= v.
Proof. intros. unfold down. pose proof (Z.mod_pos_bound v z). lia. Qed.
Lemma down_mod v z : 0 < z -> down v z mod z = 0.
Proof.
  intros. unfold down. pose proof (Z.div_mod v z ltac:(lia)).
  replace (v - v mod z) with (v / z * z) by lia. by apply Z.mod_mul; lia.
Qed.
(** [down v z] is the greatest multiple of [z] up to [v]. *)
Lemma down_max v w z : 0 < z -> w mod z = 0 -> w <= v -> w <= down v z.
Proof.
  intros Hz Hw Hle. apply Z.mod_divide in Hw as [a ->]; [|lia].
  pose proof (down_mod v z Hz) as Hm. apply Z.mod_divide in Hm as [b Hb]; [|lia].
  pose proof (down_bounds v z Hz). rewrite Hb in *. assert (a - b - 1 < 0) by nia. nia.
Qed.
Lemma unit_pos z : is_unit z -> 0 < z.
Proof. by intros [->| ->]. Qed.
Lemma pgdir_unit v z : is_unit z -> v mod CORE_MMU_PGDIR_SIZE = 0 -> v mod z = 0.
Proof.
  intros [->| ->]; [|done]. intros [a ->]%Z.mod_divide; [|done].
  change CORE_MMU_PGDIR_SIZE with (256 * SMALL_PAGE_SIZE). rewrite Z.mul_assoc. by apply Z.mod_mul.
Qed.
Lemma down_unit v z : is_unit z -> down (down v z) CORE_MMU_PGDIR_SIZE = down v CORE_MMU_PGDIR_SIZE.
Proof.
  intros Hz. pose proof (unit_pos z Hz). set (D := CORE_MMU_PGDIR_SIZE). assert (0 < D) by done.
  apply Z.le_antisymm; apply down_max; try apply down_mod; try done.
  - pose proof (down_bounds (down v z) D). pose proof (down_bounds v z). lia.
  - apply down_max; [done|apply pgdir_unit; [done|by apply down_mod]|by apply down_bounds].
Qed.

(** ** The loops as pure functions *)

Abbreviation D := CORE_MMU_PGDIR_SIZE.
Definition attr_of (t : teecore_memtypes) : Z := default 0 (core_mmu_type_to_attr t).
Definition secure_of (m : tee_mmap_region) : bool := default false (map_is_secure m).

Fixpoint fold_map {A} (g : A -> tee_mmap_region -> A * tee_mmap_region) (x : A) (l : list tee_mmap_region)
  : A * list tee_mmap_region :=
  match l with
  | [] => (x, [])
  | m :: l' =>
      let '(x', m') := g x m in
      let '(x'', l'') := fold_map g x' l' in
      (x'', m' :: l'')
  end.

Definition flat_fn (x : Z * Z) (m : tee_mmap_region) : (Z * Z) * tee_mmap_region :=
  if negb (map_is_flat_mapped m) then (x, m)
  else ((Z.min (fst x) (ROUNDDOWN (mm_pa m) (mm_region_size m)),
         Z.max (snd x) (ROUNDUP (u32 (mm_pa m + mm_size m)) (mm_region_size m))),
        set_mm_va (mm_pa m) (set_mm_attr (attr_of (mm_type m)) m)).
Definition below_fn (x : Z * bool) (m : tee_mmap_region) : (Z * bool) * tee_mmap_region :=
  if map_is_flat_mapped m then (x, m)
  else
    let va := if negb (Bool.eqb (snd x) (secure_of m)) then ROUNDDOWN (fst x) D else fst x in
    let va := ROUNDDOWN (ROUNDDOWN (u32 (va - mm_size m)) (mm_region_size m)) D in
    ((va, secure_of m), set_mm_va va (set_mm_attr (attr_of (mm_type m)) m)).
Definition above_fn (x : Z * bool) (m : tee_mmap_region) : (Z * bool) * tee_mmap_region :=
  if map_is_flat_mapped m then (x, m)
  else
    let va := if negb (Bool.eqb (snd x) (secure_of m)) then ROUNDUP (fst x) D else fst x in
    let va := ROUNDUP (ROUNDUP va (mm_region_size m)) D in
    ((u32 (va + mm_size m), secure_of m), set_mm_va va (set_mm_attr (attr_of (mm_type m)) m)).

Section runs.
Context {P : Type} {plat : Platform P} {cfg : Config} (s : kernel P).

Definition mapped_type (m : tee_mmap_region) : Prop := is_Some (core_mmu_type_to_attr (mm_type m)).

Lemma map_loop_run {A} f (g : A -> tee_mmap_region -> A * tee_mmap_region) l :
  Forall (fun m => mapped_type m /\ forall x, f x m s = Ret (g x m) s) l ->
  forall x, map_loop f x l s = Ret (fold_map g x l) s.
Proof.
  induction 1 as [|m l [[a Ha] Hf] _ IH]; intros x; [done|].
  cbn [map_loop]. rewrite bool_decide_eq_false_2 by (intros E; by rewrite E in Ha).
  rewrite (bind_run _ _ _ _ _ (Hf x)). cbn [fold_map]. destruct (g x m) as [x' m'].
  rewrite (bind_run _ _ _ _ _ (IH x')). by destruct (fold_map g x' l).
Qed.

Lemma type_to_attr_run m : mapped_type m -> type_to_attr (mm_type m) s = Ret (attr_of (mm_type m)) s.
Proof. intros [a Ha]. unfold type_to_attr, attr_of. by rewrite Ha. Qed.
Lemma entry_is_secure_run m : mapped_type m -> entry_is_secure m s = Ret (secure_of m) s.
Proof. intros [a Ha]. unfold entry_is_secure, secure_of, map_is_secure. by rewrite Ha. Qed.

Lemma flat_step_run m x : mapped_type m -> flat_step x m s = Ret (flat_fn x m) s.
Proof.
  intros Hm. unfold flat_step, flat_fn. destruct x as [va e]. destruct (negb _); [done|].
  by rewrite (bind_run _ _ _ _ _ (type_to_attr_run m Hm)).
Qed.
Lemma toggle_secure (b c : bool) : negb (Bool.eqb b c) = true -> negb b = c.
Proof. by destruct b, c. Qed.
Lemma below_step_run m x : mapped_type m -> below_step x m s = Ret (below_fn x m) s.
Proof.
  intros Hm. unfold below_step, below_fn. destruct x as [va e]. destruct (map_is_flat_mapped m); [done|].
  rewrite (bind_run _ _ _ _ _ (entry_is_secure_run m Hm)). cbn [fst snd].
  destruct (negb (Bool.eqb e (secure_of m))) eqn:E; cbn [fst snd];
    rewrite (bind_run _ _ _ _ _ (type_to_attr_run m Hm)).
  - by rewrite (toggle_secure _ _ E).
  - apply negb_false_iff, eqb_prop in E. by rewrite E.
Qed.
Lemma above_step_run m x : mapped_type m -> above_step x m s = Ret (above_fn x m) s.
Proof.
  intros Hm. unfold above_step, above_fn. destruct x as [va e]. destruct (map_is_flat_mapped m); [done|].
  rewrite (bind_run _ _ _ _ _ (entry_is_secure_run m Hm)). cbn [fst snd].
  destruct (negb (Bool.eqb e (secure_of m))) eqn:E; cbn [fst snd];
    rewrite (bind_run _ _ _ _ _ (type_to_attr_run m Hm)).
  - by rewrite (toggle_secure _ _ E).
  - apply negb_false_iff, eqb_prop in E. by rewrite E.
Qed.

(** The answers of the comparisons. *)
Lemma cmp_size_run a b :
  cmp_mmap_by_bigger_region_size a b s = Ret (i32 (mm_region_size b - mm_region_size a)) s.
Proof. done. Qed.
Definition secure_attr_cmp (a b : tee_mmap_region) : Z :=
  if attr_of (mm_type a) =? 0 then 0
  else if attr_of (mm_type b) =? 0 then 0 else Z.b2z (secure_of b) - Z.b2z (secure_of a).
Lemma cmp_secure_run a b :
  mapped_type a -> mapped_type b -> cmp_mmap_by_secure_attr a b s = Ret (secure_attr_cmp a b) s.
Proof.
  intros Ha Hb. unfold cmp_mmap_by_secure_attr, secure_attr_cmp.
  rewrite (bind_run _ _ _ _ _ (type_to_attr_run a Ha)). destruct (_ =? 0); [done|].
  rewrite (bind_run _ _ _ _ _ (type_to_attr_run b Hb)). destruct (_ =? 0); [done|].
  rewrite (bind_run _ _ _ _ _ (entry_is_secure_run b Hb)).
  by rewrite (bind_run _ _ _ _ _ (entry_is_secure_run a Ha)).
Qed.
End runs.

(** ** What the layout relies on and what it achieves *)

(** Type, physical address and size: what placing an entry keeps. *)
Definition phys_key (m : tee_mmap_region) : teecore_memtypes * Z * Z := (mm_type m, mm_pa m, mm_size m).

(** A collected entry is made of pages and does not wrap; the memory of the
    kernel lies in its window. *)
Record fit_entry (m : tee_mmap_region) : Prop := {
  ft_type : mapped_type m;
  ft_size : 0 < mm_size m;
  ft_pa : 0 <= mm_pa m /\ mm_pa m + mm_size m <= 2 ^ 32;
  ft_null : mm_pa m = 0 -> core_mmu_is_dynamic_vaspace m = true;
  ft_page : mm_pa m mod SMALL_PAGE_SIZE = 0 /\ mm_size m mod SMALL_PAGE_SIZE = 0;
  ft_flat : map_is_flat_mapped m = true ->
    CFG_TEE_RAM_START <= mm_pa m /\ mm_pa m + mm_size m <= CFG_TEE_RAM_START + CFG_TEE_RAM_VA_SIZE }.

(** The virtual memory the entries take: whole directories, but for the memory
    of the kernel, which is mapped where it is. *)
Definition room (m : tee_mmap_region) : Z := if map_is_flat_mapped m then 0 else up (mm_size m) D.
Fixpoint room_total (l : list tee_mmap_region) : Z :=
  match l with [] => 0 | m :: l' => room m + room_total l' end.

Definition flat_apart (m n : tee_mmap_region) : Prop :=
  map_is_flat_mapped m = true -> map_is_flat_mapped n = true ->
  mm_pa m + mm_size m <= mm_pa n \/ mm_pa n + mm_size n <= mm_pa m.

Record fits (l : list tee_mmap_region) : Prop := {
  fi_entry : Forall fit_entry l;
  fi_flat : ForallOrdPairs flat_apart l;
  fi_total : room_total l <= 2 ^ 31 - 2 ^ 25 }.

(** The unit of an entry divides its physical address and its size. *)
Record sized (m : tee_mmap_region) : Prop := {
  sz_fit : fit_entry m;
  sz_unit : is_unit (mm_region_size m);
  sz_pa : mm_pa m mod mm_region_size m = 0;
  sz_size : mm_size m mod mm_region_size m = 0 }.

Record placed (m : tee_mmap_region) : Prop := {
  pl_sized : sized m;
  pl_attr : core_mmu_type_to_attr (mm_type m) = Some (mm_attr m);
  pl_flat : map_is_flat_mapped m = true -> mm_va m = mm_pa m;
  pl_dir : map_is_flat_mapped m = false -> mm_va m mod D = 0;
  pl_range : 0 < mm_va m /\ mm_va m + mm_size m <= 2 ^ 32 }.

(** The directories of two entries that are not flat are apart. *)
Definition dirs_apart (m n : tee_mmap_region) : Prop :=
  map_is_flat_mapped m = false -> map_is_flat_mapped n = false ->
  mm_va m + room m <= mm_va n \/ mm_va n + room n <= mm_va m.

Lemma ForallOrdPairs_perm {A} (R : A -> A -> Prop) l l' :
  (forall x y, R x y -> R y x) -> l ≡ₚ l' -> ForallOrdPairs R l -> ForallOrdPairs R l'.
Proof.
  intros Hsym Hp. induction Hp as [|x l l' Hp IH|x y l|l1 l2 l3 _ IH1 _ IH2]; intros H; auto.
  - inversion H; subst. constructor; [by rewrite <- Hp|auto].
  - inversion H as [|? ? Hy H']; subst. inversion H' as [|? ? Hx H'']; subst.
    apply Forall_cons in Hy as [Hyx Hy]. repeat constructor; auto.
Qed.
Lemma ForallOrdPairs_lookup {A} (R : A -> A -> Prop) l i j x y :
  (forall x y, R x y -> R y x) -> ForallOrdPairs R l ->
  l !! i = Some x -> l !! j = Some y -> i <> j -> R x y.
Proof.
  intros Hsym H. revert i j. induction H as [|z l Hz _ IH]; intros i j Hi Hj Hij; [done|].
  destruct i, j; simpl in *; simplify_eq.
  - by eapply Forall_lookup_1 in Hz.
  - eapply Forall_lookup_1 in Hz; [|done]. by apply Hsym.
  - by apply (IH i j); [..|lia].
Qed.

Lemma room_total_perm l l' : l ≡ₚ l' -> room_total l = room_total l'.
Proof. induction 1; simpl; lia. Qed.
Lemma room_nonneg m : fit_entry m -> 0 <= room m.
Proof. intros H. unfold room. destruct (map_is_flat_mapped m); [lia|]. pose proof (up_bounds (mm_size m) D ltac:(done)). pose proof (ft_size m H). lia. Qed.
Lemma room_total_nonneg l : Forall sized l -> 0 <= room_total l.
Proof. induction 1 as [|m l Hm _ IH]; simpl; [lia|]. pose proof (room_nonneg m (sz_fit m Hm)). lia. Qed.

(** *** Choosing the units *)

Lemma tst_low x k : 0 <= k -> tst x (2 ^ k - 1) = negb (x mod 2 ^ k =? 0).
Proof. intros. unfold tst, truth. by rewrite Z.sub_1_r, <- Z.ones_equiv, Z.land_ones by done. Qed.
Lemma lor_mod x y k : 0 <= k -> Z.lor x y mod 2 ^ k = 0 <-> x mod 2 ^ k = 0 /\ y mod 2 ^ k = 0.
Proof. intros. by rewrite <- !Z.land_ones, Z.land_lor_distr_l, Z.lor_eq_0_iff by done. Qed.

Lemma assign_sized m :
  fit_entry m -> exists m', assign_region_size m = Some m' /\ phys_key m' = phys_key m /\ sized m'.
Proof.
  intros H. destruct (ft_page m H) as [Hp1 Hp2]. unfold assign_region_size.
  change CORE_MMU_PGDIR_MASK with (2 ^ 20 - 1). change SMALL_PAGE_MASK with (2 ^ 12 - 1).
  rewrite !tst_low, !negb_involutive by done.
  destruct (Z.eqb_spec (Z.lor (mm_pa m) (mm_size m) mod 2 ^ 20) 0) as [E|_].
  - apply lor_mod in E as [E1 E2]; [|done]. eexists. split_and!; [done..|].
    split; [by destruct H|by right|done..].
  - rewrite (proj2 (Z.eqb_eq _ _)) by (by apply lor_mod). eexists. split_and!; [done..|].
    split; [by destruct H|by left|done..].
Qed.

(** *** Placing the entries *)

(** Flat entries have their address already. *)
Definition half_placed (m : tee_mmap_region) : Prop :=
  sized m /\ (map_is_flat_mapped m = true -> mm_va m = mm_pa m /\ mm_attr m = attr_of (mm_type m)).

Lemma attr_of_spec m : mapped_type m -> core_mmu_type_to_attr (mm_type m) = Some (attr_of (mm_type m)).
Proof. intros [a Ha]. unfold attr_of. by rewrite Ha. Qed.

Lemma half_flat_placed m : half_placed m -> map_is_flat_mapped m = true -> placed m.
Proof.
  intros [Hs Hf] Hm. destruct (Hf Hm) as [Hva Ha]. pose proof (sz_fit m Hs) as Hfit.
  destruct (ft_flat m Hfit Hm). destruct (ft_pa m Hfit). assert (0 < CFG_TEE_RAM_START) by done.
  split; [done|by rewrite Ha; apply attr_of_spec, ft_type|done|congruence|lia].
Qed.

(** Giving an entry that is not flat an address. *)
Definition at_va (va : Z) (m : tee_mmap_region) : tee_mmap_region := set_mm_va va (set_mm_attr (attr_of (mm_type m)) m).
Lemma at_va_placed va m :
  sized m -> map_is_flat_mapped m = false -> va mod D = 0 -> 0 < va -> va + room m <= 2 ^ 32 ->
  placed (at_va va m).
Proof.
  intros Hs Hm Hd Hp Hr. pose proof (sz_fit m Hs) as Hfit.
  assert (Hroom : mm_size m <= room m) by (unfold room; rewrite Hm; by apply up_bounds).
  split; cbn; try done.
  - destruct Hs as [Hft ???]. by split; [destruct Hft|..].
  - by apply attr_of_spec, ft_type.
  - change (map_is_flat_mapped (at_va va m)) with (map_is_flat_mapped m). congruence.
  - lia.
Qed.

Lemma above_fn_place x m :
  sized m -> map_is_flat_mapped m = false -> 0 < fst x -> up (fst x) D + room m <= 2 ^ 32 - D ->
  above_fn x m = ((up (fst x) D + mm_size m, secure_of m), at_va (up (fst x) D) m).
Proof.
  intros Hs Hm Hp Hr. unfold above_fn. rewrite Hm.
  assert (HD : 0 < D) by done. pose proof (up_bounds (fst x) D HD).
  assert (Hroom : mm_size m <= room m) by (unfold room; rewrite Hm; by apply up_bounds).
  pose proof (ft_size m (sz_fit m Hs)). assert (D = 2 ^ 20) by done.
  assert (Hu : forall v, 0 < v -> up v D = up (fst x) D -> ROUNDUP (ROUNDUP v (mm_region_size m)) D = up (fst x) D).
  { intros v Hv He. pose proof (sz_unit m Hs) as Hz. pose proof (up_bounds v (mm_region_size m) (unit_pos _ Hz)).
    pose proof (up_bounds v D HD).
    assert (mm_region_size m <= D) by (by destruct Hz as [->| ->]).
    rewrite (ROUNDUP_unit v) by (done || lia). rewrite ROUNDUP_unit; [|by right|lia|].
    - by rewrite up_unit.
    - pose proof (up_unit v _ Hz) as E. pose proof (up_bounds (up v (mm_region_size m)) D HD). lia. }
  assert (Hsel : ROUNDUP (ROUNDUP (if negb (Bool.eqb (snd x) (secure_of m)) then ROUNDUP (fst x) D else fst x)
    (mm_region_size m)) D = up (fst x) D).
  { destruct (negb _).
    - rewrite (ROUNDUP_unit (fst x) D) by (by right || lia). apply Hu; [lia|]. apply up_id; [done|by apply up_mod].
    - by apply Hu. }
  rewrite Hsel, u32_small by (unfold is_u32; lia). done.
Qed.

Lemma above_place l : forall x,
  Forall half_placed l -> 0 < fst x -> up (fst x) D + room_total l <= 2 ^ 32 - D ->
  let l' := snd (fold_map above_fn x l) in
  phys_key <$> l' = phys_key <$> l /\ Forall placed l' /\
  Forall (fun m => map_is_flat_mapped m = false ->
    up (fst x) D <= mm_va m /\ mm_va m + room m <= up (fst x) D + room_total l) l' /\
  ForallOrdPairs dirs_apart l'.
Proof.
  induction l as [|m l IH]; intros x Hl Hx Hr; [by repeat constructor|].
  apply Forall_cons in Hl as [Hm Hl]. cbn [room_total fold_map] in *. assert (HD : 0 < D) by done.
  assert (Hnn : 0 <= room_total l) by (apply room_total_nonneg; eapply Forall_impl; [exact Hl|]; by intros y [? _]).
  pose proof (room_nonneg m (sz_fit m (proj1 Hm))) as Hrm.
  destruct (map_is_flat_mapped m) eqn:Hf.
  - assert (E : above_fn x m = (x, m)) by (unfold above_fn; by rewrite Hf). rewrite E.
    specialize (IH x Hl Hx). destruct (fold_map above_fn x l) as [x2 l2]. cbn [snd] in *.
    destruct IH as (H1 & H2 & H3 & H4); [lia|]. cbn. split_and!.
    + by rewrite H1.
    + constructor; [by apply half_flat_placed|done].
    + constructor; [congruence|]. eapply Forall_impl; [exact H3|]. cbn. intros y Hy Hyf. specialize (Hy Hyf). lia.
    + constructor; [|done]. apply Forall_true. intros y. unfold dirs_apart. congruence.
  - destruct Hm as [Hs _]. rewrite (above_fn_place x m) by (done || lia).
    set (v := up (fst x) D) in *. assert (Hv : v mod D = 0) by (by apply up_mod).
    assert (Hv0 : fst x <= v) by (by apply up_bounds).
    assert (He : up (v + mm_size m) D = v + room m) by (unfold room; rewrite Hf; by apply up_add).
    specialize (IH (v + mm_size m, secure_of m) Hl). cbn [fst] in IH. rewrite He in IH.
    destruct (fold_map above_fn (v + mm_size m, secure_of m) l) as [x2 l2]. cbn [snd] in *.
    pose proof (ft_size m (sz_fit m Hs)).
    destruct IH as (H1 & H2 & H3 & H4); [lia|lia|]. cbn. split_and!.
    + by rewrite H1.
    + constructor; [|done]. apply at_va_placed; try (done || lia).
    + constructor.
      * intros _. change (room (at_va v m)) with (room m). cbn. lia.
      * eapply Forall_impl; [exact H3|]. cbn. intros y Hy Hyf. specialize (Hy Hyf). lia.
    + constructor; [|done]. eapply Forall_impl; [exact H3|]. cbn. intros y Hy _ Hyf. specialize (Hy Hyf).
      left. change (room (at_va v m)) with (room m). cbn. lia.
Qed.

Lemma below_fn_place x m :
  sized m -> map_is_flat_mapped m = false -> 0 <= fst x < 2 ^ 32 -> 0 < down (fst x) D - room m ->
  exists va, below_fn x m = ((va, secure_of m), at_va va m) /\ va mod D = 0 /\
    down (fst x) D - room m <= va /\ va + mm_size m <= fst x.
Proof.
  intros Hs Hm Hx Hr. unfold below_fn. rewrite Hm. assert (HD : 0 < D) by done.
  pose proof (down_bounds (fst x) D HD). pose proof (ft_size m (sz_fit m Hs)).
  assert (Hroom : mm_size m <= room m) by (unfold room; rewrite Hm; by apply up_bounds).
  assert (Hrm : room m mod D = 0) by (unfold room; rewrite Hm; by apply up_mod).
  set (c := if negb (Bool.eqb (snd x) (secure_of m)) then ROUNDDOWN (fst x) D else fst x).
  assert (Hc : down (fst x) D <= c <= fst x).
  { unfold c. destruct (negb _); [|lia]. rewrite ROUNDDOWN_unit by (by right || done).
    fold (down (fst x) D). lia. }
  pose proof (sz_unit m Hs) as Hz. pose proof (unit_pos _ Hz).
  rewrite (u32_small (c - mm_size m)) by (unfold is_u32; lia).
  pose proof (down_bounds (c - mm_size m) (mm_region_size m)).
  assert (Hrs : mm_region_size m <= D) by (by destruct Hz as [->| ->]).
  rewrite (ROUNDDOWN_unit (c - mm_size m)) by (done || unfold is_u32; lia).
  fold (down (c - mm_size m) (mm_region_size m)).
  assert (Hlow : down (fst x) D - room m <= down (down (c - mm_size m) (mm_region_size m)) D).
  { rewrite down_unit by done. apply down_max; [done| |lia].
    rewrite Zminus_mod, Hrm, (down_mod (fst x)) by done. done. }
  assert (0 <= down (c - mm_size m) (mm_region_size m)).
  { pose proof (down_bounds (down (c - mm_size m) (mm_region_size m)) D HD). lia. }
  rewrite ROUNDDOWN_unit; [|by right|unfold is_u32; lia]. fold (down (down (c - mm_size m) (mm_region_size m)) D).
  eexists. split; [reflexivity|]. split_and!; [by apply down_mod|done|].
  pose proof (down_bounds (down (c - mm_size m) (mm_region_size m)) D HD). lia.
Qed.

Lemma below_place l : forall x,
  Forall half_placed l -> 0 <= fst x < 2 ^ 32 -> 0 < down (fst x) D - room_total l ->
  let l' := snd (fold_map below_fn x l) in
  phys_key <$> l' = phys_key <$> l /\ Forall placed l' /\
  Forall (fun m => map_is_flat_mapped m = false ->
    down (fst x) D - room_total l <= mm_va m /\ mm_va m + mm_size m <= fst x) l' /\
  ForallOrdPairs dirs_apart l'.
Proof.
  induction l as [|m l IH]; intros x Hl Hx Hr; [by repeat constructor|].
  apply Forall_cons in Hl as [Hm Hl]. cbn [room_total fold_map] in *. assert (HD : 0 < D) by done.
  assert (Hnn : 0 <= room_total l) by (apply room_total_nonneg; eapply Forall_impl; [exact Hl|]; by intros y [? _]).
  pose proof (room_nonneg m (sz_fit m (proj1 Hm))) as Hrm.
  destruct (map_is_flat_mapped m) eqn:Hf.
  - assert (E : below_fn x m = (x, m)) by (unfold below_fn; by rewrite Hf). rewrite E.
    specialize (IH x Hl Hx). destruct (fold_map below_fn x l) as [x2 l2]. cbn [snd] in *.
    destruct IH as (H1 & H2 & H3 & H4); [lia|]. cbn. split_and!.
    + by rewrite H1.
    + constructor; [by apply half_flat_placed|done].
    + constructor; [congruence|]. eapply Forall_impl; [exact H3|]. cbn. intros y Hy Hyf. specialize (Hy Hyf). lia.
    + constructor; [|done]. apply Forall_true. intros y. unfold dirs_apart. congruence.
  - destruct Hm as [Hs _]. pose proof (ft_size m (sz_fit m Hs)).
    destruct (below_fn_place x m) as (v & -> & Hv & Hlow & Hhigh); [done|done|done|lia|].
    assert (Hdv : down v D = v) by (unfold down; lia).
    assert (Hup : v + room m <= up (fst x) D).
    { unfold room. rewrite Hf, <- up_add by done. by apply up_mono. }
    assert (Hux : up (fst x) D <= 2 ^ 32).
    { rewrite <- (up_id (2 ^ 32) D) by done. apply up_mono; [done|lia]. }
    specialize (IH (v, secure_of m) Hl). cbn [fst] in IH. rewrite Hdv in IH.
    destruct (fold_map below_fn (v, secure_of m) l) as [x2 l2]. cbn [snd] in *.
    destruct IH as (H1 & H2 & H3 & H4); [lia|lia|]. cbn. split_and!.
    + by rewrite H1.
    + constructor; [|done]. apply at_va_placed; try (done || lia).
    + constructor; [cbn; lia|].
      eapply Forall_impl; [exact H3|]. cbn. intros y Hy Hyf. specialize (Hy Hyf). lia.
    + constructor; [|done]. apply Forall_forall. intros y Hin _ Hyf.
      rewrite Forall_forall in H2, H3. pose proof (H2 y Hin) as Hp. pose proof (H3 y Hin) as Hy. specialize (Hy Hyf). right.
      unfold room. rewrite Hyf. rewrite <- up_add; [|done|by apply pl_dir]. cbn.
      transitivity (up v D); [apply up_mono; [done|lia]|by rewrite up_id].
Qed.

Abbreviation TEE_RAM_END := (CFG_TEE_RAM_START + CFG_TEE_RAM_VA_SIZE).

Lemma flat_fn_place x m :
  sized m -> map_is_flat_mapped m = true ->
  flat_fn x m = ((Z.min (fst x) (mm_pa m), Z.max (snd x) (mm_pa m + mm_size m)), at_va (mm_pa m) m).
Proof.
  intros Hs Hm. unfold flat_fn. rewrite Hm. cbn [negb].
  destruct (ft_flat m (sz_fit m Hs) Hm). pose proof (ft_size m (sz_fit m Hs)).
  assert (CFG_TEE_RAM_START = 0x4C000000 /\ CFG_TEE_RAM_VA_SIZE = 0x800000) as [E1 E2] by done.
  pose proof (sz_unit m Hs) as Hz.
  assert (mm_region_size m <= 0x100000) by (by destruct Hz as [->| ->]).
  pose proof (unit_pos _ Hz).
  rewrite ROUNDDOWN_unit, (sz_pa m Hs), Z.sub_0_r by (done || unfold is_u32; lia).
  rewrite u32_small, ROUNDUP_unit by (done || unfold is_u32; lia).
  rewrite up_id; [done|done|]. by rewrite Z.add_mod, (sz_pa m Hs), (sz_size m Hs) by lia.
Qed.

Lemma flat_place l : forall x,
  Forall sized l -> CFG_TEE_RAM_START <= fst x -> snd x <= TEE_RAM_END ->
  let x' := fst (fold_map flat_fn x l) in
  let l' := snd (fold_map flat_fn x l) in
  phys_key <$> l' = phys_key <$> l /\ Forall half_placed l' /\
  CFG_TEE_RAM_START <= fst x' <= fst x /\ snd x' <= TEE_RAM_END /\
  (fst x' = fst x \/ fst x' <= TEE_RAM_END) /\
  Forall (fun m => map_is_flat_mapped m = true -> fst x' <= mm_va m) l'.
Proof.
  induction l as [|m l IH]; intros x Hl Hx1 Hx2; [split_and!; [done..|by left|done]|].
  apply Forall_cons in Hl as [Hm Hl]. cbn [fold_map].
  destruct (map_is_flat_mapped m) eqn:Hf.
  - rewrite flat_fn_place by done. destruct (ft_flat m (sz_fit m Hm) Hf).
    specialize (IH (Z.min (fst x) (mm_pa m), Z.max (snd x) (mm_pa m + mm_size m)) Hl).
    destruct (fold_map flat_fn _ l) as [x2 l2]. cbn [fst snd] in *.
    pose proof (ft_size m (sz_fit m Hm)).
    destruct IH as (I1 & I2 & I3 & I4 & I5 & I6); [lia|lia|]. split_and!; try lia.
    + cbn. by rewrite I1.
    + constructor; [|done]. split; [|done]. destruct Hm as [Hft ???]. by split; [destruct Hft|..].
    + constructor; [cbn; lia|done].
  - assert (E : flat_fn x m = (x, m)) by (unfold flat_fn; by rewrite Hf). rewrite E.
    specialize (IH x Hl Hx1 Hx2). destruct (fold_map flat_fn x l) as [x2 l2]. cbn [fst snd] in *.
    destruct IH as (H1 & H2 & H3 & H4 & H5 & H6). split_and!; try (done || lia).
    + cbn. by rewrite H1.
    + constructor; [|done]. split; [done|congruence].
    + constructor; [congruence|done].
Qed.

(** *** Properties that depend on the keys alone *)

Lemma key_flat m n : phys_key m = phys_key n -> map_is_flat_mapped m = map_is_flat_mapped n.
Proof. unfold phys_key, map_is_flat_mapped, map_is_tee_ram. intros [= -> _ _]. done. Qed.
Lemma key_room m n : phys_key m = phys_key n -> room m = room n.
Proof. intros H. unfold room. rewrite (key_flat m n H). unfold phys_key in H. by injection H as _ _ ->. Qed.
Lemma cons_eq_inv {A} (x y : A) k l : x :: k = y :: l -> x = y /\ k = l.
Proof. intros H. by injection H. Qed.
Lemma key_total l l' : phys_key <$> l = phys_key <$> l' -> room_total l = room_total l'.
Proof.
  revert l'. induction l as [|m l IH]; intros [|m' l'] H; try done.
  cbn in H. apply cons_eq_inv in H as [H1 H2]. cbn. by rewrite (key_room m m'), (IH l').
Qed.
Lemma key_flat_apart l l' :
  phys_key <$> l = phys_key <$> l' -> ForallOrdPairs flat_apart l -> ForallOrdPairs flat_apart l'.
Proof.
  intros H Hl. revert l' H. induction Hl as [|m l Hm Hl IH]; intros [|m' l'] H; try done; [constructor|].
  cbn in H. apply cons_eq_inv in H as [H1 H2]. constructor; [|by apply IH].
  apply Forall_forall. intros n' Hn'. apply list_elem_of_lookup in Hn' as [i Hi].
  assert (Hk : (phys_key <$> l) !! i = Some (phys_key n')) by (by rewrite H2, list_lookup_fmap, Hi).
  rewrite list_lookup_fmap in Hk. destruct (l !! i) as [n|] eqn:Hn; [|done]. injection Hk as Hk1 Hk2 Hk3.
  eapply Forall_lookup_1 in Hm; [|exact Hn]. unfold flat_apart in *.
  assert (Hkn : phys_key n = phys_key n') by (unfold phys_key; congruence).
  rewrite <- (key_flat m m' H1), <- (key_flat n n' Hkn), <- Hk2, <- Hk3.
  unfold phys_key in H1. injection H1 as _ <- <-. exact Hm.
Qed.
Lemma flat_apart_sym m n : flat_apart m n -> flat_apart n m.
Proof. unfold flat_apart. intros H ??. specialize (H ltac:(done) ltac:(done)). lia. Qed.
Lemma dirs_apart_sym m n : dirs_apart m n -> dirs_apart n m.
Proof. unfold dirs_apart. intros H ??. specialize (H ltac:(done) ltac:(done)). lia. Qed.

(** ** The whole layout *)

(** Comparing by address is an order as long as the addresses are less than
    2 GiB apart. *)
Lemma cmp_va_order lo :
  CmpOrder (fun a b : tee_mmap_region => i32 (mm_va a - mm_va b)) (fun m => lo <= mm_va m < lo + 2 ^ 31).
Proof.
  split.
  - intros x y z ???. rewrite !i32_small by lia. lia.
  - intros x y ??. rewrite !i32_small by lia. lia.
Qed.

Section layout.
Context {P : Type} {plat : Platform P} {cfg : Config} (s : kernel P).

Lemma region_size_run l :
  Forall fit_entry l ->
  exists l', map_loop region_size_step tt l s = Ret (tt, l') s /\
    phys_key <$> l' = phys_key <$> l /\ Forall sized l'.
Proof.
  induction 1 as [|m l Hm _ (l' & E & Hk & Hs)]; [by exists []|].
  destruct (assign_sized m Hm) as (m' & Ha & Hkm & Hsm).
  exists (m' :: l'). split_and!; [|cbn; by rewrite Hk, Hkm|by constructor].
  destruct (ft_type m Hm) as [a Hty]. cbn [map_loop].
  rewrite bool_decide_eq_false_2 by (intros E'; by rewrite E' in Hty).
  assert (Hr : region_size_step tt m s = Ret (tt, m') s) by (unfold region_size_step; by rewrite Ha).
  rewrite (bind_run _ _ _ _ _ Hr). by rewrite (bind_run _ _ _ _ _ E).
Qed.

(** Sorting with whatever comparison gives a permutation. *)
Lemma qsort_perm_run cmp f (ok : tee_mmap_region -> Prop) a n l :
  (forall x y, ok x -> ok y -> cmp x y s = Ret (f x y) s) -> Forall ok l ->
  0 <= a -> 0 <= n -> a + n <= size l ->
  exists l', qsort cmp a n l s = Ret l' s /\ l' ≡ₚ l.
Proof.
  intros Hc Hok Ha Hn Hs.
  assert (Hseg : seg a (a + n) ok l) by (eapply seg_sub; [| |by apply seg_Forall]; lia).
  destruct (wp_elim _ _ _ (qsort_run cmp f ok s Hc a n l Ha Hn Hs Hseg)) as (l' & s' & E & -> & Hsh & _).
  exists l'. split; [done|]. by eapply shuffle_perm.
Qed.
Lemma qsort_sort_run cmp f (ok : tee_mmap_region -> Prop) l :
  (forall x y, ok x -> ok y -> cmp x y s = Ret (f x y) s) -> CmpOrder f ok -> Forall ok l ->
  exists l', qsort cmp 0 (size l) l s = Ret l' s /\ l' ≡ₚ l /\
    StronglySorted (fun x y => f x y <= 0) l'.
Proof.
  intros Hc Ho Hok.
  pose proof (qsort_run cmp f ok s Hc 0 (size l) l ltac:(lia) ltac:(unfold size; lia) ltac:(lia) (seg_Forall _ _ Hok)) as H.
  destruct (wp_elim _ _ _ H) as (l' & s' & E & -> & Hsh & Hso).
  exists l'. split_and!; [done|by eapply shuffle_perm|].
  apply sorted_in_all. erewrite shuffle_size by done. by apply Hso.
Qed.

Lemma count_pgdir_bounds l : 0 <= count_pgdir l <= size l.
Proof.
  unfold size. induction l as [|m l IH]; cbn [count_pgdir]; [done|]. rewrite length_cons.
  destruct (map_is_pgdir m); lia.
Qed.

(** What holds of the entries in their places, in whatever order. *)
Record well_placed (l : list tee_mmap_region) : Prop := {
  wl_placed : Forall placed l;
  wl_dirs : ForallOrdPairs dirs_apart l;
  wl_flat : ForallOrdPairs flat_apart l;
  wl_above : forall m n, m ∈ l -> n ∈ l ->
    map_is_flat_mapped m = true -> map_is_flat_mapped n = false -> TEE_RAM_END <= mm_va n }.

Lemma well_placed_perm l l' : l ≡ₚ l' -> well_placed l -> well_placed l'.
Proof.
  intros Hp []. split.
  - by rewrite <- Hp.
  - eapply ForallOrdPairs_perm; [exact dirs_apart_sym|exact Hp|done].
  - eapply ForallOrdPairs_perm; [exact flat_apart_sym|exact Hp|done].
  - intros m n Hm Hn. rewrite <- Hp in Hm, Hn. eauto.
Qed.

(** Placing the entries that are not flat, on either side. *)
Lemma sides_place va l :
  Forall half_placed l -> ForallOrdPairs flat_apart l -> room_total l <= 2 ^ 31 - 2 ^ 25 ->
  CFG_TEE_RAM_START <= va <= not32 0 -> va = not32 0 \/ va <= TEE_RAM_END ->
  Forall (fun m => map_is_flat_mapped m = true -> va <= mm_va m) l ->
  exists x l', (if core_mmu_place_tee_ram_at_top va then map_loop below_step (va, true) l
                else map_loop above_step (ROUNDUP (u32 (va + CFG_TEE_RAM_VA_SIZE)) D, true) l) s
               = Ret (x, l') s /\
    phys_key <$> l' = phys_key <$> l /\ well_placed l' /\
    exists lo, Forall (fun m => lo <= mm_va m < lo + 2 ^ 31) l'.
Proof.
  intros Hl Hfl Ht Hva Hd Hmin.
  assert (CFG_TEE_RAM_START = 0x4C000000 /\ CFG_TEE_RAM_VA_SIZE = 0x800000 /\ D = 0x100000) as (E1 & E2 & E3) by done.
  assert (Hn : not32 0 = 2 ^ 32 - 1) by done.
  assert (Hnn : 0 <= room_total l) by (apply room_total_nonneg; eapply Forall_impl; [exact Hl|]; by intros y [? _]).
  assert (Hty : Forall mapped_type l)
    by (eapply Forall_impl; [exact Hl|]; intros y [[??] _]; by apply ft_type).
  unfold core_mmu_place_tee_ram_at_top. destruct (Z.ltb_spec 0x80000000 va) as [Htop|Hbot].
  - destruct Hd as [->|]; [|lia].
    rewrite (map_loop_run s _ below_fn) by (eapply Forall_impl; [exact Hty|]; intros m Hm; split; [done|]; intros x; by apply below_step_run).
    pose proof (below_place l (not32 0, true) Hl) as H. cbn [fst] in H.
    assert (Hdn : down (not32 0) D = 0xfff00000) by done. rewrite Hdn in H.
    destruct H as (H1 & H2 & H3 & H4); [lia|lia|].
    destruct (fold_map below_fn _ l) as [x' l']. cbn [snd] in *. exists x', l'. split; [done|]. split; [done|].
    assert (Hnf : forall m, m ∈ l' -> map_is_flat_mapped m = false).
    { intros m Hm. destruct (map_is_flat_mapped m) eqn:Hf; [|done].
      assert (Hkm : phys_key m ∈ phys_key <$> l) by (rewrite <- H1; by apply list_elem_of_fmap_2).
      apply list_elem_of_fmap_1 in Hkm as (m0 & Hk0 & Hin0).
      rewrite (key_flat _ _ Hk0) in Hf. rewrite Forall_forall in Hl, Hmin.
      pose proof (Hmin m0 Hin0 Hf). destruct (Hl m0 Hin0) as [Hs0 Hv0]. destruct (Hv0 Hf) as [Hv0' _].
      destruct (ft_flat m0 (sz_fit m0 Hs0) Hf). pose proof (ft_size m0 (sz_fit m0 Hs0)). lia. }
    split.
    + split; [done|done|by eapply key_flat_apart|]. intros m n Hm _ Hf. by rewrite Hnf in Hf.
    + exists (2 ^ 31). apply Forall_forall. intros m Hm. rewrite Forall_forall in H2, H3.
      specialize (H3 m Hm (Hnf m Hm)). pose proof (ft_size m (sz_fit m (pl_sized m (H2 m Hm)))). lia.
  - assert (Hva2 : va <= TEE_RAM_END) by lia.
    rewrite (map_loop_run s _ above_fn) by (eapply Forall_impl; [exact Hty|]; intros m Hm; split; [done|]; intros x; by apply above_step_run).
    assert (HD : 0 < D) by done. pose proof (up_bounds (va + CFG_TEE_RAM_VA_SIZE) D HD).
    rewrite u32_small, ROUNDUP_unit by (by right || unfold is_u32; lia).
    set (base := up (va + CFG_TEE_RAM_VA_SIZE) D) in *.
    assert (Hbase : up base D = base) by (apply up_id, up_mod; done).
    pose proof (above_place l (base, true) Hl) as H'. cbn [fst] in H'. rewrite Hbase in H'.
    destruct H' as (H1 & H2 & H3 & H4); [lia|lia|].
    destruct (fold_map above_fn _ l) as [x' l']. cbn [snd] in *. exists x', l'. split; [done|]. split; [done|].
    rewrite Forall_forall in H2, H3. split.
    + split; [by apply Forall_forall|done|by eapply key_flat_apart|].
      intros m n _ Hin _ Hf. specialize (H3 n Hin Hf). lia.
    + exists CFG_TEE_RAM_START. apply Forall_forall. intros m Hm. pose proof (H2 m Hm) as Hp.
      pose proof (sz_fit m (pl_sized m Hp)) as Hft. pose proof (ft_size m Hft).
      destruct (map_is_flat_mapped m) eqn:Hf.
      * rewrite (pl_flat m Hp Hf). destruct (ft_flat m Hft Hf). lia.
      * specialize (H3 m Hm Hf). pose proof (room_nonneg m Hft).
        assert (mm_size m <= room m) by (unfold room; rewrite Hf; by apply up_bounds). lia.
Qed.

Lemma place_run l0 :
  fits l0 ->
  exists l, place_map l0 s = Ret l s /\ phys_key <$> l ≡ₚ phys_key <$> l0 /\ well_placed l /\
    StronglySorted (fun m n => mm_va m <= mm_va n) l.
Proof.
  intros [Hfit Hfl Ht]. unfold place_map.
  destruct (region_size_run l0 Hfit) as (l1 & R1 & K1 & S1).
  rewrite (bind_run _ _ _ _ _ R1).
  assert (Hsz1 : size l1 = size l0).
  { unfold size. by rewrite <- (length_fmap phys_key l1), K1, length_fmap. }
  assert (Hty1 : Forall mapped_type l1) by (eapply Forall_impl; [exact S1|]; intros y ?; by apply ft_type, sz_fit).
  destruct (qsort_perm_run cmp_mmap_by_bigger_region_size _ (fun _ => True) 0 (size l0) l1
    (fun x y _ _ => cmp_size_run s x y)) as (l2 & R2 & P2); [by apply Forall_true|unfold size in *; lia..|].
  rewrite (bind_run _ _ _ _ _ R2).
  assert (Hsz2 : size l2 = size l0) by (rewrite <- Hsz1; unfold size; by rewrite P2).
  pose proof (count_pgdir_bounds l2) as Hc.
  destruct (qsort_perm_run cmp_mmap_by_secure_attr secure_attr_cmp mapped_type (count_pgdir l2)
    (size l0 - count_pgdir l2) l2 (cmp_secure_run s)) as (l3 & R3 & P3); [by rewrite P2|lia|lia|lia|].
  rewrite (bind_run _ _ _ _ _ R3).
  assert (S3 : Forall sized l3) by (by rewrite P3, P2).
  rewrite (bind_run _ _ _ _ _ (map_loop_run s flat_step flat_fn l3
    ltac:(eapply Forall_impl; [exact S3|]; intros m Hm; split; [by apply ft_type, sz_fit|]; intros x;
          by apply flat_step_run, ft_type, sz_fit) _)).
  assert (Hn : not32 0 = 2 ^ 32 - 1) by done.
  assert (E1 : CFG_TEE_RAM_START = 0x4C000000) by done. assert (E2 : CFG_TEE_RAM_VA_SIZE = 0x800000) by done.
  destruct (flat_place l3 (not32 0, 0) S3) as (K4 & H4 & Hva & Hend & Hd & Hmin); [cbn; lia|cbn; lia|].
  destruct (fold_map flat_fn (not32 0, 0) l3) as [[va e] l4]. cbn [fst snd] in *.
  rewrite (bind_run _ _ _ _ _ (massert_run s _ (proj2 (Z.leb_le _ _) (proj1 Hva)))).
  rewrite (bind_run _ _ _ _ _ (massert_run s _ (proj2 (Z.leb_le _ _) Hend))).
  assert (PK : phys_key <$> l4 ≡ₚ phys_key <$> l0) by (by rewrite K4, P3, P2, K1).
  assert (Hfl4 : ForallOrdPairs flat_apart l4).
  { eapply key_flat_apart; [symmetry; exact K4|].
    eapply ForallOrdPairs_perm; [exact flat_apart_sym|symmetry; etrans; [exact P3|exact P2]|].
    eapply key_flat_apart; [symmetry; exact K1|done]. }
  assert (Ht4 : room_total l4 <= 2 ^ 31 - 2 ^ 25)
    by (by rewrite (key_total _ _ K4), (room_total_perm _ _ P3), (room_total_perm _ _ P2), (key_total _ _ K1)).
  destruct (sides_place va l4 H4 Hfl4 Ht4) as (x & l5 & R5 & K5 & W5 & lo & Hlo); [lia|done|done|].
  rewrite (bind_run _ _ _ _ _ R5).
  assert (Hsz5 : size l0 = size l5).
  { unfold size. rewrite <- (length_fmap phys_key l5), K5, PK. by rewrite length_fmap. }
  rewrite Hsz5.
  destruct (qsort_sort_run cmp_mmap_by_lower_va _ _ l5 (fun x y _ _ => eq_refl) (cmp_va_order lo) Hlo)
    as (l6 & R6 & P6 & S6).
  exists l6. split_and!; [done|by rewrite P6, K5|by eapply well_placed_perm|].
  assert (Hlo6 : Forall (fun m => lo <= mm_va m < lo + 2 ^ 31) l6) by (by rewrite P6).
  clear -S6 Hlo6. induction S6 as [|m l Hs IH Hm]; constructor; apply Forall_cons in Hlo6 as [Hm1 Hl1]; [by apply IH|].
  rewrite Forall_forall in *. intros n Hin. specialize (Hm n Hin). specialize (Hl1 n Hin). cbn in *.
  rewrite i32_small in Hm by lia. lia.
Qed.
End layout.

(** ** Collecting the areas *)

Section collecting.
Context {P : Type} {plat : Platform P} {cfg : Config} (s : kernel P).

Lemma add_phys_mem_from_some num n mem l :
  n + size l < num - 1 -> exists l', add_phys_mem_from num n mem l = Some l' /\ size l' <= size l + 1.
Proof.
  unfold size. revert n. induction l as [|m l IH]; intros n Hn; cbn [add_phys_mem_from]; rewrite ?length_cons in Hn.
  - rewrite (proj2 (Z.leb_gt _ _)) by (cbn in Hn; lia). eexists. split; [done|]. cbn. lia.
  - rewrite (proj2 (Z.leb_gt _ _)) by lia.
    destruct (_ && _); [eexists; split; [done|]; rewrite !length_cons; lia|].
    destruct (phys_before mem m); [eexists; split; [done|]; rewrite !length_cons; lia|].
    destruct (IH (n + 1)) as (l' & -> & Hs); [lia|]. eexists. split; [done|]. rewrite !length_cons. lia.
Qed.
Lemma add_va_space_from_some num n t sz l :
  n + size l < num - 1 -> exists l', add_va_space_from num n t sz l = Some l' /\ size l' <= size l + 1.
Proof.
  unfold size. revert n. induction l as [|m l IH]; intros n Hn; cbn [add_va_space_from]; rewrite ?length_cons in Hn.
  - rewrite (proj2 (Z.leb_gt _ _)) by (cbn in Hn; lia). eexists. split; [done|]. cbn. lia.
  - rewrite (proj2 (Z.leb_gt _ _)) by lia.
    destruct (_ <? _); [eexists; split; [done|]; rewrite !length_cons; lia|].
    destruct (IH (n + 1)) as (l' & -> & Hs); [lia|]. eexists. split; [done|]. rewrite !length_cons. lia.
Qed.
Lemma add_entry_run num o l :
  o = Some l -> size l <= num -> add_entry num o s = Ret l s.
Proof. intros -> H. unfold add_entry. by rewrite (proj2 (Z.leb_le _ _)). Qed.

Lemma add_areas_run num areas : forall l,
  Forall (fun a => pm_addr a <> 0) areas -> size l + size areas < num - 1 ->
  exists l', add_areas num areas l s = Ret l' s /\ size l' <= size l + size areas.
Proof.
  induction areas as [|a areas IH]; intros l Ha Hs; [exists l; split; [done|unfold size; cbn; lia]|].
  apply Forall_cons in Ha as [Ha Has]. cbn [add_areas]. unfold size in *. rewrite length_cons in *.
  destruct (pm_size a =? 0).
  { destruct (IH l Has) as (l' & E & ?); [lia|]. exists l'. split; [exact E|lia]. }
  rewrite (proj2 (Z.eqb_neq _ _) Ha), (bind_run _ _ _ _ _ (massert_run s true eq_refl)).
  destruct (add_phys_mem_from_some num 0 (round_area a) l) as (l1 & E1 & Hs1); [unfold size; lia|].
  rewrite (bind_run _ _ _ _ _ (add_entry_run num _ l1 E1 ltac:(unfold size in *; lia))).
  unfold size in Hs1. destruct (IH l1 Has) as (l' & E & ?); [lia|]. exists l'. split; [exact E|lia].
Qed.

(** Up to eleven areas, none of them at address 0, can be registered. *)
Lemma collect_run num areas :
  Forall (fun a => pm_addr a <> 0) areas -> size areas + 2 < num ->
  exists l, collect num areas [] s = Ret l s.
Proof.
  intros Ha Hs. unfold collect.
  destruct (add_areas_run num areas [] Ha) as (l & E & Hl); [unfold size in *; cbn; lia|].
  change (size []) with 0 in Hl. rewrite (bind_run _ _ _ _ _ E). cbn [verify_special_mem_areas].
  rewrite (bind_run _ _ _ _ _ (eq_refl : ret tt s = _)).
  destruct (add_va_space_from_some num 0 MEM_AREA_RES_VASPACE RES_VASPACE_SIZE l) as (l1 & E1 & H1); [lia|].
  rewrite (bind_run _ _ _ _ _ (add_entry_run num _ l1 E1 ltac:(lia))).
  destruct (add_va_space_from_some num 0 MEM_AREA_SHM_VASPACE RES_VASPACE_SIZE l1) as (l2 & E2 & H2); [lia|].
  rewrite (bind_run _ _ _ _ _ (add_entry_run num _ l2 E2 ltac:(lia))).
  rewrite (proj2 (Z.ltb_lt _ _)) by lia. by exists l2.
Qed.
End collecting.

(** ** From the places to the map that address translation expects *)

Lemma placed_wf m : placed m -> wf_entry m.
Proof.
  intros Hp. pose proof (sz_fit m (pl_sized m Hp)) as Hf. pose proof (pl_range m Hp).
  split; [by apply ft_size|by apply ft_pa|by apply ft_null|done].
Qed.

(** Two addresses in the same directory belong to the same entry or to two
    entries of the memory of the kernel. *)
Lemma same_directory l i j m n x y :
  well_placed l -> l !! i = Some m -> l !! j = Some n -> va_range m x -> va_range n y ->
  x / D = y / D -> i = j \/ (map_is_flat_mapped m = true /\ map_is_flat_mapped n = true).
Proof.
  intros [Hp Hd Hf Ha] Hm Hn Hx Hy Hxy. destruct (decide (i = j)) as [|Hij]; [by left|].
  assert (HD : 0 < D) by done.
  pose proof (Z.div_mod x D ltac:(lia)). pose proof (Z.mod_pos_bound x D HD).
  pose proof (Z.div_mod y D ltac:(lia)). pose proof (Z.mod_pos_bound y D HD).
  assert (Hpm : placed m) by (by eapply Forall_lookup_1). assert (Hpn : placed n) by (by eapply Forall_lookup_1).
  pose proof (ft_size m (sz_fit m (pl_sized m Hpm))). pose proof (ft_size n (sz_fit n (pl_sized n Hpn))).
  (* the addresses [a <= x < a + r], [a] and [r] whole directories *)
  assert (sep : forall e, placed e -> map_is_flat_mapped e = false -> forall v w b, va_range e v ->
    b mod D = 0 -> w / D = v / D -> (b <= mm_va e -> b <= w) /\ (mm_va e + room e <= b -> w < b)).
  { intros e He Hfe v w b Hv Hb Hw. unfold va_range in Hv.
    pose proof (Z.div_mod v D ltac:(lia)). pose proof (Z.mod_pos_bound v D HD).
    pose proof (Z.div_mod w D ltac:(lia)). pose proof (Z.mod_pos_bound w D HD).
    assert (mm_size e <= room e) by (unfold room; rewrite Hfe; by apply up_bounds).
    apply Z.mod_divide in Hb as [k Hk]; [|lia]. rewrite Hw in *. split; intros Hle.
    - assert (k - v / D - 1 < 0) by nia. nia.
    - assert (v / D - k < 0) by nia. nia. }
  assert (aligned : forall e, placed e -> map_is_flat_mapped e = false ->
    mm_va e mod D = 0 /\ (mm_va e + room e) mod D = 0).
  { intros e He Hfe. pose proof (pl_dir e He Hfe) as E. split; [done|]. unfold room. rewrite Hfe, <- up_add by done.
    by apply up_mod. }
  destruct (map_is_flat_mapped m) eqn:Hfm, (map_is_flat_mapped n) eqn:Hfn.
  - by right.
  - exfalso. pose proof (Ha m n ltac:(by eapply list_elem_of_lookup_2) ltac:(by eapply list_elem_of_lookup_2) Hfm Hfn).
    destruct (sep n Hpn Hfn y x TEE_RAM_END Hy eq_refl Hxy) as [Hs _]. specialize (Hs ltac:(done)).
    destruct (ft_flat m (sz_fit m (pl_sized m Hpm)) Hfm). pose proof (pl_flat m Hpm Hfm). unfold va_range in Hx. lia.
  - exfalso. pose proof (Ha n m ltac:(by eapply list_elem_of_lookup_2) ltac:(by eapply list_elem_of_lookup_2) Hfn Hfm).
    destruct (sep m Hpm Hfm x y TEE_RAM_END Hx eq_refl (eq_sym Hxy)) as [Hs _]. specialize (Hs ltac:(done)).
    destruct (ft_flat n (sz_fit n (pl_sized n Hpn)) Hfn). pose proof (pl_flat n Hpn Hfn). unfold va_range in Hy. lia.
  - exfalso. pose proof (ForallOrdPairs_lookup _ _ i j m n dirs_apart_sym Hd Hm Hn Hij Hfm Hfn) as Hap.
    destruct (aligned m Hpm Hfm) as [Am1 Am2], (aligned n Hpn Hfn) as [An1 An2].
    destruct Hap as [Hap|Hap].
    + destruct (sep m Hpm Hfm x y (mm_va n) Hx An1 (eq_sym Hxy)) as [_ Hs]. specialize (Hs Hap). unfold va_range in Hy. lia.
    + destruct (sep n Hpn Hfn y x (mm_va m) Hy Am1 Hxy) as [_ Hs]. specialize (Hs Hap). unfold va_range in Hx. lia.
Qed.

Lemma well_placed_wf l : well_placed l -> wf_map l.
Proof.
  intros Hw. split; [eapply Forall_impl; [by apply wl_placed|]; apply placed_wf|].
  intros i j m n va Hm Hn Hvm Hvn.
  destruct (same_directory l i j m n va va Hw Hm Hn Hvm Hvn eq_refl) as [|[Hfm Hfn]]; [done|].
  destruct (decide (i = j)) as [|Hij]; [done|]. exfalso.
  destruct Hw as [Hp _ Hf _].
  assert (Hpm : placed m) by (by eapply Forall_lookup_1). assert (Hpn : placed n) by (by eapply Forall_lookup_1).
  pose proof (ForallOrdPairs_lookup _ _ i j m n flat_apart_sym Hf Hm Hn Hij Hfm Hfn).
  unfold va_range in *. rewrite (pl_flat m Hpm Hfm) in Hvm. rewrite (pl_flat n Hpn Hfn) in Hvn. lia.
Qed.

Lemma flat_secure m : map_is_flat_mapped m = true -> map_is_secure m = Some true.
Proof. unfold map_is_flat_mapped, map_is_tee_ram, map_is_secure. by destruct (mm_type m). Qed.

(** ** Properties *)


(** The i.MX6 board: the area of the cache controller lies in the one of the
    peripherals, so nine entries are collected. *)
#[local] Instance map_demo_cfg : Config := { cfg_ndebug := false }.
Definition map_demo : kernel bigram := kernel_init (mk_bigram ∅).
Definition imx6_entries : list tee_mmap_region :=
  match collect 14 imx6_areas [] map_demo with Ret l _ => l | _ => [] end.

(** Whether collected entries fit can be computed. *)
Lemma fit_entry_iff m :
  fit_entry m <-> mapped_type m /\ 0 < mm_size m /\ (0 <= mm_pa m /\ mm_pa m + mm_size m <= 2 ^ 32) /\
    (mm_pa m = 0 -> core_mmu_is_dynamic_vaspace m = true) /\
    (mm_pa m mod SMALL_PAGE_SIZE = 0 /\ mm_size m mod SMALL_PAGE_SIZE = 0) /\
    (map_is_flat_mapped m = true -> CFG_TEE_RAM_START <= mm_pa m /\ mm_pa m + mm_size m <= TEE_RAM_END).
Proof. split; [by intros []|]. intros (? & ? & ? & ? & ? & ?). by split. Qed.
#[local] Instance fit_entry_dec m : Decision (fit_entry m).
Proof.
  eassert (Decision _) as Hd; [|destruct Hd as [Hd|Hd];
    [left; apply fit_entry_iff; exact Hd|right; intros H; apply fit_entry_iff in H; exact (Hd H)]].
  apply _.
Defined.
#[local] Instance flat_apart_dec m n : Decision (flat_apart m n).
Proof. unfold flat_apart. apply _. Defined.
#[local] Instance ForallOrdPairs_dec l : Decision (ForallOrdPairs flat_apart l).
Proof.
  induction l as [|m l IH]; [left; constructor|].
  refine (cast_if_and (decide (Forall (flat_apart m) l)) IH); [by constructor|by inversion 1..].
Defined.
#[local] Instance fits_dec l : Decision (fits l).
Proof.
  destruct (decide (Forall fit_entry l)); [|right; by intros []].
  destruct (decide (ForallOrdPairs flat_apart l)); [|right; by intros []].
  destruct (decide (room_total l <= 2 ^ 31 - 2 ^ 25)); [left; by split|right; by intros []].
Defined.
Lemma imx6_fits : bool_decide (fits imx6_entries) = true.
Proof. vm_compute. reflexivity. Qed.
Lemma imx6_collected : collect 14 imx6_areas [] map_demo = Ret imx6_entries map_demo.
Proof. vm_compute. reflexivity. Qed.

(** Two entries are registered for one area, the second of them from a lower
    address: the entry that covers both reaches 9 MiB beyond them. *)
Example coalesce_overreaches :
  (fun m => (mm_pa m, mm_size m)) (coalesce (CoreMmuPhysMem MEM_AREA_IO_SEC 0x00100000 0x03300000)
    (TeeMmapRegion MEM_AREA_IO_SEC 0 0x00a00000 0 0x00200000 0)) = (0x00100000, 0x03c00000).
Proof. reflexivity. Qed.
