(* ===== verification/Csu.v ===== *)
(** * Central Security Unit (core/drivers/imx_csu.c)

    Each of the 80 CSL fields grants or denies the non-secure world access to
    a peripheral.  The driver counts the reasons to protect a field and
    rewrites the hardware field on the transitions between 0 and 1. *)

From stdpp Require Import prelude gmap list.
From Stdlib Require Import ZArith Lia.
From S2P Require Import Prelude Platform State CoreMmu.
#[local] Open Scope Z_scope.
#[local] Open Scope kernel_scope.

Definition MAX_CSL : Z := 80.
Definition MAX_SA : Z := 16.

(** The half-word of a CSL field in its register, and the value written. *)
Definition csl_mask (csl : Z) : Z := if Z.rem csl 2 =? 0 then 0x000000FF else 0x00FF0000.
Definition csl_value (csl : Z) (protect : bool) (value : Z) : Z :=
  Z.lor (Z.land value (not32 (csl_mask csl)))
        (Z.land (if protect then 0x33333333 else 0xFFFFFFFF) (csl_mask csl)).
Definition sa_value (master : Z) (secure : bool) (value : Z) : Z :=
  let mask := shl32 3 (2 * master) in
  Z.lor (Z.land value (not32 mask)) (Z.land (if secure then 0 else 0x55555555) mask).

Section csu.
Context {P : Type} {plat : Platform P} {cfg : Config}.
Abbreviation K := (M (kernel P)).

Definition get_csu {A} (f : csu_data -> A) : K A := gets (fun s => f (k_csu s)).
Definition modify_csu (f : csu_data -> csu_data) : K unit :=
  modify (fun s => set_k_csu (f (k_csu s)) s).

(** The hardware update of [csu_set_csl]. *)
Definition csu_write_csl (csl : Z) (protect : bool) : K unit :=
  base <- get_csu csu_base;;
  let csl_addr := base + 4 * Z.shiftr csl 1 in
  value <- read32 csl_addr;; write32 (csl_value csl protect value) csl_addr.

Definition csu_set_csl (csl : Z) (protect : bool) : K unit :=
  massert (ret ((0 <=? csl) && (csl <? MAX_CSL)));;;
  counts <- get_csu csu_csl_counts;;
  count <- aget counts csl;;
  update <- (if protect then
      new <- int_result (count + 1);; counts <- aset counts csl new;;
      modify_csu (set_csu_csl_counts counts);;; ret (count =? 0)
    else
      new <- int_result (count - 1);; counts <- aset counts csl new;;
      modify_csu (set_csu_csl_counts counts);;;
      massert (ret (0 <=? new));;; ret (count =? 1));;
  when update (csu_write_csl csl protect).

Definition csu_is_csl_protected (csl : Z) : K bool :=
  massert (ret ((0 <=? csl) && (csl <? MAX_CSL)));;;
  counts <- get_csu csu_csl_counts;; count <- aget counts csl;; ret (0 <? count).

Definition csu_set_sa (master : Z) (secure : bool) : K unit :=
  massert (ret ((0 <=? master) && (master <? MAX_SA)));;;
  base <- get_csu csu_base;;
  let sa_addr := base + 0x218 in
  value <- read32 sa_addr;; write32 (sa_value master secure value) sa_addr.

Definition csu_init (base : Z) : K unit :=
  va <- phys_to_virt base MEM_AREA_IO_SEC;;
  modify_csu (set_csu_base va);;;
  if va =? 0 then panic
  else
  for_each (seqZ 0 MAX_CSL) (fun c =>
    counts <- get_csu csu_csl_counts;; counts <- aset counts c 1;;
    modify_csu (set_csu_csl_counts counts);;; csu_set_csl c false);;;
  for_each (seqZ 1 (MAX_SA - 1)) (fun m =>
    if (m =? 6) || (m =? 15) then ret tt else csu_set_sa m false).
End csu.

(** ** State of the unit *)

Definition csl_addr (base csl : Z) : Z := base + 4 * Z.shiftr csl 1.
(** The field of [csl] in the hardware. *)
Definition csl_of_reg (csl v : Z) : Z := Z.land (Z.shiftr v (16 * (csl mod 2))) 0xFF.
Definition csl_field {P} `{Platform P} (p : P) (base csl : Z) : Z :=
  csl_of_reg csl (reg p (csl_addr base csl)).
Definition sa_field {P} `{Platform P} (p : P) (base m : Z) : Z :=
  Z.land (Z.shiftr (reg p (base + 0x218)) (2 * m)) 3.

(** The registers of the unit: the CSL words and the SA word. *)
Definition csu_window (base a : Z) : Prop :=
  (exists k, 0 <= k < 40 /\ a = base + 4 * k) \/ a = base + 0x218.

Definition csl_count (c : csu_data) (csl : Z) : Z := csu_csl_counts c !!! Z.to_nat csl.

(** The unit is mapped, and hardware and counters agree. *)
Record csu_ok {P} `{Platform P} (s : kernel P) : Prop := {
  csu_ok_base : 0 < csu_base (k_csu s) /\ csu_base (k_csu s) + 0x21c <= 2 ^ 32;
  csu_ok_len : length (csu_csl_counts (k_csu s)) = 80%nat;
  csu_ok_count : forall csl, 0 <= csl < MAX_CSL -> 0 <= csl_count (k_csu s) csl;
  csu_ok_field : forall csl, 0 <= csl < MAX_CSL ->
    csl_field (k_plat s) (csu_base (k_csu s)) csl =
      (if 0 <? csl_count (k_csu s) csl then 0x33 else 0xFF);
}.

(** ** Field arithmetic *)

Lemma csl_mask_testbit csl i :
  0 <= csl -> 0 <= i ->
  Z.testbit (csl_mask csl) i = (16 * (csl mod 2) <=? i) && (i <? 16 * (csl mod 2) + 8).
Proof.
  intros Hc Hi. unfold csl_mask. rewrite Z.rem_mod_nonneg by lia.
  pose proof (Z.mod_pos_bound csl 2 ltac:(lia)).
  assert (Hb : forall k, Z.testbit (Z.shiftl (Z.ones 8) k) i = (k <=? i) && (i <? k + 8)).
  { intros k. rewrite Z.shiftl_spec by lia. destruct (Z.leb_spec k i); simpl.
    - destruct (Z.ltb_spec i (k + 8)).
      + by rewrite Z.ones_spec_low by lia.
      + by rewrite Z.ones_spec_high by lia.
    - by rewrite Z.testbit_neg_r by lia. }
  destruct (Z.eqb_spec (csl mod 2) 0) as [->|].
  - change 0xFF with (Z.shiftl (Z.ones 8) 0). by rewrite Hb.
  - replace (csl mod 2) with 1 by lia.
    change 0xFF0000 with (Z.shiftl (Z.ones 8) 16). by rewrite Hb.
Qed.

Lemma byte_testbit i : 0 <= i -> Z.testbit 0xFF i = (i <? 8).
Proof.
  intros. change 0xFF with (Z.ones 8). destruct (Z.ltb_spec i 8).
  - by rewrite Z.ones_spec_low by lia.
  - by rewrite Z.ones_spec_high by lia.
Qed.

Lemma csl_of_reg_testbit csl v i :
  0 <= i -> Z.testbit (csl_of_reg csl v) i = (i <? 8) && Z.testbit v (i + 16 * (csl mod 2)).
Proof.
  intros. unfold csl_of_reg. rewrite Z.land_spec, Z.shiftr_spec, byte_testbit by lia. apply andb_comm.
Qed.

Lemma csl_value_testbit csl protect v i :
  0 <= csl -> 0 <= i < 32 ->
  Z.testbit (csl_value csl protect v) i =
    if (16 * (csl mod 2) <=? i) && (i <? 16 * (csl mod 2) + 8)
    then (if protect then Z.testbit 0x33333333 i else true) else Z.testbit v i.
Proof.
  intros. unfold csl_value. autorewrite with word_bits; try lia.
  rewrite csl_mask_testbit by lia. rewrite (proj2 (Z.ltb_lt i 32)) by lia.
  assert (Hf : Z.testbit 0xFFFFFFFF i = true).
  { change 0xFFFFFFFF with (Z.ones 32). by rewrite Z.ones_spec_low by lia. }
  destruct ((_ <=? _) && _), protect, (Z.testbit v i); simpl; rewrite ?Hf, ?andb_true_r, ?andb_false_r;
    done.
Qed.

Lemma csl_of_reg_value csl protect v :
  0 <= csl -> csl_of_reg csl (csl_value csl protect v) = if protect then 0x33 else 0xFF.
Proof.
  intros. pose proof (Z.mod_pos_bound csl 2 ltac:(lia)). apply Z.bits_inj'. intros i Hi.
  rewrite csl_of_reg_testbit by lia. destruct (Z.ltb_spec i 8) as [Hlt|Hge]; simpl.
  - rewrite csl_value_testbit by lia.
    rewrite (proj2 (Z.leb_le _ _)), (proj2 (Z.ltb_lt _ _)) by lia. simpl.
    destruct protect; [|by rewrite byte_testbit, (proj2 (Z.ltb_lt _ _)) by lia].
    assert (i ∈ seqZ 0 8) as Hin by (apply elem_of_seqZ; lia).
    assert (csl mod 2 = 0 \/ csl mod 2 = 1) as [-> | ->] by lia;
      repeat (apply elem_of_cons in Hin as [->|Hin]; [reflexivity|]); by apply elem_of_nil in Hin.
  - symmetry. apply Z.bits_above_log2; destruct protect; simpl; lia.
Qed.

(** The other field of the same register is kept. *)
Lemma csl_of_reg_value_other csl csl' protect v :
  0 <= csl -> 0 <= csl' -> csl mod 2 <> csl' mod 2 ->
  csl_of_reg csl' (csl_value csl protect v) = csl_of_reg csl' v.
Proof.
  intros Hc Hc' Hne. apply Z.bits_inj'. intros i Hi. rewrite !csl_of_reg_testbit by lia.
  destruct (Z.ltb_spec i 8) as [Hlt|]; simpl; [|done].
  pose proof (Z.mod_pos_bound csl 2 ltac:(lia)). pose proof (Z.mod_pos_bound csl' 2 ltac:(lia)).
  rewrite csl_value_testbit by lia.
  assert (csl mod 2 = 0 /\ csl' mod 2 = 1 \/ csl mod 2 = 1 /\ csl' mod 2 = 0) as [[-> ->]|[-> ->]] by lia.
  - by rewrite (proj2 (Z.ltb_ge (i + 16 * 1) _)), andb_false_r by lia.
  - by rewrite (proj2 (Z.leb_gt _ (i + 16 * 0))) by lia.
Qed.

Lemma csl_value_u32 csl protect v : is_u32 v -> is_u32 (csl_value csl protect v).
Proof.
  intros. unfold csl_value. apply is_u32_lor; apply is_u32_land_l; auto with word.
  - apply not32_range.
  - destruct protect; unfold is_u32; lia.
  - unfold csl_mask. destruct (_ =? _); lia.
Qed.

(** ** Effect of one call *)

Definition csu_bump (csl d : Z) (c : csu_data) : csu_data :=
  set_csu_csl_counts (<[Z.to_nat csl := csl_count c csl + d]> (csu_csl_counts c)) c.
(** The platform after the field was rewritten, when the count left or
    reached 0. *)
Definition csu_plat {P} `{Platform P} (csl : Z) (protect : bool) (c : csu_data) (p : P) : P :=
  if csl_count c csl =? (if protect then 0 else 1) then
    io_write 4 (u32 (csl_addr (csu_base c) csl))
      (csl_value csl protect (reg p (csl_addr (csu_base c) csl))) p
  else p.
Definition csu_step {P} `{Platform P} (csl : Z) (protect : bool) (s : kernel P) : kernel P :=
  set_k_plat (csu_plat csl protect (k_csu s) (k_plat s))
    (set_k_csu (csu_bump csl (if protect then 1 else -1) (k_csu s)) s).

Lemma csl_count_bump c csl csl' d :
  length (csu_csl_counts c) = 80%nat -> 0 <= csl < MAX_CSL -> 0 <= csl' ->
  csl_count (csu_bump csl d c) csl' = if csl' =? csl then csl_count c csl + d else csl_count c csl'.
Proof.
  intros Hl Hc Hc'. unfold csl_count at 1. simpl. unfold MAX_CSL in Hc.
  destruct (Z.eqb_spec csl' csl) as [->|].
  - by rewrite list_lookup_total_insert_eq by lia.
  - by rewrite list_lookup_total_insert_ne by lia.
Qed.

Lemma csl_lookup c csl :
  length (csu_csl_counts c) = 80%nat -> 0 <= csl < MAX_CSL ->
  csu_csl_counts c !! Z.to_nat csl = Some (csl_count c csl).
Proof. unfold MAX_CSL. intros. apply list_lookup_lookup_total_lt. lia. Qed.

Section csu_effect.
Context {P : Type} {plat : Platform P} {cfg : Config} (R : Z -> Prop) {regs : PlainRegs P R}.
Implicit Types s : kernel P.

Definition csu_mapped (s : kernel P) : Prop := forall a, csu_window (csu_base (k_csu s)) a -> R a.

Lemma csl_addr_u32 base csl :
  0 < base -> base + 0x21c <= 2 ^ 32 -> 0 <= csl < MAX_CSL ->
  u32 (csl_addr base csl) = csl_addr base csl /\ csu_window base (csl_addr base csl).
Proof.
  unfold MAX_CSL, csl_addr. intros. rewrite Z.shiftr_div_pow2 by lia. change (2 ^ 1) with 2.
  assert (0 <= csl / 2 < 40) by (split; [apply Z.div_pos|apply Z.div_lt_upper_bound]; lia).
  split; [apply u32_small; unfold is_u32; lia|]. left. by exists (csl / 2).
Qed.

Lemma csu_write_csl_run s csl protect :
  0 < csu_base (k_csu s) -> csu_base (k_csu s) + 0x21c <= 2 ^ 32 -> csu_mapped s -> 0 <= csl < MAX_CSL ->
  csu_write_csl csl protect s =
    Ret tt (set_k_plat (io_write 4 (u32 (csl_addr (csu_base (k_csu s)) csl))
      (csl_value csl protect (reg (k_plat s) (csl_addr (csu_base (k_csu s)) csl))) (k_plat s)) s).
Proof.
  intros Hb1 Hb2 HR Hc. destruct (csl_addr_u32 _ _ Hb1 Hb2 Hc) as [Hu Hw].
  unfold csu_write_csl, get_csu. erewrite bind_run by done.
  rewrite (bind_run _ _ _ _ _ (read32_reg R (csl_addr (csu_base (k_csu s)) csl) s ltac:(rewrite Hu; by apply HR))).
  unfold write32, io_store. rewrite Z.mod_small; [done|]. apply (csl_value_u32 _ _ _ (reg_u32 _ _)).
Qed.

Lemma aset_counts (c : csu_data) csl v (s : kernel P) :
  length (csu_csl_counts c) = 80%nat -> 0 <= csl < MAX_CSL ->
  aset (csu_csl_counts c) csl v s = Ret (<[Z.to_nat csl := v]> (csu_csl_counts c)) s.
Proof.
  intros Hl Hc. unfold MAX_CSL in Hc. rewrite <- (Z2Nat.id csl) at 1 by lia. apply aset_insert. lia.
Qed.
Lemma aget_counts (c : csu_data) csl (s : kernel P) :
  length (csu_csl_counts c) = 80%nat -> 0 <= csl < MAX_CSL ->
  aget (csu_csl_counts c) csl s = Ret (csl_count c csl) s.
Proof.
  intros Hl Hc. rewrite <- (Z2Nat.id csl) at 1 by (unfold MAX_CSL in Hc; lia).
  apply aget_lookup. by apply csl_lookup.
Qed.

(** One call whose counter does not over- or underflow, on a unit that is
    mapped (its fields need not agree with the counters yet). *)
Lemma csu_set_csl_run s csl (protect : bool) :
  0 < csu_base (k_csu s) -> csu_base (k_csu s) + 0x21c <= 2 ^ 32 ->
  length (csu_csl_counts (k_csu s)) = 80%nat -> csu_mapped s -> 0 <= csl < MAX_CSL ->
  (if protect then 0 <= csl_count (k_csu s) csl < 2 ^ 31 - 1 else 0 < csl_count (k_csu s) csl < 2 ^ 31) ->
  csu_set_csl csl protect s = Ret tt (csu_step csl protect s).
Proof.
  intros Hb1 Hb2 Hl HR Hc Hcnt.
  unfold csu_set_csl. erewrite bind_run by (apply massert_run; unfold MAX_CSL in *; lia).
  unfold get_csu. erewrite bind_run by done. erewrite bind_run by (by apply aget_counts).
  assert (Hw : forall b : bool,
    when b (csu_write_csl csl protect) (set_k_csu (csu_bump csl (if protect then 1 else -1) (k_csu s)) s) =
    Ret tt (set_k_plat (if b then io_write 4 (u32 (csl_addr (csu_base (k_csu s)) csl))
      (csl_value csl protect (reg (k_plat s) (csl_addr (csu_base (k_csu s)) csl))) (k_plat s) else k_plat s)
      (set_k_csu (csu_bump csl (if protect then 1 else -1) (k_csu s)) s))).
  { intros [|]; [|by destruct s].
    exact (csu_write_csl_run (set_k_csu (csu_bump csl (if protect then 1 else -1) (k_csu s)) s) _ _ Hb1 Hb2 HR Hc). }
  unfold csu_step, csu_plat. destruct protect.
  - erewrite bind_run; [exact (Hw _)|].
    erewrite bind_run by (apply int_result_run; lia). by erewrite bind_run by (by apply aset_counts).
  - erewrite bind_run; [exact (Hw _)|].
    erewrite bind_run by (apply int_result_run; lia). erewrite bind_run by (by apply aset_counts).
    erewrite bind_run by done. erewrite bind_run by (apply massert_run; lia). done.
Qed.

(** The step changes one counter. *)
Lemma csu_step_count s csl csl' protect :
  length (csu_csl_counts (k_csu s)) = 80%nat -> 0 <= csl < MAX_CSL -> 0 <= csl' ->
  csl_count (k_csu (csu_step csl protect s)) csl' =
    csl_count (k_csu s) csl' + (if csl' =? csl then (if protect then 1 else -1) else 0).
Proof.
  intros. simpl. rewrite csl_count_bump by done. destruct (Z.eqb_spec csl' csl) as [->|]; lia.
Qed.

(** Registers away from the CSL words keep their contents. *)
Lemma csu_step_frame (R' : Z -> Prop) {regs' : PlainRegs P R'} s csl protect a :
  0 < csu_base (k_csu s) -> csu_base (k_csu s) + 0x21c <= 2 ^ 32 -> 0 <= csl < MAX_CSL ->
  R' (u32 a) -> (forall k, 0 <= k < 40 -> apart (u32 a) 4 (csu_base (k_csu s) + 4 * k) 4) ->
  reg (k_plat (csu_step csl protect s)) a = reg (k_plat s) a.
Proof.
  intros Hb1 Hb2 Hc HR Hap. simpl. unfold csu_plat. destruct (_ =? _); [|done].
  destruct (csl_addr_u32 _ _ Hb1 Hb2 Hc) as [Hu _].
  apply (reg_write_other R'); [done|lia|]. rewrite Hu. apply Hap. unfold MAX_CSL in Hc.
  rewrite Z.shiftr_div_pow2 by lia. change (2 ^ 1) with 2.
  split; [apply Z.div_pos|apply Z.div_lt_upper_bound]; lia.
Qed.

Lemma csl_field_step s csl csl' protect :
  0 < csu_base (k_csu s) -> csu_base (k_csu s) + 0x21c <= 2 ^ 32 -> csu_mapped s ->
  0 <= csl < MAX_CSL -> 0 <= csl' < MAX_CSL ->
  csl_field (k_plat (csu_step csl protect s)) (csu_base (k_csu s)) csl' =
    if (csl' =? csl) && (csl_count (k_csu s) csl =? (if protect then 0 else 1))
    then (if protect then 0x33 else 0xFF)
    else csl_field (k_plat s) (csu_base (k_csu s)) csl'.
Proof.
  intros Hb1 Hb2 HR Hc Hc'. simpl. unfold csu_plat. destruct (csl_count _ _ =? _); [|by rewrite andb_false_r].
  rewrite andb_true_r. unfold csl_field.
  destruct (csl_addr_u32 _ _ Hb1 Hb2 Hc) as [Hu Hw], (csl_addr_u32 _ _ Hb1 Hb2 Hc') as [Hu' Hw'].
  destruct (decide (csl_addr (csu_base (k_csu s)) csl' = csl_addr (csu_base (k_csu s)) csl)) as [He|Hne].
  - rewrite He, (reg_write_same R) by (rewrite Hu; by apply HR).
    rewrite u32_small by apply csl_value_u32, reg_u32.
    destruct (Z.eqb_spec csl' csl) as [->|Hn]; [apply csl_of_reg_value; lia|].
    apply csl_of_reg_value_other; [lia..|]. unfold csl_addr in He. rewrite !Z.shiftr_div_pow2 in He by lia.
    change (2 ^ 1) with 2 in He. pose proof (Z.div_mod csl 2). pose proof (Z.div_mod csl' 2). lia.
  - destruct (Z.eqb_spec csl' csl) as [->|Hn]; [done|].
    rewrite (reg_write_other R); [done|rewrite Hu'; by apply HR|lia|]. rewrite Hu, Hu'.
    unfold csl_addr, apart in *. lia.
Qed.

Lemma csu_step_ok s csl (protect : bool) :
  csu_ok s -> csu_mapped s -> 0 <= csl < MAX_CSL -> (protect = false -> 0 < csl_count (k_csu s) csl) ->
  csu_ok (csu_step csl protect s).
Proof.
  intros [[Hb1 Hb2] Hl Hn Hf] HR Hc Hp. split.
  - done.
  - simpl. by rewrite length_insert.
  - intros csl' Hc'. rewrite csu_step_count by (done || lia). specialize (Hn csl' Hc').
    destruct (Z.eqb_spec csl' csl) as [->|]; destruct protect; lia.
  - intros csl' Hc'. change (csu_base (k_csu (csu_step csl protect s))) with (csu_base (k_csu s)).
    rewrite csl_field_step, csu_step_count, Hf by (done || lia). specialize (Hn csl' Hc').
    destruct (Z.eqb_spec csl' csl) as [->|]; simpl; [|by rewrite Z.add_0_r].
    destruct protect; [destruct (Z.eqb_spec (csl_count (k_csu s) csl) 0)|
      specialize (Hp eq_refl); destruct (Z.eqb_spec (csl_count (k_csu s) csl) 1)];
      repeat case_match; lia.
Qed.
End csu_effect.

(** ** Initialisation *)

Lemma pair_mask_testbit m i :
  0 <= m < MAX_SA -> 0 <= i < 32 -> Z.testbit (shl32 3 (2 * m)) i = (i / 2 =? m).
Proof.
  unfold MAX_SA. intros Hm Hi. rewrite shl32_testbit, (proj2 (Z.ltb_lt i 32)) by lia. simpl.
  pose proof (Z.div_mod i 2 ltac:(lia)). pose proof (Z.mod_pos_bound i 2 ltac:(lia)).
  destruct (Z.eqb_spec (i / 2) m) as [<-|Hne].
  - assert (i - 2 * (i / 2) = 0 \/ i - 2 * (i / 2) = 1) as [-> | ->] by lia; reflexivity.
  - destruct (Z.ltb_spec (i - 2 * m) 0); [by rewrite Z.testbit_neg_r by lia|].
    apply Z.bits_above_log2; simpl; lia.
Qed.

Lemma sa_value_testbit m secure v i :
  0 <= m < MAX_SA -> 0 <= i < 32 ->
  Z.testbit (sa_value m secure v) i =
    if i / 2 =? m then negb secure && Z.testbit 0x55555555 i else Z.testbit v i.
Proof.
  intros Hm Hi. unfold sa_value.
  rewrite Z.lor_spec, !Z.land_spec, not32_testbit, pair_mask_testbit, (proj2 (Z.ltb_lt i 32)) by lia.
  destruct (i / 2 =? m), secure, (Z.testbit v i); simpl;
    rewrite ?Z.bits_0, ?andb_true_r, ?andb_false_r, ?orb_false_r; done.
Qed.

Lemma sa_value_u32 m secure v : is_u32 v -> is_u32 (sa_value m secure v).
Proof.
  intros. unfold sa_value. apply is_u32_lor; apply is_u32_land_l; auto with word.
  - apply not32_range.
  - destruct secure; unfold is_u32; lia.
  - apply u32_range.
Qed.

Lemma alternating_bits m i : 0 <= m < 16 -> 0 <= i < 2 -> Z.testbit 0x55555555 (i + 2 * m) = Z.testbit 1 i.
Proof.
  intros Hm Hi. assert (m ∈ seqZ 0 16) as Hin by (apply elem_of_seqZ; lia).
  assert (i = 0 \/ i = 1) as [-> | ->] by lia;
    repeat (apply elem_of_cons in Hin as [->|Hin]; [reflexivity|]); by apply elem_of_nil in Hin.
Qed.

(** The masters [csu_init] makes non-secure. *)
Definition sa_init_master (m : Z) : bool := (1 <=? m) && (m <? 15) && negb (m =? 6).

Section csu_init.
Context {P : Type} {plat : Platform P} {cfg : Config} (R : Z -> Prop) {regs : PlainRegs P R}.
Implicit Types s : kernel P.

Lemma csu_set_sa_run s m secure :
  0 < csu_base (k_csu s) -> csu_base (k_csu s) + 0x21c <= 2 ^ 32 -> csu_mapped R s -> 0 <= m < MAX_SA ->
  csu_set_sa m secure s =
    Ret tt (set_k_plat (io_write 4 (u32 (csu_base (k_csu s) + 0x218))
      (sa_value m secure (reg (k_plat s) (csu_base (k_csu s) + 0x218))) (k_plat s)) s).
Proof.
  intros Hb1 Hb2 HR Hm. unfold csu_set_sa. unfold MAX_SA in *.
  erewrite bind_run by (apply massert_run; lia). unfold get_csu. erewrite bind_run by done.
  assert (Hu : u32 (csu_base (k_csu s) + 0x218) = csu_base (k_csu s) + 0x218)
    by (apply u32_small; unfold is_u32; lia).
  erewrite bind_run by (apply (read32_reg R); rewrite Hu; apply HR; by right).
  unfold write32, io_store. rewrite Z.mod_small; [done|]. apply sa_value_u32, reg_u32.
Qed.

(** State of [csu_init] after the CSL fields in [done]. *)
Definition csl_cleared (s0 : kernel P) (va : Z) (done : list Z) s : Prop :=
  exists p c, s = set_k_plat p (set_k_csu c s0) /\ csu_base c = va /\
    length (csu_csl_counts c) = 80%nat /\
    reg p (va + 0x218) = reg (k_plat s0) (va + 0x218) /\
    forall csl, csl ∈ done -> csl_count c csl = 0 /\ csl_field p va csl = 0xFF.

Lemma csl_clear_step s0 va done c s :
  0 < va -> va + 0x21c <= 2 ^ 32 -> (forall a, csu_window va a -> R a) ->
  0 <= c < MAX_CSL -> (forall x, x ∈ done -> 0 <= x < c) -> csl_cleared s0 va done s ->
  wp (counts <- get_csu csu_csl_counts;; counts <- aset counts c 1;;
      modify_csu (set_csu_csl_counts counts);;; csu_set_csl c false) s
     (fun _ => csl_cleared s0 va (done ++ [c])).
Proof.
  intros Hb1 Hb2 HR Hc Hdone (p & d & -> & Hb & Hl & Hsa & Hf). subst va.
  set (d1 := set_csu_csl_counts (<[Z.to_nat c := 1]> (csu_csl_counts d)) d).
  set (s1 := set_k_plat p (set_k_csu d1 s0) : kernel P).
  assert (Hcnt : csl_count d1 c = 1).
  { unfold csl_count. simpl. unfold MAX_CSL in Hc. by rewrite list_lookup_total_insert_eq by lia. }
  assert (Hcnt' : forall x, x ∈ done -> csl_count d1 x = csl_count d x).
  { intros x Hx. specialize (Hdone _ Hx). unfold csl_count. simpl.
    by rewrite list_lookup_total_insert_ne by lia. }
  assert (Hl1 : length (csu_csl_counts (k_csu s1)) = 80%nat) by (simpl; by rewrite length_insert).
  eapply wp_intro.
  { unfold get_csu. erewrite bind_run by done. erewrite bind_run by (by apply aset_counts).
    erewrite bind_run by done. apply (csu_set_csl_run R s1); [done|done|done|done|done|].
    change (k_csu s1) with d1. rewrite Hcnt. lia. }
  eexists _, _. split; [reflexivity|]. split_and!; [done|simpl; by rewrite !length_insert| |].
  - rewrite <- Hsa. apply (csu_step_frame R s1 c false (csu_base d + 0x218)); [done|done|done| |].
    + rewrite u32_small by (unfold is_u32; lia). apply HR. by right.
    + intros k Hk. rewrite u32_small by (unfold is_u32; lia). unfold apart. simpl. lia.
  - intros x Hx. apply elem_of_app in Hx.
    assert (Hx' : 0 <= x < MAX_CSL) by (destruct Hx as [Hx|Hx]; [specialize (Hdone _ Hx); lia|]; by apply list_elem_of_singleton in Hx as ->).
    pose proof (csu_step_count s1 c x false Hl1 Hc ltac:(lia)) as Hn.
    pose proof (csl_field_step R s1 c x false Hb1 Hb2 HR Hc Hx') as Hfl.
    change (k_csu s1) with d1 in Hn, Hfl. rewrite Hcnt in Hfl.
    split; [etrans; [exact Hn|]|etrans; [exact Hfl|]]; clear Hn Hfl; destruct Hx as [Hx|Hx].
    + specialize (Hdone _ Hx). rewrite (proj2 (Z.eqb_neq x c)), Hcnt' by (done || lia).
      rewrite (proj1 (Hf _ Hx)). done.
    + apply list_elem_of_singleton in Hx as ->. rewrite Z.eqb_refl, Hcnt. done.
    + specialize (Hdone _ Hx). rewrite (proj2 (Z.eqb_neq x c)) by lia. exact (proj2 (Hf _ Hx)).
    + apply list_elem_of_singleton in Hx as ->. by rewrite Z.eqb_refl.
Qed.

(** State of [csu_init] after the masters in [done]. *)
Definition sa_opened (s0 : kernel P) (va v0 : Z) (done : list Z) s : Prop :=
  exists p, s = set_k_plat p s0 /\
    (forall csl, 0 <= csl < MAX_CSL -> csl_field p va csl = csl_field (k_plat s0) va csl) /\
    forall i, 0 <= i < 32 -> Z.testbit (reg p (va + 0x218)) i =
      if bool_decide (i / 2 ∈ done) && sa_init_master (i / 2) then Z.testbit 0x55555555 i
      else Z.testbit v0 i.

Lemma sa_open_step s0 va v0 done m s :
  0 < va -> va + 0x21c <= 2 ^ 32 -> (forall a, csu_window va a -> R a) -> csu_base (k_csu s0) = va ->
  1 <= m < MAX_SA -> sa_opened s0 va v0 done s ->
  wp (if (m =? 6) || (m =? 15) then ret tt else csu_set_sa m false) s
     (fun _ => sa_opened s0 va v0 (done ++ [m])).
Proof.
  intros Hb1 Hb2 HR Hb Hm (p & -> & Hf & Ht). unfold MAX_SA in Hm. destruct ((m =? 6) || (m =? 15)) eqn:Em.
  - apply wp_ret. exists p. split_and!; [done..|]. intros i Hi. rewrite Ht by done.
    destruct (sa_init_master (i / 2)) eqn:Es; [|by rewrite !andb_false_r].
    assert (Hne : i / 2 <> m) by (unfold sa_init_master in Es; lia).
    by rewrite bool_decide_snoc_ne by done.
  - subst va. assert (Hu : u32 (csu_base (k_csu s0) + 0x218) = csu_base (k_csu s0) + 0x218)
      by (apply u32_small; unfold is_u32; lia).
    eapply wp_intro; [apply csu_set_sa_run; [done..|unfold MAX_SA; lia]|].
    eexists. split; [reflexivity|]. simpl. split.
    + intros csl Hc. rewrite <- Hf by done. unfold csl_field.
      destruct (csl_addr_u32 _ _ Hb1 Hb2 Hc) as [Hu' Hw]. rewrite (reg_write_other R); [done| |lia|].
      { rewrite Hu'. by apply HR. }
      rewrite Hu, Hu'. unfold apart, csl_addr, MAX_CSL in *. rewrite Z.shiftr_div_pow2 by lia.
      change (2 ^ 1) with 2. pose proof (Z.div_lt_upper_bound csl 2 40). lia.
    + intros i Hi. rewrite (reg_write_same R) by (rewrite Hu; apply HR; by right).
      rewrite u32_small by apply sa_value_u32, reg_u32.
      rewrite sa_value_testbit, Ht by (unfold MAX_SA; lia). simpl.
      destruct (Z.eqb_spec (i / 2) m) as [->|Hne].
      * rewrite bool_decide_snoc_eq.
        by replace (sa_init_master m) with true by (unfold sa_init_master; lia).
      * by rewrite bool_decide_snoc_ne by done.
Qed.

Lemma csu_init_run s base va :
  phys_to_virt base MEM_AREA_IO_SEC s = Ret va s ->
  0 < va -> va + 0x21c <= 2 ^ 32 -> (forall a, csu_window va a -> R a) ->
  length (csu_csl_counts (k_csu s)) = 80%nat ->
  wp (csu_init base) s (fun _ s' => exists s1,
    csl_cleared s va (seqZ 0 MAX_CSL) s1 /\ csu_base (k_csu s1) = va /\
    sa_opened s1 va (reg (k_plat s) (va + 0x218)) (seqZ 1 (MAX_SA - 1)) s').
Proof.
  intros Hv Hb1 Hb2 HR Hl. unfold csu_init. apply wp_bind. eapply wp_intro; [exact Hv|].
  apply wp_bind. eapply wp_intro; [reflexivity|]. rewrite (proj2 (Z.eqb_neq va 0)) by lia.
  apply wp_bind. eapply wp_mono; cycle 1.
  { apply (wp_for_each (csl_cleared s va)).
    - exists (k_plat s), (set_csu_base va (k_csu s)). split_and!; [by destruct s|done|done|done|].
      by intros ? ?%elem_of_nil.
    - intros done c rest s' Heq HI. apply seqZ_prefix in Heq as [Hc Hd].
      apply csl_clear_step; [done..| |done]. intros x Hx. specialize (Hd _ Hx). lia. }
  intros [] s1 Hc1. assert (Hbase : csu_base (k_csu s1) = va) by (by destruct Hc1 as (? & ? & -> & ? & _)).
  eapply wp_mono; [|apply (wp_for_each (sa_opened s1 va (reg (k_plat s) (va + 0x218))))].
  { intros [] s2 H2. by exists s1. }
  - exists (k_plat s1). split_and!; [by destruct s1|done|]. intros i Hi.
    destruct Hc1 as (p & c & Hs1 & _ & _ & Hr & _). by rewrite Hs1, <- Hr.
  - intros done m rest s' Heq HI. apply seqZ_prefix in Heq as [Hm _].
    apply sa_open_step; [done..| |done]. unfold MAX_SA in *. lia.
Qed.
End csu_init.

(** ** Properties *)

(** C20: one call of [csu_set_csl] on a field in range, when the counter does
    not overflow and an unprotect matches an earlier protect, returns; it
    moves that counter by one, keeps every other counter, keeps hardware and
    counters in agreement (a field reads 0x33, non-secure access denied, while
    its count is positive and 0xFF otherwise), and changes nothing else of
    the kernel.  An unprotect of a field whose count is 0 panics in a debug
    build. *)
Theorem csu_set_csl_correct {P} `{Platform P, Config} (R : Z -> Prop) `{!PlainRegs P R}
    (s : kernel P) csl (protect : bool) :
  csu_ok s -> csu_mapped R s -> 0 <= csl < MAX_CSL -> csl_count (k_csu s) csl < 2 ^ 31 - 1 ->
  (protect = true \/ 0 < csl_count (k_csu s) csl ->
   exists p c, csu_set_csl csl protect s = Ret tt (set_k_plat p (set_k_csu c s)) /\
     csu_ok (set_k_plat p (set_k_csu c s)) /\ csu_mapped R (set_k_plat p (set_k_csu c s)) /\
     forall csl', 0 <= csl' < MAX_CSL ->
       csl_count c csl' = csl_count (k_csu s) csl' +
         (if csl' =? csl then (if protect then 1 else -1) else 0)) /\
  (protect = false -> csl_count (k_csu s) csl = 0 -> cfg_ndebug = false ->
   csu_set_csl csl protect s = Panic).
Proof.
  intros Hok HR Hc Hmax. pose proof (csu_ok_count _ Hok csl Hc). pose proof (csu_ok_len _ Hok).
  destruct (csu_ok_base _ Hok) as [Hb1 Hb2]. split.
  - intros Hp. eexists _, _. split; [|split; [|split]].
    + apply (csu_set_csl_run R); [done..|]. destruct protect; [lia|]. destruct Hp; [done|lia].
    + apply (csu_step_ok R); [done..|]. intros ->. by destruct Hp.
    + exact HR.
    + intros. by apply (csu_step_count s csl); [done..|lia].
  - intros -> Hz Hdbg. unfold csu_set_csl. unfold MAX_CSL in Hc.
    erewrite bind_run by (apply massert_run; unfold MAX_CSL; lia). unfold get_csu. erewrite bind_run by done.
    erewrite bind_run by (by apply aget_counts). rewrite Hz. unfold bind at 1.
    erewrite bind_run by (apply int_result_run; lia). erewrite bind_run by (by apply aset_counts).
    unfold massert. by rewrite Hdbg.
Qed.

(** [csu_init] on a mapped unit returns with every count 0, every CSL
    field open to the non-secure world, the masters 1 to 14 except 6
    non-secure (field 01) and the fields of masters 0, 6 and 15 as they were,
    whatever the hardware held; a unit that cannot be mapped panics. *)
Theorem csu_init_correct {P} `{Platform P, Config} (R : Z -> Prop) `{!PlainRegs P R}
    (s : kernel P) base va :
  phys_to_virt base MEM_AREA_IO_SEC s = Ret va s ->
  length (csu_csl_counts (k_csu s)) = 80%nat ->
  (0 < va -> va + 0x21c <= 2 ^ 32 -> (forall a, csu_window va a -> R a) ->
   exists p c, csu_init base s = Ret tt (set_k_plat p (set_k_csu c s)) /\
     csu_ok (set_k_plat p (set_k_csu c s)) /\ csu_base c = va /\
     (forall csl, 0 <= csl < MAX_CSL -> csl_count c csl = 0 /\ csl_field p va csl = 0xFF) /\
     (forall m, 0 <= m < MAX_SA -> sa_field p va m =
        if sa_init_master m then 1 else sa_field (k_plat s) va m)) /\
  (va = 0 -> csu_init base s = Panic).
Proof.
  intros Hv Hl. split.
  - intros Hb1 Hb2 HR.
    destruct (wp_elim _ _ _ (csu_init_run R s base va Hv Hb1 Hb2 HR Hl)) as ([] & s' & Hrun & s1 & Hc1 & _ & Hsa).
    destruct Hc1 as (p1 & c & -> & Hb & Hlc & _ & Hclear).
    destruct Hsa as (p & -> & Hsame & Hbits). exists p, c.
    assert (Hall : forall csl, 0 <= csl < MAX_CSL -> csl_count c csl = 0 /\ csl_field p va csl = 0xFF).
    { intros csl Hcsl. rewrite Hsame by done. apply Hclear, elem_of_seqZ. lia. }
    split_and!; [done| |done|done|].
    + split; simpl; [lia|done|intros csl Hcsl; rewrite (proj1 (Hall csl Hcsl)); lia|].
      intros csl Hcsl. rewrite Hb. destruct (Hall csl Hcsl) as [-> ->]. done.
    + intros m Hm. unfold MAX_SA in Hm. unfold sa_field.
      assert (Hext : forall v w, (forall i, 0 <= i < 2 -> Z.testbit v (i + 2 * m) = Z.testbit w i) ->
                Z.land (Z.shiftr v (2 * m)) 3 = Z.land w 3).
      { intros v w Hvw. apply Z.bits_inj'. intros i Hi. rewrite !Z.land_spec, Z.shiftr_spec by lia.
        destruct (Z.ltb_spec i 2); [by rewrite Hvw by lia|].
        replace (Z.testbit 3 i) with false; [by rewrite !andb_false_r|].
        symmetry. apply Z.bits_above_log2; simpl; lia. }
      rewrite (Hext _ (if sa_init_master m then 1 else Z.shiftr (reg (k_plat s) (va + 0x218)) (2 * m))).
      { by destruct (sa_init_master m). }
      intros i Hi. rewrite Hbits by lia.
      replace ((i + 2 * m) / 2) with m by (apply Z.div_unique with i; lia).
      destruct (sa_init_master m) eqn:Em; [|by rewrite andb_false_r, Z.shiftr_spec by lia].
      unfold sa_init_master in Em.
      rewrite bool_decide_eq_true_2, andb_true_l by (apply elem_of_seqZ; unfold MAX_SA; lia).
      apply alternating_bits; lia.
  - intros ->. unfold csu_init. by erewrite bind_run by exact Hv.
Qed.

(** A unit at 0x021C0000, mapped flat. *)
Definition csu_demo : kernel bigram :=
  set_k_mmu (MmuData [TeeMmapRegion MEM_AREA_IO_SEC 0x100000 0x02000000 0x02000000 0x00200000 0] ∅ ∅ 0)
    (kernel_init (mk_bigram ∅)).
#[local] Instance csu_demo_cfg : Config := { cfg_ndebug := false }.

Lemma csu_init_witness :
  csu_init 0x021C0000 csu_demo <> Panic /\
  exists p c, csu_init 0x021C0000 csu_demo = Ret tt (set_k_plat p (set_k_csu c csu_demo)) /\
    sa_field p 0x021C0000 1 = 1.
Proof.
  destruct (csu_init_correct (fun _ => True) csu_demo 0x021C0000 0x021C0000) as [H _];
    [vm_compute; reflexivity|reflexivity|].
  destruct (H ltac:(lia) ltac:(lia) (fun _ _ => I)) as (p & c & Hr & _ & _ & _ & Hsa).
  split; [by rewrite Hr|]. exists p, c. split; [done|]. apply Hsa. unfold MAX_SA. lia.
Defined.

(** The same unit after initialisation: every peripheral is open. *)
Definition csu_open_regs : bigram :=
  mk_bigram (foldr (fun k m => <[0x021C0000 + 4 * k := 0x00FF00FF]> m) ∅ (seqZ 0 40)).
Definition csu_open_data : csu_data := CsuData 0x021C0000 (replicate 80 0).
Lemma csu_open_ok (s : kernel bigram) :
  k_csu s = csu_open_data -> (forall csl, 0 <= csl < MAX_CSL -> reg (k_plat s) (csl_addr 0x021C0000 csl) = reg csu_open_regs (csl_addr 0x021C0000 csl)) -> csu_ok s.
Proof.
  intros Hc Hp. split; rewrite ?Hc; [simpl; lia|done| |]; intros csl Hcsl; unfold MAX_CSL in Hcsl.
  - unfold csl_count, csu_open_data. cbn [csu_csl_counts]. rewrite lookup_total_replicate_2 by lia. lia.
  - assert (Hall : forallb (fun c => csl_field csu_open_regs 0x021C0000 c =? 0xFF) (seqZ 0 80) = true)
      by (vm_compute; reflexivity).
    rewrite forallb_forall in Hall. specialize (Hall csl). rewrite <- list_elem_of_In, elem_of_seqZ in Hall.
    specialize (Hall Hcsl). apply Z.eqb_eq in Hall. unfold csl_count, csu_open_data. cbn [csu_csl_counts csu_base].
    rewrite lookup_total_replicate_2 by lia. unfold csl_field in *. by rewrite Hp by (unfold MAX_CSL; lia).
Qed.

Lemma csu_set_csl_witness :
  let s := set_k_csu csu_open_data (set_k_plat csu_open_regs csu_demo) in
  exists p c, csu_set_csl 61 true s = Ret tt (set_k_plat p (set_k_csu c s)) /\ csl_count c 61 = 1.
Proof.
  intros s.
  assert (Hok : csu_ok s) by (by apply csu_open_ok).
  destruct (csu_set_csl_correct (fun _ => True) s 61 true Hok) as [H _]; [done|unfold MAX_CSL; lia|vm_compute; done|].
  destruct (H (or_introl eq_refl)) as (p & c & Hr & _ & _ & Hcnt). exists p, c. split; [done|].
  rewrite Hcnt by (unfold MAX_CSL; lia). vm_compute. reflexivity.
Defined.
