(* ===== verification/Emulation.v ===== *)
(** * Emulation of non-secure accesses (core/arch/arm/secloak/emulation.c)

    A data abort of the non-secure world on a protected peripheral reaches
    [emu_handle], which decodes the faulting load or store, asks the checks of
    the regions that contain the address, and performs or suppresses the
    access on behalf of the non-secure world. *)

From stdpp Require Import prelude gmap list.
From Stdlib Require Import ZArith Lia.
From S2P Require Import Prelude Platform State CoreMmu.
#[local] Open Scope Z_scope.
#[local] Open Scope kernel_scope.

Definition ENOMEM : Z := 12.
Definition EINVAL : Z := 22.
Definition ENODEV : Z := 19.
(** [sizeof(struct region)]: three words and the link. *)
Definition sizeof_region : Z := 16.

(** [emu_allow_all], [emu_deny_all] *)
Definition emu_allow_all (r : region) (address : Z) (state : emu_state) (value : option Z) : bool := true.
Definition emu_deny_all (r : region) (address : Z) (state : emu_state) (value : option Z) : bool := false.

(** The region test of [emu_check]. *)
Definition region_covers (address : Z) (r : region) : bool :=
  (rg_base r <=? address) && (address <=? u32 (rg_base r + rg_size r)).

(** The checks other drivers register: the answer and the value behind the
    [uint32_t *value] argument, which is [None] for [NULL]. *)
Class EmuClients (P : Type) := {
  gpio_check : region -> Z -> emu_state -> option Z -> M (kernel P) (bool * option Z);
  fb_check : region -> Z -> emu_state -> option Z -> M (kernel P) (bool * option Z);
}.

(** Sign extension of a loaded value. *)
Definition sign_extend (v size : Z) : Z :=
  if size =? 1 then if truth (Z.land v 0x80) then Z.lor v 0xFFFFFF00 else v
  else if size =? 2 then if truth (Z.land v 0x8000) then Z.lor v 0xFFFF0000 else v
  else v.

(** Where the transfer register [Rt] is saved. *)
Inductive reg_slot := SLOT_R0 (i : Z) | SLOT_R8 (i : Z) | SLOT_LR.
Definition reg_slot_of (rt : Z) : option reg_slot :=
  if rt <=? 7 then Some (SLOT_R0 rt)
  else if rt <=? 12 then Some (SLOT_R8 (rt - 8))
  else if rt =? 14 then Some SLOT_LR
  else None.

(** The decoding of [emu_handle]: what the instruction does. *)
Inductive access := LOAD (size : Z) (sign : bool) | STORE (size : Z).
Definition instr_rt (instr : Z) : Z := Z.land (Z.shiftr instr 12) 0xF.
Definition decode_access (instr : Z) : option access :=
  let instr_type := Z.land (Z.shiftr instr 25) 7 in
  if Z.land instr_type 6 =? 2 then
    let size := if truth (Z.land instr (bit32 22)) then 1 else 4 in
    Some (if truth (Z.land instr (bit32 20)) then LOAD size false else STORE size)
  else if instr_type =? 0 then
    let size := if truth (Z.land instr (bit32 5)) then 2 else 1 in
    Some (if truth (Z.land instr (bit32 20)) then LOAD size (truth (Z.land instr (bit32 6)))
          else STORE size)
  else None.

Section emulation.
Context {P : Type} {plat : Platform P} {cfg : Config} {clients : EmuClients P}.
Abbreviation K := (M (kernel P)).

Definition get_emu {A} (f : emu_data -> A) : K A := gets (fun s => f (k_emu s)).
Definition modify_emu (f : emu_data -> emu_data) : K unit :=
  modify (fun s => set_k_emu (f (k_emu s)) s).

Definition emu_add_region (base size : Z) (check : emu_check_t) : K Z :=
  ok <- malloc sizeof_region;;
  if negb ok then ret (- ENOMEM)
  else
    rs <- get_emu regions;;
    modify_emu (set_regions (Region base size check :: rs));;; ret 0.

(** [SLIST_REMOVE] of the first region equal to [r], if there is one. *)
Fixpoint remove_first (r : region) (l : list region) : option (list region) :=
  match l with
  | [] => None
  | x :: l' => if bool_decide (x = r) then Some l' else cons x <$> remove_first r l'
  end.

Definition emu_remove_region (base size : Z) (check : emu_check_t) : K unit :=
  rs <- get_emu regions;;
  match remove_first (Region base size check) rs with
  | Some rs' => modify_emu (set_regions rs');;; free sizeof_region
  | None => ret tt
  end.

(** [r->check(r, address, state, value)] *)
Definition run_check (r : region) (address : Z) (state : emu_state) (value : option Z) :
    K (bool * option Z) :=
  match rg_check r with
  | EMU_ALLOW_ALL => ret (emu_allow_all r address state value, value)
  | EMU_DENY_ALL => ret (emu_deny_all r address state value, value)
  | GPIO_EMU_CHECK => gpio_check r address state value
  | FB_EMU_CHECK => fb_check r address state value
  end.

(** The loop of [emu_check]: every covering region is asked, also after one
    has denied the access. *)
Fixpoint emu_check_loop (rs : list region) (address : Z) (state : emu_state)
    (allowed : bool) (value : option Z) : K (bool * option Z) :=
  match rs with
  | [] => ret (allowed, value)
  | r :: rs' =>
      if region_covers address r then
        ' (a, v) <- run_check r address state value;;
        emu_check_loop rs' address state (allowed && a) v
      else emu_check_loop rs' address state allowed value
  end.
Definition emu_check (address : Z) (state : emu_state) (value : option Z) : K (bool * option Z) :=
  rs <- get_emu regions;; emu_check_loop rs address state true value.

(** [read] and [write] of emulation.c *)
Definition emu_read (addr size : Z) : K Z :=
  if size =? 1 then read8 addr else if size =? 2 then read16 addr
  else if size =? 4 then read32 addr else ret 0.
Definition emu_write (value addr size : Z) : K unit :=
  if size =? 1 then write8 value addr else if size =? 2 then write16 value addr
  else if size =? 4 then write32 value addr else ret tt.

(** [emu_handle_load]: the new value of the register. *)
Definition emu_handle_load (data_paddr data_vaddr reg size : Z) (sign : bool) : K Z :=
  ' (ok, _) <- emu_check data_paddr EMU_STATE_READ_BEFORE None;;
  if ok then
    v <- emu_read data_vaddr size;;
    let v := if sign then sign_extend v size else v in
    ' (_, v') <- emu_check data_paddr EMU_STATE_READ_AFTER (Some v);;
    ret (default v v')
  else ret 0.

(** [emu_handle_store]: the register may have been rewritten by a check. *)
Definition emu_handle_store (data_paddr data_vaddr reg size : Z) : K Z :=
  ' (ok, v) <- emu_check data_paddr EMU_STATE_WRITE (Some reg);;
  let reg := default reg v in
  when ok (emu_write reg data_vaddr size);;; ret reg.

Definition slot_get (c : sm_world_ctx) (r : reg_slot) : K Z :=
  match r with
  | SLOT_R0 i => aget (wc_r0 c) i
  | SLOT_R8 i => aget (wc_r8 c) i
  | SLOT_LR => ret (wc_lr c)
  end.
Definition slot_set (c : sm_world_ctx) (r : reg_slot) (v : Z) : K sm_world_ctx :=
  match r with
  | SLOT_R0 i => l <- aset (wc_r0 c) i v;; ret (set_wc_r0 l c)
  | SLOT_R8 i => l <- aset (wc_r8 c) i v;; ret (set_wc_r8 l c)
  | SLOT_LR => ret (set_wc_lr v c)
  end.

(** [emu_handle]: the non-secure context after the access. *)
Definition emu_handle (c : sm_world_ctx) (status data_paddr instr_paddr : Z) : K sm_world_ctx :=
  if negb (Z.land status 0x40F =? 0x008) then ret (set_wc_mon_lr (u32 (wc_mon_lr c - 4)) c)
  else
  e <- get_emu id;;
  if (data_paddr <? emu_data_pstart e) || (u32 (emu_data_pstart e + emu_data_size e) <=? data_paddr)
  then ret c
  else
  let data_vaddr := u32 (emu_data_vstart e + (data_paddr - emu_data_pstart e)) in
  if (instr_paddr <? emu_instr_pstart e) || (u32 (emu_instr_pstart e + emu_instr_size e) <=? instr_paddr)
  then ret c
  else
  let instr_vaddr := u32 (emu_instr_vstart e + (instr_paddr - emu_instr_pstart e)) in
  instr <- read32 instr_vaddr;;
  match reg_slot_of (instr_rt instr) with
  | None => panic
  | Some slot =>
      match decode_access instr with
      | Some (LOAD size sign) =>
          reg <- slot_get c slot;;
          reg <- emu_handle_load data_paddr data_vaddr reg size sign;; slot_set c slot reg
      | Some (STORE size) =>
          reg <- slot_get c slot;;
          reg <- emu_handle_store data_paddr data_vaddr reg size;; slot_set c slot reg
      | None => panic
      end
  end.

Definition emulation_init : K Z :=
  l <- get_map;;
  match find_map_by_type_and_pa MEM_AREA_IO_SEC 0x01000000 l with
  | None => panic
  | Some (_, m) =>
      modify_emu (fun e => set_emu_data_size (mm_size m) (set_emu_data_vstart (mm_va m) (set_emu_data_pstart (mm_pa m) e)));;;
      match find_map_by_type MEM_AREA_RAM_NSEC l with
      | None => panic
      | Some (_, m) =>
          modify_emu (fun e => set_emu_instr_size (mm_size m) (set_emu_instr_vstart (mm_va m) (set_emu_instr_pstart (mm_pa m) e)));;;
          ret 0
      end
  end.
End emulation.

(** ** The region list *)

(** How often a region is registered. *)
Definition region_mult (r : region) (l : list region) : nat := length (filter (r =.) l).

Lemma region_mult_cons r x l :
  region_mult r (x :: l) = ((if bool_decide (r = x) then 1 else 0) + region_mult r l)%nat.
Proof. unfold region_mult. rewrite filter_cons. case_decide; case_bool_decide; naive_solver. Qed.

Lemma region_mult_pos r l : (0 < region_mult r l)%nat <-> r ∈ l.
Proof.
  induction l as [|x l IH]; [split; [cbv; lia|intros ?%elem_of_nil; done]|].
  rewrite region_mult_cons, elem_of_cons, <- IH. case_bool_decide; intuition lia.
Qed.

Lemma remove_first_None r l : remove_first r l = None <-> r ∉ l.
Proof.
  induction l as [|x l IH]; simpl; [split; [intros _ ?%elem_of_nil|]; done|].
  rewrite not_elem_of_cons. case_bool_decide as Hx; [subst; split; [done|intros [? _]; done]|].
  rewrite fmap_None, IH. split; [intros ?; split; [congruence|done]|by intros [_ ?]].
Qed.
Lemma remove_first_mult r l l' :
  remove_first r l = Some l' -> forall r',
  region_mult r' l = ((if bool_decide (r' = r) then 1 else 0) + region_mult r' l')%nat.
Proof.
  revert l'. induction l as [|x l IH]; intros l' Hr r'; simpl in Hr; [done|].
  rewrite region_mult_cons. case_bool_decide as Hx; simplify_eq.
  - done.
  - apply fmap_Some in Hr as (l2 & Hr & ->). rewrite (IH _ Hr r'), region_mult_cons. lia.
Qed.

Section emu_lemmas.
Context {P : Type} {plat : Platform P} {cfg : Config} {clients : EmuClients P}.
Implicit Types s : kernel P.

(** Removal, as a step on the state. *)
Lemma emu_remove_region_run base size check s :
  emu_remove_region base size check s =
    match remove_first (Region base size check) (regions (k_emu s)) with
    | Some rs => Ret tt (set_k_plat (heap_free sizeof_region (k_plat s)) (set_k_emu (set_regions rs (k_emu s)) s))
    | None => Ret tt s
    end.
Proof.
  unfold emu_remove_region, get_emu. erewrite bind_run by done. by destruct (remove_first _ _).
Qed.
Lemma emu_add_region_run base size check s :
  emu_add_region base size check s =
    match heap_alloc sizeof_region (k_plat s) with
    | Some p => Ret 0 (set_k_plat p (set_k_emu
        (set_regions (Region base size check :: regions (k_emu s)) (k_emu s)) s))
    | None => Ret (- ENOMEM) s
    end.
Proof.
  unfold emu_add_region, malloc. unfold bind at 1. change (u32 sizeof_region) with sizeof_region. simpl.
  by destruct (heap_alloc _ _).
Qed.

(** Regions whose check needs no driver. *)
Definition driverless (r : region) : bool :=
  match rg_check r with EMU_ALLOW_ALL | EMU_DENY_ALL => true | _ => false end.
Definition denies (r : region) : bool := bool_decide (rg_check r = EMU_DENY_ALL).

(** The checks of the drivers return. *)
Class ClientsReturn (ok : kernel P -> Prop) : Prop := {
  gpio_check_returns : forall r a st v s, ok s -> wp (gpio_check r a st v) s (fun _ s' => ok s');
  fb_check_returns : forall r a st v s, ok s -> wp (fb_check r a st v) s (fun _ s' => ok s');
}.

Lemma emu_check_loop_driverless rs a st allowed v s :
  Forall (fun r => region_covers a r = true -> driverless r = true) rs ->
  emu_check_loop rs a st allowed v s =
    Ret (allowed && forallb (fun r => negb (region_covers a r && denies r)) rs, v) s.
Proof.
  intros H. revert allowed. induction H as [|r rs Hr Hrs IH]; intros allowed; simpl.
  { by rewrite andb_true_r. }
  destruct (region_covers a r); [|apply IH]. specialize (Hr eq_refl).
  unfold driverless, run_check, denies in *. destruct (rg_check r); try discriminate;
    (erewrite bind_run by done); simpl; rewrite IH; by rewrite ?andb_true_r, ?andb_false_r.
Qed.

Lemma emu_check_loop_denied ok `{!ClientsReturn ok} rs a st allowed v s :
  ok s -> allowed = false \/ Exists (fun r => region_covers a r = true /\ denies r = true) rs ->
  wp (emu_check_loop rs a st allowed v) s (fun x s' => x.1 = false /\ ok s').
Proof.
  revert allowed v s. induction rs as [|r rs IH]; intros allowed v s Hok Hd; simpl.
  { destruct Hd as [->|Hd]; [done|by inversion Hd]. }
  destruct (region_covers a r) eqn:Ec.
  - apply wp_bind.
    assert (Hrun : wp (run_check r a st v) s (fun x s' => (denies r = true -> x.1 = false) /\ ok s')).
    { unfold run_check, denies. destruct (rg_check r); [by apply wp_ret|by apply wp_ret| |];
        (eapply wp_mono; [|by first [apply gpio_check_returns|apply fb_check_returns]]);
        intros ? ? ?; split; done. }
    eapply wp_mono; [|exact Hrun]. intros [x v'] s' [Hx Hs']. apply IH; [done|].
    destruct Hd as [->|Hd]; [by left|]. apply Exists_cons in Hd as [[_ Hdn]|Hd]; [|by right].
    left. specialize (Hx Hdn). simpl in Hx. by rewrite Hx, andb_false_r.
  - apply IH; [done|]. destruct Hd as [?|Hd]; [by left|]. right.
    apply Exists_cons in Hd as [[? _]|?]; [congruence|done].
Qed.

Lemma emu_check_loop_returns ok `{!ClientsReturn ok} rs a st allowed v s :
  ok s -> wp (emu_check_loop rs a st allowed v) s (fun _ s' => ok s').
Proof.
  revert allowed v s. induction rs as [|r rs IH]; intros allowed v s Hok; simpl; [done|].
  destruct (region_covers a r); [|by apply IH]. apply wp_bind.
  apply wp_mono with (Q := fun _ s' => ok s'); [intros [x v'] s' Hs'; by apply IH|].
  unfold run_check. destruct (rg_check r); [done|done|by apply gpio_check_returns|by apply fb_check_returns].
Qed.

(** The register slots of a context of the right shape. *)
Definition wf_ctx (c : sm_world_ctx) : Prop := length (wc_r0 c) = 8%nat /\ length (wc_r8 c) = 5%nat.

Lemma instr_rt_range instr : 0 <= instr_rt instr < 16.
Proof.
  unfold instr_rt. change 0xF with (Z.ones 4). rewrite Z.land_ones by lia. apply Z.mod_pos_bound. lia.
Qed.

Lemma slot_get_run c instr slot s :
  wf_ctx c -> reg_slot_of (instr_rt instr) = Some slot ->
  exists v, slot_get c slot s = Ret v s /\ slot_set c slot v s = Ret c s.
Proof.
  intros [Hl1 Hl2] Hs. pose proof (instr_rt_range instr).
  assert (Harr : forall (l : list Z) i, 0 <= i < Z.of_nat (length l) ->
    exists v, aget l i s = Ret v s /\ aset l i v s = Ret l s).
  { intros l i Hi. destruct (lookup_lt_is_Some_2 l (Z.to_nat i)) as [v Hv]; [lia|]. exists v.
    rewrite <- (Z2Nat.id i) by lia. rewrite (aget_lookup _ _ _ _ Hv), aset_insert by lia.
    by rewrite list_insert_id. }
  unfold reg_slot_of in Hs. repeat case_match; simplify_eq; simpl.
  - destruct (Harr (wc_r0 c) (instr_rt instr)) as (v & Hg & Hw); [lia|]. exists v.
    split; [done|]. erewrite bind_run by exact Hw. by destruct c.
  - destruct (Harr (wc_r8 c) (instr_rt instr - 8)) as (v & Hg & Hw); [lia|]. exists v.
    split; [done|]. erewrite bind_run by exact Hw. by destruct c.
  - exists (wc_lr c). by destruct c.
Qed.

Lemma slot_set_run c instr slot v :
  wf_ctx c -> reg_slot_of (instr_rt instr) = Some slot ->
  exists c', wf_ctx c' /\ forall s, slot_set c slot v s = Ret c' s /\ slot_get c' slot s = Ret v s.
Proof.
  intros [Hl1 Hl2] Hs. pose proof (instr_rt_range instr).
  assert (Harr : forall (l : list Z) i s, 0 <= i < Z.of_nat (length l) ->
    aset l i v s = Ret (<[Z.to_nat i := v]> l) s /\ aget (<[Z.to_nat i := v]> l) i s = Ret v s).
  { intros l i s Hi. split.
    - rewrite <- (Z2Nat.id i) at 1 by lia. apply aset_insert. lia.
    - rewrite <- (Z2Nat.id i) at 2 by lia. apply aget_lookup. rewrite list_lookup_insert_eq by lia. done. }
  unfold reg_slot_of in Hs. unfold wf_ctx. repeat case_match; simplify_eq; simpl.
  - exists (set_wc_r0 (<[Z.to_nat (instr_rt instr) := v]> (wc_r0 c)) c). simpl. rewrite length_insert.
    split; [done|]. intros s. destruct (Harr (wc_r0 c) (instr_rt instr) s) as [Hw Hg]; [lia|].
    split; [by erewrite bind_run by exact Hw|exact Hg].
  - exists (set_wc_r8 (<[Z.to_nat (instr_rt instr - 8) := v]> (wc_r8 c)) c). simpl. rewrite length_insert.
    split; [done|]. intros s. destruct (Harr (wc_r8 c) (instr_rt instr - 8) s) as [Hw Hg]; [lia|].
    split; [by erewrite bind_run by exact Hw|exact Hg].
  - by exists (set_wc_lr v c).
Qed.
End emu_lemmas.

(** The access is inside the two windows [emu_handle] can translate. *)
Definition in_windows (e : emu_data) (data_paddr instr_paddr : Z) : bool :=
  (emu_data_pstart e <=? data_paddr) && (data_paddr <? u32 (emu_data_pstart e + emu_data_size e)) &&
  (emu_instr_pstart e <=? instr_paddr) && (instr_paddr <? u32 (emu_instr_pstart e + emu_instr_size e)).
Definition is_translation_abort (status : Z) : bool := Z.land status 0x40F =? 0x008.
Definition instr_va (e : emu_data) (instr_paddr : Z) : Z :=
  u32 (emu_instr_vstart e + (instr_paddr - emu_instr_pstart e)).
Definition data_va (e : emu_data) (data_paddr : Z) : Z :=
  u32 (emu_data_vstart e + (data_paddr - emu_data_pstart e)).

Section emu_handle_lemmas.
Context {P : Type} {plat : Platform P} {cfg : Config} {clients : EmuClients P}.
Implicit Types s : kernel P.

(** The part of [emu_handle] after the instruction was fetched. *)
Definition emu_execute (c : sm_world_ctx) (data_paddr data_vaddr instr : Z) : M (kernel P) sm_world_ctx :=
  match reg_slot_of (instr_rt instr) with
  | None => panic
  | Some slot =>
      match decode_access instr with
      | Some (LOAD size sign) =>
          reg <- slot_get c slot;;
          reg <- emu_handle_load data_paddr data_vaddr reg size sign;; slot_set c slot reg
      | Some (STORE size) =>
          reg <- slot_get c slot;;
          reg <- emu_handle_store data_paddr data_vaddr reg size;; slot_set c slot reg
      | None => panic
      end
  end.

Lemma emu_handle_executes c status data_paddr instr_paddr s instr s1 :
  is_translation_abort status = true -> in_windows (k_emu s) data_paddr instr_paddr = true ->
  read32 (instr_va (k_emu s) instr_paddr) s = Ret instr s1 ->
  emu_handle c status data_paddr instr_paddr s =
    emu_execute c data_paddr (data_va (k_emu s) data_paddr) instr s1.
Proof.
  unfold is_translation_abort, in_windows. intros Hst Hw Hr. unfold emu_handle. rewrite Hst. cbn [negb].
  unfold get_emu. erewrite bind_run by done. unfold id. cbv zeta.
  replace ((data_paddr <? _) || _) with false by lia.
  replace ((instr_paddr <? _) || _) with false by lia.
  by erewrite bind_run by exact Hr.
Qed.

(** The fetch leaves everything but the platform in place. *)
Lemma read32_plat (a : Z) s : exists v p, read32 a s = Ret v (set_k_plat p s) /\ is_u32 v.
Proof.
  unfold read32, io_load. destruct (io_read 4 (u32 a) (get_platform s)) as [v p].
  eexists _, p. split; [done|]. apply Z.mod_pos_bound. lia.
Qed.
End emu_handle_lemmas.

(** ** Properties *)

(** C19: a non-secure access to an address that a deny-all region covers, and
    no driver's region, never reaches the peripheral: whatever the faulting
    instruction, the only effect of [emu_handle] on the kernel and the
    hardware is the instruction fetch; a load delivers 0 in its destination
    register and a store changes no register. *)
Theorem emu_handle_denied {P} `{Platform P, Config, EmuClients P}
    (s : kernel P) c status data_paddr instr_paddr :
  wf_ctx c -> is_translation_abort status = true ->
  in_windows (k_emu s) data_paddr instr_paddr = true ->
  Forall (fun r => region_covers data_paddr r = true -> driverless r = true) (regions (k_emu s)) ->
  Exists (fun r => region_covers data_paddr r = true /\ denies r = true) (regions (k_emu s)) ->
  exists instr p, read32 (instr_va (k_emu s) instr_paddr) s = Ret instr (set_k_plat p s) /\
    match reg_slot_of (instr_rt instr), decode_access instr with
    | Some slot, Some (LOAD _ _) =>
        exists c', emu_handle c status data_paddr instr_paddr s = Ret c' (set_k_plat p s) /\
          slot_set c slot 0 s = Ret c' s /\ slot_get c' slot s = Ret 0 s
    | Some _, Some (STORE _) =>
        emu_handle c status data_paddr instr_paddr s = Ret c (set_k_plat p s)
    | _, _ => emu_handle c status data_paddr instr_paddr s = Panic
    end.
Proof.
  intros Hc Hst Hw Hdl Hden.
  destruct (read32_plat (instr_va (k_emu s) instr_paddr) s) as (instr & p & Hr & _).
  exists instr, p. split; [done|]. rewrite (emu_handle_executes _ _ _ _ _ _ _ Hst Hw Hr).
  assert (Hchk : forall st v, emu_check data_paddr st v (set_k_plat p s) = Ret (false, v) (set_k_plat p s)).
  { intros st v. unfold emu_check, get_emu. erewrite bind_run by done. simpl.
    rewrite emu_check_loop_driverless by done. simpl. f_equal. f_equal.
    apply not_true_is_false. rewrite forallb_forall. intros Hall.
    apply Exists_exists in Hden as (r & Hin & Hcov & Hd).
    specialize (Hall r). rewrite <- list_elem_of_In in Hall. specialize (Hall Hin). by rewrite Hcov, Hd in Hall. }
  unfold emu_execute. destruct (reg_slot_of (instr_rt instr)) as [slot|] eqn:Hs; [|done].
  destruct (slot_get_run c instr slot (set_k_plat p s) Hc Hs) as (v & Hg & Hset).
  destruct (decode_access instr) as [[size sign|size]|]; [| |done]; (erewrite bind_run by exact Hg).
  - destruct (slot_set_run (P:=P) c instr slot 0 Hc Hs) as (c' & _ & Hc'). exists c'. unfold emu_handle_load.
    erewrite bind_run by (erewrite bind_run by apply Hchk; done). split; [|split]; apply Hc'.
  - unfold emu_handle_store.
    erewrite bind_run by (erewrite bind_run by apply Hchk; done). exact Hset.
Qed.

(** A denial dominates: when the drivers' checks return, [emu_check]
    answers "not allowed" for an address that any deny-all region covers,
    wherever that region is in the list and whatever the other regions say. *)
Theorem emu_check_deny_dominates {P} `{Platform P, Config, EmuClients P} (ok : kernel P -> Prop)
    `{!ClientsReturn ok} (s : kernel P) address state value :
  ok s -> Exists (fun r => region_covers address r = true /\ denies r = true) (regions (k_emu s)) ->
  exists v s', emu_check address state value s = Ret (false, v) s' /\ ok s'.
Proof.
  intros Hok Hd. unfold emu_check, get_emu. erewrite bind_run by done.
  destruct (wp_elim _ _ _ (emu_check_loop_denied ok (regions (k_emu s)) address state true value s Hok
    (or_intror Hd))) as ([b v] & s' & Hr & Hb & Hs'). simpl in Hb. subst b. by exists v, s'.
Qed.

(** Registering a region and removing it again restores the region list;
    a failed allocation answers -ENOMEM and changes nothing; removing a region
    that was never registered changes nothing. *)
Theorem emu_region_roundtrip {P} `{Platform P, Config} (s : kernel P) base size check :
  (forall p, heap_alloc sizeof_region (k_plat s) = Some p ->
     exists s1, emu_add_region base size check s = Ret 0 s1 /\
       regions (k_emu s1) = Region base size check :: regions (k_emu s) /\
       emu_remove_region base size check s1 =
         Ret tt (set_k_plat (heap_free sizeof_region p) s)) /\
  (heap_alloc sizeof_region (k_plat s) = None ->
     emu_add_region base size check s = Ret (- ENOMEM) s) /\
  (Region base size check ∉ regions (k_emu s) -> emu_remove_region base size check s = Ret tt s).
Proof.
  rewrite emu_add_region_run. split_and!.
  - intros p ->. eexists. split; [reflexivity|]. split; [done|].
    rewrite emu_remove_region_run. simpl. rewrite bool_decide_eq_true_2 by done.
    destruct s as [? ? [] ? ? ? ? ? ? ? ?]. done.
  - by intros ->.
  - intros Hn. rewrite emu_remove_region_run. by rewrite (proj2 (remove_first_None _ _) Hn).
Qed.

Lemma lor_high_ones n w : 0 <= n <= 32 -> 0 <= w < 2 ^ n -> Z.lor w (2 ^ 32 - 2 ^ n) = w + (2 ^ 32 - 2 ^ n).
Proof.
  intros Hn Hw.
  assert (Hs : 2 ^ 32 - 2 ^ n = Z.shiftl (Z.ones (32 - n)) n).
  { rewrite Z.shiftl_mul_pow2, Z.ones_equiv, <- Z.sub_1_r, Z.mul_sub_distr_r, <- Z.pow_add_r by lia.
    replace (32 - n + n) with 32 by lia. lia. }
  assert (Hd : Z.land w (2 ^ 32 - 2 ^ n) = 0).
  { rewrite Hs. apply Z.bits_inj'. intros i Hi. rewrite Z.land_spec, Z.shiftl_spec, Z.bits_0 by lia.
    destruct (Z.ltb_spec i n); [by rewrite (Z.testbit_neg_r _ (i - n)), andb_false_r by lia|].
    rewrite <- (Z.mod_small w (2 ^ n)) by lia. by rewrite Z.mod_pow2_bits_high by lia. }
  rewrite <- Z.lxor_lor by done. symmetry. by apply Z.add_nocarry_lxor.
Qed.

(** Extending an [n]-bit value by its top bit. *)
Lemma sign_extend_bits n w :
  0 < n <= 16 -> 0 <= w < 2 ^ n ->
  (if truth (Z.land w (bit32 (n - 1))) then Z.lor w (2 ^ 32 - 2 ^ n) else w) =
    u32 (if w <? 2 ^ (n - 1) then w else w - 2 ^ n).
Proof.
  intros Hn Hw. assert (Hpow : 2 ^ n = 2 * 2 ^ (n - 1)).
  { replace n with (1 + (n - 1)) at 1 by lia. by rewrite Z.pow_add_r by lia. }
  assert (Hlt : 2 ^ n <= 2 ^ 16) by (apply Z.pow_le_mono_r; lia).
  rewrite truth_land_bit by lia.
  assert (Hbit : Z.testbit w (n - 1) = negb (w <? 2 ^ (n - 1))).
  { rewrite Z.testbit_odd, Z.shiftr_div_pow2 by lia. destruct (Z.ltb_spec w (2 ^ (n - 1))).
    - by rewrite Z.div_small by lia.
    - replace (w / 2 ^ (n - 1)) with 1; [done|]. apply Z.div_unique with (w - 2 ^ (n - 1)); lia. }
  rewrite Hbit. destruct (Z.ltb_spec w (2 ^ (n - 1))); cbn [negb].
  - by rewrite u32_small by (unfold is_u32; lia).
  - rewrite lor_high_ones by lia. unfold u32. apply Z.mod_unique_pos with (-1); lia.
Qed.

(** the sign extension of [emu_handle_load] is the two's complement one: a
    loaded byte or half-word becomes the 32-bit pattern of its signed value,
    and a word is kept. *)
Theorem sign_extend_correct v size :
  (size = 1 -> 0 <= v < 2 ^ 8 -> sign_extend v size = u32 (if v <? 2 ^ 7 then v else v - 2 ^ 8)) /\
  (size = 2 -> 0 <= v < 2 ^ 16 -> sign_extend v size = u32 (if v <? 2 ^ 15 then v else v - 2 ^ 16)) /\
  (size = 4 -> sign_extend v size = v).
Proof.
  split_and!; intros ->; [| |done].
  - intros Hv. exact (sign_extend_bits 8 v ltac:(lia) Hv).
  - intros Hv. exact (sign_extend_bits 16 v ltac:(lia) Hv).
Qed.

(** The deny region of the demonstration covers a whole peripheral. *)
Definition emu_demo : kernel bigram :=
  set_k_emu (EmuData 0x02000000 0x02000000 0x00200000 0x10000000 0x10000000 0x1000
      [Region 0x02100000 0x4000 EMU_DENY_ALL; Region 0x02000000 0x4000 EMU_ALLOW_ALL])
    (kernel_init (mk_bigram (<[0x10000000 := 0xE5901000]> (<[0x02100004 := 0xCAFE]> ∅)))).
(** Drivers without a region of their own. *)
#[local] Instance emu_demo_clients : EmuClients bigram := {
  gpio_check r a st v := ret (true, v);
  fb_check r a st v := ret (true, v);
}.
#[local] Instance emu_demo_clients_return : ClientsReturn (fun _ : kernel bigram => True).
Proof. by split. Qed.
#[local] Instance emu_demo_cfg : Config := { cfg_ndebug := false }.
Definition ctx_demo : sm_world_ctx := SmWorldCtx [] (replicate 5 7) 7 (replicate 8 7) 0 0.

(** 0xE5901000 is [ldr r1, [r0]]. *)
Lemma emu_handle_denied_witness :
  exists instr p, read32 0x10000000 emu_demo = Ret instr (set_k_plat p emu_demo) /\ instr = 0xE5901000 /\
  emu_handle ctx_demo 0x008 0x02100004 0x10000000 emu_demo <> Panic.
Proof.
  destruct (emu_handle_denied emu_demo ctx_demo 0x008 0x02100004 0x10000000) as (instr & p & Hr & Hcase).
  - by split.
  - reflexivity.
  - reflexivity.
  - repeat constructor.
  - apply Exists_cons. left. split; reflexivity.
  - exists instr, p. split; [exact Hr|].
    assert (Hi : instr = 0xE5901000) by (vm_compute in Hr; congruence). split; [exact Hi|].
    rewrite Hi in Hcase. cbn in Hcase. destruct Hcase as (c' & Hc' & _). rewrite Hc'. discriminate.
Defined.

Lemma emu_check_deny_dominates_witness :
  exists v s', emu_check 0x02100004 EMU_STATE_WRITE (Some 5) emu_demo = Ret (false, v) s' /\ True.
Proof.
  apply (emu_check_deny_dominates (fun _ => True) emu_demo); [exact I|].
  apply Exists_cons. left. split; reflexivity.
Defined.



(** The end test of [emu_check] is inclusive: the first address after a region
    is still checked against it. *)
Lemma region_covers_one_past r :
  0 <= rg_size r -> rg_base r + rg_size r < 2 ^ 32 -> 0 <= rg_base r ->
  region_covers (rg_base r + rg_size r) r = true.
Proof. intros. unfold region_covers. rewrite u32_small by (unfold is_u32; lia). lia. Qed.

(** 0xE1C000D0 is [ldrd r0, [r0]]: its load bit is clear, and it is decoded as
    the store of a byte. *)
Example ldrd_decodes_as_store : decode_access 0xE1C000D0 = Some (STORE 1).
Proof. reflexivity. Qed.
