(* ===== verification/Interrupt.v ===== *)
(** * Interrupt chips and handlers (core/kernel/interrupt.c)

    The chip layer is generic: a chip carries a table of operations and an
    array of handlers.  The tables and the handlers belong to the drivers;
    [IrqDrivers] is the interface through which this layer calls them. *)

From stdpp Require Import prelude gmap list.
From Stdlib Require Import ZArith Lia.
From S2P Require Import Prelude Platform State Emulation.
#[local] Open Scope Z_scope.
#[local] Open Scope kernel_scope.

Definition ITRF_TRIGGER_LEVEL : Z := 1.

(** [struct irq_chip_ops]: a member left out of the initialiser is [None].
    [op_map] takes the device-tree cells from [dt_spec] on, in CPU order, and
    yields the error code with [*irq] and [*flags]. *)
Record irq_ops (P : Type) := IrqOps {
  op_map : option (chip_ptr -> list Z -> M (kernel P) (Z * Z * Z));
  op_add : option (chip_ptr -> Z -> Z -> M (kernel P) Z);
  op_remove : option (chip_ptr -> Z -> M (kernel P) Z);
  op_enable : option (chip_ptr -> Z -> M (kernel P) Z);
  op_disable : option (chip_ptr -> Z -> M (kernel P) Z);
  op_secure : option (chip_ptr -> Z -> M (kernel P) Z);
  op_unsecure : option (chip_ptr -> Z -> M (kernel P) Z);
  op_raise : option (chip_ptr -> Z -> M (kernel P) Z);
  op_raise_sgi : option (chip_ptr -> Z -> Z -> M (kernel P) Z);
  op_set_affinity : option (chip_ptr -> Z -> Z -> M (kernel P) Z);
}.
Arguments IrqOps {P}.
Arguments op_map {P} _.
Arguments op_add {P} _.
Arguments op_remove {P} _.
Arguments op_enable {P} _.
Arguments op_disable {P} _.
Arguments op_secure {P} _.
Arguments op_unsecure {P} _.
Arguments op_raise {P} _.
Arguments op_raise_sgi {P} _.
Arguments op_set_affinity {P} _.

(** What the drivers give to this layer. *)
Class IrqDrivers (P : Type) := {
  ops_of : irq_chip_ops -> irq_ops P;
  run_handler : handler_ptr -> M (kernel P) irq_return;
}.

Section interrupt.
Context {P : Type} {plat : Platform P} {cfg : Config} {drv : IrqDrivers P}.
Abbreviation K := (M (kernel P)).

Definition get_irq {A} (f : irq_data -> A) : K A := gets (fun s => f (k_irq s)).
Definition modify_irq (f : irq_data -> irq_data) : K unit :=
  modify (fun s => set_k_irq (f (k_irq s)) s).
Definition get_chip (c : chip_ptr) : K irq_chip :=
  o <- get_irq (fun d => chip_objs d !! c);; deref o.
Definition put_chip (c : chip_ptr) (obj : irq_chip) : K unit :=
  modify_irq (fun d => set_chip_objs (<[c := obj]> (chip_objs d)) d).

(** [irq_construct_chip].  Linking a chip twice would make the list cyclic,
    which is a fault. *)
Definition irq_construct_chip (chip : chip_ptr) (dev : dev_ptr) (ops : irq_chip_ops)
    (num_irqs : Z) (default_handler : bool) : K Z :=
  put_chip chip (IrqChip dev ops num_irqs default_handler []);;;
  ok <- malloc (u32 (num_irqs * 4));;
  if negb ok then ret (- ENOMEM)
  else
    put_chip chip (IrqChip dev ops num_irqs default_handler (replicate (Z.to_nat num_irqs) None));;;
    l <- get_irq chips;;
    if bool_decide (chip ∈ l) then fault
    else modify_irq (set_chips (chip :: l));;; ret 0.

(** [irq_destruct_chip]: removing a chip that is not linked walks off the list. *)
Definition irq_destruct_chip (chip : chip_ptr) : K unit :=
  l <- get_irq chips;;
  if bool_decide (chip ∈ l) then
    modify_irq (set_chips (filter (fun c => c <> chip) l));;;
    c <- get_chip chip;; free (u32 (ic_num_irqs c * 4))
  else fault.

Fixpoint find_chip_in (l : list chip_ptr) (dev : option dev_ptr) : K (option chip_ptr) :=
  match l with
  | [] => ret None
  | c :: l' => obj <- get_chip c;;
      if bool_decide (Some (ic_dev obj) = dev) then ret (Some c) else find_chip_in l' dev
  end.
Definition irq_find_chip (dev : option dev_ptr) : K (option chip_ptr) :=
  l <- get_irq chips;; find_chip_in l dev.

Definition irq_check_valid (chip : chip_ptr) (irq : Z) : K irq_chip :=
  c <- get_chip chip;; if ic_num_irqs c <=? irq then panic else ret c.

(** A call through a member of the operation table: a null member is a fault. *)
Definition call {A} (op : option A) : K A := deref op.

Definition irq_handle (chip : chip_ptr) (irq : Z) : K irq_return :=
  c <- irq_check_valid chip irq;;
  handler <- aget (ic_handlers c) irq;;
  match handler with
  | None =>
      if ic_default_handler c then ret ITRR_HANDLED_DEFAULT
      else f <- call (op_disable (ops_of (ic_ops c)));; f chip irq;;; ret ITRR_NONE
  | Some h =>
      r <- run_handler h;;
      match r with
      | ITRR_NONE => f <- call (op_disable (ops_of (ic_ops c)));; f chip irq;;; ret r
      | _ => ret r
      end
  end.

Definition irq_map (chip : chip_ptr) (dt_spec : list Z) : K (Z * Z * Z) :=
  c <- get_chip chip;; f <- call (op_map (ops_of (ic_ops c)));; f chip dt_spec.

Definition irq_add (desc : irq_desc) (flags : Z) (handler : handler_ptr) : K Z :=
  c <- irq_check_valid (id_chip desc) (id_irq desc);;
  hs <- aset (ic_handlers c) (id_irq desc) (Some handler);;
  put_chip (id_chip desc) (set_ic_handlers hs c);;;
  f <- call (op_add (ops_of (ic_ops c)));; f (id_chip desc) (id_irq desc) flags.

Definition irq_remove (desc : irq_desc) : K Z :=
  c <- irq_check_valid (id_chip desc) (id_irq desc);;
  f <- call (op_remove (ops_of (ic_ops c)));;
  error <- f (id_chip desc) (id_irq desc);;
  when (error =? 0) (
    c <- get_chip (id_chip desc);;
    hs <- aset (ic_handlers c) (id_irq desc) None;;
    put_chip (id_chip desc) (set_ic_handlers hs c));;;
  ret error.

Definition irq_enable (desc : irq_desc) : K Z :=
  c <- irq_check_valid (id_chip desc) (id_irq desc);;
  f <- call (op_enable (ops_of (ic_ops c)));; f (id_chip desc) (id_irq desc).
Definition irq_disable (desc : irq_desc) : K Z :=
  c <- irq_check_valid (id_chip desc) (id_irq desc);;
  f <- call (op_disable (ops_of (ic_ops c)));; f (id_chip desc) (id_irq desc).
Definition irq_secure (desc : irq_desc) : K Z :=
  c <- irq_check_valid (id_chip desc) (id_irq desc);;
  f <- call (op_secure (ops_of (ic_ops c)));; f (id_chip desc) (id_irq desc).
Definition irq_unsecure (desc : irq_desc) : K Z :=
  c <- irq_check_valid (id_chip desc) (id_irq desc);;
  f <- call (op_unsecure (ops_of (ic_ops c)));; f (id_chip desc) (id_irq desc).
Definition irq_raise (desc : irq_desc) : K Z :=
  c <- irq_check_valid (id_chip desc) (id_irq desc);;
  f <- call (op_raise (ops_of (ic_ops c)));; f (id_chip desc) (id_irq desc).

(** The test of the two optional operations is inverted in the source. *)
Definition irq_raise_sgi (desc : irq_desc) (cpu_mask : Z) : K Z :=
  c <- irq_check_valid (id_chip desc) (id_irq desc);;
  if bool_decide (is_Some (op_raise_sgi (ops_of (ic_ops c)))) then ret (- EINVAL)
  else f <- call (op_raise_sgi (ops_of (ic_ops c)));; f (id_chip desc) (id_irq desc) cpu_mask.
Definition irq_set_affinity (desc : irq_desc) (cpu_mask : Z) : K Z :=
  c <- irq_check_valid (id_chip desc) (id_irq desc);;
  if bool_decide (is_Some (op_set_affinity (ops_of (ic_ops c)))) then ret (- EINVAL)
  else f <- call (op_set_affinity (ops_of (ic_ops c)));; f (id_chip desc) (id_irq desc) cpu_mask.
End interrupt.

(** ** Lemmas *)

Section interrupt_lemmas.
Context {P : Type} {plat : Platform P} {cfg : Config} {drv : IrqDrivers P}.
Implicit Types s : kernel P.

(** The descriptor names a constructed chip and an interrupt it has. *)
Definition valid_desc (s : kernel P) (d : irq_desc) (c : irq_chip) : Prop :=
  chip_objs (k_irq s) !! id_chip d = Some c /\ 0 <= id_irq d < ic_num_irqs c.

Lemma irq_check_valid_run s d c :
  valid_desc s d c -> irq_check_valid (id_chip d) (id_irq d) s = Ret c s.
Proof.
  intros [Hc Hi]. unfold irq_check_valid, get_chip, get_irq, bind, gets, deref. rewrite Hc. simpl.
  by rewrite (proj2 (Z.leb_gt _ _)) by lia.
Qed.

Lemma find_chip_in_run s l dev :
  Forall (fun c => is_Some (chip_objs (k_irq s) !! c)) l ->
  find_chip_in l dev s =
    Ret (snd <$> list_find (fun c => (ic_dev <$> chip_objs (k_irq s) !! c) = dev) l) s.
Proof.
  intros H. induction H as [|c l [obj Hc] Hl IH]; [done|].
  cbn [find_chip_in list_find]. unfold get_chip, get_irq. unfold bind at 1 2, gets, deref. rewrite Hc.
  unfold ret at 1. case_bool_decide as Hd.
  - rewrite decide_True by done. done.
  - rewrite decide_False by done. rewrite IH. by destruct (list_find _ l) as [[]|].
Qed.
End interrupt_lemmas.

(** ** Properties *)

(** A chip that was constructed is found again by its device, and
    construction with an exhausted heap answers -ENOMEM without linking the
    chip. *)
Theorem irq_construct_find {P} `{Platform P, Config} (s : kernel P) chip dev ops num_irqs dflt :
  chip ∉ chips (k_irq s) -> 0 <= num_irqs ->
  Forall (fun c => is_Some (chip_objs (k_irq s) !! c)) (chips (k_irq s)) ->
  (forall p, heap_alloc (u32 (num_irqs * 4)) (k_plat s) = Some p -> exists s',
     irq_construct_chip chip dev ops num_irqs dflt s = Ret 0 s' /\
     irq_find_chip (Some dev) s' = Ret (Some chip) s' /\
     chip_objs (k_irq s') !! chip =
       Some (IrqChip dev ops num_irqs dflt (replicate (Z.to_nat num_irqs) None)) /\
     (forall c, c <> chip -> chip_objs (k_irq s') !! c = chip_objs (k_irq s) !! c)) /\
  (heap_alloc (u32 (num_irqs * 4)) (k_plat s) = None -> exists s',
     irq_construct_chip chip dev ops num_irqs dflt s = Ret (- ENOMEM) s' /\
     chips (k_irq s') = chips (k_irq s)).
Proof.
  intros Hnew Hn Hall. unfold irq_construct_chip, put_chip, modify_irq, malloc, get_irq. split.
  - intros p Hp. eexists. split_and!.
    + erewrite bind_run by done. erewrite bind_run by (rewrite u32_u32; cbn; by rewrite Hp). cbn [negb].
      erewrite bind_run by done. erewrite bind_run by done. rewrite bool_decide_eq_false_2 by done. done.
    + unfold irq_find_chip, get_irq. erewrite bind_run by done. cbn [k_irq chips set_k_irq set_chips set_chip_objs].
      rewrite find_chip_in_run.
      * cbn. rewrite decide_True by (by rewrite lookup_insert_eq). done.
      * cbn. constructor; [by rewrite lookup_insert_eq|]. eapply Forall_impl; [exact Hall|].
        intros c [x Hx]. rewrite !insert_insert_eq, lookup_insert_is_Some. rewrite Hx.
        destruct (decide (chip = c)); [by left|right; split; [done|by eexists]].
    + cbn. by rewrite lookup_insert_eq.
    + intros c Hc. cbn. by rewrite !lookup_insert_ne by done.
  - intros Hp. eexists. split; [erewrite bind_run by done;
      erewrite bind_run by (rewrite u32_u32; cbn; by rewrite Hp); reflexivity|done].
Qed.

(** [irq_raise_sgi] never raises an interrupt: on a valid descriptor it
    answers -EINVAL for exactly the chips that implement the operation and
    calls a null pointer for the others. *)
Theorem irq_raise_sgi_inverted {P} `{Platform P, Config, IrqDrivers P} (s : kernel P) d c cpu_mask :
  valid_desc s d c ->
  irq_raise_sgi d cpu_mask s =
    if bool_decide (is_Some (op_raise_sgi (ops_of (ic_ops c)))) then Ret (- EINVAL) s else Fault.
Proof.
  intros Hd. unfold irq_raise_sgi. erewrite bind_run by (by apply irq_check_valid_run).
  case_bool_decide as Ho; [done|].
  assert (op_raise_sgi (ops_of (ic_ops c)) = None) as -> by (by apply eq_None_not_Some). done.
Qed.

(** One chip of 32 interrupts owned by device 0. *)
Definition irq_demo : kernel bigram :=
  set_k_irq (IrqData [CHIP_GIC] {[CHIP_GIC := IrqChip 0 GIC_OPS 32 false (replicate 32 None)]})
    (kernel_init (mk_bigram ∅)).
#[local] Instance irq_demo_cfg : Config := { cfg_ndebug := false }.
#[local] Instance irq_demo_drivers : IrqDrivers bigram := {
  ops_of _ := IrqOps None None None None None None None None (Some (fun _ _ _ => ret 0)) None;
  run_handler _ := ret ITRR_HANDLED;
}.

Lemma irq_construct_find_witness : exists s',
  irq_construct_chip (CHIP_GPIO 3) 7 GPIO_OPS 32 true irq_demo = Ret 0 s' /\
  irq_find_chip (Some 7%nat) s' = Ret (Some (CHIP_GPIO 3)) s'.
Proof.
  destruct (irq_construct_find irq_demo (CHIP_GPIO 3) 7 GPIO_OPS 32 true) as [H _].
  - cbn. rewrite list_elem_of_singleton. discriminate.
  - lia.
  - cbn. repeat constructor. by eexists.
  - destruct (H (mk_bigram ∅) eq_refl) as (s' & Hr & Hf & _). by exists s'.
Defined.

Lemma irq_raise_sgi_witness :
  irq_raise_sgi (IrqDesc CHIP_GIC 8) 1 irq_demo = Ret (-22) irq_demo.
Proof.
  rewrite (irq_raise_sgi_inverted irq_demo (IrqDesc CHIP_GIC 8)
    (IrqChip 0 GIC_OPS 32 false (replicate 32 None)) 1).
  - by rewrite bool_decide_eq_true_2.
  - split; [reflexivity|cbn; lia].
Defined.
