(* ===== verification/Gic.v ===== *)
(** * Generic interrupt controller (core/drivers/gic.c)

    Both chips of the driver ([chip] and [chip_gpc]) share the one [g_gic].
    The distributor's registers are set/clear pairs, so what the driver relies
    on is stated as a law of the hardware ([GicDist]) rather than as plain
    storage. *)

From stdpp Require Import prelude gmap list.
From Stdlib Require Import ZArith Lia.
From S2P Require Import Prelude Platform State Frame Emulation Interrupt CoreMmu.
#[local] Open Scope Z_scope.
#[local] Open Scope kernel_scope.

Definition GICC_CTLR : Z := 0x000.
Definition GICC_PMR : Z := 0x004.
Definition GICC_IAR : Z := 0x00C.
Definition GICC_EOIR : Z := 0x010.
Definition GICC_CTLR_ENABLEGRP0 : Z := bit32 0.
Definition GICC_CTLR_ENABLEGRP1 : Z := bit32 1.
Definition GICC_CTLR_FIQEN : Z := bit32 3.
Definition GICD_CTLR : Z := 0x000.
Definition GICD_IGROUPR (n : Z) : Z := 0x080 + n * 4.
Definition GICD_ISENABLER (n : Z) : Z := 0x100 + n * 4.
Definition GICD_ICENABLER (n : Z) : Z := 0x180 + n * 4.
Definition GICD_ISPENDR (n : Z) : Z := 0x200 + n * 4.
Definition GICD_ICPENDR (n : Z) : Z := 0x280 + n * 4.
Definition GICD_IPRIORITYR (n : Z) : Z := 0x400 + n * 4.
Definition GICD_ITARGETSR (n : Z) : Z := 0x800 + n * 4.
Definition GICD_SGIR : Z := 0xF00.
Definition NUM_SGI : Z := 16.
Definition NUM_NS_SGI : Z := 8.
Definition NUM_INTS_PER_REG : Z := 32.
Definition NUM_TARGETS_PER_REG : Z := 4.
Definition ITARGETSR_FIELD_BITS : Z := 8.
Definition ITARGETSR_FIELD_MASK : Z := 0xff.
Definition GIC_MAX_INTS : Z := 1020.
Definition GICC_IAR_IT_ID_MASK : Z := 0x3ff.

Definition it_idx (it : Z) : Z := it / NUM_INTS_PER_REG.
Definition it_mask (it : Z) : Z := bit32 (it mod NUM_INTS_PER_REG).

(** The inner loop of [probe_max_it]: the highest set bit of [reg]. *)
Fixpoint highest_bit (n : nat) (reg : Z) : option Z :=
  match n with
  | O => None
  | S n' => if truth (Z.land (bit32 (Z.of_nat n')) reg) then Some (Z.of_nat n') else highest_bit n' reg
  end.

Section gic.
Context {P : Type} {plat : Platform P} {cfg : Config} {drv : IrqDrivers P}.
Abbreviation K := (M (kernel P)).

Definition get_gic {A} (f : gic_data -> A) : K A := gets (fun s => f (k_gic s)).
Definition modify_gic (f : gic_data -> gic_data) : K unit :=
  modify (fun s => set_k_gic (f (k_gic s)) s).
Definition gicd_read (off : Z) : K Z := b <- get_gic gicd_base;; read32 (b + off).
Definition gicd_write (v off : Z) : K unit := b <- get_gic gicd_base;; write32 v (b + off).

(** The outer loop, from register [i] downwards. *)
Fixpoint probe_max_it_loop (gicd_base : Z) (n : nat) : K Z :=
  match n with
  | O => ret 0
  | S n' =>
      let i := Z.of_nat n' in
      old_reg <- read32 (gicd_base + GICD_ISENABLER i);;
      write32 0xffffffff (gicd_base + GICD_ISENABLER i);;;
      reg <- read32 (gicd_base + GICD_ISENABLER i);;
      write32 old_reg (gicd_base + GICD_ICENABLER i);;;
      match highest_bit 32 reg with
      | Some b => ret (i * NUM_INTS_PER_REG + b)
      | None => probe_max_it_loop gicd_base n'
      end
  end.
Definition probe_max_it (gicc_base gicd_base : Z) : K Z :=
  let max_regs := (GIC_MAX_INTS + NUM_INTS_PER_REG - 1) / NUM_INTS_PER_REG - 1 in
  old_ctlr <- read32 (gicc_base + GICC_CTLR);;
  write32 0 (gicc_base + GICC_CTLR);;;
  r <- probe_max_it_loop gicd_base (Z.to_nat (max_regs + 1));;
  write32 old_ctlr (gicc_base + GICC_CTLR);;; ret r.

Definition gic_cpu_init : K unit :=
  gicd <- get_gic gicd_base;; gicc <- get_gic gicc_base;;
  massert (ret (truth gicd && truth gicc));;;
  write32 0xffff00ff (gicd + GICD_IGROUPR 0);;;
  write32 0x80 (gicc + GICC_PMR);;;
  write32 (Z.lor (Z.lor GICC_CTLR_ENABLEGRP0 GICC_CTLR_ENABLEGRP1) GICC_CTLR_FIQEN) (gicc + GICC_CTLR).

Definition gic_init : K unit :=
  gd <- get_gic id;;
  for_each (seqZ 0 (max_it gd / NUM_INTS_PER_REG + 1)) (fun n =>
    write32 0xffffffff (gicd_base gd + GICD_ICENABLER n);;;
    write32 0xffffffff (gicd_base gd + GICD_ICPENDR n);;;
    if n =? 0 then write32 0xffff00ff (gicd_base gd + GICD_IGROUPR n)
    else write32 0xffffffff (gicd_base gd + GICD_IGROUPR n));;;
  write32 0x80 (gicc_base gd + GICC_PMR);;;
  write32 (Z.lor (Z.lor GICC_CTLR_ENABLEGRP0 GICC_CTLR_ENABLEGRP1) GICC_CTLR_FIQEN)
    (gicc_base gd + GICC_CTLR);;;
  v <- read32 (gicd_base gd + GICD_CTLR);;
  write32 (Z.lor (Z.lor v (bit32 0)) (bit32 1)) (gicd_base gd + GICD_CTLR).

(** [gic_probe]; [data] is whether the node is "arm,cortex-a9-gic". *)
Definition gic_probe (dev : dev_ptr) (data : bool) : K Z :=
  if data then
    d <- get_device dev;;
    if negb (Z.of_nat (length (dv_resources d)) =? 2) || negb (bool_decide (dv_resource_type d = RESOURCE_MEM))
    then ret (- EINVAL)
    else
      ' (dist_paddr, _) <- resource_of d 0;;
      ' (cpu_paddr, _) <- resource_of d 1;;
      gicc <- phys_to_virt cpu_paddr MEM_AREA_IO_SEC;; modify_gic (set_gicc_base gicc);;;
      gicd <- phys_to_virt dist_paddr MEM_AREA_IO_SEC;; modify_gic (set_gicd_base gicd);;;
      m <- probe_max_it gicc gicd;; modify_gic (set_max_it m);;;
      gic_init;;;
      irq_construct_chip CHIP_GIC dev GIC_OPS m false;;; ret 0
  else
    m <- get_gic max_it;;
    irq_construct_chip CHIP_GPC dev GIC_OPS m false;;; ret 0.

Definition gic_it_add (it : Z) : K unit :=
  gicd_write (it_mask it) (GICD_ICENABLER (it_idx it));;;
  gicd_write (it_mask it) (GICD_ICPENDR (it_idx it));;;
  g <- gicd_read (GICD_IGROUPR (it_idx it));;
  gicd_write (Z.land g (not32 (it_mask it))) (GICD_IGROUPR (it_idx it)).

(** [assert(!(read32(IGROUPR) & mask))] *)
Definition assert_group0 (it : Z) : K unit :=
  massert (g <- gicd_read (GICD_IGROUPR (it_idx it));; ret (negb (truth (Z.land g (it_mask it))))).

Definition gic_it_set_cpu_mask (it cpu_mask : Z) : K unit :=
  assert_group0 it;;;
  target <- gicd_read (GICD_ITARGETSR (it / NUM_TARGETS_PER_REG));;
  let target_shift := it mod NUM_TARGETS_PER_REG * ITARGETSR_FIELD_BITS in
  let target := Z.land target (not32 (shl32 ITARGETSR_FIELD_MASK target_shift)) in
  let target := Z.lor target (shl32 cpu_mask target_shift) in
  gicd_write target (GICD_ITARGETSR (it / NUM_TARGETS_PER_REG)).

Definition gic_it_set_prio (it prio : Z) : K unit :=
  assert_group0 it;;;
  b <- get_gic gicd_base;; write8 prio (b + GICD_IPRIORITYR 0 + it).

Definition gic_it_enable (it : Z) : K unit :=
  assert_group0 it;;;
  on <- (if NUM_SGI <=? it then
           e <- gicd_read (GICD_ISENABLER (it_idx it));; ret (truth (Z.land e (it_mask it)))
         else ret false);;
  if on then ret tt else gicd_write (it_mask it) (GICD_ISENABLER (it_idx it)).

Definition gic_it_disable (it : Z) : K unit :=
  gicd_write (it_mask it) (GICD_ICENABLER (it_idx it)).

Definition gic_it_secure (it : Z) : K unit :=
  g <- gicd_read (GICD_IGROUPR (it_idx it));;
  if negb (truth (Z.land g (it_mask it))) then ret tt
  else
  e <- gicd_read (GICD_ISENABLER (it_idx it));;
  let enabled := truth (Z.land e (it_mask it)) in
  when enabled (gicd_write (it_mask it) (GICD_ICENABLER (it_idx it)));;;
  g <- gicd_read (GICD_IGROUPR (it_idx it));;
  gicd_write (Z.land g (not32 (it_mask it))) (GICD_IGROUPR (it_idx it));;;
  gic_it_set_prio it 1;;;
  when enabled (gicd_write (it_mask it) (GICD_ISENABLER (it_idx it))).

Definition gic_it_unsecure (it : Z) : K unit :=
  g <- gicd_read (GICD_IGROUPR (it_idx it));;
  if truth (Z.land g (it_mask it)) then ret tt
  else
  e <- gicd_read (GICD_ISENABLER (it_idx it));;
  let enabled := truth (Z.land e (it_mask it)) in
  when enabled (gicd_write (it_mask it) (GICD_ICENABLER (it_idx it)));;;
  g <- gicd_read (GICD_IGROUPR (it_idx it));;
  gicd_write (Z.lor g (it_mask it)) (GICD_IGROUPR (it_idx it));;;
  when enabled (gicd_write (it_mask it) (GICD_ISENABLER (it_idx it))).

Definition gic_it_set_pending (it : Z) : K unit :=
  massert (ret (NUM_SGI <=? it));;;
  gicd_write (it_mask it) (GICD_ISPENDR (it_idx it)).

Definition gic_it_raise_sgi (it cpu_mask group : Z) : K unit :=
  let mask_id := Z.land it 0xf in
  let mask_group := Z.land group 1 in
  let mask_cpu := Z.land cpu_mask 0xff in
  let mask := Z.lor (Z.lor mask_id (shl32 mask_group 15)) (shl32 mask_cpu 16) in
  massert (ret (it <? NUM_SGI));;;
  gicd_write mask GICD_SGIR.

Definition gic_read_iar : K Z := b <- get_gic gicc_base;; read32 (b + GICC_IAR).
Definition gic_write_eoir (eoir : Z) : K unit := b <- get_gic gicc_base;; write32 eoir (b + GICC_EOIR).

Definition gic_it_is_enabled (it : Z) : K bool :=
  e <- gicd_read (GICD_ISENABLER (it_idx it));; ret (truth (Z.land e (it_mask it))).
Definition gic_it_get_group (it : Z) : K bool :=
  g <- gicd_read (GICD_IGROUPR (it_idx it));; ret (truth (Z.land g (it_mask it))).
Definition gic_it_get_target (it : Z) : K Z :=
  let target_shift := it mod NUM_TARGETS_PER_REG * ITARGETSR_FIELD_BITS in
  let target_mask := shl32 ITARGETSR_FIELD_MASK target_shift in
  t <- gicd_read (GICD_ITARGETSR (it / NUM_TARGETS_PER_REG));;
  ret (Z.shiftr (Z.land t target_mask) target_shift).

Definition gic_it_handle : K unit :=
  iar <- gic_read_iar;;
  let id := Z.land iar GICC_IAR_IT_ID_MASK in
  m <- get_gic max_it;;
  when (id <? m) (
    gpc <- get_chip CHIP_GPC;;
    h <- aget (ic_handlers gpc) id;;
    (if bool_decide (is_Some h) then irq_handle CHIP_GPC id else irq_handle CHIP_GIC id);;; ret tt);;;
  gic_write_eoir iar.

(** The operations of [gic_ops]. *)
Definition gic_op_map (chip : chip_ptr) (dt_spec : list Z) : K (Z * Z * Z) :=
  c0 <- aget dt_spec 0;; c1 <- aget dt_spec 1;; c2 <- aget dt_spec 2;;
  let irq := u32 ((if c0 =? 0 then 32 else 16) + c1) in
  m <- get_gic max_it;;
  ret (if irq <? m then 0 else - EINVAL, irq, c2).
Definition gic_op_add (chip : chip_ptr) (it flags : Z) : K Z :=
  gic_it_add it;;; gic_it_set_cpu_mask it 1;;; gic_it_set_prio it 1;;; ret 0.
Definition gic_op_enable (chip : chip_ptr) (it : Z) : K Z := gic_it_enable it;;; ret 0.
Definition gic_op_disable (chip : chip_ptr) (it : Z) : K Z := gic_it_disable it;;; ret 0.
Definition gic_op_secure (chip : chip_ptr) (it : Z) : K Z := gic_it_secure it;;; ret 0.
Definition gic_op_unsecure (chip : chip_ptr) (it : Z) : K Z := gic_it_unsecure it;;; ret 0.
Definition gic_op_raise (chip : chip_ptr) (it : Z) : K Z := gic_it_set_pending it;;; ret 0.
Definition gic_op_raise_sgi (chip : chip_ptr) (it cpu_mask : Z) : K Z :=
  gic_it_raise_sgi it cpu_mask (if it <? NUM_NS_SGI then 1 else 0);;; ret 0.
Definition gic_op_set_affinity (chip : chip_ptr) (it cpu_mask : Z) : K Z :=
  gic_it_set_cpu_mask it cpu_mask;;; ret 0.
End gic.

(** [gic_ops]: the initialiser has no [.remove]. *)
Definition gic_ops {P} `{Platform P, Config} : irq_ops P :=
  IrqOps (Some gic_op_map) (Some gic_op_add) None (Some gic_op_enable) (Some gic_op_disable)
    (Some gic_op_secure) (Some gic_op_unsecure) (Some gic_op_raise) (Some gic_op_raise_sgi)
    (Some gic_op_set_affinity).

(** ** The distributor *)

Definition gicd_window (b : Z) (k : bool) (a n : Z) : Prop := b <= a /\ a + n <= b + 0x1000.

(** Documented behaviour of the distributor at [b] for the implemented
    interrupts [impl]: each has a group bit and an enable bit, the group
    registers are read/write, a write of ones to the set (clear) enable
    registers sets (clears) the enable bits, and the priority bytes affect
    neither. *)
Class GicDist (P : Type) `{Platform P} (b : Z) (impl : Z -> Prop) := {
  gic_group : P -> Z -> bool;
  gic_enabled : P -> Z -> bool;
  impl_range : forall it, impl it -> 0 <= it < GIC_MAX_INTS;
  igroupr_read : forall n p it, 0 <= n < 32 -> impl it ->
    let x := io_read 4 (u32 (b + GICD_IGROUPR n)) p in
    (it_idx it = n -> Z.testbit x.1 (it mod 32) = gic_group p it) /\
    gic_group x.2 it = gic_group p it /\ gic_enabled x.2 it = gic_enabled p it;
  igroupr_write : forall n v p it, 0 <= n < 32 -> impl it ->
    let p' := io_write 4 (u32 (b + GICD_IGROUPR n)) v p in
    gic_group p' it = (if it_idx it =? n then Z.testbit v (it mod 32) else gic_group p it) /\
    gic_enabled p' it = gic_enabled p it;
  isenabler_read : forall n p it, 0 <= n < 32 -> impl it ->
    let x := io_read 4 (u32 (b + GICD_ISENABLER n)) p in
    (it_idx it = n -> Z.testbit x.1 (it mod 32) = gic_enabled p it) /\
    gic_group x.2 it = gic_group p it /\ gic_enabled x.2 it = gic_enabled p it;
  isenabler_write : forall n v p it, 0 <= n < 32 -> impl it ->
    let p' := io_write 4 (u32 (b + GICD_ISENABLER n)) v p in
    gic_group p' it = gic_group p it /\
    gic_enabled p' it = gic_enabled p it || ((it_idx it =? n) && Z.testbit v (it mod 32));
  icenabler_write : forall n v p it, 0 <= n < 32 -> impl it ->
    let p' := io_write 4 (u32 (b + GICD_ICENABLER n)) v p in
    gic_group p' it = gic_group p it /\
    gic_enabled p' it = gic_enabled p it && negb ((it_idx it =? n) && Z.testbit v (it mod 32));
  ipriorityr_write : forall j v p it, impl it -> impl j ->
    let p' := io_write 1 (u32 (b + GICD_IPRIORITYR 0 + j)) v p in
    gic_group p' it = gic_group p it /\ gic_enabled p' it = gic_enabled p it;
}.

Section gic_lemmas.
Context {P : Type} {plat : Platform P} {cfg : Config} (b : Z) (impl : Z -> Prop) {dist : GicDist P b impl}.
Context (Hb : 0 <= b) (Hb' : b + 0x1000 <= 2 ^ 32).
Implicit Types s : kernel P.

(** The state of the distributor, as two functions. *)
Definition gview (p : P) (g e : Z -> bool) : Prop :=
  forall it, impl it -> gic_group p it = g it /\ gic_enabled p it = e it.

(** An access of the driver: only the distributor moves, to [g] and [e]. *)
Definition gic_to (s : kernel P) (g e : Z -> bool) (s' : kernel P) : Prop :=
  io_step (gicd_window b) s s' /\ gview (k_plat s') g e.

Lemma gicd_off k n off : 0 < n -> 0 <= off -> off + n <= 0x1000 -> gicd_window b k (u32 (b + off)) n.
Proof. intros. unfold gicd_window. rewrite u32_small by (unfold is_u32; lia). lia. Qed.

Lemma it_mask_testbit it it' :
  impl it -> impl it' -> it_idx it' = it_idx it -> Z.testbit (it_mask it) (it' mod 32) = (it' =? it).
Proof.
  intros Hi Hi' Heq. pose proof (impl_range _ Hi). pose proof (impl_range _ Hi').
  unfold it_mask, it_idx, NUM_INTS_PER_REG in *.
  pose proof (Z.mod_pos_bound it 32 ltac:(lia)). pose proof (Z.mod_pos_bound it' 32 ltac:(lia)).
  rewrite bit32_testbit, (proj2 (Z.ltb_lt (it' mod 32) 32)) by lia. simpl.
  pose proof (Z.div_mod it 32 ltac:(lia)). pose proof (Z.div_mod it' 32 ltac:(lia)).
  destruct (Z.eqb_spec it' it) as [->|]; [apply Z.eqb_refl|apply Z.eqb_neq; lia].
Qed.
Lemma it_idx_range it : impl it -> 0 <= it_idx it < 32.
Proof.
  intros Hi. pose proof (impl_range _ Hi). unfold it_idx, NUM_INTS_PER_REG, GIC_MAX_INTS in *.
  split; [apply Z.div_pos|apply Z.div_lt_upper_bound]; lia.
Qed.

Lemma truth_mask v it :
  impl it -> truth (Z.land v (it_mask it)) = Z.testbit v (it mod 32).
Proof. intros. apply truth_land_bit. apply Z.mod_pos_bound. lia. Qed.

Lemma gicd_read_run off s :
  gicd_base (k_gic s) = b ->
  gicd_read off s = Ret (u32 (io_read 4 (u32 (b + off)) (k_plat s)).1)
    (set_k_plat (io_read 4 (u32 (b + off)) (k_plat s)).2 s).
Proof.
  intros Hs. unfold gicd_read, get_gic. erewrite bind_run by done. rewrite Hs. unfold read32, io_load. cbn.
  by destruct (io_read _ _ _).
Qed.
Lemma gicd_write_run v off s :
  gicd_base (k_gic s) = b ->
  gicd_write v off s = Ret tt (set_k_plat (io_write 4 (u32 (b + off)) (u32 v) (k_plat s)) s).
Proof. intros Hs. unfold gicd_write, get_gic. erewrite bind_run by done. by rewrite Hs. Qed.

Lemma io_step_read off s :
  0 <= off -> off + 4 <= 0x1000 ->
  io_step (gicd_window b) s (set_k_plat (io_read 4 (u32 (b + off)) (k_plat s)).2 s).
Proof. intros. eexists. split; [done|]. eapply io_path_read; [|apply gicd_off|constructor]; lia. Qed.
Lemma io_step_write n v off s :
  0 < n -> 0 <= off -> off + n <= 0x1000 ->
  io_step (gicd_window b) s (set_k_plat (io_write n (u32 (b + off)) v (k_plat s)) s).
Proof. intros. eexists. split; [done|]. eapply io_path_write; [|apply gicd_off|constructor]; lia. Qed.

Lemma mod32_range it : 0 <= it mod 32 < 32.
Proof. apply Z.mod_pos_bound. lia. Qed.

Lemma wp_read_group s g e it (Q : Z -> kernel P -> Prop) :
  impl it -> gicd_base (k_gic s) = b -> gview (k_plat s) g e ->
  (forall v s', gicd_base (k_gic s') = b -> gic_to s g e s' ->
     (forall it', impl it' -> it_idx it' = it_idx it -> Z.testbit v (it' mod 32) = g it') -> Q v s') ->
  wp (gicd_read (GICD_IGROUPR (it_idx it))) s Q.
Proof.
  intros Hi Hs Hg HQ. unfold wp. rewrite gicd_read_run by done. pose proof (it_idx_range _ Hi) as Hr.
  apply HQ; [done| |].
  - split; [apply io_step_read; unfold GICD_IGROUPR; lia|]. intros j Hj. cbn.
    destruct (igroupr_read (it_idx it) (k_plat s) j Hr Hj) as (_ & -> & ->). by apply Hg.
  - intros j Hj Heq. rewrite u32_testbit by apply mod32_range.
    rewrite (proj2 (Z.ltb_lt _ 32)) by apply mod32_range. simpl.
    destruct (igroupr_read (it_idx it) (k_plat s) j Hr Hj) as [Ht _]. rewrite Ht by done. by apply Hg.
Qed.
Lemma wp_read_enabled s g e it (Q : Z -> kernel P -> Prop) :
  impl it -> gicd_base (k_gic s) = b -> gview (k_plat s) g e ->
  (forall v s', gicd_base (k_gic s') = b -> gic_to s g e s' ->
     Z.testbit v (it mod 32) = e it -> Q v s') ->
  wp (gicd_read (GICD_ISENABLER (it_idx it))) s Q.
Proof.
  intros Hi Hs Hg HQ. unfold wp. rewrite gicd_read_run by done. pose proof (it_idx_range _ Hi) as Hr.
  apply HQ; [done| |].
  - split; [apply io_step_read; unfold GICD_ISENABLER; lia|]. intros j Hj. cbn.
    destruct (isenabler_read (it_idx it) (k_plat s) j Hr Hj) as (_ & -> & ->). by apply Hg.
  - rewrite u32_testbit by apply mod32_range.
    rewrite (proj2 (Z.ltb_lt _ 32)) by apply mod32_range. simpl.
    destruct (isenabler_read (it_idx it) (k_plat s) it Hr Hi) as [Ht _]. rewrite Ht by done. by apply Hg.
Qed.

Lemma wp_write_group s g e v it (Q : unit -> kernel P -> Prop) :
  impl it -> gicd_base (k_gic s) = b -> gview (k_plat s) g e ->
  (forall s', gicd_base (k_gic s') = b ->
     gic_to s (fun j => if it_idx j =? it_idx it then Z.testbit v (j mod 32) else g j) e s' -> Q tt s') ->
  wp (gicd_write v (GICD_IGROUPR (it_idx it))) s Q.
Proof.
  intros Hi Hs Hg HQ. unfold wp. rewrite gicd_write_run by done. pose proof (it_idx_range _ Hi) as Hr.
  apply HQ; [done|]. split; [apply io_step_write; unfold GICD_IGROUPR; lia|]. intros j Hj. cbn.
  destruct (igroupr_write (it_idx it) (u32 v) (k_plat s) j Hr Hj) as (-> & ->). split; [|by apply Hg].
  rewrite u32_testbit, (proj2 (Z.ltb_lt _ 32)) by apply mod32_range. simpl.
  by rewrite (proj1 (Hg j Hj)).
Qed.
Lemma wp_set_enable s g e it (Q : unit -> kernel P -> Prop) :
  impl it -> gicd_base (k_gic s) = b -> gview (k_plat s) g e ->
  (forall s', gicd_base (k_gic s') = b -> gic_to s g (fun j => e j || (j =? it)) s' -> Q tt s') ->
  wp (gicd_write (it_mask it) (GICD_ISENABLER (it_idx it))) s Q.
Proof.
  intros Hi Hs Hg HQ. unfold wp. rewrite gicd_write_run by done. pose proof (it_idx_range _ Hi) as Hr.
  apply HQ; [done|]. split; [apply io_step_write; unfold GICD_ISENABLER; lia|]. intros j Hj. cbn.
  destruct (isenabler_write (it_idx it) (u32 (it_mask it)) (k_plat s) j Hr Hj) as (-> & ->).
  split; [by apply Hg|]. rewrite (proj2 (Hg j Hj)). f_equal. unfold it_mask at 1, bit32 at 1. rewrite u32_u32.
  destruct (Z.eqb_spec (it_idx j) (it_idx it)) as [Heq|Hne]; simpl; [by apply it_mask_testbit|].
  symmetry. apply Z.eqb_neq. by intros ->.
Qed.
Lemma wp_clear_enable s g e it (Q : unit -> kernel P -> Prop) :
  impl it -> gicd_base (k_gic s) = b -> gview (k_plat s) g e ->
  (forall s', gicd_base (k_gic s') = b -> gic_to s g (fun j => e j && negb (j =? it)) s' -> Q tt s') ->
  wp (gicd_write (it_mask it) (GICD_ICENABLER (it_idx it))) s Q.
Proof.
  intros Hi Hs Hg HQ. unfold wp. rewrite gicd_write_run by done. pose proof (it_idx_range _ Hi) as Hr.
  apply HQ; [done|]. split; [apply io_step_write; unfold GICD_ICENABLER; lia|]. intros j Hj. cbn.
  destruct (icenabler_write (it_idx it) (u32 (it_mask it)) (k_plat s) j Hr Hj) as (-> & ->).
  split; [by apply Hg|]. rewrite (proj2 (Hg j Hj)). f_equal. f_equal. unfold it_mask at 1, bit32 at 1.
  rewrite u32_u32. destruct (Z.eqb_spec (it_idx j) (it_idx it)) as [Heq|Hne]; simpl; [by apply it_mask_testbit|].
  symmetry. apply Z.eqb_neq. by intros ->.
Qed.

Lemma gic_to_trans s g e s' g' e' s'' : gic_to s g e s' -> gic_to s' g' e' s'' -> gic_to s g' e' s''.
Proof. intros [H1 _] [H2 Hv]. split; [by eapply io_step_trans|done]. Qed.

(** Functions that agree on the implemented interrupts. *)
Lemma gic_to_ext s g e g' e' s' :
  (forall j, impl j -> g j = g' j /\ e j = e' j) -> gic_to s g e s' -> gic_to s g' e' s'.
Proof. intros H [H1 Hv]. split; [done|]. intros j Hj. destruct (H j Hj) as [<- <-]. by apply Hv. Qed.

Lemma wp_assert_group0 s g e it (Q : unit -> kernel P -> Prop) :
  impl it -> gicd_base (k_gic s) = b -> gview (k_plat s) g e -> g it = false ->
  (forall s', gicd_base (k_gic s') = b -> gic_to s g e s' -> Q tt s') ->
  wp (assert_group0 it) s Q.
Proof.
  intros Hi Hs Hg Hz HQ. unfold assert_group0. apply wp_massert.
  - apply wp_bind, (wp_read_group s g e it); [done..|]. intros v s' Hs' Hto Hv. apply wp_ret.
    rewrite truth_mask, Hv, Hz by done. split; [done|]. by apply HQ.
  - apply HQ; [done|]. split; [apply io_step_refl|done].
Qed.

Lemma wp_set_prio s g e it prio (Q : unit -> kernel P -> Prop) :
  impl it -> gicd_base (k_gic s) = b -> gview (k_plat s) g e -> g it = false ->
  (forall s', gicd_base (k_gic s') = b -> gic_to s g e s' -> Q tt s') ->
  wp (gic_it_set_prio it prio) s Q.
Proof.
  intros Hi Hs Hg Hz HQ. unfold gic_it_set_prio. apply wp_bind, (wp_assert_group0 s g e); [done..|].
  intros s1 Hs1 [H1 Hv1]. apply wp_bind, wp_gets. rewrite Hs1. unfold wp, write8, io_store.
  pose proof (impl_range _ Hi) as Hr. unfold GIC_MAX_INTS in Hr.
  apply HQ; [done|]. apply (gic_to_trans s g e s1); [done|]. split.
  - rewrite <- Z.add_assoc. apply io_step_write; unfold GICD_IPRIORITYR; lia.
  - intros j Hj. cbn. destruct (ipriorityr_write it (prio mod 2 ^ (8 * 1)) (k_plat s1) j Hj Hi) as (-> & ->).
    by apply Hv1.
Qed.

(** Conditionally masking an interrupt around a change of its group. *)
Lemma wp_clear_if s g e it (Q : unit -> kernel P -> Prop) :
  impl it -> gicd_base (k_gic s) = b -> gview (k_plat s) g e ->
  (forall s', gicd_base (k_gic s') = b -> gic_to s g (fun j => e j && negb (j =? it)) s' -> Q tt s') ->
  wp (when (e it) (gicd_write (it_mask it) (GICD_ICENABLER (it_idx it)))) s Q.
Proof.
  intros Hi Hs Hg HQ. apply wp_when. destruct (e it) eqn:He; [by eapply wp_clear_enable|].
  apply HQ; [done|]. split; [apply io_step_refl|]. intros j Hj. destruct (Hg j Hj) as [-> ->]. split; [done|].
  destruct (Z.eqb_spec j it) as [->|]; [by rewrite He|by rewrite andb_true_r].
Qed.
Lemma wp_restore_if s g e it (Q : unit -> kernel P -> Prop) :
  impl it -> gicd_base (k_gic s) = b -> gview (k_plat s) g (fun j => e j && negb (j =? it)) ->
  (forall s', gicd_base (k_gic s') = b -> gic_to s g e s' -> Q tt s') ->
  wp (when (e it) (gicd_write (it_mask it) (GICD_ISENABLER (it_idx it)))) s Q.
Proof.
  intros Hi Hs Hg HQ. apply wp_when. destruct (e it) eqn:He.
  - eapply wp_set_enable; [done..|]. intros s' Hs' Hto. apply HQ; [done|].
    eapply gic_to_ext; [|exact Hto]. intros j Hj. split; [done|]. simpl.
    destruct (Z.eqb_spec j it) as [->|]; [by rewrite He|by rewrite andb_true_r, orb_false_r].
  - apply HQ; [done|]. split; [apply io_step_refl|]. intros j Hj. destruct (Hg j Hj) as [-> ->]. split; [done|].
    destruct (Z.eqb_spec j it) as [->|]; [by rewrite He|by rewrite andb_true_r].
Qed.

(** The group registers after the bit of [it] was written. *)
Lemma group_bit_ext g it v (bit : bool) s e s' :
  impl it -> (forall j, impl j -> it_idx j = it_idx it -> Z.testbit v (j mod 32) = if j =? it then bit else g j) ->
  gic_to s (fun j => if it_idx j =? it_idx it then Z.testbit v (j mod 32) else g j) e s' ->
  gic_to s (fun j => if j =? it then bit else g j) e s'.
Proof.
  intros Hi Hv. apply gic_to_ext. intros j Hj. split; [|done].
  destruct (Z.eqb_spec (it_idx j) (it_idx it)) as [Heq|Hne]; [by apply Hv|].
  destruct (Z.eqb_spec j it) as [->|]; done.
Qed.

Lemma gic_it_secure_view s g e it :
  impl it -> gicd_base (k_gic s) = b -> gview (k_plat s) g e ->
  wp (gic_it_secure it) s (fun _ s' => gic_to s (fun j => if j =? it then false else g j) e s').
Proof.
  intros Hi Hs Hg. unfold gic_it_secure. apply wp_bind, (wp_read_group s g e it); [done..|].
  intros v s1 Hs1 T1 Hv. rewrite truth_mask, Hv by done. destruct (g it) eqn:Hgi; simpl; cycle 1.
  { apply wp_ret. eapply gic_to_ext; [|exact T1]. intros j Hj. split; [|done].
    by destruct (Z.eqb_spec j it) as [->|]. }
  apply wp_bind, (wp_read_enabled s1 g e it); [done|done|apply T1|]. intros ev s2 Hs2 T2 He.
  rewrite truth_mask, He by done.
  apply wp_bind, (wp_clear_if s2 g e it); [done|done|apply T2|]. intros s3 Hs3 T3.
  apply wp_bind, (wp_read_group s3 g (fun j => e j && negb (j =? it)) it); [done|done|apply T3|].
  intros v2 s4 Hs4 T4 Hv2.
  apply wp_bind, (wp_write_group s4 g (fun j => e j && negb (j =? it)) _ it); [done|done|apply T4|].
  intros s5 Hs5 T5. apply (group_bit_ext _ _ _ false) in T5; [|done|]; cycle 1.
  { intros j Hj Heq. rewrite Z.land_spec, not32_testbit, Hv2, it_mask_testbit by (done || apply mod32_range).
    rewrite (proj2 (Z.ltb_lt _ 32)) by apply mod32_range. destruct (j =? it); simpl; by rewrite ?andb_true_r, ?andb_false_r. }
  apply wp_bind, (wp_set_prio s5 (fun j => if j =? it then false else g j) (fun j => e j && negb (j =? it)));
    [done|done|apply T5|by rewrite Z.eqb_refl|]. intros s6 Hs6 T6.
  apply (wp_restore_if s6 (fun j => if j =? it then false else g j)); [done|done|apply T6|]. intros s7 Hs7 T7.
  refine (gic_to_trans _ _ _ _ _ _ _ T1 _). refine (gic_to_trans _ _ _ _ _ _ _ T2 _). refine (gic_to_trans _ _ _ _ _ _ _ T3 _). refine (gic_to_trans _ _ _ _ _ _ _ T4 _). refine (gic_to_trans _ _ _ _ _ _ _ T5 _). refine (gic_to_trans _ _ _ _ _ _ _ T6 _). exact T7.
Qed.

Lemma gic_it_unsecure_view s g e it :
  impl it -> gicd_base (k_gic s) = b -> gview (k_plat s) g e ->
  wp (gic_it_unsecure it) s (fun _ s' => gic_to s (fun j => if j =? it then true else g j) e s').
Proof.
  intros Hi Hs Hg. unfold gic_it_unsecure. apply wp_bind, (wp_read_group s g e it); [done..|].
  intros v s1 Hs1 T1 Hv. rewrite truth_mask, Hv by done. destruct (g it) eqn:Hgi.
  { apply wp_ret. eapply gic_to_ext; [|exact T1]. intros j Hj. split; [|done].
    by destruct (Z.eqb_spec j it) as [->|]. }
  apply wp_bind, (wp_read_enabled s1 g e it); [done|done|apply T1|]. intros ev s2 Hs2 T2 He.
  rewrite truth_mask, He by done.
  apply wp_bind, (wp_clear_if s2 g e it); [done|done|apply T2|]. intros s3 Hs3 T3.
  apply wp_bind, (wp_read_group s3 g (fun j => e j && negb (j =? it)) it); [done|done|apply T3|].
  intros v2 s4 Hs4 T4 Hv2.
  apply wp_bind, (wp_write_group s4 g (fun j => e j && negb (j =? it)) _ it); [done|done|apply T4|].
  intros s5 Hs5 T5. apply (group_bit_ext _ _ _ true) in T5; [|done|]; cycle 1.
  { intros j Hj Heq. rewrite Z.lor_spec, Hv2, it_mask_testbit by done.
    destruct (j =? it); by rewrite ?orb_true_r, ?orb_false_r. }
  apply (wp_restore_if s5 (fun j => if j =? it then true else g j)); [done|done|apply T5|]. intros s6 Hs6 T6.
  refine (gic_to_trans _ _ _ _ _ _ _ T1 _). refine (gic_to_trans _ _ _ _ _ _ _ T2 _). refine (gic_to_trans _ _ _ _ _ _ _ T3 _). refine (gic_to_trans _ _ _ _ _ _ _ T4 _). refine (gic_to_trans _ _ _ _ _ _ _ T5 _). exact T6.
Qed.

Lemma gic_it_disable_view s g e it :
  impl it -> gicd_base (k_gic s) = b -> gview (k_plat s) g e ->
  wp (gic_it_disable it) s (fun _ s' => gic_to s g (fun j => e j && negb (j =? it)) s').
Proof. intros. by eapply wp_clear_enable. Qed.

Lemma gic_it_enable_view s g e it :
  impl it -> gicd_base (k_gic s) = b -> gview (k_plat s) g e -> g it = false \/ cfg_ndebug = true ->
  wp (gic_it_enable it) s (fun _ s' => gic_to s g (fun j => e j || (j =? it)) s').
Proof.
  intros Hi Hs Hg Hgrp. unfold gic_it_enable. apply wp_bind.
  assert (Has : wp (assert_group0 it) s (fun _ s' => gicd_base (k_gic s') = b /\ gic_to s g e s')).
  { destruct Hgrp as [Hz|Hnd]; [by apply (wp_assert_group0 s g e)|].
    unfold assert_group0, massert. rewrite Hnd. apply wp_ret. split; [done|]. split; [apply io_step_refl|done]. }
  eapply wp_mono; [|exact Has]. intros [] s1 [Hs1 T1]. apply wp_bind.
  assert (Hrd : wp (if NUM_SGI <=? it then
           e <- gicd_read (GICD_ISENABLER (it_idx it));; ret (truth (Z.land e (it_mask it)))
         else ret false) s1 (fun on s2 => gicd_base (k_gic s2) = b /\ gic_to s1 g e s2 /\ (on = true -> e it = true))).
  { destruct (_ <=? _).
    - apply wp_bind, (wp_read_enabled s1 g e it); [done|done|apply T1|]. intros v s2 Hs2 T2 He.
      apply wp_ret. rewrite truth_mask, He by done. done.
    - apply wp_ret. split; [done|]. split; [|done]. split; [apply io_step_refl|apply T1]. }
  eapply wp_mono; [|exact Hrd]. intros [] s2 (Hs2 & T2 & Hon).
  - apply wp_ret. eapply gic_to_ext; [|exact (gic_to_trans _ _ _ _ _ _ _ T1 T2)]. intros j Hj. split; [done|].
    destruct (Z.eqb_spec j it) as [->|]; [by rewrite Hon|by rewrite orb_false_r].
  - eapply wp_set_enable; [done|done|apply T2|]. intros s3 Hs3 T3.
    refine (gic_to_trans _ _ _ _ _ _ _ T1 _). refine (gic_to_trans _ _ _ _ _ _ _ T2 _). exact T3.
Qed.
End gic_lemmas.

(** ** A concrete distributor *)

Record gicsim := mk_gicsim { gs_group : Z -> bool; gs_enabled : Z -> bool }.
Definition gs_base : Z := 0x00A01000.
(** The word of 32 bits [f (32 n)], ..., [f (32 n + 31)]. *)
Definition bits_word (f : Z -> bool) (n : Z) : Z :=
  foldr (fun i acc => Z.lor (if f (32 * n + i) then bit32 i else 0) acc) 0 (seqZ 0 32).
Definition in_word (it n : Z) : bool := (it_idx it =? n).

#[global] Instance gicsim_platform : Platform gicsim := {
  io_read n a p :=
    let off := a - gs_base in
    if (0x80 <=? off) && (off <? 0x100) then (bits_word (gs_group p) ((off - 0x80) / 4), p)
    else if (0x100 <=? off) && (off <? 0x180) then (bits_word (gs_enabled p) ((off - 0x100) / 4), p)
    else (0, p);
  io_write n a v p :=
    let off := a - gs_base in
    if (0x80 <=? off) && (off <? 0x100) then
      mk_gicsim (fun it => if in_word it ((off - 0x80) / 4) then Z.testbit v (it mod 32) else gs_group p it)
        (gs_enabled p)
    else if (0x100 <=? off) && (off <? 0x180) then
      mk_gicsim (gs_group p)
        (fun it => gs_enabled p it || (in_word it ((off - 0x100) / 4) && Z.testbit v (it mod 32)))
    else if (0x180 <=? off) && (off <? 0x200) then
      mk_gicsim (gs_group p)
        (fun it => gs_enabled p it && negb (in_word it ((off - 0x180) / 4) && Z.testbit v (it mod 32)))
    else p;
  heap_alloc n p := Some p;
  heap_free n p := p;
  par_of_va va p := Z.land va (not32 0xfff);
}.

Lemma bits_word_testbit f n i : 0 <= i < 32 -> Z.testbit (bits_word f n) i = f (32 * n + i).
Proof.
  intros Hi. unfold bits_word.
  assert (Hgen : forall l, Forall (fun k => 0 <= k < 32) l -> NoDup l ->
    Z.testbit (foldr (fun i acc => Z.lor (if f (32 * n + i) then bit32 i else 0) acc) 0 l) i =
      bool_decide (i ∈ l) && f (32 * n + i)).
  { induction l as [|k l IH]; intros Hr Hnd; cbn [foldr]; [by rewrite Z.bits_0|].
    apply Forall_cons in Hr as [Hk Hr]. apply NoDup_cons in Hnd as [Hnk Hnd].
    rewrite Z.lor_spec, IH by done.
    assert (Hb : Z.testbit (if f (32 * n + k) then bit32 k else 0) i = (i =? k) && f (32 * n + k)).
    { destruct (f (32 * n + k)); cbv iota; [|by rewrite Z.bits_0, andb_false_r].
      rewrite bit32_testbit, (proj2 (Z.ltb_lt i 32)) by lia. by rewrite andb_true_r. }
    rewrite Hb. destruct (Z.eqb_spec i k) as [->|Hne]; simpl.
    - rewrite (bool_decide_eq_false_2 (k ∈ l)), (bool_decide_eq_true_2 (k ∈ k :: l)) by (done || left).
      by rewrite orb_false_r.
    - f_equal. apply bool_decide_ext. rewrite elem_of_cons. intuition. }
  rewrite Hgen; [|apply Forall_forall; intros k Hk%elem_of_seqZ; lia|apply NoDup_seqZ].
  by rewrite bool_decide_eq_true_2 by (apply elem_of_seqZ; lia).
Qed.

Definition gs_impl (it : Z) : Prop := 0 <= it < GIC_MAX_INTS.
#[global] Instance gs_impl_dec it : Decision (gs_impl it).
Proof. unfold gs_impl. apply _. Defined.

Lemma gs_off off : 0 <= off < 0x1000 -> u32 (gs_base + off) - gs_base = off.
Proof. intros. unfold gs_base in *. rewrite u32_small by (unfold is_u32; lia). lia. Qed.

Lemma gs_reg k n : 0 <= n < 32 -> (k + n * 4 - k) / 4 = n.
Proof. intros. replace (k + n * 4 - k) with (n * 4) by lia. by apply Z.div_mul. Qed.

#[global] Program Instance gicsim_dist : GicDist gicsim gs_base gs_impl := {
  gic_group := gs_group;
  gic_enabled := gs_enabled;
}.
Next Obligation. done. Qed.
Next Obligation.
  intros n p it Hn Hi x. subst x. unfold GICD_IGROUPR. cbn. rewrite gs_off by lia.
  replace ((0x80 <=? _) && _) with true by lia. cbn. split; [|done]. intros Hidx.
  rewrite bits_word_testbit by apply Z.mod_pos_bound, eq_refl. rewrite gs_reg, <- Hidx by done.
  f_equal. unfold it_idx, NUM_INTS_PER_REG. symmetry. apply Z.div_mod. lia.
Qed.
Next Obligation.
  intros n v p it Hn Hi p'. subst p'. unfold GICD_IGROUPR. cbn. rewrite gs_off by lia.
  replace ((0x80 <=? _) && _) with true by lia. cbn. by rewrite gs_reg.
Qed.
Next Obligation.
  intros n p it Hn Hi x. subst x. unfold GICD_ISENABLER. cbn. rewrite gs_off by lia.
  replace ((0x80 <=? _) && _) with false by lia. replace ((0x100 <=? _) && _) with true by lia.
  cbn. split; [|done]. intros Hidx.
  rewrite bits_word_testbit by apply Z.mod_pos_bound, eq_refl. rewrite gs_reg, <- Hidx by done.
  f_equal. unfold it_idx, NUM_INTS_PER_REG. symmetry. apply Z.div_mod. lia.
Qed.
Next Obligation.
  intros n v p it Hn Hi p'. subst p'. unfold GICD_ISENABLER. cbn. rewrite gs_off by lia.
  replace ((0x80 <=? _) && _) with false by lia. replace ((0x100 <=? _) && _) with true by lia.
  cbn. by rewrite gs_reg.
Qed.
Next Obligation.
  intros n v p it Hn Hi p'. subst p'. unfold GICD_ICENABLER. cbn. rewrite gs_off by lia.
  replace ((0x80 <=? _) && _) with false by lia. replace ((0x100 <=? _) && _) with false by lia.
  replace ((0x180 <=? _) && _) with true by lia. cbn. by rewrite gs_reg.
Qed.
Next Obligation.
  intros j v p it Hi Hj p'. subst p'. unfold gs_impl, GIC_MAX_INTS, GICD_IPRIORITYR in *. cbn.
  rewrite <- Z.add_assoc, gs_off by lia.
  replace ((0x80 <=? _) && _) with false by lia. replace ((0x100 <=? _) && _) with false by lia.
  replace ((0x180 <=? _) && _) with false by lia. done.
Qed.

(** ** Properties *)

(** Moving an interrupt to the secure group and back: [gic_it_secure]
    leaves it in group 0 and [gic_it_unsecure] in group 1, whatever its group
    was; both keep its enable state (also when they mask it meanwhile), the
    group and the enable state of every other interrupt, and access nothing
    but the distributor. *)
Theorem gic_group_change {P} `{Platform P, Config} b impl `{!GicDist P b impl} (s : kernel P) it (secure : bool) :
  0 <= b -> b + 0x1000 <= 2 ^ 32 -> impl it -> gicd_base (k_gic s) = b ->
  exists s', (if secure then gic_it_secure it else gic_it_unsecure it) s = Ret tt s' /\
    io_step (gicd_window b) s s' /\
    forall j, impl j ->
      gic_group (k_plat s') j = (if j =? it then negb secure else gic_group (k_plat s) j) /\
      gic_enabled (k_plat s') j = gic_enabled (k_plat s) j.
Proof.
  intros Hb Hb' Hi Hs.
  assert (Hv : gview b impl (k_plat s) (gic_group (k_plat s)) (gic_enabled (k_plat s))) by done.
  destruct secure.
  - destruct (wp_elim _ _ _ (gic_it_secure_view b impl Hb Hb' s _ _ it Hi Hs Hv)) as ([] & s' & Hr & Hst & Hg).
    by exists s'.
  - destruct (wp_elim _ _ _ (gic_it_unsecure_view b impl Hb Hb' s _ _ it Hi Hs Hv)) as ([] & s' & Hr & Hst & Hg).
    by exists s'.
Qed.

(** the sequence [dt_enable_device] uses to give an interrupt back,
    unsecure then enable, succeeds only without assertions: in a debug build
    it panics, because [gic_it_enable] requires group 0; otherwise it leaves
    the interrupt enabled in group 1 and the others untouched. *)
Theorem gic_unsecure_then_enable {P} `{Platform P, Config} b impl `{!GicDist P b impl} (s : kernel P) it :
  0 <= b -> b + 0x1000 <= 2 ^ 32 -> impl it -> gicd_base (k_gic s) = b ->
  if cfg_ndebug then
    exists s', (gic_it_unsecure it;;; gic_it_enable it) s = Ret tt s' /\
      forall j, impl j ->
        gic_group (k_plat s') j = (if j =? it then true else gic_group (k_plat s) j) /\
        gic_enabled (k_plat s') j = gic_enabled (k_plat s) j || (j =? it)
  else (gic_it_unsecure it;;; gic_it_enable it) s = Panic.
Proof.
  intros Hb Hb' Hi Hs.
  assert (Hv : gview b impl (k_plat s) (gic_group (k_plat s)) (gic_enabled (k_plat s))) by done.
  destruct (wp_elim _ _ _ (gic_it_unsecure_view b impl Hb Hb' s _ _ it Hi Hs Hv)) as ([] & s1 & Hr & Hst & Hg).
  assert (Hs1 : gicd_base (k_gic s1) = b) by (by destruct Hst as (? & -> & _)).
  destruct cfg_ndebug eqn:Hnd; (erewrite bind_run by exact Hr).
  - destruct (wp_elim _ _ _ (gic_it_enable_view b impl Hb Hb' s1 _ _ it Hi Hs1 Hg (or_intror Hnd)))
      as ([] & s2 & Hr2 & _ & Hg2). by exists s2.
  - unfold gic_it_enable, assert_group0, massert. rewrite Hnd.
    assert (Hp : wp (gicd_read (GICD_IGROUPR (it_idx it))) s1 (fun v _ => Z.testbit v (it mod 32) = true)).
    { apply (wp_read_group b impl Hb Hb' s1 _ _ it (fun v _ => Z.testbit v (it mod 32) = true) Hi Hs1 Hg).
      intros v s2 _ _ Hv2. rewrite Hv2, Z.eqb_refl by done. done. }
    apply wp_elim in Hp as (v & s2 & Hrd & Hbit). unfold bind at 1 2 3. rewrite Hrd.
    by rewrite (truth_mask impl), Hbit by done.
Qed.

#[local] Instance gic_demo_cfg : Config := { cfg_ndebug := false }.
Definition gic_demo : kernel gicsim :=
  set_k_gic (GicData 0x00A00100 gs_base 160)
    (kernel_init (mk_gicsim (fun _ => true) (fun it => it =? 67))).

Lemma gic_group_change_witness :
  exists s', gic_it_secure 67 gic_demo = Ret tt s' /\ gic_group (k_plat s') 67 = false /\
    gic_enabled (k_plat s') 67 = true.
Proof.
  destruct (gic_group_change gs_base gs_impl gic_demo 67 true) as (s' & Hr & _ & Hj).
  - unfold gs_base. lia.
  - unfold gs_base. lia.
  - unfold gs_impl, GIC_MAX_INTS. lia.
  - done.
  - exists s'. split; [exact Hr|]. destruct (Hj 67) as [Hg He]; [unfold gs_impl, GIC_MAX_INTS; lia|].
    split; [etrans; [exact Hg|reflexivity]|etrans; [exact He|reflexivity]].
Defined.

Lemma gic_unsecure_then_enable_witness :
  (gic_it_unsecure 67;;; gic_it_enable 67) gic_demo = Panic.
Proof.
  assert (Hb : 0 <= gs_base /\ gs_base + 0x1000 <= 2 ^ 32) by (unfold gs_base; lia).
  assert (Hi : gs_impl 67) by (unfold gs_impl, GIC_MAX_INTS; lia).
  exact (gic_unsecure_then_enable gs_base gs_impl gic_demo 67 (proj1 Hb) (proj2 Hb) Hi eq_refl).
Defined.
