(* ===== verification/Gpio.v ===== *)
(** * GPIO ports (core/drivers/imx_gpio.c)

    Each port is a device, an interrupt chip of 32 lines, and an emulated
    region: the non-secure world keeps the pins that are not in
    [secure_mask], and the accesses to the others are filtered by
    [gpio_emu_check]. *)

From stdpp Require Import prelude gmap list.
From Stdlib Require Import ZArith Lia.
From S2P Require Import Prelude Platform State Frame Emulation Interrupt CoreMmu Csu.
#[local] Open Scope Z_scope.
#[local] Open Scope kernel_scope.

(** [enum mxc_gpio_hwtype]; 0 is the unset static. *)
Definition IMX1_GPIO : Z := 1.
Definition IMX21_GPIO : Z := 2.
Definition IMX31_GPIO : Z := 3.
Definition IMX35_GPIO : Z := 4.

Definition imx1_imx21_gpio_hwdata : mxc_gpio_hwdata :=
  MxcGpioHwdata 0x1c 0x00 0x24 0x28 0x2c 0x30 0x34 (- EINVAL) 3 2 0 1.
Definition imx31_gpio_hwdata : mxc_gpio_hwdata :=
  MxcGpioHwdata 0x00 0x04 0x08 0x0c 0x10 0x14 0x18 (- EINVAL) 0 1 2 3.
Definition imx35_gpio_hwdata : mxc_gpio_hwdata :=
  MxcGpioHwdata 0x00 0x04 0x08 0x0c 0x10 0x14 0x18 0x1c 0 1 2 3.

Definition GPIO_INT_BOTH_EDGES : Z := 4.
Definition GPIO_DIR_INPUT : Z := 0.
Definition GPIO_DIR_OUTPUT : Z := 1.
Definition IRQ_TYPE_EDGE_RISING : Z := 1.
Definition IRQ_TYPE_EDGE_FALLING : Z := 2.
Definition IRQ_TYPE_EDGE_BOTH : Z := 3.
Definition IRQ_TYPE_LEVEL_HIGH : Z := 4.
Definition IRQ_TYPE_LEVEL_LOW : Z := 8.
(** [sizeof(struct mxc_gpio_port)] *)
Definition sizeof_mxc_gpio_port : Z := 92.

Definition zero_port (dev : dev_ptr) : mxc_gpio_port :=
  MxcGpioPort dev 0 0 None None None None None 0 0 0 0 0.

(** [fls]: one more than the index of the highest set bit. *)
Definition fls (x : Z) : Z := if x =? 0 then 0 else Z.log2 x + 1.

(** The ICR bits of the secure pins of one half of a port. *)
Definition secure_icr_mask (secure_mask : Z) (high : bool) : Z :=
  fold_left (fun acc i =>
    if truth (Z.land secure_mask (bit32 (i + (if high then 16 else 0))))
    then Z.lor acc (shl32 3 (2 * i)) else acc) (seqZ 0 16) 0.

Section gpio.
Context {P : Type} {plat : Platform P} {cfg : Config} {lay : Layout} {drv : IrqDrivers P}.
Abbreviation K := (M (kernel P)).

Definition get_gpio {A} (f : gpio_data -> A) : K A := gets (fun s => f (k_gpio s)).
Definition modify_gpio (f : gpio_data -> gpio_data) : K unit :=
  modify (fun s => set_k_gpio (f (k_gpio s)) s).
(** The [GPIO_*] macros read through [mxc_gpio_hwdata]. *)
Definition hw (f : mxc_gpio_hwdata -> Z) : K Z :=
  o <- get_gpio mxc_gpio_hw;; d <- deref o;; ret (f d).
Definition get_port (p : port_ptr) : K mxc_gpio_port :=
  o <- get_gpio (fun d => port_objs d !! p);; deref o.
Definition put_port (p : port_ptr) (v : mxc_gpio_port) : K unit :=
  modify_gpio (fun d => set_port_objs (<[p := v]> (port_objs d)) d).
Definition update_port (p : port_ptr) (f : mxc_gpio_port -> mxc_gpio_port) : K unit :=
  v <- get_port p;; put_port p (f v).

Definition port_read (port : port_ptr) (r : mxc_gpio_hwdata -> Z) : K Z :=
  p <- get_port port;; off <- hw r;; read32 (gp_base p + off).
Definition port_write (v : Z) (port : port_ptr) (r : mxc_gpio_hwdata -> Z) : K unit :=
  p <- get_port port;; off <- hw r;; write32 v (gp_base p + off).

Definition gpio_get_value (port : port_ptr) (index : Z) : K Z :=
  psr <- port_read port psr_reg;; ret (Z.land psr (bit32 index)).

Definition gpio_set_dir (port : port_ptr) (index direction : Z) : K unit :=
  gdir <- port_read port gdir_reg;;
  port_write (Z.lor (Z.land gdir (not32 (bit32 index))) (shl32 direction index)) port gdir_reg.

Definition gpio_irq_mask (port : port_ptr) (index : Z) (mask : bool) : K unit :=
  imr <- port_read port imr_reg;;
  if mask then port_write (Z.land imr (not32 (bit32 index))) port imr_reg
  else port_write (Z.lor imr (bit32 index)) port imr_reg.

Definition gpio_irq_ack (port : port_ptr) (index : Z) : K unit :=
  port_write (bit32 index) port isr_reg.

(** The [switch] of [gpio_set_irq_type]: [None] is the [default] case. *)
Definition gpio_edge_of (port : port_ptr) (index type : Z) : K (option Z) :=
  if type =? IRQ_TYPE_EDGE_RISING then e <- hw rise_edge;; ret (Some e)
  else if type =? IRQ_TYPE_EDGE_FALLING then e <- hw fall_edge;; ret (Some e)
  else if type =? IRQ_TYPE_EDGE_BOTH then
    sel <- hw edge_sel_reg;;
    if 0 <=? sel then ret (Some GPIO_INT_BOTH_EDGES)
    else
      val <- gpio_get_value port index;;
      e <- (if truth val then hw low_level else hw high_level);;
      update_port port (fun p => set_gp_both_edges (Z.lor (gp_both_edges p) (bit32 index)) p);;;
      ret (Some e)
  else if type =? IRQ_TYPE_LEVEL_LOW then e <- hw low_level;; ret (Some e)
  else if type =? IRQ_TYPE_LEVEL_HIGH then e <- hw high_level;; ret (Some e)
  else ret None.

Definition gpio_set_irq_type (port : port_ptr) (index type : Z) : K Z :=
  update_port port (fun p => set_gp_both_edges (Z.land (gp_both_edges p) (not32 (bit32 index))) p);;;
  o <- gpio_edge_of port index type;;
  match o with
  | None => ret (- EINVAL)
  | Some edge =>
      sel <- hw edge_sel_reg;;
      when (0 <=? sel) (
        val <- port_read port edge_sel_reg;;
        if edge =? GPIO_INT_BOTH_EDGES then port_write (Z.lor val (bit32 index)) port edge_sel_reg
        else port_write (Z.land val (not32 (bit32 index))) port edge_sel_reg);;;
      when (negb (edge =? GPIO_INT_BOTH_EDGES)) (
        p <- get_port port;; icr1 <- hw icr1_reg;;
        let reg := u32 (gp_base p + icr1 + Z.shiftr (Z.land index 0x10) 2) in
        let bit := Z.land index 0xf in
        v <- read32 reg;;
        let val := Z.land v (not32 (shl32 3 (Z.shiftl bit 1))) in
        write32 (Z.lor val (shl32 edge (Z.shiftl bit 1))) reg);;;
      port_write (bit32 index) port isr_reg;;; ret 0
  end.

(** [SLIST_FOREACH] over the ports, until one satisfies [f]. *)
Fixpoint find_port (l : list port_ptr) (f : mxc_gpio_port -> K bool) : K (option port_ptr) :=
  match l with
  | [] => ret None
  | p :: l' => v <- get_port p;; b <- f v;; if b then ret (Some p) else find_port l' f
  end.
Definition gpio_port_from_phandle (phandle : Z) : K (option port_ptr) :=
  l <- get_gpio mxc_gpio_ports;;
  find_port l (fun v => d <- get_device (gp_dev v);; ret (dv_phandle d =? phandle)).
Definition gpio_port_from_address (base : Z) : K (option port_ptr) :=
  l <- get_gpio mxc_gpio_ports;; find_port l (fun v => ret (gp_pbase v =? base)).

(** The write filter shared by DR, GDIR and EDGE_SEL: the secure bits of the
    new value must be the current ones. *)
Definition keeps_secure (port : port_ptr) (r : mxc_gpio_hwdata -> Z) (value : Z) : K bool :=
  cur <- port_read port r;; p <- get_port port;;
  ret (Z.land cur (gp_secure_mask p) =? Z.land value (gp_secure_mask p)).
Definition hide_secure (port : port_ptr) (value : Z) : K Z :=
  p <- get_port port;; ret (Z.land value (not32 (gp_secure_mask p))).
Definition hide_secure_but_passed (port : port_ptr) (value : Z) : K Z :=
  p <- get_port port;;
  ret (Z.lor (Z.land value (not32 (gp_secure_mask p))) (gp_passed_irq_mask p)).

(** [gpio_emu_check] *)
Definition gpio_emu_check (r : region) (address : Z) (state : emu_state) (value : option Z) :
    K (bool * option Z) :=
  o <- gpio_port_from_address (rg_base r);;
  let offset := u32 (address - rg_base r) in
  dr <- hw dr_reg;; gdir <- hw gdir_reg;; isr <- hw isr_reg;; imr <- hw imr_reg;;
  psr <- hw psr_reg;; sel <- hw edge_sel_reg;; icr1 <- hw icr1_reg;; icr2 <- hw icr2_reg;;
  if (offset =? dr) || (offset =? gdir) then
    let r := if offset =? dr then dr_reg else gdir_reg in
    match state with
    | EMU_STATE_WRITE => port <- deref o;; v <- deref value;; b <- keeps_secure port r v;; ret (b, value)
    | EMU_STATE_READ_AFTER => port <- deref o;; v <- deref value;; v' <- hide_secure port v;; ret (true, Some v')
    | _ => ret (true, value)
    end
  else if offset =? isr then
    match state with
    | EMU_STATE_WRITE =>
        port <- deref o;; v <- deref value;; p <- get_port port;;
        if truth (Z.land v (gp_secure_mask p)) then
          if Z.land v (gp_passed_irq_mask p) =? v then
            put_port port (set_gp_passed_irq_mask (Z.land (gp_passed_irq_mask p) (not32 v)) p);;;
            m <- port_read port imr_reg;; port_write (Z.lor m v) port imr_reg;;; ret (true, value)
          else ret (false, value)
        else ret (true, value)
    | EMU_STATE_READ_AFTER =>
        port <- deref o;; v <- deref value;; v' <- hide_secure_but_passed port v;; ret (true, Some v')
    | _ => ret (true, value)
    end
  else if offset =? imr then
    match state with
    | EMU_STATE_WRITE =>
        port <- deref o;; v <- deref value;; p <- get_port port;;
        ret (negb (truth (Z.land (not32 v) (gp_secure_mask p))), value)
    | EMU_STATE_READ_AFTER =>
        port <- deref o;; v <- deref value;; v' <- hide_secure_but_passed port v;; ret (true, Some v')
    | _ => ret (true, value)
    end
  else if offset =? psr then ret (true, value)
  else if offset =? u32 sel then
    match state with
    | EMU_STATE_WRITE => port <- deref o;; v <- deref value;; b <- keeps_secure port edge_sel_reg v;; ret (b, value)
    | _ => ret (true, value)
    end
  else if (offset =? icr1) || (offset =? icr2) then
    port <- deref o;; p <- get_port port;;
    let mask := secure_icr_mask (gp_secure_mask p) (offset =? icr2) in
    match state with
    | EMU_STATE_WRITE =>
        v <- deref value;; cur <- read32 (gp_base p + offset);;
        ret (Z.land v mask =? Z.land cur mask, value)
    | _ => ret (true, value)
    end
  else ret (true, value).

(** [gpio_parse_dt]; the cells are given in CPU order. *)
Definition gpio_parse_dt (gpio_info : list Z) : K (option (port_ptr * Z * Z)) :=
  phandle <- aget gpio_info 0;;
  port <- gpio_port_from_phandle phandle;;
  match port with
  | None => ret None
  | Some p => index <- aget gpio_info 1;; flags <- aget gpio_info 2;; ret (Some (p, i32 index, i32 flags))
  end.

(** [__gpio_acquire] *)
Definition gpio_acquire_pin (port : port_ptr) (index : Z) : K bool :=
  p <- get_port port;;
  if truth (Z.land (gp_secure_mask p) (bit32 index)) then ret false
  else put_port port (set_gp_secure_mask (Z.lor (gp_secure_mask p) (bit32 index)) p);;; ret true.

Definition gpio_acquire (port : port_ptr) (index : Z) (is_output : bool) : K bool :=
  ok <- gpio_acquire_pin port index;;
  if negb ok then ret false
  else gpio_set_dir port index (if is_output then 1 else 0);;; gpio_irq_mask port index true;;; ret true.

Definition gpio_acquire_dt (gpio_info : list Z) (is_output : bool) : K bool :=
  o <- gpio_parse_dt gpio_info;;
  match o with
  | None => ret false
  | Some (port, index, _) => gpio_acquire port index is_output
  end.

Definition gpio_release (port : port_ptr) (index : Z) : K bool :=
  p <- get_port port;;
  if negb (truth (Z.land (gp_secure_mask p) (bit32 index))) then ret false
  else put_port port (set_gp_secure_mask (Z.land (gp_secure_mask p) (not32 (bit32 index))) p);;; ret true.

Definition gpio_release_dt (gpio_info : list Z) : K unit :=
  o <- gpio_parse_dt gpio_info;;
  match o with
  | None => ret tt
  | Some (port, index, _) => gpio_release port index;;; ret tt
  end.

Definition gpio_read (port : port_ptr) (index : Z) : K bool :=
  dr <- port_read port dr_reg;; ret (truth (Z.land dr (bit32 index))).

Definition gpio_write (port : port_ptr) (index : Z) (value : bool) : K unit :=
  dr <- port_read port dr_reg;;
  port_write (if value then Z.lor dr (bit32 index) else Z.land dr (not32 (bit32 index))) port dr_reg.

Definition mxc_flip_edge (port : port_ptr) (gpio : Z) : K unit :=
  p <- get_port port;; icr1 <- hw icr1_reg;;
  let reg := u32 (gp_base p + (icr1 + Z.shiftr (Z.land gpio 0x10) 2)) in
  let bit := Z.land gpio 0xf in
  val <- read32 reg;;
  let edge := Z.land (Z.shiftr val (Z.shiftl bit 1)) 3 in
  let val := Z.land val (not32 (shl32 3 (Z.shiftl bit 1))) in
  hi <- hw high_level;; lo <- hw low_level;;
  if edge =? hi then write32 (Z.lor val (shl32 lo (Z.shiftl bit 1))) reg
  else if edge =? lo then write32 (Z.lor val (shl32 hi (Z.shiftl bit 1))) reg
  else ret tt.

(** Handing a line to the non-secure world. *)
Definition pass_irq (port : port_ptr) (irqoffset : Z) : K unit :=
  update_port port (fun p => set_gp_passed_irq_mask (Z.lor (gp_passed_irq_mask p) (bit32 irqoffset)) p);;;
  gpio_irq_mask port irqoffset true.

(** One iteration of the loop of [mxc_gpio_irq_handler]. *)
Definition mxc_gpio_irq_line (port : port_ptr) (irqoffset : Z) : K unit :=
  p <- get_port port;;
  when (truth (Z.land (gp_both_edges p) (bit32 irqoffset))) (mxc_flip_edge port irqoffset);;;
  handled <- irq_handle (CHIP_GPIO port) irqoffset;;
  match handled with
  | ITRR_HANDLED => gpio_irq_ack port irqoffset
  | ITRR_HANDLED_PASS => pass_irq port irqoffset
  | _ =>
      p <- get_port port;;
      when (negb (truth (Z.land (gp_secure_mask p) (bit32 irqoffset)))) (pass_irq port irqoffset)
  end.

(** The loop: each iteration clears the highest bit of [irq_stat], so 32
    iterations are enough for a 32-bit status. *)
Fixpoint mxc_gpio_irq_loop (fuel : nat) (port : port_ptr) (irq_stat : Z) : K unit :=
  if irq_stat =? 0 then ret tt
  else match fuel with
  | O => spin
  | S f =>
      let irqoffset := fls irq_stat - 1 in
      mxc_gpio_irq_line port irqoffset;;;
      mxc_gpio_irq_loop f port (Z.land irq_stat (not32 (bit32 irqoffset)))
  end.
Definition mxc_gpio_irq_handler (port : port_ptr) (irq_stat : Z) : K unit :=
  mxc_gpio_irq_loop 32 port irq_stat;;;
  p <- get_port port;;
  when (truth (gp_passed_irq_mask p)) (d <- deref (gp_irq_pass p);; irq_raise d;;; ret tt).

(** [mx3_gpio_irq_handler]; [port] is the handler's data. *)
Definition mx3_gpio_irq_handler (port : port_ptr) : K irq_return :=
  isr <- port_read port isr_reg;; imr <- port_read port imr_reg;;
  mxc_gpio_irq_handler port (Z.land isr imr);;; ret ITRR_HANDLED.

Definition mx2_gpio_irq_handler : K irq_return :=
  l <- get_gpio mxc_gpio_ports;;
  for_each l (fun port =>
    irq_msk <- port_read port imr_reg;;
    if irq_msk =? 0 then ret tt
    else
      isr <- port_read port isr_reg;;
      let irq_stat := Z.land isr irq_msk in
      when (truth irq_stat) (mxc_gpio_irq_handler port irq_stat));;;
  ret ITRR_HANDLED.

Definition mxc_gpio_get_hw (hwtype : Z) : K unit :=
  cur <- get_gpio mxc_gpio_hwtype;;
  if truth cur && negb (hwtype =? cur) then panic
  else
    modify_gpio (set_mxc_gpio_hw (Some
      (if hwtype =? IMX35_GPIO then imx35_gpio_hwdata
       else if hwtype =? IMX31_GPIO then imx31_gpio_hwdata else imx1_imx21_gpio_hwdata)));;;
    modify_gpio (set_mxc_gpio_hwtype hwtype).

(** The operations of [irq_ops]; [chip->data] is the port of the chip. *)
Definition port_of (chip : chip_ptr) : K port_ptr :=
  match chip with CHIP_GPIO p => ret p | _ => fault end.

Definition irq_op_map (chip : chip_ptr) (dt_spec : list Z) : K (Z * Z * Z) :=
  irq <- aget dt_spec 0;; flags <- aget dt_spec 1;;
  ret (if (irq <? 32) && (flags <? 5) then 0 else - EINVAL, irq, flags).
Definition irq_op_secure (chip : chip_ptr) (irq : Z) : K Z :=
  port <- port_of chip;;
  update_port port (fun p => set_gp_secure_mask (Z.lor (gp_secure_mask p) (bit32 irq)) p);;; ret 0.
Definition irq_op_unsecure (chip : chip_ptr) (irq : Z) : K Z :=
  port <- port_of chip;;
  update_port port (fun p => set_gp_secure_mask (Z.land (gp_secure_mask p) (not32 (bit32 irq))) p);;; ret 0.
Definition irq_op_add (chip : chip_ptr) (irq flags : Z) : K Z :=
  port <- port_of chip;;
  irq_op_secure chip irq;;;
  gpio_set_dir port irq GPIO_DIR_INPUT;;;
  gpio_set_irq_type port irq flags;;;
  gpio_irq_mask port irq true;;; ret 0.
Definition irq_op_remove (chip : chip_ptr) (irq : Z) : K Z := irq_op_unsecure chip irq;;; ret 0.
Definition irq_op_enable (chip : chip_ptr) (irq : Z) : K Z :=
  port <- port_of chip;; gpio_irq_mask port irq false;;; ret 0.
Definition irq_op_disable (chip : chip_ptr) (irq : Z) : K Z :=
  port <- port_of chip;; gpio_irq_mask port irq true;;; ret 0.
Definition irq_op_raise (chip : chip_ptr) (irq : Z) : K Z := ret (- EINVAL).

(** [mxc_gpio_probe] *)
Definition mxc_gpio_probe (dev : dev_ptr) (data : Z) : K Z :=
  ok <- malloc sizeof_mxc_gpio_port;;
  if negb ok then ret (- ENOMEM)
  else
  port <- get_gpio next_port;;
  modify_gpio (set_next_port (S port));;;
  put_port port (zero_port dev);;;
  hw0 <- get_gpio mxc_gpio_hw;;
  let first_port := bool_decide (hw0 = None) in
  mxc_gpio_get_hw data;;;
  d <- get_device dev;;
  if negb (Z.of_nat (length (dv_resources d)) =? 1) || negb (bool_decide (dv_resource_type d = RESOURCE_MEM))
  then ret (- EINVAL)
  else
  ' (paddr, size) <- resource_of d 0;;
  mapped <- core_mmu_add_mapping MEM_AREA_IO_SEC paddr size;;
  if negb mapped then ret (- EINVAL)
  else
  base <- phys_to_virt paddr MEM_AREA_IO_SEC;;
  update_port port (fun p => set_gp_base base (set_gp_pbase paddr p));;;
  let num_irqs := Z.of_nat (length (dv_irqs d)) in
  if (num_irqs <? 2) || (3 <? num_irqs) then ret (- EINVAL)
  else
  port_write 0 port imr_reg;;;
  port_write 0xffffffff port isr_reg;;;
  irq0 <- aget (dv_irqs d) 0;; irq1 <- aget (dv_irqs d) 1;;
  hwtype <- get_gpio mxc_gpio_hwtype;;
  update_port port (fun p => set_gp_handler (Some (IrqHandler (DATA_PORT port)
    (if hwtype =? IMX21_GPIO then MX2_GPIO_IRQ_HANDLER else MX3_GPIO_IRQ_HANDLER)))
    (set_gp_irq (Some (ii_desc irq0)) p));;;
  when (negb (hwtype =? IMX21_GPIO) || first_port) (
    irq_add (ii_desc irq0) ITRF_TRIGGER_LEVEL (PORT_HANDLER port);;; irq_enable (ii_desc irq0);;; ret tt);;;
  let irq_high := if num_irqs =? 3 then Some (ii_desc irq1) else None in
  update_port port (set_gp_irq_high irq_high);;;
  match irq_high with
  | Some h => when (negb (hwtype =? IMX21_GPIO)) (
      update_port port (set_gp_handler_high (Some (IrqHandler (DATA_PORT port) MX3_GPIO_IRQ_HANDLER)));;;
      irq_add h ITRF_TRIGGER_LEVEL (PORT_HANDLER_HIGH port);;; irq_enable h;;; ret tt)
  | None => ret tt
  end;;;
  irq_pass <- (if num_irqs =? 3 then aget (dv_irqs d) 2 else ret irq1);;
  update_port port (set_gp_irq_pass (Some (ii_desc irq_pass)));;;
  emu_add_region paddr size GPIO_EMU_CHECK;;;
  csl <- aget (dv_csu d) 0;; csu_set_csl csl true;;;
  irq_construct_chip (CHIP_GPIO port) dev GPIO_OPS 32 true;;;
  l <- get_gpio mxc_gpio_ports;; modify_gpio (set_mxc_gpio_ports (port :: l));;;
  ret 0.
End gpio.

(** [irq_ops] of imx_gpio.c *)
Definition gpio_irq_ops {P} `{Platform P, Config} : irq_ops P :=
  IrqOps (Some irq_op_map) (Some irq_op_add) (Some irq_op_remove) (Some irq_op_enable)
    (Some irq_op_disable) (Some irq_op_secure) (Some irq_op_unsecure) (Some irq_op_raise) None None.

(** ** Lemmas *)

Lemma fls_log2 x : 0 < x -> fls x - 1 = Z.log2 x.
Proof. intros. unfold fls. rewrite (proj2 (Z.eqb_neq _ _)) by lia. lia. Qed.

(** Clearing the highest bit. *)
Lemma clear_top x : 0 < x < 2 ^ 32 -> Z.land x (not32 (bit32 (Z.log2 x))) = x - 2 ^ Z.log2 x.
Proof.
  intros Hx. pose proof (Z.log2_spec x ltac:(lia)) as [Hlo Hhi]. pose proof (Z.log2_nonneg x) as Hnn.
  assert (Hlt : Z.log2 x < 32) by (apply Z.log2_lt_pow2; lia).
  assert (Hhi' : x < 2 * 2 ^ Z.log2 x) by (rewrite <- Z.pow_succ_r; lia).
  assert (Hsum : x - 2 ^ Z.log2 x = x mod 2 ^ Z.log2 x).
  { apply Z.mod_unique_pos with 1; lia. }
  rewrite Hsum. apply Z.bits_inj'. intros i Hi.
  rewrite Z.land_spec, not32_testbit, bit32_testbit by lia.
  destruct (Z.ltb_spec i (Z.log2 x)).
  - rewrite Z.mod_pow2_bits_low, (proj2 (Z.ltb_lt i 32)), (proj2 (Z.eqb_neq i _)) by lia.
    simpl. by rewrite andb_true_r.
  - rewrite Z.mod_pow2_bits_high by lia. destruct (Z.eqb_spec i (Z.log2 x)) as [->|].
    + by rewrite (proj2 (Z.ltb_lt _ 32)), andb_false_r by lia.
    + by rewrite Z.bits_above_log2 by lia.
Qed.

Section gpio_lemmas.
Context {P : Type} {plat : Platform P} {cfg : Config} {drv : IrqDrivers P}.
Implicit Types s : kernel P.

Lemma get_port_run s p v : port_objs (k_gpio s) !! p = Some v -> get_port p s = Ret v s.
Proof. intros H. unfold get_port, get_gpio, bind, gets, deref. by rewrite H. Qed.
Lemma hw_run s h f : mxc_gpio_hw (k_gpio s) = Some h -> hw f s = Ret (f h) s.
Proof. intros H. unfold hw, get_gpio, bind, gets, deref. by rewrite H. Qed.

(** The lines of a status word, highest first. *)
Definition irq_lines (irq_stat : Z) (n : nat) : list Z :=
  filter (fun i => Z.testbit irq_stat i = true) (reverse (seqZ 0 (Z.of_nat n))).

Lemma irq_lines_S stat n :
  irq_lines stat (S n) =
    (if Z.testbit stat (Z.of_nat n) then [Z.of_nat n] else []) ++ irq_lines stat n.
Proof.
  unfold irq_lines. rewrite Nat2Z.inj_succ, <- Z.add_1_r, seqZ_app by lia. rewrite reverse_app.
  change (seqZ (0 + Z.of_nat n) 1) with [0 + Z.of_nat n]. rewrite Z.add_0_l, reverse_singleton. cbn [app].
  rewrite filter_cons. case_decide as Hd; [by rewrite Hd|]. apply not_true_is_false in Hd. by rewrite Hd.
Qed.

Lemma irq_lines_ext stat stat' n :
  (forall i, 0 <= i < Z.of_nat n -> Z.testbit stat i = Z.testbit stat' i) -> irq_lines stat n = irq_lines stat' n.
Proof.
  induction n as [|n IH]; intros H; [done|]. rewrite !irq_lines_S, H by lia. f_equal. apply IH.
  intros. apply H. lia.
Qed.

Lemma mxc_gpio_irq_loop_lines n fuel port stat s :
  (n <= fuel)%nat -> (n <= 32)%nat -> 0 <= stat < 2 ^ Z.of_nat n ->
  mxc_gpio_irq_loop fuel port stat s = for_each (irq_lines stat n) (mxc_gpio_irq_line port) s.
Proof.
  revert fuel stat s. induction n as [|n IH]; intros fuel stat s Hf Hn Hs.
  { replace stat with 0 by (simpl in Hs; lia). by destruct fuel. }
  assert (Hpow : 2 ^ Z.of_nat (S n) = 2 * 2 ^ Z.of_nat n) by (rewrite <- Z.pow_succ_r by lia; f_equal; lia).
  assert (H32 : 2 ^ Z.of_nat (S n) <= 2 ^ 32) by (apply Z.pow_le_mono_r; lia).
  rewrite irq_lines_S. destruct (Z.ltb_spec stat (2 ^ Z.of_nat n)) as [Hlt|Hge].
  - replace (Z.testbit stat (Z.of_nat n)) with false; [by apply IH; lia|].
    symmetry. destruct (Z.eq_dec stat 0) as [->|]; [apply Z.bits_0|].
    apply Z.bits_above_log2; [lia|]. apply Z.log2_lt_pow2; lia.
  - assert (Hlog : Z.log2 stat = Z.of_nat n) by (apply Z.log2_unique; [lia|rewrite <- Nat2Z.inj_succ; lia]).
    assert (Htb : Z.testbit stat (Z.of_nat n) = true) by (rewrite <- Hlog; apply Z.bit_log2; lia).
    rewrite Htb. destruct fuel as [|fuel]; [lia|]. cbn [mxc_gpio_irq_loop app for_each].
    rewrite (proj2 (Z.eqb_neq stat 0)), fls_log2, clear_top, Hlog by lia. unfold bind.
    destruct (mxc_gpio_irq_line port (Z.of_nat n) s) as [? s'| | |]; [|done..].
    rewrite IH by lia. f_equal. apply irq_lines_ext. intros i Hi.
    replace (stat - 2 ^ Z.of_nat n) with (stat mod 2 ^ Z.of_nat n)
      by (symmetry; apply Z.mod_unique_pos with 1; lia).
    by rewrite Z.mod_pow2_bits_low by lia.
Qed.
End gpio_lemmas.

(** ** Masks *)

Lemma mask_eqb a c m : 0 <= m ->
  (Z.land a m =? Z.land c m) = true <->
  forall k, 0 <= k -> Z.testbit m k = true -> Z.testbit a k = Z.testbit c k.
Proof.
  intros Hm. rewrite Z.eqb_eq. split.
  - intros H k Hk Hmk. assert (Hk' : Z.testbit (Z.land a m) k = Z.testbit (Z.land c m) k) by (by rewrite H).
    by rewrite !Z.land_spec, Hmk, !andb_true_r in Hk'.
  - intros H. apply Z.bits_inj'. intros k Hk. rewrite !Z.land_spec. destruct (Z.testbit m k) eqn:E.
    + by rewrite H.
    + by rewrite !andb_false_r.
Qed.

Lemma pair_bit_testbit i k :
  0 <= i < 16 -> 0 <= k < 32 -> Z.testbit (shl32 3 (2 * i)) k = (k / 2 =? i).
Proof. intros. apply pair_mask_testbit; unfold MAX_SA; lia. Qed.

Lemma secure_icr_mask_testbit sm high k :
  0 <= k -> Z.testbit (secure_icr_mask sm high) k =
    (k <? 32) && Z.testbit sm (k / 2 + (if high then 16 else 0)).
Proof.
  intros Hk. unfold secure_icr_mask. set (h := if high then 16 else 0).
  assert (Hh : 0 <= h <= 16) by (destruct high; subst h; lia).
  assert (Hgen : forall l acc, Forall (fun i => 0 <= i < 16) l ->
    Z.testbit (fold_left (fun acc i => if truth (Z.land sm (bit32 (i + h))) then Z.lor acc (shl32 3 (2 * i)) else acc) l acc) k =
      Z.testbit acc k || ((k <? 32) && bool_decide (k / 2 ∈ l) && Z.testbit sm (k / 2 + h))).
  { induction l as [|i l IH]; intros acc Hl; cbn [fold_left].
    { rewrite bool_decide_eq_false_2 by apply not_elem_of_nil. by rewrite andb_false_r, orb_false_r. }
    apply Forall_cons in Hl as [Hi Hl]. rewrite IH by done. rewrite truth_land_bit by lia.
    assert (Hs : Z.testbit (shl32 3 (2 * i)) k = (k <? 32) && (k / 2 =? i)).
    { destruct (Z.ltb_spec k 32); [rewrite pair_bit_testbit by lia; done|].
      rewrite shl32_testbit, (proj2 (Z.ltb_ge k 32)) by lia. done. }
    assert (Hin : bool_decide (k / 2 ∈ i :: l) = (k / 2 =? i) || bool_decide (k / 2 ∈ l)).
    { destruct (Z.eqb_spec (k / 2) i) as [->|]; simpl.
      - apply bool_decide_eq_true_2. left.
      - apply bool_decide_ext. rewrite elem_of_cons. intuition. }
    rewrite Hin. destruct (Z.testbit sm (i + h)) eqn:Es.
    - rewrite Z.lor_spec, Hs. destruct (Z.eqb_spec (k / 2) i) as [->|]; simpl; rewrite ?Es;
        destruct (Z.testbit acc k), (k <? 32), (bool_decide (_ ∈ l)), (Z.testbit sm _); done.
    - destruct (Z.eqb_spec (k / 2) i) as [->|]; simpl; [by rewrite Es, !andb_false_r|done]. }
  rewrite Hgen by (apply Forall_forall; intros i Hi%elem_of_seqZ; lia). rewrite Z.bits_0. simpl.
  destruct (Z.ltb_spec k 32); [|done]. simpl. rewrite bool_decide_eq_true_2; [done|].
  apply elem_of_seqZ. split; [apply Z.div_pos|apply Z.div_lt_upper_bound]; lia.
Qed.

(** The bits of register [off] that configure a pin (i.MX35 layout): one bit in
    DR, GDIR, IMR and EDGE_SEL, two in one of the ICR registers. *)
Definition pin_bits (off pin : Z) : list Z :=
  if off =? 0x0c then if pin <? 16 then [2 * pin; 2 * pin + 1] else []
  else if off =? 0x10 then if pin <? 16 then [] else [2 * (pin - 16); 2 * (pin - 16) + 1]
  else [pin].

Lemma icr_pins sm (high : bool) (Q : Z -> Prop) :
  (forall k, 0 <= k -> Z.testbit (secure_icr_mask sm high) k = true -> Q k) <->
  (forall pin, 0 <= pin < 32 -> Z.testbit sm pin = true ->
     Forall Q (pin_bits (if high then 0x10 else 0x0c) pin)).
Proof.
  split.
  - intros H pin Hp Hs. unfold pin_bits.
    assert (Hk : forall b k, b = (if high then 16 else 0) -> 0 <= k < 32 -> k / 2 + b = pin -> Q k).
    { intros b k -> Hk Heq. apply H; [lia|]. rewrite secure_icr_mask_testbit by lia.
      rewrite (proj2 (Z.ltb_lt k 32)), Heq by lia. done. }
    assert (Hd : forall x, 2 * x / 2 = x /\ (2 * x + 1) / 2 = x).
    { intros x. split; [by rewrite Z.mul_comm, Z.div_mul|].
      symmetry. apply Z.div_unique with 1; lia. }
    destruct high; cbn [Z.eqb Pos.eqb]; destruct (Z.ltb_spec pin 16); repeat constructor.
    + apply (Hk 16); [done|lia|rewrite (proj1 (Hd _)); lia].
    + apply (Hk 16); [done|lia|rewrite (proj2 (Hd _)); lia].
    + apply (Hk 0); [done|lia|rewrite (proj1 (Hd _)); lia].
    + apply (Hk 0); [done|lia|rewrite (proj2 (Hd _)); lia].
  - intros H k Hk Hm. rewrite secure_icr_mask_testbit in Hm by lia. apply andb_true_iff in Hm as [Hlt Hs].
    apply Z.ltb_lt in Hlt. assert (Hd : 0 <= k / 2 < 16) by (split; [apply Z.div_pos|apply Z.div_lt_upper_bound]; lia).
    assert (Hr : 0 <= k / 2 + (if high then 16 else 0) < 32) by (destruct high; lia).
    specialize (H _ Hr Hs). unfold pin_bits in H.
    assert (Hmod : k = 2 * (k / 2) \/ k = 2 * (k / 2) + 1).
    { pose proof (Z.div_mod k 2 ltac:(lia)). pose proof (Z.mod_pos_bound k 2 ltac:(lia)). lia. }
    destruct high; cbn [Z.eqb Pos.eqb] in H.
    + rewrite (proj2 (Z.ltb_ge (k / 2 + 16) 16)) in H by lia.
      replace (k / 2 + 16 - 16) with (k / 2) in H by lia.
      apply Forall_cons in H as [H1 H2]. apply Forall_cons in H2 as [H2 _]. destruct Hmod as [Hq|Hq]; rewrite Hq; done.
    + rewrite (proj2 (Z.ltb_lt (k / 2 + 0) 16)) in H by lia. rewrite Z.add_0_r in H.
      apply Forall_cons in H as [H1 H2]. apply Forall_cons in H2 as [H2 _]. destruct Hmod as [Hq|Hq]; rewrite Hq; done.
Qed.

(** ** The filter of a registered port *)

(** The port at [base]: the first one of the list with that address, on i.MX35
    hardware. *)
Record port_ready {P} (s : kernel P) (base : Z) (port : port_ptr) (p : mxc_gpio_port) : Prop := {
  pr_hw : mxc_gpio_hw (k_gpio s) = Some imx35_gpio_hwdata;
  pr_list : exists l1 l2, mxc_gpio_ports (k_gpio s) = l1 ++ port :: l2 /\
    Forall (fun q => exists v, port_objs (k_gpio s) !! q = Some v /\ gp_pbase v <> base) l1;
  pr_obj : port_objs (k_gpio s) !! port = Some p;
  pr_base : gp_pbase p = base;
}.

Section filter.
Context {P : Type} {plat : Platform P} {cfg : Config} {drv : IrqDrivers P}.
Context (R : Z -> Prop) {regs : PlainRegs P R}.
Implicit Types s : kernel P.

Lemma port_from_address_run s base port p :
  port_ready s base port p -> gpio_port_from_address base s = Ret (Some port) s.
Proof.
  intros [_ (l1 & l2 & Hl & Hne) Ho Hb]. unfold gpio_port_from_address, get_gpio.
  erewrite bind_run by done. rewrite Hl. clear Hl.
  induction Hne as [|q l1 (v & Hv & Hn) Hne IH]; cbn [app find_port].
  - erewrite bind_run by (by apply get_port_run). cbn. by rewrite Hb, Z.eqb_refl.
  - erewrite bind_run by (by apply get_port_run). cbn. rewrite (proj2 (Z.eqb_neq _ _)) by done. exact IH.
Qed.

Lemma port_read_run s port p h r :
  mxc_gpio_hw (k_gpio s) = Some h -> port_objs (k_gpio s) !! port = Some p ->
  R (u32 (gp_base p + r h)) -> port_read port r s = Ret (reg (k_plat s) (gp_base p + r h)) s.
Proof.
  intros Hh Hp HR. unfold port_read. erewrite bind_run by (by apply get_port_run).
  erewrite bind_run by (by apply hw_run). exact (read32_reg R (gp_base p + r h) s HR).
Qed.
Lemma port_write_run s port p h r v :
  mxc_gpio_hw (k_gpio s) = Some h -> port_objs (k_gpio s) !! port = Some p ->
  port_write v port r s = Ret tt (set_k_plat (io_write 4 (u32 (gp_base p + r h)) (u32 v) (k_plat s)) s).
Proof.
  intros Hh Hp. unfold port_write. erewrite bind_run by (by apply get_port_run).
  by erewrite bind_run by (by apply hw_run).
Qed.

(** The hardware constants of an i.MX35 port are read. *)
Lemma gpio_emu_check_consts s r port p address state value :
  port_ready s (rg_base r) port p ->
  gpio_emu_check r address state value s =
  (let offset := u32 (address - rg_base r) in
   if (offset =? 0) || (offset =? 4) then
    let r := if offset =? 0 then dr_reg else gdir_reg in
    match state with
    | EMU_STATE_WRITE => v <- deref value;; b <- keeps_secure port r v;; ret (b, value)
    | EMU_STATE_READ_AFTER => v <- deref value;; v' <- hide_secure port v;; ret (true, Some v')
    | _ => ret (true, value)
    end
  else if offset =? 0x18 then
    match state with
    | EMU_STATE_WRITE =>
        v <- deref value;; p <- get_port port;;
        if truth (Z.land v (gp_secure_mask p)) then
          if Z.land v (gp_passed_irq_mask p) =? v then
            put_port port (set_gp_passed_irq_mask (Z.land (gp_passed_irq_mask p) (not32 v)) p);;;
            m <- port_read port imr_reg;; port_write (Z.lor m v) port imr_reg;;; ret (true, value)
          else ret (false, value)
        else ret (true, value)
    | EMU_STATE_READ_AFTER =>
        v <- deref value;; v' <- hide_secure_but_passed port v;; ret (true, Some v')
    | _ => ret (true, value)
    end
  else if offset =? 0x14 then
    match state with
    | EMU_STATE_WRITE =>
        v <- deref value;; p <- get_port port;;
        ret (negb (truth (Z.land (not32 v) (gp_secure_mask p))), value)
    | EMU_STATE_READ_AFTER =>
        v <- deref value;; v' <- hide_secure_but_passed port v;; ret (true, Some v')
    | _ => ret (true, value)
    end
  else if offset =? 8 then ret (true, value)
  else if offset =? 0x1c then
    match state with
    | EMU_STATE_WRITE => v <- deref value;; b <- keeps_secure port edge_sel_reg v;; ret (b, value)
    | _ => ret (true, value)
    end
  else if (offset =? 0xc) || (offset =? 0x10) then
    let mask := secure_icr_mask (gp_secure_mask p) (offset =? 0x10) in
    match state with
    | EMU_STATE_WRITE =>
        v <- deref value;; cur <- read32 (gp_base p + offset);;
        ret (Z.land v mask =? Z.land cur mask, value)
    | _ => ret (true, value)
    end
  else ret (true, value)) s.
Proof.
  intros Hr. unfold gpio_emu_check. erewrite bind_run by (by eapply port_from_address_run).
  pose proof (pr_hw _ _ _ _ Hr) as Hh. pose proof (pr_obj _ _ _ _ Hr) as Ho.
  do 8 (erewrite bind_run by (by apply hw_run)). change (u32 (edge_sel_reg imx35_gpio_hwdata)) with 0x1c.
  cbv zeta. cbn [dr_reg gdir_reg isr_reg imr_reg psr_reg icr1_reg icr2_reg imx35_gpio_hwdata].
  assert (Hd : forall {A} (k : port_ptr -> M (kernel P) A), (x <- deref (Some port);; k x) s = k port s) by done.
  destruct ((_ =? 0) || _); [destruct state; by rewrite ?Hd|].
  destruct (_ =? 0x18); [destruct state; by rewrite ?Hd|].
  destruct (_ =? 0x14); [destruct state; by rewrite ?Hd|].
  destruct (_ =? 8); [done|].
  destruct (_ =? 0x1c); [destruct state; by rewrite ?Hd|].
  destruct ((_ =? 0xc) || _); [|done]. rewrite Hd. by erewrite bind_run by (by apply get_port_run).
Qed.

Lemma keeps_secure_run s port p r v :
  mxc_gpio_hw (k_gpio s) = Some imx35_gpio_hwdata -> port_objs (k_gpio s) !! port = Some p ->
  R (u32 (gp_base p + r imx35_gpio_hwdata)) ->
  keeps_secure port r v s =
    Ret (Z.land (reg (k_plat s) (gp_base p + r imx35_gpio_hwdata)) (gp_secure_mask p) =?
         Z.land v (gp_secure_mask p)) s.
Proof.
  intros Hh Hp HR. unfold keeps_secure. erewrite bind_run by (by apply port_read_run).
  by erewrite bind_run by (by apply get_port_run).
Qed.

(** An access to a register of a port, whatever the register does. *)
Lemma port_read_returns s port p f :
  mxc_gpio_hw (k_gpio s) = Some imx35_gpio_hwdata -> port_objs (k_gpio s) !! port = Some p ->
  exists v q, port_read port f s = Ret v (set_k_plat q s).
Proof.
  intros Hh Hp. unfold port_read. erewrite bind_run by (by apply get_port_run).
  erewrite bind_run by (by apply hw_run). unfold read32, io_load. destruct (io_read _ _ _) as [v q].
  by eexists _, q.
Qed.
Lemma port_rmw_returns s port p f (g : Z -> Z) :
  mxc_gpio_hw (k_gpio s) = Some imx35_gpio_hwdata -> port_objs (k_gpio s) !! port = Some p ->
  exists q, (v <- port_read port f;; port_write (g v) port f) s = Ret tt (set_k_plat q s).
Proof.
  intros Hh Hp. destruct (port_read_returns s port p f Hh Hp) as (v & q & Hv).
  eexists. erewrite bind_run by exact Hv. by rewrite (port_write_run _ _ p imx35_gpio_hwdata).
Qed.
Lemma gpio_configure_run s port p index dir :
  mxc_gpio_hw (k_gpio s) = Some imx35_gpio_hwdata -> port_objs (k_gpio s) !! port = Some p ->
  exists q, (gpio_set_dir port index dir;;; gpio_irq_mask port index true;;; ret true) s =
    Ret true (set_k_plat q s).
Proof.
  intros Hh Hp. unfold gpio_set_dir, gpio_irq_mask.
  destruct (port_rmw_returns s port p gdir_reg
    (fun v => Z.lor (Z.land v (not32 (bit32 index))) (shl32 dir index)) Hh Hp) as [q Hq].
  destruct (port_rmw_returns (set_k_plat q s) port p imr_reg
    (fun v => Z.land v (not32 (bit32 index))) Hh Hp) as [q2 Hq2].
  exists q2. erewrite bind_run by exact Hq. by erewrite bind_run by exact Hq2.
Qed.
End filter.

(** ** Properties *)



(** Ownership of a pin: acquiring a free pin marks it and leaves the mask
    of the other pins, a second acquisition is refused without effect, and
    releasing restores exactly the mask from before the acquisition. *)
Theorem gpio_acquire_release {P} `{Platform P, Config} (s : kernel P) port p index is_output :
  mxc_gpio_hw (k_gpio s) = Some imx35_gpio_hwdata -> port_objs (k_gpio s) !! port = Some p ->
  is_u32 (gp_secure_mask p) -> 0 <= index < 32 -> Z.testbit (gp_secure_mask p) index = false ->
  exists s1 p1, gpio_acquire port index is_output s = Ret true s1 /\
    port_objs (k_gpio s1) !! port = Some p1 /\
    (forall pin, 0 <= pin < 32 -> Z.testbit (gp_secure_mask p1) pin =
       (pin =? index) || Z.testbit (gp_secure_mask p) pin) /\
    gpio_acquire port index is_output s1 = Ret false s1 /\
    exists s2, gpio_release port index s1 = Ret true s2 /\ port_objs (k_gpio s2) !! port = Some p.
Proof.
  intros Hh Hp Hm Hi Hfree.
  set (p1 := set_gp_secure_mask (Z.lor (gp_secure_mask p) (bit32 index)) p).
  assert (Hbit : forall pin, 0 <= pin < 32 ->
    Z.testbit (gp_secure_mask p1) pin = (pin =? index) || Z.testbit (gp_secure_mask p) pin).
  { intros pin Hpin. cbn. rewrite Z.lor_spec, bit32_testbit, (proj2 (Z.ltb_lt pin 32)) by lia. apply orb_comm. }
  set (sa := set_k_gpio (set_port_objs (<[port := p1]> (port_objs (k_gpio s))) (k_gpio s)) s).
  assert (Hpin : gpio_acquire_pin port index s = Ret true sa).
  { unfold gpio_acquire_pin. erewrite bind_run by (by apply get_port_run).
    rewrite truth_land_bit, Hfree by lia. done. }
  assert (Hpa : port_objs (k_gpio sa) !! port = Some p1) by (cbn; by rewrite lookup_insert_eq).
  destruct (gpio_configure_run sa port p1 index (if is_output then 1 else 0) Hh Hpa) as [q Hq].
 exists (set_k_plat q sa), p1.
  assert (Hp1 : port_objs (k_gpio (set_k_plat q sa)) !! port = Some p1) by (cbn; by rewrite lookup_insert_eq).
  split_and!; [|done|done| |].
  - unfold gpio_acquire. erewrite bind_run by exact Hpin. exact Hq.
  - unfold gpio_acquire, gpio_acquire_pin. erewrite bind_run; [|erewrite bind_run by (by apply get_port_run);
      rewrite truth_land_bit, Hbit, Z.eqb_refl by lia; reflexivity]. done.
  - eexists. unfold gpio_release. erewrite bind_run by (by apply get_port_run).
    rewrite truth_land_bit, Hbit, Z.eqb_refl by lia. split; [reflexivity|]. cbn.
    rewrite insert_insert_eq, lookup_insert_eq. f_equal.
    replace (Z.land _ _) with (gp_secure_mask p); [by destruct p|].
    apply u32_bits_eq; [done|apply is_u32_land_l; [apply is_u32_lor; [done|apply bit32_range]|apply not32_range]|].
    intros pin Hpin'. rewrite Z.land_spec, not32_testbit, Z.lor_spec, !bit32_testbit by lia.
    rewrite (proj2 (Z.ltb_lt pin 32)) by lia. destruct (Z.eqb_spec pin index) as [->|]; cbn; [by rewrite Hfree, andb_false_r|].
    by rewrite orb_false_r, andb_true_r.
Qed.

(** C30: the interrupt loop of a port terminates within its 32 iterations and
    serves each pending line exactly once, the highest first: it is the
    sequence of the line handlers over the set bits of the status word. *)
Theorem mxc_gpio_irq_loop_serves {P} `{Platform P, Config, IrqDrivers P} (s : kernel P) port irq_stat :
  is_u32 irq_stat ->
  mxc_gpio_irq_loop 32 port irq_stat s =
    for_each (filter (fun i => Z.testbit irq_stat i = true) (reverse (seqZ 0 32))) (mxc_gpio_irq_line port) s.
Proof. intros Hs. by apply (mxc_gpio_irq_loop_lines 32). Qed.

(** One port at 0x0209C000, pins 2 and 4 secure, line 4 handed over. *)
Definition gpio_port_demo : mxc_gpio_port :=
  MxcGpioPort 0 0x0209C000 0x0209C000 None None None None None 0 0 (Z.lor (bit32 2) (bit32 4)) 0 (bit32 4).
Definition gpio_demo : kernel bigram :=
  set_k_gpio (GpioData IMX35_GPIO (Some imx35_gpio_hwdata) [0%nat] {[0%nat := gpio_port_demo]} 1)
    (kernel_init (mk_bigram (<[0x0209C000 := 0x14]> ∅))).
Definition gpio_region_demo : region := Region 0x0209C000 0x4000 GPIO_EMU_CHECK.
#[local] Instance gpio_demo_cfg : Config := { cfg_ndebug := false }.
#[local] Instance gpio_demo_drivers : IrqDrivers bigram := {
  ops_of _ := gpio_irq_ops;
  run_handler _ := ret ITRR_HANDLED;
}.

Lemma gpio_demo_ready : port_ready gpio_demo 0x0209C000 0 gpio_port_demo.
Proof. split; [reflexivity|by exists [], []|reflexivity|reflexivity]. Qed.



Lemma gpio_acquire_release_witness :
  exists s1, gpio_acquire 0 7 true gpio_demo = Ret true s1 /\ gpio_acquire 0 7 true s1 = Ret false s1.
Proof.
  destruct (gpio_acquire_release gpio_demo 0 gpio_port_demo 7 true) as (s1 & p1 & Ha & _ & _ & Hb & _).
  - reflexivity.
  - reflexivity.
  - apply is_u32_lor; apply bit32_range.
  - lia.
  - reflexivity.
  - by exists s1.
Defined.

Lemma mxc_gpio_irq_loop_witness :
  mxc_gpio_irq_loop 32 0 0x14 gpio_demo = for_each [4; 2] (mxc_gpio_irq_line 0) gpio_demo.
Proof. apply (mxc_gpio_irq_loop_serves gpio_demo 0 0x14). unfold is_u32. lia. Defined.

(** C37: the filter compares exact register addresses only, while the emulator
    also executes byte and halfword accesses: a store to any address inside a
    register other than its first byte is let through unfiltered, whatever pins
    it configures and whoever owns them. *)
Theorem gpio_subword_bypass {P} `{Platform P, Config} (s : kernel P) r port p off st value :
  port_ready s (rg_base r) port p -> 0 <= off < 0x20 -> off mod 4 <> 0 ->
  gpio_emu_check r (rg_base r + off) st value s = Ret (true, value) s.
Proof.
  intros Hr Hoff Hmod. rewrite (gpio_emu_check_consts s r port p) by done.
  replace (rg_base r + off - rg_base r) with off by lia. cbv zeta.
  rewrite u32_small by (unfold is_u32; lia).
  assert (Hne : forall k, k mod 4 = 0 -> (off =? k) = false)
    by (intros k Hk; apply Z.eqb_neq; intros ->; done).
  by rewrite (Hne 0), (Hne 4), (Hne 0x18), (Hne 0x14), (Hne 8), (Hne 0x1c), (Hne 0xc), (Hne 0x10).
Qed.

Lemma gpio_subword_bypass_witness :
  gpio_emu_check gpio_region_demo (rg_base gpio_region_demo + 1) EMU_STATE_WRITE (Some 0xff) gpio_demo =
    Ret (true, Some 0xff) gpio_demo.
Proof.
  apply (gpio_subword_bypass gpio_demo gpio_region_demo 0%nat gpio_port_demo 1).
  - split; [done|by exists [], []|done|done].
  - lia.
  - done.
Defined.
