(* ===== verification/Dt.v ===== *)
(** * Devices and their protection (core/drivers/dt.c)

    The device table is a hash table of the nodes that were probed.  Disabling
    a device masks and secures its interrupts, denies its memory resources in
    the emulator and protects its CSU fields; disabling a class does so for
    each device of the class and its ancestors up to the first one that can
    be protected.  Probing of the flattened tree is not part of this file. *)

From stdpp Require Import prelude gmap list strings.
From Stdlib Require Import ZArith Lia.
From S2P Require Import Prelude Platform State Frame CoreMmu Csu Emulation Interrupt.
#[local] Open Scope Z_scope.
#[local] Open Scope kernel_scope.

Definition DEVICE_TABLE_SIZE_LOG2 : Z := 7.
Definition DEVICE_TABLE_SIZE : Z := 128.

(** [hash_32(value, bits)] *)
Definition hash_32 (value bits : Z) : Z := Z.shiftr (u32 (u32 value * 0x61C88647)) (32 - bits).

(** [SLIST_NEXT]: the element after [d] in a list. *)
Fixpoint slist_next (l : list dev_ptr) (d : dev_ptr) : option dev_ptr :=
  match l with
  | [] => None
  | x :: l' => if bool_decide (x = d) then head l' else slist_next l' d
  end.

(** [can_protect] of [dt_enable_device] *)
Definition can_protect (d : device) : bool :=
  (0 <? Z.of_nat (length (dv_csu d))) && bool_decide (dv_resource_type d = RESOURCE_MEM).

Definition device_has_class (dev : device) (name : string) : bool :=
  existsb (String.eqb name) (dv_classes dev).

Section dt.
Context {P : Type} {plat : Platform P} {cfg : Config} {drv : IrqDrivers P}.
Abbreviation K := (M (kernel P)).

Definition get_dt {A} (f : dt_data -> A) : K A := gets (fun s => f (k_dt s)).
Definition modify_dt (f : dt_data -> dt_data) : K unit :=
  modify (fun s => set_k_dt (f (k_dt s)) s).
Definition put_device (d : dev_ptr) (v : device) : K unit :=
  modify_dt (fun t => set_device_objs (<[d := v]> (device_objs t)) t).

Definition bucket (b : Z) : K (list dev_ptr) := t <- get_dt device_table;; aget t b.

Fixpoint lookup_in (l : list dev_ptr) (node : Z) : K (option dev_ptr) :=
  match l with
  | [] => ret None
  | d :: l' => v <- get_device d;; if dv_node v =? node then ret (Some d) else lookup_in l' node
  end.
Definition device_lookup (node : Z) : K (option dev_ptr) :=
  l <- bucket (hash_32 node DEVICE_TABLE_SIZE_LOG2);; lookup_in l node.

Definition device_insert (dev : dev_ptr) : K unit :=
  v <- get_device dev;;
  let b := hash_32 (dv_node v) DEVICE_TABLE_SIZE_LOG2 in
  l <- bucket b;; t <- get_dt device_table;; t' <- aset t b (dev :: l);;
  modify_dt (set_device_table t').

(** The inner loop of [device_next]: the first non-empty bucket after [b]. *)
Fixpoint scan_buckets (n : nat) (b : Z) : K (Z * option dev_ptr) :=
  match n with
  | O => ret (b, None)
  | S n' =>
      if b + 1 <? DEVICE_TABLE_SIZE then
        l <- bucket (b + 1);;
        match head l with
        | Some d => ret (b + 1, Some d)
        | None => scan_buckets n' (b + 1)
        end
      else ret (b + 1, None)
  end.
(** [device_next]: the new [*b] and the next device.  [SLIST_NEXT] of a null
    device is a fault. *)
Definition device_next (b : Z) (dev : option dev_ptr) : K (Z * option dev_ptr) :=
  l <- bucket b;;
  nxt <- (match dev with
          | None => if b =? 0 then ret (head l) else fault
          | Some d => ret (slist_next l d)
          end);;
  match nxt with
  | Some d => ret (b, Some d)
  | None => scan_buckets (Z.to_nat DEVICE_TABLE_SIZE) b
  end.

(** [device_for_each] with a body that may [return]. *)
Fixpoint device_loop {R} (fuel : nat) (b : Z) (dev : option dev_ptr) (body : dev_ptr -> K (option R)) :
    K (option R) :=
  match fuel with
  | O => spin
  | S f =>
      ' (b', d) <- device_next b dev;;
      match d with
      | None => ret None
      | Some d =>
          r <- body d;;
          match r with
          | Some x => ret (Some x)
          | None => device_loop f b' (Some d) body
          end
      end
  end.
Definition device_for_each {R} (body : dev_ptr -> K (option R)) : K (option R) :=
  t <- get_dt device_table;; device_loop (S (length (concat t))) 0 None body.

(** The loop body on one interrupt. *)
Definition irq_switch (enable : bool) (d : irq_desc) : K unit :=
  if enable then irq_unsecure d;;; irq_enable d;;; ret tt
  else irq_disable d;;; irq_secure d;;; ret tt.

Definition dt_enable_device (dev : dev_ptr) (enable : bool) : K bool :=
  d <- get_device dev;;
  if eqb (dv_enabled d) enable then ret (can_protect d)
  else
  for_each (dv_irqs d) (fun i => irq_switch enable (ii_desc i));;;
  when (can_protect d) (
    if enable then
      for_each (dv_csu d) (fun c => csu_set_csl c false);;;
      for_each (dv_resources d) (fun r =>
        a <- aget (rs_address r) 0;; n <- aget (rs_size r) 0;; emu_remove_region a n EMU_DENY_ALL)
    else
      for_each (dv_resources d) (fun r =>
        a <- aget (rs_address r) 0;; n <- aget (rs_size r) 0;; emu_add_region a n EMU_DENY_ALL;;; ret tt);;;
      for_each (dv_csu d) (fun c => csu_set_csl c true));;;
  d <- get_device dev;;
  put_device dev (set_dv_enabled enable d);;;
  ret (can_protect d).

(** The device and its parents, until one can be protected.  A parent is
    allocated before its children, so the walk is shorter than the table. *)
Fixpoint enable_chain (fuel : nat) (cur : option dev_ptr) (enable : bool) : K unit :=
  match cur with
  | None => ret tt
  | Some c =>
      match fuel with
      | O => spin
      | S f =>
          stop <- dt_enable_device c enable;;
          if stop then ret tt
          else v <- get_device c;; enable_chain f (dv_parent v) enable
      end
  end.

Definition dt_enable_class (name : string) (enable : bool) : K unit :=
  device_for_each (R := unit) (fun dev =>
    v <- get_device dev;;
    if device_has_class v name then
      if eqb (dv_enabled v) enable then ret None
      else n <- get_dt next_device;; enable_chain (S n) (Some dev) enable;;; ret None
    else ret None);;;
  ret tt.

Definition dt_is_class_enabled (name : string) : K bool :=
  r <- device_for_each (fun dev =>
    v <- get_device dev;;
    if device_has_class v name then ret (Some (dv_enabled v)) else ret None);;
  ret (default false r).
End dt.

(** ** Iteration over the table *)

Lemma hash_32_range value : 0 <= hash_32 value DEVICE_TABLE_SIZE_LOG2 < DEVICE_TABLE_SIZE.
Proof.
  unfold hash_32, DEVICE_TABLE_SIZE_LOG2, DEVICE_TABLE_SIZE. rewrite Z.shiftr_div_pow2 by lia.
  pose proof (u32_range (u32 value * 0x61C88647)) as [H1 H2]. unfold is_u32 in *.
  split; [by apply Z.div_pos|]. apply Z.div_lt_upper_bound; [done|].
  change (2 ^ (32 - 7) * 128) with (2 ^ 32). lia.
Qed.

Lemma slist_next_app l1 d l2 : d ∉ l1 -> slist_next (l1 ++ d :: l2) d = head l2.
Proof.
  induction l1 as [|x l1 IH]; intros H; cbn.
  - by rewrite bool_decide_eq_true_2.
  - apply not_elem_of_cons in H as [Hx Hl]. rewrite bool_decide_eq_false_2 by congruence. by apply IH.
Qed.

Section iteration.
Context {P : Type} {plat : Platform P} {cfg : Config} {drv : IrqDrivers P}.
Implicit Types s : kernel P.

(** The reference loop over a list, with an early return. *)
Fixpoint first_return {R} (l : list dev_ptr) (body : dev_ptr -> M (kernel P) (option R)) : M (kernel P) (option R) :=
  match l with
  | [] => ret None
  | d :: l' => r <- body d;; match r with Some x => ret (Some x) | None => first_return l' body end
  end.

Lemma bucket_run s b l : device_table (k_dt s) !! b = Some l -> bucket (Z.of_nat b) s = Ret l s.
Proof.
  intros H. unfold bucket, get_dt. erewrite bind_run by done. by apply aget_lookup.
Qed.

Lemma scan_buckets_spec s n b :
  length (device_table (k_dt s)) = 128%nat -> (b < 128)%nat -> (128 - b <= n)%nat ->
  (exists b' x l, scan_buckets n (Z.of_nat b) s = Ret (Z.of_nat b', Some x) s /\
     (b < b')%nat /\ device_table (k_dt s) !! b' = Some (x :: l) /\
     concat (drop (S b) (device_table (k_dt s))) = x :: l ++ concat (drop (S b') (device_table (k_dt s)))) \/
  (exists b', scan_buckets n (Z.of_nat b) s = Ret (b', None) s /\ concat (drop (S b) (device_table (k_dt s))) = []).
Proof.
  intros Hl. revert b. induction n as [|n IH]; intros b Hb Hn; [lia|]. cbn [scan_buckets].
  unfold DEVICE_TABLE_SIZE. destruct (Z.ltb_spec (Z.of_nat b + 1) 128).
  - destruct (lookup_lt_is_Some_2 (device_table (k_dt s)) (S b)) as [l Hlk]; [lia|].
    replace (Z.of_nat b + 1) with (Z.of_nat (S b)) by lia. erewrite bind_run by (by apply bucket_run).
    rewrite (drop_S _ _ _ Hlk). destruct l as [|x l]; cbn [head concat app].
    + destruct (IH (S b)) as [H1|H1]; [lia|lia|left|by right].
      destruct H1 as (b' & y & l' & H1 & H2 & H3 & H4). exists b', y, l'. split_and!; [done|lia|done|done].
    + left. exists (S b), x, l. split_and!; [done|lia|done|done].
  - right. eexists. split; [done|]. by rewrite drop_ge by lia.
Qed.

(** In the states [J], the body keeps the table (and stays in [J]). *)
Definition keeps_table {R} (J : kernel P -> Prop) (body : dev_ptr -> M (kernel P) R) (l : list dev_ptr) : Prop :=
  forall d s, d ∈ l -> J s ->
    match body d s with Ret _ s' => device_table (k_dt s') = device_table (k_dt s) /\ J s' | _ => True end.

(** The next device of a walk whose remaining devices are [rest]. *)
Definition next_is s (rest : list dev_ptr) (m : M (kernel P) (Z * option dev_ptr)) : Prop :=
  match rest with
  | [] => exists b', m s = Ret (b', None) s
  | x :: rest' => exists b' l1 l2, m s = Ret (Z.of_nat b', Some x) s /\
      device_table (k_dt s) !! b' = Some (l1 ++ x :: l2) /\
      rest' = l2 ++ concat (drop (S b') (device_table (k_dt s)))
  end.

Lemma scan_next_is s b :
  length (device_table (k_dt s)) = 128%nat -> (b < 128)%nat ->
  next_is s (concat (drop (S b) (device_table (k_dt s)))) (scan_buckets (Z.to_nat DEVICE_TABLE_SIZE) (Z.of_nat b)).
Proof.
  intros Hl Hb. destruct (scan_buckets_spec s 128 b Hl Hb ltac:(lia)) as [(b' & x & l & H1 & H2 & H3 & ->)|(b' & H1 & ->)].
  - by exists b', [], l.
  - by exists b'.
Qed.

Lemma device_next_is s b l1 d l2 :
  length (device_table (k_dt s)) = 128%nat -> NoDup (l1 ++ d :: l2) ->
  device_table (k_dt s) !! b = Some (l1 ++ d :: l2) ->
  next_is s (l2 ++ concat (drop (S b) (device_table (k_dt s)))) (device_next (Z.of_nat b) (Some d)).
Proof.
  intros Hl Hnd Hb. pose proof (lookup_lt_Some _ _ _ Hb) as Hlt. rewrite Hl in Hlt.
  assert (Hd : d ∉ l1) by (intros Hin; apply NoDup_app in Hnd as (_ & Hdis & _); by apply (Hdis d Hin); left).
  pose proof (scan_next_is s b Hl Hlt) as Hscan.
  assert (Hrun : device_next (Z.of_nat b) (Some d) s =
    match head l2 with Some x => Ret (Z.of_nat b, Some x) s
    | None => scan_buckets (Z.to_nat DEVICE_TABLE_SIZE) (Z.of_nat b) s end).
  { unfold device_next. erewrite bind_run by (by apply bucket_run). erewrite bind_run by done.
    rewrite slist_next_app by done. by destruct l2. }
  destruct l2 as [|x l2]; cbn [app next_is].
  - unfold next_is in *. cbn in Hrun. by rewrite Hrun.
  - rewrite Hrun. exists b, (l1 ++ [d]), l2. by rewrite <- app_assoc.
Qed.
Lemma device_first_is s :
  length (device_table (k_dt s)) = 128%nat ->
  next_is s (concat (device_table (k_dt s))) (device_next 0 None).
Proof.
  intros Hl. destruct (lookup_lt_is_Some_2 (device_table (k_dt s)) 0) as [l Hb]; [lia|].
  pose proof (scan_next_is s 0 Hl ltac:(lia)) as Hscan.
  assert (Hc : concat (device_table (k_dt s)) = l ++ concat (drop 1 (device_table (k_dt s)))).
  { clear Hscan Hl. revert Hb. generalize (device_table (k_dt s)). intros [|y t] Hb; by simplify_eq/=. }
  rewrite Hc.
  assert (Hrun : device_next 0 None s =
    match head l with Some x => Ret (0, Some x) s
    | None => scan_buckets (Z.to_nat DEVICE_TABLE_SIZE) 0 s end).
  { unfold device_next. change 0 with (Z.of_nat 0) at 1. erewrite bind_run by (by apply bucket_run).
    erewrite bind_run by done. by destruct l. }
  destruct l as [|x l]; cbn [app next_is].
  - unfold next_is in *. cbn in Hrun. by rewrite Hrun.
  - rewrite Hrun. by exists 0%nat, [], l.
Qed.

Lemma bucket_NoDup (t : list (list dev_ptr)) b l : NoDup (concat t) -> t !! b = Some l -> NoDup l.
Proof.
  revert b. induction t as [|x t IH]; intros b Hnd Hb; [done|]. cbn in Hnd.
  apply NoDup_app in Hnd as (Hx & _ & Ht). destruct b; cbn in Hb; [by simplify_eq|by eapply IH].
Qed.

(** A walk visits the remaining devices in order. *)
Lemma device_loop_rest {R} J (body : dev_ptr -> M (kernel P) (option R)) fuel s b dev rest :
  keeps_table J body rest -> J s -> length (device_table (k_dt s)) = 128%nat -> NoDup (concat (device_table (k_dt s))) ->
  next_is s rest (device_next b dev) -> (length rest < fuel)%nat ->
  device_loop fuel b dev body s = first_return rest body s.
Proof.
  revert s b dev rest. induction fuel as [|fuel IH]; intros s b dev rest Hk HJ Hlen Hnd Hn Hf; [lia|].
  cbn [device_loop]. destruct rest as [|x rest]; cbn [next_is first_return] in *.
  - destruct Hn as [b' Hn]. by erewrite bind_run by exact Hn.
  - destruct Hn as (b' & l1 & l2 & Hn & Hb & ->). erewrite bind_run by exact Hn. cbn beta iota.
    unfold bind. generalize (Hk x s ltac:(left) HJ).
    destruct (body x s) as [[r|] s'| | |]; try done. intros [Hkx HJ'].
    apply IH; rewrite ?Hkx; [intros d s2 Hd; apply Hk; by right|done|done|done| |simpl in Hf; lia].
    pose proof (device_next_is s' b' l1 x l2) as Hnx. rewrite Hkx in Hnx.
    apply Hnx; [done|by eapply bucket_NoDup|done].
Qed.
Lemma device_for_each_spec {R} J (body : dev_ptr -> M (kernel P) (option R)) s :
  keeps_table J body (concat (device_table (k_dt s))) -> J s -> length (device_table (k_dt s)) = 128%nat -> NoDup (concat (device_table (k_dt s))) ->
  device_for_each body s = first_return (concat (device_table (k_dt s))) body s.
Proof.
  intros Hk HJ Hl Hnd. unfold device_for_each, get_dt. erewrite bind_run by done.
  apply (device_loop_rest J); [done..|by apply device_first_is|lia].
Qed.
End iteration.

(** ** Properties *)

(** [device_for_each] visits every device of the hash table exactly once,
    bucket by bucket, and stops at the first one whose body returns: for any
    body that leaves the table alone it is the in-order walk of the table. *)
Theorem device_for_each_visits {P A} `{Platform P} (body : dev_ptr -> M (kernel P) (option A)) (s : kernel P) :
  length (device_table (k_dt s)) = 128%nat -> NoDup (concat (device_table (k_dt s))) ->
  (forall d s1, match body d s1 with
                | Ret _ s2 => device_table (k_dt s2) = device_table (k_dt s1) | _ => True end) ->
  device_for_each body s = first_return (concat (device_table (k_dt s))) body s.
Proof.
  intros Hl Hn Hb. apply (device_for_each_spec (fun _ => True)); [|done|done|done].
  intros d s1 _ _. specialize (Hb d s1). by destruct (body d s1).
Qed.

(** The devices whose objects exist. *)
Definition dt_wf {P} (s : kernel P) : Prop :=
  length (device_table (k_dt s)) = 128%nat /\ NoDup (concat (device_table (k_dt s))) /\
  Forall (fun d => is_Some (device_objs (k_dt s) !! d)) (concat (device_table (k_dt s))).
(** Every device is in the bucket of its node. *)
Definition dt_hashed {P} (s : kernel P) : Prop :=
  forall b l d v, device_table (k_dt s) !! b = Some l -> d ∈ l -> device_objs (k_dt s) !! d = Some v ->
    hash_32 (dv_node v) DEVICE_TABLE_SIZE_LOG2 = Z.of_nat b.

Lemma lookup_in_run {P} l node (s : kernel P) :
  Forall (fun d => is_Some (device_objs (k_dt s) !! d)) l ->
  lookup_in l node s = Ret (snd <$> list_find (fun d => dv_node <$> device_objs (k_dt s) !! d = Some node) l) s.
Proof.
  induction 1 as [|d l [v Hv] Hl IH]; [done|]. cbn [lookup_in list_find].
  erewrite bind_run by (unfold get_device, bind, gets, deref; rewrite Hv; reflexivity). cbv beta. rewrite Hv. cbn [fmap option_fmap option_map].
  destruct (Z.eqb_spec (dv_node v) node) as [E|E].
  - by rewrite decide_True by congruence.
  - rewrite decide_False by congruence. rewrite IH. by destruct (list_find _ l) as [[]|].
Qed.

(** The bucket of a node, and the lookup in it. *)
Definition node_bucket (node : Z) : nat := Z.to_nat (hash_32 node DEVICE_TABLE_SIZE_LOG2).
Lemma node_bucket_of node : Z.of_nat (node_bucket node) = hash_32 node DEVICE_TABLE_SIZE_LOG2.
Proof. unfold node_bucket. pose proof (hash_32_range node). lia. Qed.
Lemma node_bucket_lookup {P} (s : kernel P) node :
  dt_wf s -> exists l, device_table (k_dt s) !! node_bucket node = Some l /\
    Forall (fun d => is_Some (device_objs (k_dt s) !! d)) l.
Proof.
  intros (Hlen & _ & Hobj). pose proof (hash_32_range node) as Hr. unfold DEVICE_TABLE_SIZE in Hr.
  destruct (lookup_lt_is_Some_2 (device_table (k_dt s)) (node_bucket node)) as [l Hl]; [unfold node_bucket; lia|].
  exists l. split; [done|]. rewrite Forall_forall in Hobj |- *. intros d Hd. apply Hobj.
  rewrite list_elem_of_In, in_concat. exists l. rewrite <- !list_elem_of_In. split; [by eapply list_elem_of_lookup_2|done].
Qed.
Lemma device_lookup_run {P} (s : kernel P) node l :
  device_table (k_dt s) !! node_bucket node = Some l -> Forall (fun d => is_Some (device_objs (k_dt s) !! d)) l ->
  device_lookup node s = Ret (snd <$> list_find (fun d => dv_node <$> device_objs (k_dt s) !! d = Some node) l) s.
Proof.
  intros Hl Ho. unfold device_lookup. rewrite <- node_bucket_of. erewrite bind_run by (by apply bucket_run).
  by apply lookup_in_run.
Qed.
Lemma concat_insert {A} (t : list (list A)) b l x : t !! b = Some l -> concat (<[b := x :: l]> t) ≡ₚ x :: concat t.
Proof.
  intros Hl. rewrite insert_take_drop by (by apply lookup_lt_Some in Hl).
  transitivity (x :: concat (take b t ++ l :: drop (S b) t)); [|by rewrite take_drop_middle].
  rewrite !concat_app. cbn [concat app]. by rewrite <- Permutation_middle.
Qed.

Lemma device_insert_run {P} (s : kernel P) dev v l :
  device_objs (k_dt s) !! dev = Some v -> device_table (k_dt s) !! node_bucket (dv_node v) = Some l ->
  device_insert dev s =
    Ret tt (set_k_dt (set_device_table (<[node_bucket (dv_node v) := dev :: l]> (device_table (k_dt s))) (k_dt s)) s).
Proof.
  intros Hv Hl. unfold device_insert.
  erewrite bind_run by (unfold get_device, bind, gets, deref; rewrite Hv; reflexivity).
  cbv zeta beta. rewrite <- node_bucket_of. erewrite bind_run by (by apply bucket_run).
  unfold get_dt. erewrite bind_run by done.
  by erewrite bind_run by (apply aset_insert; by apply lookup_lt_Some in Hl).
Qed.

(** Inserting a device makes [device_lookup] of its node find it, leaves
    the lookups of every other node as they were, and keeps the table well
    formed. *)
Theorem device_insert_lookup {P} `{Platform P} (s : kernel P) (dev : dev_ptr) (v : device) :
  dt_wf s -> device_objs (k_dt s) !! dev = Some v -> dev ∉ concat (device_table (k_dt s)) ->
  exists s', device_insert dev s = Ret tt s' /\ dt_wf s' /\ (dt_hashed s -> dt_hashed s') /\
    device_lookup (dv_node v) s' = Ret (Some dev) s' /\
    forall node, node <> dv_node v -> exists r, device_lookup node s = Ret r s /\ device_lookup node s' = Ret r s'.
Proof.
  intros Hwf Hv Hni. destruct (node_bucket_lookup s (dv_node v) Hwf) as (l & Hl & Hol).
  pose proof (lookup_lt_Some _ _ _ Hl) as Hlt. eexists. split; [by apply device_insert_run|].
  set (s' := set_k_dt _ s). assert (Hdl : Forall (fun d => is_Some (device_objs (k_dt s) !! d)) (dev :: l)) by (constructor; [by rewrite Hv|done]).
  assert (Hb : device_table (k_dt s') !! node_bucket (dv_node v) = Some (dev :: l)) by (by apply list_lookup_insert_eq).
  split_and!.
  - destruct Hwf as (Hlen & Hnd & Hobj). unfold dt_wf. cbn. rewrite length_insert, concat_insert by done.
    split; [done|]. split; [by constructor|]. constructor; [by rewrite Hv|done].
  - intros Hh c l1 d w Hc Hd Hw. cbn in Hc, Hw. destruct (decide (c = node_bucket (dv_node v))) as [->|Hne].
    + rewrite list_lookup_insert_eq in Hc by done. injection Hc as <-.
      apply elem_of_cons in Hd as [->|Hd]; [simplify_eq; by rewrite node_bucket_of|]. by apply (Hh _ l d w).
    + rewrite list_lookup_insert_ne in Hc by done. by apply (Hh c l1 d w).
  - rewrite (device_lookup_run s' _ (dev :: l)) by done. cbn [list_find]. rewrite decide_True by (cbn; by rewrite Hv). done.
  - intros node Hne. destruct (node_bucket_lookup s node Hwf) as (l1 & Hl1 & Ho1).
    eexists. split; [by apply device_lookup_run|]. destruct (decide (node_bucket node = node_bucket (dv_node v))) as [E|E].
    + rewrite (device_lookup_run s' _ (dev :: l)) by (rewrite ?E; done). rewrite E in Hl1. assert (l1 = l) as -> by congruence.
      cbn [list_find]. rewrite decide_False by (cbn; rewrite Hv; cbn; congruence). by destruct (list_find _ l) as [[]|].
    + by rewrite (device_lookup_run s' _ l1) by (done || (cbn; by rewrite list_lookup_insert_ne)).
Qed.

Definition dt_demo : kernel bigram :=
  set_k_dt (DtData (replicate 128 []) {[ 0%nat := Device 400 1 "uart" None RESOURCE_MEM [] [] [] [] true false ]} 1)
    (kernel_init (mk_bigram ∅)).
Lemma device_insert_lookup_witness :
  exists s', device_insert 0 dt_demo = Ret tt s' /\ device_lookup 400 s' = Ret (Some 0%nat) s'.
Proof.
  destruct (device_insert_lookup dt_demo 0 _ ltac:(split; [done|split; vm_compute; constructor]) eq_refl
    ltac:(apply (bool_decide_unpack _); vm_compute; exact I)) as (s' & H1 & _ & _ & H2 & _).
  exists s'. split; [exact H1|exact H2].
Defined.
Lemma device_for_each_visits_witness :
  device_for_each (fun d => ret (Some d)) (set_k_dt (set_device_table (replicate 100 [] ++ [[7; 3]]%nat ++ replicate 27 []) (k_dt dt_demo)) dt_demo)
  = Ret (Some 7%nat) (set_k_dt (set_device_table (replicate 100 [] ++ [[7; 3]]%nat ++ replicate 27 []) (k_dt dt_demo)) dt_demo).
Proof.
  rewrite device_for_each_visits; [reflexivity|reflexivity|apply (bool_decide_unpack _); vm_compute; exact I|done].
Defined.
