(* ===== verification/Protection.v ===== *)
(** * What the device layer enforces

    The abstract state of drivers/dt.c is which devices are enabled.  [prot]
    relates it to the kernel: every CSU counter is what other users asked for
    plus the fields of the disabled devices, and likewise for the deny regions
    of the emulator.  The routines of [Dt] are proved to implement the
    abstract transitions and to keep [prot]. *)

From stdpp Require Import prelude gmap list strings.
From Stdlib Require Import ZArith Lia.
From S2P Require Import Prelude Platform State Frame CoreMmu Csu Emulation Interrupt Dt.
#[local] Open Scope Z_scope.
#[local] Open Scope kernel_scope.

(** ** Sums over the devices *)

Definition total (f : device -> Z) (m : gmap dev_ptr device) : Z := map_fold (fun _ v acc => f v + acc) 0 m.

Lemma total_insert f m d v : m !! d = None -> total f (<[d := v]> m) = f v + total f m.
Proof. intros H. unfold total. by rewrite map_fold_insert_L by (done || (intros; lia)). Qed.
Lemma total_lookup f m d v : m !! d = Some v -> total f m = f v + total f (delete d m).
Proof.
  intros H. rewrite <- (insert_delete_id m d v H) at 1. apply total_insert. by rewrite lookup_delete_eq.
Qed.
Lemma total_replace f m d v v' : m !! d = Some v -> total f (<[d := v']> m) = total f m - f v + f v'.
Proof.
  intros H. rewrite (total_lookup f m d v H).
  rewrite (total_lookup f (<[d := v']> m) d v') by (by rewrite lookup_insert_eq).
  rewrite delete_insert_eq. lia.
Qed.
Lemma total_nonneg f m : (forall v, 0 <= f v) -> 0 <= total f m.
Proof.
  intros Hf. induction m as [|d v m Hn IH] using map_ind; [done|].
  rewrite total_insert by done. specialize (Hf v). lia.
Qed.
Lemma total_le f g m : (forall v, f v <= g v) -> total f m <= total g m.
Proof.
  intros Hf. induction m as [|d v m Hn IH] using map_ind; [done|].
  rewrite !total_insert by done. specialize (Hf v). lia.
Qed.

Lemma total_zero f m : (forall i v, m !! i = Some v -> f v = 0) -> total f m = 0.
Proof.
  induction m as [|i v m Hn IH] using map_ind; intros Hm; [done|].
  rewrite total_insert, IH, (Hm i v) by (done || by rewrite lookup_insert_eq ||
    (intros j w Hj; apply (Hm j w); rewrite lookup_insert_ne; [done|congruence])). done.
Qed.

(** ** Occurrences *)

Definition occ (c : Z) (l : list Z) : Z := Z.of_nat (length (filter (c =.) l)).
Lemma occ_cons c x l : occ c (x :: l) = (if c =? x then 1 else 0) + occ c l.
Proof.
  unfold occ. rewrite filter_cons. destruct (Z.eqb_spec c x) as [->|].
  - rewrite decide_True by done. simpl. lia.
  - rewrite decide_False by done. lia.
Qed.
Lemma occ_nonneg c l : 0 <= occ c l.
Proof. unfold occ. lia. Qed.
Lemma occ_le_length c l : occ c l <= Z.of_nat (length l).
Proof. unfold occ. pose proof (length_filter (c =.) l). lia. Qed.
Lemma occ_pos c l : c ∈ l -> 0 < occ c l.
Proof.
  intros H. unfold occ. assert (Hf : c ∈ filter (c =.) l) by (by apply list_elem_of_filter).
  destruct (filter (c =.) l); [by apply elem_of_nil in Hf|simpl; lia].
Qed.

Lemma occ_zero c l : c ∉ l -> occ c l = 0.
Proof.
  induction l as [|x l IH]; intros H; [done|]. apply not_elem_of_cons in H as [Hx Hl].
  rewrite occ_cons, (proj2 (Z.eqb_neq c x)), IH by done. done.
Qed.

(** The deny region of a memory resource. *)
Definition res_region (r : resource) : option region :=
  match rs_address r, rs_size r with a :: _, n :: _ => Some (Region a n EMU_DENY_ALL) | _, _ => None end.
Definition dev_regions (d : device) : list region := omap res_region (dv_resources d).

Lemma omap_res_cons r rg l : res_region r = Some rg -> omap res_region (r :: l) = rg :: omap res_region l.
Proof. intros H. cbn. by rewrite H. Qed.

(** A disabled device that holds protections. *)
Definition holds (d : device) : bool := negb (dv_enabled d) && can_protect d.
Definition held_csl (csl : Z) (d : device) : Z := if holds d then occ csl (dv_csu d) else 0.
Definition held_region (r : region) (d : device) : Z :=
  if holds d then Z.of_nat (region_mult r (dev_regions d)) else 0.

(** ** Interface to the interrupt layer *)

(** Interrupts that a routine may have moved: the platform, along accesses in
    [W], and the GPIO ports. *)
Definition irq_step {P} `{Platform P} (W : bool -> Z -> Z -> Prop) (s s' : kernel P) : Prop :=
  exists p g, s' = set_k_plat p (set_k_gpio g s) /\ io_path W (k_plat s) p.

(** Switching an interrupt of [D] off ([en = false]) or on, in the states
    [Iok], returns and moves nothing else. *)
Class IrqQuiet {P} `{Platform P, Config, IrqDrivers P} (W : bool -> Z -> Z -> Prop)
    (Iok : kernel P -> Prop) (D : irq_desc -> Prop) (en : bool) : Prop := {
  irq_quiet : forall d s, D d -> Iok s ->
    wp (irq_switch en d) s (fun _ s' => irq_step W s s' /\ Iok s');
  irq_ok_frame : forall s s', k_irq s' = k_irq s -> k_gic s' = k_gic s -> k_gpio s' = k_gpio s ->
    Iok s -> Iok s';
}.

Lemma irq_step_refl {P} `{Platform P} W (s : kernel P) : irq_step W s s.
Proof. exists (k_plat s), (k_gpio s). split; [by destruct s|constructor]. Qed.
Lemma irq_step_trans {P} `{Platform P} W (s s' s'' : kernel P) :
  irq_step W s s' -> irq_step W s' s'' -> irq_step W s s''.
Proof. intros (p & g & -> & Hp) (q & h & -> & Hq). exists q, h. split; [done|]. by etrans. Qed.

(** ** Loops over the resources of a device *)

Section loops.
Context {P : Type} {plat : Platform P} {cfg : Config} {drv : IrqDrivers P}.
Context (R : Z -> Prop) {regs : PlainRegs P R} (hok : P -> Prop) {heap : HeapAvailable P hok}.
Implicit Types s : kernel P.

(** The registers of the CSU at [cb] are the same. *)
Definition csu_same (cb : Z) (p p' : P) : Prop := forall a, csu_window cb a -> reg p' a = reg p a.

Lemma csu_same_field cb p p' csl :
  csu_same cb p p' -> 0 < cb -> cb + 0x21c <= 2 ^ 32 -> 0 <= csl < MAX_CSL ->
  csl_field p' cb csl = csl_field p cb csl.
Proof.
  intros Hs H1 H2 Hc. unfold csl_field. rewrite (Hs (csl_addr cb csl)); [done|].
  by apply csl_addr_u32.
Qed.
Lemma csu_ok_same s s' :
  csu_ok s -> k_csu s' = k_csu s -> csu_same (csu_base (k_csu s)) (k_plat s) (k_plat s') -> csu_ok s'.
Proof.
  intros [Hb Hl Hc Hf] Heq Hs. split; rewrite ?Heq; [done..|]. intros csl Hcsl.
  rewrite <- Hf by done. destruct Hb. by apply csu_same_field.
Qed.

Lemma csu_loop (protect : bool) l s :
  csu_ok s -> csu_mapped R s -> hok (k_plat s) -> Forall (fun c => 0 <= c < MAX_CSL) l ->
  (forall csl, 0 <= csl < MAX_CSL ->
     if protect then csl_count (k_csu s) csl + occ csl l < 2 ^ 31
     else occ csl l <= csl_count (k_csu s) csl < 2 ^ 31) ->
  wp (for_each l (fun c => csu_set_csl c protect)) s (fun _ s' =>
    exists p c, s' = set_k_plat p (set_k_csu c s) /\ csu_ok s' /\ csu_base c = csu_base (k_csu s) /\ hok p /\
      forall csl, 0 <= csl < MAX_CSL ->
        csl_count c csl = csl_count (k_csu s) csl + (if protect then occ csl l else - occ csl l)).
Proof.
  revert s. induction l as [|c l IH]; intros s Hok HR Hh Hall Hcnt; cbn [for_each].
  { apply wp_ret. exists (k_plat s), (k_csu s). split_and!; [by destruct s|done..|].
    intros. destruct protect; change (occ csl []) with 0; lia. }
  apply Forall_cons in Hall as [Hc Hall]. destruct (csu_ok_base _ Hok) as [Hb1 Hb2].
  pose proof (csu_ok_len _ Hok) as Hl. pose proof (csu_ok_count _ Hok c Hc) as Hpos.
  pose proof (Hcnt c Hc) as Hcc. rewrite occ_cons, Z.eqb_refl in Hcc. pose proof (occ_nonneg c l) as Hnn.
  assert (Hstep : csu_set_csl c protect s = Ret tt (csu_step c protect s)).
  { apply (csu_set_csl_run R); [done..|]. destruct protect; lia. }
  apply wp_bind. eapply wp_intro; [exact Hstep|].
  assert (Hc' : forall csl, 0 <= csl < MAX_CSL -> csl_count (k_csu (csu_step c protect s)) csl =
    csl_count (k_csu s) csl + (if csl =? c then (if protect then 1 else -1) else 0)).
  { intros. apply csu_step_count; [done..|lia]. }
  eapply wp_mono; [|apply (IH (csu_step c protect s))].
  - intros _ s' (p & d & -> & Hok' & Hb' & Hh' & Hd). exists p, d. split_and!; [done..|].
    intros csl Hcsl. rewrite Hd, Hc', occ_cons by done. destruct protect; destruct (csl =? c); lia.
  - apply (csu_step_ok R); [done..|]. intros ->. lia.
  - exact HR.
  - cbn. unfold csu_plat. destruct (_ =? _); [by apply heap_ok_write|done].
  - done.
  - intros csl Hcsl. specialize (Hcnt csl Hcsl). rewrite Hc' by done. rewrite occ_cons in Hcnt.
    destruct protect; destruct (csl =? c); lia.
Qed.

Lemma csu_same_refl cb p : csu_same cb p p.
Proof. by intros a _. Qed.
Lemma csu_same_trans cb p q r : csu_same cb p q -> csu_same cb q r -> csu_same cb p r.
Proof. intros H1 H2 a Ha. by rewrite (H2 a Ha), (H1 a Ha). Qed.

(** The address and size cells of a resource. *)
Lemma res_cells r rg s :
  res_region r = Some rg -> exists a n, rg = Region a n EMU_DENY_ALL /\
    aget (rs_address r) 0 s = Ret a s /\ aget (rs_size r) 0 s = Ret n s.
Proof.
  unfold res_region. destruct (rs_address r) as [|a la] eqn:Ea, (rs_size r) as [|n ln] eqn:En; try done.
  intros [= <-]. by exists a, n.
Qed.

Context (cb : Z) (Hcb : 0 < cb /\ cb + 0x21c <= 2 ^ 32) (HRcb : forall a, csu_window cb a -> R a).

Lemma window_u32 a : csu_window cb a -> u32 a = a.
Proof.
  intros [(k & Hk & ->)| ->]; apply u32_small; unfold is_u32; lia.
Qed.
Lemma csu_same_alloc n p p' : heap_alloc n p = Some p' -> csu_same cb p p'.
Proof. intros Ha a Hw. unfold reg. rewrite (window_u32 a) by done. by rewrite (reg_alloc a n p p') by auto. Qed.
Lemma csu_same_free n p : csu_same cb p (heap_free n p).
Proof. intros a Hw. unfold reg. rewrite (window_u32 a) by done. by rewrite reg_free by auto. Qed.
Lemma csu_same_path W p p' :
  (forall a k b n, csu_window cb a -> W k b n -> apart a 4 b n) -> io_path W p p' -> csu_same cb p p'.
Proof.
  intros Hap Hp a Hw. apply (io_path_reg R W); [rewrite (window_u32 a) by done; auto| |done].
  intros k b n HW. rewrite (window_u32 a) by done. by apply (Hap a k).
Qed.

Lemma add_regions_loop l s :
  hok (k_plat s) -> Forall (fun r => is_Some (res_region r)) l ->
  wp (for_each l (fun r => a <- aget (rs_address r) 0;; n <- aget (rs_size r) 0;;
        emu_add_region a n EMU_DENY_ALL;;; ret tt)) s (fun _ s' =>
    exists p e, s' = set_k_plat p (set_k_emu e s) /\ hok p /\ csu_same cb (k_plat s) p /\
      forall rg, Z.of_nat (region_mult rg (regions e)) =
        Z.of_nat (region_mult rg (regions (k_emu s))) + Z.of_nat (region_mult rg (omap res_region l))).
Proof.
  revert s. induction l as [|r l IH]; intros s Hh Hall; cbn [for_each].
  { apply wp_ret. exists (k_plat s), (k_emu s). split_and!; [by destruct s|done|apply csu_same_refl|].
    intros. cbn. lia. }
  apply Forall_cons in Hall as [[rg Hr] Hall]. destruct (res_cells r rg s Hr) as (a & n & -> & Ha & Hn).
  destruct (heap_ok_alloc sizeof_region (k_plat s) Hh) as (p1 & Hp1 & Hh1).
  apply wp_bind. eapply wp_intro.
  { erewrite bind_run by exact Ha. erewrite bind_run by exact Hn.
    erewrite bind_run by (rewrite emu_add_region_run, Hp1; reflexivity). reflexivity. }
  eapply wp_mono; [|apply IH; [exact Hh1|done]].
  intros _ s' (p & e & -> & Hp & Hs & Hm). exists p, e. split_and!; [done|done| |].
  - eapply csu_same_trans; [|exact Hs]. by apply (csu_same_alloc sizeof_region).
  - intros rg. rewrite Hm, (omap_res_cons _ _ _ Hr). cbn [k_emu set_k_plat set_k_emu regions set_regions].
    rewrite !region_mult_cons. lia.
Qed.

Lemma remove_regions_loop l s :
  hok (k_plat s) -> Forall (fun r => is_Some (res_region r)) l ->
  (forall rg, (region_mult rg (omap res_region l) <= region_mult rg (regions (k_emu s)))%nat) ->
  wp (for_each l (fun r => a <- aget (rs_address r) 0;; n <- aget (rs_size r) 0;;
        emu_remove_region a n EMU_DENY_ALL)) s (fun _ s' =>
    exists p e, s' = set_k_plat p (set_k_emu e s) /\ hok p /\ csu_same cb (k_plat s) p /\
      forall rg, Z.of_nat (region_mult rg (regions e)) =
        Z.of_nat (region_mult rg (regions (k_emu s))) - Z.of_nat (region_mult rg (omap res_region l))).
Proof.
  revert s. induction l as [|r l IH]; intros s Hh Hall Hle; cbn [for_each].
  { apply wp_ret. exists (k_plat s), (k_emu s). split_and!; [by destruct s|done|apply csu_same_refl|].
    intros. cbn. lia. }
  apply Forall_cons in Hall as [[rg Hr] Hall]. destruct (res_cells r rg s Hr) as (a & n & Hrg & Ha & Hn).
  assert (Hin : rg ∈ regions (k_emu s)).
  { apply region_mult_pos. specialize (Hle rg). rewrite (omap_res_cons _ _ _ Hr), region_mult_cons in Hle.
    rewrite bool_decide_eq_true_2 in Hle by done. lia. }
  destruct (remove_first rg (regions (k_emu s))) as [rs|] eqn:Erm;
    [|by apply remove_first_None in Erm].
  pose proof (remove_first_mult _ _ _ Erm) as Hmult.
  apply wp_bind. eapply wp_intro.
  { erewrite bind_run by exact Ha. erewrite bind_run by exact Hn.
    rewrite emu_remove_region_run, <- Hrg, Erm. reflexivity. }
  eapply wp_mono; [|apply IH; [by apply heap_ok_free|done|]].
  - intros _ s' (p & e & -> & Hp & Hs & Hm). exists p, e. split_and!; [done|done| |].
    + eapply csu_same_trans; [|exact Hs]. apply csu_same_free.
    + intros rg'. rewrite Hm, (omap_res_cons _ _ _ Hr), region_mult_cons, (Hmult rg').
      cbn [k_emu set_k_plat set_k_emu regions set_regions]. lia.
  - intros rg'. specialize (Hle rg'). rewrite (omap_res_cons _ _ _ Hr), region_mult_cons, (Hmult rg') in Hle.
    cbn [k_emu set_k_plat set_k_emu regions set_regions]. lia.
Qed.
End loops.

(** ** Abstract state *)

Definition upd (d : dev_ptr) (en : bool) (E : dev_ptr -> bool) : dev_ptr -> bool :=
  fun i => if decide (i = d) then en else E i.

(** The device objects whose enabled flags are [E]. *)
Definition rep (dv0 : gmap dev_ptr device) (E : dev_ptr -> bool) : gmap dev_ptr device :=
  map_imap (fun i v => Some (set_dv_enabled (E i) v)) dv0.

Lemma rep_lookup dv0 E i : rep dv0 E !! i = set_dv_enabled (E i) <$> dv0 !! i.
Proof. unfold rep. rewrite map_lookup_imap. by destruct (dv0 !! i). Qed.
Lemma rep_insert dv0 E d v en :
  dv0 !! d = Some v -> <[d := set_dv_enabled en v]> (rep dv0 E) = rep dv0 (upd d en E).
Proof.
  intros Hd. apply map_eq. intros i. rewrite rep_lookup. unfold upd. destruct (decide (i = d)) as [->|].
  - by rewrite lookup_insert_eq, Hd.
  - rewrite lookup_insert_ne by done. by rewrite rep_lookup.
Qed.
Lemma rep_ext dv0 E E' : (forall i, is_Some (dv0 !! i) -> E i = E' i) -> rep dv0 E = rep dv0 E'.
Proof.
  intros H. apply map_eq. intros i. rewrite !rep_lookup. destruct (dv0 !! i) eqn:Ei; [|done].
  cbn. by rewrite H.
Qed.

(** Components the device layer never writes. *)
Definition dev_frame {P} (s s' : kernel P) : Prop :=
  k_mmu s' = k_mmu s /\ k_irq s' = k_irq s /\ k_gic s' = k_gic s /\ k_keys s' = k_keys s /\
  k_fb s' = k_fb s /\ k_cloak s' = k_cloak s.
#[global] Instance dev_frame_preorder {P} : PreOrder (dev_frame (P:=P)).
Proof. split; [by intros s|]. intros s s' s'' (?&?&?&?&?&?) (?&?&?&?&?&?). unfold dev_frame. by split_and!; etrans. Qed.

(** ** Chains

    The device and its ancestors up to the first one that can be protected. *)

Fixpoint chain (dv0 : gmap dev_ptr device) (fuel : nat) (cur : option dev_ptr) : list dev_ptr :=
  match cur, fuel with
  | Some c, S f =>
      match dv0 !! c with
      | Some v => c :: (if can_protect v then [] else chain dv0 f (dv_parent v))
      | None => []
      end
  | _, _ => []
  end.
Definition chain_of (dv0 : gmap dev_ptr device) (d : dev_ptr) : list dev_ptr := chain dv0 (S d) (Some d).

(** Parents are older than their children. *)
Definition parents_older (dv0 : gmap dev_ptr device) : Prop :=
  map_Forall (fun i v => forall q, dv_parent v = Some q -> (q < i)%nat /\ is_Some (dv0 !! q)) dv0.

Lemma chain_fuel dv0 fuel d :
  parents_older dv0 -> (d < fuel)%nat -> chain dv0 fuel (Some d) = chain_of dv0 d.
Proof.
  intros Hpo. revert fuel. induction (lt_wf d) as [d _ IH]. intros [|fuel] Hf; [lia|].
  unfold chain_of. cbn [chain]. destruct (dv0 !! d) as [v|] eqn:Hd; [|done].
  destruct (can_protect v); [done|]. destruct (dv_parent v) as [q|] eqn:Hq; [|by destruct fuel, d].
  destruct (Hpo d v Hd q Hq) as [Hlt _]. f_equal. rewrite !IH by lia. done.
Qed.
Lemma chain_of_eq dv0 d v :
  parents_older dv0 -> dv0 !! d = Some v ->
  chain_of dv0 d = d :: (if can_protect v then [] else match dv_parent v with Some q => chain_of dv0 q | None => [] end).
Proof.
  intros Hpo Hd. unfold chain_of at 1. cbn [chain]. rewrite Hd. destruct (can_protect v); [done|].
  destruct (dv_parent v) as [q|] eqn:Hq; [|by destruct d].
  destruct (Hpo d v Hd q Hq) as [Hlt _]. by rewrite chain_fuel.
Qed.
Lemma chain_of_self dv0 d v : dv0 !! d = Some v -> d ∈ chain_of dv0 d.
Proof. intros Hd. unfold chain_of. cbn [chain]. rewrite Hd. left. Qed.
Lemma chain_of_dom dv0 d i : parents_older dv0 -> i ∈ chain_of dv0 d -> is_Some (dv0 !! i).
Proof.
  intros Hpo. induction (lt_wf d) as [d _ IH]. intros Hi.
  destruct (dv0 !! d) as [v|] eqn:Hd; [|unfold chain_of in Hi; cbn [chain] in Hi; rewrite Hd in Hi; by apply elem_of_nil in Hi].
  rewrite (chain_of_eq dv0 d v Hpo Hd) in Hi. apply elem_of_cons in Hi as [->|Hi]; [by rewrite Hd|].
  destruct (can_protect v); [by apply elem_of_nil in Hi|].
  destruct (dv_parent v) as [q|] eqn:Hq; [|by apply elem_of_nil in Hi].
  destruct (Hpo d v Hd q Hq) as [Hlt _]. by apply (IH q).
Qed.
(** The chain of a member of a chain is a part of it. *)
Lemma chain_of_suffix dv0 d i j :
  parents_older dv0 -> i ∈ chain_of dv0 d -> j ∈ chain_of dv0 i -> j ∈ chain_of dv0 d.
Proof.
  intros Hpo. induction (lt_wf d) as [d _ IH]. intros Hi Hj.
  destruct (dv0 !! d) as [v|] eqn:Hd; [|unfold chain_of in Hi; cbn [chain] in Hi; rewrite Hd in Hi; by apply elem_of_nil in Hi].
  rewrite (chain_of_eq dv0 d v Hpo Hd) in Hi. apply elem_of_cons in Hi as [->|Hi]; [done|].
  rewrite (chain_of_eq dv0 d v Hpo Hd). right. destruct (can_protect v); [by apply elem_of_nil in Hi|].
  destruct (dv_parent v) as [q|] eqn:Hq; [|by apply elem_of_nil in Hi].
  destruct (Hpo d v Hd q Hq) as [Hlt _]. by apply (IH q).
Qed.

(** ** Abstract transitions *)

Definition a_chain (dv0 : gmap dev_ptr device) (d : dev_ptr) (en : bool) (E : dev_ptr -> bool) : dev_ptr -> bool :=
  fun i => if bool_decide (i ∈ chain_of dv0 d) then en else E i.
Definition has_class (dv0 : gmap dev_ptr device) (d : dev_ptr) (name : string) : bool :=
  match dv0 !! d with Some v => device_has_class v name | None => false end.
(** One device of the loop of [dt_enable_class]. *)
Definition a_class_dev (dv0 : gmap dev_ptr device) (name : string) (en : bool) (E : dev_ptr -> bool) (d : dev_ptr) :=
  if has_class dv0 d name && negb (eqb (E d) en) then a_chain dv0 d en E else E.
Definition a_class (dv0 : gmap dev_ptr device) (l : list dev_ptr) (name : string) (en : bool) (E : dev_ptr -> bool) :=
  foldl (a_class_dev dv0 name en) E l.

Section protection.
Context {P : Type} {plat : Platform P} {cfg : Config} {drv : IrqDrivers P}.
Context (R : Z -> Prop) {regs : PlainRegs P R} (hok : P -> Prop) {heap : HeapAvailable P hok}.
Context (W : bool -> Z -> Z -> Prop) (Iok : kernel P -> Prop) (D : irq_desc -> Prop).
(** The CSU and the counts and deny regions its other users hold, and the
    devices without their enabled flags. *)
Context (cb : Z) (c0 : Z -> Z) (m0 : region -> Z) (dv0 : gmap dev_ptr device).
Implicit Types s : kernel P.

(** A probed device: its CSU fields exist, its resources have a first address
    and size cell, its interrupts are known, and its parent is older. *)
Record wf_device (i : dev_ptr) (d : device) : Prop := {
  wd_csu : Forall (fun c => 0 <= c < MAX_CSL) (dv_csu d);
  wd_res : Forall (fun r => is_Some (res_region r)) (dv_resources d);
  wd_irqs : Forall (fun x => D (ii_desc x)) (dv_irqs d);
  wd_parent : forall q, dv_parent d = Some q -> (q < i)%nat /\ is_Some (dv0 !! q);
}.

Record prot_static : Prop := {
  ps_base : 0 < cb /\ cb + 0x21c <= 2 ^ 32;
  ps_mapped : forall a, csu_window cb a -> R a;
  ps_apart : forall a k b n, csu_window cb a -> W k b n -> apart a 4 b n;
  ps_counts : forall csl, 0 <= csl < MAX_CSL -> 0 <= c0 csl;
  ps_regions : forall rg, 0 <= m0 rg;
  ps_devices : map_Forall wf_device dv0;
}.

(** The kernel enforces the abstract state [E]. *)
Record prot (E : dev_ptr -> bool) (s : kernel P) : Prop := {
  pt_objs : device_objs (k_dt s) = rep dv0 E;
  pt_csu : csu_ok s;
  pt_cb : csu_base (k_csu s) = cb;
  pt_counts : forall csl, 0 <= csl < MAX_CSL ->
    csl_count (k_csu s) csl = c0 csl + total (held_csl csl) (device_objs (k_dt s));
  pt_regions : forall rg, Z.of_nat (region_mult rg (regions (k_emu s))) =
    m0 rg + total (held_region rg) (device_objs (k_dt s));
  pt_room : forall csl, 0 <= csl < MAX_CSL ->
    c0 csl + total (fun d => Z.of_nat (length (dv_csu d))) (device_objs (k_dt s)) < 2 ^ 31;
  pt_heap : hok (k_plat s);
  pt_irq : Iok s;
}.

Lemma held_csl_le csl d : 0 <= held_csl csl d <= Z.of_nat (length (dv_csu d)).
Proof.
  unfold held_csl. pose proof (occ_nonneg csl (dv_csu d)). pose proof (occ_le_length csl (dv_csu d)).
  destruct (holds d); lia.
Qed.
Lemma held_region_nonneg rg d : 0 <= held_region rg d.
Proof. unfold held_region. destruct (holds d); lia. Qed.

Lemma holds_set en v : holds (set_dv_enabled en v) = negb en && can_protect v.
Proof. done. Qed.

(** Assembling the invariant after device [d] was switched. *)
Lemma prot_switch E d v en s s' :
  prot E s -> dv0 !! d = Some v -> csu_ok s' -> csu_base (k_csu s') = cb -> hok (k_plat s') -> Iok s' ->
  device_objs (k_dt s') = <[d := set_dv_enabled en v]> (device_objs (k_dt s)) ->
  (forall csl, 0 <= csl < MAX_CSL -> csl_count (k_csu s') csl =
     csl_count (k_csu s) csl - held_csl csl (set_dv_enabled (E d) v) + held_csl csl (set_dv_enabled en v)) ->
  (forall rg, Z.of_nat (region_mult rg (regions (k_emu s'))) =
     Z.of_nat (region_mult rg (regions (k_emu s))) - held_region rg (set_dv_enabled (E d) v) +
     held_region rg (set_dv_enabled en v)) ->
  prot (upd d en E) s'.
Proof.
  intros Hp Hd Hok Hcb Hh Hi Hobj Hcnt Hreg.
  assert (Hlk : device_objs (k_dt s) !! d = Some (set_dv_enabled (E d) v))
    by (by rewrite (pt_objs _ _ Hp), rep_lookup, Hd).
  split; [|done|done| | | |done|done].
  - rewrite Hobj, (pt_objs _ _ Hp). by apply rep_insert.
  - intros csl Hcsl. rewrite Hcnt, Hobj, (total_replace _ _ _ _ _ Hlk), (pt_counts _ _ Hp) by done. lia.
  - intros rg. rewrite Hreg, Hobj, (total_replace _ _ _ _ _ Hlk), (pt_regions _ _ Hp). lia.
  - intros csl Hcsl. rewrite Hobj, (total_replace _ _ _ _ _ Hlk). pose proof (pt_room _ _ Hp csl Hcsl).
    cbn [dv_csu set_dv_enabled]. lia.
Qed.

Lemma irq_loop {en : bool} {quiet : IrqQuiet W Iok D en} (l : list irq_info) s :
  Iok s -> Forall (fun x => D (ii_desc x)) l ->
  wp (for_each l (fun i => irq_switch en (ii_desc i))) s (fun _ s' => irq_step W s s' /\ Iok s').
Proof.
  intros Hi Hall. apply (wp_for_each_inv (fun s' => irq_step W s s' /\ Iok s')).
  - split; [apply irq_step_refl|done].
  - intros x s' Hx [Hst Hi']. rewrite Forall_forall in Hall.
    eapply wp_mono; [|apply (irq_quiet (ii_desc x)); [by apply Hall|done]].
    intros _ s'' [Hst' Hi'']. split; [by eapply irq_step_trans|done].
Qed.

(** The amount a device holds is part of the totals. *)
Lemma held_counted E d v s csl :
  prot_static -> prot E s -> dv0 !! d = Some v -> 0 <= csl < MAX_CSL ->
  held_csl csl (set_dv_enabled (E d) v) <= csl_count (k_csu s) csl <=
    c0 csl + total (fun d => Z.of_nat (length (dv_csu d))) (delete d (device_objs (k_dt s))) +
    held_csl csl (set_dv_enabled (E d) v).
Proof.
  intros Hps Hp Hd Hcsl.
  assert (Hlk : device_objs (k_dt s) !! d = Some (set_dv_enabled (E d) v))
    by (by rewrite (pt_objs _ _ Hp), rep_lookup, Hd).
  rewrite (pt_counts _ _ Hp csl Hcsl), (total_lookup _ _ _ _ Hlk).
  pose proof (ps_counts Hps csl Hcsl).
  pose proof (total_nonneg (held_csl csl) (delete d (device_objs (k_dt s)))
    (fun v => proj1 (held_csl_le csl v))).
  pose proof (total_le (held_csl csl) (fun d => Z.of_nat (length (dv_csu d))) (delete d (device_objs (k_dt s)))
    (fun v => proj2 (held_csl_le csl v))). lia.
Qed.

(** The protections of one device, set or removed. *)
Definition protected_to s1 (v : device) (en : bool) s' : Prop :=
  exists p c e, s' = set_k_plat p (set_k_csu c (set_k_emu e s1)) /\ csu_ok s' /\ csu_base c = cb /\ hok p /\
    (forall csl, 0 <= csl < MAX_CSL -> csl_count c csl =
       csl_count (k_csu s1) csl + (if en then - occ csl (dv_csu v) else occ csl (dv_csu v))) /\
    (forall rg, Z.of_nat (region_mult rg (regions e)) = Z.of_nat (region_mult rg (regions (k_emu s1))) +
       (if en then - Z.of_nat (region_mult rg (dev_regions v)) else Z.of_nat (region_mult rg (dev_regions v)))).

Lemma set_protections d v s1 :
  prot_static -> dv0 !! d = Some v -> csu_ok s1 -> csu_base (k_csu s1) = cb -> hok (k_plat s1) ->
  (forall csl, 0 <= csl < MAX_CSL -> csl_count (k_csu s1) csl + occ csl (dv_csu v) < 2 ^ 31) ->
  wp (for_each (dv_resources v) (fun r =>
        a <- aget (rs_address r) 0;; n <- aget (rs_size r) 0;; emu_add_region a n EMU_DENY_ALL;;; ret tt);;;
      for_each (dv_csu v) (fun c => csu_set_csl c true)) s1 (fun _ s' => protected_to s1 v false s').
Proof.
  intros Hps Hd Hok Hcb Hh Hroom. destruct (ps_devices Hps d v Hd) as [Hcsu Hres _ _].
  apply wp_bind. eapply wp_mono; [|apply (add_regions_loop R hok cb (ps_base Hps) (ps_mapped Hps)); done].
  intros _ s2 (p2 & e & -> & Hh2 & Hsame & Hreg).
  eapply wp_mono; [|apply (csu_loop R hok true)].
  - intros _ s3 (p3 & c & -> & Hok3 & Hb3 & Hh3 & Hcnt). exists p3, c, e.
    split_and!; [done|done|by rewrite Hb3|done|done|done].
  - apply (csu_ok_same s1); [done|done|]. by rewrite Hcb.
  - intros a Ha. apply (ps_mapped Hps). by rewrite <- Hcb.
  - done.
  - done.
  - exact Hroom.
Qed.

Lemma remove_protections d v s1 :
  prot_static -> dv0 !! d = Some v -> csu_ok s1 -> csu_base (k_csu s1) = cb -> hok (k_plat s1) ->
  (forall csl, 0 <= csl < MAX_CSL -> occ csl (dv_csu v) <= csl_count (k_csu s1) csl < 2 ^ 31) ->
  (forall rg, (region_mult rg (dev_regions v) <= region_mult rg (regions (k_emu s1)))%nat) ->
  wp (for_each (dv_csu v) (fun c => csu_set_csl c false);;;
      for_each (dv_resources v) (fun r =>
        a <- aget (rs_address r) 0;; n <- aget (rs_size r) 0;; emu_remove_region a n EMU_DENY_ALL)) s1
    (fun _ s' => protected_to s1 v true s').
Proof.
  intros Hps Hd Hok Hcb Hh Hcnt Hreg. destruct (ps_devices Hps d v Hd) as [Hcsu Hres _ _].
  apply wp_bind. eapply wp_mono; [|apply (csu_loop R hok false); [done| |done|done|exact Hcnt]].
  2: { intros a Ha. apply (ps_mapped Hps). by rewrite <- Hcb. }
  intros _ s2 (p2 & c & -> & Hok2 & Hb2 & Hh2 & Hc).
  eapply wp_mono; [|apply (remove_regions_loop R hok cb (ps_base Hps) (ps_mapped Hps)); done].
  intros _ s3 (p3 & e & -> & Hh3 & Hsame & Hm). exists p3, c, e.
  split_and!; [done| |by rewrite Hb2|done|done|].
  - apply (csu_ok_same (set_k_plat p2 (set_k_csu c s1))); [done|done|]. cbn. by rewrite Hb2, Hcb.
  - intros rg. rewrite Hm. unfold dev_regions. cbn. lia.
Qed.

(** Both directions, with the change of what the device holds. *)
Lemma switch_protections E d v s s1 (en : bool) :
  prot_static -> prot E s -> dv0 !! d = Some v -> E d <> en ->
  k_csu s1 = k_csu s -> k_emu s1 = k_emu s -> csu_ok s1 -> hok (k_plat s1) ->
  wp (when (can_protect v) (
    if en then
      for_each (dv_csu v) (fun c => csu_set_csl c false);;;
      for_each (dv_resources v) (fun r =>
        a <- aget (rs_address r) 0;; n <- aget (rs_size r) 0;; emu_remove_region a n EMU_DENY_ALL)
    else
      for_each (dv_resources v) (fun r =>
        a <- aget (rs_address r) 0;; n <- aget (rs_size r) 0;; emu_add_region a n EMU_DENY_ALL;;; ret tt);;;
      for_each (dv_csu v) (fun c => csu_set_csl c true))) s1 (fun _ s' =>
    exists p c e, s' = set_k_plat p (set_k_csu c (set_k_emu e s1)) /\ csu_ok s' /\ csu_base c = cb /\ hok p /\
    (forall csl, 0 <= csl < MAX_CSL -> csl_count c csl =
       csl_count (k_csu s) csl - held_csl csl (set_dv_enabled (E d) v) + held_csl csl (set_dv_enabled en v)) /\
    (forall rg, Z.of_nat (region_mult rg (regions e)) = Z.of_nat (region_mult rg (regions (k_emu s))) -
       held_region rg (set_dv_enabled (E d) v) + held_region rg (set_dv_enabled en v))).
Proof.
  intros Hps Hp Hd Hne Hc1 He1 Hok1 Hh1.
  assert (Hlk : device_objs (k_dt s) !! d = Some (set_dv_enabled (E d) v))
    by (by rewrite (pt_objs _ _ Hp), rep_lookup, Hd).
  assert (Hb1 : csu_base (k_csu s1) = cb) by (rewrite Hc1; apply Hp).
  unfold held_csl, held_region. apply wp_when. destruct (can_protect v) eqn:Ecp; cycle 1.
  { exists (k_plat s1), (k_csu s1), (k_emu s1). rewrite !holds_set, Ecp, !andb_false_r.
    split_and!; [by destruct s1|done|done|done| |]; intros; rewrite ?Hc1, ?He1; lia. }
  rewrite !holds_set, Ecp, !andb_true_r. change (dv_csu (set_dv_enabled ?b v)) with (dv_csu v).
  assert (Hcnt : forall csl, 0 <= csl < MAX_CSL ->
    (if E d then 0 else occ csl (dv_csu v)) <= csl_count (k_csu s) csl /\
    csl_count (k_csu s) csl + (if E d then occ csl (dv_csu v) else 0) < 2 ^ 31).
  { intros csl Hcsl. pose proof (held_counted E d v s csl Hps Hp Hd Hcsl) as Hh.
    pose proof (pt_room _ _ Hp csl Hcsl) as Hr. rewrite (total_lookup _ _ _ _ Hlk) in Hr.
    unfold held_csl in Hh. rewrite holds_set, Ecp, andb_true_r in Hh.
    cbn [dv_csu set_dv_enabled] in Hr, Hh. pose proof (occ_le_length csl (dv_csu v)).
    destruct (E d); cbn [negb] in Hh; lia. }
  destruct en, (E d) eqn:Ed; try done; cbn [negb].
  - eapply wp_mono; [|apply (remove_protections d v s1); try done].
    + intros _ s' (p & c & e & -> & H1 & H2 & H3 & H4 & H5). exists p, c, e.
      split_and!; [done..| |]; intros; rewrite ?H4, ?H5, ?Hc1, ?He1 by done;
        change (dev_regions (set_dv_enabled false v)) with (dev_regions v); cbn [dv_csu set_dv_enabled]; lia.
    + intros csl Hcsl. rewrite Hc1. specialize (Hcnt csl Hcsl). lia.
    + intros rg. rewrite He1. pose proof (pt_regions _ _ Hp rg) as Hr.
      rewrite (total_lookup _ _ _ _ Hlk) in Hr. pose proof (ps_regions Hps rg).
      pose proof (total_nonneg (held_region rg) (delete d (device_objs (k_dt s))) (held_region_nonneg rg)).
      unfold held_region at 1 in Hr. rewrite holds_set, Ecp in Hr. cbn [negb andb] in Hr.
      change (dev_regions (set_dv_enabled false v)) with (dev_regions v) in Hr. lia.
  - eapply wp_mono; [|apply (set_protections d v s1); try done].
    + intros _ s' (p & c & e & -> & H1 & H2 & H3 & H4 & H5). exists p, c, e.
      split_and!; [done..| |]; intros; rewrite ?H4, ?H5, ?Hc1, ?He1 by done;
        change (dev_regions (set_dv_enabled false v)) with (dev_regions v); cbn [dv_csu set_dv_enabled]; lia.
    + intros csl Hcsl. rewrite Hc1. specialize (Hcnt csl Hcsl). lia.
Qed.

(** [dt_enable_device] implements the abstract switch. *)
Lemma dt_enable_device_spec {en : bool} {quiet : IrqQuiet W Iok D en} E d v s :
  prot_static -> prot E s -> dv0 !! d = Some v ->
  wp (dt_enable_device d en) s (fun r s' => r = can_protect v /\ prot (upd d en E) s' /\ dev_frame s s' /\
    device_table (k_dt s') = device_table (k_dt s) /\ next_device (k_dt s') = next_device (k_dt s)).
Proof.
  intros Hps Hp Hd.
  assert (Hlk : device_objs (k_dt s) !! d = Some (set_dv_enabled (E d) v))
    by (by rewrite (pt_objs _ _ Hp), rep_lookup, Hd).
  assert (Hget : forall s', k_dt s' = k_dt s -> get_device d s' = Ret (set_dv_enabled (E d) v) s').
  { intros s' Heq. unfold get_device, bind, gets, deref. by rewrite Heq, Hlk. }
  unfold dt_enable_device. apply wp_bind. eapply wp_intro; [by apply Hget|]. cbv beta.
  cbn [dv_enabled dv_irqs dv_csu dv_resources set_dv_enabled].
  change (can_protect (set_dv_enabled (E d) v)) with (can_protect v).
  destruct (eqb (E d) en) eqn:Heq.
  { apply eqb_prop in Heq. apply wp_ret. split; [done|]. split; [|split; [reflexivity|done]].
    destruct Hp as [H1 H2 H3 H4 H5 H6 H7 H8]. split; [|done..]. rewrite H1. apply rep_ext. intros i _.
    unfold upd. by destruct (decide (i = d)) as [->|]. }
  apply eqb_false_iff in Heq.
  apply wp_bind. eapply wp_mono; [|apply (irq_loop (en:=en) (dv_irqs v)); [apply Hp|]].
  2: { by apply (ps_devices Hps d v Hd). }
  intros _ s1 ((p1 & g1 & -> & Hpath) & Hi1).
  set (s1 := set_k_plat p1 (set_k_gpio g1 s)).
  assert (Hok1 : csu_ok s1).
  { apply (csu_ok_same s); [apply Hp|done|]. rewrite (pt_cb _ _ Hp).
    apply (csu_same_path R cb (ps_base Hps) (ps_mapped Hps) W); [apply (ps_apart Hps)|done]. }
  assert (Hh1 : hok (k_plat s1)) by (apply (io_path_heap hok W (k_plat s)); [apply Hp|done]).
  pose proof (pt_cb _ _ Hp) as Hcb1.
  apply wp_bind. eapply wp_mono; [|apply (switch_protections E d v s s1); done || apply Hp].
  intros _ s2 (p & c & e & -> & Hok2 & Hc2 & Hh2 & Hcnt & Hreg).
  apply wp_bind. eapply wp_intro; [by apply Hget|]. apply wp_bind, wp_modify, wp_ret.
  split; [done|]. split; [|done].
  apply (prot_switch E d v en s); [done|done| |done|done| | |exact Hcnt|exact Hreg].
  - apply (csu_ok_same (set_k_plat p (set_k_csu c (set_k_emu e s1)))); [done|done|apply csu_same_refl].
  - apply (irq_ok_frame (en:=en) s1); [done..|exact Hi1].
  - done.
Qed.

Lemma prot_ext E E' s : (forall i, is_Some (dv0 !! i) -> E i = E' i) -> prot E s -> prot E' s.
Proof. intros He [H1 H2 H3 H4 H5 H6 H7 H8]. split; [|done..]. rewrite H1. by apply rep_ext. Qed.

Lemma static_parents : prot_static -> parents_older dv0.
Proof. intros Hps i v Hi. apply (ps_devices Hps i v Hi). Qed.

(** What every routine of the layer leaves in place. *)
Definition dt_frame s s' : Prop :=
  dev_frame s s' /\ device_table (k_dt s') = device_table (k_dt s) /\ next_device (k_dt s') = next_device (k_dt s).

Lemma dt_frame_trans s s' s'' : dt_frame s s' -> dt_frame s' s'' -> dt_frame s s''.
Proof. intros (H1 & H2 & H3) (H4 & H5 & H6). split; [by etrans|]. split; [by rewrite H5|by rewrite H6]. Qed.
Lemma dt_frame_refl s : dt_frame s s.
Proof. split; [reflexivity|done]. Qed.

Lemma enable_chain_spec {en : bool} {quiet : IrqQuiet W Iok D en} fuel E d s :
  prot_static -> prot E s -> is_Some (dv0 !! d) -> (d < fuel)%nat ->
  wp (enable_chain fuel (Some d) en) s (fun _ s' => prot (a_chain dv0 d en E) s' /\ dt_frame s s').
Proof.
  intros Hps. pose proof (static_parents Hps) as Hpo. revert E d s.
  induction fuel as [|fuel IH]; intros E d s Hp [v Hd] Hf; [lia|]. cbn [enable_chain].
  apply wp_bind. eapply wp_mono; [|by apply (dt_enable_device_spec (en:=en) E d v s)].
  intros r s1 (-> & Hp1 & Hfr & Ht & Hn). pose proof (chain_of_eq dv0 d v Hpo Hd) as Hch.
  destruct (can_protect v) eqn:Ecp.
  { apply wp_ret. split; [|by split]. eapply prot_ext; [|exact Hp1]. intros i _. unfold a_chain, upd. rewrite Hch.
    destruct (decide (i = d)) as [->|]; case_bool_decide as Hin; try done.
    - exfalso. apply Hin. left.
    - apply list_elem_of_singleton in Hin. done. }
  assert (Hget : get_device d s1 = Ret (set_dv_enabled en v) s1).
  { unfold get_device, bind, gets, deref. rewrite (pt_objs _ _ Hp1), rep_lookup, Hd. cbn. unfold upd.
    by rewrite decide_True. }
  apply wp_bind. eapply wp_intro; [exact Hget|]. cbn [dv_parent set_dv_enabled].
  assert (Hext : forall l, chain_of dv0 d = d :: l -> forall i, is_Some (dv0 !! i) ->
    (if bool_decide (i ∈ l) then en else upd d en E i) = a_chain dv0 d en E i).
  { intros l Hl i _. unfold a_chain, upd. rewrite Hl. destruct (decide (i = d)) as [->|];
      repeat case_bool_decide; rewrite ?elem_of_cons in *; intuition. }
  destruct (dv_parent v) as [q|] eqn:Hq.
  - destruct (Hpo d v Hd q Hq) as [Hlt Hqd].
    eapply wp_mono; [|apply (IH (upd d en E) q s1); [done|done|lia]].
    intros _ s2 [Hp2 Hfr2]. split; [|eapply dt_frame_trans; [|exact Hfr2]; by split].
    eapply prot_ext; [|exact Hp2]. apply (Hext _ Hch).
  - destruct fuel; (apply wp_ret; split; [|by split]; eapply prot_ext; [|exact Hp1]);
      intros i Hi; rewrite <- (Hext _ Hch i Hi); by rewrite bool_decide_eq_false_2 by apply not_elem_of_nil.
Qed.

(** The state of the device table during iteration. *)
Definition table_of (t : list (list dev_ptr)) (n : dev_ptr) s : Prop :=
  device_table (k_dt s) = t /\ next_device (k_dt s) = n.

Lemma class_body_spec {en : bool} {quiet : IrqQuiet W Iok D en} name t n E d s :
  prot_static -> prot E s -> is_Some (dv0 !! d) -> (d < n)%nat -> table_of t n s ->
  wp (v <- get_device d;;
      if device_has_class v name then
        if eqb (dv_enabled v) en then ret None
        else n <- get_dt next_device;; enable_chain (S n) (Some d) en;;; ret (@None unit)
      else ret None) s
    (fun r s' => r = None /\ prot (a_class_dev dv0 name en E d) s' /\ dt_frame s s').
Proof.
  intros Hps Hp [v Hd] Hn [Ht Hnx].
  assert (Hget : get_device d s = Ret (set_dv_enabled (E d) v) s)
    by (unfold get_device, bind, gets, deref; by rewrite (pt_objs _ _ Hp), rep_lookup, Hd).
  apply wp_bind. eapply wp_intro; [exact Hget|]. unfold a_class_dev, has_class. rewrite Hd.
  change (device_has_class (set_dv_enabled (E d) v) name) with (device_has_class v name).
  cbn [dv_enabled set_dv_enabled].
  destruct (device_has_class v name), (eqb (E d) en); cbn [andb negb];
    try (apply wp_ret; split; [done|split; [done|apply dt_frame_refl]]).
  unfold get_dt. apply wp_bind, wp_gets. rewrite Hnx. apply wp_bind.
  eapply wp_mono; [|apply (enable_chain_spec (S n) E d s Hps Hp); [by rewrite Hd|lia]].
  intros [] s' Hs'. by apply wp_ret.
Qed.

Lemma first_return_class {en : bool} {quiet : IrqQuiet W Iok D en} name t n l E s :
  prot_static -> prot E s -> Forall (fun d => is_Some (dv0 !! d) /\ (d < n)%nat) l -> table_of t n s ->
  wp (first_return l (fun d => v <- get_device d;;
      if device_has_class v name then
        if eqb (dv_enabled v) en then ret None
        else n <- get_dt next_device;; enable_chain (S n) (Some d) en;;; ret (@None unit)
      else ret None)) s
    (fun _ s' => prot (a_class dv0 l name en E) s' /\ dt_frame s s').
Proof.
  intros Hps. revert E s. induction l as [|d l IH]; intros E s Hp Hl Ht; cbn [first_return].
  { apply wp_ret. split; [done|apply dt_frame_refl]. }
  apply Forall_cons in Hl as [[Hd Hn] Hl]. apply wp_bind.
  eapply wp_mono; [|by apply (class_body_spec (en:=en) name t n E d s)].
  intros r s1 (-> & Hp1 & Hfr). eapply wp_mono; [|apply (IH (a_class_dev dv0 name en E d) s1)]; [|done|done|].
  - intros _ s2 [Hp2 Hfr2]. split; [done|]. by eapply dt_frame_trans.
  - destruct Hfr as (_ & H1 & H2). split; [by rewrite H1; apply Ht|by rewrite H2; apply Ht].
Qed.

(** [dt_enable_class] implements the abstract class switch. *)
Lemma dt_enable_class_spec {en : bool} {quiet : IrqQuiet W Iok D en} name t n E s :
  prot_static -> prot E s -> table_of t n s -> length t = 128%nat -> NoDup (concat t) ->
  Forall (fun d => is_Some (dv0 !! d) /\ (d < n)%nat) (concat t) ->
  wp (dt_enable_class name en) s (fun _ s' => prot (a_class dv0 (concat t) name en E) s' /\ dt_frame s s').
Proof.
  intros Hps Hp Ht Hlen Hnd Hall. unfold dt_enable_class. apply wp_bind. unfold wp at 1.
  rewrite (device_for_each_spec (fun s' => (exists E', prot E' s') /\ table_of t n s')); cycle 1.
  - intros d s' Hd [[E' Hp'] Ht']. rewrite (proj1 Ht) in Hd. rewrite Forall_forall in Hall.
    destruct (Hall d Hd) as [Hsome Hlt].
    destruct (wp_elim _ _ _ (class_body_spec (en:=en) name t n E' d s' Hps Hp' Hsome Hlt Ht')) as (r & s'' & Hr & _ & Hp'' & Hfr).
    rewrite Hr. destruct Hfr as (_ & H1 & H2). split; [done|]. split; [by eexists|].
    split; [by rewrite H1; apply Ht'|by rewrite H2; apply Ht'].
  - split; [by eexists|done].
  - by rewrite (proj1 Ht).
  - by rewrite (proj1 Ht).
  - rewrite (proj1 Ht).
    destruct (wp_elim _ _ _ (first_return_class (en:=en) name t n (concat t) E s Hps Hp Hall Ht)) as (r & s' & Hr & Hp' & Hfr).
    rewrite Hr. by apply wp_ret.
Qed.
End protection.

(** ** Applying the settings, abstractly *)

Section apply.
Context (dv0 : gmap dev_ptr device) (L : list dev_ptr).
Context (Hpo : parents_older dv0) (HL : Forall (fun d => is_Some (dv0 !! d)) L).
Implicit Types (E : dev_ptr -> bool) (names : list string).

(** A disabled device is disabled because of a disabled device of one of the
    classes. *)
Definition justified names E : Prop :=
  forall i, is_Some (dv0 !! i) -> E i = false ->
    exists d, d ∈ L /\ (exists nm, nm ∈ names /\ has_class dv0 d nm = true) /\ E d = false /\ i ∈ chain_of dv0 d.

Lemma a_chain_true d en E i : i ∈ chain_of dv0 d -> a_chain dv0 d en E i = en.
Proof. intros. unfold a_chain. by rewrite bool_decide_eq_true_2. Qed.
Lemma a_chain_other d en E i : i ∉ chain_of dv0 d -> a_chain dv0 d en E i = E i.
Proof. intros. unfold a_chain. by rewrite bool_decide_eq_false_2. Qed.

Lemma in_L d : d ∈ L -> d ∈ chain_of dv0 d.
Proof. intros Hd. rewrite Forall_forall in HL. destruct (HL d Hd) as [v Hv]. by eapply chain_of_self. Qed.

Lemma enable_dev_justified names nm E d :
  justified names E -> justified names (a_class_dev dv0 nm true E d).
Proof.
  intros HJ. unfold a_class_dev. destruct (_ && _); [|done]. intros i Hi Hoff.
  assert (Hni : i ∉ chain_of dv0 d) by (intros Hin; by rewrite a_chain_true in Hoff).
  rewrite a_chain_other in Hoff by done. destruct (HJ i Hi Hoff) as (w & Hw & Hc & Hwoff & Hiw).
  exists w. split_and!; [done|done| |done]. rewrite a_chain_other; [done|].
  intros Hwd. apply Hni. by eapply chain_of_suffix.
Qed.
Lemma enable_dev_mono nm E d i : E i = true -> a_class_dev dv0 nm true E d i = true.
Proof.
  intros Hi. unfold a_class_dev. destruct (_ && _); [|done]. unfold a_chain. by case_bool_decide.
Qed.
Lemma enable_class_mono nm l E i : E i = true -> a_class dv0 l nm true E i = true.
Proof.
  revert E. induction l as [|d l IH]; intros E Hi; [done|]. cbn. apply IH. by apply enable_dev_mono.
Qed.
Lemma enable_class_on nm l E d :
  d ∈ l -> d ∈ L -> has_class dv0 d nm = true -> a_class dv0 l nm true E d = true.
Proof.
  intros Hd HdL Hc. revert E. induction l as [|x l IH]; intros E; [by apply elem_of_nil in Hd|].
  cbn. apply elem_of_cons in Hd as [<-|Hd]; [|by apply IH]. apply enable_class_mono.
  unfold a_class_dev. rewrite Hc. destruct (E d) eqn:Ed; cbn; [done|]. apply a_chain_true. by apply in_L.
Qed.
Lemma enable_class_justified names nm l E : justified names E -> justified names (a_class dv0 l nm true E).
Proof.
  revert E. induction l as [|d l IH]; intros E HJ; [done|]. cbn. apply IH. by apply enable_dev_justified.
Qed.

Definition a_enable_all names E : dev_ptr -> bool := foldl (fun E nm => a_class dv0 L nm true E) E names.

Lemma enable_all_mono names E i : E i = true -> a_enable_all names E i = true.
Proof.
  revert E. induction names as [|nm names IH]; intros E Hi; [done|]. cbn. apply IH. by apply enable_class_mono.
Qed.
(** After the first pass every device is enabled. *)
Lemma enable_all_on names E :
  justified names E -> forall i, is_Some (dv0 !! i) -> a_enable_all names E i = true.
Proof.
  intros HJ i Hi.
  assert (HJ' : forall l E, justified names E -> justified names (foldl (fun E nm => a_class dv0 L nm true E) E l)).
  { induction l as [|nm l IH]; intros E' HE'; [done|]. cbn. apply IH. by apply enable_class_justified. }
  assert (Hon : forall l E d nm, nm ∈ l -> d ∈ L -> has_class dv0 d nm = true ->
    foldl (fun E nm => a_class dv0 L nm true E) E l d = true).
  { induction l as [|x l IH]; intros E' d nm Hnm Hd Hc; [by apply elem_of_nil in Hnm|]. cbn.
    apply elem_of_cons in Hnm as [->|Hnm]; [|by eapply IH].
    apply enable_all_mono. by apply enable_class_on. }
  apply not_false_is_true. intros Hoff.
  destruct (HJ' names E HJ i Hi Hoff) as (d & Hd & (nm & Hnm & Hc) & Hdoff & _).
  unfold a_enable_all in *. by rewrite (Hon names E d nm) in Hdoff.
Qed.

(** The second pass. *)
Definition closed E : Prop :=
  forall i j, is_Some (dv0 !! i) -> E i = false -> j ∈ chain_of dv0 i -> E j = false.
(** [i] is reached from a device of class [nm]. *)
Definition reached nm (l : list dev_ptr) (i : dev_ptr) : bool :=
  existsb (fun d => has_class dv0 d nm && bool_decide (i ∈ chain_of dv0 d)) l.

Lemma disable_dev_eq nm E d i :
  is_Some (dv0 !! d) -> closed E ->
  a_class_dev dv0 nm false E d i = E i && negb (has_class dv0 d nm && bool_decide (i ∈ chain_of dv0 d)).
Proof.
  intros Hd Hcl. unfold a_class_dev. destruct (has_class dv0 d nm); cbn [andb negb]; [|by rewrite andb_true_r].
  destruct (E d) eqn:Ed; cbn [eqb negb]; unfold a_chain; case_bool_decide as Hin; cbn [negb];
    rewrite ?andb_true_r, ?andb_false_r; [done|done|by apply (Hcl d i)|done].
Qed.
Lemma disable_dev_closed nm E d : is_Some (dv0 !! d) -> closed E -> closed (a_class_dev dv0 nm false E d).
Proof.
  intros Hd Hcl i j Hi Hoff Hj. rewrite disable_dev_eq in Hoff |- * by done.
  apply andb_false_iff in Hoff as [Hoff|Hoff].
  - by rewrite (Hcl i j).
  - apply negb_false_iff, andb_true_iff in Hoff as [Hc Hin]. apply bool_decide_eq_true in Hin.
    rewrite Hc, bool_decide_eq_true_2 by (by eapply chain_of_suffix). by rewrite andb_false_r.
Qed.
Lemma disable_class_eq nm l E i :
  Forall (fun d => is_Some (dv0 !! d)) l -> closed E ->
  a_class dv0 l nm false E i = E i && negb (reached nm l i) /\ closed (a_class dv0 l nm false E).
Proof.
  revert E. induction l as [|d l IH]; intros E Hl Hcl; cbn; [by rewrite andb_true_r|].
  apply Forall_cons in Hl as [Hd Hl]. destruct (IH (a_class_dev dv0 nm false E d) Hl) as [H1 H2].
  { by apply disable_dev_closed. }
  split; [|done]. unfold a_class in H1. rewrite H1, disable_dev_eq by done.
  by rewrite negb_orb, andb_assoc.
Qed.

Definition a_deny (classes : list (string * bool)) E : dev_ptr -> bool :=
  foldl (fun E (c : string * bool) => if c.2 then E else a_class dv0 L c.1 false E) E classes.
(** [i] is on the chain of a device of a denied class. *)
Definition denied (classes : list (string * bool)) (i : dev_ptr) : bool :=
  existsb (fun c : string * bool => negb c.2 && reached c.1 L i) classes.

Lemma a_deny_eq classes E i : closed E -> a_deny classes E i = E i && negb (denied classes i).
Proof.
  revert E. induction classes as [|[nm al] cs IH]; intros E Hcl; cbn; [by rewrite andb_true_r|].
  destruct al; cbn; [by apply IH|]. destruct (disable_class_eq nm L E i HL Hcl) as [H1 H2].
  unfold a_deny in IH. rewrite IH, H1 by done. by rewrite negb_orb, andb_assoc.
Qed.

Definition a_apply (classes : list (string * bool)) E : dev_ptr -> bool :=
  a_deny classes (a_enable_all classes.*1 E).

(** Exactly the devices on the chain of a denied device end up disabled. *)
Lemma a_apply_exact classes E i :
  justified classes.*1 E -> is_Some (dv0 !! i) -> a_apply classes E i = negb (denied classes i).
Proof.
  intros HJ Hi. unfold a_apply.
  assert (Hon : forall j, is_Some (dv0 !! j) -> a_enable_all classes.*1 E j = true) by (by apply enable_all_on).
  assert (Hcl : closed (a_enable_all classes.*1 E)) by (intros x y Hx Hoff; by rewrite Hon in Hoff).
  by rewrite a_deny_eq, Hon by done.
Qed.
Lemma denied_iff classes i :
  denied classes i = true <->
  exists nm d, (nm, false) ∈ classes /\ d ∈ L /\ has_class dv0 d nm = true /\ i ∈ chain_of dv0 d.
Proof.
  unfold denied, reached. rewrite existsb_exists. setoid_rewrite andb_true_iff. setoid_rewrite existsb_exists.
  setoid_rewrite andb_true_iff. setoid_rewrite bool_decide_eq_true. setoid_rewrite <- list_elem_of_In. split.
  - intros ([nm al] & Hc & Hal & d & Hd & Hcl & Hin). cbn in *. apply negb_true_iff in Hal as ->.
    by exists nm, d.
  - intros (nm & d & Hc & Hd & Hcl & Hin). by exists (nm, false); split; [|split; [|exists d]].
Qed.
Lemma a_apply_justified classes E : justified classes.*1 E -> justified classes.*1 (a_apply classes E).
Proof.
  intros HJ i Hi Hoff. rewrite a_apply_exact in Hoff by done. apply negb_false_iff, denied_iff in Hoff
    as (nm & d & Hc & Hd & Hcl & Hin).
  exists d. split_and!; [done| | |done].
  - exists nm. split; [|done]. by apply (list_elem_of_fmap_2 fst _ (nm, false)).
  - rewrite a_apply_exact; [|done|rewrite Forall_forall in HL; by apply HL].
    apply negb_false_iff, denied_iff. exists nm, d. split_and!; [done..|by apply in_L].
Qed.
End apply.

(** ** What the invariant means for the hardware *)

Section meaning.
Context {P : Type} {plat : Platform P} {cfg : Config} {drv : IrqDrivers P}.
Context (R : Z -> Prop) {regs : PlainRegs P R} (hok : P -> Prop) {heap : HeapAvailable P hok}.
Context (W : bool -> Z -> Z -> Prop) (Iok : kernel P -> Prop) (D : irq_desc -> Prop).
Context (cb : Z) (c0 : Z -> Z) (m0 : region -> Z) (dv0 : gmap dev_ptr device).
Implicit Types s : kernel P.

(** A device that can be protected is shut: non-secure accesses to its CSU
    fields are denied and the emulator denies its resources. *)
Definition shut s (v : device) : Prop :=
  (forall c, c ∈ dv_csu v -> csl_field (k_plat s) (csu_base (k_csu s)) c = 0x33) /\
  (forall rg, rg ∈ dev_regions v -> rg ∈ regions (k_emu s)).

Lemma prot_shut E s i v :
  prot_static R W D cb c0 m0 dv0 -> prot hok Iok cb c0 m0 dv0 E s ->
  dv0 !! i = Some v -> can_protect v = true -> E i = false -> shut s v.
Proof.
  intros Hps Hp Hi Hcp Hoff.
  assert (Hlk : device_objs (k_dt s) !! i = Some (set_dv_enabled (E i) v))
    by (by rewrite (pt_objs _ _ _ _ _ _ _ _ Hp), rep_lookup, Hi).
  split.
  - intros c Hc. pose proof (wd_csu _ _ _ _ (ps_devices _ _ _ _ _ _ _ Hps i v Hi)) as Hr.
    rewrite Forall_forall in Hr. specialize (Hr c Hc).
    pose proof (held_counted R hok W Iok D cb c0 m0 dv0 E i v s c Hps Hp Hi Hr) as [Hle _].
    unfold held_csl in Hle. rewrite holds_set, Hoff, Hcp in Hle. cbn [negb andb dv_csu set_dv_enabled] in Hle.
    pose proof (occ_pos c (dv_csu v) Hc).
    rewrite (csu_ok_field _ (pt_csu _ _ _ _ _ _ _ _ Hp) c Hr). by rewrite (proj2 (Z.ltb_lt _ _)) by lia.
  - intros rg Hrg. apply region_mult_pos. pose proof (pt_regions _ _ _ _ _ _ _ _ Hp rg) as Hm.
    rewrite (total_lookup _ _ _ _ Hlk) in Hm. pose proof (ps_regions _ _ _ _ _ _ _ Hps rg).
    pose proof (total_nonneg (held_region rg) (delete i (device_objs (k_dt s))) (held_region_nonneg rg)).
    unfold held_region at 1 in Hm. rewrite holds_set, Hoff, Hcp in Hm. cbn [negb andb] in Hm.
    change (dev_regions (set_dv_enabled false v)) with (dev_regions v) in Hm.
    apply region_mult_pos in Hrg. lia.
Qed.

(** A CSU field nobody holds is open. *)
Lemma prot_open E s csl :
  prot_static R W D cb c0 m0 dv0 -> prot hok Iok cb c0 m0 dv0 E s -> 0 <= csl < MAX_CSL -> c0 csl = 0 ->
  (forall i v, dv0 !! i = Some v -> E i = false -> can_protect v = true -> csl ∉ dv_csu v) ->
  csl_field (k_plat s) (csu_base (k_csu s)) csl = 0xFF.
Proof.
  intros Hps Hp Hcsl Hc0 Hnone. rewrite (csu_ok_field _ (pt_csu _ _ _ _ _ _ _ _ Hp) csl Hcsl).
  rewrite (pt_counts _ _ _ _ _ _ _ _ Hp csl Hcsl), Hc0, (pt_objs _ _ _ _ _ _ _ _ Hp).
  rewrite total_zero; [done|]. intros i v' Hi. rewrite rep_lookup in Hi. apply fmap_Some in Hi as (v & Hi & ->).
  unfold held_csl. rewrite holds_set. cbn [dv_csu set_dv_enabled].
  destruct (E i) eqn:Ei, (can_protect v) eqn:Ecp; try done. cbn.
  apply occ_zero. by apply (Hnone i v).
Qed.
End meaning.
