(* ===== verification/GpioKeys.v ===== *)
(** * Keys on GPIO lines (core/drivers/imx_gpio_keys.c)

    The keys are GPIO interrupt lines shared by a list of button handlers: the
    secure power-down sequence, and the confirmation dialogue of the cloak
    service.  Probing of the node is not part of this file. *)

From stdpp Require Import prelude gmap list.
From Stdlib Require Import ZArith Lia.
From S2P Require Import Prelude Platform State Emulation Interrupt.
#[local] Open Scope Z_scope.
#[local] Open Scope kernel_scope.

Definition KEY_VOLUMEDOWN : Z := 114.
Definition KEY_VOLUMEUP : Z := 115.
Definition KEY_BACK : Z := 158.
Definition KEY_HOMEPAGE : Z := 172.

(** The [switch] of [secpwr_button_press_handler]: the next state. *)
Definition secpwr_next (st : secpwr_state_t) (code : Z) : secpwr_state_t :=
  match st with
  | SECPWR_STATE0 => if code =? KEY_HOMEPAGE then SECPWR_STATE1 else SECPWR_STATE0
  | SECPWR_STATE1 =>
      if code =? KEY_BACK then SECPWR_STATE2
      else if code =? KEY_HOMEPAGE then SECPWR_STATE1 else SECPWR_STATE0
  | SECPWR_STATE2 =>
      if code =? KEY_VOLUMEUP then SECPWR_STATE3
      else if code =? KEY_BACK then SECPWR_STATE2 else SECPWR_STATE0
  | SECPWR_STATE3 =>
      if code =? KEY_VOLUMEDOWN then SECPWR_STATE0
      else if code =? KEY_VOLUMEUP then SECPWR_STATE3 else SECPWR_STATE0
  end.

(** The [on_press] function of the handler that belongs to another file. *)
Class ButtonClients (P : Type) := {
  cloak_on_press : Z -> M (kernel P) bool;
}.

Section keys.
Context {P : Type} {plat : Platform P} {cfg : Config} {drv : IrqDrivers P} {btn : ButtonClients P}.
Abbreviation K := (M (kernel P)).

Definition get_keys {A} (f : keys_data -> A) : K A := gets (fun s => f (k_keys s)).
Definition modify_keys (f : keys_data -> keys_data) : K unit :=
  modify (fun s => set_k_keys (f (k_keys s)) s).
Definition get_pdata : K gpio_keys_platform_data := o <- get_keys pdata;; deref o.

Definition secpwr_button_press_handler (code : Z) : K bool :=
  st <- get_keys secpwr_state;; modify_keys (set_secpwr_state (secpwr_next st code));;; ret false.

(** [bh->on_press(code)] *)
Definition on_press (h : button_handler) (code : Z) : K bool :=
  match h with
  | CLOAK_BUTTON_HANDLER => cloak_on_press code
  | SECPWR_BUTTON_HANDLER => secpwr_button_press_handler code
  end.

Fixpoint press_all (l : list button_handler) (code : Z) (consume : bool) : K bool :=
  match l with
  | [] => ret consume
  | h :: l' => c <- on_press h code;; press_all l' code (consume || c)
  end.

(** [gpio_keys_handler]; [button] is the handler's data. *)
Definition gpio_keys_handler (button : nat) : K irq_return :=
  pd <- get_pdata;; b <- deref (gk_buttons pd !! button);;
  consume <- press_all (gk_handlers pd) (gk_code b) false;;
  ret (if consume then ITRR_HANDLED else ITRR_HANDLED_PASS).

(** [gpio_keys_acquire].  Linking a handler twice would make the list cyclic,
    which is a fault. *)
Definition gpio_keys_acquire (handler : button_handler) : K bool :=
  pd <- get_pdata;;
  when (bool_decide (gk_handlers pd = [])) (
    for_each (seq 0 (length (gk_buttons pd))) (fun b =>
      button <- deref (gk_buttons pd !! b);;
      irq_add (gk_gpio_irq button) 3 (BUTTON_HANDLER b);;;
      irq_enable (gk_gpio_irq button);;; ret tt));;;
  pd <- get_pdata;;
  if bool_decide (handler ∈ gk_handlers pd) then fault
  else modify_keys (set_pdata (Some (set_gk_handlers (handler :: gk_handlers pd) pd)));;; ret true.

Definition gpio_keys_release (handler : button_handler) : K unit :=
  pd <- get_pdata;;
  let hs := filter (fun h => h <> handler) (gk_handlers pd) in
  modify_keys (set_pdata (Some (set_gk_handlers hs pd)));;;
  when (bool_decide (hs = [])) (
    for_each (seq 0 (length (gk_buttons pd))) (fun b =>
      button <- deref (gk_buttons pd !! b);;
      irq_disable (gk_gpio_irq button);;; irq_remove (gk_gpio_irq button);;; ret tt)).
End keys.

(** ** Properties *)

(** The on_press of the dialogue always consumes the key. *)
Class DialogueConsumes (P : Type) `{ButtonClients P} : Prop := {
  cloak_consumes : forall code s, wp (cloak_on_press (P:=P) code) s (fun r s' => r = true /\ k_keys s' = k_keys s);
}.

Lemma press_all_returns {P} `{Platform P, Config, !ButtonClients P, !DialogueConsumes P}
    l code consume (s : kernel P) :
  wp (press_all l code consume) s (fun r _ => r = consume || bool_decide (CLOAK_BUTTON_HANDLER ∈ l)).
Proof.
  revert consume s. induction l as [|h l IH]; intros consume s; cbn [press_all].
  { apply wp_ret. rewrite bool_decide_eq_false_2 by apply not_elem_of_nil. by rewrite orb_false_r. }
  apply wp_bind. destruct h; cbn [on_press].
  - eapply wp_mono; [|apply cloak_consumes]. intros r s' [-> _]. eapply wp_mono; [|apply IH].
    intros r s'' ->. rewrite (bool_decide_eq_true_2 (_ ∈ _ :: l)) by left. by rewrite !orb_true_r.
  - apply wp_bind, wp_gets, wp_bind, wp_modify, wp_ret. eapply wp_mono; [|apply IH].
    intros r s'' ->. rewrite orb_false_r. f_equal. apply bool_decide_ext.
    rewrite elem_of_cons. split; [by right|by intros [?|?]].
Qed.

(** While the confirmation dialogue holds the keys, no key press is handed
    to the non-secure world: the key interrupt handler answers "handled" for
    every button, whatever other handlers are registered; without the dialogue
    the press is passed on. *)
Theorem gpio_keys_handler_consumes {P} `{Platform P, Config, !ButtonClients P, !DialogueConsumes P}
    (s : kernel P) pd button b :
  pdata (k_keys s) = Some pd -> gk_buttons pd !! button = Some b ->
  exists s', gpio_keys_handler button s =
    Ret (if bool_decide (CLOAK_BUTTON_HANDLER ∈ gk_handlers pd) then ITRR_HANDLED else ITRR_HANDLED_PASS) s'.
Proof.
  intros Hpd Hb. unfold gpio_keys_handler, get_pdata, get_keys.
  erewrite bind_run by (erewrite bind_run by done; by rewrite Hpd).
  erewrite bind_run by (by rewrite Hb).
  destruct (wp_elim _ _ _ (press_all_returns (gk_handlers pd) (gk_code b) false s)) as (r & s' & Hr & ->).
  exists s'. by erewrite bind_run by exact Hr.
Qed.

(** the secure power sequence is recognised with repeated presses of each
    key (both edges of a key are reported): after any number of presses of
    home, then back, then volume-up, each at least one, the machine that
    started in its first state is in its last one, and volume-down brings it
    back to the first. *)
Theorem secpwr_sequence (a b c : nat) :
  (0 < a)%nat -> (0 < b)%nat -> (0 < c)%nat ->
  let st := foldl secpwr_next SECPWR_STATE0
    (replicate a KEY_HOMEPAGE ++ replicate b KEY_BACK ++ replicate c KEY_VOLUMEUP) in
  st = SECPWR_STATE3 /\ secpwr_next st KEY_VOLUMEDOWN = SECPWR_STATE0.
Proof.
  intros Ha Hb Hc.
  assert (Hrep : forall n st k st', secpwr_next st k = st' -> secpwr_next st' k = st' -> (0 < n)%nat ->
    foldl secpwr_next st (replicate n k) = st').
  { intros n st k st' H1 H2. revert st H1. induction n as [|n IH]; intros st H1 Hn; [lia|]. cbn. rewrite H1.
    destruct n; [done|]. apply IH; [done|lia]. }
  intros st. assert (st = SECPWR_STATE3) as ->; [|done]. unfold st. rewrite !foldl_app.
  rewrite (Hrep a SECPWR_STATE0 KEY_HOMEPAGE SECPWR_STATE1) by done.
  rewrite (Hrep b SECPWR_STATE1 KEY_BACK SECPWR_STATE2) by done.
  by rewrite (Hrep c SECPWR_STATE2 KEY_VOLUMEUP SECPWR_STATE3).
Qed.

#[local] Instance keys_demo_cfg : Config := { cfg_ndebug := false }.
#[local] Instance keys_demo_buttons : ButtonClients bigram := { cloak_on_press code := ret true }.
#[local] Instance keys_demo_consumes : DialogueConsumes bigram.
Proof. by split. Qed.
Definition keys_demo : kernel bigram :=
  set_k_keys (KeysData (Some (GpioKeysPlatformData
      [GpioKeysButton KEY_BACK (IrqDesc (CHIP_GPIO 0) 4) 3 (IrqHandler (DATA_BUTTON 0) GPIO_KEYS_HANDLER)]
      [CLOAK_BUTTON_HANDLER; SECPWR_BUTTON_HANDLER])) SECPWR_STATE1)
    (kernel_init (mk_bigram ∅)).

Lemma gpio_keys_handler_witness :
  exists s', gpio_keys_handler 0 keys_demo = Ret ITRR_HANDLED s'.
Proof.
  destruct (gpio_keys_handler_consumes keys_demo _ 0 _ eq_refl eq_refl) as (s' & Hs').
  exists s'. exact Hs'.
Defined.
Lemma secpwr_sequence_witness :
  foldl secpwr_next SECPWR_STATE0
    (replicate 2 KEY_HOMEPAGE ++ replicate 2 KEY_BACK ++ replicate 1 KEY_VOLUMEUP) = SECPWR_STATE3.
Proof. apply (secpwr_sequence 2 2 1); lia. Defined.
