(* ===== verification/Fb.v ===== *)
(** * Secure frame buffer (core/drivers/imx_fb.c)

    While the confirmation dialogue is shown, the display is fed from secure
    memory: the IPU parameters are saved, rewritten, and restored on release,
    and non-secure writes to the buffer address registers are denied. *)

From stdpp Require Import prelude gmap list.
From Stdlib Require Import ZArith Lia.
From S2P Require Import Prelude Platform State Frame CoreMmu Csu Emulation Protection.
#[local] Open Scope Z_scope.
#[local] Open Scope kernel_scope.

Definition IPU_CPMEM_OFFSET : Z := 0x300000.
Definition IPU_CHAN0 : Z := 23.
Definition IPU_CHAN1 : Z := 69.

(** The mask and the first register of a parameter field. *)
Definition field_mask (size : Z) : Z := u32 (shl32 1 size - 1).
Definition field_reg (channel w bit : Z) : Z := channel * 64 + w * 32 + bit / 32 * 4.
(** The shift of the part of a field in the second register. *)
Definition carry_shift (off : Z) : Z := if off =? 0 then 0 else 32 - off.

Definition fb_emu_check_addr (offset : Z) (state : emu_state) : bool :=
  if (offset =? 0x3005E0) || (offset =? 0x3005E4) || (offset =? 0x301160)
  then negb (bool_decide (state = EMU_STATE_WRITE)) else true.

Section fb.
Context {P : Type} {plat : Platform P} {cfg : Config} {lay : Layout}.
Abbreviation K := (M (kernel P)).

Definition get_fb {A} (f : fb_data -> A) : K A := gets (fun s => f (k_fb s)).
Definition modify_fb (f : fb_data -> fb_data) : K unit :=
  modify (fun s => set_k_fb (f (k_fb s)) s).

Definition ipu_ch_param_read_field (base channel w bit size : Z) : K Z :=
  let i := bit / 32 in let off := bit mod 32 in let mask := field_mask size in
  let reg_offset := field_reg channel w bit in
  v <- read32 (base + reg_offset);;
  let value := Z.land mask (Z.shiftr v off) in
  if i <? (bit + size - 1) / 32 then
    t <- read32 (base + reg_offset + 4);;
    let temp := Z.land t (Z.shiftr mask (carry_shift off)) in
    ret (Z.lor value (shl32 temp (carry_shift off)))
  else ret value.

Definition ipu_ch_param_write_field (base channel w bit size value : Z) : K unit :=
  let i := bit / 32 in let off := bit mod 32 in let mask := field_mask size in
  let reg_offset := field_reg channel w bit in
  temp <- read32 (base + reg_offset);;
  write32 (Z.lor (Z.land temp (not32 (shl32 mask off))) (shl32 value off)) (base + reg_offset);;;
  when (i <? (bit + size - 1) / 32) (
    temp <- read32 (base + reg_offset + 4);;
    write32 (Z.lor (Z.land temp (not32 (Z.shiftr mask (32 - off)))) (Z.shiftr value (carry_shift off)))
      (base + reg_offset + 4)).

(** [fb_emu_check] *)
Definition fb_emu_check (r : region) (address : Z) (state : emu_state) (value : option Z) :
    K (bool * option Z) :=
  ret (fb_emu_check_addr (u32 (address - rg_base r)) state, value).

Definition fb_clear (info : fb_info) (r g b : Z) : K unit :=
  for_each (seqZ 0 (fi_height info)) (fun y =>
    let line := fi_buffer info + u32 (fi_stride info * y) in
    for_each (seqZ 0 (fi_width info)) (fun x =>
      write8 r (line + u32 (3 * x + 0));;;
      write8 g (line + u32 (3 * x + 1));;;
      write8 b (line + u32 (3 * x + 2)))).

(** [memcpy(dst, src, n)], byte by byte. *)
Definition memcpy (dst src n : Z) : K unit :=
  for_each (seqZ 0 n) (fun i => v <- read8 (src + i);; write8 v (dst + i)).

(** [fb_blit]; [copy_per_line] is an [int] that becomes a [size_t].  The loop
    stops at the height of the image or at the bottom of the screen; [y + by]
    reaches the latter before it can wrap. *)
Definition fb_blit (info : fb_info) (x y buffer width height : Z) : K unit :=
  if (fi_width info <=? x) || (fi_height info <=? y) then ret tt
  else
  let copy_per_line :=
    if fi_width info <? u32 (x + width) then u32 (3 * (fi_width info - x)) else u32 (3 * width) in
  for_each (seqZ 0 (Z.min height (fi_height info - y))) (fun by_ =>
    let fb_line := fi_buffer info + u32 (fi_stride info * u32 (y + by_)) + u32 (3 * x) in
    let buf_line := buffer + u32 (u32 (3 * width) * by_) in
    memcpy fb_line buf_line copy_per_line).

Definition fb_blit_image (info : fb_info) (x y : Z) (im : image) : K unit :=
  fb_blit info x y (im_buffer im) (im_width im) (im_height im).
Definition fb_blit_all (info : fb_info) (blits : list blit) : K unit :=
  for_each blits (fun b => fb_blit_image info (bl_x b) (bl_y b) (bl_image b)).

(** The parameter words of a channel. *)
Definition param_addr (cpmem chan p : Z) : Z := cpmem + chan * 64 + p * 4.

(** The format of the secure buffer: RGB24. *)
Definition fb_set_format (cpmem stride : Z) : K unit :=
  let set chan w bit size v := ipu_ch_param_write_field cpmem chan w bit size v in
  set IPU_CHAN0 0 107 3 1;;;
  set IPU_CHAN0 1 85 4 7;;;
  set IPU_CHAN0 1 78 7 19;;;
  set IPU_CHAN0 1 116 3 7;;;
  set IPU_CHAN0 1 128 5 16;;;
  set IPU_CHAN0 1 119 3 7;;;
  set IPU_CHAN0 1 133 5 8;;;
  set IPU_CHAN0 1 122 3 7;;;
  set IPU_CHAN0 1 138 5 0;;;
  set IPU_CHAN0 1 125 3 7;;;
  set IPU_CHAN0 1 143 5 24;;;
  set IPU_CHAN0 1 102 14 (u32 (stride - 1));;;
  set IPU_CHAN0 1 0 29 (CFG_FBMEM_START / 8);;;
  set IPU_CHAN0 1 29 29 (CFG_FBMEM_START / 8);;;
  set IPU_CHAN1 1 0 29 (CFG_FBMEM_START / 8).

(** The loop that saves the parameters: the words of both channels. *)
Fixpoint save_params (cpmem p : Z) (n : nat) : K (list Z * list Z) :=
  match n with
  | O => ret ([], [])
  | S n' =>
      v0 <- read32 (param_addr cpmem IPU_CHAN0 p);;
      v1 <- read32 (param_addr cpmem IPU_CHAN1 p);;
      ' (l0, l1) <- save_params cpmem (p + 1) n';; ret (v0 :: l0, v1 :: l1)
  end.

Definition fb_acquire (r g b : Z) : K (bool * fb_info) :=
  base <- get_fb g_base_paddr;;
  emu_add_region base 0x400000 FB_EMU_CHECK;;;
  csu_set_csl 61 true;;;
  cpmem <- get_fb g_cpmem_vaddr;;
  ' (prev0, prev1) <- save_params cpmem 0 16;;
  w <- ipu_ch_param_read_field cpmem IPU_CHAN0 0 125 13;;
  h <- ipu_ch_param_read_field cpmem IPU_CHAN0 0 138 12;;
  let width := u32 (w + 1) in let height := u32 (h + 1) in let stride := u32 (width * 3) in
  buffer <- phys_to_virt CFG_FBMEM_START MEM_AREA_IO_SEC;;
  let info := FbInfo buffer width height stride prev0 prev1 in
  fb_clear info r g b;;;
  fb_set_format cpmem stride;;;
  ret (true, info).

Definition fb_release (info : fb_info) : K fb_info :=
  if fi_buffer info =? 0 then ret info
  else
  cpmem <- get_fb g_cpmem_vaddr;;
  for_each (seqZ 0 16) (fun p =>
    v0 <- aget (fi_prev_params_ch0 info) p;; write32 v0 (param_addr cpmem IPU_CHAN0 p);;;
    v1 <- aget (fi_prev_params_ch1 info) p;; write32 v1 (param_addr cpmem IPU_CHAN1 p));;;
  csu_set_csl 61 false;;;
  base <- get_fb g_base_paddr;;
  emu_remove_region base 0x400000 FB_EMU_CHECK;;;
  ret (set_fi_buffer 0 info).

Definition fb_probe (dev : dev_ptr) : K Z :=
  d <- get_device dev;;
  if negb (Z.of_nat (length (dv_resources d)) =? 1) || negb (bool_decide (dv_resource_type d = RESOURCE_MEM))
  then ret (- EINVAL)
  else
  ' (paddr, size) <- resource_of d 0;;
  mapped <- core_mmu_add_mapping MEM_AREA_IO_SEC paddr size;;
  if negb mapped then ret (- EINVAL)
  else
  cur <- get_fb g_base_paddr;;
  when ((cur =? 0) || (paddr <? cur)) (
    modify_fb (set_g_base_paddr paddr);;;
    v <- phys_to_virt paddr MEM_AREA_IO_SEC;; modify_fb (set_g_base_vaddr v);;;
    c <- phys_to_virt (u32 (paddr + IPU_CPMEM_OFFSET)) MEM_AREA_IO_SEC;; modify_fb (set_g_cpmem_vaddr c));;;
  ret 0.
End fb.

(** ** Bounds *)

(** Stores inside the frame buffer of [info]; loads inside the image. *)
Definition blit_window (info : fb_info) (buffer width height : Z) (k : bool) (a n : Z) : Prop :=
  if k then fi_buffer info <= a /\ a + n <= fi_buffer info + 3 * fi_width info * fi_height info
  else buffer <= a /\ a + n <= buffer + 3 * width * height.

(** Stores inside the frame buffer only. *)
Definition clear_window (info : fb_info) (k : bool) (a n : Z) : Prop :=
  k = true /\ fi_buffer info <= a /\ a + n <= fi_buffer info + 3 * fi_width info * fi_height info.

(** The buffer and the image do not wrap around the address space. *)
Record fb_fits (info : fb_info) : Prop := {
  ff_buffer : 0 < fi_buffer info;
  ff_width : is_u32 (3 * fi_width info);
  ff_height : is_u32 (fi_height info);
  ff_stride : fi_stride info = 3 * fi_width info;
  ff_end : fi_buffer info + 3 * fi_width info * fi_height info <= 2 ^ 32;
}.

Section bounds.
Context {P : Type} {plat : Platform P} {cfg : Config}.

Lemma true_stable : plat_stable (fun _ : kernel P => True).
Proof. by intros s p _. Qed.

Lemma memcpy_io_only W dst src n :
  0 <= dst -> dst + n <= 2 ^ 32 -> 0 <= src -> src + n <= 2 ^ 32 ->
  (forall i, 0 <= i < n -> W true (dst + i) 1 /\ W false (src + i) 1) ->
  io_only (P:=P) W (fun _ => True) (memcpy dst src n).
Proof.
  intros H1 H2 H3 H4 HW. apply io_only_for_each; [apply true_stable|]. intros i Hi%elem_of_seqZ.
  destruct (HW i) as [Hw Hr]; [lia|].
  apply io_only_bind; [apply true_stable|apply io_only_load; [lia|]|intros v; apply io_only_store; [lia|]];
    (rewrite u32_small by (unfold is_u32; lia); done).
Qed.

Lemma row_fits y h wd x n : 0 <= y < h -> 0 <= x -> 0 <= n -> x + n <= wd -> 0 <= wd ->
  0 <= wd * y + x /\ wd * y + x + n <= wd * h.
Proof. intros. nia. Qed.

Lemma fb_blit_io_only info x y buffer width height :
  fb_fits info -> 0 <= x -> 0 <= y -> 0 <= width -> 0 <= height -> 0 <= buffer ->
  x + width < 2 ^ 32 -> buffer + 3 * width * height <= 2 ^ 32 -> 3 * width < 2 ^ 32 ->
  io_only (P:=P) (blit_window info buffer width height) (fun _ => True) (fb_blit info x y buffer width height).
Proof.
  intros [Hb [Hw H3i] Hh Hs He] Hx Hy Hwd Hht Hbuf Hxw Hend H3w. unfold is_u32 in Hh. unfold fb_blit.
  destruct ((fi_width info <=? x) || _) eqn:Eout; [apply io_only_ret|].
  apply io_only_for_each; [apply true_stable|]. intros j Hj%elem_of_seqZ.
  rewrite (u32_small (x + width)) by (unfold is_u32; lia).
  set (n := if fi_width info <? x + width then u32 (3 * (fi_width info - x)) else u32 (3 * width)).
  assert (Hn : 0 <= n /\ n <= 3 * width /\ 3 * x + n <= 3 * fi_width info).
  { unfold n. destruct (Z.ltb_spec (fi_width info) (x + width)); rewrite u32_small by (unfold is_u32; lia); lia. }
  assert (Hrow : 0 <= 3 * fi_width info * (y + j) + 3 * x /\
    3 * fi_width info * (y + j) + 3 * x + n <= 3 * fi_width info * fi_height info) by (apply row_fits; lia).
  assert (Hsrc : 0 <= 3 * width * j + 0 /\ 3 * width * j + 0 + n <= 3 * width * height) by (apply row_fits; lia).
  rewrite (u32_small (y + j)) by (unfold is_u32; lia). rewrite Hs.
  rewrite (u32_small (3 * fi_width info * (y + j))) by (unfold is_u32; lia).
  rewrite (u32_small (3 * x)) by (unfold is_u32; lia). rewrite (u32_small (3 * width)) by (unfold is_u32; lia).
  rewrite (u32_small (3 * width * j)) by (unfold is_u32; nia).
  apply memcpy_io_only; [lia..|]. intros i Hi. unfold blit_window. lia.
Qed.

Lemma fb_clear_io_only info r g b :
  fb_fits info ->
  io_only (P:=P) (clear_window info) (fun _ => True) (fb_clear info r g b).
Proof.
  intros [Hb [Hw H3] Hh Hs He]. unfold is_u32 in Hh. unfold fb_clear. apply io_only_for_each; [apply true_stable|].
  intros y Hy%elem_of_seqZ. apply io_only_for_each; [apply true_stable|]. intros x Hx%elem_of_seqZ.
  assert (Hrow : 0 <= 3 * fi_width info * y + 3 * x /\
    3 * fi_width info * y + 3 * x + 3 <= 3 * fi_width info * fi_height info) by (apply row_fits; lia).
  rewrite Hs, (u32_small (3 * fi_width info * y)) by (unfold is_u32; nia).
  assert (Hst : forall c k, 0 <= k < 3 -> io_only (P:=P) (clear_window info) (fun _ => True)
    (write8 c (fi_buffer info + 3 * fi_width info * y + u32 (3 * x + k)))).
  { intros c k Hk. rewrite (u32_small (3 * x + k)) by (unfold is_u32; lia).
    apply io_only_store; [lia|]. rewrite u32_small by (unfold is_u32; lia). unfold clear_window. split; [done|lia]. }
  apply io_only_bind; [apply true_stable|apply Hst; lia|]. intros _.
  apply io_only_bind; [apply true_stable|apply Hst; lia|]. intros _. apply Hst. lia.
Qed.
End bounds.

(** ** Parameter fields *)

Lemma field_mask_testbit size j : 0 < size < 32 -> 0 <= j -> Z.testbit (field_mask size) j = (j <? size).
Proof.
  intros Hs Hj. unfold field_mask, shl32. rewrite Z.shiftl_1_l.
  assert (0 < 2 ^ size < 2 ^ 32) by (split; [apply Z.pow_pos_nonneg|apply Z.pow_lt_mono_r]; lia).
  rewrite !u32_small by (unfold is_u32; rewrite ?u32_small by (unfold is_u32; lia); lia).
  rewrite Z.sub_1_r, <- Z.ones_equiv. destruct (Z.ltb_spec j size).
  - by rewrite Z.ones_spec_low by lia.
  - by rewrite Z.ones_spec_high by lia.
Qed.

Lemma field_crosses bit size :
  0 <= bit -> 0 < size < 32 -> (bit / 32 <? (bit + size - 1) / 32) = (32 <? bit mod 32 + size).
Proof.
  intros Hb Hs. pose proof (Z.div_mod bit 32 ltac:(lia)). pose proof (Z.mod_pos_bound bit 32 ltac:(lia)).
  destruct (Z.ltb_spec 32 (bit mod 32 + size)).
  - apply Z.ltb_lt. replace ((bit + size - 1) / 32) with (bit / 32 + 1); [lia|].
    apply Z.div_unique with (bit mod 32 + size - 1 - 32); lia.
  - apply Z.ltb_ge. replace ((bit + size - 1) / 32) with (bit / 32); [lia|].
    apply Z.div_unique with (bit mod 32 + size - 1); lia.
Qed.

(** The two words of a field after a write, and what is read from them. *)
Definition word0 (off size v w : Z) : Z :=
  Z.lor (Z.land w (not32 (shl32 (field_mask size) off))) (shl32 v off).
Definition word1 (off size v w : Z) : Z :=
  Z.lor (Z.land w (not32 (Z.shiftr (field_mask size) (32 - off)))) (Z.shiftr v (carry_shift off)).

Lemma small_testbit v n j : 0 <= v < 2 ^ n -> 0 <= n <= j -> Z.testbit v j = false.
Proof.
  intros Hv Hj. destruct (Z.eq_dec v 0) as [->|]; [apply Z.bits_0|].
  apply Z.bits_above_log2; [lia|]. assert (Z.log2 v < n) by (apply Z.log2_lt_pow2; lia). lia.
Qed.

Lemma word0_testbit off size v w k :
  0 < size < 32 -> 0 <= off < 32 -> 0 <= v < 2 ^ size -> 0 <= k < 32 ->
  Z.testbit (word0 off size v w) k =
    if (off <=? k) && (k <? off + size) then Z.testbit v (k - off) else Z.testbit w k.
Proof.
  intros Hs Ho Hv Hk. unfold word0. rewrite Z.lor_spec, Z.land_spec, not32_testbit, !shl32_testbit by lia.
  rewrite (proj2 (Z.ltb_lt k 32)) by lia. cbn [andb].
  destruct (Z.leb_spec off k); cbn [andb].
  - rewrite field_mask_testbit by lia. destruct (Z.ltb_spec (k - off) size), (Z.ltb_spec k (off + size)); try lia;
      cbn [negb]; rewrite ?andb_false_r, ?andb_true_r; [done|].
    by rewrite (small_testbit v size), orb_false_r by (done || lia).
  - rewrite !(Z.testbit_neg_r _ (k - off)) by lia. by rewrite andb_true_r, orb_false_r.
Qed.
Lemma word1_testbit off size v w k :
  0 < size < 32 -> 0 < off < 32 -> 0 <= v < 2 ^ size -> 0 <= k < 32 ->
  Z.testbit (word1 off size v w) k =
    if k <? off + size - 32 then Z.testbit v (k + (32 - off)) else Z.testbit w k.
Proof.
  intros Hs Ho Hv Hk. unfold word1, carry_shift. rewrite (proj2 (Z.eqb_neq off 0)) by lia.
  rewrite Z.lor_spec, Z.land_spec, not32_testbit, !Z.shiftr_spec, field_mask_testbit by lia.
  rewrite (proj2 (Z.ltb_lt k 32)) by lia. cbn [andb].
  destruct (Z.ltb_spec (k + (32 - off)) size), (Z.ltb_spec k (off + size - 32)); try lia;
    cbn [negb]; rewrite ?andb_false_r, ?andb_true_r; [done|].
  by rewrite (small_testbit v size), orb_false_r by (done || lia).
Qed.
Lemma word0_u32 off size v w : is_u32 w -> is_u32 (word0 off size v w).
Proof. intros. apply is_u32_lor; [apply is_u32_land_l; [done|apply not32_range]|apply u32_range]. Qed.
Lemma word1_u32 off size v w : is_u32 w -> 0 <= v < 2 ^ size -> 0 < size < 32 -> 0 <= off < 32 -> is_u32 (word1 off size v w).
Proof.
  intros Hw Hv Hs Ho. apply is_u32_lor; [apply is_u32_land_l; [done|apply not32_range]|].
  assert (2 ^ size < 2 ^ 32) by (apply Z.pow_lt_mono_r; lia).
  assert (0 <= carry_shift off) by (unfold carry_shift; destruct (off =? 0); lia).
  rewrite Z.shiftr_div_pow2 by done. assert (0 < 2 ^ carry_shift off) by (apply Z.pow_pos_nonneg; lia).
  split; [by apply Z.div_pos; lia|]. apply Z.div_lt_upper_bound; [done|]. nia.
Qed.

(** The parameter row of a channel as an array of bits. *)
Definition param_bit {P} `{Platform P} (p : P) (base channel w k : Z) : bool :=
  Z.testbit (reg p (base + field_reg channel w k)) (k mod 32).

Section fields.
Context {P : Type} {plat : Platform P} {cfg : Config} (R : Z -> Prop) {regs : PlainRegs P R}.
Context (base channel w : Z).
Implicit Types s : kernel P.

(** The row lies in plain registers. *)
Definition row_mapped : Prop :=
  0 <= base + channel * 64 + w * 32 /\ base + channel * 64 + w * 32 + 32 <= 2 ^ 32 /\
  forall i, 0 <= i < 8 -> R (base + channel * 64 + w * 32 + i * 4).
Context (Hrow : row_mapped).

Lemma row_addr bit : 0 <= bit < 256 ->
  u32 (base + field_reg channel w bit) = base + field_reg channel w bit /\ R (base + field_reg channel w bit) /\
  0 <= bit / 32 < 8.
Proof.
  intros Hb. destruct Hrow as (H0 & H1 & HR).
  assert (0 <= bit / 32 < 8) by (split; [apply Z.div_pos|apply Z.div_lt_upper_bound]; lia).
  unfold field_reg. split_and!; [apply u32_small; unfold is_u32; lia| |lia..].
  replace (base + _) with (base + channel * 64 + w * 32 + bit / 32 * 4) by lia. by apply HR.
Qed.
Lemma field_reg_next bit : 0 <= bit -> base + field_reg channel w bit + 4 = base + field_reg channel w (bit + 32).
Proof. intros. unfold field_reg. replace (bit + 32) with (bit + 1 * 32) by lia. rewrite Z.div_add by lia. lia. Qed.

(** The platform after the field was written. *)
Definition field_plat (bit size v : Z) (p : P) : P :=
  let a0 := base + field_reg channel w bit in let a1 := base + field_reg channel w (bit + 32) in
  let off := bit mod 32 in
  let p0 := io_write 4 a0 (word0 off size v (reg p a0)) p in
  if 32 <? off + size then io_write 4 a1 (word1 off size v (reg p a1)) p0 else p0.

Record field_in (bit size v : Z) : Prop := {
  fd_bit : 0 <= bit; fd_end : bit + size <= 256; fd_size : 0 < size < 32; fd_value : 0 <= v < 2 ^ size;
}.

Lemma field_other bit : 0 <= bit -> bit + 32 < 256 -> forall p v,
  reg (io_write 4 (u32 (base + field_reg channel w bit)) v p) (base + field_reg channel w (bit + 32)) =
  reg p (base + field_reg channel w (bit + 32)).
Proof.
  intros H0 H1 p v. destruct (row_addr bit) as (Hu & _ & _); [lia|]. destruct (row_addr (bit + 32)) as (Hu' & HR & _); [lia|].
  apply (reg_write_other R); [by rewrite Hu'|lia|]. rewrite Hu, Hu', <- field_reg_next by lia. unfold apart. lia.
Qed.

Lemma ipu_ch_param_write_field_run bit size v s :
  field_in bit size v ->
  ipu_ch_param_write_field base channel w bit size v s = Ret tt (set_k_plat (field_plat bit size v (k_plat s)) s).
Proof.
  intros [Hb He Hs Hv]. destruct (row_addr bit) as (Hu & HR & Hi); [lia|].
  pose proof (Z.mod_pos_bound bit 32 ltac:(lia)) as Ho. pose proof (Z.div_mod bit 32 ltac:(lia)) as Hdm.
  unfold ipu_ch_param_write_field. cbv zeta.
  rewrite (bind_run _ _ _ _ _ (read32_reg R (base + field_reg channel w bit) s ltac:(by rewrite Hu))).
  erewrite bind_run by (exact (write32_run _ _ _ (word0_u32 _ _ _ _ (reg_u32 _ _)))). rewrite field_crosses by lia.
  unfold field_plat. destruct (Z.ltb_spec 32 (bit mod 32 + size)) as [Hc|]; unfold when; [|by rewrite Hu].
  destruct (row_addr (bit + 32)) as (Hu' & HR' & _); [lia|].
  rewrite field_reg_next by lia. erewrite bind_run by (exact (read32_reg R _ _ ltac:(by rewrite Hu'))).
  cbn [get_platform kernel_platform k_plat set_k_plat set_platform]. rewrite field_other by lia.
  erewrite write32_run by (exact (word1_u32 _ _ _ _ (reg_u32 _ _) Hv Hs Ho)). by rewrite Hu, Hu'.
Qed.

Lemma field_reg_eq bit k : 0 <= bit -> 0 <= k ->
  base + field_reg channel w k = base + field_reg channel w bit <-> k / 32 = bit / 32.
Proof. intros. unfold field_reg. lia. Qed.

(** A bit of the row after one register of it was written. *)
Lemma row_write_bit bit k x q : 0 <= bit < 256 -> 0 <= k < 256 -> is_u32 x ->
  param_bit (io_write 4 (base + field_reg channel w bit) x q) base channel w k =
    if k / 32 =? bit / 32 then Z.testbit x (k mod 32) else param_bit q base channel w k.
Proof.
  intros Hb Hk Hx. destruct (row_addr bit Hb) as (Hu & HR & _). destruct (row_addr k Hk) as (Huk & HRk & _).
  unfold param_bit. destruct (Z.eqb_spec (k / 32) (bit / 32)) as [E|E].
  - rewrite (proj2 (field_reg_eq bit k ltac:(lia) ltac:(lia)) E). rewrite <- Hu at 1.
    rewrite (reg_write_same R), u32_small by (by rewrite ?Hu). done.
  - rewrite <- Hu at 1. rewrite (reg_write_other R); [done|by rewrite Huk|lia|].
    rewrite Hu, Huk. unfold field_reg, apart in *. lia.
Qed.

Lemma word0_bit bit size v k p : field_in bit size v -> 0 <= k -> k / 32 = bit / 32 ->
  Z.testbit (word0 (bit mod 32) size v (reg p (base + field_reg channel w bit))) (k mod 32) =
    if (bit <=? k) && (k <? bit + size) then Z.testbit v (k - bit) else param_bit p base channel w k.
Proof.
  intros [Hb He Hs Hv] Hk E. pose proof (Z.mod_pos_bound bit 32 ltac:(lia)). pose proof (Z.mod_pos_bound k 32 ltac:(lia)).
  pose proof (Z.div_mod bit 32 ltac:(lia)). pose proof (Z.div_mod k 32 ltac:(lia)).
  rewrite word0_testbit by (done || lia). unfold param_bit. rewrite (proj2 (field_reg_eq bit k Hb Hk) E).
  replace (k mod 32 - bit mod 32) with (k - bit) by lia.
  destruct (Z.leb_spec (bit mod 32) (k mod 32)), (Z.ltb_spec (k mod 32) (bit mod 32 + size)), (Z.leb_spec bit k),
    (Z.ltb_spec k (bit + size)); done || lia.
Qed.
Lemma word1_bit bit size v k p : field_in bit size v -> 0 <= k -> k / 32 = bit / 32 + 1 -> 32 < bit mod 32 + size ->
  Z.testbit (word1 (bit mod 32) size v (reg p (base + field_reg channel w (bit + 32)))) (k mod 32) =
    if (bit <=? k) && (k <? bit + size) then Z.testbit v (k - bit) else param_bit p base channel w k.
Proof.
  intros [Hb He Hs Hv] Hk E Hc. pose proof (Z.mod_pos_bound bit 32 ltac:(lia)). pose proof (Z.mod_pos_bound k 32 ltac:(lia)).
  pose proof (Z.div_mod bit 32 ltac:(lia)). pose proof (Z.div_mod k 32 ltac:(lia)).
  rewrite word1_testbit by (done || lia). unfold param_bit.
  replace (base + field_reg channel w k) with (base + field_reg channel w (bit + 32))
    by (rewrite <- field_reg_next by lia; unfold field_reg; lia).
  replace (k mod 32 + (32 - bit mod 32)) with (k - bit) by lia.
  destruct (Z.ltb_spec (k mod 32) (bit mod 32 + size - 32)), (Z.leb_spec bit k), (Z.ltb_spec k (bit + size)); done || lia.
Qed.

(** Every bit of the row after a write: those of the field are the value's,
    the others are unchanged. *)
Lemma field_plat_bits bit size v k p :
  field_in bit size v -> 0 <= k < 256 ->
  param_bit (field_plat bit size v p) base channel w k =
    if (bit <=? k) && (k <? bit + size) then Z.testbit v (k - bit) else param_bit p base channel w k.
Proof.
  intros Hf Hk. pose proof Hf as [Hb He Hs Hv]. unfold field_plat.
  pose proof (Z.mod_pos_bound bit 32 ltac:(lia)) as Ho. pose proof (Z.div_mod bit 32 ltac:(lia)) as Hdm.
  pose proof (Z.mod_pos_bound k 32 ltac:(lia)) as Ho'. pose proof (Z.div_mod k 32 ltac:(lia)) as Hdm'.
  assert (Hd : (bit + 32) / 32 = bit / 32 + 1).
  { replace (bit + 32) with (bit + 1 * 32) by lia. by rewrite Z.div_add by lia. }
  assert (H0 : k / 32 <> bit / 32 -> k / 32 <> bit / 32 + 1 \/ bit mod 32 + size <= 32 ->
    (bit <=? k) && (k <? bit + size) = false).
  { intros. destruct (Z.leb_spec bit k), (Z.ltb_spec k (bit + size)); done || lia. }
  destruct (Z.ltb_spec 32 (bit mod 32 + size)) as [Hc|Hc].
  - rewrite row_write_bit by (try (apply word1_u32; [apply reg_u32|..]); done || lia). rewrite Hd.
    destruct (Z.eqb_spec (k / 32) (bit / 32 + 1)) as [E|E]; [by apply word1_bit; done || lia|].
    rewrite row_write_bit by (try apply word0_u32, reg_u32; lia).
    destruct (Z.eqb_spec (k / 32) (bit / 32)) as [E'|E']; [by apply word0_bit; done || lia|].
    rewrite H0; [done..|by left].
  - rewrite row_write_bit by (try apply word0_u32, reg_u32; lia).
    destruct (Z.eqb_spec (k / 32) (bit / 32)) as [E'|E']; [by apply word0_bit; done || lia|].
    rewrite H0; [done..|by right].
Qed.

(** Reading a field yields its bits. *)
Definition field_value (p : P) (bit size : Z) : Z :=
  let off := bit mod 32 in
  let v := Z.land (field_mask size) (Z.shiftr (reg p (base + field_reg channel w bit)) off) in
  if 32 <? off + size
  then Z.lor v (shl32 (Z.land (reg p (base + field_reg channel w (bit + 32)))
                 (Z.shiftr (field_mask size) (carry_shift off))) (carry_shift off))
  else v.

Lemma ipu_ch_param_read_field_run bit size s :
  0 <= bit -> 0 < size < 32 -> bit + size <= 256 ->
  ipu_ch_param_read_field base channel w bit size s = Ret (field_value (k_plat s) bit size) s.
Proof.
  intros Hb Hs He. destruct (row_addr bit) as (Hu & HR & Hi); [lia|].
  pose proof (Z.mod_pos_bound bit 32 ltac:(lia)) as Ho. pose proof (Z.div_mod bit 32 ltac:(lia)) as Hdm.
  unfold ipu_ch_param_read_field. cbv zeta.
  rewrite (bind_run _ _ _ _ _ (read32_reg R (base + field_reg channel w bit) s ltac:(by rewrite Hu))).
  rewrite field_crosses by lia. unfold field_value.
  destruct (Z.ltb_spec 32 (bit mod 32 + size)) as [Hc|]; [|done].
  destruct (row_addr (bit + 32)) as (Hu' & HR' & _); [lia|].
  rewrite field_reg_next by lia.
  by rewrite (bind_run _ _ _ _ _ (read32_reg R (base + field_reg channel w (bit + 32)) s ltac:(by rewrite Hu'))).
Qed.

Lemma field_value_testbit p bit size j :
  0 <= bit -> 0 < size < 32 -> bit + size <= 256 -> 0 <= j < size ->
  Z.testbit (field_value p bit size) j = param_bit p base channel w (bit + j).
Proof.
  intros Hb Hs He Hj. pose proof (Z.mod_pos_bound bit 32 ltac:(lia)) as Ho.
  pose proof (Z.div_mod bit 32 ltac:(lia)) as Hdm. pose proof (Z.mod_pos_bound (bit + j) 32 ltac:(lia)) as Ho'.
  pose proof (Z.div_mod (bit + j) 32 ltac:(lia)) as Hdm'.
  unfold field_value, param_bit. destruct (Z.ltb_spec (bit mod 32 + j) 32) as [Hl|Hl].
  - assert (E : (bit + j) / 32 = bit / 32) by (symmetry; apply Z.div_unique with (bit mod 32 + j); lia).
    rewrite (proj2 (field_reg_eq bit (bit + j) Hb ltac:(lia)) E).
    replace ((bit + j) mod 32) with (j + bit mod 32) by lia.
    destruct (Z.ltb_spec 32 (bit mod 32 + size)) as [Hc|];
      rewrite ?Z.lor_spec, Z.land_spec, Z.shiftr_spec, field_mask_testbit, (proj2 (Z.ltb_lt j size)) by lia; [|done].
    unfold carry_shift. rewrite (proj2 (Z.eqb_neq _ _)) by lia.
    rewrite shl32_testbit by lia. rewrite (Z.testbit_neg_r _ (j - _)) by lia. by rewrite andb_false_r, orb_false_r.
  - assert (E : (bit + j) / 32 = bit / 32 + 1) by (symmetry; apply Z.div_unique with (bit mod 32 + j - 32); lia).
    rewrite (proj2 (Z.ltb_lt 32 _)) by lia.
    replace (base + field_reg channel w (bit + j)) with (base + field_reg channel w (bit + 32))
      by (rewrite <- field_reg_next by lia; unfold field_reg; lia).
    unfold carry_shift. rewrite (proj2 (Z.eqb_neq _ _)) by lia.
    rewrite Z.lor_spec, shl32_testbit, !Z.land_spec, !Z.shiftr_spec, !field_mask_testbit by lia.
    rewrite (is_u32_testbit _ (j + bit mod 32) (reg_u32 _ _)) by lia.
    rewrite (proj2 (Z.ltb_lt j 32)) by lia. rewrite (proj2 (Z.ltb_lt (_ + _) size)) by lia.
    rewrite andb_false_r, andb_true_r. cbn [orb andb]. f_equal. lia.
Qed.

Lemma field_mask_range size : 0 < size < 32 -> 0 <= field_mask size < 2 ^ size.
Proof.
  intros Hs. unfold field_mask, shl32. rewrite Z.shiftl_1_l.
  assert (0 < 2 ^ size < 2 ^ 32) by (split; [apply Z.pow_pos_nonneg|apply Z.pow_lt_mono_r]; lia).
  rewrite !u32_small by (unfold is_u32; rewrite ?u32_small by (unfold is_u32; lia); lia). lia.
Qed.
Lemma field_value_high p bit size j :
  0 <= bit -> 0 < size < 32 -> size <= j -> Z.testbit (field_value p bit size) j = false.
Proof.
  intros Hb Hs Hj. pose proof (Z.mod_pos_bound bit 32 ltac:(lia)) as Ho. unfold field_value.
  assert (H0 : Z.testbit (Z.land (field_mask size) (Z.shiftr (reg p (base + field_reg channel w bit)) (bit mod 32))) j = false).
  { rewrite Z.land_spec, field_mask_testbit by lia. by rewrite (proj2 (Z.ltb_ge j size)) by lia. }
  destruct (Z.ltb_spec 32 (bit mod 32 + size)) as [Hc|]; [|done].
  rewrite Z.lor_spec, H0, shl32_testbit, Z.land_spec by lia. cbn [orb].
  unfold carry_shift. rewrite (proj2 (Z.eqb_neq _ _)) by lia. destruct (Z.ltb_spec (j - (32 - bit mod 32)) 0).
  - rewrite Z.testbit_neg_r by lia. by rewrite andb_false_r.
  - rewrite Z.shiftr_spec, field_mask_testbit by lia. rewrite (proj2 (Z.ltb_ge _ size)) by lia. by rewrite !andb_false_r.
Qed.
End fields.

(** ** Acquiring and releasing the display *)

Section acquire.
Context {P : Type} {plat : Platform P} {cfg : Config} {lay : Layout}.
Context (R : Z -> Prop) {regs : PlainRegs P R} (hok : P -> Prop) {heap : HeapAvailable P hok}.
Context (cpmem cb : Z).
Implicit Types s : kernel P.

(** The parameter memory of the channels in use, and the CSU. *)
Definition cp_window (k : bool) (a n : Z) : Prop := cpmem <= a /\ a + n <= cpmem + 0x1180.
Record cp_placed : Prop := {
  cp_range : 0 < cpmem /\ cpmem + 0x1180 <= 2 ^ 32;
  cp_regs : forall k, 0 <= k < 0x460 -> R (cpmem + 4 * k);
  cp_csu : 0 < cb /\ cb + 0x21c <= 2 ^ 32 /\ forall a, csu_window cb a -> R a;
  cp_apart : cb + 0x21c <= cpmem \/ cpmem + 0x1180 <= cb;
}.
Context (Hcp : cp_placed).

Definition cp_same (p p' : P) : Prop := forall k, 0 <= k < 0x460 -> reg p' (cpmem + 4 * k) = reg p (cpmem + 4 * k).

Lemma cp_u32 k : 0 <= k < 0x460 -> u32 (cpmem + 4 * k) = cpmem + 4 * k.
Proof. intros. destruct (cp_range Hcp). apply u32_small. unfold is_u32. lia. Qed.
Lemma cp_same_trans p q r : cp_same p q -> cp_same q r -> cp_same p r.
Proof. intros H1 H2 k Hk. by rewrite H2, H1. Qed.
Lemma cp_same_alloc n p p' : heap_alloc n p = Some p' -> cp_same p p'.
Proof. intros Ha k Hk. unfold reg. rewrite cp_u32 by done. by rewrite (reg_alloc _ n p p') by (done || by apply (cp_regs Hcp)). Qed.
Lemma cp_same_free n p : cp_same p (heap_free n p).
Proof. intros k Hk. unfold reg. rewrite cp_u32 by done. by rewrite reg_free by (by apply (cp_regs Hcp)). Qed.
Lemma cp_same_csu s csl protect :
  csu_base (k_csu s) = cb -> 0 <= csl < MAX_CSL -> cp_same (k_plat s) (k_plat (csu_step csl protect s)).
Proof.
  intros Hb Hc k Hk. destruct (cp_csu Hcp) as (H1 & H2 & _). apply (csu_step_frame R); rewrite ?Hb; [done..| |].
  - rewrite cp_u32 by done. by apply (cp_regs Hcp).
  - intros i Hi. rewrite cp_u32 by done. destruct (cp_apart Hcp); unfold apart; lia.
Qed.
Lemma cp_same_path W p p' :
  (forall k b n, W k b n -> b + n <= cpmem \/ cpmem + 0x1180 <= b) -> io_path W p p' -> cp_same p p'.
Proof.
  intros HW Hp k Hk. apply (io_path_reg R W); [rewrite cp_u32 by done; by apply (cp_regs Hcp)| |done].
  intros b a n Hw. rewrite cp_u32 by done. destruct (HW b a n Hw); unfold apart; lia.
Qed.

Lemma param_addr_word chan i : param_addr cpmem chan i = cpmem + 4 * (chan * 16 + i).
Proof. unfold param_addr. lia. Qed.
Lemma param_word chan i : chan = IPU_CHAN0 \/ chan = IPU_CHAN1 -> 0 <= i < 16 -> 0 <= chan * 16 + i < 0x460.
Proof. unfold IPU_CHAN0, IPU_CHAN1. lia. Qed.
Lemma read_param chan i s : chan = IPU_CHAN0 \/ chan = IPU_CHAN1 -> 0 <= i < 16 ->
  read32 (param_addr cpmem chan i) s = Ret (reg (k_plat s) (param_addr cpmem chan i)) s.
Proof.
  intros Hc Hi. pose proof (param_word chan i Hc Hi). rewrite param_addr_word.
  exact (read32_reg R _ s ltac:(rewrite cp_u32 by done; by apply (cp_regs Hcp))).
Qed.

Definition params (p : P) (chan i : Z) (n : nat) : list Z :=
  (fun j => reg p (param_addr cpmem chan j)) <$> seqZ i (Z.of_nat n).

Lemma save_params_run n i s : 0 <= i -> i + Z.of_nat n <= 16 ->
  save_params cpmem i n s = Ret (params (k_plat s) IPU_CHAN0 i n, params (k_plat s) IPU_CHAN1 i n) s.
Proof.
  revert i. induction n as [|n IH]; intros i Hi Hn; [done|]. cbn [save_params].
  erewrite bind_run by (apply read_param; [by left|lia]). erewrite bind_run by (apply read_param; [by right|lia]).
  erewrite bind_run by (apply IH; lia). unfold params. rewrite (seqZ_cons i) by lia.
  replace (Z.pred (Z.of_nat (S n))) with (Z.of_nat n) by lia. by replace (Z.succ i) with (i + 1) by lia.
Qed.

Lemma params_lookup p chan i : 0 <= i < 16 ->
  params p chan 0 16 !! Z.to_nat i = Some (reg p (param_addr cpmem chan i)).
Proof.
  intros Hi. unfold params. change (Z.of_nat 16) with 16. rewrite list_lookup_fmap, (proj2 (lookup_seqZ 0 16 (Z.to_nat i) i)); [done|]. lia.
Qed.
Lemma params_same p q chan : chan = IPU_CHAN0 \/ chan = IPU_CHAN1 -> cp_same p q -> params q chan 0 16 = params p chan 0 16.
Proof.
  intros Hc Hs. unfold params. apply list_fmap_ext. intros k j Hj. apply lookup_seqZ in Hj as [-> Hk].
  rewrite !param_addr_word. apply Hs. apply param_word; [done|lia].
Qed.

(** The size of the screen, from the parameters. *)
Definition screen_width (p : P) : Z := field_value cpmem IPU_CHAN0 0 p 125 13 + 1.
Definition screen_height (p : P) : Z := field_value cpmem IPU_CHAN0 0 p 138 12 + 1.

Lemma row_cp chan w : chan = IPU_CHAN0 \/ chan = IPU_CHAN1 -> w = 0 \/ w = 1 -> row_mapped R cpmem chan w.
Proof.
  intros Hc Hw. destruct (cp_range Hcp). unfold row_mapped, IPU_CHAN0, IPU_CHAN1 in *. split_and!; [lia..|].
  intros i Hi. replace (cpmem + _ + _ + _) with (cpmem + 4 * (chan * 16 + w * 8 + i)) by lia. apply (cp_regs Hcp). lia.
Qed.
Lemma field_value_range p bit size : 0 <= bit -> 0 < size < 32 -> 0 <= field_value cpmem IPU_CHAN0 0 p bit size < 2 ^ size.
Proof.
  intros Hb Hs. replace (field_value cpmem IPU_CHAN0 0 p bit size) with (field_value cpmem IPU_CHAN0 0 p bit size mod 2 ^ size).
  { apply Z.mod_pos_bound. apply Z.pow_pos_nonneg; lia. }
  apply Z.bits_inj'. intros j Hj. destruct (Z.ltb_spec j size).
  - by rewrite Z.mod_pow2_bits_low by lia.
  - rewrite Z.mod_pow2_bits_high by lia. by rewrite field_value_high by lia.
Qed.
Lemma screen_same p q : cp_same p q -> screen_width q = screen_width p /\ screen_height q = screen_height p.
Proof.
  intros Hs. unfold screen_width, screen_height, field_value, field_reg, IPU_CHAN0.
  pose proof (Hs 371 ltac:(lia)) as H3. pose proof (Hs 372 ltac:(lia)) as H4.
  change (125 / 32) with 3. change (138 / 32) with 4. change ((125 + 32) / 32) with 4. change ((138 + 32) / 32) with 5.
  change (cpmem + 4 * 371) with (cpmem + (23 * 64 + 0 * 32 + 3 * 4)) in H3.
  change (cpmem + 4 * 372) with (cpmem + (23 * 64 + 0 * 32 + 4 * 4)) in H4. by rewrite H3, H4.
Qed.

Lemma write_field_io_only chan w bit size v :
  chan = IPU_CHAN0 \/ chan = IPU_CHAN1 -> w = 0 \/ w = 1 -> 0 <= bit < 224 ->
  io_only (P:=P) cp_window (fun _ => True) (ipu_ch_param_write_field cpmem chan w bit size v).
Proof.
  intros Hc Hw Hb. destruct (cp_range Hcp) as [H0 H1]. unfold ipu_ch_param_write_field. cbv zeta.
  assert (0 <= bit / 32 < 7) by (split; [apply Z.div_pos|apply Z.div_lt_upper_bound]; lia).
  assert (Hin : forall b : bool, cp_window b (u32 (cpmem + field_reg chan w bit)) 4 /\
                      cp_window b (u32 (cpmem + field_reg chan w bit + 4)) 4).
  { intros b. unfold field_reg, cp_window, IPU_CHAN0, IPU_CHAN1 in *. rewrite !u32_small by (unfold is_u32; lia). lia. }
  apply io_only_bind; [apply true_stable|by apply io_only_load; [lia|apply Hin]|intros t].
  apply io_only_bind; [apply true_stable|by apply io_only_store; [lia|apply Hin]|intros _]. apply io_only_when.
  apply io_only_bind; [apply true_stable|by apply io_only_load; [lia|apply Hin]|intros t'].
  by apply io_only_store; [lia|apply Hin].
Qed.

Lemma fb_set_format_io_only stride : io_only (P:=P) cp_window (fun _ => True) (fb_set_format cpmem stride).
Proof.
  unfold fb_set_format. cbv zeta.
  repeat (apply io_only_bind; [apply true_stable| |intros _]);
    (apply write_field_io_only; [tauto|tauto|lia]).
Qed.

(** What is restored when the display is released. *)
Lemma restore_params l0 l1 s (p0 p1 : Z -> Z) :
  (forall i, 0 <= i < 16 -> l0 !! Z.to_nat i = Some (p0 i) /\ l1 !! Z.to_nat i = Some (p1 i) /\ is_u32 (p0 i) /\ is_u32 (p1 i)) ->
  wp (for_each (seqZ 0 16) (fun p =>
    v0 <- aget l0 p;; write32 v0 (param_addr cpmem IPU_CHAN0 p);;;
    v1 <- aget l1 p;; write32 v1 (param_addr cpmem IPU_CHAN1 p))) s (fun _ s' =>
    io_step cp_window s s' /\ forall i, 0 <= i < 16 ->
      reg (k_plat s') (param_addr cpmem IPU_CHAN0 i) = p0 i /\ reg (k_plat s') (param_addr cpmem IPU_CHAN1 i) = p1 i).
Proof.
  intros Hl. destruct (cp_range Hcp) as [H0 H1].
  eapply wp_mono; [|apply (wp_for_each (fun done s' => io_step cp_window s s' /\ forall i, i ∈ done ->
      reg (k_plat s') (param_addr cpmem IPU_CHAN0 i) = p0 i /\ reg (k_plat s') (param_addr cpmem IPU_CHAN1 i) = p1 i))].
  - intros [] s' [Hs Hi]. split; [done|]. intros i Hr. apply Hi, elem_of_seqZ. lia.
  - split; [apply io_step_refl|]. by intros i Hi%elem_of_nil.
  - intros done i rest s1 Heq [Hs1 Hd]. apply seqZ_prefix in Heq as [Hi Hb].
    destruct (Hl i ltac:(lia)) as (E0 & E1 & Hu0 & Hu1).
    apply wp_bind. eapply wp_intro; [exact (aget_run _ _ _ _ (proj1 Hi) E0)|].
    apply wp_bind. eapply wp_intro; [by apply write32_run|].
    apply wp_bind. eapply wp_intro; [exact (aget_run _ _ _ _ (proj1 Hi) E1)|].
    eapply wp_intro; [by apply write32_run|].
    cbn [get_platform kernel_platform k_plat set_k_plat set_platform].
    assert (Hu : forall c j, c = IPU_CHAN0 \/ c = IPU_CHAN1 -> 0 <= j < 16 -> u32 (param_addr cpmem c j) = param_addr cpmem c j /\ R (param_addr cpmem c j)).
    { intros c j Hc Hj. rewrite param_addr_word. pose proof (param_word c j Hc Hj).
      split; [by apply cp_u32|by apply (cp_regs Hcp)]. }
    destruct (Hu IPU_CHAN0 i) as [Ua Ra]; [by left|lia|]. destruct (Hu IPU_CHAN1 i) as [Ub Rb]; [by right|lia|].
    split.
    + eapply io_step_trans; [exact Hs1|]. eexists. split; [done|].
      apply io_path_snoc; [|lia|rewrite Ub; unfold cp_window, param_addr, IPU_CHAN1; lia].
      apply io_path_snoc; [constructor|lia|rewrite Ua; unfold cp_window, param_addr, IPU_CHAN0; lia].
    + intros j Hj. assert (Hjr : 0 <= j < 16) by (apply elem_of_snoc in Hj as [Hj| ->]; [specialize (Hb j Hj)|]; lia).
      destruct (Hu IPU_CHAN0 j) as [Uj Rj]; [by left|lia|]. destruct (Hu IPU_CHAN1 j) as [Uk Rk]; [by right|lia|].
      assert (Hx : forall c c' i' (q : P) v, c = IPU_CHAN0 \/ c = IPU_CHAN1 -> c' = IPU_CHAN0 \/ c' = IPU_CHAN1 -> 0 <= i' < 16 ->
        (c, j) <> (c', i') -> reg (io_write 4 (u32 (param_addr cpmem c' i')) v q) (param_addr cpmem c j) = reg q (param_addr cpmem c j)).
      { intros c c' i' q v Hc Hc' Hi' Hne. destruct (Hu c j Hc Hjr) as [U Rr]. destruct (Hu c' i' Hc' Hi') as [U' _].
        apply (reg_write_other R); [by rewrite U|lia|]. rewrite U, U'. unfold param_addr, apart.
        destruct (decide (c = c')) as [->|]; [assert (j <> i') by congruence; lia|unfold IPU_CHAN0, IPU_CHAN1 in *; lia]. }
      destruct (decide (j = i)) as [->|Hne].
      * rewrite Hx, (reg_write_same R), u32_small, (reg_write_same R), u32_small by (rewrite ?Ua, ?Ub; (done || tauto || lia || (intros [=]; done))). done.
      * apply elem_of_snoc in Hj as [Hj|]; [|done]. rewrite !Hx by (tauto || lia || (intros [=]; done)). by apply Hd.
Qed.

Lemma cp_csu_same p p' : io_path cp_window p p' -> csu_same cb p p'.
Proof.
  destruct (cp_csu Hcp) as (H1 & H2 & HR). apply (csu_same_path R cb (conj H1 H2) HR).
  intros a k b n [(i & Hi & ->)| ->] [Ha Hb]; destruct (cp_apart Hcp); unfold apart; lia.
Qed.

(** Releasing the display writes the saved words back, undoes one protection
    of the IPU and removes the region. *)
Lemma fb_release_spec info s (p0 p1 : Z -> Z) :
  fi_buffer info <> 0 -> g_cpmem_vaddr (k_fb s) = cpmem -> csu_base (k_csu s) = cb -> csu_ok s ->
  0 < csl_count (k_csu s) 61 < 2 ^ 31 ->
  (forall i, 0 <= i < 16 -> fi_prev_params_ch0 info !! Z.to_nat i = Some (p0 i) /\
     fi_prev_params_ch1 info !! Z.to_nat i = Some (p1 i) /\ is_u32 (p0 i) /\ is_u32 (p1 i)) ->
  wp (fb_release info) s (fun info' s' => fi_buffer info' = 0 /\ csu_ok s' /\
    csl_count (k_csu s') 61 = csl_count (k_csu s) 61 - 1 /\
    regions (k_emu s') = default (regions (k_emu s))
      (remove_first (Region (g_base_paddr (k_fb s)) 0x400000 FB_EMU_CHECK) (regions (k_emu s))) /\
    forall i, 0 <= i < 16 -> reg (k_plat s') (param_addr cpmem IPU_CHAN0 i) = p0 i /\
                             reg (k_plat s') (param_addr cpmem IPU_CHAN1 i) = p1 i).
Proof.
  intros Hbuf Hfb Hcb Hok Hcnt Hl. unfold fb_release. rewrite (proj2 (Z.eqb_neq _ _)) by done.
  apply wp_bind. unfold get_fb. apply wp_gets. rewrite Hfb. apply wp_bind.
  eapply wp_mono; [|by apply (restore_params _ _ s p0 p1)]. intros [] s1 [(p' & -> & Hpath) Hregs].
  destruct (cp_csu Hcp) as (H1 & H2 & HR).
  assert (Hok1 : csu_ok (set_k_plat p' s)).
  { apply (csu_ok_same s); [done|done|]. rewrite Hcb. by apply cp_csu_same. }
  apply wp_bind. eapply wp_intro.
  { apply (csu_set_csl_run R); cbn; rewrite ?Hcb; [done..|by destruct Hok|intros a Ha; apply HR; by rewrite <- Hcb|unfold MAX_CSL; lia|done]. }
  apply wp_bind, wp_gets. apply wp_bind.
  assert (Hok2 : csu_ok (csu_step 61 false (set_k_plat p' s))).
  { apply (csu_step_ok R); [done|intros a Ha; apply HR; by rewrite <- Hcb|unfold MAX_CSL; lia|]. intros _. cbn. lia. }
  assert (Hreg2 : forall i, 0 <= i < 16 -> forall c, c = IPU_CHAN0 \/ c = IPU_CHAN1 ->
    reg (k_plat (csu_step 61 false (set_k_plat p' s))) (param_addr cpmem c i) = reg p' (param_addr cpmem c i)).
  { intros i Hi c Hc. rewrite !param_addr_word. apply (cp_same_csu (set_k_plat p' s)); [done|unfold MAX_CSL; lia|by apply param_word]. }
  assert (Hcount : csl_count (k_csu (csu_step 61 false (set_k_plat p' s))) 61 = csl_count (k_csu s) 61 - 1).
  { rewrite csu_step_count; [cbn; lia|by destruct Hok|unfold MAX_CSL; lia|lia]. }
  unfold wp at 1. rewrite emu_remove_region_run. set (s2 := csu_step 61 false (set_k_plat p' s)) in *.
  change (k_emu s2) with (k_emu s). change (k_fb s2) with (k_fb s).
  destruct (remove_first _ _) as [rs|] eqn:Erm; apply wp_ret; split_and!; try done.
  - apply (csu_ok_same s2); [done|done|]. apply (csu_same_free R); [change (csu_base (k_csu s2)) with (csu_base (k_csu s)); by rewrite Hcb|].
    intros a Ha. apply HR. by rewrite <- Hcb.
  - intros i Hi. cbn [k_plat set_k_plat]. rewrite !param_addr_word.
    rewrite !(cp_same_free _ (k_plat s2)) by (apply param_word; [tauto|done]). rewrite <- !param_addr_word.
    rewrite !Hreg2 by tauto. by apply Hregs.
  - intros i Hi. rewrite !Hreg2 by tauto. by apply Hregs.
Qed.

(** The frame buffer memory is mapped at [va]. *)
Definition fb_translates (va : Z) s : Prop :=
  forall s', k_mmu s' = k_mmu s -> phys_to_virt CFG_FBMEM_START MEM_AREA_IO_SEC s' = Ret va s'.
(** A screen of [w * h] pixels at [va] neither wraps nor reaches the
    parameter memory or the CSU. *)
Definition screen_placed (va w h : Z) : Prop :=
  0 < va /\ va + 3 * w * h <= 2 ^ 32 /\
  (va + 3 * w * h <= cpmem \/ cpmem + 0x1180 <= va) /\ (va + 3 * w * h <= cb \/ cb + 0x21c <= va).

Lemma screen_range p : 1 <= screen_width p <= 8192 /\ 1 <= screen_height p <= 4096.
Proof.
  pose proof (field_value_range p 125 13 ltac:(lia) ltac:(lia)) as Hw.
  pose proof (field_value_range p 138 12 ltac:(lia) ltac:(lia)) as Hh.
  change (2 ^ 13) with 8192 in Hw. change (2 ^ 12) with 4096 in Hh. unfold screen_width, screen_height. lia.
Qed.
Definition screen_info (va : Z) (p : P) : fb_info :=
  FbInfo va (screen_width p) (screen_height p) (3 * screen_width p) (params p IPU_CHAN0 0 16) (params p IPU_CHAN1 0 16).

Lemma screen_fits p va : screen_placed va (screen_width p) (screen_height p) -> fb_fits (screen_info va p).
Proof.
  pose proof (screen_range p). intros (H0 & H1 & _).
  split; cbn [screen_info fi_buffer fi_width fi_height fi_stride]; unfold is_u32; lia.
Qed.

(** The part of [fb_acquire] after the region was registered and the IPU
    protected. *)
Lemma fb_acquire_tail s va r g b :
  g_cpmem_vaddr (k_fb s) = cpmem -> fb_translates va s ->
  screen_placed va (screen_width (k_plat s)) (screen_height (k_plat s)) ->
  wp (cpmem <- get_fb g_cpmem_vaddr;;
      ' (prev0, prev1) <- save_params cpmem 0 16;;
      w <- ipu_ch_param_read_field cpmem IPU_CHAN0 0 125 13;;
      h <- ipu_ch_param_read_field cpmem IPU_CHAN0 0 138 12;;
      let width := u32 (w + 1) in let height := u32 (h + 1) in let stride := u32 (width * 3) in
      buffer <- phys_to_virt CFG_FBMEM_START MEM_AREA_IO_SEC;;
      let info := FbInfo buffer width height stride prev0 prev1 in
      fb_clear info r g b;;; fb_set_format cpmem stride;;; ret (true, info)) s
    (fun '(ok, info) s' => ok = true /\ info = screen_info va (k_plat s) /\
       exists p p', s' = set_k_plat p' s /\ io_path (clear_window info) (k_plat s) p /\ io_path cp_window p p').
Proof.
  intros Hfb Htr Hpl. apply wp_bind. unfold get_fb. apply wp_gets. rewrite Hfb.
  apply wp_bind. eapply wp_intro; [apply save_params_run; lia|].
  apply wp_bind. eapply wp_intro; [apply (ipu_ch_param_read_field_run R); [apply row_cp; tauto|lia..]|].
  apply wp_bind. eapply wp_intro; [apply (ipu_ch_param_read_field_run R); [apply row_cp; tauto|lia..]|].
  cbv zeta. fold (screen_width (k_plat s)) (screen_height (k_plat s)). pose proof (screen_range (k_plat s)) as Hr.
  rewrite !(u32_small (screen_width _)), !(u32_small (screen_height _)), (u32_small (screen_width _ * 3)) by (unfold is_u32; lia).
  apply wp_bind. eapply wp_intro; [by apply Htr|]. rewrite (Z.mul_comm (screen_width _)).
  fold (screen_info va (k_plat s)).
  apply wp_bind. eapply wp_mono; [|by apply fb_clear_io_only; [apply screen_fits|]]. intros [] s1 (p & -> & Hp).
  apply wp_bind. eapply wp_mono; [|by apply fb_set_format_io_only]. intros [] s2 (p' & -> & Hp').
  apply wp_ret. split_and!; [done..|]. by exists p, p'.
Qed.

Lemma fb_acquire_spec s va r g b :
  g_cpmem_vaddr (k_fb s) = cpmem -> csu_base (k_csu s) = cb -> csu_ok s -> hok (k_plat s) ->
  0 <= csl_count (k_csu s) 61 < 2 ^ 31 - 1 -> fb_translates va s ->
  screen_placed va (screen_width (k_plat s)) (screen_height (k_plat s)) ->
  wp (fb_acquire r g b) s (fun '(ok, info) s' => ok = true /\
    fi_buffer info = va /\ fb_fits info /\ fi_width info = screen_width (k_plat s) /\ fi_height info = screen_height (k_plat s) /\
    fi_prev_params_ch0 info = params (k_plat s) IPU_CHAN0 0 16 /\ fi_prev_params_ch1 info = params (k_plat s) IPU_CHAN1 0 16 /\
    csu_ok s' /\ csl_count (k_csu s') 61 = csl_count (k_csu s) 61 + 1 /\ csu_base (k_csu s') = cb /\
    regions (k_emu s') = Region (g_base_paddr (k_fb s)) 0x400000 FB_EMU_CHECK :: regions (k_emu s) /\
    k_fb s' = k_fb s).
Proof.
  intros Hfb Hcb Hok Hh Hcnt Htr Hpl. destruct (cp_csu Hcp) as (H1 & H2 & HR).
  unfold fb_acquire, get_fb. apply wp_bind, wp_gets. apply wp_bind. unfold wp at 1. rewrite emu_add_region_run.
  destruct (heap_ok_alloc sizeof_region _ Hh) as (p1 & Hal & Hh1). rewrite Hal.
  set (s1 := set_k_plat p1 _) in *.
  assert (Hd1 : cp_same (k_plat s) (k_plat s1)) by (by eapply cp_same_alloc).
  assert (Hok1 : csu_ok s1).
  { apply (csu_ok_same s); [done|done|]. rewrite Hcb. by apply (csu_same_alloc R cb (conj H1 H2) HR sizeof_region). }
  apply wp_bind. eapply wp_intro.
  { apply (csu_set_csl_run R); cbn; rewrite ?Hcb; [done..|by destruct Hok|intros a Ha; apply HR; by rewrite <- Hcb|unfold MAX_CSL; lia|done]. }
  set (s2 := csu_step 61 true s1).
  assert (Hd2 : cp_same (k_plat s) (k_plat s2)).
  { eapply cp_same_trans; [exact Hd1|]. apply cp_same_csu; [done|unfold MAX_CSL; lia]. }
  assert (Hok2 : csu_ok s2).
  { apply (csu_step_ok R); [done|intros a Ha; apply HR; by rewrite <- Hcb|unfold MAX_CSL; lia|done]. }
  assert (Hc2 : csl_count (k_csu s2) 61 = csl_count (k_csu s) 61 + 1).
  { unfold s2. rewrite csu_step_count; [done|by destruct Hok1|unfold MAX_CSL; lia|lia]. }
  destruct (screen_same _ _ Hd2) as [Ew Eh].
  assert (Hpl2 : screen_placed va (screen_width (k_plat s2)) (screen_height (k_plat s2))) by (by rewrite Ew, Eh).
  eapply wp_mono; [|apply (fb_acquire_tail s2 va r g b); [done|by intros s' Hs'; apply Htr|done]].
  intros [ok info] s' (-> & -> & p & p' & -> & Hp & Hp').
  split_and!; cbn [screen_info fi_buffer fi_width fi_height fi_prev_params_ch0 fi_prev_params_ch1]; try done.
  - by apply screen_fits.
  - apply params_same; [by left|done].
  - apply params_same; [by right|done].
  - apply (csu_ok_same s2); [done|done|]. change (csu_base (k_csu s2)) with (csu_base (k_csu s)). rewrite Hcb.
    eapply csu_same_trans; [|by apply cp_csu_same].
    apply (csu_same_path R cb (conj H1 H2) HR) in Hp; [done|].
    intros a k c n Hw (_ & Ha & Hb). destruct Hpl2 as (_ & _ & _ & Hx).
    cbn [screen_info fi_buffer fi_width fi_height] in Ha, Hb.
    destruct Hw as [(i & Hi & ->)| ->]; unfold apart; lia.
Qed.
End acquire.

(** ** Claims *)

(** writing a field of an IPU parameter row and reading it back yields
    the value, also when the field straddles two registers, and every bit of
    the row outside the field keeps its value. *)
Theorem ipu_field_roundtrip {P} `{Platform P, Config} (R : Z -> Prop) `{!PlainRegs P R}
    (base channel w bit size v : Z) (s : kernel P) :
  row_mapped R base channel w -> field_in bit size v ->
  exists s', ipu_ch_param_write_field base channel w bit size v s = Ret tt s' /\
    ipu_ch_param_read_field base channel w bit size s' = Ret v s' /\
    (forall k, 0 <= k < 256 -> k < bit \/ bit + size <= k ->
       param_bit (k_plat s') base channel w k = param_bit (k_plat s) base channel w k) /\
    exists p', s' = set_k_plat p' s.
Proof.
  intros Hr Hf. pose proof Hf as [Hb He Hs Hv].
  eexists. split; [by apply (ipu_ch_param_write_field_run R)|]. split_and!; [|intros k Hk Ho|by eexists].
  - rewrite (ipu_ch_param_read_field_run R) by (done || lia). f_equal. apply Z.bits_inj'. intros j Hj.
    destruct (Z.ltb_spec j size).
    + rewrite field_value_testbit by lia. cbn [k_plat set_k_plat].
      rewrite (field_plat_bits R) by (done || lia). rewrite (proj2 (Z.leb_le _ _)), (proj2 (Z.ltb_lt _ _)) by lia.
      cbn [andb]. f_equal. lia.
    + rewrite field_value_high by lia. symmetry. apply (small_testbit v size); [done|lia].
  - cbn [k_plat set_k_plat]. rewrite (field_plat_bits R) by done.
    destruct (Z.leb_spec bit k), (Z.ltb_spec k (bit + size)); done || lia.
Qed.

Lemma ipu_field_roundtrip_witness :
  exists s', ipu_ch_param_write_field (P:=bigram) 0x2700000 23 1 29 29 0x9700000 (kernel_init (mk_bigram {[ 0x2700000 + 23 * 64 + 32 + 4 := 0xffffffff ]})) = Ret tt s' /\
    ipu_ch_param_read_field 0x2700000 23 1 29 29 s' = Ret 0x9700000 s'.
Proof.
  pose (Build_Config false).
  destruct (ipu_field_roundtrip (fun _ => True) 0x2700000 23 1 29 29 0x9700000
    (kernel_init (mk_bigram {[ 0x2700000 + 23 * 64 + 32 + 4 := 0xffffffff ]}))) as (s' & H1 & H2 & _).
  - unfold row_mapped. split_and!; (done || lia).
  - split; vm_compute; repeat split; congruence.
  - by exists s'.
Defined.

(** C21: acquiring the display saves the parameter words of both channels,
    protects the IPU once more and registers the filtered region; releasing it
    in any later state restores every saved word, undoes that protection,
    removes the region and clears the buffer pointer. *)
Theorem fb_acquire_release {P} `{Platform P, Config, Layout} (R : Z -> Prop) `{!PlainRegs P R}
    (hok : P -> Prop) `{!HeapAvailable P hok} (s : kernel P) (va r g b : Z) :
  let cpmem := g_cpmem_vaddr (k_fb s) in let cb := csu_base (k_csu s) in
  let rg := Region (g_base_paddr (k_fb s)) 0x400000 FB_EMU_CHECK in
  cp_placed R cpmem cb -> csu_ok s -> hok (k_plat s) -> 0 <= csl_count (k_csu s) 61 < 2 ^ 31 - 1 ->
  fb_translates va s -> screen_placed cpmem cb va (screen_width cpmem (k_plat s)) (screen_height cpmem (k_plat s)) ->
  wp (fb_acquire r g b) s (fun '(ok, info) s1 => ok = true /\ csu_ok s1 /\
    csl_count (k_csu s1) 61 = csl_count (k_csu s) 61 + 1 /\ regions (k_emu s1) = rg :: regions (k_emu s) /\
    k_fb s1 = k_fb s /\ csu_base (k_csu s1) = cb /\
    forall s2, k_fb s2 = k_fb s -> csu_base (k_csu s2) = cb -> csu_ok s2 -> 0 < csl_count (k_csu s2) 61 < 2 ^ 31 ->
      wp (fb_release info) s2 (fun info' s3 => fi_buffer info' = 0 /\ csu_ok s3 /\
        csl_count (k_csu s3) 61 = csl_count (k_csu s2) 61 - 1 /\
        regions (k_emu s3) = default (regions (k_emu s2)) (remove_first rg (regions (k_emu s2))) /\
        forall chan i, chan = IPU_CHAN0 \/ chan = IPU_CHAN1 -> 0 <= i < 16 ->
          reg (k_plat s3) (param_addr cpmem chan i) = reg (k_plat s) (param_addr cpmem chan i))).
Proof.
  intros cpmem cb rg Hcp Hok Hh Hcnt Htr Hpl.
  eapply wp_mono; [|by apply (fb_acquire_spec R hok cpmem cb Hcp s va)].
  intros [ok info] s1 (-> & Hbuf & Hfits & _ & _ & E0 & E1 & Hok1 & Hc1 & Hcb1 & Hr1 & Hfb1).
  split_and!; [done..|]. intros s2 Hfb2 Hcb2 Hok2 Hc2.
  eapply wp_mono; [|apply (fb_release_spec R cpmem cb Hcp info s2
    (fun i => reg (k_plat s) (param_addr cpmem IPU_CHAN0 i)) (fun i => reg (k_plat s) (param_addr cpmem IPU_CHAN1 i)))];
    [|destruct Hfits; lia|by rewrite Hfb2|done..|].
  - intros info' s3 (Hb3 & Hok3 & Hc3 & Hr3 & Hp3). rewrite Hfb2 in Hr3. split_and!; [done..|].
    intros chan i [-> | ->] Hi; by apply Hp3.
  - intros i Hi. rewrite E0, E1, !params_lookup by done. split_and!; [done..| |]; apply reg_u32.
Qed.

(** A display of 2 x 3 pixels whose parameters are at 0x2700000, an open CSU,
    and the frame buffer memory mapped flat. *)
Definition fb_demo : kernel bigram :=
  set_k_csu csu_open_data
  (set_k_fb (FbData 0x2400000 0x2400000 0x2700000)
  (set_k_mmu (MmuData [TeeMmapRegion MEM_AREA_IO_SEC 0x100000 CFG_FBMEM_START CFG_FBMEM_START CFG_FBMEM_SIZE 0] ∅ ∅ 0)
  (kernel_init (mk_bigram (<[0x2700000 + 371 * 4 := 0x20000000]> (<[0x2700000 + 372 * 4 := 0x800]>
     (bigram_cells csu_open_regs))))))).

Lemma fb_acquire_release_witness :
  let s := fb_demo in screen_width 0x2700000 (k_plat s) = 2 /\ screen_height 0x2700000 (k_plat s) = 3 /\
  exists ok info s1, @fb_acquire _ _ {| cfg_ndebug := true |} 1 2 3 s = Ret (ok, info) s1 /\
    csl_count (k_csu s1) 61 = 1 /\
    wp (@fb_release _ _ {| cfg_ndebug := true |} info) s1 (fun _ s3 => csl_count (k_csu s3) 61 = 0).
Proof.
  intros s. split; [vm_compute; reflexivity|]. split; [vm_compute; reflexivity|].
  pose (Build_Config true). pose (Build_Layout 0).
  assert (Hok : csu_ok s).
  { apply csu_open_ok; [done|]. intros csl Hc.
    assert (Hall : forallb (fun c => reg (k_plat s) (csl_addr 0x021C0000 c) =? reg csu_open_regs (csl_addr 0x021C0000 c)) (seqZ 0 80) = true)
      by (vm_compute; reflexivity).
    rewrite forallb_forall in Hall. apply Z.eqb_eq, Hall. rewrite <- list_elem_of_In, elem_of_seqZ. exact Hc. }
  assert (Hcp : cp_placed (fun _ => True) 0x2700000 0x021C0000) by (split; [lia|done|split_and!; [lia|lia|done]|lia]).
  assert (Hcnt : 0 <= csl_count (k_csu s) 61 < 2 ^ 31 - 1) by (vm_compute; intuition congruence).
  assert (Htr : fb_translates CFG_FBMEM_START s).
  { intros s' Hs'. unfold phys_to_virt, get_map. erewrite bind_run by done. rewrite Hs'. reflexivity. }
  assert (Hpl : screen_placed 0x2700000 0x021C0000 CFG_FBMEM_START (screen_width 0x2700000 (k_plat s)) (screen_height 0x2700000 (k_plat s)))
    by (vm_compute; intuition congruence).
  destruct (wp_elim _ _ _ (fb_acquire_release (fun _ => True) (fun _ => True) s CFG_FBMEM_START 1 2 3 Hcp Hok I Hcnt Htr Hpl))
    as ([ok info] & s1 & Hr & -> & Hok1 & Hc1 & Hr1 & Hfb1 & Hcb1 & Hrel).
  exists true, info, s1. split; [exact Hr|]. split; [rewrite Hc1; vm_compute; reflexivity|].
  eapply wp_mono; [|apply Hrel].
  - intros info' s3 (_ & _ & Hc3 & _). rewrite Hc3, Hc1. vm_compute. reflexivity.
  - exact Hfb1.
  - exact Hcb1.
  - exact Hok1.
  - rewrite Hc1. split; reflexivity.
Defined.

(** C31: every access made while blitting a list of images is in bounds: the
    call returns, its stores lie inside the frame buffer and its loads inside
    one of the images. *)
Theorem fb_blit_all_in_bounds {P} `{Platform P} (info : fb_info) (blits : list blit) (s : kernel P) :
  fb_fits info ->
  Forall (fun b => let im := bl_image b in
    0 <= bl_x b /\ 0 <= bl_y b /\ bl_x b + im_width im < 2 ^ 32 /\ 0 <= im_width im /\ 0 <= im_height im /\
    3 * im_width im < 2 ^ 32 /\ 0 <= im_buffer im /\ im_buffer im + 3 * im_width im * im_height im <= 2 ^ 32) blits ->
  wp (fb_blit_all info blits) s (fun _ s' => io_step (fun store a n =>
    if store then fi_buffer info <= a /\ a + n <= fi_buffer info + 3 * fi_width info * fi_height info
    else exists b, b ∈ blits /\ im_buffer (bl_image b) <= a /\
      a + n <= im_buffer (bl_image b) + 3 * im_width (bl_image b) * im_height (bl_image b)) s s').
Proof.
  intros Hf Hall. rewrite Forall_forall in Hall.
  apply (io_only_for_each _ (fun _ => True)); [apply true_stable| |done]. intros b Hb s1 _.
  destruct (Hall b Hb) as (H1 & H2 & H3 & H4 & H5 & H6 & H7 & H8).
  eapply wp_mono; [|by apply fb_blit_io_only]. intros [] s2 (p & -> & Hp). exists p. split; [done|].
  eapply io_path_mono; [|exact Hp]. intros [] a n Hw; [exact Hw|]. by exists b.
Qed.

Lemma fb_blit_all_in_bounds_witness :
  let info := FbInfo 0x1000 2 2 6 [] [] in
  let blits := [Blit 1 1 (Image 0x2000 4 4); Blit 5 0 (Image 0x2000 4 4)] in
  wp (fb_blit_all info blits) fb_demo (fun _ s' => s' = set_k_plat (k_plat s') fb_demo).
Proof.
  intros info blits. eapply wp_mono; [|apply (fb_blit_all_in_bounds info blits fb_demo)].
  - intros [] s' (p & -> & _). reflexivity.
  - split; cbn; unfold is_u32; lia.
  - repeat constructor; cbn; lia.
Defined.

(** While the display is held, the check of its region denies exactly the
    writes to the three buffer address registers; it never changes the value
    or the state. *)
Theorem fb_emu_check_denies {P} (r : region) (address : Z) (st : emu_state) (v : option Z) (s : kernel P) :
  exists allowed, fb_emu_check r address st v s = Ret (allowed, v) s /\
    (allowed = false <-> st = EMU_STATE_WRITE /\
      (u32 (address - rg_base r) = 0x3005E0 \/ u32 (address - rg_base r) = 0x3005E4 \/
       u32 (address - rg_base r) = 0x301160)).
Proof.
  eexists. split; [reflexivity|]. unfold fb_emu_check_addr. set (o := u32 _).
  destruct (Z.eqb_spec o 0x3005E0), (Z.eqb_spec o 0x3005E4), (Z.eqb_spec o 0x301160); cbn [orb];
    rewrite ?negb_false_iff, ?bool_decide_eq_true; intuition (congruence || lia).
Qed.
