(* ===== verification/Entry.v ===== *)
(** * The cloak service (core/arch/arm/secloak/entry.c)

    The non-secure world asks for a bit vector of settings; the kernel shows
    it on the secured display, waits for a key, and on confirmation switches
    the device classes accordingly. *)

From stdpp Require Import prelude gmap list strings.
From Stdlib Require Import ZArith Lia.
From S2P Require Import Prelude Platform State Frame CoreMmu Csu Emulation Interrupt Gic Dt Protection GpioKeys Fb.
#[local] Open Scope Z_scope.
#[local] Open Scope kernel_scope.

(** include/secloak/settings.h *)
Definition MODE_NONE : Z := 0.
Definition MODE_AIRPLANE : Z := 1.
Definition MODE_MOVIE : Z := 2.
Definition MODE_STEALTH : Z := 3.
Definition NETWORK_SHIFT : Z := 2.
Definition MULTIMEDIA_SHIFT : Z := 11.
Definition SENSOR_SHIFT : Z := 20.
Definition GROUP_DIS_OFF : Z := 0.
Definition GROUP_DIS_CUSTOM : Z := 4.
Definition GROUP_EN_OFF : Z := 1.
Definition GROUP_EN_ON : Z := 7.
Definition GROUP_EN_CUSTOM : Z := 5.
Definition WIFI_SHIFT : Z := 5.
Definition BT_SHIFT : Z := 7.
Definition CELLULAR_SHIFT : Z := 9.
Definition CAMERA_SHIFT : Z := 14.
Definition SPEAKER_SHIFT : Z := 16.
Definition MIC_SHIFT : Z := 18.
Definition GPS_SHIFT : Z := 23.
Definition INERTIAL_SHIFT : Z := 25.
(** include/secloak/entry.h and include/sm/optee_smc.h *)
Definition OPTEE_SMC_CLOAK_SET : Z := 0x32000063.
Definition OPTEE_SMC_CLOAK_GET : Z := 0x32000064.
Definition OPTEE_SMC_RETURN_OK : Z := 0.
Definition OPTEE_SMC_RETURN_EBUSY : Z := 2.
Definition OPTEE_SMC_RETURN_EBADCMD : Z := 5.
Definition CLOAK_CONFIRM_NONE : Z := 0.
Definition CLOAK_CONFIRM_ALLOW : Z := 1.
Definition CLOAK_CONFIRM_DENY : Z := 2.

(** The generated image_headers.h: where the pixel data is linked. *)
Class Images := { image_data : string -> Z }.

Section display.
Context `{Images}.
Definition img (name : string) (w h : Z) : image := Image (image_data name) w h.

Definition display_static : list blit :=
  [ Blit 0 0 (img "header_rotated" 128 800); Blit 148 0 (img "bluerect_rotated" 64 800);
    Blit 1051 80 (img "footer_rotated" 128 640); Blit 230 608 (img "group_networking_rotated" 64 192);
    Blit 502 608 (img "group_multimedia_rotated" 64 192); Blit 776 608 (img "group_sensor_rotated" 64 192);
    Blit 148 593 (img "mode_none_rotated" 64 96); Blit 148 402 (img "mode_airplane_rotated" 64 128);
    Blit 148 272 (img "mode_movie_rotated" 64 96); Blit 148 113 (img "mode_stealth_rotated" 64 96);
    Blit 358 192 (img "bt_rotated" 64 416); Blit 566 192 (img "camera_rotated" 64 416);
    Blit 422 192 (img "cellular_rotated" 64 416); Blit 840 192 (img "gps_rotated" 64 416);
    Blit 694 192 (img "mic_rotated" 64 416); Blit 904 192 (img "sensor_rotated" 64 416);
    Blit 630 192 (img "speaker_rotated" 64 416); Blit 294 192 (img "wifi_rotated" 64 416) ].
Definition display_switches_white : list image :=
  [ img "switch_dis_off_w_rotated" 64 192; img "switch_dis_on_w_rotated" 64 192;
    img "switch_en_off_w_rotated" 64 192; img "switch_en_on_w_rotated" 64 192 ].
Definition display_switches_blue : list image :=
  [ img "switch_dis_off_rotated" 64 192; img "switch_dis_on_rotated" 64 192;
    img "switch_en_off_rotated" 64 192; img "switch_en_on_rotated" 64 192 ].
Definition display_icons_wifi := [ img "icon_nowifi_rotated" 64 192; img "icon_wifi_rotated" 64 192 ].
Definition display_icons_bt := [ img "icon_nobt_rotated" 64 192; img "icon_bt_rotated" 64 192 ].
Definition display_icons_camera := [ img "icon_nocamera_rotated" 64 192; img "icon_camera_rotated" 64 192 ].
Definition display_icons_cellular := [ img "icon_nocellular_rotated" 64 192; img "icon_cellular_rotated" 64 192 ].
Definition display_icons_speaker := [ img "icon_nospeaker_rotated" 64 192; img "icon_speaker_rotated" 64 192 ].
Definition display_icons_mic := [ img "icon_nomic_rotated" 64 192; img "icon_mic_rotated" 64 192 ].
Definition display_icons_gps := [ img "icon_nogps_rotated" 64 192; img "icon_gps_rotated" 64 192 ].
Definition display_icons_sensor := [ img "icon_nosensor_rotated" 64 192; img "icon_sensor_rotated" 64 192 ].
Definition display_group_on := [ img "group_dis_on_rotated" 64 64; img "group_en_on_rotated" 64 64 ].
Definition display_group_off := [ img "group_dis_off_rotated" 64 64; img "group_en_off_rotated" 64 64 ].
Definition display_group_custom := [ img "group_dis_custom_rotated" 64 128; img "group_en_custom_rotated" 64 128 ].
Definition display_group_radio :=
  [ img "group_dis_deselect_rotated" 64 32; img "group_dis_select_rotated" 64 32;
    img "group_en_deselect_rotated" 64 32; img "group_en_select_rotated" 64 32 ].
Definition display_mode := [ img "mode_deselect_rotated" 64 32; img "mode_select_rotated" 64 32 ].
End display.

(** [struct cloak_class] *)
Record cloak_class := CloakClass { cc_name : string; cc_allow : bool }.

(** The class of an individual setting: its name, the position of its two
    bits, its row on the screen and its images. *)
Record setting := Setting {
  st_name : string; st_shift : Z; st_x : Z; st_switches : list image; st_icons : list image;
}.
Definition settings `{Images} : list setting :=
  [ Setting "wifi" WIFI_SHIFT 294 display_switches_blue display_icons_wifi;
    Setting "bluetooth" BT_SHIFT 358 display_switches_white display_icons_bt;
    Setting "cellular" CELLULAR_SHIFT 422 display_switches_blue display_icons_cellular;
    Setting "camera" CAMERA_SHIFT 566 display_switches_blue display_icons_camera;
    Setting "audio-out" SPEAKER_SHIFT 630 display_switches_white display_icons_speaker;
    Setting "audio-in" MIC_SHIFT 694 display_switches_blue display_icons_mic;
    Setting "gps" GPS_SHIFT 840 display_switches_blue display_icons_gps;
    Setting "inertial" INERTIAL_SHIFT 904 display_switches_white display_icons_sensor ].

Section entry.
Context {P : Type} {plat : Platform P} {cfg : Config} {lay : Layout} {drv : IrqDrivers P} {imgs : Images}.
Abbreviation K := (M (kernel P)).

Definition get_cloak {A} (f : cloak_data -> A) : K A := gets (fun s => f (k_cloak s)).
Definition modify_cloak (f : cloak_data -> cloak_data) : K unit :=
  modify (fun s => set_k_cloak (f (k_cloak s)) s).

(** [display[b]] with a bool as the index *)
Definition idx (b : bool) : Z := if b then 1 else 0.

Definition cloak_blit_device (fb : fb_info) (bits x : Z) (display_switches display_icons : list image) : K bool :=
  let allow := truth (Z.land bits 2) in
  sw <- aget display_switches bits;; fb_blit_image fb x 0 sw;;;
  ic <- aget display_icons 1;; fb_blit_image fb x 608 ic;;;
  ret allow.

Definition cloak_is_group_enabled (group : Z) : K bool :=
  if (group =? GROUP_DIS_OFF) || (group =? GROUP_DIS_CUSTOM) then ret false
  else if (group =? GROUP_EN_OFF) || (group =? GROUP_EN_ON) || (group =? GROUP_EN_CUSTOM) then ret true
  else panic.

Definition cloak_blit_group (fb : fb_info) (bits x : Z) : K unit :=
  is_enabled <- cloak_is_group_enabled bits;;
  let blit_at y tbl i := (im <- aget tbl i;; fb_blit_image fb x y im) in
  blit_at 507 display_group_on (idx is_enabled);;;
  blit_at 348 display_group_off (idx is_enabled);;;
  blit_at 123 display_group_custom (idx is_enabled);;;
  let is_on := bits =? GROUP_EN_ON in
  let is_off := (bits =? GROUP_DIS_OFF) || (bits =? GROUP_EN_OFF) in
  let is_custom := (bits =? GROUP_DIS_CUSTOM) || (bits =? GROUP_EN_CUSTOM) in
  blit_at 573 display_group_radio (Z.lor (Z.shiftl (idx is_enabled) 1) (idx is_on));;;
  blit_at 414 display_group_radio (Z.lor (Z.shiftl (idx is_enabled) 1) (idx is_off));;;
  blit_at 253 display_group_radio (Z.lor (Z.shiftl (idx is_enabled) 1) (idx is_custom)).

Definition cloak_button_press_handler (code : Z) : K bool :=
  (if code =? KEY_HOMEPAGE then modify_cloak (set_cloak_confirm_status CLOAK_CONFIRM_ALLOW)
   else if code =? KEY_BACK then modify_cloak (set_cloak_confirm_status CLOAK_CONFIRM_DENY)
   else ret tt);;;
  ret true.

Definition cpu_spin_trylock_cloak : K bool :=
  l <- get_cloak cloak_lock;;
  if l =? SPINLOCK_UNLOCK then modify_cloak (set_cloak_lock SPINLOCK_LOCK);;; ret true else ret false.
Definition cpu_spin_unlock_cloak : K unit := modify_cloak (set_cloak_lock SPINLOCK_UNLOCK).

(** The initialisers of [classes], in order. *)
Fixpoint blit_settings (fb : fb_info) (v : Z) (l : list setting) : K (list cloak_class) :=
  match l with
  | [] => ret []
  | st :: l' =>
      allow <- cloak_blit_device fb (Z.land (Z.shiftr v (st_shift st)) 3) (st_x st) (st_switches st) (st_icons st);;
      cs <- blit_settings fb v l';; ret (CloakClass (st_name st) allow :: cs)
  end.

(** The dialogue: static content, settings, groups and modes. *)
Definition cloak_draw (fb : fb_info) (v : Z) : K (list cloak_class) :=
  fb_blit_all fb display_static;;;
  classes <- blit_settings fb v settings;;
  cloak_blit_group fb (Z.land (Z.shiftr v NETWORK_SHIFT) 7) 230;;;
  cloak_blit_group fb (Z.land (Z.shiftr v MULTIMEDIA_SHIFT) 7) 502;;;
  cloak_blit_group fb (Z.land (Z.shiftr v SENSOR_SHIFT) 7) 776;;;
  let mode := Z.land v 3 in
  let blit_mode y m := (im <- aget display_mode (idx (mode =? m));; fb_blit_image fb 148 y im) in
  blit_mode 693 MODE_NONE;;; blit_mode 534 MODE_AIRPLANE;;; blit_mode 372 MODE_MOVIE;;; blit_mode 213 MODE_STEALTH;;;
  ret classes.

(** The busy wait: [cloak_confirm_status] changes only in the interrupts taken
    meanwhile.  Each element of [events] is what the hardware does before one
    of them. *)
Fixpoint wait_confirmation (events : list (P -> P)) : K unit :=
  st <- get_cloak cloak_confirm_status;;
  if negb (st =? CLOAK_CONFIRM_NONE) then ret tt
  else match events with
       | [] => spin
       | e :: events' => modify (fun s => set_k_plat (e (k_plat s)) s);;; gic_it_handle;;; wait_confirmation events'
       end.

(** All classes on, then the denied ones off. *)
Definition cloak_apply (classes : list cloak_class) : K unit :=
  for_each classes (fun c => dt_enable_class (cc_name c) true);;;
  for_each classes (fun c => when (negb (cc_allow c)) (dt_enable_class (cc_name c) false)).

(** The branch on the user's answer. *)
Definition cloak_decide (fb : fb_info) (v : Z) (classes : list cloak_class) : K unit :=
  st <- get_cloak cloak_confirm_status;;
  if st =? CLOAK_CONFIRM_ALLOW then
    cloak_apply classes;;;
    modify_cloak (set_cloak_prev_settings v);;;
    fb_clear fb 0x00 0xFF 0x00
  else fb_clear fb 0xFF 0x00 0x00.

Definition cloak_entry_set (events : list (P -> P)) (args : thread_smc_args) : K thread_smc_args :=
  locked <- cpu_spin_trylock_cloak;;
  error <- (
    if negb locked then ret OPTEE_SMC_RETURN_EBUSY
    else
    ' (ok, fb) <- fb_acquire 0xFF 0xFF 0xFF;;
    if negb ok then ret OPTEE_SMC_RETURN_EBADCMD
    else
    keys <- gpio_keys_acquire CLOAK_BUTTON_HANDLER;;
    (if negb keys then fb_release fb;;; ret OPTEE_SMC_RETURN_EBADCMD
     else
     classes <- cloak_draw fb (a1 args);;
     modify_cloak (set_cloak_confirm_status CLOAK_CONFIRM_NONE);;;
     wait_confirmation events;;;
     cloak_decide fb (a1 args) classes;;;
     gpio_keys_release CLOAK_BUTTON_HANDLER;;;
     fb_release fb;;; ret OPTEE_SMC_RETURN_OK));;
  cpu_spin_unlock_cloak;;;
  ret (set_a0 error args).

Definition cloak_entry_get (args : thread_smc_args) : K thread_smc_args :=
  locked <- cpu_spin_trylock_cloak;;
  (if negb locked then cpu_spin_unlock_cloak;;; ret (set_a0 OPTEE_SMC_RETURN_EBUSY args)
   else
   v <- get_cloak cloak_prev_settings;;
   cpu_spin_unlock_cloak;;;
   ret (set_a0 OPTEE_SMC_RETURN_OK (set_a1 v args))).

Definition cloak_entry (events : list (P -> P)) (smc_args : thread_smc_args) : K thread_smc_args :=
  if a0 smc_args =? OPTEE_SMC_CLOAK_SET then cloak_entry_set events smc_args
  else if a1 smc_args =? OPTEE_SMC_CLOAK_GET then cloak_entry_get smc_args
  else ret (set_a0 OPTEE_SMC_RETURN_EBADCMD smc_args).
End entry.
