(* ===== verification/Drivers.v ===== *)
(** * Tying the drivers together

    The dispatch tables of the running system: which operations a chip has,
    which function runs for an interrupt handler, which check belongs to a
    region and which function is called for a key.  The chip layer and the
    emulator were verified against the interfaces; here they get their
    implementations. *)

From stdpp Require Import prelude gmap list strings.
From Stdlib Require Import ZArith Lia.
From S2P Require Import Prelude Platform State Frame CoreMmu Csu Emulation Interrupt Gic Gpio Dt Protection GpioKeys Fb Entry.
#[local] Open Scope Z_scope.
#[local] Open Scope kernel_scope.

#[global] Instance cloak_buttons {P} : ButtonClients P := { cloak_on_press := cloak_button_press_handler }.
#[global] Instance cloak_buttons_consume {P} : DialogueConsumes P.
Proof.
  split. intros code s. cbn [cloak_on_press cloak_buttons]. unfold cloak_button_press_handler.
  apply wp_bind. destruct (code =? KEY_HOMEPAGE); [|destruct (code =? KEY_BACK)];
    [apply wp_modify|apply wp_modify|apply wp_ret]; by apply wp_ret.
Qed.

#[global] Instance emu_drivers {P} `{Platform P, Config} : EmuClients P :=
  { gpio_check := gpio_emu_check; fb_check := fb_emu_check }.

Definition ops_table {P} `{Platform P, Config} (o : irq_chip_ops) : irq_ops P :=
  match o with GIC_OPS => gic_ops | GPIO_OPS => gpio_irq_ops end.

Section dispatch.
Context {P : Type} {plat : Platform P} {cfg : Config}.

(** [h->handle(h)] *)
Definition call_handler `{IrqDrivers P} (h : irq_handler) : M (kernel P) irq_return :=
  match ih_handle h, ih_data h with
  | MX2_GPIO_IRQ_HANDLER, _ => mx2_gpio_irq_handler
  | MX3_GPIO_IRQ_HANDLER, DATA_PORT port => mx3_gpio_irq_handler port
  | GPIO_KEYS_HANDLER, DATA_BUTTON b => gpio_keys_handler b
  | _, _ => fault
  end.

(** The object a handler pointer designates. *)
Definition load_handler (h : handler_ptr) : M (kernel P) irq_handler :=
  match h with
  | PORT_HANDLER port => p <- get_port port;; deref (gp_handler p)
  | PORT_HANDLER_HIGH port => p <- get_port port;; deref (gp_handler_high p)
  | BUTTON_HANDLER b => pd <- get_pdata;; x <- deref (gk_buttons pd !! b);; ret (gk_gpio_irq_handler x)
  end.

(** Handlers nest: the interrupt of a port runs the handlers of its lines.
    [run_handler_at n] lets them nest [n] deep; a deeper call spins. *)
Fixpoint run_handler_at (n : nat) (h : handler_ptr) : M (kernel P) irq_return :=
  match n with
  | O => spin
  | S n' => obj <- load_handler h;; @call_handler {| ops_of := ops_table; run_handler := run_handler_at n' |} obj
  end.
Definition drivers (n : nat) : IrqDrivers P := {| ops_of := ops_table; run_handler := run_handler_at n |}.
End dispatch.

(** ** The interrupts of the GIC are quiet in release builds

    Assertions apart, switching an interrupt of the GIC or of the GPC only
    touches the distributor. *)

Section quiet.
Context {P : Type} {plat : Platform P} {cfg : Config} (n : nat) (b : Z).
Context (Hnd : cfg_ndebug = true) (Hb : 0 <= b) (Hb' : b + 0x1000 <= 2 ^ 32).
Implicit Types s : kernel P.

Definition dist_at (s : kernel P) : Prop := gicd_base (k_gic s) = b.
Lemma dist_at_stable : plat_stable dist_at.
Proof. by intros s p Hs. Qed.

Lemma gicd_read_io_only off : 0 <= off -> off + 4 <= 0x1000 -> io_only (gicd_window b) dist_at (gicd_read off).
Proof.
  intros H0 H1. unfold gicd_read, get_gic. apply (io_only_gets_bind _ _ _ b); [done|].
  apply io_only_load; [lia|]. apply gicd_off; lia.
Qed.
Lemma gicd_write_io_only v off : 0 <= off -> off + 4 <= 0x1000 -> io_only (gicd_window b) dist_at (gicd_write v off).
Proof.
  intros H0 H1. unfold gicd_write, get_gic. apply (io_only_gets_bind _ _ _ b); [done|].
  apply io_only_store; [lia|]. apply gicd_off; lia.
Qed.
Lemma dist_idx it : 0 <= it < GIC_MAX_INTS -> 0 <= it_idx it < 32.
Proof.
  unfold it_idx, NUM_INTS_PER_REG, GIC_MAX_INTS. split; [apply Z.div_pos|apply Z.div_lt_upper_bound]; lia.
Qed.

Ltac dist_io := repeat first
  [ assumption
  | apply gicd_read_io_only; unfold GICD_IGROUPR, GICD_ISENABLER; lia
  | apply gicd_write_io_only; unfold GICD_IGROUPR, GICD_ISENABLER, GICD_ICENABLER; lia
  | apply io_only_massert_ndebug; exact Hnd
  | match goal with |- io_only _ _ (if ?c then _ else _) => destruct c end
  | apply io_only_when
  | apply io_only_ret
  | apply io_only_bind; [apply dist_at_stable| |intros ?] ].

Lemma gic_it_disable_io_only it : 0 <= it < GIC_MAX_INTS -> io_only (gicd_window b) dist_at (gic_it_disable it).
Proof. intros Hi%dist_idx. unfold gic_it_disable. dist_io. Qed.
Lemma gic_it_enable_io_only it : 0 <= it < GIC_MAX_INTS -> io_only (gicd_window b) dist_at (gic_it_enable it).
Proof. intros Hi%dist_idx. unfold gic_it_enable, assert_group0. dist_io. Qed.
Lemma gic_it_unsecure_io_only it : 0 <= it < GIC_MAX_INTS -> io_only (gicd_window b) dist_at (gic_it_unsecure it).
Proof. intros Hi%dist_idx. unfold gic_it_unsecure. dist_io. Qed.
Lemma gic_it_set_prio_io_only it prio : 0 <= it < GIC_MAX_INTS -> io_only (gicd_window b) dist_at (gic_it_set_prio it prio).
Proof.
  intros Hi. unfold gic_it_set_prio, assert_group0. apply io_only_bind; [apply dist_at_stable|dist_io|intros _].
  unfold get_gic. apply (io_only_gets_bind _ _ _ b); [done|]. apply io_only_store; [lia|].
  unfold GICD_IPRIORITYR, GIC_MAX_INTS in *. rewrite <- Z.add_assoc. apply gicd_off; lia.
Qed.
Lemma gic_it_secure_io_only it : 0 <= it < GIC_MAX_INTS -> io_only (gicd_window b) dist_at (gic_it_secure it).
Proof.
  intros Hi. pose proof (dist_idx it Hi). pose proof (gic_it_set_prio_io_only it 1 Hi) as Hp.
  unfold gic_it_secure. set (m := gic_it_set_prio it 1) in *. dist_io.
Qed.

(** The chips of the GIC driver are constructed. *)
Definition gic_chips_ok (s : kernel P) : Prop :=
  dist_at s /\ forall c, c = CHIP_GIC \/ c = CHIP_GPC ->
    exists obj, chip_objs (k_irq s) !! c = Some obj /\ ic_ops obj = GIC_OPS /\ GIC_MAX_INTS <= ic_num_irqs obj.
Definition gic_line (d : irq_desc) : Prop :=
  (id_chip d = CHIP_GIC \/ id_chip d = CHIP_GPC) /\ 0 <= id_irq d < GIC_MAX_INTS.

Lemma gic_op_quiet (op : irq_ops P -> option (chip_ptr -> Z -> M (kernel P) Z)) (f : Z -> M (kernel P) unit) d s :
  (op gic_ops = Some (fun _ it => f it;;; ret 0)) -> gic_line d -> gic_chips_ok s ->
  io_only (gicd_window b) dist_at (f (id_irq d)) ->
  wp (c <- irq_check_valid (id_chip d) (id_irq d);;
      g <- call (op (ops_table (ic_ops c)));; g (id_chip d) (id_irq d)) s
    (fun _ s' => io_step (gicd_window b) s s').
Proof.
  intros Hop [Hc Hi] [Hd Hch] Hio. destruct (Hch _ Hc) as (obj & Ho & Hops & Hn).
  apply wp_bind. eapply wp_intro; [apply irq_check_valid_run; split; [done|lia]|].
  unfold call. rewrite Hops. cbn [ops_table]. rewrite Hop. apply wp_bind, wp_ret. apply wp_bind.
  eapply wp_mono; [|by apply Hio]. intros [] s' Hs'. by apply wp_ret.
Qed.

Lemma io_step_chips s s' W : gic_chips_ok s -> io_step W s s' -> gic_chips_ok s'.
Proof. by intros H (p & -> & _). Qed.

#[global] Instance gic_quiet en : IrqQuiet (H1:=drivers n) (gicd_window b) gic_chips_ok gic_line en.
Proof.
  split.
  - intros d s Hd Hs.
    assert (Hgo : forall s', io_step (gicd_window b) s s' -> irq_step (gicd_window b) s s' /\ gic_chips_ok s').
    { intros s' Hst. split; [|by eapply io_step_chips]. destruct Hst as (p & -> & Hp). exists p, (k_gpio s).
      split; [by destruct s|done]. }
    destruct Hd as [Hc Hi]. pose proof (conj Hc Hi : gic_line d) as Hd. unfold irq_switch. destruct en; apply wp_bind.
    + eapply wp_mono; [|apply (gic_op_quiet op_unsecure gic_it_unsecure d s); [done..|by apply gic_it_unsecure_io_only]].
      intros r s1 H1. apply wp_bind.
      eapply wp_mono; [|apply (gic_op_quiet op_enable gic_it_enable d s1); [done..|exact (io_step_chips _ _ _ Hs H1)|by apply gic_it_enable_io_only]].
      intros r' s2 H2. apply wp_ret, Hgo. exact (io_step_trans _ _ _ _ H1 H2).
    + eapply wp_mono; [|apply (gic_op_quiet op_disable gic_it_disable d s); [done..|by apply gic_it_disable_io_only]].
      intros r s1 H1. apply wp_bind.
      eapply wp_mono; [|apply (gic_op_quiet op_secure gic_it_secure d s1); [done..|exact (io_step_chips _ _ _ Hs H1)|by apply gic_it_secure_io_only]].
      intros r' s2 H2. apply wp_ret, Hgo. exact (io_step_trans _ _ _ _ H1 H2).
  - intros s s' E1 E2 _ [Hd Hch]. unfold gic_chips_ok, dist_at. by rewrite E1, E2.
Qed.
End quiet.
