(* ===== verification/Cloak.v ===== *)
(** * Correctness of the cloak service

    The contract of core/arch/arm/secloak/entry.c: what the device tree, the
    CSU and the emulator enforce after the settings were applied, and what
    the dialogue draws and decodes. *)

From stdpp Require Import prelude gmap list strings.
From Stdlib Require Import ZArith Lia.
From S2P Require Import Prelude Platform State Frame CoreMmu Csu Emulation Interrupt Gic Dt Protection GpioKeys Fb Entry Drivers.
#[local] Open Scope Z_scope.
#[local] Open Scope kernel_scope.

Definition class_pair (c : cloak_class) : string * bool := (cc_name c, cc_allow c).

Section apply.
Context {P : Type} {plat : Platform P} {cfg : Config} {drv : IrqDrivers P}.
Context (R : Z -> Prop) {regs : PlainRegs P R} (hok : P -> Prop) {heap : HeapAvailable P hok}.
Context (W : bool -> Z -> Z -> Prop) (Iok : kernel P -> Prop) (D : irq_desc -> Prop).
Context {quiet_off : IrqQuiet W Iok D false} {quiet_on : IrqQuiet W Iok D true}.
Context (cb : Z) (c0 : Z -> Z) (m0 : region -> Z) (dv0 : gmap dev_ptr device).
Context (t : list (list dev_ptr)) (n : dev_ptr).
Implicit Types s : kernel P.

(** The device table is well formed: 128 buckets that hold every probed
    device at most once. *)
Record table_ok : Prop := {
  tk_len : length t = 128%nat;
  tk_nodup : NoDup (concat t);
  tk_devs : Forall (fun d => is_Some (dv0 !! d) /\ (d < n)%nat) (concat t);
}.

Lemma table_of_frame s s' : dt_frame s s' -> table_of t n s -> table_of t n s'.
Proof. intros (_ & H1 & H2) [H3 H4]. split; congruence. Qed.

Lemma enable_pass (names : list string) E s :
  table_ok -> prot_static R W D cb c0 m0 dv0 -> prot hok Iok cb c0 m0 dv0 E s -> table_of t n s ->
  wp (for_each names (fun nm => dt_enable_class nm true)) s (fun _ s' =>
    prot hok Iok cb c0 m0 dv0 (a_enable_all dv0 (concat t) names E) s' /\ dt_frame s s').
Proof.
  intros [Hl Hn Hd] Hps. revert E s. induction names as [|nm names IH]; intros E s Hp Ht; cbn [for_each].
  { apply wp_ret. split; [done|apply dt_frame_refl]. }
  apply wp_bind. eapply wp_mono; [|by apply (dt_enable_class_spec R hok W Iok D cb c0 m0 dv0 (en:=true) nm t n E s)].
  intros [] s1 [Hp1 Hf1]. eapply wp_mono; [|apply (IH _ s1 Hp1); by eapply table_of_frame].
  intros [] s2 [Hp2 Hf2]. split; [exact Hp2|by eapply dt_frame_trans].
Qed.

Lemma deny_pass (classes : list cloak_class) E s :
  table_ok -> prot_static R W D cb c0 m0 dv0 -> prot hok Iok cb c0 m0 dv0 E s -> table_of t n s ->
  wp (for_each classes (fun c => when (negb (cc_allow c)) (dt_enable_class (cc_name c) false))) s (fun _ s' =>
    prot hok Iok cb c0 m0 dv0 (a_deny dv0 (concat t) (class_pair <$> classes) E) s' /\ dt_frame s s').
Proof.
  intros [Hl Hn Hd] Hps. revert E s. induction classes as [|[nm al] cs IH]; intros E s Hp Ht; cbn [for_each].
  { apply wp_ret. split; [done|apply dt_frame_refl]. }
  apply wp_bind. cbn [cc_name cc_allow]. apply wp_when. destruct al; cbn [negb].
  { by apply IH. }
  eapply wp_mono; [|by apply (dt_enable_class_spec R hok W Iok D cb c0 m0 dv0 (en:=false) nm t n E s)].
  intros [] s1 [Hp1 Hf1]. eapply wp_mono; [|apply (IH _ s1 Hp1); by eapply table_of_frame].
  intros [] s2 [Hp2 Hf2]. split; [exact Hp2|by eapply dt_frame_trans].
Qed.

Lemma cloak_apply_spec (classes : list cloak_class) E s :
  table_ok -> prot_static R W D cb c0 m0 dv0 -> prot hok Iok cb c0 m0 dv0 E s -> table_of t n s ->
  wp (cloak_apply classes) s (fun _ s' =>
    prot hok Iok cb c0 m0 dv0 (a_apply dv0 (concat t) (class_pair <$> classes) E) s' /\ dt_frame s s').
Proof.
  intros Hk Hps Hp Ht. unfold cloak_apply. apply wp_bind.
  assert (Hmap : forall l s, for_each l (fun c => dt_enable_class (cc_name c) true) s =
    for_each (cc_name <$> l) (fun nm => dt_enable_class nm true) s).
  { induction l as [|c l IHl]; intros s0; [done|]. cbn. unfold bind.
    destruct (dt_enable_class (cc_name c) true s0); auto. }
  unfold wp at 1. rewrite Hmap.
  destruct (wp_elim _ _ _ (enable_pass (cc_name <$> classes) E s Hk Hps Hp Ht)) as ([] & s1 & -> & Hp1 & Hf1).
  eapply wp_mono; [|apply (deny_pass classes _ s1 Hk Hps Hp1); by eapply table_of_frame].
  intros [] s2 [Hp2 Hf2]. split; [|by eapply dt_frame_trans].
  unfold a_apply. replace ((class_pair <$> classes).*1) with (cc_name <$> classes); [exact Hp2|].
  rewrite <- list_fmap_compose. by apply list_fmap_ext.
Qed.

Lemma class_pair_names (classes : list cloak_class) : (class_pair <$> classes).*1 = cc_name <$> classes.
Proof. rewrite <- list_fmap_compose. by apply list_fmap_ext. Qed.
Lemma table_devices : table_ok -> Forall (fun d => is_Some (dv0 !! d)) (concat t).
Proof. intros Hk. eapply Forall_impl; [apply (tk_devs Hk)|]. by intros d [? _]. Qed.
(** Which devices are off when the settings are applied. *)
Lemma cloak_apply_off (classes : list cloak_class) E i v :
  table_ok -> prot_static R W D cb c0 m0 dv0 -> justified dv0 (concat t) (cc_name <$> classes) E -> dv0 !! i = Some v ->
  a_apply dv0 (concat t) (class_pair <$> classes) E i = false <->
  exists nm d, CloakClass nm false ∈ classes /\ d ∈ concat t /\ has_class dv0 d nm = true /\ i ∈ chain_of dv0 d.
Proof.
  intros Hk Hps HJ Hi. pose proof (static_parents R W D cb c0 m0 dv0 Hps) as Hpo. pose proof (table_devices Hk) as HL.
  rewrite <- class_pair_names in HJ. rewrite a_apply_exact by (done || by rewrite Hi).
  rewrite negb_false_iff, denied_iff. f_equiv. intros nm. f_equiv. intros d. rewrite list_elem_of_fmap. split.
  - intros (([nm' al] & [= -> ->] & Hin) & ?). done.
  - intros (Hin & ?). split; [|done]. by exists (CloakClass nm false).
Qed.
End apply.

(** C1: applying confirmed settings enforces them.  From any state that
    enforces some earlier settings, [cloak_apply] returns; afterwards a device
    is disabled exactly when it lies on the chain from a device of a denied
    class to its first protectable ancestor; every disabled device that can be
    protected is shut (its CSU fields deny the non-secure world and the
    emulator denies its registers); every CSU field that belongs to no
    disabled device is open; and the state again enforces its settings, so
    the next call finds the same guarantees. *)
Theorem cloak_apply_enforces {P} `{Platform P, Config, drv : !IrqDrivers P}
    (R : Z -> Prop) `{!PlainRegs P R} (hok : P -> Prop) `{!HeapAvailable P hok}
    (W : bool -> Z -> Z -> Prop) (Iok : kernel P -> Prop) (D : irq_desc -> Prop)
    `{!IrqQuiet W Iok D false, !IrqQuiet W Iok D true}
    cb c0 m0 dv0 t n (classes : list cloak_class) E (s : kernel P) :
  table_ok dv0 t n -> prot_static R W D cb c0 m0 dv0 -> prot hok Iok cb c0 m0 dv0 E s -> table_of t n s ->
  justified dv0 (concat t) (cc_name <$> classes) E ->
  wp (cloak_apply classes) s (fun _ s' => exists E',
    prot hok Iok cb c0 m0 dv0 E' s' /\ table_of t n s' /\ justified dv0 (concat t) (cc_name <$> classes) E' /\
    (forall i v, dv0 !! i = Some v ->
       device_objs (k_dt s') !! i = Some (set_dv_enabled (E' i) v) /\
       (E' i = false <-> exists nm d, CloakClass nm false ∈ classes /\ d ∈ concat t /\
                           has_class dv0 d nm = true /\ i ∈ chain_of dv0 d) /\
       (E' i = false -> can_protect v = true -> shut s' v)) /\
    (forall csl, 0 <= csl < MAX_CSL -> c0 csl = 0 ->
       (forall i v, dv0 !! i = Some v -> E' i = false -> can_protect v = true -> csl ∉ dv_csu v) ->
       csl_field (k_plat s') (csu_base (k_csu s')) csl = 0xFF)).
Proof.
  intros Hk Hps Hp Ht HJ.
  pose proof (table_devices dv0 t n Hk) as HL. pose proof (static_parents R W D cb c0 m0 dv0 Hps) as Hpo.
  eapply wp_mono; [|by apply (cloak_apply_spec R hok W Iok D cb c0 m0 dv0 t n classes E s)].
  intros [] s' [Hp' Hf]. exists (a_apply dv0 (concat t) (class_pair <$> classes) E).
  split_and!.
  - exact Hp'.
  - by eapply table_of_frame.
  - rewrite <- class_pair_names in HJ |- *. by apply a_apply_justified.
  - intros i v Hi. split_and!.
    + by rewrite (pt_objs _ _ _ _ _ _ _ _ Hp'), rep_lookup, Hi.
    + by apply (cloak_apply_off R W D cb c0 m0 dv0 t n classes E i v).
    + intros Hoff Hcp. by apply (prot_shut R hok W Iok D cb c0 m0 dv0 _ s' i v Hps Hp').
  - intros csl Hcsl Hc0 Hnone. by apply (prot_open R hok W Iok D cb c0 m0 dv0 _ s' csl Hps Hp').
Qed.

(** ** A small board

    A WLAN module of class "wifi" without protection of its own behind an SD
    host controller, and a GPS receiver on a UART; the interrupts of both are
    GIC lines.  The CSU is open and no region is denied. *)

Definition board_cfg : Config := {| cfg_ndebug := true |}.
Definition board_line (it : Z) : irq_info := IrqInfo (IrqDesc CHIP_GPC it) 4.
Definition board_devices : gmap dev_ptr device := list_to_map
  [ (0%nat, Device 0 0 "soc" None RESOURCE_OTHER [] [] [] [] true true);
    (1%nat, Device 400 1 "usdhc" (Some 0%nat) RESOURCE_MEM [Resource [0x02190000] [0x4000]] [board_line 54] [12] [] true false);
    (2%nat, Device 800 2 "wlan" (Some 1%nat) RESOURCE_OTHER [] [] [] ["wifi"] true false);
    (3%nat, Device 900 3 "uart" (Some 0%nat) RESOURCE_MEM [Resource [0x021E8000] [0x4000]] [board_line 59] [26] ["gps"] true false) ].
Definition board_table : list (list dev_ptr) := [[3]; [2; 1]; []; [0]]%nat ++ replicate 124 [].
Definition board : kernel bigram :=
  set_k_dt (DtData board_table board_devices 4)
  (set_k_irq (IrqData [CHIP_GPC; CHIP_GIC] (list_to_map
     [(CHIP_GIC, IrqChip 0 GIC_OPS 1020 false []); (CHIP_GPC, IrqChip 0 GIC_OPS 1020 false [])]))
  (set_k_gic (GicData 0x00A00100 0x00A01000 160)
  (set_k_csu csu_open_data (kernel_init csu_open_regs)))).

Definition board_classes : list cloak_class := [CloakClass "wifi" false; CloakClass "gps" true].

Lemma board_dev i v : board_devices !! i = Some v ->
  (i, v) ∈ map_to_list board_devices.
Proof. by rewrite elem_of_map_to_list. Qed.
(** Membership in a concrete list. *)
Ltac by_decide := apply (bool_decide_unpack _); vm_compute; exact I.
Ltac board_cases H :=
  apply board_dev in H; vm_compute in H;
  repeat (apply elem_of_cons in H as [H|H]; [injection H as -> ->|]); [..|by apply elem_of_nil in H].

Lemma board_table_ok : table_ok board_devices board_table 4.
Proof.
  split; [done| |].
  - by_decide.
  - by_decide.
Qed.

Lemma board_static :
  prot_static (fun _ => True) (gicd_window 0x00A01000) gic_line 0x021C0000 (fun _ => 0) (fun _ => 0) board_devices.
Proof.
  split; [lia|done| |done|done|].
  - intros a k b n [(i & Hi & ->)| ->] [H1 H2]; unfold apart; lia.
  - intros i v Hi. board_cases Hi; split; cbn; try by_decide;
      try (repeat constructor; cbn; unfold GIC_MAX_INTS, MAX_CSL; (lia || (by eexists) || tauto)); intros q Hq; try done;
      injection Hq as <-; (split; [lia|by eexists]).
Qed.

Lemma board_prot :
  prot (fun _ => True) (gic_chips_ok 0x00A01000) 0x021C0000 (fun _ => 0) (fun _ => 0) board_devices (fun _ => true) board.
Proof.
  assert (Hheld : forall f, (forall v, dv_enabled v = true -> f v = 0) -> total f (device_objs (k_dt board)) = 0).
  { intros f Hf. apply total_zero. intros i v Hi. apply Hf. cbn in Hi. board_cases Hi; done. }
  split.
  - vm_compute. reflexivity.
  - by apply csu_open_ok.
  - done.
  - intros csl Hc. rewrite Hheld; [|intros v Hv; unfold held_csl, holds; by rewrite Hv].
    unfold csl_count, MAX_CSL in *. cbn [board k_csu set_k_csu set_k_dt set_k_irq set_k_gic csu_open_data csu_csl_counts].
    rewrite lookup_total_replicate_2 by lia. lia.
  - intros rg. rewrite Hheld; [done|]. intros v Hv. unfold held_region, holds. by rewrite Hv.
  - intros csl Hc. vm_compute. reflexivity.
  - done.
  - split; [done|]. intros c [-> | ->]; (eexists; split; [vm_compute; reflexivity|]; split; [done|unfold GIC_MAX_INTS; cbn; lia]).
Qed.

Lemma cloak_apply_enforces_witness :
  exists s', @cloak_apply _ _ board_cfg (@drivers _ _ board_cfg 4) board_classes board = Ret tt s' /\
    csl_field (k_plat s') 0x021C0000 12 = 0x33 /\ csl_field (k_plat s') 0x021C0000 26 = 0xFF /\
    Region 0x02190000 0x4000 EMU_DENY_ALL ∈ regions (k_emu s').
Proof.
  pose proof board_cfg as Hc.
  destruct (wp_elim _ _ _ (@cloak_apply_enforces _ _ board_cfg (drivers 4) (fun _ => True) _ (fun _ => True) _
    (gicd_window 0x00A01000) (gic_chips_ok 0x00A01000) gic_line
    (@gic_quiet _ _ board_cfg 4 0x00A01000 eq_refl ltac:(lia) ltac:(lia) false)
    (@gic_quiet _ _ board_cfg 4 0x00A01000 eq_refl ltac:(lia) ltac:(lia) true)
    0x021C0000 (fun _ => 0) (fun _ => 0) board_devices board_table 4 board_classes (fun _ => true) board
    board_table_ok board_static board_prot (conj eq_refl eq_refl) ltac:(intros i _ [=])))
    as ([] & s' & Hr & E' & Hp & _ & _ & Hdev & Hopen).
  pose proof (pt_cb _ _ _ _ _ _ _ _ Hp) as Hcb.
  exists s'. split; [exact Hr|].
  destruct (Hdev 1%nat _ eq_refl) as (_ & Hoff & Hshut).
  destruct (Hshut (proj2 Hoff ltac:(exists "wifi", 2%nat; split_and!; [left|by_decide|done|by_decide])) eq_refl)
    as [Hfield Hregion].
  rewrite Hcb in Hfield, Hopen. split_and!.
  - apply Hfield. vm_compute. left.
  - apply Hopen; [unfold MAX_CSL; lia|done|]. intros i v Hi Hd Hcp.
    assert (Hi' := Hi). board_cases Hi'; try by_decide.
    exfalso. destruct (Hdev 3%nat _ eq_refl) as (_ & Hoff3 & _). apply Hoff3 in Hd as (nm & d & Hin & Hd & Hcl & Hch).
    unfold board_classes in Hin. apply elem_of_cons in Hin as [[= ->]|Hin]; [|by apply list_elem_of_singleton in Hin].
    vm_compute in Hd.
    repeat (apply elem_of_cons in Hd as [->|Hd]; [try (by vm_compute in Hcl); apply (bool_decide_eq_true_2 _) in Hch; by vm_compute in Hch|]).
    by apply elem_of_nil in Hd.
  - apply Hregion. vm_compute. left.
Defined.

(** ** The dialogue *)

(** C25: the user's answer decides.  Unless it is "allow", nothing but the
    pixels of the secure frame buffer changes: no device, CSU field, region or
    recorded setting.  When it is "allow" the settings are applied and recorded,
    and then only the frame buffer changes. *)
Theorem cloak_decide_outcome {P} `{Platform P, Config, drv : !IrqDrivers P}
    (fb : fb_info) (v : Z) (classes : list cloak_class) (s : kernel P) :
  fb_fits fb ->
  (cloak_confirm_status (k_cloak s) <> CLOAK_CONFIRM_ALLOW ->
     wp (cloak_decide fb v classes) s (fun _ s' => io_step (clear_window fb) s s')) /\
  (cloak_confirm_status (k_cloak s) = CLOAK_CONFIRM_ALLOW ->
     forall s1, cloak_apply classes s = Ret tt s1 ->
     wp (cloak_decide fb v classes) s (fun _ s' =>
       io_step (clear_window fb) (set_k_cloak (set_cloak_prev_settings v (k_cloak s1)) s1) s')).
Proof.
  intros Hf. unfold cloak_decide, get_cloak. split.
  - intros Hst. apply wp_bind, wp_gets. rewrite (proj2 (Z.eqb_neq _ _)) by done. by apply fb_clear_io_only.
  - intros Hst s1 Hs1. apply wp_bind, wp_gets. rewrite Hst. cbn [Z.eqb CLOAK_CONFIRM_ALLOW Pos.eqb].
    apply wp_bind. eapply wp_intro; [exact Hs1|]. apply wp_bind, wp_modify. by apply fb_clear_io_only.
Qed.

Lemma cloak_decide_outcome_witness :
  exists s', @cloak_decide _ _ board_cfg (@drivers _ _ board_cfg 4) (FbInfo 0x1000 2 2 6 [] []) 7 board_classes board = Ret tt s' /\
    k_csu s' = k_csu board.
Proof.
  pose proof board_cfg.
  destruct (@cloak_decide_outcome _ _ board_cfg (@drivers _ _ board_cfg 4) (FbInfo 0x1000 2 2 6 [] []) 7 board_classes board) as [Hdeny _].
  { split; cbn; unfold is_u32; lia. }
  destruct (wp_elim _ _ _ (Hdeny ltac:(discriminate))) as ([] & s' & Hr & p & -> & _).
  eexists. split; [exact Hr|done].
Defined.

(** Images that are linked below the top of the address space. *)
Definition images_linked `{Images} : Prop := forall name, 0 <= image_data name /\ image_data name + 3 * 128 * 800 <= 2 ^ 32.

Section draw.
Context {P : Type} {plat : Platform P} {cfg : Config} {imgs : Images}.
Context (fb : fb_info) (Hfb : fb_fits fb) (Himg : images_linked).
Implicit Types s : kernel P.

(** Stores inside the frame buffer; loads are not restricted. *)
Definition draw_window (k : bool) (a n : Z) : Prop := k = true -> clear_window fb k a n.

Lemma fb_blit_image_io_only x y name w h :
  0 <= x -> 0 <= y -> x <= 2048 -> 0 <= w <= 128 -> 0 <= h <= 800 ->
  io_only (P:=P) draw_window (fun _ => True) (fb_blit_image fb x y (img name w h)).
Proof.
  intros Hx Hy Hx2 Hw Hh s Hs. unfold fb_blit_image. cbn [img im_buffer im_width im_height].
  destruct (Himg name) as [H0 H1].
  assert (3 * w * h <= 3 * 128 * 800) by nia.
  eapply wp_mono; [|apply fb_blit_io_only; [exact Hfb|lia..|done]].
  intros [] s' (p & -> & Hp). exists p. split; [done|]. eapply io_path_mono; [|exact Hp].
  intros k a n Hw' ->. by split.
Qed.

(** The setting's second bit is what the class is allowed. *)
Lemma cloak_blit_device_spec v st s :
  st ∈ settings -> wp (cloak_blit_device fb (Z.land (Z.shiftr v (st_shift st)) 3) (st_x st) (st_switches st) (st_icons st)) s
    (fun allow s' => allow = Z.testbit v (st_shift st + 1) /\ io_step draw_window s s').
Proof.
  intros Hst. unfold cloak_blit_device. set (bits := Z.land _ 3).
  assert (Hb : bits = 0 \/ bits = 1 \/ bits = 2 \/ bits = 3).
  { assert (0 <= bits < 4); [|lia]. unfold bits. change 3 with (Z.ones 2). rewrite Z.land_ones by lia. apply Z.mod_pos_bound. lia. }
  assert (Hal : truth (Z.land bits 2) = Z.testbit v (st_shift st + 1)).
  { change 2 with (bit32 1). rewrite truth_land_bit by lia. unfold bits. rewrite Z.land_spec, Z.shiftr_spec by lia.
    rewrite andb_true_r. f_equal. lia. }
  assert (Hsw : exists n1, st_switches st !! Z.to_nat bits = Some (img n1 64 192)).
  { repeat (apply elem_of_cons in Hst as [->|Hst]; [cbn; destruct Hb as [->|[->|[->| ->]]]; eexists; reflexivity|]). by apply elem_of_nil in Hst. }
  assert (Hic : exists n2, st_icons st !! Z.to_nat 1 = Some (img n2 64 192)).
  { clear -Hst. repeat (apply elem_of_cons in Hst as [->|Hst]; [eexists; reflexivity|]). by apply elem_of_nil in Hst. }
  assert (Hx : 0 <= st_x st <= 2048).
  { clear -Hst. repeat (apply elem_of_cons in Hst as [->|Hst]; [cbn; lia|]). by apply elem_of_nil in Hst. }
  destruct Hsw as [n1 Hn1], Hic as [n2 Hn2].
  apply wp_bind. eapply wp_intro; [apply aget_run; [lia|exact Hn1]|]. apply wp_bind.
  eapply wp_mono; [|by apply fb_blit_image_io_only; lia]. intros [] s1 H1.
  apply wp_bind. eapply wp_intro; [apply aget_run; [lia|exact Hn2]|]. apply wp_bind.
  eapply wp_mono; [|by apply fb_blit_image_io_only; lia]. intros [] s2 H2.
  apply wp_ret. split; [exact Hal|]. exact (io_step_trans _ _ _ _ H1 H2).
Qed.

Definition class_of (v : Z) (st : setting) : cloak_class := CloakClass (st_name st) (Z.testbit v (st_shift st + 1)).

Lemma blit_settings_spec v l s :
  l ⊆ settings -> wp (blit_settings fb v l) s (fun cs s' => cs = class_of v <$> l /\ io_step draw_window s s').
Proof.
  revert s. induction l as [|st l IH]; intros s Hl; cbn [blit_settings].
  { apply wp_ret. split; [done|apply io_step_refl]. }
  apply wp_bind. eapply wp_mono; [|apply cloak_blit_device_spec; apply Hl; left]. intros allow s1 [-> H1].
  apply wp_bind. eapply wp_mono; [|apply IH; intros x Hx; apply Hl; by right]. intros cs s2 [-> H2].
  apply wp_ret. split; [done|]. exact (io_step_trans _ _ _ _ H1 H2).
Qed.

Definition valid_group (g : Z) : bool := bool_decide (g ∈ [GROUP_DIS_OFF; GROUP_DIS_CUSTOM; GROUP_EN_OFF; GROUP_EN_ON; GROUP_EN_CUSTOM]).
Definition group_of (v shift : Z) : Z := Z.land (Z.shiftr v shift) 7.

Lemma cloak_is_group_enabled_run g s :
  cloak_is_group_enabled g s = if valid_group g then Ret (Z.testbit g 0) s else Panic.
Proof.
  unfold cloak_is_group_enabled, valid_group.
  destruct (Z.eqb_spec g GROUP_DIS_OFF) as [->|]; [done|]. destruct (Z.eqb_spec g GROUP_DIS_CUSTOM) as [->|]; [done|].
  destruct (Z.eqb_spec g GROUP_EN_OFF) as [->|]; [done|]. destruct (Z.eqb_spec g GROUP_EN_ON) as [->|]; [done|].
  destruct (Z.eqb_spec g GROUP_EN_CUSTOM) as [->|]; [done|]. cbn [orb].
  rewrite bool_decide_eq_false_2; [done|]. rewrite !elem_of_cons, elem_of_nil. intuition.
Qed.

Lemma blit_entry_io_only (tbl : list image) x y i :
  0 <= x <= 2048 -> 0 <= y -> (exists name w h, tbl !! Z.to_nat i = Some (img name w h) /\ 0 <= w <= 128 /\ 0 <= h <= 800) -> 0 <= i ->
  io_only (P:=P) draw_window (fun _ => True) (im <- aget tbl i;; fb_blit_image fb x y im).
Proof.
  intros Hx Hy (name & w & h & Ht & Hw & Hh) Hi s Hs. apply wp_bind.
  eapply wp_intro; [by apply aget_run|]. by apply fb_blit_image_io_only; [lia..|].
Qed.

Lemma cloak_blit_group_spec g x s :
  0 <= x <= 2048 ->
  if valid_group g then wp (cloak_blit_group fb g x) s (fun _ s' => io_step draw_window s s')
  else cloak_blit_group fb g x s = Panic.
Proof.
  intros Hx. pose proof (cloak_is_group_enabled_run g s) as Hr.
  destruct (valid_group g) eqn:Hv; [|unfold cloak_blit_group, bind; by rewrite Hr].
  unfold valid_group in Hv. apply bool_decide_eq_true in Hv.
  unfold cloak_blit_group. apply wp_bind. eapply wp_intro; [exact Hr|]. cbv zeta.
  repeat (apply elem_of_cons in Hv as [->|Hv]; [
    apply (io_only_bind draw_window (fun _ => True)); [apply true_stable| |intros _|done];
    [apply blit_entry_io_only; [lia|lia|do 3 eexists; split; [reflexivity|lia]|done]|];
    repeat (apply (io_only_bind draw_window (fun _ => True)); [apply true_stable| |intros _];
      [apply blit_entry_io_only; [lia|lia|do 3 eexists; split; [reflexivity|lia]|done]|]);
    apply blit_entry_io_only; [lia|lia|do 3 eexists; split; [reflexivity|lia]|done]|]).
  by apply elem_of_nil in Hv.
Qed.

Lemma static_io_only : io_only (P:=P) draw_window (fun _ => True) (fb_blit_all fb display_static).
Proof.
  apply io_only_for_each; [apply true_stable|]. intros b Hb. unfold display_static in Hb.
  repeat (apply elem_of_cons in Hb as [->|Hb]; [cbn [bl_x bl_y bl_image]; apply fb_blit_image_io_only; lia|]). by apply elem_of_nil in Hb.
Qed.

(** The part of the dialogue after the individual settings. *)
Lemma blit_modes_io_only v y m :
  0 <= y -> io_only (P:=P) draw_window (fun _ => True) (im <- aget display_mode (idx (Z.land v 3 =? m));; fb_blit_image fb 148 y im).
Proof.
  intros Hy. apply blit_entry_io_only; [lia|done| |by destruct (_ =? _)].
  destruct (_ =? _); do 3 eexists; (split; [reflexivity|lia]).
Qed.

Lemma cloak_draw_run v s :
  let ok := valid_group (group_of v NETWORK_SHIFT) && valid_group (group_of v MULTIMEDIA_SHIFT) &&
            valid_group (group_of v SENSOR_SHIFT) in
  if ok then wp (cloak_draw fb v) s (fun cs s' => cs = class_of v <$> settings /\ io_step draw_window s s')
  else cloak_draw fb v s = Panic.
Proof.
  cbv zeta. unfold cloak_draw.
  destruct (wp_elim _ _ _ (static_io_only s I)) as ([] & s1 & R1 & H1).
  destruct (wp_elim _ _ _ (blit_settings_spec v settings s1 (reflexivity _))) as (cs & s2 & R2 & -> & H2).
  unfold group_of.
  pose proof (cloak_blit_group_spec (Z.land (Z.shiftr v NETWORK_SHIFT) 7) 230 s2 ltac:(lia)) as G1.
  destruct (valid_group _); cbn [andb];
    [|by rewrite (bind_run _ _ _ _ _ R1), (bind_run _ _ _ _ _ R2); unfold bind; rewrite G1].
  apply wp_elim in G1 as ([] & s3 & R3 & H3).
  pose proof (cloak_blit_group_spec (Z.land (Z.shiftr v MULTIMEDIA_SHIFT) 7) 502 s3 ltac:(lia)) as G2.
  destruct (valid_group _); cbn [andb];
    [|by rewrite (bind_run _ _ _ _ _ R1), (bind_run _ _ _ _ _ R2), (bind_run _ _ _ _ _ R3); unfold bind; rewrite G2].
  apply wp_elim in G2 as ([] & s4 & R4 & H4).
  pose proof (cloak_blit_group_spec (Z.land (Z.shiftr v SENSOR_SHIFT) 7) 776 s4 ltac:(lia)) as G3.
  destruct (valid_group _);
    [|by rewrite (bind_run _ _ _ _ _ R1), (bind_run _ _ _ _ _ R2), (bind_run _ _ _ _ _ R3), (bind_run _ _ _ _ _ R4);
         unfold bind; rewrite G3].
  apply wp_elim in G3 as ([] & s5 & R5 & H5).
  apply wp_bind. eapply wp_intro; [exact R1|]. apply wp_bind. eapply wp_intro; [exact R2|].
  apply wp_bind. eapply wp_intro; [exact R3|]. apply wp_bind. eapply wp_intro; [exact R4|].
  apply wp_bind. eapply wp_intro; [exact R5|]. cbv zeta.
  assert (H : io_step draw_window s s5).
  { exact (io_step_trans _ _ _ _ H1 (io_step_trans _ _ _ _ H2 (io_step_trans _ _ _ _ H3 (io_step_trans _ _ _ _ H4 H5)))). }
  clear - H Hfb Himg. revert H. generalize s5. intros s6 H.
  apply wp_bind. eapply wp_mono; [|by apply blit_modes_io_only]. intros [] s7 H7.
  apply wp_bind. eapply wp_mono; [|by apply blit_modes_io_only]. intros [] s8 H8.
  apply wp_bind. eapply wp_mono; [|by apply blit_modes_io_only]. intros [] s9 H9.
  apply wp_bind. eapply wp_mono; [|by apply blit_modes_io_only]. intros [] s10 H10.
  apply wp_ret. split; [done|].
  exact (io_step_trans _ _ _ _ H (io_step_trans _ _ _ _ H7 (io_step_trans _ _ _ _ H8 (io_step_trans _ _ _ _ H9 H10)))).
Qed.
End draw.

(** C26: drawing the dialogue decodes the request.  With the three group fields
    valid it returns the eight classes in order, each allowed exactly when the
    upper bit of its two-bit field is set, and every store it makes is a pixel
    of the frame buffer; a request with an invalid group field, which the
    caller controls, ends in panic(). *)
Theorem cloak_draw_decodes {P} `{Platform P, Images} (fb : fb_info) (v : Z) (s : kernel P) :
  fb_fits fb -> images_linked ->
  let ok := valid_group (group_of v NETWORK_SHIFT) && valid_group (group_of v MULTIMEDIA_SHIFT) &&
            valid_group (group_of v SENSOR_SHIFT) in
  (ok = true -> wp (cloak_draw fb v) s (fun cs s' => io_step (draw_window fb) s s' /\
     cs = (fun '(name, shift) => CloakClass name (Z.testbit v (shift + 1))) <$>
       [("wifi", 5); ("bluetooth", 7); ("cellular", 9); ("camera", 14); ("audio-out", 16); ("audio-in", 18);
        ("gps", 23); ("inertial", 25)]%string)) /\
  (ok = false -> cloak_draw fb v s = Panic).
Proof.
  intros Hf Hi. pose proof (cloak_draw_run fb Hf Hi v s) as Hr. cbv zeta in Hr |- *.
  destruct (_ && _); (split; [intros Hok|intros Hok]; try discriminate); [|exact Hr].
  eapply wp_mono; [|exact Hr]. intros cs s' [-> Hst]. by split.
Qed.

#[local] Instance demo_images : Images := { image_data _ := 0x80000000 }.
Lemma cloak_draw_decodes_witness :
  @cloak_draw bigram _ _ (FbInfo 0x1000 2 2 6 [] []) (Z.shiftl 2 NETWORK_SHIFT) board = Panic.
Proof.
  apply (cloak_draw_decodes (FbInfo 0x1000 2 2 6 [] []) (Z.shiftl 2 NETWORK_SHIFT) board).
  - split; cbn; unfold is_u32; lia.
  - intros name. cbn. lia.
  - reflexivity.
Defined.


(** ** Switching devices *)

(** C3: disabling a device shuts it and enabling it again restores what other
    holders see: after the round trip every CSU counter and field and the
    multiplicity of every emulation region are what they were. *)
Theorem dt_enable_device_roundtrip {P} `{Platform P, Config, drv : !IrqDrivers P}
    (R : Z -> Prop) `{!PlainRegs P R} (hok : P -> Prop) `{!HeapAvailable P hok}
    (W : bool -> Z -> Z -> Prop) (Iok : kernel P -> Prop) (D : irq_desc -> Prop)
    `{!IrqQuiet W Iok D false, !IrqQuiet W Iok D true}
    cb c0 m0 dv0 E d v (s : kernel P) :
  prot_static R W D cb c0 m0 dv0 -> prot hok Iok cb c0 m0 dv0 E s -> dv0 !! d = Some v -> E d = true ->
  wp (dt_enable_device d false) s (fun r1 s1 => r1 = can_protect v /\ (can_protect v = true -> shut s1 v) /\
    wp (dt_enable_device d true) s1 (fun r2 s2 => r2 = can_protect v /\
      device_objs (k_dt s2) = device_objs (k_dt s) /\
      (forall csl, 0 <= csl < MAX_CSL ->
         csl_count (k_csu s2) csl = csl_count (k_csu s) csl /\
         csl_field (k_plat s2) cb csl = csl_field (k_plat s) cb csl) /\
      (forall rg, region_mult rg (regions (k_emu s2)) = region_mult rg (regions (k_emu s))))).
Proof.
  intros Hps Hp Hd HE.
  eapply wp_mono; [|by apply (dt_enable_device_spec R hok W Iok D cb c0 m0 dv0 (en:=false) E d v s)].
  intros r1 s1 (-> & Hp1 & _). split; [done|]. split.
  { intros Hcp. apply (prot_shut R hok W Iok D cb c0 m0 dv0 _ s1 d v Hps Hp1 Hd Hcp). unfold upd. by rewrite decide_True. }
  eapply wp_mono; [|by apply (dt_enable_device_spec R hok W Iok D cb c0 m0 dv0 (en:=true) (upd d false E) d v s1)].
  intros r2 s2 (-> & Hp2 & _). split; [done|].
  assert (Hobj : device_objs (k_dt s2) = device_objs (k_dt s)).
  { rewrite (pt_objs _ _ _ _ _ _ _ _ Hp2), (pt_objs _ _ _ _ _ _ _ _ Hp). apply rep_ext. intros i _.
    unfold upd. by repeat case_decide; simplify_eq. }
  split; [done|]. split.
  - intros csl Hc.
    assert (Hcnt : csl_count (k_csu s2) csl = csl_count (k_csu s) csl)
      by (by rewrite (pt_counts _ _ _ _ _ _ _ _ Hp2 csl Hc), (pt_counts _ _ _ _ _ _ _ _ Hp csl Hc), Hobj).
    split; [done|]. pose proof (csu_ok_field _ (pt_csu _ _ _ _ _ _ _ _ Hp2) csl Hc) as H2.
    pose proof (csu_ok_field _ (pt_csu _ _ _ _ _ _ _ _ Hp) csl Hc) as H1.
    rewrite (pt_cb _ _ _ _ _ _ _ _ Hp2) in H2. rewrite (pt_cb _ _ _ _ _ _ _ _ Hp) in H1. by rewrite H1, H2, Hcnt.
  - intros rg. apply Nat2Z.inj. by rewrite (pt_regions _ _ _ _ _ _ _ _ Hp2), (pt_regions _ _ _ _ _ _ _ _ Hp), Hobj.
Qed.

Lemma dt_enable_device_roundtrip_witness :
  wp (@dt_enable_device _ _ board_cfg (@drivers _ _ board_cfg 4) 1 false) board (fun r s1 =>
    r = true /\ csl_field (k_plat s1) (csu_base (k_csu s1)) 12 = 0x33 /\
    wp (@dt_enable_device _ _ board_cfg (@drivers _ _ board_cfg 4) 1 true) s1 (fun r s2 =>
      csl_field (k_plat s2) 0x021C0000 12 = 0xFF)).
Proof.
  eapply wp_mono; [|apply (@dt_enable_device_roundtrip _ _ board_cfg (@drivers _ _ board_cfg 4) (fun _ => True) _ (fun _ => True) _
    (gicd_window 0x00A01000) (gic_chips_ok 0x00A01000) gic_line
    (@gic_quiet _ _ board_cfg 4 0x00A01000 eq_refl ltac:(lia) ltac:(lia) false)
    (@gic_quiet _ _ board_cfg 4 0x00A01000 eq_refl ltac:(lia) ltac:(lia) true)
    0x021C0000 (fun _ => 0) (fun _ => 0) board_devices (fun _ => true) 1%nat _ board board_static board_prot eq_refl eq_refl)].
  intros r s1 (-> & Hshut & Hw). split; [reflexivity|]. destruct (Hshut eq_refl) as [Hf _].
  split; [apply Hf; by_decide|]. eapply wp_mono; [|exact Hw].
  intros r2 s2 (_ & _ & Hc & _). rewrite (proj2 (Hc 12 ltac:(unfold MAX_CSL; lia))). vm_compute. reflexivity.
Defined.

(** C2: [dt_enable_class] refines the abstract switch of a class: for either
    direction, the flags it leaves are those of the abstract walk over the
    device table, and the protections keep matching the flags. *)
Theorem dt_enable_class_refines {P} `{Platform P, Config, drv : !IrqDrivers P}
    (R : Z -> Prop) `{!PlainRegs P R} (hok : P -> Prop) `{!HeapAvailable P hok}
    (W : bool -> Z -> Z -> Prop) (Iok : kernel P -> Prop) (D : irq_desc -> Prop) (en : bool) `{!IrqQuiet W Iok D en}
    cb c0 m0 dv0 t n E name (s : kernel P) :
  table_ok dv0 t n -> prot_static R W D cb c0 m0 dv0 -> prot hok Iok cb c0 m0 dv0 E s -> table_of t n s ->
  wp (dt_enable_class name en) s (fun _ s' =>
    prot hok Iok cb c0 m0 dv0 (a_class dv0 (concat t) name en E) s' /\ table_of t n s' /\ dev_frame s s').
Proof.
  intros [Hl Hn Hd] Hps Hp Ht.
  eapply wp_mono; [|by apply (dt_enable_class_spec R hok W Iok D cb c0 m0 dv0 (en:=en) name t n E s)].
  intros [] s' [Hp' Hf]. split; [exact Hp'|]. split; [by eapply table_of_frame|apply Hf].
Qed.

Lemma dt_enable_class_refines_witness :
  wp (@dt_enable_class _ _ board_cfg (@drivers _ _ board_cfg 4) "wifi" false) board (fun _ s' =>
    dv_enabled <$> device_objs (k_dt s') !! 1%nat = Some false /\ dv_enabled <$> device_objs (k_dt s') !! 3%nat = Some true).
Proof.
  eapply wp_mono; [|apply (@dt_enable_class_refines _ _ board_cfg (@drivers _ _ board_cfg 4) (fun _ => True) _ (fun _ => True) _
    (gicd_window 0x00A01000) (gic_chips_ok 0x00A01000) gic_line false
    (@gic_quiet _ _ board_cfg 4 0x00A01000 eq_refl ltac:(lia) ltac:(lia) false)
    0x021C0000 (fun _ => 0) (fun _ => 0) board_devices board_table 4 (fun _ => true) "wifi" board
    board_table_ok board_static board_prot (conj eq_refl eq_refl))].
  intros [] s' (Hp & _). rewrite (pt_objs _ _ _ _ _ _ _ _ Hp), !rep_lookup. split; vm_compute; reflexivity.
Defined.

(** The board with an exhausted heap. *)
Definition poor_board : kernel ram :=
  set_k_dt (DtData board_table board_devices 4)
  (set_k_irq (k_irq board) (set_k_gic (k_gic board) (set_k_csu csu_open_data
    (kernel_init (mk_ram (bigram_cells csu_open_regs) 0))))).

(** Disabling a device ignores a failed allocation of its emulation
    region: with an exhausted heap the device is reported and marked disabled
    although no region denies it. *)
Theorem dt_enable_device_ignores_enomem :
  exists s', @dt_enable_device _ _ board_cfg (@drivers _ _ board_cfg 4) 1 false poor_board = Ret true s' /\
    dv_enabled <$> device_objs (k_dt s') !! 1%nat = Some false /\ regions (k_emu s') = [].
Proof. eexists. split; [vm_compute; reflexivity|]. split; reflexivity. Qed.
