(* ===== verification/Thread.v ===== *)
(** * Threads (arch/arm/kernel/thread.c)

    The table of threads, the per-core data and the exception mask, with the
    operations of thread.c and spin_lock_debug.c, the life of a standard call
    from the vector table to the return to the monitor, and a step relation in
    which the cores interleave.  The function a core runs in a standard call is
    the parameter [smc_handler] (the source calls it through a pointer). *)

From stdpp Require Import prelude list functions.
From Stdlib Require Import ZArith Lia.
From S2P Require Import Prelude State.
#[local] Open Scope Z_scope.
#[local] Open Scope kernel_scope.

(** ** Constants *)

Definition ARM32_CPSR_T : Z := 0x20.
Definition ARM32_CPSR_F_SHIFT : Z := 6.
Definition ARM32_CPSR_F : Z := 0x40.
Definition ARM32_CPSR_I : Z := 0x80.
Definition ARM32_CPSR_A : Z := 0x100.
Definition ARM32_CPSR_E : Z := 0x200.
Definition ARM32_CPSR_FIA : Z := Z.lor ARM32_CPSR_F (Z.lor ARM32_CPSR_I ARM32_CPSR_A).
Definition CPSR_MODE_SVC : Z := 0x13.

Definition THREAD_EXCP_FOREIGN_INTR : Z := Z.shiftr ARM32_CPSR_I ARM32_CPSR_F_SHIFT.
Definition THREAD_EXCP_NATIVE_INTR : Z := Z.shiftr ARM32_CPSR_F ARM32_CPSR_F_SHIFT.
Definition THREAD_EXCP_ALL : Z :=
  Z.lor (Z.lor THREAD_EXCP_FOREIGN_INTR THREAD_EXCP_NATIVE_INTR)
        (Z.shiftr ARM32_CPSR_A ARM32_CPSR_F_SHIFT).

Definition THREAD_FLAGS_COPY_ARGS_ON_RETURN : Z := 1.
Definition THREAD_FLAGS_FOREIGN_INTR_ENABLE : Z := 2.

Definition OPTEE_SMC_RETURN_ETHREAD_LIMIT : Z := 1.

Definition STACK_ALIGNMENT : Z := 64.
(** [sizeof(struct sm_ctx)] and the offset of its second context: a pad word
    and two contexts of 33 words. *)
Definition SM_CTX_SIZE : Z := 4 * (1 + 33 + 33).
Definition SM_CTX_NSEC : Z := 4 * (1 + 33).
Definition SM_STACK_TMP_RESERVE_SIZE : Z := SM_CTX_SIZE.
Definition STACK_TMP_OFFS : Z := SM_STACK_TMP_RESERVE_SIZE.
Definition STACK_TMP_SIZE : Z := 1536 + STACK_TMP_OFFS.
Definition STACK_THREAD_SIZE : Z := 8192.
Definition STACK_ABT_SIZE : Z := 2048.
Definition START_CANARY_VALUE : Z := 0xdededede.
Definition END_CANARY_VALUE : Z := 0xabababab.

(** ** Data *)

Inductive thread_state := THREAD_STATE_FREE | THREAD_STATE_SUSPENDED | THREAD_STATE_ACTIVE.
#[global] Instance thread_state_eq_dec : EqDecision thread_state.
Proof. solve_decision. Defined.

Record thread_ctx_regs := mk_regs {
  r0 : Z; r1 : Z; r2 : Z; r3 : Z; r4 : Z; r5 : Z; r6 : Z; r7 : Z;
  r8 : Z; r9 : Z; r10 : Z; r11 : Z; r12 : Z;
  usr_sp : Z; usr_lr : Z; svc_spsr : Z; svc_sp : Z; svc_lr : Z;
  pc : Z; cpsr : Z;
}.

(** [sess_stack] of the thread specific data is only ever initialised: it is
    kept as whether [TAILQ_INIT] was done. *)
Record thread_ctx := mk_ctx {
  regs : thread_ctx_regs;
  state : thread_state;
  stack_va_end : Z;
  hyp_clnt_id : Z;
  flags : Z;
  tsd_sess_stack_init : bool;
}.

Record thread_core_local := mk_local {
  tmp_stack_va_end : Z;
  curr_thread : Z;
  locked_count : Z;
}.

(** The registers of a core that thread.c touches. *)
Record core_regs := mk_core_regs { core_cpsr : Z; irq_sp : Z; fiq_sp : Z; abt_sp : Z; mon_sp : Z }.

Record thread_handlers := mk_handlers {
  std_smc : Z; fast_smc : Z; nintr : Z;
  cpu_on : Z; cpu_off : Z; cpu_suspend : Z; cpu_resume : Z;
  system_off : Z; system_reset : Z;
}.

(** [world] is the state of the rest of the kernel, which only the handlers of
    calls touch. *)
Record tstate (W : Type) := mk_tstate {
  threads : list thread_ctx;
  core_locals : list thread_core_local;
  cores : list core_regs;
  thread_global_lock : Z;
  handlers : thread_handlers;
  stack_tmp : list (list Z);
  stack_abt : list (list Z);
  stack_thread : list (list Z);
  world : W;
}.
Arguments threads {W} _.
Arguments core_locals {W} _.
Arguments cores {W} _.
Arguments thread_global_lock {W} _.
Arguments handlers {W} _.
Arguments stack_tmp {W} _.
Arguments stack_abt {W} _.
Arguments stack_thread {W} _.
Arguments world {W} _.
Arguments mk_tstate {W} _ _ _ _ _ _ _ _ _.

Definition set_regs (f : thread_ctx_regs -> thread_ctx_regs) (t : thread_ctx) : thread_ctx :=
  mk_ctx (f (regs t)) (state t) (stack_va_end t) (hyp_clnt_id t) (flags t) (tsd_sess_stack_init t).
Definition set_state (v : thread_state) (t : thread_ctx) : thread_ctx :=
  mk_ctx (regs t) v (stack_va_end t) (hyp_clnt_id t) (flags t) (tsd_sess_stack_init t).
Definition set_stack_va_end (v : Z) (t : thread_ctx) : thread_ctx :=
  mk_ctx (regs t) (state t) v (hyp_clnt_id t) (flags t) (tsd_sess_stack_init t).
Definition set_hyp_clnt_id (v : Z) (t : thread_ctx) : thread_ctx :=
  mk_ctx (regs t) (state t) (stack_va_end t) v (flags t) (tsd_sess_stack_init t).
Definition set_flags (f : Z -> Z) (t : thread_ctx) : thread_ctx :=
  mk_ctx (regs t) (state t) (stack_va_end t) (hyp_clnt_id t) (f (flags t)) (tsd_sess_stack_init t).
Definition set_sess_stack_init (t : thread_ctx) : thread_ctx :=
  mk_ctx (regs t) (state t) (stack_va_end t) (hyp_clnt_id t) (flags t) true.

Definition set_curr_thread (v : Z) (l : thread_core_local) : thread_core_local :=
  mk_local (tmp_stack_va_end l) v (locked_count l).
Definition set_locked_count (f : Z -> Z) (l : thread_core_local) : thread_core_local :=
  mk_local (tmp_stack_va_end l) (curr_thread l) (f (locked_count l)).
Definition set_tmp_stack_va_end (v : Z) (l : thread_core_local) : thread_core_local :=
  mk_local v (curr_thread l) (locked_count l).

Definition set_core_cpsr (v : Z) (r : core_regs) : core_regs :=
  mk_core_regs v (irq_sp r) (fiq_sp r) (abt_sp r) (mon_sp r).

Definition upd_threads {W} (f : list thread_ctx -> list thread_ctx) (s : tstate W) : tstate W :=
  mk_tstate (f (threads s)) (core_locals s) (cores s) (thread_global_lock s) (handlers s)
    (stack_tmp s) (stack_abt s) (stack_thread s) (world s).
Definition upd_core_locals {W} (f : list thread_core_local -> list thread_core_local) (s : tstate W) : tstate W :=
  mk_tstate (threads s) (f (core_locals s)) (cores s) (thread_global_lock s) (handlers s)
    (stack_tmp s) (stack_abt s) (stack_thread s) (world s).
Definition upd_cores {W} (f : list core_regs -> list core_regs) (s : tstate W) : tstate W :=
  mk_tstate (threads s) (core_locals s) (f (cores s)) (thread_global_lock s) (handlers s)
    (stack_tmp s) (stack_abt s) (stack_thread s) (world s).
Definition set_lock {W} (v : Z) (s : tstate W) : tstate W :=
  mk_tstate (threads s) (core_locals s) (cores s) v (handlers s)
    (stack_tmp s) (stack_abt s) (stack_thread s) (world s).
Definition set_handlers {W} (v : thread_handlers) (s : tstate W) : tstate W :=
  mk_tstate (threads s) (core_locals s) (cores s) (thread_global_lock s) v
    (stack_tmp s) (stack_abt s) (stack_thread s) (world s).
Definition set_stacks {W} (t a th : list (list Z)) (s : tstate W) : tstate W :=
  mk_tstate (threads s) (core_locals s) (cores s) (thread_global_lock s) (handlers s) t a th (world s).

(** What the build supplies: the numbers of cores and threads, whether stacks
    carry canaries, and the addresses the linker chooses. *)
Class ThreadConfig := {
  CFG_NUM_THREADS : nat;
  CFG_TEE_CORE_NB_CORE : nat;
  CFG_WITH_STACK_CANARIES : bool;
  thread_std_smc_entry_addr : Z;
  stack_tmp_addr : Z;
  stack_abt_addr : Z;
  stack_thread_addr : Z;
}.

Section thread.
Context `{cfg : Config} `{tcfg : ThreadConfig} {W : Type}.
#[local] Abbreviation K := (M (tstate W)).

(** ** Stacks and canaries *)

Definition STACK_CANARY_SIZE : Z := if CFG_WITH_STACK_CANARIES then 16 else 0.
(** [sizeof(name[n])] of [DECLARE_STACK(name, _, stack_size, _)]. *)
Definition stack_bytes (stack_size : Z) : Z :=
  4 * (ROUNDUP (stack_size + STACK_CANARY_SIZE) STACK_ALIGNMENT / 4).
Definition STACK_SIZE (stack_size : Z) : Z := stack_bytes stack_size - STACK_CANARY_SIZE / 2.
(** [GET_STACK(stack[n])]: the initial stack pointer. *)
Definition GET_STACK (base stack_size : Z) (n : nat) : Z :=
  u32 (base + Z.of_nat n * stack_bytes stack_size + STACK_SIZE stack_size).

Definition init_canary (stack : list Z) : list Z :=
  <[(length stack - 1)%nat := END_CANARY_VALUE]> (<[0%nat := START_CANARY_VALUE]> stack).
Definition init_canaries : K unit :=
  when CFG_WITH_STACK_CANARIES
    (modify (fun s => set_stacks (init_canary <$> stack_tmp s) (init_canary <$> stack_abt s)
                        (init_canary <$> stack_thread s) s)).

Definition check_canary (stack : list Z) : K unit :=
  first <- deref (stack !! 0%nat);;
  (if negb (first =? START_CANARY_VALUE) then panic else ret tt) ;;;
  last <- deref (stack !! (length stack - 1)%nat);;
  if negb (last =? END_CANARY_VALUE) then panic else ret tt.
Definition thread_check_canaries : K unit :=
  when CFG_WITH_STACK_CANARIES
    (t <- gets stack_tmp;; for_each t check_canary ;;;
     a <- gets stack_abt;; for_each a check_canary ;;;
     th <- gets stack_thread;; for_each th check_canary).

(** ** Arrays

    Everything below runs on core [c] ([get_core_pos()]). *)
Context (c : nat).
Definition get_core_pos : K Z := ret (Z.of_nat c).

Definition get_thread (n : Z) : K thread_ctx := ts <- gets threads;; aget ts n.
Definition upd_thread (n : Z) (f : thread_ctx -> thread_ctx) : K unit :=
  ts <- gets threads;; t <- aget ts n;; ts' <- aset ts n (f t);; modify (upd_threads (fun _ => ts')).
Definition get_local (n : Z) : K thread_core_local := ls <- gets core_locals;; aget ls n.
Definition upd_local (n : Z) (f : thread_core_local -> thread_core_local) : K unit :=
  ls <- gets core_locals;; l <- aget ls n;; ls' <- aset ls n (f l);;
  modify (upd_core_locals (fun _ => ls')).
Definition get_core : K core_regs := rs <- gets cores;; aget rs (Z.of_nat c).
Definition upd_core (f : core_regs -> core_regs) : K unit :=
  rs <- gets cores;; r <- aget rs (Z.of_nat c);; rs' <- aset rs (Z.of_nat c) (f r);;
  modify (upd_cores (fun _ => rs')).
Definition read_cpsr : K Z := r <- get_core;; ret (core_cpsr r).
Definition write_cpsr (v : Z) : K unit := upd_core (set_core_cpsr v).
(** [cpsid aif] *)
Definition cpsid_aif : K unit := v <- read_cpsr;; write_cpsr (Z.lor v ARM32_CPSR_FIA).

(** ** Exception masks and core-local data *)

Definition thread_get_exceptions : K Z :=
  v <- read_cpsr;; ret (Z.land (Z.shiftr v ARM32_CPSR_F_SHIFT) THREAD_EXCP_ALL).
Definition thread_foreign_intr_disabled : K bool :=
  e <- thread_get_exceptions;; ret (truth (Z.land e THREAD_EXCP_FOREIGN_INTR)).

(** A pointer into [thread_core_local] is its index. *)
Definition thread_get_core_local : K Z :=
  cpu_id <- get_core_pos;;
  massert (e <- thread_get_exceptions;; ret (truth (Z.land e THREAD_EXCP_FOREIGN_INTR))) ;;;
  massert (ret (cpu_id <? Z.of_nat CFG_TEE_CORE_NB_CORE)) ;;;
  ret cpu_id.

(** spin_lock_debug.c, compiled exactly when assertions are. *)
Definition spinlock_count_incr : K unit :=
  if cfg_ndebug then ret tt else
  l <- thread_get_core_local;;
  upd_local l (set_locked_count (fun n => u32 (n + 1))) ;;;
  massert (x <- get_local l;; ret (truth (locked_count x))).
Definition spinlock_count_decr : K unit :=
  if cfg_ndebug then ret tt else
  l <- thread_get_core_local;;
  massert (x <- get_local l;; ret (truth (locked_count x))) ;;;
  upd_local l (set_locked_count (fun n => u32 (n - 1))).
Definition have_spinlock : K bool :=
  d <- thread_foreign_intr_disabled;;
  if negb d then ret false else
  l <- thread_get_core_local;;
  x <- get_local l;; ret (truth (locked_count x)).
Definition assert_have_no_spinlock : K unit :=
  if cfg_ndebug then ret tt else massert (b <- have_spinlock;; ret (negb b)).

Definition thread_set_exceptions (exceptions : Z) : K unit :=
  v <- read_cpsr;;
  when (negb (truth (Z.land exceptions THREAD_EXCP_FOREIGN_INTR))) assert_have_no_spinlock ;;;
  let v := Z.land v (not32 (Z.shiftl THREAD_EXCP_ALL ARM32_CPSR_F_SHIFT)) in
  let v := Z.lor v (Z.shiftl (Z.land exceptions THREAD_EXCP_ALL) ARM32_CPSR_F_SHIFT) in
  write_cpsr v.
Definition thread_mask_exceptions (exceptions : Z) : K Z :=
  st <- thread_get_exceptions;;
  thread_set_exceptions (Z.lor st (Z.land exceptions THREAD_EXCP_ALL)) ;;;
  ret st.
Definition thread_unmask_exceptions (st : Z) : K unit :=
  thread_set_exceptions (Z.land st THREAD_EXCP_ALL).

(** ** The global lock *)

(** [__cpu_spin_lock] waits until the lock is open; here nobody else opens
    it, so a closed lock is a spin.  The step relation below interleaves. *)
Definition cpu_spin_lock : K unit :=
  massert thread_foreign_intr_disabled ;;;
  v <- gets thread_global_lock;;
  (if v =? SPINLOCK_UNLOCK then modify (set_lock SPINLOCK_LOCK) else spin) ;;;
  spinlock_count_incr.
Definition cpu_spin_unlock : K unit :=
  massert thread_foreign_intr_disabled ;;;
  modify (set_lock SPINLOCK_UNLOCK) ;;;
  spinlock_count_decr.
Definition lock_global : K unit := cpu_spin_lock.
Definition unlock_global : K unit := cpu_spin_unlock.

(** ** Threads *)

Definition init_regs (n : Z) (args : thread_smc_args) : K unit :=
  let tpc := u32 thread_std_smc_entry_addr in
  v <- read_cpsr;;
  let cp := Z.land v ARM32_CPSR_E in
  let cp := Z.lor cp (Z.lor (Z.lor CPSR_MODE_SVC ARM32_CPSR_A)
                            (Z.shiftl THREAD_EXCP_FOREIGN_INTR ARM32_CPSR_F_SHIFT)) in
  let cp := if truth (Z.land tpc 1) then Z.lor cp ARM32_CPSR_T else cp in
  upd_thread n (fun t => set_regs (fun r =>
    mk_regs (a0 args) (a1 args) (a2 args) (a3 args) (a4 args) (a5 args) (a6 args) (a7 args)
      (r8 r) (r9 r) (r10 r) (r11 r) (r12 r) (usr_sp r) (usr_lr r) (svc_spsr r)
      (stack_va_end t) (svc_lr r) tpc cp) t).

Definition thread_init_boot_thread : K unit :=
  l <- thread_get_core_local;;
  for_each (seq 0 CFG_NUM_THREADS) (fun n => upd_thread (Z.of_nat n) set_sess_stack_init) ;;;
  for_each (seq 0 CFG_TEE_CORE_NB_CORE) (fun n => upd_local (Z.of_nat n) (set_curr_thread (-1))) ;;;
  upd_local l (set_curr_thread 0) ;;;
  upd_thread 0 (set_state THREAD_STATE_ACTIVE).

Definition thread_clr_boot_thread : K unit :=
  l <- thread_get_core_local;;
  massert (x <- get_local l;;
           ret ((0 <=? curr_thread x) && (curr_thread x <? Z.of_nat CFG_NUM_THREADS))) ;;;
  massert (x <- get_local l;; t <- get_thread (curr_thread x);;
           ret (bool_decide (state t = THREAD_STATE_ACTIVE))) ;;;
  x <- get_local l;;
  upd_thread (curr_thread x) (set_state THREAD_STATE_FREE) ;;;
  upd_local l (set_curr_thread (-1)).

(** The body of the search loop: whether thread [n] was free and is now taken. *)
Definition alloc_try (n : nat) : K bool :=
  t <- get_thread (Z.of_nat n);;
  if bool_decide (state t = THREAD_STATE_FREE)
  then upd_thread (Z.of_nat n) (set_state THREAD_STATE_ACTIVE) ;;; ret true
  else ret false.
(** [for (n = 0; n < CFG_NUM_THREADS; n++)] with [k] rounds left. *)
Fixpoint alloc_scan (n k : nat) : K (option nat) :=
  match k with
  | O => ret None
  | S k' => b <- alloc_try n;; if b then ret (Some n) else alloc_scan (S n) k'
  end.

(** Where the caller of [thread_alloc_and_run] continues: it returns with the
    arguments, or the core has left for the thread ([thread_resume]). *)
Inductive smc_exit := SmcReturn (args : thread_smc_args) | SmcResume (regs : thread_ctx_regs).

(** [thread_resume] (thread_a32.S) loads all registers: the mask of the core
    becomes that of the context. *)
Definition thread_resume (n : Z) : K smc_exit :=
  t <- get_thread n;; write_cpsr (cpsr (regs t)) ;;; ret (SmcResume (regs t)).

(** The part of [thread_alloc_and_run] before the lock, and after it. *)
Definition alloc_enter : K Z :=
  l <- thread_get_core_local;;
  massert (x <- get_local l;; ret (curr_thread x =? -1)) ;;;
  ret l.
Definition alloc_finish (l : Z) (found_thread : option nat) (args : thread_smc_args) : K smc_exit :=
  match found_thread with
  | None => ret (SmcReturn (set_a0 OPTEE_SMC_RETURN_ETHREAD_LIMIT args))
  | Some n =>
    let n := Z.of_nat n in
    upd_local l (set_curr_thread n) ;;;
    upd_thread n (set_flags (fun _ => 0)) ;;;
    init_regs n args ;;;
    upd_thread n (set_hyp_clnt_id (a7 args)) ;;;
    thread_resume n
  end.
Definition thread_alloc_and_run (args : thread_smc_args) : K smc_exit :=
  l <- alloc_enter;;
  lock_global ;;;
  found <- alloc_scan 0 CFG_NUM_THREADS;;
  unlock_global ;;;
  alloc_finish l found args.

(** [thread_state_free]: before the lock, under it. *)
Definition free_enter : K (Z * Z) :=
  l <- thread_get_core_local;;
  x <- get_local l;;
  massert (ret (negb (curr_thread x =? -1))) ;;;
  ret (l, curr_thread x).
Definition free_crit (l ct : Z) : K unit :=
  massert (t <- get_thread ct;; ret (bool_decide (state t = THREAD_STATE_ACTIVE))) ;;;
  upd_thread ct (set_state THREAD_STATE_FREE) ;;;
  upd_thread ct (set_flags (fun _ => 0)) ;;;
  upd_local l (set_curr_thread (-1)).
Definition thread_state_free : K unit :=
  '(l, ct) <- free_enter;;
  lock_global ;;; free_crit l ct ;;; unlock_global.

(** [thread_state_suspend] likewise. *)
Definition suspend_enter : K (Z * Z) :=
  r <- free_enter;; thread_check_canaries ;;; ret r.
Definition suspend_crit (l ct fl cp tpc : Z) : K unit :=
  massert (t <- get_thread ct;; ret (bool_decide (state t = THREAD_STATE_ACTIVE))) ;;;
  upd_thread ct (set_flags (fun f => Z.lor f fl)) ;;;
  upd_thread ct (set_regs (fun r =>
    mk_regs (r0 r) (r1 r) (r2 r) (r3 r) (r4 r) (r5 r) (r6 r) (r7 r) (r8 r) (r9 r) (r10 r)
      (r11 r) (r12 r) (usr_sp r) (usr_lr r) (svc_spsr r) (svc_sp r) (svc_lr r) tpc cp)) ;;;
  upd_thread ct (set_state THREAD_STATE_SUSPENDED) ;;;
  upd_local l (set_curr_thread (-1)).
Definition thread_state_suspend (fl cp tpc : Z) : K Z :=
  '(l, ct) <- suspend_enter;;
  lock_global ;;; suspend_crit l ct fl cp tpc ;;; unlock_global ;;;
  ret ct.

Definition thread_get_tmp_sp : K Z :=
  l <- thread_get_core_local;; x <- get_local l;; ret (tmp_stack_va_end x).
Definition thread_get_id_may_fail : K Z :=
  exceptions <- thread_mask_exceptions THREAD_EXCP_FOREIGN_INTR;;
  l <- thread_get_core_local;;
  x <- get_local l;;
  thread_unmask_exceptions exceptions ;;;
  ret (curr_thread x).
Definition thread_get_id : K Z :=
  ct <- thread_get_id_may_fail;;
  massert (ret ((0 <=? ct) && (ct <? Z.of_nat CFG_NUM_THREADS))) ;;;
  ret ct.
Definition thread_stack_start : K Z :=
  ct <- thread_get_id_may_fail;;
  if ct =? -1 then ret 0 else
  t <- get_thread ct;; ret (u32 (stack_va_end t - STACK_THREAD_SIZE)).
Definition thread_stack_size : Z := STACK_THREAD_SIZE.
(** The index of the thread whose saved registers are meant. *)
Definition thread_get_ctx_regs : K Z :=
  l <- thread_get_core_local;;
  massert (x <- get_local l;; ret (negb (curr_thread x =? -1))) ;;;
  x <- get_local l;; get_thread (curr_thread x) ;;; ret (curr_thread x).

Definition thread_set_foreign_intr (enable : bool) : K unit :=
  exceptions <- thread_mask_exceptions THREAD_EXCP_FOREIGN_INTR;;
  l <- thread_get_core_local;;
  massert (x <- get_local l;; ret (negb (curr_thread x =? -1))) ;;;
  x <- get_local l;;
  if enable then
    upd_thread (curr_thread x) (set_flags (fun f => Z.lor f THREAD_FLAGS_FOREIGN_INTR_ENABLE)) ;;;
    thread_set_exceptions (Z.land exceptions (not32 THREAD_EXCP_FOREIGN_INTR))
  else
    upd_thread (curr_thread x)
      (set_flags (fun f => Z.land f (not32 THREAD_FLAGS_FOREIGN_INTR_ENABLE))).
Definition thread_restore_foreign_intr : K unit :=
  exceptions <- thread_mask_exceptions THREAD_EXCP_FOREIGN_INTR;;
  l <- thread_get_core_local;;
  massert (x <- get_local l;; ret (negb (curr_thread x =? -1))) ;;;
  x <- get_local l;;
  t <- get_thread (curr_thread x);;
  when (truth (Z.land (flags t) THREAD_FLAGS_FOREIGN_INTR_ENABLE))
    (thread_set_exceptions (Z.land exceptions (not32 THREAD_EXCP_FOREIGN_INTR))).

(** ** Initialisation *)

Definition thread_init_stack (thread_id sp : Z) : K bool :=
  if thread_id >=? Z.of_nat CFG_NUM_THREADS then ret false
  else upd_thread thread_id (set_stack_va_end sp) ;;; ret true.
Definition init_handlers (h : thread_handlers) : K unit := modify (set_handlers h).
Definition init_thread_stacks : K unit :=
  for_each (seq 0 CFG_NUM_THREADS) (fun n =>
    ok <- thread_init_stack (Z.of_nat n) (GET_STACK stack_thread_addr STACK_THREAD_SIZE n);;
    if negb ok then panic else ret tt).
Definition thread_init_primary (h : thread_handlers) : K unit :=
  init_handlers h ;;; init_canaries ;;; init_thread_stacks.

Definition set_tmp_stack (l sp : Z) : K unit :=
  upd_local l (set_tmp_stack_va_end sp) ;;;
  upd_core (fun r => mk_core_regs (core_cpsr r) sp (fiq_sp r) (abt_sp r) (mon_sp r)) ;;;
  upd_core (fun r => mk_core_regs (core_cpsr r) (irq_sp r) sp (abt_sp r) (mon_sp r)).
Definition set_abt_stack (sp : Z) : K unit :=
  upd_core (fun r => mk_core_regs (core_cpsr r) (irq_sp r) (fiq_sp r) sp (mon_sp r)).
(** [sm_init] (sm_a32.S) sets the monitor's stack pointer just beyond
    [sm_ctx.sec]; its vector base is not part of this state. *)
Definition sm_init (stack_pointer : Z) : K unit :=
  upd_core (fun r => mk_core_regs (core_cpsr r) (irq_sp r) (fiq_sp r) (abt_sp r)
                       (u32 (stack_pointer - (SM_CTX_SIZE - SM_CTX_NSEC)))).
Definition init_sec_mon (pos : nat) : K unit :=
  sm_init (GET_STACK stack_tmp_addr STACK_TMP_SIZE pos).
(** [thread_init_vbar] sets a register that is not part of this state. *)
Definition thread_init_per_cpu : K unit :=
  l <- thread_get_core_local;;
  init_sec_mon c ;;;
  set_tmp_stack l (u32 (GET_STACK stack_tmp_addr STACK_TMP_SIZE c - STACK_TMP_OFFS)) ;;;
  set_abt_stack (GET_STACK stack_abt_addr STACK_ABT_SIZE c).

(** What booting does to the threads: [init_primary_helper] of generic_boot.c
    and the end of [reset_primary]. *)
Definition thread_boot (h : thread_handlers) : K unit :=
  thread_set_exceptions THREAD_EXCP_ALL ;;;
  thread_init_boot_thread ;;;
  thread_init_primary h ;;;
  thread_init_per_cpu ;;;
  thread_clr_boot_thread.

(** ** Secure monitor calls *)

(** What a registered handler does: it is called by its address. *)
Context (smc_handler : Z -> thread_smc_args -> K thread_smc_args).

Definition thread_handle_fast_smc (args : thread_smc_args) : K thread_smc_args :=
  thread_check_canaries ;;;
  h <- gets handlers;;
  args' <- smc_handler (fast_smc h) args;;
  massert (e <- thread_get_exceptions;; ret (e =? THREAD_EXCP_ALL)) ;;;
  ret args'.
Definition thread_handle_std_smc (args : thread_smc_args) : K smc_exit :=
  thread_check_canaries ;;; thread_alloc_and_run args.
Definition thread_std_smc_entry_c (args : thread_smc_args) : K thread_smc_args :=
  h <- gets handlers;; smc_handler (std_smc h) args.
(** The assembly [thread_std_smc_entry] a thread starts in, with its arguments
    in [r0]-[r7]: the values it hands to the monitor in [r1]-[r4]. *)
Definition thread_std_smc_entry (r : thread_ctx_regs) : K (list Z) :=
  args <- thread_std_smc_entry_c
            (ThreadSmcArgs (r0 r) (r1 r) (r2 r) (r3 r) (r4 r) (r5 r) (r6 r) (r7 r));;
  cpsid_aif ;;;
  thread_get_tmp_sp ;;;
  thread_state_free ;;;
  ret [a0 args; a1 args; a2 args; a3 args].
(** The assembly [vector_std_smc_entry]: a standard call until control is back
    in the monitor, with the values the normal world finds in [r0]-[r3]. *)
Definition vector_std_smc_entry (args : thread_smc_args) : K (list Z) :=
  e <- thread_handle_std_smc args;;
  match e with
  | SmcReturn a => ret [a0 a; a1 a; a2 a; a3 a]
  | SmcResume r => thread_std_smc_entry r
  end.
(** The assembly [vector_fast_smc_entry]. *)
Definition vector_fast_smc_entry (args : thread_smc_args) : K (list Z) :=
  a <- thread_handle_fast_smc args;; ret [a0 a; a1 a; a2 a; a3 a].
End thread.

(** ** Interleaving of the cores

    Between two segments of a core any other core may run.  A core is at one of
    these positions; [i] is its index in [thread_core_local], [ct] the thread it
    read there. *)
Inductive position :=
| Outside
| AllocLock (i : Z) (args : thread_smc_args)
| AllocScan (i : Z) (args : thread_smc_args) (n : nat)
| AllocUnlock (i : Z) (args : thread_smc_args) (found : option nat)
| AllocFinish (i : Z) (args : thread_smc_args) (found : option nat)
| Running (n : nat)
| FreeLock (i ct : Z)
| FreeCrit (i ct : Z)
| FreeUnlock
| SuspendLock (i ct fl cp tpc : Z)
| SuspendCrit (i ct fl cp tpc : Z)
| SuspendUnlock.

(** What decides how a core goes on: a standard call arrives with [cp] in the
    CPSR; the handler returns; it asks for a service of the normal world
    ([thread_rpc]); it switches its foreign interrupts. *)
Inductive event :=
| EvCall (cp : Z) (args : thread_smc_args)
| EvReturn
| EvSuspend (cp tpc : Z)
| EvForeign (enable : bool)
| EvRestoreForeign.

Section interleave.
Context `{cfg : Config} `{tcfg : ThreadConfig} {W : Type}.

(** The next segment of core [c].  Each position runs the part of
    [thread_alloc_and_run], [thread_state_free] or [thread_state_suspend]
    between two accesses to the lock, the search of the thread table one
    thread at a time. *)
Definition core_run (c : nat) (ev : event) (p : position) : M (tstate W) position :=
  match p with
  | Outside =>
    match ev with
    | EvCall cp args =>
      write_cpsr c cp ;;; thread_check_canaries ;;;
      i <- alloc_enter c;; ret (AllocLock i args)
    | _ => ret p
    end
  | AllocLock i args => lock_global c ;;; ret (AllocScan i args 0)
  | AllocScan i args n =>
    if (n <? CFG_NUM_THREADS)%nat
    then b <- alloc_try n;;
         ret (if b then AllocUnlock i args (Some n) else AllocScan i args (S n))
    else ret (AllocUnlock i args None)
  | AllocUnlock i args found => unlock_global c ;;; ret (AllocFinish i args found)
  | AllocFinish i args found =>
    e <- alloc_finish c i found args;;
    ret (match e, found with
         | SmcResume _, Some n => Running n
         | _, _ => Outside
         end)
  | Running n =>
    match ev with
    | EvReturn => cpsid_aif c ;;; thread_get_tmp_sp c ;;; '(i, ct) <- free_enter c;; ret (FreeLock i ct)
    | EvSuspend cp tpc =>
      cpsid_aif c ;;; '(i, ct) <- suspend_enter c;;
      ret (SuspendLock i ct THREAD_FLAGS_COPY_ARGS_ON_RETURN cp tpc)
    | EvForeign b => thread_set_foreign_intr c b ;;; ret p
    | EvRestoreForeign => thread_restore_foreign_intr c ;;; ret p
    | EvCall _ _ => ret p
    end
  | FreeLock i ct => lock_global c ;;; ret (FreeCrit i ct)
  | FreeCrit i ct => free_crit i ct ;;; ret FreeUnlock
  | FreeUnlock => unlock_global c ;;; ret Outside
  | SuspendLock i ct fl cp tpc => lock_global c ;;; ret (SuspendCrit i ct fl cp tpc)
  | SuspendCrit i ct fl cp tpc => suspend_crit i ct fl cp tpc ;;; ret SuspendUnlock
  | SuspendUnlock => unlock_global c ;;; ret Outside
  end.

Record machine := mk_machine { shared : tstate W; pos : nat -> position }.

(** The monitor enters the kernel with all asynchronous exceptions masked. *)
Definition event_ok (ev : event) : Prop :=
  match ev with EvCall cp _ => Z.land cp ARM32_CPSR_FIA = ARM32_CPSR_FIA | _ => True end.

Inductive mstep : machine -> machine -> Prop :=
| mstep_core c ev m p' s' :
    (c < CFG_TEE_CORE_NB_CORE)%nat -> event_ok ev ->
    core_run c ev (pos m c) (shared m) = Ret p' s' ->
    mstep m (mk_machine s' (<[c := p']> (pos m))).
End interleave.
Arguments machine W : clear implicits.
