(* ===== verification/ThreadInv.v ===== *)
(** * Correctness of the thread layer

    What each operation of [Thread] does when its assertions hold, the
    invariant of the interleaved machine, and the theorems: cores never share a
    thread, no assertion fails, the lock is never held for ever, and a standard
    call runs its handler on a thread of its own and gives the thread back. *)

From stdpp Require Import prelude list functions relations.
From Stdlib Require Import ZArith Lia.
From S2P Require Import Prelude State Thread.
#[local] Open Scope Z_scope.
#[local] Open Scope kernel_scope.

(** ** Running single operations *)

Section run.
Context `{cfg : Config} `{tcfg : ThreadConfig} {W : Type}.
Implicit Types (s : tstate W) (c n : nat).

(** Foreign interrupts are masked on core [c]. *)
Definition masked s c : Prop :=
  exists r, cores s !! c = Some r /\ Z.testbit (core_cpsr r) 7 = true.

Lemma foreign_bit v :
  truth (Z.land (Z.land (Z.shiftr v ARM32_CPSR_F_SHIFT) THREAD_EXCP_ALL) THREAD_EXCP_FOREIGN_INTR)
  = Z.testbit v 7.
Proof.
  change THREAD_EXCP_FOREIGN_INTR with (bit32 1). rewrite truth_land_bit by lia.
  rewrite Z.land_spec, Z.shiftr_spec by lia.
  change (Z.testbit THREAD_EXCP_ALL 1) with true. by rewrite andb_true_r.
Qed.

Lemma get_thread_run s n t : threads s !! n = Some t -> get_thread (Z.of_nat n) s = Ret t s.
Proof. intros H. unfold get_thread. erewrite bind_run by done. by apply aget_lookup. Qed.
Lemma get_local_run s c l : core_locals s !! c = Some l -> get_local (Z.of_nat c) s = Ret l s.
Proof. intros H. unfold get_local. erewrite bind_run by done. by apply aget_lookup. Qed.
Lemma upd_thread_run s n t f :
  threads s !! n = Some t ->
  upd_thread (Z.of_nat n) f s = Ret tt (upd_threads (insert n (f t)) s).
Proof.
  intros H. unfold upd_thread. erewrite bind_run by done.
  erewrite bind_run by (by apply aget_lookup).
  erewrite bind_run by (apply aset_insert; by eapply lookup_lt_Some). done.
Qed.
Lemma upd_local_run s c l f :
  core_locals s !! c = Some l ->
  upd_local (Z.of_nat c) f s = Ret tt (upd_core_locals (insert c (f l)) s).
Proof.
  intros H. unfold upd_local. erewrite bind_run by done.
  erewrite bind_run by (by apply aget_lookup).
  erewrite bind_run by (apply aset_insert; by eapply lookup_lt_Some). done.
Qed.
Lemma read_cpsr_run s c r : cores s !! c = Some r -> read_cpsr c s = Ret (core_cpsr r) s.
Proof.
  intros H. unfold read_cpsr, get_core, bind at 1. erewrite bind_run by done.
  by rewrite (aget_lookup _ _ r).
Qed.
Lemma write_cpsr_run s c r v :
  cores s !! c = Some r -> write_cpsr c v s = Ret tt (upd_cores (insert c (set_core_cpsr v r)) s).
Proof.
  intros H. unfold write_cpsr, upd_core. erewrite bind_run by done.
  erewrite bind_run by (by apply aget_lookup).
  erewrite bind_run by (apply aset_insert; by eapply lookup_lt_Some). done.
Qed.
Lemma upd_core_run s c r f :
  cores s !! c = Some r -> upd_core c f s = Ret tt (upd_cores (insert c (f r)) s).
Proof.
  intros H. unfold upd_core. erewrite bind_run by done.
  erewrite bind_run by (by apply aget_lookup).
  erewrite bind_run by (apply aset_insert; by eapply lookup_lt_Some). done.
Qed.

Lemma foreign_disabled_run s c : masked s c -> thread_foreign_intr_disabled c s = Ret true s.
Proof.
  intros (r & Hr & Hb). unfold thread_foreign_intr_disabled, thread_get_exceptions.
  unfold bind at 1. erewrite bind_run by (by apply read_cpsr_run). cbn [ret].
  unfold ret. by rewrite foreign_bit, Hb.
Qed.
Lemma core_local_run s c :
  masked s c -> (c < CFG_TEE_CORE_NB_CORE)%nat ->
  thread_get_core_local c s = Ret (Z.of_nat c) s.
Proof.
  intros Hm Hc. unfold thread_get_core_local. erewrite bind_run by done.
  erewrite bind_run.
  2:{ apply massert_ok. exact (foreign_disabled_run s c Hm). }
  erewrite bind_run; [done|]. apply massert_ok. unfold ret. f_equal. apply Z.ltb_lt. lia.
Qed.

(** ** The lock *)

(** The lock depth of a core, kept in debug builds. *)
Definition with_count (k : Z) (l : thread_core_local) : thread_core_local :=
  if cfg_ndebug then l else set_locked_count (fun _ => k) l.
Definition count_is (k : Z) (l : thread_core_local) : Prop :=
  cfg_ndebug = false -> locked_count l = k.

Lemma curr_with_count k l : curr_thread (with_count k l) = curr_thread l.
Proof. unfold with_count. by destruct cfg_ndebug. Qed.
Lemma count_with_count k l : count_is k (with_count k l).
Proof. unfold count_is, with_count. by intros ->. Qed.

Lemma upd_core_locals_id s c l :
  core_locals s !! c = Some l -> upd_core_locals (insert c l) s = s.
Proof. intros H. destruct s; unfold upd_core_locals; simpl in *. by rewrite list_insert_id. Qed.

Lemma lookup_upd_local s c l l' :
  core_locals s !! c = Some l -> core_locals (upd_core_locals (insert c l') s) !! c = Some l'.
Proof. intros H. cbn. apply list_lookup_insert_eq. by eapply lookup_lt_Some. Qed.

Lemma count_incr_run s c l :
  masked s c -> (c < CFG_TEE_CORE_NB_CORE)%nat -> core_locals s !! c = Some l -> count_is 0 l ->
  spinlock_count_incr c s = Ret tt (upd_core_locals (insert c (with_count 1 l)) s).
Proof.
  intros Hm Hc Hl H0. unfold spinlock_count_incr, with_count, count_is in *.
  destruct cfg_ndebug eqn:Hn; [unfold ret; f_equal; symmetry; by apply upd_core_locals_id|].
  erewrite bind_run by (by apply core_local_run).
  erewrite bind_run by (by apply upd_local_run).
  assert (Heq : set_locked_count (fun n : Z => u32 (n + 1)) l = set_locked_count (fun _ => 1) l).
  { unfold set_locked_count. by rewrite H0. }
  rewrite Heq. apply massert_ok.
  erewrite bind_run by (apply get_local_run; by eapply lookup_upd_local). done.
Qed.

Lemma count_decr_run s c l :
  masked s c -> (c < CFG_TEE_CORE_NB_CORE)%nat -> core_locals s !! c = Some l -> count_is 1 l ->
  spinlock_count_decr c s = Ret tt (upd_core_locals (insert c (with_count 0 l)) s).
Proof.
  intros Hm Hc Hl H0. unfold spinlock_count_decr, with_count, count_is in *.
  destruct cfg_ndebug eqn:Hn; [unfold ret; f_equal; symmetry; by apply upd_core_locals_id|].
  erewrite bind_run by (by apply core_local_run).
  erewrite bind_run.
  2:{ apply massert_ok. erewrite bind_run by (by apply get_local_run).
      unfold ret. by rewrite H0. }
  erewrite upd_local_run by done. unfold set_locked_count. by rewrite H0.
Qed.

Lemma lock_global_run s c l :
  masked s c -> (c < CFG_TEE_CORE_NB_CORE)%nat -> core_locals s !! c = Some l -> count_is 0 l ->
  thread_global_lock s = SPINLOCK_UNLOCK ->
  lock_global c s
  = Ret tt (upd_core_locals (insert c (with_count 1 l)) (set_lock SPINLOCK_LOCK s)).
Proof.
  intros Hm Hc Hl H0 Hlk. unfold lock_global, cpu_spin_lock.
  erewrite bind_run by (by apply massert_ok, foreign_disabled_run).
  erewrite bind_run by done. rewrite Hlk. erewrite bind_run by done.
  by apply count_incr_run.
Qed.
Lemma lock_global_spins s c :
  masked s c -> thread_global_lock s = SPINLOCK_LOCK -> lock_global c s = Spin.
Proof.
  intros Hm Hlk. unfold lock_global, cpu_spin_lock.
  erewrite bind_run by (by apply massert_ok, foreign_disabled_run).
  erewrite bind_run by done. by rewrite Hlk.
Qed.
Lemma unlock_global_run s c l :
  masked s c -> (c < CFG_TEE_CORE_NB_CORE)%nat -> core_locals s !! c = Some l -> count_is 1 l ->
  unlock_global c s
  = Ret tt (upd_core_locals (insert c (with_count 0 l)) (set_lock SPINLOCK_UNLOCK s)).
Proof.
  intros Hm Hc Hl H0. unfold unlock_global, cpu_spin_unlock.
  erewrite bind_run by (by apply massert_ok, foreign_disabled_run).
  erewrite bind_run by done. by apply count_decr_run.
Qed.

(** ** Stacks *)

Definition canary_ok (st : list Z) : Prop :=
  st !! 0%nat = Some START_CANARY_VALUE /\
  st !! (length st - 1)%nat = Some END_CANARY_VALUE.
Definition canaries_ok s : Prop :=
  CFG_WITH_STACK_CANARIES = true ->
  Forall canary_ok (stack_tmp s) /\ Forall canary_ok (stack_abt s) /\ Forall canary_ok (stack_thread s).

Lemma for_each_check_run (l : list (list Z)) s :
  Forall canary_ok l -> for_each l check_canary s = Ret tt s.
Proof.
  induction 1 as [|st l [H1 H2] _ IH]; [done|]. cbn [for_each].
  erewrite bind_run; [exact IH|]. unfold check_canary. rewrite H1, H2. done.
Qed.
Lemma check_canaries_run s : canaries_ok s -> thread_check_canaries s = Ret tt s.
Proof.
  intros H. unfold thread_check_canaries, when. destruct CFG_WITH_STACK_CANARIES eqn:E; [|done].
  destruct (H E) as (H1 & H2 & H3). erewrite bind_run by done.
  erewrite bind_run by (by apply for_each_check_run). erewrite bind_run by done.
  erewrite bind_run by (by apply for_each_check_run). erewrite bind_run by done.
  by apply for_each_check_run.
Qed.

(** ** Entering an operation *)

Lemma alloc_enter_run s c l :
  masked s c -> (c < CFG_TEE_CORE_NB_CORE)%nat -> core_locals s !! c = Some l ->
  curr_thread l = -1 -> alloc_enter c s = Ret (Z.of_nat c) s.
Proof.
  intros Hm Hc Hl Hcur. unfold alloc_enter. erewrite bind_run by (by apply core_local_run).
  erewrite bind_run; [done|]. apply massert_ok.
  erewrite bind_run by (by apply get_local_run). unfold ret. by rewrite Hcur.
Qed.
Lemma free_enter_run s c l :
  masked s c -> (c < CFG_TEE_CORE_NB_CORE)%nat -> core_locals s !! c = Some l ->
  0 <= curr_thread l -> free_enter c s = Ret (Z.of_nat c, curr_thread l) s.
Proof.
  intros Hm Hc Hl Hcur. unfold free_enter. erewrite bind_run by (by apply core_local_run).
  erewrite bind_run by (by apply get_local_run).
  erewrite bind_run; [done|]. apply massert_ok. unfold ret. f_equal.
  apply negb_true_iff, Z.eqb_neq. lia.
Qed.
Lemma tmp_sp_run s c l :
  masked s c -> (c < CFG_TEE_CORE_NB_CORE)%nat -> core_locals s !! c = Some l ->
  thread_get_tmp_sp c s = Ret (tmp_stack_va_end l) s.
Proof.
  intros Hm Hc Hl. unfold thread_get_tmp_sp. erewrite bind_run by (by apply core_local_run).
  by erewrite bind_run by (by apply get_local_run).
Qed.

(** [cpsid aif] masks foreign interrupts and changes nothing else. *)
Lemma lookup_upd_core s c r r' :
  cores s !! c = Some r -> cores (upd_cores (insert c r') s) !! c = Some r'.
Proof. intros H. cbn. apply list_lookup_insert_eq. by eapply lookup_lt_Some. Qed.
Lemma masked_upd s c r v :
  cores s !! c = Some r -> Z.testbit v 7 = true ->
  masked (upd_cores (insert c (set_core_cpsr v r)) s) c.
Proof. intros H Hv. exists (set_core_cpsr v r). split; [by eapply lookup_upd_core|done]. Qed.
Lemma cpsid_run s c r :
  cores s !! c = Some r ->
  cpsid_aif c s = Ret tt (upd_cores (insert c (set_core_cpsr (Z.lor (core_cpsr r) ARM32_CPSR_FIA) r)) s).
Proof.
  intros H. unfold cpsid_aif. erewrite bind_run by (by apply read_cpsr_run).
  by apply write_cpsr_run.
Qed.
Lemma fia_bit v : Z.testbit (Z.lor v ARM32_CPSR_FIA) 7 = true.
Proof. rewrite Z.lor_spec. apply orb_true_r. Qed.
Lemma fia_masked cp : Z.land cp ARM32_CPSR_FIA = ARM32_CPSR_FIA -> Z.testbit cp 7 = true.
Proof.
  intros H. assert (Hb : Z.testbit (Z.land cp ARM32_CPSR_FIA) 7 = true) by (by rewrite H).
  rewrite Z.land_spec in Hb. by apply andb_prop in Hb as [? _].
Qed.

(** ** Exception masks *)

Definition put_excp (v e : Z) : Z :=
  Z.lor (Z.land v (not32 (Z.shiftl THREAD_EXCP_ALL ARM32_CPSR_F_SHIFT)))
        (Z.shiftl (Z.land e THREAD_EXCP_ALL) ARM32_CPSR_F_SHIFT).

Lemma set_exceptions_run s c r l e :
  (c < CFG_TEE_CORE_NB_CORE)%nat -> cores s !! c = Some r -> core_locals s !! c = Some l ->
  count_is 0 l ->
  thread_set_exceptions c e s
  = Ret tt (upd_cores (insert c (set_core_cpsr (put_excp (core_cpsr r) e) r)) s).
Proof.
  intros Hc Hr Hl H0. unfold thread_set_exceptions.
  erewrite bind_run by (by apply read_cpsr_run).
  erewrite bind_run; [by apply write_cpsr_run|].
  destruct (negb _); [|done]. unfold when, assert_have_no_spinlock.
  destruct cfg_ndebug eqn:Hn; [done|]. apply massert_ok. unfold have_spinlock.
  assert (Hd : thread_foreign_intr_disabled c s = Ret (Z.testbit (core_cpsr r) 7) s).
  { unfold thread_foreign_intr_disabled, thread_get_exceptions. unfold bind at 1.
    erewrite bind_run by (by apply read_cpsr_run). unfold ret. by rewrite foreign_bit. }
  unfold bind at 1. erewrite bind_run by exact Hd.
  destruct (Z.testbit (core_cpsr r) 7) eqn:Hb; [|done]. cbn [negb].
  erewrite bind_run by (apply core_local_run; [by exists r|done]).
  erewrite bind_run by (by apply get_local_run). unfold ret. by rewrite (H0 Hn).
Qed.

Lemma get_exceptions_run s c r :
  cores s !! c = Some r ->
  thread_get_exceptions c s
  = Ret (Z.land (Z.shiftr (core_cpsr r) ARM32_CPSR_F_SHIFT) THREAD_EXCP_ALL) s.
Proof. intros Hr. unfold thread_get_exceptions. by erewrite bind_run by (by apply read_cpsr_run). Qed.

Lemma put_excp_foreign v e : Z.testbit (put_excp v e) 7 = Z.testbit e 1.
Proof.
  unfold put_excp. rewrite Z.lor_spec, Z.land_spec, Z.shiftl_spec, Z.land_spec by lia.
  change (Z.testbit (not32 (Z.shiftl THREAD_EXCP_ALL ARM32_CPSR_F_SHIFT)) 7) with false.
  change (7 - ARM32_CPSR_F_SHIFT) with 1. change (Z.testbit THREAD_EXCP_ALL 1) with true.
  by rewrite andb_false_r, andb_true_r.
Qed.

(** The mask after [thread_mask_exceptions(THREAD_EXCP_FOREIGN_INTR)]. *)
Definition mask_foreign (v : Z) : Z :=
  put_excp v (Z.lor (Z.land (Z.shiftr v ARM32_CPSR_F_SHIFT) THREAD_EXCP_ALL)
                    (Z.land THREAD_EXCP_FOREIGN_INTR THREAD_EXCP_ALL)).
Lemma mask_foreign_bit v : Z.testbit (mask_foreign v) 7 = true.
Proof. unfold mask_foreign. rewrite put_excp_foreign, Z.lor_spec. apply orb_true_r. Qed.

Lemma mask_foreign_run s c r l :
  (c < CFG_TEE_CORE_NB_CORE)%nat -> cores s !! c = Some r -> core_locals s !! c = Some l ->
  count_is 0 l ->
  thread_mask_exceptions c THREAD_EXCP_FOREIGN_INTR s
  = Ret (Z.land (Z.shiftr (core_cpsr r) ARM32_CPSR_F_SHIFT) THREAD_EXCP_ALL)
        (upd_cores (insert c (set_core_cpsr (mask_foreign (core_cpsr r)) r)) s).
Proof.
  intros Hc Hr Hl H0. unfold thread_mask_exceptions.
  erewrite bind_run by (by apply get_exceptions_run).
  by erewrite bind_run by (by eapply set_exceptions_run).
Qed.

Lemma upd_cores_twice s c r1 r2 :
  upd_cores (insert c r2) (upd_cores (insert c r1) s) = upd_cores (insert c r2) s.
Proof. destruct s; unfold upd_cores; simpl. by rewrite list_insert_insert_eq. Qed.

(** Both switches of the foreign interrupts of a thread change only its flags
    and the mask of its core. *)
Definition flags_effect (c n : nat) s s' : Prop :=
  exists t r f v, threads s !! n = Some t /\ cores s !! c = Some r /\
    s' = upd_threads (insert n (set_flags (fun _ => f) t)) (upd_cores (insert c (set_core_cpsr v r)) s).

Lemma set_foreign_run s c r l n t b :
  (c < CFG_TEE_CORE_NB_CORE)%nat -> cores s !! c = Some r -> core_locals s !! c = Some l ->
  count_is 0 l -> curr_thread l = Z.of_nat n -> threads s !! n = Some t ->
  wp (thread_set_foreign_intr c b) s (fun _ s' => flags_effect c n s s').
Proof.
  intros Hc Hr Hl H0 Hcur Ht. unfold thread_set_foreign_intr, wp.
  erewrite bind_run by (by eapply mask_foreign_run).
  set (r1 := set_core_cpsr _ r). set (s1 := upd_cores _ s).
  assert (Hr1 : cores s1 !! c = Some r1) by (by eapply lookup_upd_core).
  assert (Hm : masked s1 c) by (apply masked_upd; [done|apply mask_foreign_bit]).
  assert (Hl1 : core_locals s1 !! c = Some l) by done.
  assert (Ht1 : threads s1 !! n = Some t) by done.
  erewrite bind_run by (by apply core_local_run).
  erewrite bind_run.
  2:{ apply massert_ok. erewrite bind_run by (by apply get_local_run). unfold ret. f_equal.
      apply negb_true_iff, Z.eqb_neq. lia. }
  erewrite bind_run by (by apply get_local_run). rewrite Hcur. destruct b.
  - erewrite bind_run by (by apply upd_thread_run).
    rewrite (set_exceptions_run _ c r1 l) by done.
    eexists t, r, _, _. split; [done|]. split; [done|].
    unfold s1, r1, upd_cores, upd_threads, set_core_cpsr; cbn. by rewrite list_insert_insert_eq.
  - erewrite upd_thread_run by done. eexists t, r, _, _. done.
Qed.

Lemma restore_foreign_run s c r l n t :
  (c < CFG_TEE_CORE_NB_CORE)%nat -> cores s !! c = Some r -> core_locals s !! c = Some l ->
  count_is 0 l -> curr_thread l = Z.of_nat n -> threads s !! n = Some t ->
  wp (thread_restore_foreign_intr c) s (fun _ s' => flags_effect c n s s').
Proof.
  intros Hc Hr Hl H0 Hcur Ht. unfold thread_restore_foreign_intr, wp.
  erewrite bind_run by (by eapply mask_foreign_run).
  set (r1 := set_core_cpsr _ r). set (s1 := upd_cores _ s).
  assert (Hr1 : cores s1 !! c = Some r1) by (by eapply lookup_upd_core).
  assert (Hm : masked s1 c) by (apply masked_upd; [done|apply mask_foreign_bit]).
  assert (Hl1 : core_locals s1 !! c = Some l) by done.
  assert (Ht1 : threads s1 !! n = Some t) by done.
  assert (Hid : forall s2, threads s2 !! n = Some t ->
                  upd_threads (insert n (set_flags (fun _ => flags t) t)) s2 = s2).
  { intros [] H; unfold upd_threads; simpl in *. destruct t. by rewrite list_insert_id. }
  erewrite bind_run by (by apply core_local_run).
  erewrite bind_run.
  2:{ apply massert_ok. erewrite bind_run by (by apply get_local_run). unfold ret. f_equal.
      apply negb_true_iff, Z.eqb_neq. lia. }
  erewrite bind_run by (by apply get_local_run). rewrite Hcur.
  erewrite bind_run by (by apply get_thread_run). destruct (truth _); cbn [when].
  - rewrite (set_exceptions_run _ c r1 l) by done.
    exists t, r, (flags t), (put_excp (core_cpsr r1) (Z.land (Z.land (Z.shiftr (core_cpsr r)
      ARM32_CPSR_F_SHIFT) THREAD_EXCP_ALL) (not32 THREAD_EXCP_FOREIGN_INTR))).
    split; [done|]. split; [done|].
    rewrite Hid by done. unfold s1, r1. etrans; [apply upd_cores_twice|reflexivity].
  - exists t, r, (flags t), (mask_foreign (core_cpsr r)).
    split; [done|]. split; [done|]. by rewrite Hid by done.
Qed.

(** ** Claiming and giving back a thread *)

Lemma alloc_try_run s n t :
  threads s !! n = Some t ->
  alloc_try n s =
    if bool_decide (state t = THREAD_STATE_FREE)
    then Ret true (upd_threads (insert n (set_state THREAD_STATE_ACTIVE t)) s)
    else Ret false s.
Proof.
  intros Ht. unfold alloc_try. erewrite bind_run by (by apply get_thread_run).
  case_bool_decide; [|done]. by erewrite bind_run by (by apply upd_thread_run).
Qed.

Definition freed (t : thread_ctx) : thread_ctx :=
  set_flags (fun _ => 0) (set_state THREAD_STATE_FREE t).
Lemma upd_threads_twice s n t1 t2 :
  upd_threads (insert n t2) (upd_threads (insert n t1) s) = upd_threads (insert n t2) s.
Proof. destruct s; unfold upd_threads; simpl. by rewrite list_insert_insert_eq. Qed.
Lemma lookup_upd_thread s n t t' :
  threads s !! n = Some t -> threads (upd_threads (insert n t') s) !! n = Some t'.
Proof. intros H. cbn. apply list_lookup_insert_eq. by eapply lookup_lt_Some. Qed.

Lemma free_crit_run s c l n t :
  core_locals s !! c = Some l -> threads s !! n = Some t -> state t = THREAD_STATE_ACTIVE ->
  free_crit (Z.of_nat c) (Z.of_nat n) s
  = Ret tt (upd_core_locals (insert c (set_curr_thread (-1) l)) (upd_threads (insert n (freed t)) s)).
Proof.
  intros Hl Ht Ha. unfold free_crit. erewrite bind_run.
  2:{ apply massert_ok. erewrite bind_run by (by apply get_thread_run). unfold ret.
      by rewrite bool_decide_eq_true_2. }
  erewrite bind_run by (by apply upd_thread_run).
  erewrite bind_run by (by eapply upd_thread_run, lookup_upd_thread).
  rewrite upd_threads_twice. by apply upd_local_run.
Qed.

Definition suspended (fl cp tpc : Z) (t : thread_ctx) : thread_ctx :=
  set_state THREAD_STATE_SUSPENDED
    (set_regs (fun r => mk_regs (r0 r) (r1 r) (r2 r) (r3 r) (r4 r) (r5 r) (r6 r) (r7 r) (r8 r)
       (r9 r) (r10 r) (r11 r) (r12 r) (usr_sp r) (usr_lr r) (svc_spsr r) (svc_sp r) (svc_lr r) tpc cp)
      (set_flags (fun f => Z.lor f fl) t)).
Lemma suspend_crit_run s c l n t fl cp tpc :
  core_locals s !! c = Some l -> threads s !! n = Some t -> state t = THREAD_STATE_ACTIVE ->
  suspend_crit (Z.of_nat c) (Z.of_nat n) fl cp tpc s
  = Ret tt (upd_core_locals (insert c (set_curr_thread (-1) l))
              (upd_threads (insert n (suspended fl cp tpc t)) s)).
Proof.
  intros Hl Ht Ha. unfold suspend_crit. erewrite bind_run.
  2:{ apply massert_ok. erewrite bind_run by (by apply get_thread_run). unfold ret.
      by rewrite bool_decide_eq_true_2. }
  erewrite bind_run by (by apply upd_thread_run).
  erewrite bind_run by (by eapply upd_thread_run, lookup_upd_thread).
  rewrite upd_threads_twice.
  erewrite bind_run by (by eapply upd_thread_run, lookup_upd_thread).
  rewrite upd_threads_twice. by apply upd_local_run.
Qed.

(** The CPSR a thread starts with, and its context: the arguments in [r0]-[r7],
    its own stack, foreign interrupts masked. *)
Definition entry_cpsr (v : Z) : Z :=
  let cp := Z.lor (Z.land v ARM32_CPSR_E)
              (Z.lor (Z.lor CPSR_MODE_SVC ARM32_CPSR_A)
                     (Z.shiftl THREAD_EXCP_FOREIGN_INTR ARM32_CPSR_F_SHIFT)) in
  if truth (Z.land (u32 thread_std_smc_entry_addr) 1) then Z.lor cp ARM32_CPSR_T else cp.
Definition entry_regs (v sp : Z) (args : thread_smc_args) (r : thread_ctx_regs) : thread_ctx_regs :=
  mk_regs (a0 args) (a1 args) (a2 args) (a3 args) (a4 args) (a5 args) (a6 args) (a7 args)
    (r8 r) (r9 r) (r10 r) (r11 r) (r12 r) (usr_sp r) (usr_lr r) (svc_spsr r)
    sp (svc_lr r) (u32 thread_std_smc_entry_addr) (entry_cpsr v).
Definition started (v : Z) (args : thread_smc_args) (t : thread_ctx) : thread_ctx :=
  mk_ctx (entry_regs v (stack_va_end t) args (regs t)) (state t) (stack_va_end t)
    (a7 args) 0 (tsd_sess_stack_init t).

Lemma entry_cpsr_masked v : Z.testbit (entry_cpsr v) 7 = true.
Proof.
  unfold entry_cpsr. destruct (truth _); rewrite ?Z.lor_spec; cbn; by rewrite ?orb_true_r.
Qed.

Lemma alloc_finish_run s c l r n t args :
  core_locals s !! c = Some l -> cores s !! c = Some r -> threads s !! n = Some t ->
  alloc_finish c (Z.of_nat c) (Some n) args s
  = Ret (SmcResume (entry_regs (core_cpsr r) (stack_va_end t) args (regs t)))
        (upd_cores (insert c (set_core_cpsr (entry_cpsr (core_cpsr r)) r))
           (upd_threads (insert n (started (core_cpsr r) args t))
              (upd_core_locals (insert c (set_curr_thread (Z.of_nat n) l)) s))).
Proof.
  intros Hl Hr Ht. unfold alloc_finish.
  erewrite bind_run by (by apply upd_local_run).
  erewrite bind_run by (by apply upd_thread_run).
  erewrite bind_run.
  2:{ unfold init_regs. erewrite bind_run by (by apply read_cpsr_run).
      by eapply upd_thread_run, lookup_upd_thread. }
  rewrite upd_threads_twice.
  erewrite bind_run by (by eapply upd_thread_run, lookup_upd_thread).
  rewrite upd_threads_twice. unfold thread_resume.
  erewrite bind_run by (by eapply get_thread_run, lookup_upd_thread).
  erewrite bind_run by (by apply write_cpsr_run). done.
Qed.
End run.

(** ** The invariant of the interleaved machine *)

Section invariant.
Context `{cfg : Config} `{tcfg : ThreadConfig} {W : Type}.
Implicit Types (s : tstate W) (c n : nat) (p : position) (m : machine W).

Definition states s : list thread_state := state <$> threads s.

(** The thread a core has claimed, and whether it is inside the lock. *)
Definition owner p : option nat :=
  match p with
  | AllocUnlock _ _ found | AllocFinish _ _ found => found
  | Running n => Some n
  | FreeLock _ ct | FreeCrit _ ct => Some (Z.to_nat ct)
  | SuspendLock _ ct _ _ _ | SuspendCrit _ ct _ _ _ => Some (Z.to_nat ct)
  | _ => None
  end.
Definition in_lock p : bool :=
  match p with
  | AllocScan _ _ _ | AllocUnlock _ _ _ | FreeCrit _ _ | FreeUnlock
  | SuspendCrit _ _ _ _ _ | SuspendUnlock => true
  | _ => false
  end.
(** What [curr_thread] of the core is. *)
Definition curr_of p : Z :=
  match p with
  | Running n => Z.of_nat n
  | FreeLock _ ct | FreeCrit _ ct => ct
  | SuspendLock _ ct _ _ _ | SuspendCrit _ ct _ _ _ => ct
  | _ => -1
  end.
Definition needs_mask p : bool := match p with Outside | Running _ => false | _ => true end.
Definition waiting p : bool :=
  match p with AllocLock _ _ | FreeLock _ _ | SuspendLock _ _ _ _ _ => true | _ => false end.

(** None of the first [n] threads is free. *)
Definition none_free s n : Prop :=
  forall k, (k < n)%nat -> states s !! k <> Some THREAD_STATE_FREE.

Definition pos_ok s c p : Prop :=
  match p with
  | AllocLock i _ | AllocFinish i _ _ => i = Z.of_nat c
  | AllocScan i _ n => i = Z.of_nat c /\ (n <= CFG_NUM_THREADS)%nat /\ none_free s n
  | AllocUnlock i _ found => i = Z.of_nat c /\ (found = None -> none_free s CFG_NUM_THREADS)
  | FreeLock i ct | FreeCrit i ct => i = Z.of_nat c /\ 0 <= ct
  | SuspendLock i ct _ _ _ | SuspendCrit i ct _ _ _ => i = Z.of_nat c /\ 0 <= ct
  | _ => True
  end.

Definition core_ok s c p : Prop :=
  exists l r, core_locals s !! c = Some l /\ cores s !! c = Some r /\
    (needs_mask p = true -> Z.testbit (core_cpsr r) 7 = true) /\
    curr_thread l = curr_of p /\ count_is (Z.b2z (in_lock p)) l /\ pos_ok s c p.

Record inv (m : machine W) : Prop := {
  inv_threads : length (threads (shared m)) = CFG_NUM_THREADS;
  inv_canaries : canaries_ok (shared m);
  inv_core : forall c, (c < CFG_TEE_CORE_NB_CORE)%nat -> core_ok (shared m) c (pos m c);
  inv_active : forall n, states (shared m) !! n = Some THREAD_STATE_ACTIVE <->
    exists c, (c < CFG_TEE_CORE_NB_CORE)%nat /\ owner (pos m c) = Some n;
  inv_unique : forall c c' n, (c < CFG_TEE_CORE_NB_CORE)%nat -> (c' < CFG_TEE_CORE_NB_CORE)%nat ->
    owner (pos m c) = Some n -> owner (pos m c') = Some n -> c = c';
  inv_lock : thread_global_lock (shared m) = SPINLOCK_LOCK /\
       (exists c, (c < CFG_TEE_CORE_NB_CORE)%nat /\ in_lock (pos m c) = true) \/
     thread_global_lock (shared m) = SPINLOCK_UNLOCK /\
       (forall c, (c < CFG_TEE_CORE_NB_CORE)%nat -> in_lock (pos m c) = false);
  inv_holder : forall c c', (c < CFG_TEE_CORE_NB_CORE)%nat -> (c' < CFG_TEE_CORE_NB_CORE)%nat ->
    in_lock (pos m c) = true -> in_lock (pos m c') = true -> c = c';
}.

(** What a segment of core [c] may change. *)
Inductive claim_change s s' p p' : Prop :=
| claim_none : states s' = states s -> owner p' = owner p -> claim_change s s' p p'
| claim_take n : states s !! n = Some THREAD_STATE_FREE ->
    states s' = <[n := THREAD_STATE_ACTIVE]> (states s) ->
    owner p = None -> owner p' = Some n -> in_lock p = true -> claim_change s s' p p'
| claim_give n x : x <> THREAD_STATE_ACTIVE -> states s' = <[n := x]> (states s) ->
    owner p = Some n -> owner p' = None -> in_lock p = true -> claim_change s s' p p'.
Inductive lock_change s s' p p' : Prop :=
| lock_same : thread_global_lock s' = thread_global_lock s -> in_lock p' = in_lock p -> lock_change s s' p p'
| lock_take : thread_global_lock s = SPINLOCK_UNLOCK -> thread_global_lock s' = SPINLOCK_LOCK ->
    in_lock p' = true -> lock_change s s' p p'
| lock_give : thread_global_lock s' = SPINLOCK_UNLOCK ->
    in_lock p = true -> in_lock p' = false -> lock_change s s' p p'.
Record effect (c : nat) s s' p p' : Prop := {
  eff_threads : length (threads s') = length (threads s);
  eff_locals : forall c', c' <> c -> core_locals s' !! c' = core_locals s !! c';
  eff_cores : forall c', c' <> c -> cores s' !! c' = cores s !! c';
  eff_canaries : canaries_ok s -> canaries_ok s';
  eff_core : core_ok s' c p';
  eff_claim : claim_change s s' p p';
  eff_lock : lock_change s s' p p';
}.

(** A core other than the one that moves keeps its part of the invariant. *)
Lemma effect_other m c p' s' c' :
  inv m -> (c < CFG_TEE_CORE_NB_CORE)%nat -> (c' < CFG_TEE_CORE_NB_CORE)%nat -> c' <> c ->
  effect c (shared m) s' (pos m c) p' -> core_ok s' c' (pos m c').
Proof.
  intros HI Hc Hc' Hne HE.
  destruct (inv_core m HI c' Hc') as (l & r & Hl & Hr & Hm & Hcur & Hn & Hp).
  exists l, r. rewrite (eff_locals _ _ _ _ _ HE), (eff_cores _ _ _ _ _ HE) by done.
  repeat (split; [done|]).
  assert (Hfree : in_lock (pos m c') = true -> forall n, none_free (shared m) n -> none_free s' n).
  { intros Hh' n Hk k Hlt.
    destruct (eff_claim _ _ _ _ _ HE) as [Heq _|n0 Hfree Heq _ _ _|n0 x Hx Heq Ho _ Hh].
    - rewrite Heq. by apply Hk.
    - rewrite Heq. destruct (decide (k = n0)) as [->|].
      + rewrite list_lookup_insert_eq; [done|by eapply lookup_lt_Some].
      + rewrite list_lookup_insert_ne by done. by apply Hk.
    - exfalso. apply Hne. by apply (inv_holder m HI). }
  destruct (pos m c'); try exact Hp; cbn in Hp |- *.
  - destruct Hp as (? & ? & ?). auto.
  - destruct Hp as (? & ?). auto.
Qed.

Lemma pos_upd m s' c p' c' :
  pos (mk_machine s' (<[c := p']> (pos m))) c' = if decide (c' = c) then p' else pos m c'.
Proof.
  cbn. destruct (decide (c' = c)) as [->|]; [apply fn_lookup_insert|by apply fn_lookup_insert_ne].
Qed.

Lemma effect_active m c p' s' :
  inv m -> (c < CFG_TEE_CORE_NB_CORE)%nat -> effect c (shared m) s' (pos m c) p' ->
  forall n, states s' !! n = Some THREAD_STATE_ACTIVE <->
    exists c', (c' < CFG_TEE_CORE_NB_CORE)%nat /\
      owner (pos (mk_machine s' (<[c := p']> (pos m))) c') = Some n.
Proof.
  intros HI Hc HE n. pose proof (inv_active m HI n) as HA. setoid_rewrite pos_upd.
  destruct (eff_claim _ _ _ _ _ HE) as [Heq Ho|n0 Hfree Heq Ho Ho' _|n0 x Hx Heq Ho Ho' _].
  - rewrite Heq, HA. split; intros (c' & Hc' & Hn); exists c'; (split; [done|]);
      case_decide; subst; congruence.
  - rewrite Heq. destruct (decide (n = n0)) as [->|Hne].
    + rewrite list_lookup_insert_eq by (by eapply lookup_lt_Some). split; [|done]. intros _.
      exists c. split; [done|]. by rewrite decide_True.
    + rewrite list_lookup_insert_ne, HA by done.
      split; intros (c' & Hc' & Hn); exists c'; (split; [done|]); case_decide; subst; congruence.
  - rewrite Heq. destruct (decide (n = n0)) as [->|Hne].
    + assert (Hin : states (shared m) !! n0 = Some THREAD_STATE_ACTIVE)
        by (apply (inv_active m HI); eauto).
      rewrite list_lookup_insert_eq by (by eapply lookup_lt_Some). split; [congruence|].
      intros (c' & Hc' & Hn). case_decide; [congruence|].
      exfalso. by eapply (fun H => H (inv_unique m HI c' c n0 Hc' Hc Hn Ho)).
    + rewrite list_lookup_insert_ne, HA by done.
      split; intros (c' & Hc' & Hn); exists c'; (split; [done|]); case_decide; subst; congruence.
Qed.

Lemma effect_unique m c p' s' :
  inv m -> (c < CFG_TEE_CORE_NB_CORE)%nat -> effect c (shared m) s' (pos m c) p' ->
  forall c' n, (c' < CFG_TEE_CORE_NB_CORE)%nat -> c' <> c ->
    owner p' = Some n -> owner (pos m c') = Some n -> False.
Proof.
  intros HI Hc HE c' n Hc' Hne Ho' Hn.
  destruct (eff_claim _ _ _ _ _ HE) as [_ Ho|n0 Hfree _ Ho Ho'' _|n0 x _ _ _ Ho'' _].
  - apply Hne. eapply (inv_unique m HI); eauto. congruence.
  - assert (n0 = n) as -> by congruence.
    assert (Ha : states (shared m) !! n = Some THREAD_STATE_ACTIVE) by (apply (inv_active m HI); eauto).
    congruence.
  - congruence.
Qed.

Lemma effect_lock m c p' s' :
  inv m -> (c < CFG_TEE_CORE_NB_CORE)%nat -> effect c (shared m) s' (pos m c) p' ->
  (thread_global_lock s' = SPINLOCK_LOCK /\
     (exists c', (c' < CFG_TEE_CORE_NB_CORE)%nat /\
        in_lock (if decide (c' = c) then p' else pos m c') = true) \/
   thread_global_lock s' = SPINLOCK_UNLOCK /\
     (forall c', (c' < CFG_TEE_CORE_NB_CORE)%nat ->
        in_lock (if decide (c' = c) then p' else pos m c') = false)) /\
  (forall c', (c' < CFG_TEE_CORE_NB_CORE)%nat -> c' <> c ->
     in_lock p' = true -> in_lock (pos m c') = true -> False).
Proof.
  intros HI Hc HE. pose proof (inv_holder m HI) as HU.
  destruct (eff_lock _ _ _ _ _ HE) as [Hl Hh|Hl Hl' Hh|Hl' Hh Hh'].
  - rewrite Hl. split.
    + destruct (inv_lock m HI) as [[HL (c0 & Hc0 & H0)]|[HL H0]]; [left|right]; (split; [done|]).
      * exists c0. split; [done|]. case_decide; subst; congruence.
      * intros c' Hc'. case_decide; [subst; rewrite Hh|]; auto.
    + intros c' Hc' Hne H1 H2. apply Hne. apply HU; auto. congruence.
  - destruct (inv_lock m HI) as [[HL _]|[_ H0]]; [by rewrite Hl in HL|]. split.
    + left. split; [done|]. exists c. by rewrite decide_True.
    + intros c' Hc' _ _ H1. by rewrite H0 in H1.
  - split; [|congruence]. right. split; [done|]. intros c' Hc'. case_decide; [done|].
    destruct (in_lock (pos m c')) eqn:E; [|done]. exfalso. eauto.
Qed.

Lemma effect_inv m c p' s' :
  inv m -> (c < CFG_TEE_CORE_NB_CORE)%nat -> effect c (shared m) s' (pos m c) p' ->
  inv (mk_machine s' (<[c := p']> (pos m))).
Proof.
  intros HI Hc HE. destruct (effect_lock m c p' s' HI Hc HE) as [HL HH]. split; cbn [shared].
  - rewrite (eff_threads _ _ _ _ _ HE). by apply inv_threads.
  - apply (eff_canaries _ _ _ _ _ HE), (inv_canaries m HI).
  - intros c' Hc'. rewrite pos_upd. case_decide; [subst; apply (eff_core _ _ _ _ _ HE)|].
    by apply (effect_other m c p').
  - by apply effect_active.
  - intros c1 c2 n H1 H2. rewrite !pos_upd. repeat case_decide; subst; intros Ho1 Ho2; [done| | |].
    + exfalso. eapply (effect_unique m c p' s' HI Hc HE c2 n); auto.
    + exfalso. eapply (effect_unique m c p' s' HI Hc HE c1 n); auto.
    + by eapply (inv_unique m HI).
  - setoid_rewrite pos_upd. exact HL.
  - intros c1 c2 H1 H2. rewrite !pos_upd. repeat case_decide; subst; intros Ho1 Ho2; [done| | |].
    + exfalso. eauto.
    + exfalso. eauto.
    + by apply (inv_holder m HI).
Qed.

(** ** Every segment respects the invariant *)

(** The frame part of an effect whose final state is given explicitly. *)
Local Ltac eff_frame :=
  split;
  [ cbn; by rewrite ?length_insert
  | intros; cbn; by rewrite ?list_lookup_insert_ne by done
  | intros; cbn; by rewrite ?list_lookup_insert_ne by done
  | exact (fun H => H) | | | ].
Local Ltac at_core l r :=
  exists l, r; cbn; rewrite ?list_lookup_insert_eq by (by eapply lookup_lt_Some);
  split; [done|split; [done|]].

(** What a core relies on when it runs its next segment. *)
Definition seg_ok (c : nat) (ev : event) s p : Prop :=
  match core_run c ev p s with
  | Ret p' s' => effect c s s' p p'
  | Spin => waiting p = true /\ thread_global_lock s = SPINLOCK_LOCK
  | _ => False
  end.

Lemma effect_refl c s p : core_ok s c p -> effect c s s p p.
Proof. intros H. eff_frame; [done|by apply claim_none|by apply lock_same]. Qed.

Lemma states_insert s n t' :
  state <$> <[n := t']> (threads s) = <[n := state t']> (states s).
Proof. unfold states. apply list_fmap_insert. Qed.
Lemma states_insert_id s n t t' :
  threads s !! n = Some t -> state t' = state t ->
  state <$> <[n := t']> (threads s) = states s.
Proof.
  intros Ht He. rewrite states_insert, He. apply list_insert_id. unfold states.
  by rewrite list_lookup_fmap, Ht.
Qed.
Lemma states_lookup s n x :
  states s !! n = Some x -> exists t, threads s !! n = Some t /\ state t = x.
Proof. unfold states. rewrite list_lookup_fmap. destruct (threads s !! n); naive_solver. Qed.

(** Taking the lock, at any of the positions that wait for it. *)
Lemma lock_seg_ok c s p q :
  (c < CFG_TEE_CORE_NB_CORE)%nat -> core_ok s c p -> waiting p = true -> in_lock q = true ->
  owner q = owner p -> curr_of q = curr_of p ->
  pos_ok (set_lock SPINLOCK_LOCK s) c q ->
  (thread_global_lock s = SPINLOCK_LOCK \/ thread_global_lock s = SPINLOCK_UNLOCK) ->
  match (lock_global c ;;; ret q) s with
  | Ret p' s' => effect c s s' p p'
  | Spin => waiting p = true /\ thread_global_lock s = SPINLOCK_LOCK
  | _ => False
  end.
Proof.
  intros Hc (l & r & Hl & Hr & Hm & Hcur & Hn & Hp) Hw Hh Ho Hcu Hq [Hlk|Hlk].
  - unfold bind. rewrite lock_global_spins; [done| |done].
    exists r. split; [done|]. apply Hm. by destruct p.
  - assert (Hhp : in_lock p = false) by (by destruct p). rewrite Hhp in Hn.
    erewrite bind_run.
    2:{ apply lock_global_run with (l := l); try done. exists r. split; [done|]. apply Hm. by destruct p. }
    cbn. eff_frame.
    + at_core (with_count 1 l) r. rewrite Hh, Hcu, curr_with_count.
      split; [intros _; apply Hm; by destruct p|]. split; [done|].
      split; [apply count_with_count|done].
    + by apply claim_none.
    + by apply lock_take.
Qed.

Lemma unlock_seg_ok c s p q :
  (c < CFG_TEE_CORE_NB_CORE)%nat -> core_ok s c p -> in_lock p = true -> in_lock q = false ->
  owner q = owner p -> curr_of q = curr_of p -> pos_ok (set_lock SPINLOCK_UNLOCK s) c q ->
  match (unlock_global c ;;; ret q) s with
  | Ret p' s' => effect c s s' p p'
  | _ => False
  end.
Proof.
  intros Hc (l & r & Hl & Hr & Hm & Hcur & Hn & Hp) Hh Hhq Ho Hcu Hq. rewrite Hh in Hn.
  assert (Hmask : Z.testbit (core_cpsr r) 7 = true) by (apply Hm; by destruct p).
  erewrite bind_run.
  2:{ apply unlock_global_run with (l := l); try done. by exists r. }
  cbn. eff_frame.
  - at_core (with_count 0 l) r. rewrite Hhq, Hcu, curr_with_count. split; [done|].
    split; [done|]. split; [apply count_with_count|done].
  - by apply claim_none.
  - by apply lock_give.
Qed.

Lemma call_seg_ok c cp args s :
  (c < CFG_TEE_CORE_NB_CORE)%nat -> canaries_ok s -> event_ok (EvCall cp args) ->
  core_ok s c Outside -> seg_ok c (EvCall cp args) s Outside.
Proof.
  intros Hc Hcan Hev (l & r & Hl & Hr & _ & Hcur & Hn & _). unfold seg_ok, core_run.
  apply fia_masked in Hev. erewrite bind_run by (by apply write_cpsr_run).
  erewrite bind_run by (by apply check_canaries_run).
  erewrite bind_run by (apply (alloc_enter_run _ _ l); [by apply masked_upd|done..]).
  cbn. eff_frame; [|by apply claim_none|by apply lock_same].
  at_core l (set_core_cpsr cp r). done.
Qed.

Lemma scan_seg_ok c ev s i args n :
  length (threads s) = CFG_NUM_THREADS ->
  core_ok s c (AllocScan i args n) -> seg_ok c ev s (AllocScan i args n).
Proof.
  intros Hlen Hcore. pose proof Hcore as (l & r & Hl & Hr & Hm & Hcur & Hn & Hi & Hle & Hk).
  unfold seg_ok, core_run. destruct (Nat.ltb_spec n CFG_NUM_THREADS) as [Hlt|Hge].
  - destruct (lookup_lt_is_Some_2 (threads s) n) as [t Ht]; [lia|].
    unfold bind. rewrite (alloc_try_run s n t Ht). case_bool_decide as Hf; cbn.
    + eff_frame; [at_core l r; by split_and!| |by apply lock_same].
      apply claim_take with n; [|apply states_insert|done..].
      unfold states. by rewrite list_lookup_fmap, Ht, <- Hf.
    + eff_frame; [|by apply claim_none|by apply lock_same].
      exists l, r. split_and!; try done. cbn. split_and!; [done|lia|].
      intros k Hkn.
      destruct (decide (k = n)) as [->|]; [|apply Hk; lia].
      unfold states. rewrite list_lookup_fmap, Ht. cbn. congruence.
  - unfold ret. eff_frame; [|by apply claim_none|by apply lock_same].
    exists l, r. split_and!; try done. split; [done|]. by replace CFG_NUM_THREADS with n by lia.
Qed.

Lemma finish_seg_ok c ev s i args found :
  (forall n, found = Some n -> states s !! n = Some THREAD_STATE_ACTIVE) ->
  core_ok s c (AllocFinish i args found) -> seg_ok c ev s (AllocFinish i args found).
Proof.
  intros Hact (l & r & Hl & Hr & Hm & Hcur & Hn & Hi). unfold seg_ok, core_run.
  cbn in Hi; subst i. destruct found as [n|].
  - destruct (states_lookup s n _ (Hact n eq_refl)) as (t & Ht & Hst).
    erewrite bind_run by (by apply alloc_finish_run). cbn. eff_frame.
    + at_core (set_curr_thread (Z.of_nat n) l) (set_core_cpsr (entry_cpsr (core_cpsr r)) r). done.
    + apply claim_none; [by apply (states_insert_id s n t)|done].
    + by apply lock_same.
  - cbn. eff_frame; [|by apply claim_none|by apply lock_same].
    exists l, r. repeat (split; [done|]). done.
Qed.

Lemma flags_effect_ok c n s s' :
  core_ok s c (Running n) -> flags_effect c n s s' -> effect c s s' (Running n) (Running n).
Proof.
  intros (l & r & Hl & Hr & Hm & Hcur & Hn & _) (t & r' & f & v & Ht & Hr' & ->). simplify_eq.
  eff_frame.
  - at_core l (set_core_cpsr v r). done.
  - apply claim_none; [by apply (states_insert_id s n t)|done].
  - by apply lock_same.
Qed.

Lemma running_seg_ok c ev s n :
  (c < CFG_TEE_CORE_NB_CORE)%nat -> canaries_ok s -> states s !! n = Some THREAD_STATE_ACTIVE ->
  core_ok s c (Running n) -> seg_ok c ev s (Running n).
Proof.
  intros Hc Hcan Hact Hcore. pose proof Hcore as (l & r & Hl & Hr & _ & Hcur & Hn & _).
  destruct (states_lookup s n _ Hact) as (t & Ht & Hst). cbn in Hcur, Hn.
  assert (Hpos : 0 <= curr_thread l) by lia.
  unfold seg_ok, core_run. destruct ev as [cp args| |cp tpc|b|].
  - by apply effect_refl.
  - erewrite bind_run by (by apply cpsid_run).
    set (s1 := upd_cores _ s). assert (Hm : masked s1 c) by (apply masked_upd; [done|apply fia_bit]).
    erewrite bind_run by (by apply (tmp_sp_run s1 c l)).
    erewrite bind_run by (by apply (free_enter_run s1 c l)).
    cbn. eff_frame; [|apply claim_none; [done|cbn; f_equal; lia]|by apply lock_same].
    at_core l (set_core_cpsr (Z.lor (core_cpsr r) ARM32_CPSR_FIA) r). split; [intros _; apply fia_bit|].
    split_and!; [done..|lia].
  - erewrite bind_run by (by apply cpsid_run).
    set (s1 := upd_cores _ s). assert (Hm : masked s1 c) by (apply masked_upd; [done|apply fia_bit]).
    erewrite bind_run.
    2:{ unfold suspend_enter. erewrite bind_run by (by apply (free_enter_run s1 c l)).
        by erewrite bind_run by (by apply check_canaries_run). }
    cbn. eff_frame; [|apply claim_none; [done|cbn; f_equal; lia]|by apply lock_same].
    at_core l (set_core_cpsr (Z.lor (core_cpsr r) ARM32_CPSR_FIA) r). split; [intros _; apply fia_bit|].
    split_and!; [done..|lia].
  - destruct (wp_elim _ _ _ (set_foreign_run s c r l n t b Hc Hr Hl Hn Hcur Ht)) as ([] & s' & Hrun & HE).
    erewrite bind_run by exact Hrun. by apply flags_effect_ok.
  - destruct (wp_elim _ _ _ (restore_foreign_run s c r l n t Hc Hr Hl Hn Hcur Ht)) as ([] & s' & Hrun & HE).
    erewrite bind_run by exact Hrun. by apply flags_effect_ok.
Qed.

Lemma give_seg_ok c s s' p q n t t' l r :
  core_locals s !! c = Some l -> cores s !! c = Some r -> threads s !! n = Some t ->
  Z.testbit (core_cpsr r) 7 = true -> count_is 1 l ->
  state t' <> THREAD_STATE_ACTIVE -> owner p = Some n -> in_lock p = true ->
  q = FreeUnlock \/ q = SuspendUnlock ->
  s' = upd_core_locals (insert c (set_curr_thread (-1) l)) (upd_threads (insert n t') s) ->
  effect c s s' p q.
Proof.
  intros Hl Hr Ht Hm Hn Hst Ho Hh Hq ->. eff_frame.
  - at_core (set_curr_thread (-1) l) r. destruct Hq as [-> | ->]; done.
  - apply claim_give with n (state t'); [done|apply states_insert|done| |done].
    by destruct Hq as [-> | ->].
  - apply lock_same; [done|]. by destruct Hq as [-> | ->].
Qed.

(** Any next segment of any core either completes with an effect that keeps
    the invariant, or waits for the lock; it never fails an assertion and never
    leaves an array. *)
Lemma core_run_ok m c ev :
  inv m -> (c < CFG_TEE_CORE_NB_CORE)%nat -> event_ok ev -> seg_ok c ev (shared m) (pos m c).
Proof.
  intros HI Hc Hev. pose proof (inv_core m HI c Hc) as Hcore.
  assert (Hlk : thread_global_lock (shared m) = SPINLOCK_LOCK \/
                thread_global_lock (shared m) = SPINLOCK_UNLOCK)
    by (destruct (inv_lock m HI) as [[? _]|[? _]]; auto).
  assert (Hact : forall n, owner (pos m c) = Some n ->
                   states (shared m) !! n = Some THREAD_STATE_ACTIVE)
    by (intros n Ho; apply (inv_active m HI); eauto).
  assert (Hunlock : forall q, in_lock (pos m c) = true -> in_lock q = false -> owner q = owner (pos m c) ->
     curr_of q = curr_of (pos m c) -> pos_ok (set_lock SPINLOCK_UNLOCK (shared m)) c q ->
     match (unlock_global c ;;; ret q) (shared m) with
     | Ret p' s' => effect c (shared m) s' (pos m c) p'
     | Spin => waiting (pos m c) = true /\ thread_global_lock (shared m) = SPINLOCK_LOCK
     | _ => False
     end).
  { intros q H1 H2 H3 H4 H5.
    pose proof (unlock_seg_ok c (shared m) (pos m c) q Hc Hcore H1 H2 H3 H4 H5) as HU.
    by destruct ((unlock_global c ;;; ret q) (shared m)). }
  destruct (pos m c) as [|i args|i args n|i args found|i args found|n|i ct|i ct| |i ct fl cp tpc|i ct fl cp tpc|];
    pose proof Hcore as (l & r & Hl & Hr & Hm & Hcur & Hn & Hp); cbn in Hp, Hcur.
  - destruct ev; try (by apply effect_refl). by apply call_seg_ok; [|apply inv_canaries|..].
  - apply lock_seg_ok; try done. cbn. split_and!; [done|lia|]. intros k Hk. lia.
  - apply scan_seg_ok; [by apply inv_threads|done].
  - destruct Hp. by apply Hunlock.
  - by apply finish_seg_ok.
  - by apply running_seg_ok; [|apply inv_canaries|apply Hact|].
  - by apply lock_seg_ok.
  - destruct Hp as [-> H0]. destruct (states_lookup _ _ _ (Hact _ eq_refl)) as (t & Ht & Hst).
    pose proof (free_crit_run (shared m) c l _ t Hl Ht Hst) as Hrun.
    rewrite Z2Nat.id in Hrun by done. unfold seg_ok, core_run. erewrite bind_run by exact Hrun.
    by apply (give_seg_ok c (shared m) _ _ _ (Z.to_nat ct) t (freed t) l r); auto.
  - by apply Hunlock.
  - by apply lock_seg_ok.
  - destruct Hp as [-> H0]. destruct (states_lookup _ _ _ (Hact _ eq_refl)) as (t & Ht & Hst).
    pose proof (suspend_crit_run (shared m) c l _ t fl cp tpc Hl Ht Hst) as Hrun.
    rewrite Z2Nat.id in Hrun by done. unfold seg_ok, core_run. erewrite bind_run by exact Hrun.
    by apply (give_seg_ok c (shared m) _ _ _ (Z.to_nat ct) t (suspended fl cp tpc t) l r); auto.
  - by apply Hunlock.
Qed.

Lemma mstep_inv (m m' : machine W) : inv m -> mstep m m' -> inv m'.
Proof.
  intros HI Hstep. destruct Hstep as [c ev m p' s' Hc Hev Hrun].
  pose proof (core_run_ok m c ev HI Hc Hev) as HS. unfold seg_ok in HS. rewrite Hrun in HS.
  by apply effect_inv.
Qed.
Lemma msteps_inv (m m' : machine W) : inv m -> rtc mstep m m' -> inv m'.
Proof. intros HI Hsteps. induction Hsteps; eauto using mstep_inv. Qed.
End invariant.

(** ** Booting *)

Section boot.
Context `{cfg : Config} `{tcfg : ThreadConfig} {W : Type}.
Implicit Types (s : tstate W) (c n : nat).

Lemma for_each_eq {T A} (l : list A) (f g : A -> M T unit) (s : T) :
  (forall x (s' : T), x ∈ l -> f x s' = g x s') -> for_each l f s = for_each l g s.
Proof.
  revert s. induction l as [|x l IH]; intros s H; [done|]. cbn [for_each]. unfold bind.
  rewrite (H x s) by set_solver. destruct (g x s); [|done..]. apply IH. set_solver.
Qed.

(** A loop that updates each thread in turn updates the whole table. *)
Lemma for_each_threads (f : nat -> thread_ctx -> thread_ctx) rest : forall pre s,
  threads s = pre ++ rest ->
  for_each (seq (length pre) (length rest)) (fun n => upd_thread (Z.of_nat n) (f n)) s
  = Ret tt (upd_threads (fun _ => pre ++ imap (fun i => f (length pre + i)%nat) rest) s).
Proof.
  induction rest as [|t rest IH]; intros pre s Hs; cbn [length seq for_each].
  - unfold ret. cbn. rewrite app_nil_r in *. destruct s; cbn in *. by subst.
  - erewrite bind_run.
    2:{ apply (upd_thread_run _ _ t). rewrite Hs, lookup_app_r, Nat.sub_diag by lia. done. }
    replace (S (length pre)) with (length (pre ++ [f (length pre) t])) by (rewrite length_app; cbn; lia).
    rewrite (IH (pre ++ [f (length pre) t])).
    + unfold upd_threads; cbn. rewrite <- app_assoc. cbn. rewrite Nat.add_0_r. do 4 f_equal.
      apply imap_ext. intros i x _. cbn. f_equal. rewrite length_app. cbn. lia.
    + cbn. rewrite Hs, insert_app_r_alt, Nat.sub_diag by lia. cbn. by rewrite <- app_assoc.
Qed.
Lemma for_each_locals (f : thread_core_local -> thread_core_local) rest : forall pre s,
  core_locals s = pre ++ rest ->
  for_each (seq (length pre) (length rest)) (fun n => upd_local (Z.of_nat n) f) s
  = Ret tt (upd_core_locals (fun _ => pre ++ (f <$> rest)) s).
Proof.
  induction rest as [|t rest IH]; intros pre s Hs; cbn [length seq for_each].
  - unfold ret. cbn. rewrite app_nil_r in *. destruct s; cbn in *. by subst.
  - erewrite bind_run.
    2:{ apply (upd_local_run _ _ t). rewrite Hs, lookup_app_r, Nat.sub_diag by lia. done. }
    replace (S (length pre)) with (length (pre ++ [f t])) by (rewrite length_app; cbn; lia).
    rewrite (IH (pre ++ [f t])).
    + unfold upd_core_locals; cbn. by rewrite <- app_assoc.
    + cbn. rewrite Hs, insert_app_r_alt, Nat.sub_diag by lia. cbn. by rewrite <- app_assoc.
Qed.

(** The state in which [reset_primary] leaves the data of this file: the
    tables are zero, the stacks hold anything. *)
Definition cold s : Prop :=
  (0 < CFG_NUM_THREADS)%nat /\ (0 < CFG_TEE_CORE_NB_CORE)%nat /\
  length (threads s) = CFG_NUM_THREADS /\
  Forall (fun t => state t = THREAD_STATE_FREE) (threads s) /\
  length (core_locals s) = CFG_TEE_CORE_NB_CORE /\
  Forall (fun l => locked_count l = 0) (core_locals s) /\
  length (cores s) = CFG_TEE_CORE_NB_CORE /\
  thread_global_lock s = SPINLOCK_UNLOCK /\
  Forall (fun st => (2 <= length st)%nat) (stack_tmp s ++ stack_abt s ++ stack_thread s).

Lemma init_canary_ok st : (2 <= length st)%nat -> canary_ok (init_canary st).
Proof.
  intros H. unfold canary_ok, init_canary. rewrite !length_insert. split.
  - rewrite list_lookup_insert_ne by lia. apply list_lookup_insert_eq. lia.
  - apply list_lookup_insert_eq. rewrite length_insert. lia.
Qed.
Lemma init_canary_all l :
  Forall (fun st => (2 <= length st)%nat) l -> Forall canary_ok (init_canary <$> l).
Proof. induction 1; cbn; constructor; auto using init_canary_ok. Qed.

(** [thread_init_primary] gives thread [n] the stack [stack_thread[n]]. *)
Lemma init_primary_run s h :
  length (threads s) = CFG_NUM_THREADS ->
  Forall (fun st => (2 <= length st)%nat) (stack_tmp s ++ stack_abt s ++ stack_thread s) ->
  wp (thread_init_primary h) s (fun _ s' =>
    threads s' = imap (fun n => set_stack_va_end (GET_STACK stack_thread_addr STACK_THREAD_SIZE n))
                   (threads s) /\
    core_locals s' = core_locals s /\ cores s' = cores s /\
    thread_global_lock s' = thread_global_lock s /\ handlers s' = h /\ canaries_ok s').
Proof.
  intros Hlen Hst. unfold thread_init_primary, wp, init_handlers. erewrite bind_run by done.
  set (s1 := set_handlers h s).
  assert (Hcan : exists s2, init_canaries s1 = Ret tt s2 /\ threads s2 = threads s /\
    core_locals s2 = core_locals s /\ cores s2 = cores s /\
    thread_global_lock s2 = thread_global_lock s /\ handlers s2 = h /\ canaries_ok s2).
  { unfold init_canaries, canaries_ok. destruct CFG_WITH_STACK_CANARIES; cbn [when].
    - eexists. split; [done|]. repeat (split; [done|]). intros _. cbn.
      apply Forall_app in Hst as [? Hst]. apply Forall_app in Hst as [? ?].
      split_and!; by apply init_canary_all.
    - eexists. split; [done|]. repeat (split; [done|]). done. }
  destruct Hcan as (s2 & Hrun & Ht & Hl & Hc & Hlk & Hh & Hcan).
  erewrite bind_run by exact Hrun. unfold init_thread_stacks.
  rewrite (for_each_eq _ _ (fun n => upd_thread (Z.of_nat n)
             (set_stack_va_end (GET_STACK stack_thread_addr STACK_THREAD_SIZE n)))).
  - rewrite <- Hlen, <- Ht. pose proof (for_each_threads (fun n => set_stack_va_end
      (GET_STACK stack_thread_addr STACK_THREAD_SIZE n)) (threads s2) [] s2 eq_refl) as HF.
    cbn [length app Nat.add] in HF. rewrite HF. cbn. split_and!; done.
  - intros n s' Hn%elem_of_seq. unfold thread_init_stack.
    rewrite Z.geb_leb, (proj2 (Z.leb_gt _ _)) by lia.
    unfold bind. by destruct (upd_thread _ _ s') as [[] ?| | |].
Qed.

(** During boot: thread [0] is active on core [0], every other thread free. *)
Definition booting (k : bool) s : Prop :=
  length (threads s) = CFG_NUM_THREADS /\ length (core_locals s) = CFG_TEE_CORE_NB_CORE /\
  length (cores s) = CFG_TEE_CORE_NB_CORE /\ thread_global_lock s = SPINLOCK_UNLOCK /\
  (forall n t, threads s !! n = Some t ->
     state t = if k && (n =? 0)%nat then THREAD_STATE_ACTIVE else THREAD_STATE_FREE) /\
  (forall c l, core_locals s !! c = Some l ->
     curr_thread l = (if k && (c =? 0)%nat then 0 else -1) /\ locked_count l = 0).

Lemma init_boot_thread_run s :
  cold s -> masked s 0%nat ->
  wp (thread_init_boot_thread 0) s (fun _ s' =>
    booting true s' /\ cores s' = cores s /\ stack_tmp s' = stack_tmp s /\
    stack_abt s' = stack_abt s /\ stack_thread s' = stack_thread s).
Proof.
  intros (Hnt & Hnc & Hlt & Hfree & Hll & Hlc & Hlr & Hlk & Hst) Hm.
  unfold thread_init_boot_thread, wp. erewrite bind_run by (by apply core_local_run).
  erewrite bind_run.
  2:{ rewrite <- Hlt. exact (for_each_threads (fun _ => set_sess_stack_init) (threads s) [] s eq_refl). }
  set (s1 := upd_threads _ s). erewrite bind_run.
  2:{ rewrite <- Hll. exact (for_each_locals (set_curr_thread (-1)) (core_locals s1) [] s1 eq_refl). }
  destruct (lookup_lt_is_Some_2 (core_locals s) 0) as [l Hl]; [lia|].
  destruct (lookup_lt_is_Some_2 (threads s) 0) as [t Ht]; [lia|].
  erewrite bind_run.
  2:{ apply (upd_local_run _ 0 (set_curr_thread (-1) l)). cbn. by rewrite list_lookup_fmap, Hl. }
  rewrite (upd_thread_run _ 0 (set_sess_stack_init t))
    by (cbn; by rewrite list_lookup_imap, Ht).
  cbn. split; [|done]. unfold booting; cbn.
  rewrite !length_insert, length_imap, length_fmap. split_and!; try done.
  - intros n t' Hn. destruct n as [|n]; cbn [Nat.eqb].
    + rewrite list_lookup_insert_eq in Hn by (rewrite length_imap; lia). by simplify_eq.
    + rewrite list_lookup_insert_ne, list_lookup_imap in Hn by done.
      destruct (threads s !! S n) eqn:E; simplify_eq/=. by eapply (Forall_lookup_1 _ _ _ _ Hfree).
  - intros c' l' Hc'. destruct c' as [|c']; cbn [Nat.eqb].
    + rewrite list_lookup_insert_eq in Hc' by (rewrite length_fmap; lia). simplify_eq/=.
      split; [done|]. by eapply (Forall_lookup_1 _ _ _ _ Hlc).
    + rewrite list_lookup_insert_ne, list_lookup_fmap in Hc' by done.
      destruct (core_locals s !! S c') eqn:E; simplify_eq/=.
      split; [done|]. by eapply (Forall_lookup_1 _ _ _ _ Hlc).
Qed.

Lemma init_per_cpu_run k s :
  booting k s -> masked s 0%nat -> (0 < CFG_TEE_CORE_NB_CORE)%nat -> canaries_ok s ->
  wp (thread_init_per_cpu 0) s (fun _ s' =>
    booting k s' /\ masked s' 0%nat /\ threads s' = threads s /\ handlers s' = handlers s /\
    canaries_ok s').
Proof.
  intros (Hlt & Hll & Hlr & Hlk & Hs & Hc) Hm Hnc Hcan. pose proof Hm as (r & Hr & Hb).
  destruct (lookup_lt_is_Some_2 (core_locals s) 0) as [l Hl]; [lia|].
  unfold thread_init_per_cpu, init_sec_mon, sm_init, set_tmp_stack, set_abt_stack, wp.
  erewrite bind_run by (by apply core_local_run).
  erewrite bind_run by (by apply upd_core_run).
  erewrite bind_run.
  2:{ erewrite bind_run by (by apply (upd_local_run _ 0 l)).
      erewrite bind_run by (by eapply upd_core_run, lookup_upd_core).
      eapply upd_core_run. by eapply lookup_upd_core, lookup_upd_core. }
  erewrite upd_core_run by (by eapply lookup_upd_core, lookup_upd_core, lookup_upd_core).
  unfold booting; cbn. rewrite !length_insert. split_and!; try done.
  - intros c' l' Hc'. destruct c' as [|c'].
    + rewrite list_lookup_insert_eq in Hc' by lia. simplify_eq/=. by apply (Hc 0%nat).
    + rewrite list_lookup_insert_ne in Hc' by done. by apply (Hc (S c')).
  - eexists. cbn. split; [apply list_lookup_insert_eq; rewrite !length_insert; lia|done].
Qed.

Lemma clr_boot_thread_run s :
  booting true s -> masked s 0%nat -> (0 < CFG_TEE_CORE_NB_CORE)%nat ->
  (0 < CFG_NUM_THREADS)%nat -> canaries_ok s ->
  wp (thread_clr_boot_thread 0) s (fun _ s' =>
    booting false s' /\ handlers s' = handlers s /\ canaries_ok s' /\
    stack_va_end <$> threads s' = stack_va_end <$> threads s).
Proof.
  intros (Hlt & Hll & Hlr & Hlk & Hs & Hc) Hm Hnc Hnt Hcan.
  destruct (lookup_lt_is_Some_2 (core_locals s) 0) as [l Hl]; [lia|].
  destruct (lookup_lt_is_Some_2 (threads s) 0) as [t Ht]; [lia|].
  destruct (Hc 0%nat l Hl) as [Hcur Hn]. pose proof (Hs 0%nat t Ht) as Hst. cbn in Hcur, Hst.
  unfold thread_clr_boot_thread, wp. erewrite bind_run by (by apply core_local_run).
  erewrite bind_run.
  2:{ apply massert_ok. erewrite bind_run by (by apply get_local_run). unfold ret. f_equal.
      rewrite Hcur. by apply andb_true_intro; split; [|apply Z.ltb_lt; lia]. }
  erewrite bind_run.
  2:{ apply massert_ok. erewrite bind_run by (by apply get_local_run). rewrite Hcur.
      erewrite bind_run by (by apply (get_thread_run _ 0)). unfold ret. by rewrite bool_decide_eq_true_2. }
  erewrite bind_run by (by apply get_local_run). rewrite Hcur.
  erewrite bind_run by (by apply (upd_thread_run _ 0)).
  rewrite (upd_local_run _ 0 l) by done. unfold booting; cbn. rewrite !length_insert.
  split_and!; try done.
  - intros n t' Hn'. destruct n as [|n].
    + rewrite list_lookup_insert_eq in Hn' by lia. by simplify_eq.
    + rewrite list_lookup_insert_ne in Hn' by done. by apply (Hs (S n)).
  - intros c' l' Hc'. destruct c' as [|c'].
    + rewrite list_lookup_insert_eq in Hc' by lia. by simplify_eq.
    + rewrite list_lookup_insert_ne in Hc' by done. by apply (Hc (S c')).
  - rewrite list_fmap_insert. cbn. apply list_insert_id. by rewrite list_lookup_fmap, Ht.
Qed.

Lemma booted_inv s : booting false s -> canaries_ok s -> inv (mk_machine s (fun _ => Outside)).
Proof.
  intros (Hlt & Hll & Hlr & Hlk & Hs & Hc) Hcan. split; cbn; try done.
  - intros c Hlt'. destruct (lookup_lt_is_Some_2 (core_locals s) c) as [l Hl]; [lia|].
    destruct (lookup_lt_is_Some_2 (cores s) c) as [r Hr]; [lia|]. destruct (Hc c l Hl) as [Hcur Hn].
    exists l, r. split_and!; try done. by intros _.
  - intros n. split; [|by intros (? & _ & ?)]. intros Hst%states_lookup.
    destruct Hst as (t & Ht & Hst). by rewrite (Hs n t Ht) in Hst.
  - by right.
Qed.

Lemma thread_boot_run s h :
  cold s ->
  wp (thread_boot 0 h) s (fun _ s' =>
    inv (mk_machine s' (fun _ => Outside)) /\ booting false s' /\ handlers s' = h /\
    (forall n t, threads s' !! n = Some t ->
       stack_va_end t = GET_STACK stack_thread_addr STACK_THREAD_SIZE n)).
Proof.
  intros Hcold. pose proof Hcold as (Hnt & Hnc & Hlt & Hfree & Hll & Hlc & Hlr & Hlk & Hst).
  destruct (lookup_lt_is_Some_2 (core_locals s) 0) as [l Hl]; [lia|].
  destruct (lookup_lt_is_Some_2 (cores s) 0) as [r Hr]; [lia|].
  assert (Hn : count_is 0 l) by (intros _; by eapply (Forall_lookup_1 _ _ _ _ Hlc)).
  unfold thread_boot. apply wp_bind.
  eapply wp_intro; [by eapply set_exceptions_run|]. set (s1 := upd_cores _ s).
  assert (Hm : masked s1 0%nat) by (apply masked_upd; [done|by rewrite put_excp_foreign]).
  assert (Hcold1 : cold s1) by (unfold cold; cbn; rewrite length_insert; by split_and!).
  apply wp_bind. eapply wp_mono; [|by apply init_boot_thread_run].
  intros [] s2 (Hb & Hcr & Hst1 & Hst2 & Hst3).
  apply wp_bind. eapply wp_mono; [|apply init_primary_run; [apply Hb|by rewrite Hst1, Hst2, Hst3]].
  intros [] s3 (Ht3 & Hl3 & Hc3 & Hlk3 & Hh3 & Hcan3).
  assert (Hb3 : booting true s3).
  { destruct Hb as (H1 & H2 & H3 & H4 & H5 & H6). unfold booting.
    rewrite Ht3, Hl3, Hc3, Hlk3, length_imap. split_and!; try done. intros n t.
    rewrite list_lookup_imap. destruct (threads s2 !! n) eqn:E; intros ?; simplify_eq/=. by apply H5. }
  assert (Hm3 : masked s3 0%nat) by (unfold masked; by rewrite Hc3, Hcr).
  apply wp_bind. eapply wp_mono; [|by apply init_per_cpu_run].
  intros [] s4 (Hb4 & Hm4 & Ht4 & Hh4 & Hcan4).
  eapply wp_mono; [|by apply clr_boot_thread_run].
  intros [] s5 (Hb5 & Hh5 & Hcan5 & Hst5).
  split_and!; [by apply booted_inv|done|congruence|].
  intros n t Ht. assert (Hx : (stack_va_end <$> threads s5) !! n = Some (stack_va_end t))
    by (by rewrite list_lookup_fmap, Ht).
  rewrite Hst5, Ht4, Ht3, list_lookup_fmap, list_lookup_imap in Hx.
  destruct (threads s2 !! n); by simplify_eq/=.
Qed.
End boot.

(** ** A standard call on one core *)

Section call.
Context `{cfg : Config} `{tcfg : ThreadConfig} {W : Type}.
Context (smc_handler : Z -> thread_smc_args -> M (tstate W) thread_smc_args).
Implicit Types (s : tstate W) (c n : nat).

(** The search takes the free thread with the lowest index. *)
Lemma alloc_scan_run s n k :
  none_free s n -> (n + k = length (threads s))%nat ->
  alloc_scan n k s =
    match list_find (fun t => state t = THREAD_STATE_FREE) (threads s) with
    | Some (i, t) => Ret (Some i) (upd_threads (insert i (set_state THREAD_STATE_ACTIVE t)) s)
    | None => Ret None s
    end.
Proof.
  revert n. induction k as [|k IH]; intros n Hn Hk; cbn [alloc_scan].
  - rewrite (proj2 (list_find_None _ _)); [done|]. apply Forall_lookup_2. intros i t Hi Hf.
    apply (Hn i); [apply lookup_lt_Some in Hi; lia|]. unfold states. by rewrite list_lookup_fmap, Hi, <- Hf.
  - destruct (lookup_lt_is_Some_2 (threads s) n) as [t Ht]; [lia|].
    unfold bind. rewrite (alloc_try_run s n t Ht). case_bool_decide as Hf.
    + rewrite (proj2 (list_find_Some _ _ n t)); [done|]. split_and!; [done..|].
      intros j y Hj Hlt Hy. apply (Hn j); [lia|]. unfold states. by rewrite list_lookup_fmap, Hj, <- Hy.
    + apply IH; [|lia]. intros j Hj. destruct (decide (j = n)) as [->|]; [|apply Hn; lia].
      unfold states. rewrite list_lookup_fmap, Ht. cbn. congruence.
Qed.

(** A core that serves no call: what the monitor finds when it enters. *)
Definition idle s c : Prop :=
  (c < CFG_TEE_CORE_NB_CORE)%nat /\ length (threads s) = CFG_NUM_THREADS /\ canaries_ok s /\
  thread_global_lock s = SPINLOCK_UNLOCK /\ masked s c /\
  exists l, core_locals s !! c = Some l /\ curr_thread l = -1 /\ count_is 0 l.

(** Core [c] executes thread [n] for a call with arguments [args]: the thread
    is taken, has the arguments and its own stack, and the lock is open. *)
Definition runs_as s c n (args : thread_smc_args) : Prop :=
  thread_global_lock s = SPINLOCK_UNLOCK /\ masked s c /\
  (exists l, core_locals s !! c = Some l /\ curr_thread l = Z.of_nat n) /\
  (exists t, threads s !! n = Some t /\ state t = THREAD_STATE_ACTIVE /\ flags t = 0 /\
     svc_sp (regs t) = stack_va_end t /\ hyp_clnt_id t = a7 args).

(** The handler leaves the data of the thread layer alone; it may change the
    exception mask. *)
Definition quiet s s' : Prop :=
  threads s' = threads s /\ core_locals s' = core_locals s /\ handlers s' = handlers s /\
  thread_global_lock s' = thread_global_lock s /\ length (cores s') = length (cores s) /\
  stack_tmp s' = stack_tmp s /\ stack_abt s' = stack_abt s /\ stack_thread s' = stack_thread s.

Lemma with_count_restore l : count_is 0 l -> with_count 0 l = l.
Proof.
  unfold with_count, count_is. destruct cfg_ndebug; [done|]. intros H.
  destruct l; unfold set_locked_count; cbn in *. by rewrite H.
Qed.
Lemma with_count_twice a b l : with_count a (with_count b l) = with_count a l.
Proof. unfold with_count. by destruct cfg_ndebug. Qed.
Lemma with_count_curr a v l : with_count a (set_curr_thread v l) = set_curr_thread v (with_count a l).
Proof. unfold with_count. by destruct cfg_ndebug. Qed.
Lemma masked_frame s s' c : cores s' = cores s -> masked s c -> masked s' c.
Proof. unfold masked. by intros ->. Qed.

(** Lock, search, unlock. *)
Lemma alloc_run s c args l :
  idle s c -> core_locals s !! c = Some l ->
  thread_alloc_and_run c args s =
    match list_find (fun t => state t = THREAD_STATE_FREE) (threads s) with
    | Some (n, t) => alloc_finish c (Z.of_nat c) (Some n) args
                       (upd_threads (insert n (set_state THREAD_STATE_ACTIVE t)) s)
    | None => Ret (SmcReturn (set_a0 OPTEE_SMC_RETURN_ETHREAD_LIMIT args)) s
    end.
Proof.
  intros (Hc & Hlen & Hcan & Hlk & Hm & l' & Hl' & Hcur & Hn) Hl.
  assert (l' = l) as -> by congruence.
  unfold thread_alloc_and_run. erewrite bind_run by (by apply (alloc_enter_run _ _ l)).
  erewrite bind_run by (by apply (lock_global_run _ _ l)).
  set (s1 := upd_core_locals _ _).
  assert (Hl1 : core_locals s1 !! c = Some (with_count 1 l)) by (by apply (lookup_upd_local _ _ l)).
  assert (Hback : forall ts, upd_core_locals (insert c (with_count 0 (with_count 1 l)))
            (set_lock SPINLOCK_UNLOCK (upd_threads ts s1)) = upd_threads ts s).
  { intros ts. rewrite with_count_twice, with_count_restore by done. unfold s1. destruct s.
    unfold upd_core_locals, set_lock, upd_threads; cbn in *. subst.
    by rewrite list_insert_insert_eq, list_insert_id. }
  unfold bind at 1. rewrite (alloc_scan_run s1 0) by (done || (intros k; lia)).
  change (threads s1) with (threads s).
  destruct (list_find _ (threads s)) as [[n t]|] eqn:Hf.
  - erewrite bind_run by (apply (unlock_global_run _ _ (with_count 1 l)); try done; apply count_with_count).
    by rewrite Hback.
  - erewrite bind_run by (apply (unlock_global_run _ _ (with_count 1 l)); try done; apply count_with_count).
    change s1 with (upd_threads (fun ts => ts) s1). rewrite Hback. by destruct s.
Qed.

(** Giving the thread back. *)
Lemma state_free_run s c l n t :
  (c < CFG_TEE_CORE_NB_CORE)%nat -> masked s c -> thread_global_lock s = SPINLOCK_UNLOCK ->
  core_locals s !! c = Some l -> curr_thread l = Z.of_nat n -> count_is 0 l ->
  threads s !! n = Some t -> state t = THREAD_STATE_ACTIVE ->
  thread_state_free c s =
    Ret tt (upd_core_locals (insert c (set_curr_thread (-1) l)) (upd_threads (insert n (freed t)) s)).
Proof.
  intros Hc Hm Hlk Hl Hcur Hn Ht Hst. unfold thread_state_free.
  erewrite bind_run by (apply (free_enter_run _ _ l); [done..|lia]). rewrite Hcur.
  erewrite bind_run by (by apply (lock_global_run _ _ l)). set (s1 := upd_core_locals _ _).
  assert (Hl1 : core_locals s1 !! c = Some (with_count 1 l)) by (by apply (lookup_upd_local _ _ l)).
  erewrite bind_run by (by apply (free_crit_run _ _ (with_count 1 l) _ t)).
  set (s2 := upd_core_locals _ _).
  erewrite (unlock_global_run s2 c (set_curr_thread (-1) (with_count 1 l)));
    [|done|done|by apply (lookup_upd_local _ _ (with_count 1 l))|].
  2:{ pose proof (count_with_count 1 l) as H1. unfold count_is in *. by intros ?%H1. }
  rewrite with_count_curr, with_count_twice, with_count_restore by done. f_equal.
  unfold s2, s1. destruct s. unfold upd_core_locals, set_lock, upd_threads; cbn in *. subst.
  by rewrite !list_insert_insert_eq.
Qed.

(** What the call may answer. *)
Definition std_smc_answer s (args : thread_smc_args) (R : thread_smc_args -> W -> Prop)
    (res : list Z) s' : Prop :=
  match list_find (fun t => state t = THREAD_STATE_FREE) (threads s) with
  | None => res = [OPTEE_SMC_RETURN_ETHREAD_LIMIT; a1 args; a2 args; a3 args] /\ s' = s
  | Some _ => (exists reply, R reply (world s') /\ res = [a0 reply; a1 reply; a2 reply; a3 reply]) /\
      states s' = states s /\ core_locals s' = core_locals s /\ handlers s' = handlers s /\
      thread_global_lock s' = SPINLOCK_UNLOCK
  end.

Lemma runs_as_started s c l r n t args :
  core_locals s !! c = Some l -> cores s !! c = Some r -> threads s !! n = Some t ->
  thread_global_lock s = SPINLOCK_UNLOCK -> state t = THREAD_STATE_ACTIVE ->
  runs_as (upd_cores (insert c (set_core_cpsr (entry_cpsr (core_cpsr r)) r))
           (upd_threads (insert n (started (core_cpsr r) args t))
              (upd_core_locals (insert c (set_curr_thread (Z.of_nat n) l)) s))) c n args.
Proof.
  intros Hl Hr Ht Hlk Hst. split; [done|]. split; [by apply masked_upd, entry_cpsr_masked|]. cbn.
  split; eexists; (split; [apply list_lookup_insert_eq; by eapply lookup_lt_Some|done]).
Qed.

(** C7: a standard call on a core that serves none.  If no thread is free, the
    caller gets [OPTEE_SMC_RETURN_ETHREAD_LIMIT] and nothing changes.  Otherwise
    the handler runs exactly with the caller's arguments, as a thread that was
    free, with its own stack and foreign interrupts masked; when it returns, its
    first four results reach the caller, the thread is free again, the core
    has no thread, the lock is open, and the rest of the kernel is as the handler
    left it. *)
Theorem vector_std_smc_entry_correct s c args R :
  idle s c ->
  (forall n s1, runs_as s1 c n args -> handlers s1 = handlers s ->
     world s1 = world s -> states s !! n = Some THREAD_STATE_FREE ->
     wp (smc_handler (std_smc (handlers s)) args) s1 (fun reply s2 => R reply (world s2) /\ quiet s1 s2)) ->
  wp (vector_std_smc_entry c smc_handler args) s (std_smc_answer s args R).
Proof.
  intros Hidle Hh. pose proof Hidle as (Hc & Hlen & Hcan & Hlk & (r & Hr & Hb) & l & Hl & Hcur & Hn).
  unfold vector_std_smc_entry, thread_handle_std_smc, std_smc_answer, wp, bind at 1.
  erewrite bind_run by (by apply check_canaries_run). erewrite alloc_run by done.
  destruct (list_find _ (threads s)) as [[n t]|] eqn:Hf; [|done].
  apply list_find_Some in Hf as (Ht & Hst & _).
  set (t1 := set_state _ t). set (s1 := upd_threads _ s).
  assert (Ht1 : threads s1 !! n = Some t1) by (by apply (lookup_upd_thread _ _ t)).
  rewrite (alloc_finish_run s1 c l r n t1 args Hl Hr Ht1).
  pose proof (runs_as_started s1 c l r n t1 args Hl Hr Ht1 Hlk eq_refl) as Hrun.
  set (s2 := upd_cores _ _) in *.
  assert (Hfree : states s !! n = Some THREAD_STATE_FREE)
    by (unfold states; by rewrite list_lookup_fmap, Ht, <- Hst).
  destruct (wp_elim _ _ _ (Hh n s2 Hrun eq_refl eq_refl Hfree)) as (reply & s3 & Hrep & HR & HQ).
  destruct HQ as (Hq1 & Hq2 & Hq3 & Hq4 & Hq5 & _).
  unfold thread_std_smc_entry. erewrite bind_run.
  2:{ unfold thread_std_smc_entry_c. erewrite bind_run by done.
      change (handlers s2) with (handlers s). destruct args. exact Hrep. }
  destruct (lookup_lt_is_Some_2 (cores s3) c) as [r3 Hr3].
  { rewrite Hq5. cbn. rewrite length_insert. by eapply lookup_lt_Some. }
  erewrite bind_run by (by apply cpsid_run). set (s4 := upd_cores _ s3).
  assert (Hm4 : masked s4 c) by (apply masked_upd; [done|apply fia_bit]).
  set (l2 := set_curr_thread (Z.of_nat n) l). set (t2 := started (core_cpsr r) args t1).
  assert (Hl4 : core_locals s4 !! c = Some l2)
    by (cbn; rewrite Hq2; cbn; apply list_lookup_insert_eq; by eapply lookup_lt_Some).
  assert (Ht4 : threads s4 !! n = Some t2)
    by (cbn; rewrite Hq1; cbn; apply list_lookup_insert_eq; rewrite length_insert; by eapply lookup_lt_Some).
  erewrite bind_run by (by apply (tmp_sp_run _ _ l2)).
  erewrite bind_run by (apply (state_free_run _ _ l2 n t2); try done; cbn; by rewrite Hq4).
  unfold ret. split; [by exists reply|]. unfold states; cbn. rewrite Hq1, Hq2, Hq3, Hq4. cbn.
  rewrite !list_insert_insert_eq. split_and!; try done.
  - rewrite list_fmap_insert. apply list_insert_id. rewrite list_lookup_fmap, Ht. cbn. by rewrite Hst.
  - apply list_insert_id. rewrite Hl. destruct l; cbn in *. by subst.
Qed.
End call.

(** ** The theorems of the interleaved machine *)

Section interleaving.
Context `{cfg : Config} `{tcfg : ThreadConfig} {W : Type}.
Implicit Types (s : tstate W) (c n : nat).

(** Core [c] can complete its next segment. *)
Definition can_move (m : machine W) c : Prop :=
  forall ev, event_ok ev -> exists p' s', core_run c ev (pos m c) (shared m) = Ret p' s'.

Lemma holder_moves m c :
  inv m -> (c < CFG_TEE_CORE_NB_CORE)%nat -> waiting (pos m c) = false -> can_move m c.
Proof.
  intros HI Hc Hw ev Hev. pose proof (core_run_ok m c ev HI Hc Hev) as HS. unfold seg_ok in HS.
  destruct (core_run c ev (pos m c) (shared m)); [eauto|done|done|]. by rewrite Hw in HS; destruct HS.
Qed.

Lemma waiter_blocked m c :
  inv m -> (c < CFG_TEE_CORE_NB_CORE)%nat -> waiting (pos m c) = true ->
  can_move m c \/
  exists c', (c' < CFG_TEE_CORE_NB_CORE)%nat /\ c' <> c /\ in_lock (pos m c') = true /\ can_move m c'.
Proof.
  intros HI Hc Hw. destruct (inv_lock m HI) as [[_ (c' & Hc' & Hh)]|[Hlk _]].
  - right. exists c'. split_and!; [done| |done|].
    + intros ->. by destruct (pos m c).
    + apply holder_moves; [done..|]. by destruct (pos m c').
  - left. intros ev Hev. pose proof (core_run_ok m c ev HI Hc Hev) as HS. unfold seg_ok in HS.
    destruct (core_run c ev (pos m c) (shared m)); [eauto|done|done|].
    destruct HS as [_ HS]. by rewrite Hlk in HS.
Qed.

(** C6: booting returns, and in every state the cores then reach in any
    interleaving: a thread is active exactly if one core has claimed it, and
    only one has; the core that runs a thread has it as its current one; a call
    is refused for lack of threads only when none is free; a core either
    completes its next segment, without failing an assertion or leaving an
    array, or waits for the lock, and then another core in_lock the lock and can
    go on. *)
Theorem threads_interleave_safely s h :
  cold s ->
  wp (thread_boot 0 h) s (fun _ s0 => forall m, rtc mstep (mk_machine s0 (fun _ => Outside)) m ->
    (forall n, states (shared m) !! n = Some THREAD_STATE_ACTIVE <->
       exists c, (c < CFG_TEE_CORE_NB_CORE)%nat /\ owner (pos m c) = Some n) /\
    (forall c c' n, (c < CFG_TEE_CORE_NB_CORE)%nat -> (c' < CFG_TEE_CORE_NB_CORE)%nat ->
       owner (pos m c) = Some n -> owner (pos m c') = Some n -> c = c') /\
    (forall c n, (c < CFG_TEE_CORE_NB_CORE)%nat -> pos m c = Running n ->
       exists l, core_locals (shared m) !! c = Some l /\ curr_thread l = Z.of_nat n) /\
    (forall c i args, (c < CFG_TEE_CORE_NB_CORE)%nat -> pos m c = AllocUnlock i args None ->
       none_free (shared m) CFG_NUM_THREADS) /\
    (forall c, (c < CFG_TEE_CORE_NB_CORE)%nat ->
       can_move m c \/
       exists c', (c' < CFG_TEE_CORE_NB_CORE)%nat /\ c' <> c /\ in_lock (pos m c') = true /\ can_move m c')).
Proof.
  intros Hcold. eapply wp_mono; [|by apply thread_boot_run].
  intros [] s0 (HI0 & _) m Hsteps. pose proof (msteps_inv _ _ HI0 Hsteps) as HI.
  split_and!.
  - by apply inv_active.
  - by apply inv_unique.
  - intros c n Hc Hp. destruct (inv_core m HI c Hc) as (l & r & Hl & _ & _ & Hcur & _).
    rewrite Hp in Hcur. eauto.
  - intros c i args Hc Hp. destruct (inv_core m HI c Hc) as (l & r & _ & _ & _ & _ & _ & Hok).
    rewrite Hp in Hok. by apply Hok.
  - intros c Hc. destruct (waiting (pos m c)) eqn:Hw; [by apply waiter_blocked|].
    left. by apply holder_moves.
Qed.

(** A suspended thread stays suspended. *)
Lemma suspended_step (m m' : machine W) n :
  inv m -> mstep m m' -> states (shared m) !! n = Some THREAD_STATE_SUSPENDED ->
  states (shared m') !! n = Some THREAD_STATE_SUSPENDED.
Proof.
  intros HI Hstep Hs. destruct Hstep as [c ev m p' s' Hc Hev Hrun].
  pose proof (core_run_ok m c ev HI Hc Hev) as HE. unfold seg_ok in HE. rewrite Hrun in HE. cbn.
  destruct (eff_claim _ _ _ _ _ HE) as [Heq _|n0 Hfree Heq _ _ _|n0 x Hx Heq Ho _ _]; rewrite Heq.
  - done.
  - rewrite list_lookup_insert_ne; [done|]. intros ->. congruence.
  - rewrite list_lookup_insert_ne; [done|]. intros ->.
    assert (states (shared m) !! n = Some THREAD_STATE_ACTIVE) by (apply (inv_active m HI); eauto).
    congruence.
Qed.
End interleaving.

(** ** A concrete board: four cores, two threads *)

Definition board_threads : ThreadConfig := {|
  CFG_NUM_THREADS := 2; CFG_TEE_CORE_NB_CORE := 4; CFG_WITH_STACK_CANARIES := true;
  thread_std_smc_entry_addr := 0x4e001000; stack_tmp_addr := 0x4e100000;
  stack_abt_addr := 0x4e110000; stack_thread_addr := 0x4e120000;
|}.
Definition board_debug : Config := {| cfg_ndebug := false |}.

Definition zero_regs : thread_ctx_regs := mk_regs 0 0 0 0 0 0 0 0 0 0 0 0 0 0 0 0 0 0 0 0.
Definition board_cold : tstate unit :=
  mk_tstate (replicate 2 (mk_ctx zero_regs THREAD_STATE_FREE 0 0 0 false))
    (replicate 4 (mk_local 0 0 0)) (replicate 4 (mk_core_regs 0x13 0 0 0 0)) 0
    (mk_handlers 0 0 0 0 0 0 0 0 0)
    (replicate 4 (replicate 464 7)) (replicate 4 (replicate 528 7)) (replicate 2 (replicate 2064 7)) tt.
Definition board_handlers : thread_handlers :=
  mk_handlers 0x4e002000 0x4e002000 0x4e003000 0 0 0 0 0 0.

Lemma board_is_cold : @cold board_threads unit board_cold.
Proof.
  unfold cold. split_and!; try (cbn; lia); try done; cbn -[replicate app].
  - repeat constructor.
  - repeat constructor.
  - rewrite !Forall_app. split_and!; apply Forall_replicate; rewrite length_replicate; lia.
Qed.

Lemma threads_interleave_safely_witness :
  @cold board_threads unit board_cold /\
  exists s0, @thread_boot board_debug board_threads unit 0 board_handlers board_cold = Ret tt s0 /\
    forall m, rtc (@mstep board_debug board_threads unit) (mk_machine s0 (fun _ => Outside)) m ->
      forall c c' n, (c < 4)%nat -> (c' < 4)%nat ->
        owner (pos m c) = Some n -> owner (pos m c') = Some n -> c = c'.
Proof.
  split; [exact board_is_cold|].
  destruct (wp_elim _ _ _ (@threads_interleave_safely board_debug board_threads unit board_cold
    board_handlers board_is_cold)) as ([] & s0 & Hrun & HP).
  exists s0. split; [exact Hrun|]. intros m Hm. exact (proj1 (proj2 (HP m Hm))).
Defined.

(** Core 1 with no call in progress, and a handler that answers 0. *)
Definition board_idle : tstate unit :=
  mk_tstate (replicate 2 (mk_ctx zero_regs THREAD_STATE_FREE 0x4e122010 0 0 true))
    (replicate 4 (mk_local 0x4e100600 (-1) 0)) (replicate 4 (mk_core_regs 0x1d3 0 0 0 0)) 0
    board_handlers
    (replicate 4 (init_canary (replicate 464 7))) (replicate 4 (init_canary (replicate 528 7)))
    (replicate 2 (init_canary (replicate 2064 7))) tt.
Definition board_reply (h : Z) (args : thread_smc_args) : M (tstate unit) thread_smc_args :=
  ret (set_a0 0 args).

Lemma board_is_idle : @idle board_debug board_threads unit board_idle 1.
Proof.
  unfold idle. split_and!; [cbn; lia|done| |done|by eexists|by eexists].
  intros _. split_and!; apply Forall_replicate, init_canary_ok; rewrite length_replicate; lia.
Qed.

Lemma vector_std_smc_entry_correct_witness :
  @idle board_debug board_threads unit board_idle 1 /\
  wp (@vector_std_smc_entry board_debug board_threads unit 1 board_reply (ThreadSmcArgs 0x32000001 5 6 7 0 0 0 0))
    board_idle (fun res s' => res = [0; 5; 6; 7] /\ states s' = states board_idle).
Proof.
  split; [exact board_is_idle|].
  assert (Hh : forall n s1, runs_as s1 1 n (ThreadSmcArgs 0x32000001 5 6 7 0 0 0 0) ->
    handlers s1 = handlers board_idle -> world s1 = world board_idle ->
    states board_idle !! n = Some THREAD_STATE_FREE ->
    wp (board_reply (std_smc (handlers board_idle)) (ThreadSmcArgs 0x32000001 5 6 7 0 0 0 0)) s1
      (fun reply s2 => reply = ThreadSmcArgs 0 5 6 7 0 0 0 0 /\ quiet s1 s2))
    by (intros; split; [reflexivity|by repeat split]).
  pose proof (@vector_std_smc_entry_correct board_debug board_threads unit board_reply board_idle 1
    (ThreadSmcArgs 0x32000001 5 6 7 0 0 0 0) (fun reply _ => reply = ThreadSmcArgs 0 5 6 7 0 0 0 0)
    board_is_idle Hh) as HT.
  refine (wp_mono _ _ _ _ _ HT). intros res s' HA.
  destruct HA as [[reply [-> ->]] [Hs _]]. by split.
Defined.
