(* ===== verification/Monitor.v ===== *)
(** * The secure monitor (arch/arm/sm, plat-imx/psci.c)

    The registers of a core, the context in which the monitor keeps the
    registers of the two worlds, the entry [sm_smc_entry] for calls of either
    world, and the power services (PSCI), which the monitor answers itself. *)

From stdpp Require Import prelude list.
From Stdlib Require Import ZArith Lia.
From S2P Require Import Prelude Platform State MmuDesc CoreMmu.
#[local] Open Scope Z_scope.
#[local] Open Scope kernel_scope.

(** ** Function identifiers (optee_smc.h, psci.h, std_smc.h) *)

Definition OPTEE_SMC_32 : Z := 0.
Definition OPTEE_SMC_FAST_CALL : Z := 0x80000000.
Definition OPTEE_SMC_OWNER_MASK : Z := 0x3F.
Definition OPTEE_SMC_OWNER_SHIFT : Z := 24.
Definition OPTEE_SMC_FUNC_MASK : Z := 0xFFFF.
Definition OPTEE_SMC_OWNER_STANDARD : Z := 4.
Definition OPTEE_SMC_OWNER_TRUSTED_OS_OPTEED : Z := 62.
Definition OPTEE_SMC_RETURN_UNKNOWN_FUNCTION : Z := 0xFFFFFFFF.
Definition OPTEE_SMC_IS_FAST_CALL (smc_val : Z) : bool := tst smc_val OPTEE_SMC_FAST_CALL.
Definition OPTEE_SMC_OWNER_NUM (smc_val : Z) : Z :=
  Z.land (Z.shiftr smc_val OPTEE_SMC_OWNER_SHIFT) OPTEE_SMC_OWNER_MASK.
Definition OPTEE_SMC_CALL_VAL (type calling_convention owner func_num : Z) : Z :=
  Z.lor (Z.lor (Z.lor type calling_convention)
    (Z.shiftl (Z.land owner OPTEE_SMC_OWNER_MASK) OPTEE_SMC_OWNER_SHIFT))
    (Z.land func_num OPTEE_SMC_FUNC_MASK).

Definition TEESMC_OPTEED_RV (func_num : Z) : Z :=
  OPTEE_SMC_CALL_VAL OPTEE_SMC_32 OPTEE_SMC_FAST_CALL OPTEE_SMC_OWNER_TRUSTED_OS_OPTEED func_num.
Definition TEESMC_OPTEED_RETURN_CALL_DONE : Z := TEESMC_OPTEED_RV 5.
Definition TEESMC_OPTEED_RETURN_FIQ_DONE : Z := TEESMC_OPTEED_RV 6.

Definition PSCI_FID_MASK : Z := 0xffe0.
Definition PSCI_FID_VALUE : Z := 0.
Definition is_psci_fid (fid : Z) : bool := Z.land fid PSCI_FID_MASK =? PSCI_FID_VALUE.
Definition PSCI_FN (n : Z) : Z := 0x84000000 + n.
Definition PSCI_VERSION_0_2 : Z := 0x00000002.
Definition PSCI_VERSION : Z := PSCI_FN 0.
Definition PSCI_CPU_SUSPEND : Z := PSCI_FN 1.
Definition PSCI_CPU_OFF : Z := PSCI_FN 2.
Definition PSCI_CPU_ON : Z := PSCI_FN 3.
Definition PSCI_AFFINITY_INFO : Z := PSCI_FN 4.
Definition PSCI_MIGRATE : Z := PSCI_FN 5.
Definition PSCI_MIGRATE_INFO_TYPE : Z := PSCI_FN 6.
Definition PSCI_MIGRATE_INFO_UP_CPU : Z := PSCI_FN 7.
Definition PSCI_SYSTEM_OFF : Z := PSCI_FN 8.
Definition PSCI_SYSTEM_RESET : Z := PSCI_FN 9.
Definition PSCI_PSCI_FEATURES : Z := PSCI_FN 10.
Definition PSCI_NODE_HW_STATE : Z := PSCI_FN 13.
Definition PSCI_RET_SUCCESS : Z := 0.
Definition PSCI_RET_NOT_SUPPORTED : Z := -1.
Definition PSCI_RET_INVALID_PARAMETERS : Z := -2.

(** System reset controller (imx6-regs.h). *)
Definition SRC_BASE : Z := 0x020D8000.
Definition SRC_SCR : Z := 0x000.
Definition SRC_GPR1 : Z := 0x020.
Definition SRC_SCR_CORE1_RST_OFFSET : Z := 14.
Definition SRC_SCR_CORE1_ENABLE_OFFSET : Z := 22.

(** ** State *)

(** A core: [r0]-[r7], [r8]-[r12], the banked registers of the modes in the
    order of [struct sm_mode_regs], and the non-secure bit of the secure
    configuration register.  [pc] and [psr] are where the core executes; on
    entry to the monitor they are what the exception saved. *)
Record cpu := mk_cpu {
  lo : list Z;
  r8_12 : list Z;
  modes : list Z;
  cpu_pc : Z;
  cpu_psr : Z;
  ns : bool;
}.

(** The world of a core [A] is whatever the secure kernel keeps. *)
Record mon (A : Type) := mk_mon {
  m_cpu : cpu;
  m_ctx : sm_ctx;
  ns_entry_addrs : list Z;
  m_rest : A;
}.
Arguments mk_mon {A} _ _ _ _.
Arguments m_cpu {A} _.
Arguments m_ctx {A} _.
Arguments ns_entry_addrs {A} _.
Arguments m_rest {A} _.

Class MonitorConfig := {
  CFG_PSCI_ARM32 : bool;
  CFG_NB_CORE : Z;
  CFG_TEE_LOAD_ADDR : Z;
  thread_vector_table_addr : Z;
}.

Definition args_of (l : list Z) : thread_smc_args :=
  ThreadSmcArgs (nth 0 l 0) (nth 1 l 0) (nth 2 l 0) (nth 3 l 0)
                (nth 4 l 0) (nth 5 l 0) (nth 6 l 0) (nth 7 l 0).
Definition args_list (a : thread_smc_args) : list Z :=
  [a0 a; a1 a; a2 a; a3 a; a4 a; a5 a; a6 a; a7 a].

(** [thread_vector_table]: one branch per entry. *)
Definition std_smc_entry `{MonitorConfig} : Z := thread_vector_table_addr.
Definition fast_smc_entry `{MonitorConfig} : Z := u32 (thread_vector_table_addr + 4).

Section monitor.
Context {P : Type} {plat : Platform P} {cfg : Config} {mc : MonitorConfig}.
Context {A : Type}.
(** Where the kernel state is inside the secure world. *)
Context (getk : A -> kernel P) (putk : kernel P -> A -> A).
#[local] Abbreviation K := (M (mon A)).

Definition get_cpu : K cpu := gets m_cpu.
Definition put_cpu (c : cpu) : K unit :=
  modify (fun s => mk_mon c (m_ctx s) (ns_entry_addrs s) (m_rest s)).
Definition get_ctx : K sm_ctx := gets m_ctx.
Definition put_ctx (x : sm_ctx) : K unit :=
  modify (fun s => mk_mon (m_cpu s) x (ns_entry_addrs s) (m_rest s)).
Definition put_ns_entry_addrs (l : list Z) : K unit :=
  modify (fun s => mk_mon (m_cpu s) (m_ctx s) l (m_rest s)).

(** A routine of the kernel, run on the kernel part of the state. *)
Definition in_kernel {B} (m : M (kernel P) B) : K B := fun s =>
  match m (getk (m_rest s)) with
  | Ret b k => Ret b (mk_mon (m_cpu s) (m_ctx s) (ns_entry_addrs s) (putk k (m_rest s)))
  | Panic => Panic
  | Fault => Fault
  | Spin => Spin
  end.

(** ** PSCI *)

Definition psci_version : K Z := ret PSCI_VERSION_0_2.
Definition psci_cpu_suspend (power_state entry context_id : Z) : K Z := ret PSCI_RET_NOT_SUPPORTED.
Definition psci_cpu_off : K Z := ret PSCI_RET_NOT_SUPPORTED.
Definition psci_affinity_info (affinity lowest_affnity_level : Z) : K Z := ret PSCI_RET_NOT_SUPPORTED.
Definition psci_migrate (cpu_id : Z) : K Z := ret PSCI_RET_NOT_SUPPORTED.
Definition psci_migrate_info_type : K Z := ret PSCI_RET_NOT_SUPPORTED.
Definition psci_migrate_info_up_cpu : K Z := ret PSCI_RET_NOT_SUPPORTED.
Definition psci_system_off : K unit := ret tt.
Definition psci_system_reset : K unit := ret tt.
Definition psci_features (psci_fid : Z) : K Z := ret PSCI_RET_NOT_SUPPORTED.
Definition psci_node_hw_state (cpu_id power_level : Z) : K Z := ret PSCI_RET_NOT_SUPPORTED.

(** The i.MX6 version (plat-imx/psci.c) of a weak function. *)
Definition psci_cpu_on (core_idx entry context_id : Z) : K Z :=
  va <- in_kernel (core_mmu_get_va true SRC_BASE MEM_AREA_IO_SEC);;
  if (core_idx =? 0) || (core_idx >=? CFG_NB_CORE) then ret PSCI_RET_INVALID_PARAMETERS
  else
    l <- gets ns_entry_addrs;;
    l' <- aset l core_idx entry;;
    put_ns_entry_addrs l' ;;;
    in_kernel (write32 CFG_TEE_LOAD_ADDR (va + SRC_GPR1 + core_idx * 8)) ;;;
    val <- in_kernel (read32 (va + SRC_SCR));;
    let val := Z.lor val (bit32 (SRC_SCR_CORE1_ENABLE_OFFSET + (core_idx - 1))) in
    let val := Z.lor val (bit32 (SRC_SCR_CORE1_RST_OFFSET + (core_idx - 1))) in
    in_kernel (write32 val (va + SRC_SCR)) ;;;
    ret PSCI_RET_SUCCESS.

Definition tee_psci_handler (args : thread_smc_args) : K thread_smc_args :=
  let smc_fid := a0 args in
  let answer (m : K Z) := v <- m;; ret (set_a0 (u32 v) args) in
  if smc_fid =? PSCI_VERSION then answer psci_version
  else if smc_fid =? PSCI_CPU_SUSPEND then answer (psci_cpu_suspend (a1 args) (a2 args) (a3 args))
  else if smc_fid =? PSCI_CPU_OFF then answer psci_cpu_off
  else if smc_fid =? PSCI_CPU_ON then answer (psci_cpu_on (a1 args) (a2 args) (a3 args))
  else if smc_fid =? PSCI_AFFINITY_INFO then answer (psci_affinity_info (a1 args) (a2 args))
  else if smc_fid =? PSCI_MIGRATE then answer (psci_migrate (a1 args))
  else if smc_fid =? PSCI_MIGRATE_INFO_TYPE then answer psci_migrate_info_type
  else if smc_fid =? PSCI_MIGRATE_INFO_UP_CPU then answer psci_migrate_info_up_cpu
  else if smc_fid =? PSCI_SYSTEM_OFF then psci_system_off ;;; spin
  else if smc_fid =? PSCI_SYSTEM_RESET then psci_system_reset ;;; spin
  else if smc_fid =? PSCI_PSCI_FEATURES then answer (psci_features (a1 args))
  else if smc_fid =? PSCI_NODE_HW_STATE then answer (psci_node_hw_state (a1 args) (a2 args))
  else ret (set_a0 OPTEE_SMC_RETURN_UNKNOWN_FUNCTION args).

Definition smc_std_handler (args : thread_smc_args) : K thread_smc_args :=
  if is_psci_fid (a0 args) then tee_psci_handler args
  else ret (set_a0 OPTEE_SMC_RETURN_UNKNOWN_FUNCTION args).

(** ** Calls *)

(** [CFG_SM_PLATFORM_HANDLER] is not set on this platform. *)
Definition sm_platform_handler : K bool := ret true.

(** The banked registers to and from a context (sm_a32.S). *)
Definition sm_save_modes_regs (w : sm_world_ctx) : K sm_world_ctx :=
  c <- get_cpu;; ret (set_wc_mode_regs (modes c) w).
Definition sm_restore_modes_regs (w : sm_world_ctx) : K unit :=
  c <- get_cpu;;
  put_cpu (mk_cpu (lo c) (r8_12 c) (wc_mode_regs w) (cpu_pc c) (cpu_psr c) (ns c)).

(** Whether control goes on to the secure world. *)
Definition sm_from_nsec : K bool :=
  ok <- sm_platform_handler;;
  if negb ok then ret false else
  x <- get_ctx;;
  if CFG_PSCI_ARM32 && (OPTEE_SMC_OWNER_NUM (nth 0 (wc_r0 (sc_nsec x)) 0) =? OPTEE_SMC_OWNER_STANDARD)
  then args <- smc_std_handler (args_of (wc_r0 (sc_nsec x)));;
       put_ctx (set_sc_nsec (set_wc_r0 (args_list args) (sc_nsec x)) x) ;;;
       ret false
  else
    n <- sm_save_modes_regs (sc_nsec x);;
    put_ctx (set_sc_nsec n x) ;;;
    sm_restore_modes_regs (sc_sec x) ;;;
    x <- get_ctx;;
    let sec := set_wc_r0 (wc_r0 (sc_nsec x)) (sc_sec x) in
    let sec := if OPTEE_SMC_IS_FAST_CALL (nth 0 (wc_r0 sec) 0)
               then set_wc_mon_lr fast_smc_entry sec else set_wc_mon_lr std_smc_entry sec in
    put_ctx (set_sc_sec sec x) ;;;
    ret true.

(** The way out of the monitor: [pop {r0-r7}] and [rfefd]. *)
Definition sm_exit (w : sm_world_ctx) (hi : list Z) (nsbit : bool) : K unit :=
  c <- get_cpu;;
  put_cpu (mk_cpu (wc_r0 w) hi (modes c) (wc_mon_lr w) (wc_mon_spsr w) nsbit).
Definition sm_ret_to_nsec : K unit :=
  x <- get_ctx;; sm_exit (sc_nsec x) (wc_r8 (sc_nsec x)) true.

(** What the exception and [push {r0-r7}] store into a context. *)
Definition push_regs (c : cpu) (w : sm_world_ctx) : sm_world_ctx :=
  set_wc_mon_spsr (cpu_psr c) (set_wc_mon_lr (cpu_pc c) (set_wc_r0 (lo c) w)).
Definition set_ns (b : bool) (c : cpu) : cpu :=
  mk_cpu (lo c) (r8_12 c) (modes c) (cpu_pc c) (cpu_psr c) b.

(** [sm_smc_entry]: a secure monitor call of the world the core is in. *)
Definition sm_smc_entry : K unit :=
  c <- get_cpu;;
  x <- get_ctx;;
  if ns c then
    put_ctx (set_sc_nsec (set_wc_r8 (r8_12 c) (push_regs c (sc_nsec x))) x) ;;;
    put_cpu (set_ns false c) ;;;
    b <- sm_from_nsec;;
    if b then x <- get_ctx;; c <- get_cpu;; sm_exit (sc_sec x) (r8_12 c) (ns c)
    else sm_ret_to_nsec
  else
    sec <- sm_save_modes_regs (push_regs c (sc_sec x));;
    let r := wc_r0 sec in
    let nsec := if nth 0 r 0 =? TEESMC_OPTEED_RETURN_FIQ_DONE then sc_nsec x
                else set_wc_r0 (take 4 (drop 1 r) ++ drop 4 (wc_r0 (sc_nsec x))) (sc_nsec x) in
    put_ctx (SmCtx sec nsec) ;;;
    sm_restore_modes_regs nsec ;;;
    sm_ret_to_nsec.
End monitor.
