(* ===== verification/Smc.v ===== *)
(** * A call of the normal world, end to end

    The composition of the monitor, the threads and the handlers that
    plat-imx/main.c registers: from the [smc] instruction of the normal world
    to the instruction after it. *)

From stdpp Require Import prelude list.
From Stdlib Require Import ZArith Lia.
From S2P Require Import Prelude Platform State MmuDesc CoreMmu Interrupt Entry Drivers Cloak Thread ThreadInv Monitor.
#[local] Open Scope Z_scope.
#[local] Open Scope kernel_scope.

Section smc.
Context {P : Type} {plat : Platform P} {cfg : Config}.
Context {drv : IrqDrivers P} {imgs : Images} {tcfg : ThreadConfig} {mc : MonitorConfig}.

(** The secure world: the threads, with the kernel as the rest of its state. *)
Abbreviation secure := (tstate (kernel P)).
Definition put_world (k : kernel P) (s : secure) : secure :=
  mk_tstate (threads s) (core_locals s) (cores s) (thread_global_lock s) (handlers s)
    (stack_tmp s) (stack_abt s) (stack_thread s) k.
Definition in_world {B} (m : M (kernel P) B) : M secure B := fun s =>
  match m (world s) with
  | Ret b k => Ret b (put_world k s)
  | Panic => Panic
  | Fault => Fault
  | Spin => Spin
  end.
Definition in_secure {B} (m : M secure B) : M (mon secure) B := fun s =>
  match m (m_rest s) with
  | Ret b t => Ret b (mk_mon (m_cpu s) (m_ctx s) (ns_entry_addrs s) t)
  | Panic => Panic
  | Fault => Fault
  | Spin => Spin
  end.

(** [handlers] of main.c: [cloak_entry] for standard and for fast calls.
    [events] is what the environment does while the dialogue waits. *)
Definition cloak_handler (events : list (P -> P)) (h : Z) (args : thread_smc_args)
  : M secure thread_smc_args := in_world (cloak_entry events args).

(** The secure world between its entry and its own [smc]: the vector the monitor
    chose, and then the registers [r0] = [TEESMC_OPTEED_RETURN_CALL_DONE] and
    [r1]-[r4] = the results; everything else is as the code left it, which
    [after] gives. *)
Definition secure_world (c : nat) (h : Z -> thread_smc_args -> M secure thread_smc_args)
    (after : cpu) : M (mon secure) unit :=
  r <- get_cpu;;
  in_secure (write_cpsr c (cpu_psr r)) ;;;
  let args := args_of (lo r) in
  res <- (if cpu_pc r =? std_smc_entry then in_secure (vector_std_smc_entry c h args)
          else if cpu_pc r =? fast_smc_entry then in_secure (vector_fast_smc_entry c h args)
          else fault);;
  put_cpu (mk_cpu (TEESMC_OPTEED_RETURN_CALL_DONE :: res ++ lo after) (r8_12 after)
             (modes after) (cpu_pc after) (cpu_psr after) false).

(** A call of the normal world. *)
Definition smc_call (c : nat) (h : Z -> thread_smc_args -> M secure thread_smc_args)
    (after : cpu) : M (mon secure) unit :=
  sm_smc_entry world put_world ;;;
  r <- get_cpu;;
  if ns r then ret tt
  else secure_world c h after ;;; sm_smc_entry world put_world.

(** ** The way in and the way out *)

Lemma args_of_list l : length l = 8%nat -> args_list (args_of l) = l.
Proof. intros H. do 9 (destruct l as [|? l]; try done). Qed.

(** What the monitor relies on: the core was in the normal world, and the
    secure world left the monitor with its exceptions masked. *)
Definition nsec_core (s : mon secure) : Prop :=
  ns (m_cpu s) = true /\ length (lo (m_cpu s)) = 8%nat /\
  Z.land (wc_mon_spsr (sc_sec (m_ctx s))) ARM32_CPSR_FIA = ARM32_CPSR_FIA.

(** The call is meant for the kernel and is a standard call. *)
Definition std_call (r : cpu) : Prop :=
  OPTEE_SMC_IS_FAST_CALL (nth 0 (lo r) 0) = false /\
  CFG_PSCI_ARM32 && (OPTEE_SMC_OWNER_NUM (nth 0 (lo r) 0) =? OPTEE_SMC_OWNER_STANDARD) = false.

(** The non-secure context after an entry from the normal world: everything
    the normal world will see again. *)
Definition saved_nsec (r : cpu) (w : sm_world_ctx) : sm_world_ctx :=
  set_wc_mode_regs (modes r) (set_wc_r8 (r8_12 r) (push_regs r w)).

Lemma enter_run s :
  nsec_core s -> std_call (m_cpu s) ->
  sm_smc_entry world put_world s =
    Ret tt (mk_mon
      (mk_cpu (lo (m_cpu s)) (r8_12 (m_cpu s)) (wc_mode_regs (sc_sec (m_ctx s)))
         std_smc_entry (wc_mon_spsr (sc_sec (m_ctx s))) false)
      (SmCtx (set_wc_mon_lr std_smc_entry (set_wc_r0 (lo (m_cpu s)) (sc_sec (m_ctx s))))
             (saved_nsec (m_cpu s) (sc_nsec (m_ctx s))))
      (ns_entry_addrs s) (m_rest s)).
Proof.
  intros (Hns & Hlen & _) (Hf & Hp). destruct s as [r x a t]; cbn in *.
  unfold sm_smc_entry, sm_from_nsec, sm_platform_handler, get_cpu, get_ctx, put_ctx, put_cpu.
  unfold bind, gets, modify, ret; cbn. rewrite Hns; cbn. rewrite Hp; cbn. by rewrite Hf.
Qed.

Lemma leave_run (s : mon secure) res rest :
  ns (m_cpu s) = false -> lo (m_cpu s) = TEESMC_OPTEED_RETURN_CALL_DONE :: res ++ rest ->
  length res = 4%nat ->
  exists sec, sm_smc_entry world put_world s =
    Ret tt (mk_mon
      (mk_cpu (res ++ drop 4 (wc_r0 (sc_nsec (m_ctx s)))) (wc_r8 (sc_nsec (m_ctx s)))
         (wc_mode_regs (sc_nsec (m_ctx s))) (wc_mon_lr (sc_nsec (m_ctx s)))
         (wc_mon_spsr (sc_nsec (m_ctx s))) true)
      (SmCtx sec (set_wc_r0 (res ++ drop 4 (wc_r0 (sc_nsec (m_ctx s)))) (sc_nsec (m_ctx s))))
      (ns_entry_addrs s) (m_rest s)) /\
    wc_mode_regs sec = modes (m_cpu s) /\ wc_mon_spsr sec = cpu_psr (m_cpu s).
Proof.
  intros Hns Hlo Hlen.
  exists (set_wc_mode_regs (modes (m_cpu s)) (push_regs (m_cpu s) (sc_sec (m_ctx s)))). split.
  - unfold sm_smc_entry, sm_save_modes_regs, sm_restore_modes_regs, sm_ret_to_nsec, sm_exit,
      get_cpu, get_ctx, put_ctx, put_cpu, bind, gets, modify, ret. rewrite Hns.
    destruct s as [r x a t]. cbn in *. rewrite Hlo.
    do 5 (destruct res as [|? res]; try done).
  - done.
Qed.

Lemma idle_write_cpsr (s : secure) c v :
  idle s c -> Z.land v ARM32_CPSR_FIA = ARM32_CPSR_FIA ->
  exists r, write_cpsr c v s = Ret tt (upd_cores (insert c (set_core_cpsr v r)) s) /\
    idle (upd_cores (insert c (set_core_cpsr v r)) s) c.
Proof.
  intros (Hc & Hlen & Hcan & Hlk & (r & Hr & Hb) & Hl) Hv. exists r.
  split; [by apply write_cpsr_run|]. split_and!; try done. apply masked_upd; [done|].
  by apply fia_masked.
Qed.

(** A standard call of the normal world, for any handler. *)
Lemma smc_call_run (s : mon secure) c h after (R : thread_smc_args -> kernel P -> Prop) :
  nsec_core s -> std_call (m_cpu s) -> idle (m_rest s) c ->
  (forall n s1, runs_as s1 c n (args_of (lo (m_cpu s))) -> handlers s1 = handlers (m_rest s) ->
     world s1 = world (m_rest s) ->
     wp (h (std_smc (handlers s1)) (args_of (lo (m_cpu s)))) s1
       (fun reply s2 => R reply (world s2) /\ quiet s1 s2)) ->
  wp (smc_call c h after) s (fun _ s' => exists res,
    m_cpu s' = mk_cpu (res ++ drop 4 (lo (m_cpu s))) (r8_12 (m_cpu s)) (modes (m_cpu s))
                 (cpu_pc (m_cpu s)) (cpu_psr (m_cpu s)) true /\
    (if bool_decide (Exists (fun t => state t = THREAD_STATE_FREE) (threads (m_rest s)))
     then exists reply, R reply (world (m_rest s')) /\ res = [a0 reply; a1 reply; a2 reply; a3 reply]
     else res = OPTEE_SMC_RETURN_ETHREAD_LIMIT :: take 3 (drop 1 (lo (m_cpu s))) /\
          world (m_rest s') = world (m_rest s)) /\
    states (m_rest s') = states (m_rest s) /\
    wc_mode_regs (sc_sec (m_ctx s')) = modes after /\
    wc_mon_spsr (sc_sec (m_ctx s')) = cpu_psr after).
Proof.
  intros Hn Hstd Hidle Hh. pose proof Hn as (Hns & Hlen & Hpsr).
  unfold smc_call. apply wp_bind. eapply wp_intro; [by apply enter_run|].
  unfold get_cpu at 1. apply wp_bind, wp_gets. cbn [m_cpu ns].
  apply wp_bind. unfold secure_world. apply wp_bind, wp_gets. cbn [m_cpu cpu_psr cpu_pc lo].
  destruct (idle_write_cpsr _ c _ Hidle Hpsr) as (r & Hw & Hidle').
  apply wp_bind. eapply wp_intro; [unfold in_secure; cbn [m_rest]; by rewrite Hw|].
  set (t1 := upd_cores _ _) in *. rewrite Z.eqb_refl.
  apply wp_bind. unfold in_secure at 1, wp at 1. cbn [m_rest m_cpu m_ctx ns_entry_addrs].
  assert (Hh' : forall n s1, runs_as s1 c n (args_of (lo (m_cpu s))) -> handlers s1 = handlers t1 ->
    world s1 = world t1 -> states t1 !! n = Some THREAD_STATE_FREE ->
    wp (h (std_smc (handlers t1)) (args_of (lo (m_cpu s)))) s1
      (fun reply s2 => R reply (world s2) /\ quiet s1 s2))
    by (intros n s1 H1 H2 H3 _; rewrite <- H2; by apply Hh with n).
  destruct (wp_elim _ _ _ (vector_std_smc_entry_correct h t1 c _ R Hidle' Hh')) as (res & t2 & Hrun & HA).
  rewrite Hrun. unfold put_cpu. apply wp_modify.
  assert (Hres : length res = 4%nat).
  { unfold std_smc_answer in HA. destruct (list_find _ _); destruct HA as [HA _]; [|by rewrite HA].
    by destruct HA as (? & _ & ->). }
  cbn [m_cpu m_ctx ns_entry_addrs m_rest].
  match goal with |- wp _ ?s0 _ =>
    destruct (leave_run s0 res (lo after) eq_refl eq_refl Hres) as (sec & Hleave & Hs1 & Hs2) end.
  eapply wp_intro; [exact Hleave|]. cbn. exists res. split_and!; try done.
  - unfold std_smc_answer in HA. change (threads t1) with (threads (m_rest s)) in HA.
    case_bool_decide as HE; destruct (list_find _ _) as [[n t]|] eqn:Hf.
    + by destruct HA as [HA _].
    + apply list_find_None in Hf. exfalso. apply Exists_exists in HE as (t & Ht & Hst).
      rewrite Forall_forall in Hf. by apply (Hf t).
    + exfalso. apply HE. apply list_find_Some in Hf as (Hn' & Hst & _).
      apply Exists_exists. exists t. split; [by eapply list_elem_of_lookup_2|done].
    + destruct HA as [-> ->]. split; [|done].
      destruct (lo (m_cpu s)) as [|? [|? [|? [|? ?]]]]; done.
  - unfold std_smc_answer in HA. destruct (list_find _ _); [by destruct HA as (_ & HA & _)|].
    by destruct HA as [_ ->].
Qed.

Lemma cloak_handler_run events args (k : kernel P) R :
  wp (cloak_entry events args) k R ->
  forall hh s1, world s1 = k ->
    wp (cloak_handler events hh args) s1 (fun reply s2 => R reply (world s2) /\ quiet s1 s2).
Proof.
  intros HR hh s1 <-. destruct (wp_elim _ _ _ HR) as (reply & k' & Hrun & Hk).
  unfold wp, cloak_handler, in_world. rewrite Hrun. split; [exact Hk|]. by repeat split.
Qed.

(** C8: a standard call of the normal world, from its [smc] to the instruction
    behind it, with the handlers main.c registers.  Whatever the secure world
    leaves in its registers, the normal world continues where it was, with its
    banked registers and [r4]-[r12] unchanged, and in [r0]-[r3] what
    [cloak_entry] answers to its arguments, or [OPTEE_SMC_RETURN_ETHREAD_LIMIT]
    when no thread is free, in which case the kernel is unchanged.  The threads
    are as before the call, and the registers the secure world leaves are kept
    for its next entry. *)
Theorem smc_call_end_to_end (s : mon secure) c events after (R : thread_smc_args -> kernel P -> Prop) :
  nsec_core s -> std_call (m_cpu s) -> idle (m_rest s) c ->
  wp (cloak_entry events (args_of (lo (m_cpu s)))) (world (m_rest s)) R ->
  wp (smc_call c (cloak_handler events) after) s (fun _ s' => exists res,
    m_cpu s' = mk_cpu (res ++ drop 4 (lo (m_cpu s))) (r8_12 (m_cpu s)) (modes (m_cpu s))
                 (cpu_pc (m_cpu s)) (cpu_psr (m_cpu s)) true /\
    (if bool_decide (Exists (fun t => state t = THREAD_STATE_FREE) (threads (m_rest s)))
     then exists reply, R reply (world (m_rest s')) /\ res = [a0 reply; a1 reply; a2 reply; a3 reply]
     else res = OPTEE_SMC_RETURN_ETHREAD_LIMIT :: take 3 (drop 1 (lo (m_cpu s))) /\
          world (m_rest s') = world (m_rest s)) /\
    states (m_rest s') = states (m_rest s) /\
    wc_mode_regs (sc_sec (m_ctx s')) = modes after /\
    wc_mon_spsr (sc_sec (m_ctx s')) = cpu_psr after).
Proof.
  intros Hn Hstd Hidle HR. apply (smc_call_run s c _ after R Hn Hstd Hidle).
  intros n s1 _ _ Hw. by apply (cloak_handler_run _ _ _ _ HR).
Qed.
End smc.

(** ** Power services *)

Section psci.
Context {P : Type} {plat : Platform P} {cfg : Config} {tcfg : ThreadConfig} {mc : MonitorConfig}.
Context (R : Z -> Prop) {regs : PlainRegs P R}.
Abbreviation secure := (tstate (kernel P)).

Definition psci_spins (fid : Z) : bool := (fid =? PSCI_SYSTEM_OFF) || (fid =? PSCI_SYSTEM_RESET).
Definition psci_starts (l : list Z) : bool :=
  (nth 0 l 0 =? PSCI_CPU_ON) && negb ((nth 1 l 0 =? 0) || (nth 1 l 0 >=? CFG_NB_CORE)).
(** The answer to every call that returns. *)
Definition psci_answer (l : list Z) : Z :=
  if nth 0 l 0 =? PSCI_VERSION then PSCI_VERSION_0_2
  else if nth 0 l 0 =? PSCI_CPU_ON
       then if psci_starts l then u32 PSCI_RET_SUCCESS else u32 PSCI_RET_INVALID_PARAMETERS
       else OPTEE_SMC_RETURN_UNKNOWN_FUNCTION.
(** Core [i] is released with the entry address [entry]. *)
Definition core_released (va i entry : Z) (s s' : mon secure) : Prop :=
  ns_entry_addrs s' = <[Z.to_nat i := entry]> (ns_entry_addrs s) /\
  let p := k_plat (world (m_rest s)) in let p' := k_plat (world (m_rest s')) in
  reg p' (va + SRC_GPR1 + i * 8) = u32 CFG_TEE_LOAD_ADDR /\
  reg p' (va + SRC_SCR) =
    Z.lor (Z.lor (reg p (va + SRC_SCR)) (bit32 (SRC_SCR_CORE1_ENABLE_OFFSET + (i - 1))))
          (bit32 (SRC_SCR_CORE1_RST_OFFSET + (i - 1))) /\
  m_rest s' = put_world (set_k_plat p' (world (m_rest s))) (m_rest s).
(** The reset controller is mapped at [va]. *)
Definition src_mapped (va : Z) (k : kernel P) : Prop :=
  phys_to_virt SRC_BASE MEM_AREA_IO_SEC k = Ret va k /\ 0 <= va /\ va + 0x1000 <= 2 ^ 32 /\
  (forall o, 0 <= o < 0x1000 -> R (va + o)).

Lemma put_world_id (s : secure) : put_world (world s) s = s.
Proof. by destruct s. Qed.

Lemma in_kernel_run {B} (m : M (kernel P) B) (s : mon secure) b k :
  m (world (m_rest s)) = Ret b k ->
  in_kernel world put_world m s =
    Ret b (mk_mon (m_cpu s) (m_ctx s) (ns_entry_addrs s) (put_world k (m_rest s))).
Proof. intros H. unfold in_kernel. by rewrite H. Qed.
Lemma mon_id (s : mon secure) :
  mk_mon (m_cpu s) (m_ctx s) (ns_entry_addrs s) (put_world (world (m_rest s)) (m_rest s)) = s.
Proof. rewrite put_world_id. by destruct s. Qed.

Lemma psci_cpu_on_run (s : mon secure) va i entry ctxid :
  src_mapped va (world (m_rest s)) -> length (ns_entry_addrs s) = Z.to_nat CFG_NB_CORE ->
  0 <= i -> CFG_NB_CORE <= 8 ->
  wp (psci_cpu_on world put_world i entry ctxid) s (fun v s' =>
    m_cpu s' = m_cpu s /\ m_ctx s' = m_ctx s /\
    if (i =? 0) || (i >=? CFG_NB_CORE) then v = PSCI_RET_INVALID_PARAMETERS /\ s' = s
    else v = PSCI_RET_SUCCESS /\ core_released va i entry s s').
Proof.
  intros (Hva & Hva0 & Hva1 & HR) Hlen Hi Hnb. unfold psci_cpu_on, core_mmu_get_va, wp.
  erewrite bind_run by (by apply in_kernel_run). rewrite mon_id.
  destruct ((i =? 0) || (i >=? CFG_NB_CORE)) eqn:Hb; [done|].
  apply orb_false_iff in Hb as [Hi0%Z.eqb_neq Hi1]. rewrite Z.geb_leb in Hi1. apply Z.leb_gt in Hi1.
  erewrite bind_run by done. erewrite bind_run.
  2:{ unfold aset. rewrite (proj2 (Z.leb_le 0 i)), (proj2 (Z.ltb_lt i _)) by lia. done. }
  erewrite bind_run by done. unfold SRC_GPR1, SRC_SCR.
  erewrite bind_run by (by apply in_kernel_run).
  set (s1 := mk_mon _ _ _ _). set (k1 := set_platform _ _) in s1.
  assert (Hsmall : forall o, 0 <= o < 0x1000 -> u32 (va + o) = va + o)
    by (intros o Ho; apply u32_small; unfold is_u32; lia).
  assert (HR0 : R (u32 (va + 0))) by (rewrite Hsmall by lia; apply HR; lia).
  assert (Hgpr : u32 (va + 32 + i * 8) = va + (32 + i * 8))
    by (rewrite <- Z.add_assoc; apply Hsmall; lia).
  assert (HR1 : R (u32 (va + 32 + i * 8))) by (rewrite Hgpr; apply HR; lia).
  erewrite bind_run by (apply in_kernel_run; exact (read32_reg R (va + 0) k1 HR0)).
  change (mk_mon (m_cpu s1) _ _ _) with (mk_mon (m_cpu s1) (m_ctx s1) (ns_entry_addrs s1)
    (put_world (world (m_rest s1)) (m_rest s1))). rewrite mon_id.
  erewrite bind_run by (by apply in_kernel_run). unfold ret. cbn [m_cpu m_ctx]. split_and!; try done.
  assert (Hne : apart (u32 (va + 0)) 4 (u32 (va + 32 + i * 8)) 4)
    by (rewrite Hsmall, Hgpr by lia; unfold apart; lia).
  assert (Hgetk : get_platform k1 = io_write 4 (u32 (va + 32 + i * 8)) (CFG_TEE_LOAD_ADDR mod 2 ^ (8 * 4))
            (k_plat (world (m_rest s)))) by reflexivity.
  assert (Hk1 : reg (get_platform k1) (va + 0) = reg (k_plat (world (m_rest s))) (va + 0))
    by (rewrite Hgetk; apply (reg_write_other R); [done|lia|done]).
  rewrite Hk1. unfold core_released, SRC_GPR1, SRC_SCR. cbn [ns_entry_addrs m_rest].
  set (w := Z.lor _ _).
  assert (Hw : is_u32 w) by (apply is_u32_lor; [apply is_u32_lor; [apply reg_u32|]|]; apply bit32_range).
  assert (Hpl : k_plat (world (put_world (set_platform
            (io_write 4 (u32 (va + 0)) (w mod 2 ^ (8 * 4)) (get_platform (world (m_rest s1))))
            (world (m_rest s1))) (m_rest s1)))
          = io_write 4 (u32 (va + 0)) (w mod 2 ^ (8 * 4)) (get_platform k1))
    by reflexivity.
  rewrite Hpl. split; [done|]. split; [|split].
  - rewrite (reg_write_other R) by (done || lia || by destruct Hne; [right|left]).
    rewrite Hgetk, (reg_write_same R) by done. apply u32_u32.
  - rewrite (reg_write_same R) by done. change (w mod 2 ^ (8 * 4)) with (u32 w).
    by rewrite !u32_small by (done || apply u32_range).
  - done.
Qed.

Lemma psci_other_run (s : mon secure) args :
  psci_spins (a0 args) = false -> a0 args <> PSCI_CPU_ON ->
  smc_std_handler world put_world args s =
    Ret (set_a0 (if a0 args =? PSCI_VERSION then PSCI_VERSION_0_2
                 else OPTEE_SMC_RETURN_UNKNOWN_FUNCTION) args) s.
Proof.
  unfold psci_spins, smc_std_handler, tee_psci_handler. intros [H1 H2]%orb_false_iff H3%Z.eqb_neq.
  destruct (is_psci_fid (a0 args)) eqn:Hf; [rewrite H1, H2, H3|];
    (destruct (a0 args =? PSCI_VERSION) eqn:Hv).
  - done.
  - repeat (destruct (_ =? _); [done|]). done.
  - apply Z.eqb_eq in Hv. by rewrite Hv in Hf.
  - done.
Qed.

(** The state in which the monitor handles a call of the normal world. *)
Definition entered (s : mon secure) : mon secure :=
  mk_mon (set_ns false (m_cpu s))
    (set_sc_nsec (set_wc_r8 (r8_12 (m_cpu s)) (push_regs (m_cpu s) (sc_nsec (m_ctx s)))) (m_ctx s))
    (ns_entry_addrs s) (m_rest s).
Definition std_service (s : mon secure) : Prop :=
  CFG_PSCI_ARM32 = true /\ ns (m_cpu s) = true /\
  OPTEE_SMC_OWNER_NUM (nth 0 (lo (m_cpu s)) 0) = OPTEE_SMC_OWNER_STANDARD.

Lemma std_service_spins (s : mon secure) c h after :
  std_service s ->
  smc_std_handler world put_world (args_of (lo (m_cpu s))) (entered s) = Spin ->
  smc_call c h after s = Spin.
Proof.
  intros (Hp & Hns & Ho) Hr. destruct s as [r x a t]; cbn in *.
  unfold smc_call, sm_smc_entry, sm_from_nsec, sm_platform_handler, get_cpu, get_ctx, put_ctx, put_cpu.
  unfold bind, gets, modify, ret in *; cbn. rewrite Hns; cbn. rewrite Hp, Ho; cbn.
  unfold entered in Hr; cbn in Hr. by rewrite Hr.
Qed.
Lemma std_service_returns (s : mon secure) c h after args s2 :
  std_service s ->
  smc_std_handler world put_world (args_of (lo (m_cpu s))) (entered s) = Ret args s2 ->
  m_cpu s2 = m_cpu (entered s) -> m_ctx s2 = m_ctx (entered s) ->
  exists x, smc_call c h after s = Ret tt (mk_mon
      (mk_cpu (args_list args) (r8_12 (m_cpu s)) (modes (m_cpu s)) (cpu_pc (m_cpu s))
         (cpu_psr (m_cpu s)) true) x (ns_entry_addrs s2) (m_rest s2)) /\
    sc_sec x = sc_sec (m_ctx s).
Proof.
  intros (Hp & Hns & Ho) Hr Hcpu Hctx. destruct s as [r x a t], s2 as [r2 x2 a2 t2]; cbn in *. subst.
  eexists. split.
  - unfold smc_call, sm_smc_entry, sm_from_nsec, sm_platform_handler, sm_ret_to_nsec, sm_exit,
      get_cpu, get_ctx, put_ctx, put_cpu.
    unfold bind, gets, modify, ret in *; cbn. rewrite Hns; cbn. rewrite Hp, Ho; cbn.
    unfold entered in Hr; cbn in Hr. rewrite Hr. reflexivity.
  - done.
Qed.
Lemma args_list_set_a0 v l :
  length l = 8%nat -> args_list (set_a0 v (args_of l)) = v :: drop 1 l.
Proof. intros H. do 9 (destruct l as [|? l]; try done). Qed.

(** C9: a call of the standard service range never reaches the secure kernel.
    Switching off and resetting spin.  Any other call returns to the normal
    world with its registers unchanged except [r0], which holds the version, the
    outcome of starting a core, or -1; the secure context is untouched, and the
    rest of the state is unchanged unless a core is started: then its entry
    address is recorded, its start address is the load address of the kernel, and
    its enable and reset bits are set, when the controller is mapped and the
    core number is between 1 and the number of cores. *)
Theorem psci_call_correct (s : mon secure) c h after va :
  CFG_PSCI_ARM32 = true -> CFG_NB_CORE <= 8 ->
  length (ns_entry_addrs s) = Z.to_nat CFG_NB_CORE ->
  ns (m_cpu s) = true -> length (lo (m_cpu s)) = 8%nat -> Forall is_u32 (lo (m_cpu s)) ->
  OPTEE_SMC_OWNER_NUM (nth 0 (lo (m_cpu s)) 0) = OPTEE_SMC_OWNER_STANDARD ->
  src_mapped va (world (m_rest s)) ->
  let l := lo (m_cpu s) in
  if psci_spins (nth 0 l 0) then smc_call c h after s = Spin
  else wp (smc_call c h after) s (fun _ s' =>
    m_cpu s' = mk_cpu (psci_answer l :: drop 1 l) (r8_12 (m_cpu s)) (modes (m_cpu s))
                 (cpu_pc (m_cpu s)) (cpu_psr (m_cpu s)) true /\
    sc_sec (m_ctx s') = sc_sec (m_ctx s) /\
    if psci_starts l then core_released va (nth 1 l 0) (nth 2 l 0) s s'
    else ns_entry_addrs s' = ns_entry_addrs s /\ m_rest s' = m_rest s).
Proof.
  intros Hcfg Hnb Hlen Hns H8 Hu Ho Hsrc l.
  assert (Hstd : std_service s) by done.
  assert (Ha0 : a0 (args_of l) = nth 0 l 0) by done.
  destruct (psci_spins (nth 0 l 0)) eqn:Hspin.
  { apply std_service_spins; [done|]. unfold psci_spins in Hspin.
    apply orb_true_iff in Hspin as [Hf%Z.eqb_eq|Hf%Z.eqb_eq]; unfold smc_std_handler, tee_psci_handler;
      fold l; by rewrite Ha0, Hf. }
  destruct (decide (nth 0 l 0 = PSCI_CPU_ON)) as [Hon|Hon].
  - assert (Hi : 0 <= nth 1 l 0)
      by (apply (proj1 (List.Forall_nth is_u32 _) Hu 1%nat 0); lia).
    destruct (wp_elim _ _ _ (psci_cpu_on_run (entered s) va (nth 1 l 0) (nth 2 l 0) (nth 3 l 0)
      Hsrc Hlen Hi Hnb)) as (v & s2 & Hrun & Hc2 & Hx2 & HP).
    assert (Hr : smc_std_handler world put_world (args_of l) (entered s)
                 = Ret (set_a0 (u32 v) (args_of l)) s2).
    { unfold smc_std_handler, tee_psci_handler. rewrite Ha0, Hon.
      exact (bind_run _ (fun v => ret (set_a0 (u32 v) (args_of l))) _ _ _ Hrun). }
    destruct (std_service_returns s c h after _ s2 Hstd Hr Hc2 Hx2) as (x & Hcall & Hx).
    eapply wp_intro; [exact Hcall|]. cbn [m_cpu m_ctx ns_entry_addrs m_rest].
    rewrite args_list_set_a0 by done.
    unfold psci_starts, psci_answer, psci_starts. rewrite Hon, Z.eqb_refl.
    change (PSCI_CPU_ON =? PSCI_VERSION) with false. cbn [andb].
    destruct ((nth 1 l 0 =? 0) || (nth 1 l 0 >=? CFG_NB_CORE)); cbn [negb]; destruct HP as [-> HP].
    + by rewrite HP.
    + split_and!; [done..|]. exact HP.
  - assert (Hr : smc_std_handler world put_world (args_of l) (entered s) = Ret (set_a0
      (if nth 0 l 0 =? PSCI_VERSION then PSCI_VERSION_0_2 else OPTEE_SMC_RETURN_UNKNOWN_FUNCTION)
      (args_of l)) (entered s)) by (by apply psci_other_run).
    destruct (std_service_returns s c h after _ _ Hstd Hr eq_refl eq_refl) as (x & Hcall & Hx).
    eapply wp_intro; [exact Hcall|]. cbn [m_cpu m_ctx ns_entry_addrs m_rest].
    rewrite args_list_set_a0 by done. unfold psci_starts, psci_answer, psci_starts.
    rewrite (proj2 (Z.eqb_neq _ _) Hon). cbn [andb]. done.
Qed.
End psci.


(** ** An instance: the normal world asks core 1 for the settings *)

Definition board_monitor : MonitorConfig :=
  {| CFG_PSCI_ARM32 := true; CFG_NB_CORE := 4; CFG_TEE_LOAD_ADDR := 0x4c000000;
     thread_vector_table_addr := 0x4c001000 |}.
Definition board_images : Images := {| image_data _ := 0x80000000 |}.
Definition board_secure : tstate (kernel bigram) :=
  mk_tstate (threads board_idle) (core_locals board_idle) (cores board_idle)
    (thread_global_lock board_idle) (handlers board_idle) (stack_tmp board_idle)
    (stack_abt board_idle) (stack_thread board_idle) board.
Definition board_asks : mon (tstate (kernel bigram)) :=
  mk_mon (mk_cpu [0x32000000; OPTEE_SMC_CLOAK_GET; 11; 12; 13; 14; 15; 16] [8; 9; 10; 11; 12]
            (replicate 17 1) 0x80008000 0x13 true)
    (SmCtx (SmWorldCtx (replicate 17 2) (replicate 5 0) 0 (replicate 8 0) 0 0x1d3)
           (SmWorldCtx (replicate 17 0) (replicate 5 0) 0 (replicate 8 0) 0 0))
    (replicate 4 0) board_secure.

Lemma board_secure_idle : @idle board_cfg board_threads (kernel bigram) board_secure 1.
Proof.
  unfold idle. split_and!; [cbn; lia|done| |done|by eexists|by eexists].
  intros _. split_and!; apply Forall_replicate, init_canary_ok; rewrite length_replicate; lia.
Qed.

Lemma smc_call_end_to_end_witness :
  wp (@smc_call bigram _ board_cfg board_threads board_monitor 1
        (@cloak_handler bigram _ board_cfg (@drivers _ _ board_cfg 4) board_images [])
        (mk_cpu [1; 2; 3] (replicate 5 3) (replicate 17 3) 0 0x1d3 false))
     board_asks
     (fun _ s' => exists v, m_cpu s' = mk_cpu [0; v; 11; 12; 13; 14; 15; 16] [8; 9; 10; 11; 12]
        (replicate 17 1) 0x80008000 0x13 true).
Proof.
  assert (Hn : nsec_core board_asks) by (repeat split).
  assert (Hs : @std_call board_monitor (m_cpu board_asks)) by (split; reflexivity).
  assert (HR : wp (@cloak_entry bigram _ board_cfg (@drivers _ _ board_cfg 4) board_images []
      (args_of (lo (m_cpu board_asks)))) (world (m_rest board_asks))
      (fun reply _ => exists v, reply = ThreadSmcArgs 0 v 11 12 13 14 15 16)) by (by eexists).
  refine (wp_mono _ _ _ _ _ (@smc_call_end_to_end bigram _ board_cfg
    (@drivers _ _ board_cfg 4) board_images board_threads board_monitor board_asks 1 []
    (mk_cpu [1; 2; 3] (replicate 5 3) (replicate 17 3) 0 0x1d3 false) _ Hn Hs board_secure_idle HR)).
  intros [] s' (res & Hcpu & HA & _). rewrite bool_decide_true in HA by (left; reflexivity).
  destruct HA as (reply & [v ->] & ->). exists v. exact Hcpu.
Defined.

(** *** Core 2 is started *)

Definition src_va : Z := 0x020D8000.
Definition board_mapped : kernel bigram :=
  set_k_mmu (set_static_memory_map
    [TeeMmapRegion MEM_AREA_IO_SEC 0x100000 0x00100000 0x00100000 0x03300000 0] (k_mmu board)) board.
Definition board_starts : mon (tstate (kernel bigram)) :=
  mk_mon (mk_cpu [PSCI_CPU_ON; 2; 0x10008000; 0; 4; 5; 6; 7] [8; 9; 10; 11; 12]
            (replicate 17 1) 0x80008000 0x13 true)
    (m_ctx board_asks) (replicate 4 0)
    (put_world board_mapped board_secure).

Lemma psci_call_correct_witness :
  wp (@smc_call bigram _ board_cfg board_threads board_monitor 0
        (@cloak_handler bigram _ board_cfg (@drivers _ _ board_cfg 4) board_images [])
        (mk_cpu [1; 2; 3] (replicate 5 3) (replicate 17 3) 0 0x1d3 false))
     board_starts
     (fun _ s' => lo (m_cpu s') = [0; 2; 0x10008000; 0; 4; 5; 6; 7] /\
        ns_entry_addrs s' = [0; 0; 0x10008000; 0]).
Proof.
  assert (Hsrc : @src_mapped bigram _ board_cfg (fun _ => True) src_va
                   (world (m_rest board_starts))) by (repeat split; vm_compute; congruence).
  assert (Hu : Forall is_u32 (lo (m_cpu board_starts)))
    by (repeat constructor; vm_compute; congruence).
  pose proof (@psci_call_correct bigram _ board_cfg board_threads board_monitor (fun _ => True) _
    board_starts 0 (@cloak_handler bigram _ board_cfg (@drivers _ _ board_cfg 4) board_images [])
    (mk_cpu [1; 2; 3] (replicate 5 3) (replicate 17 3) 0 0x1d3 false) src_va eq_refl
    ltac:(vm_compute; congruence) eq_refl eq_refl eq_refl Hu eq_refl Hsrc) as HT.
  cbv zeta in HT.
  assert (H1 : psci_spins (nth 0 (lo (m_cpu board_starts)) 0) = false) by reflexivity.
  assert (H2 : @psci_starts board_monitor (lo (m_cpu board_starts)) = true) by reflexivity.
  assert (H3 : @psci_answer board_monitor (lo (m_cpu board_starts)) = 0) by reflexivity.
  rewrite H1, H2, H3 in HT. refine (wp_mono _ _ _ _ _ HT). intros [] s' (Hcpu & _ & Hrel & _).
  rewrite Hcpu. split; [reflexivity|]. rewrite Hrel. reflexivity.
Defined.
