(* ===== verification/Boot.v ===== *)
(** * Early platform set-up (plat-imx/imx6.c, drivers/tzc380.c)

    What the primary core does before the MMU is on: it releases the other
    cores, configures the snoop control unit and has the TrustZone address
    space controller (TZASC) keep the normal world out of the memory of the
    secure kernel.  [tzc_permission] is a reference model of the documented
    behaviour of that controller, against which the set-up is judged. *)

From stdpp Require Import prelude list.
From Stdlib Require Import ZArith Lia.
From S2P Require Import Prelude Platform State CoreMmu Monitor.
#[local] Open Scope Z_scope.
#[local] Open Scope kernel_scope.

(** ** Registers *)

Definition SCU_BASE : Z := 0x00A00000.
Definition SCU_CTRL : Z := 0x00.
Definition SCU_INV_SEC : Z := 0x0C.
Definition SCU_SAC : Z := 0x50.
Definition SCU_NSAC : Z := 0x54.
Definition SCU_INV_CTRL_INIT : Z := 0xFFFFFFFF.
Definition SCU_SAC_CTRL_INIT : Z := 0x0000000F.
Definition SCU_NSAC_CTRL_INIT : Z := 0x00000FFF.
Definition SRC_SCR_CPU_ENABLE_ALL : Z := Z.shiftl 0x7 22.
Definition TZC380_BASE : Z := 0x021D0000.

Definition BUILD_CONFIG_OFF : Z := 0x000.
Definition ACTION_OFF : Z := 0x004.
Definition REGION_SETUP_LOW_OFF (n : Z) : Z := 0x100 + n * 0x10.
Definition REGION_SETUP_HIGH_OFF (n : Z) : Z := 0x104 + n * 0x10.
Definition REGION_ATTRIBUTES_OFF (n : Z) : Z := 0x108 + n * 0x10.
Definition BUILD_CONFIG_AW_SHIFT : Z := 8.
Definition BUILD_CONFIG_AW_MASK : Z := 0x3f.
Definition BUILD_CONFIG_NR_SHIFT : Z := 0.
Definition BUILD_CONFIG_NR_MASK : Z := 0xf.

Inductive tzc_action := TZC_ACTION_NONE | TZC_ACTION_ERR | TZC_ACTION_INT | TZC_ACTION_ERR_INT.
Definition tzc_action_value (a : tzc_action) : Z :=
  match a with
  | TZC_ACTION_NONE => 0 | TZC_ACTION_ERR => 1 | TZC_ACTION_INT => 2 | TZC_ACTION_ERR_INT => 3
  end.

Definition TZC_SP_NS_W : Z := 1.
Definition TZC_SP_NS_R : Z := 2.
Definition TZC_SP_S_W : Z := 4.
Definition TZC_SP_S_R : Z := 8.
Definition TZC_ATTR_SP_SHIFT : Z := 28.
Definition TZC_ATTR_SP_ALL : Z :=
  Z.shiftl (Z.lor (Z.lor (Z.lor TZC_SP_S_W TZC_SP_S_R) TZC_SP_NS_W) TZC_SP_NS_R) TZC_ATTR_SP_SHIFT.
Definition TZC_ATTR_SP_S_RW : Z := Z.shiftl (Z.lor TZC_SP_S_W TZC_SP_S_R) TZC_ATTR_SP_SHIFT.
Definition TZC_ATTR_SP_S_RW_NS_R : Z :=
  Z.shiftl (Z.lor (Z.lor TZC_SP_S_W TZC_SP_S_R) TZC_SP_NS_R) TZC_ATTR_SP_SHIFT.
Definition TZC_REGION_SIZE_8M : Z := 0x16.
Definition TZC_REGION_SIZE_64M : Z := 0x19.
Definition TZC_REGION_SIZE_SHIFT : Z := 1.
Definition TZC_ATTR_REGION_SIZE (s : Z) : Z := Z.shiftl s TZC_REGION_SIZE_SHIFT.
Definition TZC_ATTR_REGION_ENABLE : Z := 1.

(** ** State *)

Record tzc_instance := mk_tzc { tzc_base : Z; addr_width : Z; num_regions : Z }.
Record boot (P : Type) := mk_boot { b_plat : P; tzc : tzc_instance }.
Arguments mk_boot {P} _ _.
Arguments b_plat {P} _.
Arguments tzc {P} _.

#[global] Program Instance boot_platform (P : Type) : HasPlatform P (boot P) := {
  get_platform := b_plat;
  set_platform p s := mk_boot p (tzc s);
}.
Next Obligation. done. Qed.
Next Obligation. done. Qed.
Next Obligation. by intros P []. Qed.

Section tzc380.
Context {P : Type} {plat : Platform P} {cfg : Config}.
#[local] Abbreviation K := (M (boot P)).

(** ** drivers/tzc380.c *)

Definition tzc_read_build_config (base : Z) : K Z := read32 (base + BUILD_CONFIG_OFF).
Definition tzc_write_action (base : Z) (action : tzc_action) : K unit :=
  write32 (tzc_action_value action) (base + ACTION_OFF).
Definition tzc_write_region_base_low (base region val : Z) : K unit :=
  write32 val (base + REGION_SETUP_LOW_OFF region).
Definition tzc_write_region_base_high (base region val : Z) : K unit :=
  write32 val (base + REGION_SETUP_HIGH_OFF region).
Definition tzc_write_region_attributes (base region val : Z) : K unit :=
  write32 val (base + REGION_ATTRIBUTES_OFF region).

Definition tzc_init (base : Z) : K unit :=
  massert (ret (truth base)) ;;;
  modify (fun s => mk_boot (b_plat s) (mk_tzc base (addr_width (tzc s)) (num_regions (tzc s)))) ;;;
  tzc_build <- tzc_read_build_config base;;
  modify (fun s => mk_boot (b_plat s) (mk_tzc base
    (u8 (Z.land (Z.shiftr tzc_build BUILD_CONFIG_AW_SHIFT) BUILD_CONFIG_AW_MASK + 1))
    (u8 (Z.land (Z.shiftr tzc_build BUILD_CONFIG_NR_SHIFT) BUILD_CONFIG_NR_MASK + 1)))).

Definition addr_low (addr : Z) : Z := u32 addr.
Definition addr_high (addr : Z) : Z := 0.

Definition tzc_configure_region (region region_base attr : Z) : K unit :=
  massert (t <- gets tzc;; ret (truth (tzc_base t))) ;;;
  massert (t <- gets tzc;; ret (region <? num_regions t)) ;;;
  t <- gets tzc;;
  tzc_write_region_base_low (tzc_base t) region (addr_low region_base) ;;;
  tzc_write_region_base_high (tzc_base t) region (addr_high region_base) ;;;
  tzc_write_region_attributes (tzc_base t) region attr.

Definition tzc_set_action (action : tzc_action) : K unit :=
  massert (t <- gets tzc;; ret (truth (tzc_base t))) ;;;
  t <- gets tzc;; tzc_write_action (tzc_base t) action.

(** ** plat-imx/imx6.c; [sync] is [CFG_BOOT_SYNC_CPU] *)

Definition plat_cpu_reset_late (sync : bool) (load_addr core_pos : Z) : K unit :=
  if negb (core_pos =? 0) then ret tt else
  when sync
    (write32 load_addr (SRC_BASE + SRC_GPR1 + 8) ;;;
     write32 load_addr (SRC_BASE + SRC_GPR1 + 16) ;;;
     write32 load_addr (SRC_BASE + SRC_GPR1 + 24) ;;;
     write32 SRC_SCR_CPU_ENABLE_ALL (SRC_BASE + SRC_SCR)) ;;;
  write32 SCU_INV_CTRL_INIT (SCU_BASE + SCU_INV_SEC) ;;;
  write32 SCU_SAC_CTRL_INIT (SCU_BASE + SCU_SAC) ;;;
  write32 SCU_NSAC_CTRL_INIT (SCU_BASE + SCU_NSAC) ;;;
  v <- read32 (SCU_BASE + SCU_CTRL);;
  write32 (Z.lor v 0x1) (SCU_BASE + SCU_CTRL) ;;;
  tzc_init TZC380_BASE ;;;
  tzc_configure_region 0 0x00000000 TZC_ATTR_SP_ALL ;;;
  tzc_configure_region 1 CFG_TEE_RAM_START
    (Z.lor (Z.lor TZC_ATTR_SP_S_RW (TZC_ATTR_REGION_SIZE TZC_REGION_SIZE_64M)) TZC_ATTR_REGION_ENABLE) ;;;
  tzc_configure_region 2 CFG_FBMEM_START
    (Z.lor (Z.lor TZC_ATTR_SP_S_RW_NS_R (TZC_ATTR_REGION_SIZE TZC_REGION_SIZE_8M)) TZC_ATTR_REGION_ENABLE) ;;;
  tzc_set_action TZC_ACTION_ERR.

(** ** The controller, as documented

    An address has the permissions of the enabled region with the highest
    number that contains it; a region is [2 ^ (size + 1)] bytes long; region 0
    is everything. *)

Definition region_attr (p : P) (n : Z) : Z := reg p (TZC380_BASE + REGION_ATTRIBUTES_OFF n).
Definition region_base (p : P) (n : Z) : Z := reg p (TZC380_BASE + REGION_SETUP_LOW_OFF n).
Definition region_len (attr : Z) : Z := 2 ^ (Z.land (Z.shiftr attr TZC_REGION_SIZE_SHIFT) 0x3f + 1).
Definition region_hit (p : P) (n a : Z) : bool :=
  (n =? 0) ||
  Z.testbit (region_attr p n) 0 &&
  (region_base p n <=? a) && (a <? region_base p n + region_len (region_attr p n)).
(** The regions [n - 1], ..., [0] in this order. *)
Fixpoint tzc_permission (p : P) (n : nat) (a : Z) : Z :=
  match n with
  | O => 0
  | S n' => if region_hit p (Z.of_nat n') a
            then Z.shiftr (region_attr p (Z.of_nat n')) TZC_ATTR_SP_SHIFT
            else tzc_permission p n' a
  end.
End tzc380.

(** ** The memory of the kernel is protected *)

Section protect.
Context {P : Type} {plat : Platform P} {cfg : Config}.
Context (R : Z -> Prop) {regs : PlainRegs P R}.
Hypothesis HR : forall a, TZC380_BASE <= a < TZC380_BASE + 0x1000 -> R a.
#[local] Abbreviation K := (M (boot P)).
Implicit Types (s : boot P) (p : P).

Definition tzc_reg (o : Z) : Prop := 0 <= o /\ o + 4 <= 0x1000 /\ o mod 4 = 0.
Lemma tzc_addr o : tzc_reg o -> u32 (TZC380_BASE + o) = TZC380_BASE + o /\ R (u32 (TZC380_BASE + o)).
Proof.
  intros (H1 & H2 & _). assert (Heq : u32 (TZC380_BASE + o) = TZC380_BASE + o)
    by (apply u32_small; unfold is_u32, TZC380_BASE in *; lia).
  split; [done|]. rewrite Heq. apply HR. lia.
Qed.

(** Stores outside of the controller leave it alone. *)
Definition same_tzc p p' : Prop := forall o, tzc_reg o -> reg p' (TZC380_BASE + o) = reg p (TZC380_BASE + o).
Lemma write_outside v a p : is_u32 a -> a + 4 <= TZC380_BASE -> same_tzc p (io_write 4 (u32 a) v p).
Proof.
  intros Ha Hlt o Ho. destruct (tzc_addr o Ho) as [Heq HRo].
  apply (reg_write_other R); [done|lia|]. rewrite Heq, u32_small by done.
  unfold apart. destruct Ho. lia.
Qed.
Lemma write_tzc v o o' p :
  tzc_reg o -> tzc_reg o' ->
  reg (io_write 4 (u32 (TZC380_BASE + o)) v p) (TZC380_BASE + o') =
    if o' =? o then u32 v else reg p (TZC380_BASE + o').
Proof.
  intros Ho Ho'. destruct (tzc_addr o Ho) as [He HRo], (tzc_addr o' Ho') as [He' HRo'].
  destruct (Z.eqb_spec o' o) as [->|Hne]; [by apply (reg_write_same R)|].
  apply (reg_write_other R); [done|lia|]. rewrite He, He'. unfold apart.
  destruct Ho as (? & ? & ?), Ho' as (? & ? & ?).
  pose proof (Z_div_mod_eq_full o 4). pose proof (Z_div_mod_eq_full o' 4). lia.
Qed.

(** Steps that leave the controller and what is known of it alone. *)
Definition tzc_quiet s s' : Prop := same_tzc (b_plat s) (b_plat s') /\ tzc s' = tzc s.
Lemma tzc_quiet_refl s : tzc_quiet s s.
Proof. by split. Qed.
Lemma wp_write_outside v a s s0 (Q : unit -> boot P -> Prop) :
  tzc_quiet s0 s -> is_u32 a -> a + 4 <= TZC380_BASE ->
  (forall s', tzc_quiet s0 s' -> Q tt s') -> wp (write32 v a) s Q.
Proof.
  intros [H1 H2] Ha Hlt HQ. apply wp_write32, HQ. split; [|done]. intros o Ho. cbn.
  rewrite (write_outside _ _ _ Ha Hlt o Ho). by apply H1.
Qed.
Lemma wp_read_outside a s s0 (Q : Z -> boot P -> Prop) :
  tzc_quiet s0 s -> is_u32 a -> a + 4 <= TZC380_BASE ->
  (forall v s', tzc_quiet s0 s' -> Q v s') -> wp (read32 a) s Q.
Proof.
  intros [H1 H2] Ha Hlt HQ. unfold read32, io_load, wp.
  pose proof (fun o (Ho : tzc_reg o) => reg_read_other R 4 (TZC380_BASE + o) a (b_plat s)) as HF.
  change (get_platform s) with (b_plat s).
  destruct (io_read 4 (u32 a) (b_plat s)) as [v p'] eqn:Hrd. apply HQ. split; [|done].
  intros o Ho. cbn. destruct (tzc_addr o Ho) as [Heq HRo]. rewrite HF; [by apply H1|done..|lia|].
  rewrite Heq, u32_small by done. unfold apart. destruct Ho. lia.
Qed.

(** What [tzc_configure_region] stores. *)
Definition configured (n b attr : Z) p p' : Prop := forall o, tzc_reg o ->
  reg p' (TZC380_BASE + o) =
    if o =? REGION_ATTRIBUTES_OFF n then attr
    else if o =? REGION_SETUP_HIGH_OFF n then 0
    else if o =? REGION_SETUP_LOW_OFF n then b
    else reg p (TZC380_BASE + o).
Lemma region_regs n : 0 <= n < 16 ->
  tzc_reg (REGION_SETUP_LOW_OFF n) /\ tzc_reg (REGION_SETUP_HIGH_OFF n) /\ tzc_reg (REGION_ATTRIBUTES_OFF n).
Proof.
  unfold tzc_reg, REGION_SETUP_LOW_OFF, REGION_SETUP_HIGH_OFF, REGION_ATTRIBUTES_OFF.
  intros Hn. split_and!; try lia.
  - replace (256 + n * 16) with ((64 + n * 4) * 4) by lia. apply Z_mod_mult.
  - replace (260 + n * 16) with ((65 + n * 4) * 4) by lia. apply Z_mod_mult.
  - replace (264 + n * 16) with ((66 + n * 4) * 4) by lia. apply Z_mod_mult.
Qed.
Lemma configure_run s n b attr :
  tzc_base (tzc s) = TZC380_BASE -> n < num_regions (tzc s) -> 0 <= n < 16 ->
  is_u32 b -> is_u32 attr ->
  wp (tzc_configure_region n b attr) s (fun _ s' =>
    configured n b attr (b_plat s) (b_plat s') /\ tzc s' = tzc s).
Proof.
  intros Hbase Hlt Hn Hb Ha. destruct (region_regs n Hn) as (HL & HH & HA).
  unfold tzc_configure_region.
  apply wp_bind, wp_massert_ok; [unfold bind, gets, ret; by rewrite Hbase|].
  apply wp_bind, wp_massert_ok; [unfold bind, gets, ret; by rewrite (proj2 (Z.ltb_lt _ _) Hlt)|].
  apply wp_bind, wp_gets. rewrite Hbase.
  apply wp_bind. unfold tzc_write_region_base_low. apply wp_write32. cbn. split; [|done].
  intros o Ho. rewrite !write_tzc by done.
  change (attr mod 2 ^ (8 * 4)) with (u32 attr). change (addr_high b mod 2 ^ (8 * 4)) with 0.
  unfold addr_low. by rewrite !u32_u32, !u32_small.
Qed.
Lemma init_run s :
  wp (tzc_init TZC380_BASE) s (fun _ s' => b_plat s' = b_plat s /\ tzc_base (tzc s') = TZC380_BASE /\
    num_regions (tzc s') = Z.land (reg (b_plat s) (TZC380_BASE + BUILD_CONFIG_OFF)) 0xf + 1).
Proof.
  assert (H0 : tzc_reg BUILD_CONFIG_OFF) by (unfold tzc_reg, BUILD_CONFIG_OFF; split_and!; lia || done).
  unfold tzc_init. apply wp_bind, wp_massert_ok; [done|]. apply wp_bind, wp_modify.
  apply wp_bind. unfold tzc_read_build_config.
  apply (wp_read32_reg R); [by apply tzc_addr|]. apply wp_modify. split; [done|]. split; [done|].
  cbn [tzc num_regions]. unfold BUILD_CONFIG_NR_SHIFT, BUILD_CONFIG_NR_MASK. rewrite Z.shiftr_0_r.
  unfold u8. apply Z.mod_small.
  change (get_platform (mk_boot (b_plat s) (mk_tzc TZC380_BASE (addr_width (tzc s)) (num_regions (tzc s)))))
    with (b_plat s).
  set (v := reg _ _). change 0xf with (Z.ones 4). rewrite Z.land_ones by lia.
  pose proof (Z.mod_pos_bound v (2 ^ 4) ltac:(lia)). lia.
Qed.

(** The address space as the normal and the secure world see it: in the memory of
    the kernel only secure accesses, in the frame buffer additionally
    non-secure reads, elsewhere everything. *)
Definition memory_permission (a : Z) : Z :=
  if (CFG_TEE_RAM_START <=? a) && (a <? CFG_TEE_RAM_START + 0x04000000)
  then Z.lor TZC_SP_S_W TZC_SP_S_R
  else if (CFG_FBMEM_START <=? a) && (a <? CFG_FBMEM_START + CFG_FBMEM_SIZE)
  then Z.lor (Z.lor TZC_SP_S_W TZC_SP_S_R) TZC_SP_NS_R
  else 15.

Lemma tzc_permission_off p a k :
  (forall n, 3 <= n < 16 -> Z.testbit (region_attr p n) 0 = false) -> (k <= 13)%nat ->
  tzc_permission p (k + 3) a = tzc_permission p 3 a.
Proof.
  intros Hoff. induction k as [|k IH]; intros Hk; [done|]. cbn [Nat.add tzc_permission].
  unfold region_hit at 1. rewrite Hoff by lia. rewrite (proj2 (Z.eqb_neq _ _)) by lia.
  cbn [orb andb]. apply IH. lia.
Qed.

(** The three regions of the platform, and the rest as it was. *)
Definition attr_tee : Z :=
  Z.lor (Z.lor TZC_ATTR_SP_S_RW (TZC_ATTR_REGION_SIZE TZC_REGION_SIZE_64M)) TZC_ATTR_REGION_ENABLE.
Definition attr_fb : Z :=
  Z.lor (Z.lor TZC_ATTR_SP_S_RW_NS_R (TZC_ATTR_REGION_SIZE TZC_REGION_SIZE_8M)) TZC_ATTR_REGION_ENABLE.
Definition tzc_set_up p p' : Prop :=
  region_attr p' 0 = TZC_ATTR_SP_ALL /\
  region_attr p' 1 = attr_tee /\ region_base p' 1 = CFG_TEE_RAM_START /\
  region_attr p' 2 = attr_fb /\ region_base p' 2 = CFG_FBMEM_START /\
  (forall n, 3 <= n < 16 -> region_attr p' n = region_attr p n).

Lemma memory_permission_set_up p p' a :
  tzc_set_up p p' -> (forall n, 3 <= n < 16 -> Z.testbit (region_attr p n) 0 = false) ->
  tzc_permission p' 16 a = memory_permission a.
Proof.
  intros (H0 & H1 & B1 & H2 & B2 & Hk) Hoff.
  change 16%nat with (13 + 3)%nat. rewrite tzc_permission_off; [|intros; by rewrite Hk, Hoff|lia].
  cbn [tzc_permission]. unfold region_hit. change (Z.of_nat 2) with 2. change (Z.of_nat 1) with 1.
  change (Z.of_nat 0) with 0. rewrite H0, H1, H2, B1, B2. unfold memory_permission, CFG_FBMEM_SIZE.
  change (region_len attr_fb) with 0x00800000. change (region_len attr_tee) with 0x04000000.
  change (Z.testbit attr_fb 0) with true. change (Z.testbit attr_tee 0) with true. cbn [Z.eqb orb andb].
  change CFG_FBMEM_START with 0x4B800000. change CFG_TEE_RAM_START with 0x4C000000.
  destruct (Z.leb_spec 0x4B800000 a), (Z.ltb_spec a (0x4B800000 + 0x00800000)),
    (Z.leb_spec 0x4C000000 a), (Z.ltb_spec a (0x4C000000 + 0x04000000)); cbn [andb]; (reflexivity || lia).
Qed.

Lemma region_off_inj n m :
  0 <= n < 16 -> 0 <= m < 16 ->
  (REGION_ATTRIBUTES_OFF n =? REGION_ATTRIBUTES_OFF m) = (n =? m) /\
  (REGION_SETUP_LOW_OFF n =? REGION_SETUP_LOW_OFF m) = (n =? m) /\
  (REGION_ATTRIBUTES_OFF n =? REGION_SETUP_HIGH_OFF m) = false /\
  (REGION_ATTRIBUTES_OFF n =? REGION_SETUP_LOW_OFF m) = false /\
  (REGION_SETUP_LOW_OFF n =? REGION_ATTRIBUTES_OFF m) = false /\
  (REGION_SETUP_LOW_OFF n =? REGION_SETUP_HIGH_OFF m) = false.
Proof.
  unfold REGION_ATTRIBUTES_OFF, REGION_SETUP_LOW_OFF, REGION_SETUP_HIGH_OFF. intros Hn Hm.
  split_and!; try (apply Z.eqb_neq; lia);
    (destruct (Z.eqb_spec n m) as [->|]; [apply Z.eqb_refl|apply Z.eqb_neq; lia]).
Qed.

(** The registers of region [m] after region [n] was configured. *)
Lemma configured_region n b attr p p' m :
  configured n b attr p p' -> 0 <= n < 16 -> 0 <= m < 16 ->
  region_attr p' m = (if m =? n then attr else region_attr p m) /\
  region_base p' m = (if m =? n then b else region_base p m).
Proof.
  intros HC Hn Hm. destruct (region_regs m Hm) as (HL & _ & HA).
  destruct (region_off_inj m n Hm Hn) as (E1 & E2 & E3 & E4 & E5 & E6).
  unfold region_attr, region_base. rewrite (HC _ HL), (HC _ HA), E1, E2, E3, E4, E5, E6. done.
Qed.

(** C14: the set-up of the primary core gives every address the permission it
    should have: the normal world has no access to the 64 MiB of the secure
    kernel and can only read the frame buffer.  (Regions above 2 are off after
    reset; the controller has at least three.) *)
Theorem tzasc_protects_kernel s sync load_addr a :
  2 <= Z.land (reg (b_plat s) (TZC380_BASE + BUILD_CONFIG_OFF)) 0xf ->
  (forall n, 3 <= n < 16 -> Z.testbit (region_attr (b_plat s) n) 0 = false) ->
  wp (plat_cpu_reset_late sync load_addr 0) s (fun _ s' =>
    tzc_permission (b_plat s') 16 a = memory_permission a).
Proof.
  intros Hnr Hoff. unfold plat_cpu_reset_late. cbn [Z.eqb negb].
  apply wp_bind. apply wp_mono with (Q := fun _ s' => tzc_quiet s s').
  2:{ apply wp_when. destruct sync; [|apply tzc_quiet_refl].
      do 3 (apply wp_bind; eapply (wp_write_outside _ _ _ s); [eassumption || apply tzc_quiet_refl|done|done|intros]).
      eapply (wp_write_outside _ _ _ s); [eassumption|done..]. }
  intros [] s1 Hq1.
  do 3 (apply wp_bind; eapply (wp_write_outside _ _ _ s); [eassumption|done|done|intros]).
  apply wp_bind. eapply (wp_read_outside _ _ s); [eassumption|done|done|intros v s2 Hq2].
  apply wp_bind. eapply (wp_write_outside _ _ _ s); [eassumption|done|done|intros s3 Hq3].
  apply wp_bind. eapply wp_mono; [|apply init_run]. intros [] s4 (Hp4 & Hb4 & Hn4).
  assert (Hbc : tzc_reg BUILD_CONFIG_OFF) by (unfold tzc_reg, BUILD_CONFIG_OFF; split_and!; lia || done).
  rewrite (proj1 Hq3 _ Hbc) in Hn4.
  apply wp_bind. eapply wp_mono; [|apply configure_run; [done|lia|lia|done|done]].
  intros [] s5 (Hc5 & Ht5).
  apply wp_bind. eapply wp_mono; [|apply configure_run; rewrite ?Ht5; [done|lia|lia|done|done]].
  intros [] s6 (Hc6 & Ht6).
  apply wp_bind. eapply wp_mono; [|apply configure_run; rewrite ?Ht6, ?Ht5; [done|lia|lia|done|done]].
  intros [] s7 (Hc7 & Ht7).
  unfold tzc_set_action. apply wp_bind, wp_massert_ok.
  { unfold bind, gets, ret. by rewrite Ht7, Ht6, Ht5, Hb4. }
  apply wp_bind, wp_gets. rewrite Ht7, Ht6, Ht5, Hb4. unfold tzc_write_action. apply wp_write32. cbn.
  set (p' := io_write _ _ _ _).
  assert (Hact : forall m, 0 <= m < 16 ->
    region_attr p' m = region_attr (b_plat s7) m /\ region_base p' m = region_base (b_plat s7) m).
  { intros m Hm. destruct (region_regs m Hm) as (HL & _ & HA).
    assert (Ha : tzc_reg ACTION_OFF) by (unfold tzc_reg, ACTION_OFF; split_and!; lia || done).
    unfold region_attr, region_base, p'. rewrite !write_tzc by done.
    unfold REGION_ATTRIBUTES_OFF, REGION_SETUP_LOW_OFF, ACTION_OFF.
    by rewrite !(proj2 (Z.eqb_neq _ _)) by lia. }
  apply (memory_permission_set_up (b_plat s)); [|exact Hoff].
  assert (Hall : forall m, 0 <= m < 16 ->
    region_attr p' m = (if m =? 2 then attr_fb else if m =? 1 then attr_tee
                        else if m =? 0 then TZC_ATTR_SP_ALL else region_attr (b_plat s) m) /\
    region_base p' m = (if m =? 2 then CFG_FBMEM_START else if m =? 1 then CFG_TEE_RAM_START
                        else if m =? 0 then 0 else region_base (b_plat s) m)).
  { intros m Hm. destruct (Hact m Hm) as [-> ->].
    destruct (configured_region _ _ _ _ _ m Hc7 ltac:(lia) Hm) as [-> ->].
    destruct (configured_region _ _ _ _ _ m Hc6 ltac:(lia) Hm) as [-> ->].
    destruct (configured_region _ _ _ _ _ m Hc5 ltac:(lia) Hm) as [-> ->].
    destruct (region_regs m Hm) as (HL & _ & HA). rewrite Hp4. unfold region_attr, region_base.
    by rewrite (proj1 Hq3 _ HL), (proj1 Hq3 _ HA). }
  unfold tzc_set_up. destruct (Hall 0 ltac:(lia)) as [-> _], (Hall 1 ltac:(lia)) as [-> ->],
    (Hall 2 ltac:(lia)) as [-> ->]. split_and!; try reflexivity.
  intros n Hn. destruct (Hall n ltac:(lia)) as [-> _].
  by rewrite !(proj2 (Z.eqb_neq n _)) by lia.
Qed.
End protect.

(** The shared memory of the layout lies inside the region only secure
    accesses reach. *)
Lemma shared_memory_unreachable a :
  CFG_SHMEM_START <= a < CFG_SHMEM_START + CFG_SHMEM_SIZE ->
  Z.land (memory_permission a) (Z.lor TZC_SP_NS_R TZC_SP_NS_W) = 0.
Proof.
  change CFG_SHMEM_START with 0x4FF00000. change CFG_SHMEM_SIZE with 0x00100000. intros Ha.
  unfold memory_permission. change CFG_TEE_RAM_START with 0x4C000000.
  by rewrite (proj2 (Z.leb_le _ _)), (proj2 (Z.ltb_lt _ _)) by lia.
Qed.

Definition board_tzasc : boot bigram :=
  mk_boot (mk_bigram (<[TZC380_BASE := 0x00003f0f]> ∅)) (mk_tzc 0 0 0).

Lemma tzasc_protects_kernel_witness :
  wp (@plat_cpu_reset_late bigram _ {| cfg_ndebug := false |} true 0x4c000000 0) board_tzasc
    (fun _ s' => tzc_permission (b_plat s') 16 0x4c000000 = 12 /\
                 tzc_permission (b_plat s') 16 0x4b800000 = 14 /\
                 tzc_permission (b_plat s') 16 0x10000000 = 15).
Proof.
  assert (Hnr : 2 <= Z.land (reg (b_plat board_tzasc) (TZC380_BASE + BUILD_CONFIG_OFF)) 0xf)
    by (vm_compute; congruence).
  assert (Hoff : forall n, 3 <= n < 16 -> Z.testbit (region_attr (b_plat board_tzasc) n) 0 = false).
  { intros n Hn. assert (Hc : n = 3 \/ n = 4 \/ n = 5 \/ n = 6 \/ n = 7 \/ n = 8 \/ n = 9 \/
      n = 10 \/ n = 11 \/ n = 12 \/ n = 13 \/ n = 14 \/ n = 15) by lia.
    repeat destruct Hc as [-> | Hc]; [reflexivity..|by subst]. }
  pose proof (fun a => @tzasc_protects_kernel bigram _ {| cfg_ndebug := false |} (fun _ => True) _
    (fun _ _ => I) board_tzasc true 0x4c000000 a Hnr Hoff) as HT.
  exact (wp_and _ _ _ _ (HT 0x4c000000) (wp_and _ _ _ _ (HT 0x4b800000) (HT 0x10000000))).
Defined.
