(* ===== verification/Abort.v ===== *)
(** * Aborts of the secure kernel (arch/arm/kernel/abort.c)

    What the kernel does when it takes a data, prefetch or undefined-instruction
    abort itself.  The fault registers are an argument; the printed reports have
    no effect on the state. *)

From stdpp Require Import prelude.
From Stdlib Require Import ZArith Lia.
From S2P Require Import Prelude State MmuDesc.
#[local] Open Scope Z_scope.
#[local] Open Scope kernel_scope.

Definition ABORT_TYPE_UNDEF : Z := 0.
Definition ABORT_TYPE_PREFETCH : Z := 1.
Definition ABORT_TYPE_DATA : Z := 2.
Definition ARM32_CPSR_MODE_MASK : Z := 0x1f.
Definition ARM32_CPSR_MODE_ABT : Z := 0x17.

Inductive fault_type :=
| FAULT_TYPE_USER_TA_PANIC | FAULT_TYPE_USER_TA_VFP | FAULT_TYPE_PAGEABLE | FAULT_TYPE_IGNORE.

Record thread_abort_regs := mk_abort_regs {
  ab_usr_sp : Z; ab_usr_lr : Z; ab_pad : Z; ab_spsr : Z; ab_elr : Z;
  ab_r : list Z;  (** [r0]-[r11], [ip] *)
}.
Record abort_info := mk_abort_info {
  ai_abort_type : Z;
  ai_fault_descr : Z;
  ai_va : Z;
  ai_pc : Z;
  ai_regs : thread_abort_regs;
}.
(** The fault status and address registers of the core. *)
Record fault_regs := mk_fault_regs { dfsr : Z; dfar : Z; ifsr : Z; ifar : Z }.

Section abort.
Context `{cfg : Config} {S : Type}.
#[local] Abbreviation K := (M S).

Definition set_abort_info (f : fault_regs) (abort_type : Z) (regs : thread_abort_regs) : abort_info :=
  if abort_type =? ABORT_TYPE_DATA
  then mk_abort_info abort_type (dfsr f) (dfar f) (ab_elr regs) regs
  else if abort_type =? ABORT_TYPE_PREFETCH
  then mk_abort_info abort_type (ifsr f) (ifar f) (ab_elr regs) regs
  else mk_abort_info abort_type 0 (ab_elr regs) (ab_elr regs) regs.

Definition abort_is_user_exception (ai : abort_info) : bool := false.
Definition is_abort_in_abort_handler (ai : abort_info) : bool :=
  Z.land (ab_spsr (ai_regs ai)) ARM32_CPSR_MODE_MASK =? ARM32_CPSR_MODE_ABT.

Definition get_fault_type (ai : abort_info) : K fault_type :=
  if is_abort_in_abort_handler ai then panic
  else if ai_abort_type ai =? ABORT_TYPE_UNDEF then
    if abort_is_user_exception ai then ret FAULT_TYPE_USER_TA_PANIC else panic
  else
    t <- core_mmu_get_fault_type (ai_fault_descr ai);;
    match t with
    | CORE_MMU_FAULT_ALIGNMENT | CORE_MMU_FAULT_ACCESS_BIT =>
      if abort_is_user_exception ai then ret FAULT_TYPE_USER_TA_PANIC else panic
    | CORE_MMU_FAULT_DEBUG_EVENT => ret FAULT_TYPE_IGNORE
    | CORE_MMU_FAULT_TRANSLATION | CORE_MMU_FAULT_WRITE_PERMISSION
    | CORE_MMU_FAULT_READ_PERMISSION => ret FAULT_TYPE_PAGEABLE
    | CORE_MMU_FAULT_ASYNC_EXTERNAL => ret FAULT_TYPE_IGNORE
    | CORE_MMU_FAULT_OTHER => ret FAULT_TYPE_IGNORE
    end.

Definition abort_handler (f : fault_regs) (abort_type : Z) (regs : thread_abort_regs) : K unit :=
  let ai := set_abort_info f abort_type regs in
  t <- get_fault_type ai;;
  match t with
  | FAULT_TYPE_IGNORE => ret tt
  | FAULT_TYPE_USER_TA_PANIC => ret tt
  | FAULT_TYPE_PAGEABLE | FAULT_TYPE_USER_TA_VFP => panic
  end.

(** Which fault statuses the kernel survives: debug events, asynchronous
    external aborts, and statuses with no class of their own. *)
Definition survivable (fsr : Z) : bool :=
  let fs := Z.land fsr FSR_FS_MASK in
  negb (existsb (Z.eqb fs) [0x1; 0x3; 0x4; 0x5; 0x6; 0x7; 0xd; 0xf]).

(** The handler is total: it returns with the state unchanged, or the kernel
    stops.  It returns exactly for survivable data and prefetch aborts that were
    not taken in abort mode. *)
Lemma abort_handler_outcome f ty regs s :
  tst (dfsr f) FSR_LPAE = false -> tst (ifsr f) FSR_LPAE = false ->
  abort_handler f ty regs s =
    if negb (Z.land (ab_spsr regs) ARM32_CPSR_MODE_MASK =? ARM32_CPSR_MODE_ABT) &&
       negb (ty =? ABORT_TYPE_UNDEF) &&
       survivable (if ty =? ABORT_TYPE_DATA then dfsr f
                   else if ty =? ABORT_TYPE_PREFETCH then ifsr f else 0)
    then Ret tt s else Panic.
Proof.
  intros Hd Hi. unfold abort_handler, get_fault_type, is_abort_in_abort_handler.
  set (fsr := if ty =? ABORT_TYPE_DATA then dfsr f else if ty =? ABORT_TYPE_PREFETCH then ifsr f else 0).
  assert (Hai : set_abort_info f ty regs = mk_abort_info ty fsr
    (ai_va (set_abort_info f ty regs)) (ab_elr regs) regs)
    by (unfold set_abort_info, fsr; destruct (ty =? ABORT_TYPE_DATA); [|destruct (ty =? ABORT_TYPE_PREFETCH)]; done).
  rewrite Hai. cbn [ai_regs ai_abort_type ai_fault_descr].
  destruct (_ =? ARM32_CPSR_MODE_ABT); [done|]. destruct (ty =? ABORT_TYPE_UNDEF); [done|].
  assert (Hl : tst fsr FSR_LPAE = false) by (unfold fsr; destruct (ty =? ABORT_TYPE_DATA); [|destruct (ty =? ABORT_TYPE_PREFETCH)]; done).
  assert (Hft : forall A (k : core_mmu_fault -> M S A), bind (core_mmu_get_fault_type fsr) k s =
    bind (core_mmu_get_fault_type (H := {| cfg_ndebug := true |}) fsr) k s).
  { intros A k. unfold core_mmu_get_fault_type, massert. rewrite Hl. by destruct cfg_ndebug. }
  unfold bind at 1. rewrite Hft. unfold core_mmu_get_fault_type, survivable. cbn [existsb negb andb].
  unfold bind, massert, ret. cbn [cfg_ndebug]. set (fs := Z.land fsr FSR_FS_MASK).
  destruct (Z.eqb_spec fs 1) as [->|]; [done|]. destruct (Z.eqb_spec fs 2) as [->|]; [done|].
  destruct (Z.eqb_spec fs 3) as [->|]; [done|]. destruct (Z.eqb_spec fs 4) as [->|]; [done|].
  destruct (Z.eqb_spec fs 5) as [->|]; [done|]. destruct (Z.eqb_spec fs 6) as [->|]; [done|].
  destruct (Z.eqb_spec fs 7) as [->|]; [done|].
  destruct (Z.eqb_spec fs 13) as [->|]; [by destruct (tst fsr FSR_WNR)|].
  destruct (Z.eqb_spec fs 15) as [->|]; [by destruct (tst fsr FSR_WNR)|].
  cbn [orb]. by destruct (fs =? _).
Qed.
End abort.
