(* ===== verification/Fdt.v ===== *)
(** * The flattened device tree, read-only (core/lib/libfdt)

    The blob is [blob], a list of bytes, at the address [fdt].  Pointers into it
    are addresses, so that a null pointer and the wrap-around of pointer
    arithmetic are those of the code; a load outside the blob is a fault.
    Nothing here changes the state, of which the routines are independent.

    The loops have one step of fuel per byte of the blob and one to notice the
    end: each iteration advances.  [Spin] is reported for a loop that does not;
    the theorems at the end say when that happens. *)

From stdpp Require Import prelude list strings.
From Stdlib Require Import ZArith Lia.
From S2P Require Import Prelude.
#[local] Open Scope Z_scope.
#[local] Open Scope kernel_scope.

(** ** Constants (fdt.h, libfdt.h) *)

Definition FDT_MAGIC : Z := 0xd00dfeed.
Definition FDT_SW_MAGIC : Z := not32 FDT_MAGIC.
Definition FDT_TAGSIZE : Z := 4.
Definition FDT_BEGIN_NODE : Z := 1.
Definition FDT_END_NODE : Z := 2.
Definition FDT_PROP : Z := 3.
Definition FDT_NOP : Z := 4.
Definition FDT_END : Z := 9.
Definition FDT_FIRST_SUPPORTED_VERSION : Z := 0x10.
Definition FDT_LAST_SUPPORTED_VERSION : Z := 0x11.
Definition FDT_MAX_NCELLS : Z := 4.

Definition FDT_ERR_NOTFOUND : Z := 1.
Definition FDT_ERR_BADOFFSET : Z := 4.
Definition FDT_ERR_BADPATH : Z := 5.
Definition FDT_ERR_BADPHANDLE : Z := 6.
Definition FDT_ERR_BADSTATE : Z := 7.
Definition FDT_ERR_TRUNCATED : Z := 8.
Definition FDT_ERR_BADMAGIC : Z := 9.
Definition FDT_ERR_BADVERSION : Z := 10.
Definition FDT_ERR_BADSTRUCTURE : Z := 11.
Definition FDT_ERR_INTERNAL : Z := 13.
Definition FDT_ERR_BADNCELLS : Z := 14.

Definition FDT_ALIGN (x a : Z) : Z := Z.land (u32 (x + a - 1)) (not32 (a - 1)).
Definition FDT_TAGALIGN (x : Z) : Z := FDT_ALIGN x FDT_TAGSIZE.

(** A literal of the source as the bytes before its terminating zero. *)
Definition chars (s : string) : list Z :=
  map (fun c => Z.of_N (Ascii.N_of_ascii c)) (String.list_ascii_of_string s).

Section fdt.
Context (fdt : Z) (blob : list Z) {S : Type}.
#[local] Abbreviation K := (M S).

(** ** Memory *)

Definition load8 (p : Z) : K Z :=
  let i := u32 (p - fdt) in
  if i <? Z.of_nat (length blob) then deref (blob !! Z.to_nat i) else fault.
(** [fdt32_to_cpu( *p)] *)
Definition fdt32_to_cpu (p : Z) : K Z :=
  b0 <- load8 p;; b1 <- load8 (p + 1);; b2 <- load8 (p + 2);; b3 <- load8 (p + 3);;
  ret (Z.lor (Z.lor (Z.lor (Z.shiftl b0 24) (Z.shiftl b1 16)) (Z.shiftl b2 8)) b3).

(** [memcmp(p, l, length l) == 0], byte by byte. *)
Fixpoint memcmp_eq (p : Z) (l : list Z) : K bool :=
  match l with
  | [] => ret true
  | b :: l' => c <- load8 p;; if c =? b then memcmp_eq (u32 (p + 1)) l' else ret false
  end.
(** The bytes before the first zero; at most [n] are looked at. *)
Fixpoint cstring_upto (n : nat) (p : Z) : K (list Z) :=
  match n with
  | O => ret []
  | Datatypes.S n' =>
      c <- load8 p;; if c =? 0 then ret [] else l <- cstring_upto n' (u32 (p + 1));; ret (c :: l)
  end.
Definition strnlen (p n : Z) : K Z := l <- cstring_upto (Z.to_nat n) p;; ret (Z.of_nat (length l)).
(** A string without an end leaves the blob, which is a fault. *)
Definition cstring (p : Z) : K (list Z) := cstring_upto (Datatypes.S (length blob)) p.
Definition strlen (p : Z) : K Z := l <- cstring p;; ret (Z.of_nat (length l)).
(** [memchr(p, 0, n)]: the index of the first zero among [n] bytes. *)
Fixpoint memchr0 (n : nat) (p : Z) (i : Z) : K (option Z) :=
  match n with
  | O => ret None
  | Datatypes.S n' => c <- load8 (u32 (p + i));; if c =? 0 then ret (Some i) else memchr0 n' p (i + 1)
  end.

(** ** fdt.c *)

Definition fdt_get_header (field : Z) : K Z := fdt32_to_cpu (fdt + field).
Definition fdt_magic : K Z := fdt_get_header 0.
Definition fdt_totalsize : K Z := fdt_get_header 4.
Definition fdt_off_dt_struct : K Z := fdt_get_header 8.
Definition fdt_off_dt_strings : K Z := fdt_get_header 12.
Definition fdt_version : K Z := fdt_get_header 20.
Definition fdt_last_comp_version : K Z := fdt_get_header 24.
Definition fdt_size_dt_struct : K Z := fdt_get_header 36.

Definition fdt_check_header : K Z :=
  magic <- fdt_magic;;
  if magic =? FDT_MAGIC then
    v <- fdt_version;;
    if v <? FDT_FIRST_SUPPORTED_VERSION then ret (- FDT_ERR_BADVERSION) else
    l <- fdt_last_comp_version;;
    if l >? FDT_LAST_SUPPORTED_VERSION then ret (- FDT_ERR_BADVERSION) else ret 0
  else if magic =? FDT_SW_MAGIC then
    n <- fdt_size_dt_struct;;
    if n =? 0 then ret (- FDT_ERR_BADSTATE) else ret 0
  else ret (- FDT_ERR_BADMAGIC).

(** [FDT_CHECK_HEADER]: leave the function with the error. *)
Definition FDT_CHECK_HEADER (k : K Z) : K Z :=
  err <- fdt_check_header;; if truth err then ret err else k.

Definition _fdt_offset_ptr (offset : Z) : K Z :=
  o <- fdt_off_dt_struct;; ret (u32 (fdt + o + offset)).

Definition fdt_offset_ptr (offset len : Z) : K Z :=
  v <- fdt_version;;
  bad <- (if v >=? 0x11 then
            if u32 (offset + len) <? u32 offset then ret true
            else n <- fdt_size_dt_struct;; ret (u32 (offset + len) >? n)
          else ret false);;
  if bad then ret 0
  else p <- _fdt_offset_ptr offset;; if u32 (p + len) <? p then ret 0 else ret p.

(** [do { p = fdt_offset_ptr(fdt, offset++, 1); } while (p && *p)]: the offset
    and the pointer after the loop. *)
Fixpoint skip_name (fl : nat) (offset : Z) : K (Z * Z) :=
  match fl with
  | O => spin
  | Datatypes.S f =>
      p <- fdt_offset_ptr offset 1;;
      offset' <- int_result (offset + 1);;
      if p =? 0 then ret (offset', p) else
      c <- load8 p;; if c =? 0 then ret (offset', p) else skip_name f offset'
  end.
Definition scan_fuel : nat := Datatypes.S (length blob).

(** The switch of [fdt_next_tag]: the end of the token, or [None] when it is
    premature or the tag is unknown. *)
Definition tag_end (tag offset : Z) : K (option Z) :=
  if tag =? FDT_BEGIN_NODE then
    ' (o, p) <- skip_name scan_fuel offset;; ret (if p =? 0 then None else Some o)
  else if tag =? FDT_PROP then
    lenp <- fdt_offset_ptr offset 4;;
    if lenp =? 0 then ret None
    else len <- fdt32_to_cpu lenp;; ret (Some (i32 (offset + 8 + len)))
  else if (tag =? FDT_END) || (tag =? FDT_END_NODE) || (tag =? FDT_NOP) then ret (Some offset)
  else ret None.
(** The tag and [*nextoffset]. *)
Definition fdt_next_tag (startoffset : Z) : K (Z * Z) :=
  tagp <- fdt_offset_ptr startoffset FDT_TAGSIZE;;
  if tagp =? 0 then ret (FDT_END, - FDT_ERR_TRUNCATED) else
  tag <- fdt32_to_cpu tagp;;
  next <- tag_end tag (i32 (startoffset + FDT_TAGSIZE));;
  match next with
  | None => ret (FDT_END, - FDT_ERR_BADSTRUCTURE)
  | Some offset =>
      d <- int_result (offset - startoffset);;
      p <- fdt_offset_ptr startoffset (u32 d);;
      if p =? 0 then ret (FDT_END, - FDT_ERR_BADSTRUCTURE)
      else ret (tag, i32 (FDT_TAGALIGN offset))
  end.

Definition _fdt_check_offset (want offset : Z) : K Z :=
  if (offset <? 0) || truth (u32 offset mod FDT_TAGSIZE) then ret (- FDT_ERR_BADOFFSET) else
  ' (tag, next) <- fdt_next_tag offset;;
  if tag =? want then ret next else ret (- FDT_ERR_BADOFFSET).
Definition _fdt_check_node_offset (offset : Z) : K Z := _fdt_check_offset FDT_BEGIN_NODE offset.
Definition _fdt_check_prop_offset (offset : Z) : K Z := _fdt_check_offset FDT_PROP offset.

(** The loop of [fdt_next_node] from [nextoffset].  [depth] is [None] for a null
    pointer; the result has the new [*depth]. *)
Fixpoint next_node_loop (fl : nat) (offset : Z) (depth : option Z) : K (Z * option Z) :=
  match fl with
  | O => spin
  | Datatypes.S f =>
      ' (tag, nextoffset) <- fdt_next_tag offset;;
      if tag =? FDT_BEGIN_NODE then ret (offset, option_map (fun d => d + 1) depth)
      else if tag =? FDT_END_NODE then
        let depth' := option_map (fun d => d - 1) depth in
        if default 0 depth' <? 0 then ret (nextoffset, depth')
        else next_node_loop f nextoffset depth'
      else if tag =? FDT_END then
        if (nextoffset >=? 0) || ((nextoffset =? - FDT_ERR_TRUNCATED) && bool_decide (depth = None))
        then ret (- FDT_ERR_NOTFOUND, depth) else ret (nextoffset, depth)
      else next_node_loop f nextoffset depth
  end.
Definition fdt_next_node (offset : Z) (depth : option Z) : K (Z * option Z) :=
  if offset >=? 0 then
    next <- _fdt_check_node_offset offset;;
    if next <? 0 then ret (next, depth) else next_node_loop scan_fuel next depth
  else next_node_loop scan_fuel 0 depth.

Definition fdt_first_subnode (offset : Z) : K Z :=
  ' (o, d) <- fdt_next_node offset (Some 0);;
  if (o <? 0) || negb (default 0 d =? 1) then ret (- FDT_ERR_NOTFOUND) else ret o.

Fixpoint next_subnode_loop (fl : nat) (offset depth : Z) : K Z :=
  match fl with
  | O => spin
  | Datatypes.S f =>
      ' (o, d) <- fdt_next_node offset (Some depth);;
      if (o <? 0) || (default 0 d <? 1) then ret (- FDT_ERR_NOTFOUND)
      else if default 0 d >? 1 then next_subnode_loop f o (default 0 d) else ret o
  end.
Definition fdt_next_subnode (offset : Z) : K Z := next_subnode_loop scan_fuel offset 1.

(** [fdt_for_each_subnode] of drivers/dt.h. *)
Fixpoint subnodes_loop (fl : nat) (node : Z) (body : Z -> K unit) : K unit :=
  match fl with
  | O => spin
  | Datatypes.S f =>
      if node >=? 0 then body node ;;; n <- fdt_next_subnode node;; subnodes_loop f n body
      else ret tt
  end.
Definition fdt_for_each_subnode (parent : Z) (body : Z -> K unit) : K unit :=
  n <- fdt_first_subnode parent;; subnodes_loop scan_fuel n body.

(** ** fdt_ro.c *)

Definition fdt_string (stroffset : Z) : K Z :=
  o <- fdt_off_dt_strings;; ret (u32 (fdt + o + stroffset)).
Definition _fdt_string_eq (stroffset : Z) (s : list Z) : K bool :=
  p <- fdt_string stroffset;;
  n <- strlen p;;
  if n =? Z.of_nat (length s) then memcmp_eq p s else ret false.

(** [s] are the [len] bytes to compare. *)
Definition _fdt_nodename_eq (offset : Z) (s : list Z) : K bool :=
  p <- fdt_offset_ptr (i32 (offset + FDT_TAGSIZE)) (Z.of_nat (length s) + 1);;
  if p =? 0 then ret false else
  eq <- memcmp_eq p s;;
  if negb eq then ret false else
  c <- load8 (u32 (p + Z.of_nat (length s)));;
  ret ((c =? 0) || (negb (existsb (Z.eqb 64) s) && (c =? 64))).

Fixpoint nextprop_loop (fl : nat) (offset : Z) : K Z :=
  match fl with
  | O => spin
  | Datatypes.S f =>
      ' (tag, nextoffset) <- fdt_next_tag offset;;
      if tag =? FDT_END then
        if nextoffset >=? 0 then ret (- FDT_ERR_BADSTRUCTURE) else ret nextoffset
      else if tag =? FDT_PROP then ret offset
      else if tag =? FDT_NOP then nextprop_loop f nextoffset
      else ret (- FDT_ERR_NOTFOUND)
  end.
Definition _nextprop (offset : Z) : K Z := nextprop_loop scan_fuel offset.

Fixpoint subnode_loop (fl : nat) (offset depth : Z) (name : list Z) : K Z :=
  match fl with
  | O => spin
  | Datatypes.S f =>
      if (offset >=? 0) && (depth >=? 0) then
        found <- (if depth =? 1 then _fdt_nodename_eq offset name else ret false);;
        if found then ret offset
        else ' (o, d) <- fdt_next_node offset (Some depth);; subnode_loop f o (default 0 d) name
      else if depth <? 0 then ret (- FDT_ERR_NOTFOUND) else ret offset
  end.
Definition fdt_subnode_offset_namelen (offset : Z) (name : list Z) : K Z :=
  FDT_CHECK_HEADER (subnode_loop scan_fuel offset 0 name).
Definition fdt_subnode_offset (parentoffset : Z) (name : list Z) : K Z :=
  fdt_subnode_offset_namelen parentoffset name.

(** The pointer, or null and the error in [*len]. *)
Definition fdt_get_name (nodeoffset : Z) : K (Z * Z) :=
  nh <- _fdt_offset_ptr nodeoffset;;
  err <- fdt_check_header;;
  if truth err then ret (0, err) else
  err <- _fdt_check_node_offset nodeoffset;;
  if err <? 0 then ret (0, err) else ret (u32 (nh + FDT_TAGSIZE), 0).

Definition fdt_first_property_offset (nodeoffset : Z) : K Z :=
  offset <- _fdt_check_node_offset nodeoffset;;
  if offset <? 0 then ret offset else _nextprop offset.
Definition fdt_next_property_offset (offset : Z) : K Z :=
  offset <- _fdt_check_prop_offset offset;;
  if offset <? 0 then ret offset else _nextprop offset.

(** The pointer and [*lenp]. *)
Definition fdt_get_property_by_offset (offset : Z) : K (Z * Z) :=
  err <- _fdt_check_prop_offset offset;;
  if err <? 0 then ret (0, err) else
  prop <- _fdt_offset_ptr offset;;
  len <- fdt32_to_cpu (prop + 4);;
  ret (prop, i32 len).

Fixpoint get_property_loop (fl : nat) (offset : Z) (name : list Z) : K (Z * Z) :=
  match fl with
  | O => spin
  | Datatypes.S f =>
      if offset >=? 0 then
        ' (prop, len) <- fdt_get_property_by_offset offset;;
        if prop =? 0 then ret (0, - FDT_ERR_INTERNAL) else
        nameoff <- fdt32_to_cpu (prop + 8);;
        eq <- _fdt_string_eq (i32 nameoff) name;;
        if eq then ret (prop, len)
        else o <- fdt_next_property_offset offset;; get_property_loop f o name
      else ret (0, offset)
  end.
Definition fdt_get_property_namelen (offset : Z) (name : list Z) : K (Z * Z) :=
  o <- fdt_first_property_offset offset;; get_property_loop scan_fuel o name.
Definition fdt_get_property (nodeoffset : Z) (name : list Z) : K (Z * Z) :=
  fdt_get_property_namelen nodeoffset name.
Definition fdt_getprop_namelen (nodeoffset : Z) (name : list Z) : K (Z * Z) :=
  ' (prop, len) <- fdt_get_property_namelen nodeoffset name;;
  if prop =? 0 then ret (0, len) else ret (u32 (prop + 12), len).
Definition fdt_getprop (nodeoffset : Z) (name : list Z) : K (Z * Z) :=
  fdt_getprop_namelen nodeoffset name.

Definition fdt_get_phandle (nodeoffset : Z) : K Z :=
  ' (php, len) <- fdt_getprop nodeoffset (chars "phandle");;
  if (php =? 0) || negb (len =? 4) then
    ' (php, len) <- fdt_getprop nodeoffset (chars "linux,phandle");;
    if (php =? 0) || negb (len =? 4) then ret 0 else fdt32_to_cpu php
  else fdt32_to_cpu php.

Fixpoint supernode_loop (fl : nat) (offset depth nodeoffset supernodedepth supernodeoffset : Z) :
    K (Z * option Z) :=
  match fl with
  | O => spin
  | Datatypes.S f =>
      if (offset >=? 0) && (offset <=? nodeoffset) then
        let supernodeoffset := if depth =? supernodedepth then offset else supernodeoffset in
        if offset =? nodeoffset then
          ret (if supernodedepth >? depth then - FDT_ERR_NOTFOUND else supernodeoffset, Some depth)
        else ' (o, d) <- fdt_next_node offset (Some depth);;
             supernode_loop f o (default 0 d) nodeoffset supernodedepth supernodeoffset
      else if (offset =? - FDT_ERR_NOTFOUND) || (offset >=? 0) then ret (- FDT_ERR_BADOFFSET, None)
      else if offset =? - FDT_ERR_BADOFFSET then ret (- FDT_ERR_BADSTRUCTURE, None)
      else ret (offset, None)
  end.
(** The result and [*nodedepth] if it was stored. *)
Definition fdt_supernode_atdepth_offset (nodeoffset supernodedepth : Z) : K (Z * option Z) :=
  err <- fdt_check_header;;
  if truth err then ret (err, None) else
  if supernodedepth <? 0 then ret (- FDT_ERR_NOTFOUND, None) else
  supernode_loop scan_fuel 0 0 nodeoffset supernodedepth (- FDT_ERR_INTERNAL).

Definition fdt_node_depth (nodeoffset : Z) : K Z :=
  ' (err, nodedepth) <- fdt_supernode_atdepth_offset nodeoffset 0;;
  if truth err then ret (if err <? 0 then err else - FDT_ERR_INTERNAL) else deref nodedepth.
Definition fdt_parent_offset (nodeoffset : Z) : K Z :=
  nodedepth <- fdt_node_depth nodeoffset;;
  if nodedepth <? 0 then ret nodedepth
  else ' (o, _) <- fdt_supernode_atdepth_offset nodeoffset (nodedepth - 1);; ret o.

Fixpoint by_phandle_loop (fl : nat) (offset phandle : Z) : K Z :=
  match fl with
  | O => spin
  | Datatypes.S f =>
      if offset >=? 0 then
        ph <- fdt_get_phandle offset;;
        if ph =? phandle then ret offset
        else ' (o, _) <- fdt_next_node offset None;; by_phandle_loop f o phandle
      else ret offset
  end.
Definition fdt_node_offset_by_phandle (phandle : Z) : K Z :=
  if (phandle =? 0) || (phandle =? 0xffffffff) then ret (- FDT_ERR_BADPHANDLE) else
  FDT_CHECK_HEADER (' (o, _) <- fdt_next_node (-1) None;; by_phandle_loop scan_fuel o phandle).

(** [strlist] and [listlen] shrink at each string. *)
Fixpoint stringlist_loop (fl : nat) (strlist listlen : Z) (str : list Z) : K bool :=
  match fl with
  | O => spin
  | Datatypes.S f =>
      if listlen >=? Z.of_nat (length str) then
        eq <- memcmp_eq strlist (str ++ [0]);;
        if eq then ret true else
        p <- memchr0 (Z.to_nat listlen) strlist 0;;
        match p with
        | None => ret false
        | Some i => stringlist_loop f (u32 (strlist + i + 1)) (listlen - (i + 1)) str
        end
      else ret false
  end.
Definition fdt_stringlist_contains (strlist listlen : Z) (str : list Z) : K bool :=
  stringlist_loop (Datatypes.S (Datatypes.S (Z.to_nat listlen))) strlist listlen str.

Definition fdt_node_check_compatible (nodeoffset : Z) (compatible : list Z) : K Z :=
  ' (prop, len) <- fdt_getprop nodeoffset (chars "compatible");;
  if prop =? 0 then ret len else
  c <- fdt_stringlist_contains prop len compatible;; ret (if c then 0 else 1).

Fixpoint by_compatible_loop (fl : nat) (offset : Z) (compatible : list Z) : K Z :=
  match fl with
  | O => spin
  | Datatypes.S f =>
      if offset >=? 0 then
        err <- fdt_node_check_compatible offset compatible;;
        if (err <? 0) && negb (err =? - FDT_ERR_NOTFOUND) then ret err
        else if err =? 0 then ret offset
        else ' (o, _) <- fdt_next_node offset None;; by_compatible_loop f o compatible
      else ret offset
  end.
Definition fdt_node_offset_by_compatible (startoffset : Z) (compatible : list Z) : K Z :=
  FDT_CHECK_HEADER (' (o, _) <- fdt_next_node startoffset None;; by_compatible_loop scan_fuel o compatible).

(** One component of a path: the bytes before the next slash. *)
Fixpoint until_slash (l : list Z) : list Z * list Z :=
  match l with
  | [] => ([], [])
  | c :: l' => if c =? 47 then ([], l) else let '(a, r) := until_slash l' in (c :: a, r)
  end.
Fixpoint skip_slashes (l : list Z) : list Z :=
  match l with
  | c :: l' => if c =? 47 then skip_slashes l' else l
  | [] => []
  end.
Fixpoint path_loop (fl : nat) (p : list Z) (offset : Z) : K Z :=
  match fl with
  | O => spin
  | Datatypes.S f =>
      match skip_slashes p with
      | [] => ret offset
      | p' =>
          let '(comp, q) := until_slash p' in
          o <- fdt_subnode_offset_namelen offset comp;;
          if o <? 0 then ret o else path_loop f q o
      end
  end.
(** A path that does not start with a slash starts with an alias, whose value
    is a path; [n] bounds the number of aliases that are followed. *)
Fixpoint fdt_path_offset (n : nat) (path : list Z) : K Z :=
  match n with
  | O => spin
  | Datatypes.S n' =>
      err <- fdt_check_header;;
      if truth err then ret err else
      if bool_decide (head path = Some 47) then path_loop (Datatypes.S (length path)) path 0
      else
        let '(alias, q) := until_slash path in
        aliasoffset <- fdt_path_offset n' (chars "/aliases");;
        p <- (if aliasoffset <? 0 then ret 0
              else ' (p, _) <- fdt_getprop_namelen aliasoffset alias;; ret p);;
        if p =? 0 then ret (- FDT_ERR_BADPATH) else
        l <- cstring p;;
        offset <- fdt_path_offset n' l;;
        if bool_decide (q = []) then ret offset else path_loop (Datatypes.S (length q)) q offset
  end.

(** ** fdt_addresses.c *)

Definition fdt_address_cells (nodeoffset : Z) : K Z :=
  ' (ac, len) <- fdt_getprop nodeoffset (chars "#address-cells");;
  if ac =? 0 then ret 2 else
  if negb (len =? 4) then ret (- FDT_ERR_BADNCELLS) else
  v <- fdt32_to_cpu ac;;
  let val := i32 v in
  if (val <=? 0) || (val >? FDT_MAX_NCELLS) then ret (- FDT_ERR_BADNCELLS) else ret val.
Definition fdt_size_cells (nodeoffset : Z) : K Z :=
  ' (sc, len) <- fdt_getprop nodeoffset (chars "#size-cells");;
  if sc =? 0 then ret 2 else
  if negb (len =? 4) then ret (- FDT_ERR_BADNCELLS) else
  v <- fdt32_to_cpu sc;;
  let val := i32 v in
  if (val <? 0) || (val >? FDT_MAX_NCELLS) then ret (- FDT_ERR_BADNCELLS) else ret val.
End fdt.
