(* ===== verification/FdtTree.v ===== *)
(** * Device trees and their flattened form

    The reference for core/lib/libfdt: a tree of named nodes with properties,
    and the blob that the device tree specification assigns to it. *)

From stdpp Require Import prelude list strings.
From Stdlib Require Import ZArith Lia.
From S2P Require Import Prelude Fdt.
#[local] Open Scope Z_scope.

(** A property: its name, where the strings block has the name, its value. *)
Record prop := mk_prop { p_name : list Z; p_nameoff : Z; p_value : list Z }.

#[local] Unset Elimination Schemes.
Inductive tree := Node (name : list Z) (props : list prop) (kids : list tree).
#[local] Set Elimination Schemes.
Definition t_name (t : tree) : list Z := let '(Node n _ _) := t in n.
Definition t_props (t : tree) : list prop := let '(Node _ ps _) := t in ps.
Definition t_kids (t : tree) : list tree := let '(Node _ _ ks) := t in ks.

(** Induction with the hypothesis for every child. *)
Fixpoint tree_ind' (P : tree -> Prop)
    (H : forall n ps ks, Forall P ks -> P (Node n ps ks)) (t : tree) : P t :=
  match t with
  | Node n ps ks =>
      H n ps ks ((fix go (l : list tree) : Forall P l :=
        match l with
        | [] => Forall_nil_2 P
        | k :: l' => Forall_cons_2 P k l' (tree_ind' P H k) (go l')
        end) ks)
  end.

(** ** The flattened form *)

Definition be32 (z : Z) : list Z :=
  [Z.land (Z.shiftr z 24) 255; Z.land (Z.shiftr z 16) 255; Z.land (Z.shiftr z 8) 255; Z.land z 255].
Definition bytes_len {A} (l : list A) : Z := Z.of_nat (length l).
(** Zeros up to a multiple of the tag size. *)
Definition pad (l : list Z) : list Z := l ++ replicate (Z.to_nat (- bytes_len l mod 4)) 0.

Definition enc_head (n : list Z) : list Z := be32 FDT_BEGIN_NODE ++ pad (n ++ [0]).
Definition enc_prop (p : prop) : list Z :=
  be32 FDT_PROP ++ be32 (bytes_len (p_value p)) ++ be32 (p_nameoff p) ++ pad (p_value p).
Definition enc_props (ps : list prop) : list Z := concat (map enc_prop ps).
Fixpoint enc (t : tree) : list Z :=
  match t with
  | Node n ps ks => enc_head n ++ enc_props ps ++ concat (map enc ks) ++ be32 FDT_END_NODE
  end.
Definition enc_kids (ks : list tree) : list Z := concat (map enc ks).

(** A blob of version 17: header, structure block, strings block. *)
Definition dtb (strings : list Z) (t : tree) : list Z :=
  let st := enc t ++ be32 FDT_END in
  let n := bytes_len st in
  be32 FDT_MAGIC ++ be32 (40 + n + bytes_len strings) ++ be32 40 ++ be32 (40 + n) ++ be32 40 ++
  be32 17 ++ be32 16 ++ be32 0 ++ be32 (bytes_len strings) ++ be32 n ++ st ++ strings.

(** ** Building trees *)

Definition strtab (names : list string) : list Z := concat (map (fun n => chars n ++ [0]) names).
Fixpoint str_offset (names : list string) (n : string) : Z :=
  match names with
  | [] => 0
  | m :: l => if String.eqb m n then 0 else bytes_len (chars m) + 1 + str_offset l n
  end.
Definition mk (names : list string) (n : string) (v : list Z) : prop :=
  mk_prop (chars n) (str_offset names n) v.
Definition str (s : string) : list Z := chars s ++ [0].
Definition cells (l : list Z) : list Z := concat (map be32 l).

(** ** Reading a tree *)

(** The first property with a name. *)
Definition find_prop (name : list Z) (ps : list prop) : option prop :=
  List.find (fun p => bool_decide (p_name p = name)) ps.
Definition value_of (name : list Z) (t : tree) : option (list Z) :=
  option_map p_value (find_prop name (t_props t)).
