(* ===== verification/FdtScan.v ===== *)
(** * Scanning an arbitrary device tree blob

    What core/lib/libfdt does on a blob nobody vouches for: with a header of
    version 17 whose structure block lies inside the blob, the walk over the tags
    stays inside the structure block and terminates, unless a property claims
    a length that makes the offset wrap around. *)

From stdpp Require Import prelude list strings.
From Stdlib Require Import ZArith Lia.
From S2P Require Import Prelude Fdt FdtTree.
#[local] Open Scope Z_scope.
#[local] Open Scope kernel_scope.

(** ** The contents of a blob *)

Definition byte_at (blob : list Z) (i : Z) : Z := nth (Z.to_nat i) blob 0.
Definition word_at (blob : list Z) (i : Z) : Z :=
  Z.lor (Z.lor (Z.lor (Z.shiftl (byte_at blob i) 24) (Z.shiftl (byte_at blob (i + 1)) 16))
           (Z.shiftl (byte_at blob (i + 2)) 8)) (byte_at blob (i + 3)).
Definition off_struct (blob : list Z) : Z := word_at blob 8.
Definition size_struct (blob : list Z) : Z := word_at blob 36.
(** The word at an offset of the structure block. *)
Definition sword (blob : list Z) (o : Z) : Z := word_at blob (off_struct blob + o).

(** The header is one whose structure block lies inside the blob. *)
Record framed (fdt : Z) (blob : list Z) : Prop := {
  fr_addr : 0 < fdt /\ fdt + Z.of_nat (length blob) < 2 ^ 32;
  fr_len : 40 <= Z.of_nat (length blob) < 2 ^ 30;
  fr_bytes : Forall (fun b => 0 <= b < 256) blob;
  fr_version : 0x11 <= word_at blob 20;
  fr_struct : off_struct blob + size_struct blob <= Z.of_nat (length blob);
}.

(** Properties have lengths for which the arithmetic on offsets is exact. *)
Definition lengths_ok (blob : list Z) : Prop :=
  forall o, 0 <= o -> o + 8 <= size_struct blob -> sword blob o = FDT_PROP ->
    sword blob (o + 4) < 2 ^ 29.

Section scan.
Context (fdt : Z) (blob : list Z) {S : Type}.
Context (Hfr : framed fdt blob).
Implicit Types (s : S).
#[local] Abbreviation len := (Z.of_nat (length blob)).
#[local] Abbreviation so := (off_struct blob).
#[local] Abbreviation sz := (size_struct blob).

(** ** Loads *)

Lemma byte_range i : 0 <= byte_at blob i < 256.
Proof.
  unfold byte_at. destruct (nth_in_or_default (Z.to_nat i) blob 0) as [Hin| ->]; [|lia].
  destruct Hfr as [_ _ Hb _ _]. rewrite Forall_forall in Hb. apply Hb. by apply list_elem_of_In.
Qed.

Lemma word_range i : is_u32 (word_at blob i).
Proof.
  unfold word_at. pose proof (byte_range i). pose proof (byte_range (i + 1)).
  pose proof (byte_range (i + 2)). pose proof (byte_range (i + 3)).
  repeat apply is_u32_lor; unfold is_u32; rewrite ?Z.shiftl_mul_pow2 by lia; lia.
Qed.

Lemma load8_run p i s : 0 <= i < len -> p = fdt + i -> load8 fdt blob p s = Ret (byte_at blob i) s.
Proof.
  intros Hi ->. unfold load8. replace (fdt + i - fdt) with i by lia.
  destruct Hfr as [_ [_ Hl] _ _ _]. rewrite u32_small by (unfold is_u32; lia).
  rewrite (proj2 (Z.ltb_lt _ _)) by lia. unfold byte_at.
  destruct (blob !! Z.to_nat i) as [b|] eqn:Hb; [|apply lookup_ge_None in Hb; lia].
  cbn. by rewrite (nth_lookup_Some _ _ _ _ Hb).
Qed.
Lemma load32_run p i s :
  0 <= i -> i + 4 <= len -> p = fdt + i -> fdt32_to_cpu fdt blob p s = Ret (word_at blob i) s.
Proof.
  intros Hi Hl ->. unfold fdt32_to_cpu.
  rewrite (bind_run _ _ _ _ _ (load8_run (fdt + i) i s ltac:(lia) eq_refl)).
  rewrite (bind_run _ _ _ _ _ (load8_run (fdt + i + 1) (i + 1) s ltac:(lia) ltac:(lia))).
  rewrite (bind_run _ _ _ _ _ (load8_run (fdt + i + 2) (i + 2) s ltac:(lia) ltac:(lia))).
  by rewrite (bind_run _ _ _ _ _ (load8_run (fdt + i + 3) (i + 3) s ltac:(lia) ltac:(lia))).
Qed.
Lemma header_run f s : 0 <= f -> f + 4 <= 40 -> fdt_get_header fdt blob f s = Ret (word_at blob f) s.
Proof. intros. apply load32_run; [lia| |done]. destruct Hfr. lia. Qed.
Lemma offsets_range : 0 <= so /\ 0 <= sz /\ so + sz <= len.
Proof.
  pose proof (word_range 8). pose proof (word_range 36). destruct Hfr. unfold is_u32 in *.
  unfold off_struct, size_struct in *. lia.
Qed.

(** ** Pointers into the structure block *)

(** The check of [fdt_offset_ptr] is exact. *)
Lemma offset_ptr_run o n s :
  0 <= o < 2 ^ 31 -> 0 <= n < 2 ^ 32 ->
  fdt_offset_ptr fdt blob o n s = Ret (if o + n <=? sz then fdt + so + o else 0) s.
Proof.
  intros Ho Hn. pose proof offsets_range as (Hso & Hsz & Hb). destruct Hfr as [Ha Hl _ Hv _].
  unfold fdt_offset_ptr.
  rewrite (bind_run _ _ _ _ _ (header_run 20 s ltac:(lia) ltac:(lia))).
  rewrite (proj2 (Z.geb_le (word_at blob 20) 0x11)) by lia.
  rewrite (u32_small o) by (unfold is_u32; lia).
  assert (Hptr : 0 <= fdt + so + o /\ (o + n <= sz -> fdt + so + o + n < 2 ^ 32)) by lia.
  destruct (Z.ltb_spec (u32 (o + n)) o) as [Hw|Hw].
  - assert (2 ^ 32 <= o + n).
    { destruct (Z.lt_ge_cases (o + n) (2 ^ 32)); [|done]. rewrite u32_small in Hw by (unfold is_u32; lia). lia. }
    rewrite (proj2 (Z.leb_gt _ _)) by lia. done.
  - assert (Hs : o + n < 2 ^ 32).
    { destruct (Z.lt_ge_cases (o + n) (2 ^ 32)); [done|].
      assert (u32 (o + n) = o + n - 2 ^ 32) by
        (unfold u32; rewrite <- (Z.mod_add (o + n) (-1)) by done; apply Z.mod_small; lia). lia. }
    rewrite u32_small in Hw |- * by (unfold is_u32; lia).
    unfold bind at 1. rewrite (bind_run _ _ _ _ _ (header_run 36 s ltac:(lia) ltac:(lia))).
    fold (size_struct blob). unfold ret at 1. rewrite Z.gtb_ltb.
    destruct (Z.leb_spec (o + n) sz) as [Hle|Hgt].
    + rewrite (proj2 (Z.ltb_ge _ _)) by lia.
      unfold _fdt_offset_ptr, fdt_off_dt_struct, bind. rewrite (header_run 8 s) by lia. fold (off_struct blob).
      cbn. rewrite (u32_small (fdt + so + o)) by (unfold is_u32; lia).
      rewrite u32_small by (unfold is_u32; lia). by rewrite (proj2 (Z.ltb_ge _ _)) by lia.
    + by rewrite (proj2 (Z.ltb_lt _ _)) by lia.
Qed.

Lemma tagalign_eq o : 0 <= o < 2 ^ 31 -> FDT_TAGALIGN o = 4 * ((o + 3) / 4).
Proof.
  intros Ho. unfold FDT_TAGALIGN, FDT_ALIGN, FDT_TAGSIZE.
  replace (o + 4 - 1) with (o + 3) by lia. rewrite u32_small by (unfold is_u32; lia).
  change 4 with (2 ^ 2) at 2 3. rewrite <- Z.shiftr_div_pow2, Z.mul_comm, <- Z.shiftl_mul_pow2 by lia.
  bitwise i. rewrite Z.shiftl_spec by lia.
  destruct (Z.ltb_spec i 32) as [Hi|Hi].
  - destruct (Z.ltb_spec i 2) as [H2|H2].
    + rewrite (Z.testbit_neg_r _ (i - 2)) by lia.
      assert (i = 0 \/ i = 1) as [-> | ->] by lia; by rewrite andb_false_r.
    + rewrite Z.shiftr_spec by lia. replace (i - 2 + 2) with i by lia.
      assert (Hb : Z.testbit (4 - 1) i = false) by (apply Z.bits_above_log2; [done|change (Z.log2 (4 - 1)) with 1; lia]).
      by rewrite Hb, andb_true_r.
  - cbn. rewrite andb_false_r, Z.shiftr_spec by lia. replace (i - 2 + 2) with i by lia.
    symmetry. apply Z.bits_above_log2; [lia|].
    assert (Z.log2 (o + 3) < 32) by (apply Z.log2_lt_pow2; lia). lia.
Qed.

(** The end of a name is found, or the block ends first. *)
Lemma skip_name_run f o s :
  0 <= o < 2 ^ 30 -> sz - o < Z.of_nat f -> (0 < f)%nat ->
  exists o' p, skip_name fdt blob f o s = Ret (o', p) s /\ (p = 0 \/ (o < o' <= sz)).
Proof.
  pose proof offsets_range as (Hso & Hsz & Hb). destruct Hfr as [Ha Hl _ _ _].
  revert o. induction f as [|f IH]; intros o Ho Hf Hpos; [lia|]. cbn [skip_name].
  rewrite (bind_run _ _ _ _ _ (offset_ptr_run o 1 s ltac:(lia) ltac:(lia))).
  rewrite (bind_run _ _ _ _ _ (int_result_run (o + 1) s ltac:(lia))).
  destruct (Z.leb_spec (o + 1) sz) as [Hle|Hgt]; [|by exists (o + 1), 0; split; [|left]].
  rewrite (proj2 (Z.eqb_neq _ _)) by lia.
  rewrite (bind_run _ _ _ _ _ (load8_run (fdt + so + o) (so + o) s ltac:(lia) ltac:(lia))).
  destruct (byte_at blob (so + o) =? 0).
  - exists (o + 1), (fdt + so + o). split; [done|right; lia].
  - destruct (IH (o + 1)) as (o' & p & Hr & Hp); [lia..|]. exists o', p. split; [done|].
    destruct Hp; [by left|right; lia].
Qed.

Definition known_tag (t : Z) : Prop :=
  t = FDT_BEGIN_NODE \/ t = FDT_PROP \/ t = FDT_END \/ t = FDT_END_NODE \/ t = FDT_NOP.
(** What [fdt_next_tag] promises: an error, or a tag of the block and the
    aligned offset after it. *)
Definition scanned (o : Z) (r : Z * Z) : Prop :=
  (r.1 = FDT_END /\ r.2 < 0) \/
  (r.1 = sword blob o /\ known_tag r.1 /\
   o + 4 <= sz /\ o + 4 <= r.2 <= sz + 3 /\ r.2 mod 4 = 0).

Lemma tagalign_bounds o : 0 <= o < 2 ^ 31 - 4 ->
  o <= i32 (FDT_TAGALIGN o) <= o + 3 /\ i32 (FDT_TAGALIGN o) mod 4 = 0.
Proof.
  intros Ho. rewrite tagalign_eq by lia.
  pose proof (Z.div_mod (o + 3) 4 ltac:(lia)). pose proof (Z.mod_pos_bound (o + 3) 4 ltac:(lia)).
  rewrite i32_small by lia. split; [lia|]. rewrite Z.mul_comm. by apply Z.mod_mul.
Qed.

(** [fdt_next_tag] on a tag inside the block, given the end of its token: the
    whole token must be inside the block. *)
Lemma next_tag_from o e s :
  0 <= o -> o + 4 <= sz -> tag_end fdt blob (sword blob o) (o + 4) s = Ret e s ->
  (forall x, e = Some x -> o <= x < 2 ^ 31) ->
  fdt_next_tag fdt blob o s =
    Ret (match e with
         | Some x => if x <=? sz then (sword blob o, i32 (FDT_TAGALIGN x)) else (FDT_END, - FDT_ERR_BADSTRUCTURE)
         | None => (FDT_END, - FDT_ERR_BADSTRUCTURE)
         end) s.
Proof.
  intros Ho Hle He Hx. pose proof offsets_range as (Hso & Hsz & Hb). pose proof Hfr as [Ha Hl _ _ _].
  unfold fdt_next_tag, FDT_TAGSIZE.
  rewrite (bind_run _ _ _ _ _ (offset_ptr_run o 4 s ltac:(lia) ltac:(lia))).
  rewrite (proj2 (Z.leb_le (o + 4) sz)), (proj2 (Z.eqb_neq (fdt + so + o) 0)) by lia.
  rewrite (bind_run _ _ _ _ _ (load32_run (fdt + so + o) (so + o) s ltac:(lia) ltac:(lia) ltac:(lia))).
  fold (sword blob o). rewrite (i32_small (o + 4)) by lia. rewrite (bind_run _ _ _ _ _ He).
  destruct e as [x|]; [|done]. specialize (Hx x eq_refl).
  rewrite (bind_run _ _ _ _ _ (int_result_run (x - o) s ltac:(lia))).
  rewrite u32_small by (unfold is_u32; lia).
  rewrite (bind_run _ _ _ _ _ (offset_ptr_run o (x - o) s ltac:(lia) ltac:(lia))).
  replace (o + (x - o)) with x by lia.
  destruct (Z.leb_spec x sz); [by rewrite (proj2 (Z.eqb_neq _ _)) by lia|done].
Qed.

(** Where a token ends. *)
Lemma tag_end_run tag o s :
  lengths_ok blob -> 0 <= o -> o + 4 <= sz -> tag = sword blob o ->
  exists e, tag_end fdt blob tag (o + 4) s = Ret e s /\
    (forall x, e = Some x -> known_tag tag /\ o + 4 <= x < 2 ^ 31).
Proof.
  intros Hlen Ho Hle Htag. pose proof offsets_range as (Hso & Hsz & Hb). pose proof Hfr as [Ha Hl _ _ _].
  unfold tag_end, known_tag. destruct (Z.eqb_spec tag FDT_BEGIN_NODE) as [Ht|Hn1].
  - destruct (skip_name_run (scan_fuel blob) (o + 4) s) as (e & p & He & Hp);
      [lia|unfold scan_fuel; lia|unfold scan_fuel; lia|].
    rewrite (bind_run _ _ _ _ _ He). destruct (Z.eqb_spec p 0) as [|Hp0]; [by exists None|].
    exists (Some e). split; [done|]. intros x [= <-]. split; [by left|]. destruct Hp; [done|lia].
  - destruct (Z.eqb_spec tag FDT_PROP) as [Ht|Hn2].
    + rewrite (bind_run _ _ _ _ _ (offset_ptr_run (o + 4) 4 s ltac:(lia) ltac:(lia))).
      destruct (Z.leb_spec (o + 4 + 4) sz) as [Hle'|Hgt']; [|by exists None].
      rewrite (proj2 (Z.eqb_neq _ _)) by lia.
      unfold bind. rewrite (load32_run _ (so + (o + 4)) s) by lia.
      change (word_at blob (so + (o + 4))) with (sword blob (o + 4)).
      pose proof (Hlen o ltac:(lia) ltac:(lia) ltac:(congruence)).
      assert (Hw : 0 <= sword blob (o + 4)) by apply word_range.
      rewrite i32_small by lia. eexists. split; [done|]. intros x [= <-]. split; [by right; left|lia].
    + destruct (_ || _) eqn:Hor; [|by exists None]. exists (Some (o + 4)). split; [done|].
      intros x [= <-]. split; [|lia]. rewrite !orb_true_iff, !Z.eqb_eq in Hor. tauto.
Qed.

Lemma next_tag_scanned o s :
  lengths_ok blob -> 0 <= o < 2 ^ 31 ->
  exists r, fdt_next_tag fdt blob o s = Ret r s /\ scanned o r.
Proof.
  intros Hlen Ho. pose proof offsets_range as (Hso & Hsz & Hb). pose proof Hfr as [Ha Hl _ _ _].
  destruct (Z.le_gt_cases (o + 4) sz) as [Hle|Hgt].
  - destruct (tag_end_run _ o s Hlen ltac:(lia) Hle eq_refl) as (e & He & Hx).
    eexists. split; [apply (next_tag_from o e s); [lia|done|done|]|].
    { intros x Hxe. apply Hx in Hxe. lia. }
    destruct e as [x|]; [|by left]. destruct (Hx x eq_refl) as [Hk Hr].
    destruct (Z.leb_spec x sz); [right|by left]. pose proof (tagalign_bounds x ltac:(lia)).
    cbn. split_and!; try done; lia.
  - unfold fdt_next_tag, FDT_TAGSIZE.
    rewrite (bind_run _ _ _ _ _ (offset_ptr_run o 4 s ltac:(lia) ltac:(lia))).
    rewrite (proj2 (Z.leb_gt _ _)) by lia. by eexists; split; [|left].
Qed.

(** ** The walk over the nodes *)

(** A node that was found begins behind [lo]; a walk that left the node it
    started in, as [depth] says, ends behind it. *)
Definition node_found (lo : Z) (r : Z * option Z) : Prop :=
  r.1 < 0 \/
  (lo <= r.1 /\ r.1 + 4 <= sz /\ sword blob r.1 = FDT_BEGIN_NODE /\ r.1 mod 4 = 0) \/
  (lo < r.1 <= sz + 3 /\ exists d, r.2 = Some d /\ d < 0).

Lemma next_node_loop_run f o depth s :
  lengths_ok blob -> 0 <= o <= sz + 3 -> o mod 4 = 0 -> sz - o < 4 * Z.of_nat f -> (0 < f)%nat ->
  exists r, next_node_loop fdt blob f o depth s = Ret r s /\ node_found o r.
Proof.
  intros Hlen. pose proof offsets_range as (Hso & Hsz & Hb). pose proof Hfr as [Ha Hl _ _ _].
  revert o depth. induction f as [|f IH]; intros o depth Ho Hmod Hf Hpos; [lia|]. cbn [next_node_loop].
  destruct (next_tag_scanned o s Hlen ltac:(lia)) as ([t n] & Hrun & Hsc).
  rewrite (bind_run _ _ _ _ _ Hrun). unfold scanned in Hsc. cbn in Hsc.
  assert (Hnext : forall d', o + 4 <= n <= sz + 3 -> n mod 4 = 0 -> o + 4 <= sz ->
    exists r, next_node_loop fdt blob f n d' s = Ret r s /\ node_found o r).
  { intros d' Hn Hm Hle. destruct (IH n d') as (r & Hr & Hfound); [lia..|done|lia|lia|]. exists r.
    split; [done|]. destruct Hfound as [?|[?|?]]; [by left|right; left|right; right]; intuition lia. }
  destruct Hsc as [[-> Hn]|(Ht & _ & Hle & Hn & Hm)].
  - cbn. destruct (_ || _); eexists; (split; [done|]); left; cbn; [done|lia].
  - destruct (Z.eqb_spec t FDT_BEGIN_NODE) as [->|].
    { eexists. split; [done|]. right. left. cbn. split_and!; [lia..|done|done]. }
    destruct (Z.eqb_spec t FDT_END_NODE) as [->|].
    { destruct (Z.ltb_spec (default 0 (option_map (fun d => d - 1) depth)) 0) as [Hd|Hd]; [|by apply Hnext].
      eexists. split; [done|]. right. right. cbn. split; [lia|].
      destruct depth as [d|]; cbn in *; [|lia]. by eexists. }
    destruct (Z.eqb_spec t FDT_END) as [->|]; [|by apply Hnext].
    rewrite (proj2 (Z.geb_le n 0)) by lia. eexists. split; [done|]. by left.
Qed.

Lemma check_offset_run want o s :
  lengths_ok blob -> o < 2 ^ 31 ->
  exists r, _fdt_check_offset fdt blob want o s = Ret r s /\
    (r = - FDT_ERR_BADOFFSET \/ (want = FDT_END /\ r < 0) \/
     (sword blob o = want /\ 0 <= o /\ o mod 4 = 0 /\ o + 4 <= sz /\ o + 4 <= r <= sz + 3 /\ r mod 4 = 0)).
Proof.
  intros Hlen Ho. pose proof Hfr as [Ha Hl _ _ _]. unfold _fdt_check_offset, FDT_TAGSIZE.
  destruct (Z.ltb_spec o 0) as [|Ho0]; [by eexists; split; [done|left]|].
  rewrite u32_small by (unfold is_u32; lia). unfold truth.
  destruct (Z.eqb_spec (o mod 4) 0) as [Hm|]; [|by eexists; split; [done|left]]. cbn [negb orb].
  destruct (next_tag_scanned o s Hlen ltac:(lia)) as ([t n] & Hrun & Hsc).
  rewrite (bind_run _ _ _ _ _ Hrun). unfold scanned in Hsc. cbn in Hsc.
  destruct (Z.eqb_spec t want) as [->|]; [|by eexists; split; [done|left]].
  eexists. split; [done|]. right. destruct Hsc as [[-> ?]|(Ht & _ & ? & ? & ?)]; [by left|right].
  by split_and!; try lia.
Qed.

(** C33: walking from node to node terminates on every blob with a framed
    structure block and moderate property lengths: from any offset, valid or
    not, [fdt_next_node] returns an error, a node that begins behind the
    offset, or, when it leaves the subtree, an offset behind it and a negative
    depth; no load leaves the blob. *)
Theorem fdt_next_node_returns offset depth s :
  lengths_ok blob -> offset < 2 ^ 31 ->
  exists r, fdt_next_node fdt blob offset depth s = Ret r s /\ node_found (offset + 1) r.
Proof.
  intros Hlen Ho. pose proof offsets_range as (Hso & Hsz & Hb). pose proof Hfr as [Ha Hl _ _ _].
  unfold fdt_next_node. destruct (Z.geb_spec offset 0) as [Hge|Hlt].
  - unfold _fdt_check_node_offset.
    destruct (check_offset_run FDT_BEGIN_NODE offset s Hlen Ho) as (r & Hrun & Hr).
    rewrite (bind_run _ _ _ _ _ Hrun). destruct (Z.ltb_spec r 0) as [|Hr0].
    { eexists. split; [done|]. by left. }
    destruct Hr as [->|[[??]|(_ & _ & Hm & Hle & Hn & Hm')]]; [done|done|].
    destruct (next_node_loop_run (scan_fuel blob) r depth s) as (x & Hx & Hf);
      [done|lia|done|unfold scan_fuel; lia|unfold scan_fuel; lia|].
    exists x. split; [done|]. destruct Hf as [?|[?|?]]; [by left|right; left|right; right]; intuition lia.
  - destruct (next_node_loop_run (scan_fuel blob) 0 depth s) as (x & Hx & Hf);
      [done|lia|done|unfold scan_fuel; lia|unfold scan_fuel; lia|].
    exists x. split; [done|]. destruct Hf as [?|[?|?]]; [by left|right; left|right; right]; intuition lia.
Qed.

(** ** A length that wraps *)

(** A property with this length is its own successor. *)
Lemma next_tag_stuck o s :
  0 <= o -> o mod 4 = 0 -> o + 8 <= sz -> sword blob o = FDT_PROP -> sword blob (o + 4) = 0xfffffff4 ->
  fdt_next_tag fdt blob o s = Ret (FDT_PROP, o) s.
Proof.
  intros Ho Hm Hle Ht Hl'. pose proof offsets_range as (Hso & Hsz & Hb). pose proof Hfr as [Ha Hl _ _ _].
  assert (Hw : i32 (o + 4 + 8 + 0xfffffff4) = o).
  { unfold i32, u32. replace (o + 4 + 8 + 0xfffffff4) with (o + 1 * 2 ^ 32) by lia.
    rewrite Z.mod_add by done. rewrite Z.mod_small by lia. by rewrite (proj2 (Z.ltb_lt _ _)) by lia. }
  rewrite (next_tag_from o (Some o) s); [|lia|lia| |by intros x [= <-]; lia].
  - rewrite (proj2 (Z.leb_le _ _)) by lia. rewrite Ht, tagalign_eq by lia.
    assert (Ho4 : 4 * ((o + 3) / 4) = o).
    { pose proof (Z.div_mod o 4 ltac:(lia)). replace (o + 3) with (3 + (o / 4) * 4) by lia.
      rewrite Z.div_add by done. change (3 / 4) with 0. lia. }
    by rewrite Ho4, i32_small by lia.
  - rewrite Ht. unfold tag_end. change (FDT_PROP =? FDT_BEGIN_NODE) with false.
    change (FDT_PROP =? FDT_PROP) with true. cbv iota.
    rewrite (bind_run _ _ _ _ _ (offset_ptr_run (o + 4) 4 s ltac:(lia) ltac:(lia))).
    rewrite (proj2 (Z.leb_le _ _)), (proj2 (Z.eqb_neq (fdt + so + (o + 4)) 0)) by lia.
    unfold bind. rewrite (load32_run _ (so + (o + 4)) s) by lia.
    change (word_at blob (so + (o + 4))) with (sword blob (o + 4)). by rewrite Hl', Hw.
Qed.

(** C34: a property that claims a length of 2^32 - 12 is its own successor, and
    the walk over the nodes never gets past it, whatever fuel it is given. *)
Theorem next_node_loop_hangs o s :
  0 <= o -> o mod 4 = 0 -> o + 8 <= sz -> sword blob o = FDT_PROP -> sword blob (o + 4) = 0xfffffff4 ->
  forall f depth, next_node_loop fdt blob f o depth s = Spin.
Proof.
  intros Ho Hm Hle Ht Hl f. induction f as [|f IH]; intros depth; [done|]. cbn [next_node_loop].
  rewrite (bind_run _ _ _ _ _ (next_tag_stuck o s Ho Hm Hle Ht Hl)). apply IH.
Qed.
End scan.

(** ** Two blobs *)

#[local] Definition small_blob : list Z := dtb [] (Node [] [] [Node (chars "a") [] []]).
(** One node whose only property has the length of [next_node_loop_hangs]. *)
#[local] Definition stuck_blob : list Z :=
  concat (map be32 [FDT_MAGIC; 72; 40; 72; 40; 17; 16; 0; 0; 32]) ++
  concat (map be32 [FDT_BEGIN_NODE; 0; FDT_PROP; 0xfffffff4; 0; FDT_END_NODE; FDT_END; 0]).

Ltac framed_by_computation :=
  split; [by split|by vm_compute|by (repeat constructor)|by vm_compute|by vm_compute].

Lemma fdt_next_node_returns_witness :
  framed 0x18000000 small_blob /\ lengths_ok small_blob /\
  exists r, fdt_next_node 0x18000000 small_blob 8 (Some 0) tt = Ret r tt /\ node_found small_blob (8 + 1) r.
Proof.
  assert (Hfr : framed 0x18000000 small_blob) by framed_by_computation.
  assert (Hl : lengths_ok small_blob).
  { intros o Ho Hle Hw. exfalso. change (size_struct small_blob) with 28 in Hle.
    assert (Hc : forallb (fun i => negb (sword small_blob i =? FDT_PROP)) (seqZ 0 21) = true) by (by vm_compute).
    rewrite forallb_forall in Hc. assert (Hin : In o (seqZ 0 21)) by (apply list_elem_of_In, elem_of_seqZ; lia).
    specialize (Hc o Hin). rewrite Hw in Hc. done. }
  split; [done|]. split; [done|].
  by apply (fdt_next_node_returns 0x18000000 small_blob Hfr).
Defined.

Lemma next_node_loop_hangs_witness :
  framed 0x18000000 stuck_blob /\ fdt_check_header 0x18000000 stuck_blob tt = Ret 0 tt /\
  forall f depth, next_node_loop 0x18000000 stuck_blob f 8 depth tt = Spin.
Proof.
  assert (Hfr : framed 0x18000000 stuck_blob) by framed_by_computation.
  split; [done|]. split; [by vm_compute|].
  apply (next_node_loop_hangs 0x18000000 stuck_blob Hfr 8 tt); by vm_compute.
Defined.
