(* ===== verification/FdtSpec.v ===== *)
(** * libfdt on a flattened tree

    On the blob of a tree, the routines of core/lib/libfdt compute what they say
    of the tree: properties, names, phandles, children, parents. *)

From stdpp Require Import prelude list strings.
From Stdlib Require Import ZArith Lia.
From S2P Require Import Prelude Fdt FdtTree FdtScan.
#[local] Open Scope Z_scope.
#[local] Open Scope kernel_scope.

(** ** Bytes at a place *)

Definition has (blob : list Z) (i : Z) (l : list Z) : Prop :=
  exists p q, blob = p ++ l ++ q /\ i = bytes_len p.

Lemma bytes_len_app {A} (l1 l2 : list A) : bytes_len (l1 ++ l2) = bytes_len l1 + bytes_len l2.
Proof. unfold bytes_len. rewrite length_app. lia. Qed.
Lemma bytes_len_cons {A} (x : A) l : bytes_len (x :: l) = 1 + bytes_len l.
Proof. unfold bytes_len. cbn. lia. Qed.
Lemma bytes_len_nonneg {A} (l : list A) : 0 <= bytes_len l.
Proof. unfold bytes_len. lia. Qed.

Lemma has_app blob i l1 l2 : has blob i (l1 ++ l2) <-> has blob i l1 /\ has blob (i + bytes_len l1) l2.
Proof.
  split.
  - intros (p & q & -> & ->). split; [exists p, (l2 ++ q)|exists (p ++ l1), q];
      by rewrite ?bytes_len_app, <- ?app_assoc.
  - intros ((p & q & -> & ->) & p' & q' & Heq & Hl). exists p, q'. split; [|done].
    rewrite <- app_assoc. unfold bytes_len in Hl. rewrite app_assoc in Heq.
    apply app_inj_1 in Heq as [<- ->]; [done|]. rewrite length_app. unfold bytes_len in *. lia.
Qed.
Lemma has_prefix blob i l1 l2 : has blob i (l1 ++ l2) -> has blob i l1.
Proof. intros H. by apply has_app in H as [? _]. Qed.
Lemma has_bounds blob i l : has blob i l -> 0 <= i /\ i + bytes_len l <= bytes_len blob.
Proof. intros (p & q & -> & ->). rewrite !bytes_len_app. unfold bytes_len. lia. Qed.
Lemma has_cons blob i b l : has blob i (b :: l) -> byte_at blob i = b /\ has blob (i + 1) l.
Proof.
  intros H. apply (has_app blob i [b] l) in H as [(p & q & -> & ->) H']. split; [|done].
  unfold byte_at, bytes_len. rewrite Nat2Z.id, app_nth2 by lia. by rewrite Nat.sub_diag.
Qed.

Lemma byte_bit z k i :
  0 <= k -> Z.testbit (Z.land (Z.shiftr z k) 255) i = (0 <=? i) && (i <? 8) && Z.testbit z (i + k).
Proof.
  intros Hk. rewrite Z.land_spec. change 255 with (Z.ones 8). rewrite Z.testbit_ones by lia.
  destruct (Z.leb_spec 0 i) as [Hi|Hi]; cbn [andb]; [|by rewrite Z.testbit_neg_r].
  rewrite Z.shiftr_spec by lia. apply andb_comm.
Qed.
Lemma word_be32 blob i z : is_u32 z -> has blob i (be32 z) -> word_at blob i = z.
Proof.
  intros Hz H. unfold be32 in H. apply has_cons in H as [H0 H]. apply has_cons in H as [H1 H].
  apply has_cons in H as [H2 H]. apply has_cons in H as [H3 _].
  replace (i + 1 + 1 + 1) with (i + 3) in H3 by lia. replace (i + 1 + 1) with (i + 2) in H2 by lia.
  unfold word_at. rewrite H0, H1, H2, H3. rewrite <- (Z.shiftr_0_r z) at 4.
  apply Z.bits_inj'. intros j Hj. rewrite !Z.lor_spec, !Z.shiftl_spec, !byte_bit by lia.
  rewrite !Z.sub_add, Z.add_0_r. destruct (Z.ltb_spec j 32) as [Hj'|Hj'].
  - destruct (Z.testbit z j); [|by rewrite !andb_false_r]. rewrite !andb_true_r.
    assert (Hc : j < 8 \/ 8 <= j < 16 \/ 16 <= j < 24 \/ 24 <= j) by lia. lia.
  - rewrite (is_u32_testbit z j) by (done || lia). by rewrite !andb_false_r.
Qed.

(** ** The blob of a tree *)

Definition nz (l : list Z) : Prop := Forall (fun b => b <> 0) l.
(** The strings block has the name of the property where it says. *)
Definition wf_prop (blob : list Z) (p : prop) : Prop :=
  nz (p_name p) /\ 0 <= p_nameoff p /\ has blob (word_at blob 12 + p_nameoff p) (p_name p ++ [0]).
Fixpoint wf_tree (blob : list Z) (t : tree) : Prop :=
  match t with
  | Node n ps ks => nz n /\ Forall (wf_prop blob) ps /\
      (fix go l := match l with [] => True | k :: l' => wf_tree blob k /\ go l' end) ks
  end.
Lemma wf_node blob n ps ks :
  wf_tree blob (Node n ps ks) <-> nz n /\ Forall (wf_prop blob) ps /\ Forall (wf_tree blob) ks.
Proof.
  cbn. assert (H : (fix go l := match l with [] => True | k :: l' => wf_tree blob k /\ go l' end) ks
    <-> Forall (wf_tree blob) ks); [|tauto].
  induction ks as [|k ks IH]; [done|]. rewrite Forall_cons. tauto.
Qed.

Record holds_tree (fdt : Z) (blob : list Z) (t : tree) : Prop := {
  ht_framed : framed fdt blob;
  ht_magic : word_at blob 0 = FDT_MAGIC;
  ht_version : word_at blob 24 <= 0x11;
  ht_struct : has blob (off_struct blob) (enc t ++ be32 FDT_END);
  ht_size : size_struct blob = bytes_len (enc t ++ be32 FDT_END);
  ht_wf : wf_tree blob t;
}.

(** ** Lengths *)

Lemma be32_len z : bytes_len (be32 z) = 4.
Proof. done. Qed.
Lemma pad_len l : bytes_len (pad l) = 4 * ((bytes_len l + 3) / 4).
Proof.
  unfold pad. rewrite bytes_len_app. unfold bytes_len at 2. rewrite length_replicate.
  pose proof (Z.mod_pos_bound (- bytes_len l) 4 ltac:(lia)). rewrite Z2Nat.id by lia.
  pose proof (Z.div_mod (bytes_len l + 3) 4 ltac:(lia)).
  pose proof (Z.mod_pos_bound (bytes_len l + 3) 4 ltac:(lia)).
  pose proof (Z.div_mod (- bytes_len l) 4 ltac:(lia)). lia.
Qed.
Lemma pad_mod l : bytes_len (pad l) mod 4 = 0.
Proof. rewrite pad_len, Z.mul_comm. by apply Z.mod_mul. Qed.
Lemma mod4_add a b : a mod 4 = 0 -> b mod 4 = 0 -> (a + b) mod 4 = 0.
Proof. intros Ha Hb. rewrite Z.add_mod, Ha, Hb by done. done. Qed.
Lemma enc_head_mod n : bytes_len (enc_head n) mod 4 = 0.
Proof. unfold enc_head. rewrite bytes_len_app. apply mod4_add; [done|apply pad_mod]. Qed.
Lemma enc_prop_mod p : bytes_len (enc_prop p) mod 4 = 0.
Proof. unfold enc_prop. rewrite !bytes_len_app. repeat apply mod4_add; try done. apply pad_mod. Qed.
Lemma concat_mod {A} (f : A -> list Z) (l : list A) :
  Forall (fun x => bytes_len (f x) mod 4 = 0) l -> bytes_len (concat (map f l)) mod 4 = 0.
Proof.
  induction 1 as [|x l Hx _ IH]; [done|]. cbn [map concat]. rewrite bytes_len_app. by apply mod4_add.
Qed.
Lemma enc_props_mod ps : bytes_len (enc_props ps) mod 4 = 0.
Proof. apply concat_mod, Forall_forall. intros p _. apply enc_prop_mod. Qed.
Lemma enc_node n ps ks :
  enc (Node n ps ks) = enc_head n ++ enc_props ps ++ enc_kids ks ++ be32 FDT_END_NODE.
Proof. done. Qed.
Lemma enc_mod t : bytes_len (enc t) mod 4 = 0.
Proof.
  induction t as [n ps ks IH] using tree_ind'. rewrite enc_node, !bytes_len_app.
  repeat apply mod4_add; [apply enc_head_mod|apply enc_props_mod|by apply concat_mod|done].
Qed.
Create HintDb mod4.
#[local] Hint Resolve mod4_add enc_head_mod enc_prop_mod enc_props_mod enc_mod pad_mod : mod4.

(** ** Lists of strings *)

Definition strings (l : list (list Z)) : list Z := concat (map (fun x => x ++ [0]) l).
Lemma strings_cons x l : strings (x :: l) = x ++ 0 :: strings l.
Proof. unfold strings. cbn. by rewrite <- app_assoc. Qed.
(** The strings of a value; without a final zero the last one is incomplete. *)
Fixpoint split_strings (v : list Z) : list (list Z) :=
  match v with
  | [] => []
  | b :: v' =>
      if b =? 0 then [] :: split_strings v'
      else match split_strings v' with
           | [] => [[b]]
           | x :: l => (b :: x) :: l
           end
  end.
Lemma split_strings_nz v : Forall nz (split_strings v).
Proof.
  induction v as [|b v IH]; [done|]. cbn. destruct (Z.eqb_spec b 0).
  - apply Forall_cons. by split; [constructor|].
  - destruct (split_strings v) as [|x l]; [repeat constructor; done|].
    apply Forall_cons in IH as [Hx Hl]. apply Forall_cons. split; [by constructor|done].
Qed.
(** The [compatible] property is a list of terminated strings. *)
Definition string_lists (t : tree) : Prop :=
  forall v, value_of (chars "compatible") t = Some v -> strings (split_strings v) = v.

Section spec.
Context (fdt : Z) (blob : list Z) {S : Type}.
Context (Hfr : framed fdt blob).
Implicit Types (s : S).
#[local] Abbreviation so := (off_struct blob).
#[local] Abbreviation sz := (size_struct blob).

(** [l] is at offset [o] of the structure block. *)
Definition at_ (o : Z) (l : list Z) : Prop :=
  has blob (so + o) l /\ 0 <= o /\ o + bytes_len l <= sz.
Lemma at_app o l1 l2 : at_ o (l1 ++ l2) <-> at_ o l1 /\ at_ (o + bytes_len l1) l2.
Proof.
  unfold at_. rewrite has_app, bytes_len_app.
  replace (so + (o + bytes_len l1)) with (so + o + bytes_len l1) by lia.
  pose proof (bytes_len_nonneg l1). pose proof (bytes_len_nonneg l2).
  split; [intros ((? & ?) & ? & ?)|intros ((? & ? & ?) & ? & ? & ?)]; split_and!; try done; lia.
Qed.
Lemma at_word o z : is_u32 z -> at_ o (be32 z) -> sword blob o = z.
Proof. intros Hz (H & _). by apply word_be32. Qed.
Lemma at_small o l : at_ o l -> 0 <= o /\ o + bytes_len l < 2 ^ 30.
Proof.
  intros (_ & Ho & Hl). pose proof (offsets_range fdt blob Hfr) as (? & ? & Hb). destruct Hfr. lia.
Qed.

(** ** Tags *)

Lemma skip_name_exact n f o s :
  nz n -> at_ o (n ++ [0]) -> (length n < f)%nat ->
  skip_name fdt blob f o s =
    Ret (o + bytes_len n + 1, fdt + so + o + bytes_len n) s.
Proof.
  pose proof (offsets_range fdt blob Hfr) as (Hso & Hsz & Hb). pose proof Hfr as [Ha Hl _ _ _].
  revert f o. induction n as [|b n IH]; intros f o Hnz Hat Hf; (destruct f as [|f]; [cbn in Hf; lia|]);
    cbn [skip_name]; pose proof (at_small _ _ Hat) as [Ho Hlt];
    pose proof Hat as (Hhas & _ & Hle); cbn [app] in *; rewrite bytes_len_cons in *;
    apply has_cons in Hhas as [Hbyte Hrest];
    match goal with |- context [bytes_len ?l] => pose proof (bytes_len_nonneg l) | _ => idtac end.
  - change (bytes_len (@nil Z)) with 0 in *.
    rewrite (bind_run _ _ _ _ _ (offset_ptr_run fdt blob Hfr o 1 s ltac:(lia) ltac:(lia))).
    rewrite (bind_run _ _ _ _ _ (int_result_run (o + 1) s ltac:(lia))).
    rewrite (proj2 (Z.leb_le _ _)), (proj2 (Z.eqb_neq (fdt + so + o) 0)) by lia.
    rewrite (bind_run _ _ _ _ _ (load8_run fdt blob Hfr (fdt + so + o) (so + o) s ltac:(lia) ltac:(lia))).
    rewrite Hbyte, !Z.add_0_r. done.
  - assert (0 <= bytes_len (n ++ [0])) by apply bytes_len_nonneg.
    rewrite (bind_run _ _ _ _ _ (offset_ptr_run fdt blob Hfr o 1 s ltac:(lia) ltac:(lia))).
    rewrite (bind_run _ _ _ _ _ (int_result_run (o + 1) s ltac:(lia))).
    rewrite (proj2 (Z.leb_le _ _)), (proj2 (Z.eqb_neq (fdt + so + o) 0)) by lia.
    rewrite (bind_run _ _ _ _ _ (load8_run fdt blob Hfr (fdt + so + o) (so + o) s ltac:(lia) ltac:(lia))).
    apply Forall_cons in Hnz as [Hb0 Hnz]. rewrite Hbyte, (proj2 (Z.eqb_neq b 0)) by done.
    rewrite IH; [do 2 f_equal; lia|done| |cbn in Hf; lia].
    unfold at_. replace (so + (o + 1)) with (so + o + 1) by lia. split_and!; [done|lia|lia].
Qed.

(** [o + n], rounded up, when [n] bytes are padded. *)
Lemma align_after o n : 0 <= o -> 0 <= n -> o + n < 2 ^ 31 - 4 -> o mod 4 = 0 ->
  i32 (FDT_TAGALIGN (o + n)) = o + 4 * ((n + 3) / 4).
Proof.
  intros Ho Hn Hlt Hm. rewrite tagalign_eq by lia.
  pose proof (Z.div_mod o 4 ltac:(lia)). pose proof (Z.div_mod (n + 3) 4 ltac:(lia)).
  pose proof (Z.mod_pos_bound (n + 3) 4 ltac:(lia)).
  replace (o + n + 3) with (n + 3 + (o / 4) * 4) by lia. rewrite Z.div_add by done.
  rewrite i32_small by lia. lia.
Qed.

Lemma next_tag_begin o n s :
  at_ o (enc_head n) -> nz n -> o mod 4 = 0 ->
  fdt_next_tag fdt blob o s = Ret (FDT_BEGIN_NODE, o + bytes_len (enc_head n)) s.
Proof.
  intros Hat Hnz Hm. pose proof (at_small _ _ Hat) as [Ho Hlt]. pose proof Hat as (_ & _ & Hle).
  unfold enc_head in *. rewrite bytes_len_app, be32_len, pad_len in *.
  apply at_app in Hat as [Htag Hname]. apply at_app in Hname as [Hname _]. rewrite be32_len in Hname.
  pose proof (at_word o FDT_BEGIN_NODE ltac:(by split) Htag) as Hw. rewrite bytes_len_app in *.
  change (bytes_len [0]) with 1 in *. pose proof (bytes_len_nonneg n).
  pose proof Hname as (_ & _ & Hle'). rewrite bytes_len_app in Hle'. change (bytes_len [0]) with 1 in Hle'.
  pose proof (offsets_range fdt blob Hfr) as (Hso & Hsz & Hb). pose proof Hfr as [Ha Hl _ _ _].
  rewrite (next_tag_from fdt blob Hfr o (Some (o + 4 + (bytes_len n + 1))) s); [|lia|lia| |by intros x [= <-]; lia].
  - rewrite (proj2 (Z.leb_le _ _)) by lia. rewrite Hw, align_after; [do 2 f_equal; lia|lia..|by apply mod4_add].
  - rewrite Hw. unfold tag_end. rewrite Z.eqb_refl.
    rewrite (bind_run _ _ _ _ _ (skip_name_exact n (scan_fuel blob) (o + 4) s Hnz Hname
      ltac:(unfold scan_fuel, bytes_len in *; lia))).
    rewrite (proj2 (Z.eqb_neq _ _)) by lia. unfold ret. do 2 f_equal. lia.
Qed.

Lemma next_tag_prop o p s :
  at_ o (enc_prop p) -> o mod 4 = 0 ->
  fdt_next_tag fdt blob o s = Ret (FDT_PROP, o + bytes_len (enc_prop p)) s.
Proof.
  intros Hat Hm. pose proof (at_small _ _ Hat) as [Ho Hlt]. pose proof Hat as (_ & _ & Hle).
  pose proof (offsets_range fdt blob Hfr) as (Hso & Hsz & Hb). pose proof Hfr as [Ha Hl _ _ _].
  unfold enc_prop in *. rewrite !bytes_len_app, !be32_len, pad_len in *.
  apply at_app in Hat as [Htag Hrest]. apply at_app in Hrest as [Hlen _]. rewrite be32_len in Hlen.
  pose proof (at_word o FDT_PROP ltac:(by split) Htag) as Hw.
  set (n := bytes_len (p_value p)) in *. assert (Hn : 0 <= n) by apply bytes_len_nonneg.
  pose proof (Z.div_mod (n + 3) 4 ltac:(lia)). pose proof (Z.mod_pos_bound (n + 3) 4 ltac:(lia)).
  assert (Hwl : sword blob (o + 4) = n) by (apply at_word; [unfold is_u32; lia|done]).
  rewrite (next_tag_from fdt blob Hfr o (Some (o + 4 + 8 + n)) s); [|lia|lia| |intros x [= <-]; lia].
  - rewrite (proj2 (Z.leb_le _ _)) by lia. rewrite Hw, align_after; [do 2 f_equal; lia|lia..|].
    rewrite <- Z.add_assoc. by apply mod4_add.
  - rewrite Hw. unfold tag_end. change (FDT_PROP =? FDT_BEGIN_NODE) with false. rewrite Z.eqb_refl.
    rewrite (bind_run _ _ _ _ _ (offset_ptr_run fdt blob Hfr (o + 4) 4 s ltac:(lia) ltac:(lia))).
    rewrite (proj2 (Z.leb_le _ _)), (proj2 (Z.eqb_neq (fdt + so + (o + 4)) 0)) by lia.
    unfold bind. rewrite (load32_run fdt blob Hfr _ (so + (o + 4)) s) by lia.
    change (word_at blob (so + (o + 4))) with (sword blob (o + 4)). by rewrite Hwl, i32_small by lia.
Qed.

Lemma next_tag_mark o t s :
  at_ o (be32 t) -> o mod 4 = 0 -> t = FDT_END \/ t = FDT_END_NODE \/ t = FDT_NOP ->
  fdt_next_tag fdt blob o s = Ret (t, o + 4) s.
Proof.
  intros Hat Hm Ht. pose proof (at_small _ _ Hat) as [Ho Hlt]. pose proof Hat as (_ & _ & Hle).
  rewrite be32_len in *. pose proof (offsets_range fdt blob Hfr) as (Hso & Hsz & Hb).
  assert (Hw : sword blob o = t) by (apply at_word; [|done]; by destruct Ht as [-> | [-> | ->]]).
  pose proof Hfr as [Ha Hl _ _ _].
  rewrite (next_tag_from fdt blob Hfr o (Some (o + 4)) s); [|lia|lia| |intros x [= <-]; lia].
  - rewrite (proj2 (Z.leb_le _ _)) by lia. rewrite Hw. replace (o + 4) with (o + 4 + 0) by lia.
    rewrite align_after; [change ((0 + 3) / 4) with 0; do 2 f_equal; lia|lia..|by apply mod4_add].
  - rewrite Hw. unfold tag_end. by destruct Ht as [-> | [-> | ->]].
Qed.

(** ** The walk *)

(** The rest of the structure block behind a position: the remaining children
    of the node the position is in, of its parent, and so on. *)
Definition stack : Type := list (list tree).
Fixpoint enc_rest (st : stack) : list Z :=
  match st with
  | [] => be32 FDT_END
  | ks :: st' => enc_kids ks ++ be32 FDT_END_NODE ++ enc_rest st'
  end.
(** The next node behind a position and the depth there. *)
Fixpoint succ (o : Z) (d : option Z) (st : stack) : Z * option Z :=
  match st with
  | [] => (- FDT_ERR_NOTFOUND, d)
  | [] :: st' =>
      let d' := option_map (fun d => d - 1) d in
      if default 0 d' <? 0 then (o + 4, d') else succ (o + 4) d' st'
  | (_ :: _) :: _ => (o, option_map (fun d => d + 1) d)
  end.
Definition wf_stack (st : stack) : Prop := Forall (Forall (wf_tree blob)) st.

Lemma enc_rest_node n ps ks st :
  enc (Node n ps ks) ++ enc_rest st = enc_head n ++ enc_props ps ++ enc_rest (ks :: st).
Proof. rewrite enc_node. cbn [enc_rest]. by rewrite <- !app_assoc. Qed.
Lemma enc_kids_cons k ks : enc_kids (k :: ks) = enc k ++ enc_kids ks.
Proof. done. Qed.

Lemma at_fuel o l : at_ o l -> sz - o < 4 * Z.of_nat 0 -> False.
Proof. intros (_ & _ & H). pose proof (bytes_len_nonneg l). lia. Qed.

Lemma loop_succ st f o d s :
  at_ o (enc_rest st) -> wf_stack st -> o mod 4 = 0 -> sz - o < 4 * Z.of_nat f ->
  next_node_loop fdt blob f o d s = Ret (succ o d st) s.
Proof.
  revert f o d. induction st as [|ks st IH]; intros f o d Hat Hwf Hm Hf;
    (destruct f as [|f]; [exfalso; exact (at_fuel _ _ Hat Hf)|]); cbn [next_node_loop succ enc_rest] in *.
  - rewrite (bind_run _ _ _ _ _ (next_tag_mark o FDT_END s Hat Hm ltac:(by left))).
    cbn. destruct Hat as (_ & Ho & _). by rewrite (proj2 (Z.geb_le _ _)) by lia.
  - apply Forall_cons in Hwf as [Hks Hst]. destruct ks as [|k ks].
    + cbn [enc_kids map concat app] in Hat. apply at_app in Hat as [Htag Hrest].
      rewrite (bind_run _ _ _ _ _ (next_tag_mark o FDT_END_NODE s Htag Hm ltac:(by right; left))).
      cbn. destruct (_ <? 0); [done|]. apply IH; [done|done|by apply mod4_add|lia].
    + rewrite enc_kids_cons in Hat. apply Forall_cons in Hks as [Hk _]. destruct k as [n ps kk].
      apply wf_node in Hk as (Hn & _). rewrite enc_node, <- !app_assoc in Hat. apply at_app in Hat as [Hat _].
      by rewrite (bind_run _ _ _ _ _ (next_tag_begin o n s Hat Hn Hm)).
Qed.

(** Properties are passed over. *)
Lemma loop_props ps f o d s R :
  (forall f', sz - (o + bytes_len (enc_props ps)) < 4 * Z.of_nat f' ->
     next_node_loop fdt blob f' (o + bytes_len (enc_props ps)) d s = R) ->
  at_ o (enc_props ps) -> o mod 4 = 0 -> sz - o < 4 * Z.of_nat f ->
  next_node_loop fdt blob f o d s = R.
Proof.
  revert f o. induction ps as [|p ps IH]; intros f o HR Hat Hm Hf.
  - change (bytes_len (enc_props [])) with 0 in HR. rewrite Z.add_0_r in HR. by apply HR.
  - destruct f as [|f]; [exfalso; exact (at_fuel _ _ Hat Hf)|].
    cbn [next_node_loop]. change (enc_props (p :: ps)) with (enc_prop p ++ enc_props ps) in *.
    apply at_app in Hat as [Hp Hat]. rewrite bytes_len_app, Z.add_assoc in HR.
    rewrite (bind_run _ _ _ _ _ (next_tag_prop o p s Hp Hm)). cbn [Z.eqb Pos.eqb FDT_PROP FDT_BEGIN_NODE FDT_END_NODE FDT_END].
    apply IH; [exact HR|done|auto with mod4|].
    assert (4 <= bytes_len (enc_prop p)); [|lia].
    unfold enc_prop. rewrite !bytes_len_app, !be32_len. pose proof (bytes_len_nonneg (pad (p_value p))). lia.
Qed.

(** Where the children of a node begin. *)
Definition body_off (o : Z) (t : tree) : Z :=
  o + bytes_len (enc_head (t_name t)) + bytes_len (enc_props (t_props t)).

(** [fdt_next_node] at a node. *)
Lemma next_node_succ o t st d s :
  at_ o (enc t ++ enc_rest st) -> wf_tree blob t -> wf_stack st -> o mod 4 = 0 ->
  fdt_next_node fdt blob o d s = Ret (succ (body_off o t) d (t_kids t :: st)) s.
Proof.
  destruct t as [n ps ks]. rewrite wf_node, enc_rest_node. intros Hat (Hn & _ & Hks) Hst Hm.
  apply at_app in Hat as [Hh Hat]. apply at_app in Hat as [Hps Hat].
  pose proof (at_small _ _ Hh) as [Ho Hlt]. pose proof Hh as (_ & _ & Hle).
  pose proof Hfr as [Ha Hl _ _ _]. pose proof (offsets_range fdt blob Hfr) as (Hso & Hsz & Hb).
  pose proof (bytes_len_nonneg (enc_head n)).
  unfold fdt_next_node, _fdt_check_node_offset, _fdt_check_offset.
  rewrite (proj2 (Z.geb_le _ _)), (proj2 (Z.ltb_ge _ _)), u32_small by (unfold is_u32; lia).
  unfold FDT_TAGSIZE. rewrite Hm. cbn [truth Z.eqb negb orb].
  unfold bind at 1. rewrite (bind_run _ _ _ _ _ (next_tag_begin o n s Hh Hn Hm)), Z.eqb_refl.
  unfold ret at 1. rewrite (proj2 (Z.ltb_ge _ _)) by lia. unfold body_off; cbn [t_name t_props t_kids].
  apply (loop_props ps); [|done|auto with mod4|unfold scan_fuel; lia].
  intros f' Hf'. apply loop_succ; [done|by apply Forall_cons|auto with mod4|lia].
Qed.

(** A node of the tree at its offset, with what follows it. *)
Record located (o : Z) (t : tree) (st : stack) : Prop := {
  lc_at : at_ o (enc t ++ enc_rest st);
  lc_wf : wf_tree blob t;
  lc_stack : wf_stack st;
  lc_aligned : o mod 4 = 0;
}.

Lemma located_small o t st : located o t st -> 0 <= o /\ o + 4 <= sz /\ sz < 2 ^ 30.
Proof.
  intros [Hat _ _ _]. destruct t as [n ps ks]. rewrite enc_rest_node in Hat. apply at_app in Hat as [Hat _].
  unfold enc_head in Hat. apply at_app in Hat as [(_ & Ho & Hle) _]. rewrite be32_len in Hle.
  pose proof (offsets_range fdt blob Hfr). destruct Hfr. lia.
Qed.

(** The position behind the name and the properties of a node. *)
Lemma located_body o t st :
  located o t st ->
  at_ (body_off o t) (enc_rest (t_kids t :: st)) /\ wf_stack (t_kids t :: st) /\
  body_off o t mod 4 = 0 /\ o + 4 <= body_off o t.
Proof.
  intros [Hat Hwf Hst Hm]. destruct t as [n ps ks]. rewrite enc_rest_node, !at_app in Hat.
  apply wf_node in Hwf as (_ & _ & Hks). unfold body_off. cbn [t_name t_props t_kids].
  destruct Hat as (_ & _ & Hat). split_and!; [done|by apply Forall_cons|auto with mod4|].
  unfold enc_head. rewrite bytes_len_app, be32_len. pose proof (bytes_len_nonneg (pad (n ++ [0]))).
  pose proof (bytes_len_nonneg (enc_props ps)). lia.
Qed.
(** The first of the remaining children at a position. *)
Lemma located_first o k ks st :
  at_ o (enc_rest ((k :: ks) :: st)) -> wf_stack ((k :: ks) :: st) -> o mod 4 = 0 ->
  located o k (ks :: st).
Proof.
  intros Hat Hst Hm. apply Forall_cons in Hst as [Hks Hst]. apply Forall_cons in Hks as [Hk Hks].
  split; [|done|by apply Forall_cons|done].
  cbn [enc_rest] in *. by rewrite enc_kids_cons, <- app_assoc in Hat.
Qed.
Lemma located_up o st :
  at_ o (enc_rest ([] :: st)) -> wf_stack ([] :: st) -> o mod 4 = 0 ->
  at_ (o + 4) (enc_rest st) /\ wf_stack st /\ (o + 4) mod 4 = 0.
Proof.
  intros Hat Hst Hm. cbn [enc_rest enc_kids map concat app] in Hat. apply at_app in Hat as [_ Hat].
  apply Forall_cons in Hst as [_ Hst]. split_and!; [done|done|by apply mod4_add].
Qed.
Lemma next_node_located o t st d s :
  located o t st -> fdt_next_node fdt blob o d s = Ret (succ (body_off o t) d (t_kids t :: st)) s.
Proof. intros []. by apply next_node_succ. Qed.

(** ** Children *)

Definition or_notfound (ks : list tree) (o : Z) : Z :=
  match ks with [] => - FDT_ERR_NOTFOUND | _ => o end.

Lemma first_subnode_run o t st s :
  located o t st -> fdt_first_subnode fdt blob o s = Ret (or_notfound (t_kids t) (body_off o t)) s.
Proof.
  intros Hl. unfold fdt_first_subnode. rewrite (bind_run _ _ _ _ _ (next_node_located _ _ _ _ _ Hl)).
  destruct (located_body _ _ _ Hl) as (_ & _ & _ & Hb). destruct (located_small _ _ _ Hl) as (Ho & _).
  destruct (t_kids t); cbn.
  - change (0 - 1 <? 0) with true. cbn. by rewrite orb_true_r.
  - by rewrite (proj2 (Z.ltb_ge _ _)) by lia.
Qed.

(** What remains of some nodes that are still open. *)
Fixpoint enc_levels (l : stack) : list Z :=
  match l with [] => [] | ks :: l' => enc_kids ks ++ be32 FDT_END_NODE ++ enc_levels l' end.

(** From a node [length l] levels below a child, the loop of
    [fdt_next_subnode] reaches the next child. *)
Lemma next_subnode_loop_run f o t l sibs st s :
  located o t (l ++ sibs :: st) -> sz - o < 4 * Z.of_nat f ->
  next_subnode_loop fdt blob f o (1 + bytes_len l) s =
    Ret (or_notfound sibs (o + bytes_len (enc t) + bytes_len (enc_levels l))) s.
Proof.
  revert o t l. induction f as [|f IH]; intros o t l Hloc Hf.
  { destruct (located_small _ _ _ Hloc). lia. }
  cbn [next_subnode_loop]. rewrite (bind_run _ _ _ _ _ (next_node_located _ _ _ _ _ Hloc)).
  pose proof (located_body _ _ _ Hloc) as (Hat & Hwf & Hm & Hb).
  assert (Hlen : o + bytes_len (enc t) + bytes_len (enc_levels l) =
    body_off o t + bytes_len (enc_levels (t_kids t :: l))).
  { destruct t as [n ps ks]. unfold body_off. cbn [t_name t_props t_kids enc_levels].
    rewrite enc_node, !bytes_len_app. lia. }
  rewrite Hlen. clear Hlen.
  assert (Hlo : 0 <= body_off o t /\ sz - body_off o t < 4 * Z.of_nat f)
    by (destruct (located_small _ _ _ Hloc); lia).
  replace (1 + bytes_len l) with (bytes_len (t_kids t :: l)) by (by rewrite bytes_len_cons).
  change (t_kids t :: l ++ sibs :: st) with ((t_kids t :: l) ++ sibs :: st) in *.
  clear Hb. revert Hwf. generalize dependent (body_off o t). generalize (t_kids t :: l). clear Hloc Hf o t l.
  induction l as [|ks l IHl]; intros b Hat Hm [Hb0 Hfb] Hwf.
  - cbn [app] in *. change (bytes_len (enc_levels [])) with 0. rewrite Z.add_0_r.
    destruct sibs; cbn; [change (bytes_len (@nil (list tree)) - 1 <? 0) with true; cbn; by rewrite orb_true_r|]. by rewrite (proj2 (Z.ltb_ge _ _)) by lia.
  - cbn [app] in *. destruct ks as [|k ks].
    + cbn [succ option_map default]. rewrite bytes_len_cons. pose proof (bytes_len_nonneg l).
      replace (1 + bytes_len l - 1) with (bytes_len l) by lia. cbn [default from_option id].
      rewrite (proj2 (Z.ltb_ge (bytes_len l) 0)) by lia.
      destruct (located_up _ _ Hat Hwf Hm) as (Hat' & Hwf' & Hm').
      rewrite IHl by (done || lia). cbn [enc_levels enc_kids map concat app].
      rewrite bytes_len_app, be32_len. do 2 f_equal. lia.
    + cbn [succ option_map default from_option id]. rewrite (proj2 (Z.ltb_ge b 0)) by lia.
      rewrite bytes_len_cons. pose proof (bytes_len_nonneg l).
      rewrite (proj2 (Z.ltb_ge _ 1)), (proj2 (Z.gtb_lt _ 1)) by lia. cbn [orb].
      replace (1 + bytes_len l + 1) with (1 + bytes_len (ks :: l)) by (rewrite bytes_len_cons; lia).
      rewrite (IH b k (ks :: l)); [|by apply located_first|done].
      cbn [enc_levels]. rewrite enc_kids_cons, !bytes_len_app. do 2 f_equal. lia.
Qed.

Lemma next_subnode_run o t sibs st s :
  located o t (sibs :: st) ->
  fdt_next_subnode fdt blob o s = Ret (or_notfound sibs (o + bytes_len (enc t))) s.
Proof.
  intros Hl. unfold fdt_next_subnode. destruct (located_small _ _ _ Hl) as (Ho & Hsz & ?).
  pose proof (offsets_range fdt blob Hfr) as (? & ? & ?).
  rewrite (next_subnode_loop_run _ o t [] sibs st s Hl) by (unfold scan_fuel; lia).
  change (bytes_len (enc_levels [])) with 0. by rewrite Z.add_0_r.
Qed.

(** The offsets of the children. *)
Fixpoint kid_offs (b : Z) (l : list tree) : list Z :=
  match l with
  | [] => []
  | k :: l' => b :: kid_offs (b + bytes_len (enc k)) l'
  end.
Lemma subnodes_loop_run ks b f st (body : Z -> M S unit) s :
  at_ b (enc_rest (ks :: st)) -> wf_stack (ks :: st) -> b mod 4 = 0 -> sz - b < 4 * Z.of_nat f ->
  subnodes_loop fdt blob f (or_notfound ks b) body s = for_each (kid_offs b ks) body s.
Proof.
  revert b f s. induction ks as [|k ks IH]; intros b f s Hat Hst Hm Hf;
    (destruct f as [|f]; [exfalso; exact (at_fuel _ _ Hat Hf)|]); [done|].
  pose proof (located_first _ _ _ _ Hat Hst Hm) as Hl. destruct (located_small _ _ _ Hl) as (Ho & Hsz & _).
  destruct (located_body _ _ _ Hl) as (_ & _ & _ & Hbody).
  cbn [subnodes_loop or_notfound kid_offs for_each]. rewrite (proj2 (Z.geb_le _ _)) by lia.
  unfold bind. destruct (body b s) as [[] s'| | |]; [|done..]. rewrite (next_subnode_run _ _ _ _ s' Hl).
  apply IH; [| |auto with mod4|].
  - cbn [enc_rest] in *. rewrite enc_kids_cons, <- app_assoc in Hat. by apply at_app in Hat as [_ Hat].
  - apply Forall_cons in Hst as [Hks Hst]. apply Forall_cons in Hks as [_ Hks]. by apply Forall_cons.
  - assert (4 <= bytes_len (enc k)); [|lia]. destruct k as [n ps kk].
    rewrite enc_node. unfold enc_head. rewrite !bytes_len_app, be32_len.
    pose proof (bytes_len_nonneg (pad (n ++ [0]))). pose proof (bytes_len_nonneg (enc_props ps)).
    pose proof (bytes_len_nonneg (enc_kids kk)). pose proof (bytes_len_nonneg (be32 FDT_END_NODE)). lia.
Qed.
(** The iteration over the children is the iteration over their offsets. *)
Lemma for_each_subnode_run o t st (body : Z -> M S unit) s :
  located o t st ->
  fdt_for_each_subnode fdt blob o body s = for_each (kid_offs (body_off o t) (t_kids t)) body s.
Proof.
  intros Hl. unfold fdt_for_each_subnode. rewrite (bind_run _ _ _ _ _ (first_subnode_run _ _ _ s Hl)).
  destruct (located_body _ _ _ Hl) as (Hat & Hwf & Hm & Hb). destruct (located_small _ _ _ Hl) as (Ho & Hsz & _).
  pose proof (offsets_range fdt blob Hfr).
  apply subnodes_loop_run with st; [done..|unfold scan_fuel; lia].
Qed.

(** ** Strings *)

Lemma has_load8 i b l s : has blob i (b :: l) -> load8 fdt blob (fdt + i) s = Ret b s.
Proof.
  intros H. pose proof (has_bounds _ _ _ H) as [Hi Hl]. rewrite bytes_len_cons in Hl.
  pose proof (bytes_len_nonneg l). apply has_cons in H as [<- _].
  apply load8_run; [done|unfold bytes_len in *; lia|done].
Qed.
Lemma has_step i b l : has blob i (b :: l) -> has blob (i + 1) l /\ u32 (fdt + i + 1) = fdt + (i + 1).
Proof.
  intros H. pose proof (has_bounds _ _ _ H) as [Hi Hl]. rewrite bytes_len_cons in Hl.
  pose proof (bytes_len_nonneg l). apply has_cons in H as [_ H]. split; [done|].
  destruct Hfr as [Ha Hl' _ _ _]. unfold bytes_len in *. rewrite u32_small; [lia|unfold is_u32; lia].
Qed.
Lemma cstring_has f i l r s :
  nz l -> has blob i (l ++ 0 :: r) -> (length l < f)%nat ->
  cstring_upto fdt blob f (fdt + i) s = Ret l s.
Proof.
  intros Hnz. revert f i. induction Hnz as [|b l Hb _ IH]; intros f i H Hf;
    (destruct f as [|f]; [cbn in Hf; lia|]); cbn [cstring_upto app] in *;
    rewrite (bind_run _ _ _ _ _ (has_load8 _ _ _ s H)); [done|].
  rewrite (proj2 (Z.eqb_neq b 0)) by done. destruct (has_step _ _ _ H) as [H' ->].
  by rewrite (bind_run _ _ _ _ _ (IH f (i + 1) H' ltac:(cbn in Hf; lia))).
Qed.
Lemma strlen_has i l r s :
  nz l -> has blob i (l ++ 0 :: r) -> strlen fdt blob (fdt + i) s = Ret (bytes_len l) s.
Proof.
  intros Hnz H. unfold strlen, cstring. pose proof (has_bounds _ _ _ H) as [Hi Hl].
  rewrite bytes_len_app in Hl. pose proof (bytes_len_nonneg (0 :: r)). unfold bytes_len in *.
  by rewrite (bind_run _ _ _ _ _ (cstring_has (Datatypes.S (length blob)) i l r s Hnz H ltac:(lia))).
Qed.
(** Comparing with as many bytes as there are. *)
Lemma memcmp_has i l r l' s :
  has blob i (l ++ r) -> length l = length l' ->
  memcmp_eq fdt blob (fdt + i) l' s = Ret (bool_decide (l = l')) s.
Proof.
  revert i l'. induction l as [|b l IH]; intros i [|b' l'] H Hlen; try done. cbn [memcmp_eq app] in *.
  rewrite (bind_run _ _ _ _ _ (has_load8 _ _ _ s H)). destruct (has_step _ _ _ H) as [H' ->].
  destruct (Z.eqb_spec b b') as [->|Hne].
  - rewrite IH by (done || by injection Hlen). f_equal. apply bool_decide_ext. naive_solver.
  - rewrite bool_decide_eq_false_2 by congruence. done.
Qed.

Lemma string_eq_run p name s :
  wf_prop blob p -> p_nameoff p < 2 ^ 30 ->
  _fdt_string_eq fdt blob (p_nameoff p) name s = Ret (bool_decide (p_name p = name)) s.
Proof.
  intros (Hnz & H0 & Hhas) Hs. unfold _fdt_string_eq, fdt_string, fdt_off_dt_strings.
  pose proof (has_bounds _ _ _ Hhas) as [Hi Hl]. pose proof (word_range fdt blob Hfr 12) as Hw.
  pose proof (bytes_len_nonneg (p_name p ++ [0])). pose proof Hfr as [Ha Hlen _ _ _].
  unfold bind at 1 2. rewrite (header_run fdt blob Hfr 12 s) by lia.
  unfold ret at 1. unfold bytes_len in *. rewrite u32_small by (unfold is_u32 in *; lia).
  rewrite <- Z.add_assoc.
  rewrite (bind_run _ _ _ _ _ (strlen_has _ _ [] s Hnz Hhas)).
  destruct (Z.eqb_spec (bytes_len (p_name p)) (Z.of_nat (length name))) as [He|Hne].
  - apply memcmp_has with [0]; [done|unfold bytes_len in *; lia].
  - rewrite bool_decide_eq_false_2; [done|]. intros <-. by apply Hne.
Qed.

(** ** Properties *)

Definition prop_entry (o : Z) (ps : list prop) : Z := match ps with [] => - FDT_ERR_NOTFOUND | _ => o end.

Lemma nextprop_run ps ks st o s :
  at_ o (enc_props ps ++ enc_rest (ks :: st)) -> wf_stack (ks :: st) -> o mod 4 = 0 ->
  _nextprop fdt blob o s = Ret (prop_entry o ps) s.
Proof.
  intros Hat Hst Hm. unfold _nextprop. cbn [scan_fuel nextprop_loop]. destruct ps as [|p ps].
  - apply at_app in Hat as [_ Hat]. change (bytes_len (enc_props [])) with 0 in Hat. rewrite Z.add_0_r in Hat.
    apply Forall_cons in Hst as [Hks _]. destruct ks as [|k ks].
    + cbn [enc_rest enc_kids map concat app] in Hat. apply at_app in Hat as [Htag _].
      by rewrite (bind_run _ _ _ _ _ (next_tag_mark o FDT_END_NODE s Htag Hm ltac:(by right; left))).
    + apply Forall_cons in Hks as [Hk _]. destruct k as [n ps' kk]. apply wf_node in Hk as (Hn & _).
      cbn [enc_rest] in Hat. rewrite enc_kids_cons, enc_node, <- !app_assoc in Hat. apply at_app in Hat as [Hat _].
      by rewrite (bind_run _ _ _ _ _ (next_tag_begin o n s Hat Hn Hm)).
  - change (enc_props (p :: ps)) with (enc_prop p ++ enc_props ps) in Hat. rewrite <- app_assoc in Hat.
    apply at_app in Hat as [Hp _]. by rewrite (bind_run _ _ _ _ _ (next_tag_prop o p s Hp Hm)).
Qed.

Lemma check_prop_run o p s :
  at_ o (enc_prop p) -> o mod 4 = 0 ->
  _fdt_check_prop_offset fdt blob o s = Ret (o + bytes_len (enc_prop p)) s.
Proof.
  intros Hat Hm. pose proof (at_small _ _ Hat) as [Ho Hlt]. pose proof (bytes_len_nonneg (enc_prop p)).
  unfold _fdt_check_prop_offset, _fdt_check_offset.
  rewrite (proj2 (Z.ltb_ge _ _)), u32_small by (unfold is_u32; lia).
  unfold FDT_TAGSIZE. rewrite Hm. cbn [truth Z.eqb negb orb].
  by rewrite (bind_run _ _ _ _ _ (next_tag_prop o p s Hat Hm)), Z.eqb_refl.
Qed.

(** The fields of a property. *)
Lemma prop_fields o p :
  at_ o (enc_prop p) -> wf_prop blob p ->
  (forall s, fdt32_to_cpu fdt blob (fdt + so + o + 4) s = Ret (bytes_len (p_value p)) s) /\
  (forall s, fdt32_to_cpu fdt blob (fdt + so + o + 8) s = Ret (u32 (p_nameoff p)) s) /\
  has blob (so + o + 12) (p_value p) /\ 0 <= bytes_len (p_value p) < 2 ^ 30 /\ p_nameoff p < 2 ^ 30.
Proof.
  intros Hat (_ & Hn0 & Hname). pose proof (at_small _ _ Hat) as [Ho Hlt].
  pose proof (offsets_range fdt blob Hfr) as (Hso & Hsz & Hb). pose proof Hfr as [Ha Hl _ _ _].
  destruct (has_bounds _ _ _ Hname) as [_ Hnb]. pose proof (bytes_len_nonneg (p_name p ++ [0])).
  pose proof (word_range fdt blob Hfr 12) as Hw. unfold bytes_len at 2 in Hnb.
  assert (Hn : p_nameoff p < 2 ^ 30) by (unfold is_u32 in *; lia).
  pose proof Hat as (_ & _ & Hle).
  unfold enc_prop in Hat, Hlt, Hle. rewrite !bytes_len_app, !be32_len, pad_len in Hlt, Hle.
  set (n := bytes_len (p_value p)) in *. assert (0 <= n) by apply bytes_len_nonneg.
  pose proof (Z.div_mod (n + 3) 4 ltac:(lia)). pose proof (Z.mod_pos_bound (n + 3) 4 ltac:(lia)).
  rewrite !at_app, !be32_len in Hat. destruct Hat as (_ & (Hh1 & _) & (Hh2 & _) & (Hh3 & _)).
  split_and!; [| | |lia|lia|done].
  - intros s. rewrite (load32_run fdt blob Hfr _ (so + (o + 4)) s) by lia.
    rewrite (word_be32 blob _ n); [done|unfold is_u32; lia|done].
  - intros s. rewrite (load32_run fdt blob Hfr _ (so + (o + 4 + 4)) s) by lia.
    rewrite (word_be32 blob _ (p_nameoff p)); [by rewrite u32_small by (unfold is_u32; lia)|unfold is_u32; lia|done].
  - unfold pad in Hh3. apply has_prefix in Hh3. by replace (so + o + 12) with (so + (o + 4 + 4 + 4)) by lia.
Qed.

(** The first property with a name, and its offset. *)
Fixpoint prop_at (name : list Z) (o : Z) (ps : list prop) : option (Z * prop) :=
  match ps with
  | [] => None
  | p :: ps' =>
      if bool_decide (p_name p = name) then Some (o, p) else prop_at name (o + bytes_len (enc_prop p)) ps'
  end.
Lemma prop_at_find name o ps : option_map snd (prop_at name o ps) = find_prop name ps.
Proof.
  revert o. induction ps as [|p ps IH]; intros o; [done|]. cbn. unfold find_prop. cbn.
  destruct (bool_decide (p_name p = name)); [done|apply IH].
Qed.

Lemma get_property_loop_run f ps ks st o name s :
  at_ o (enc_props ps ++ enc_rest (ks :: st)) -> Forall (wf_prop blob) ps -> wf_stack (ks :: st) ->
  o mod 4 = 0 -> sz - o < 4 * Z.of_nat f ->
  get_property_loop fdt blob f (prop_entry o ps) name s =
    Ret (match prop_at name o ps with
         | Some (po, p) => (fdt + so + po, bytes_len (p_value p))
         | None => (0, - FDT_ERR_NOTFOUND)
         end) s.
Proof.
  intros Hat Hps Hst. revert f o Hat. induction Hps as [|p ps Hp _ IH]; intros f o Hat Hm Hf;
    (destruct f as [|f]; [exfalso; exact (at_fuel _ _ Hat Hf)|]); [done|].
  cbn [prop_entry prop_at]. pose proof (at_small _ _ Hat) as [Ho _].
  change (enc_props (p :: ps)) with (enc_prop p ++ enc_props ps) in Hat. rewrite <- app_assoc in Hat.
  apply at_app in Hat as [Hatp Hat]. pose proof (at_small _ _ Hatp) as [_ Hlt].
  pose proof (bytes_len_nonneg (enc_prop p)) as Hlp.
  pose proof (offsets_range fdt blob Hfr) as (Hso & Hsz & Hb). pose proof Hfr as [Ha Hl _ _ _].
  destruct (prop_fields o p Hatp Hp) as (Hlen & Hno & _ & Hlb & Hnb).
  assert (Hby : fdt_get_property_by_offset fdt blob o s = Ret (fdt + so + o, bytes_len (p_value p)) s).
  { unfold fdt_get_property_by_offset. rewrite (bind_run _ _ _ _ _ (check_prop_run o p s Hatp Hm)).
    rewrite (proj2 (Z.ltb_ge _ _)) by lia.
    unfold _fdt_offset_ptr, fdt_off_dt_struct, bind. rewrite (header_run fdt blob Hfr 8 s) by lia.
    fold (off_struct blob). unfold ret at 1. pose proof Hatp as (_ & _ & Hle).
    rewrite u32_small by (unfold is_u32; lia). rewrite (Hlen s). unfold ret. by rewrite i32_small by lia. }
  cbn [get_property_loop]. rewrite (proj2 (Z.geb_le _ _)) by lia.
  rewrite (bind_run _ _ _ _ _ Hby), (proj2 (Z.eqb_neq _ _)) by lia.
  rewrite (bind_run _ _ _ _ _ (Hno s)), u32_small by (destruct Hp as (_ & ? & _); unfold is_u32; lia).
  rewrite i32_small by (destruct Hp as (_ & ? & _); lia).
  rewrite (bind_run _ _ _ _ _ (string_eq_run p name s Hp Hnb)).
  destruct (bool_decide (p_name p = name)); [done|].
  unfold fdt_next_property_offset. unfold bind at 1.
  rewrite (bind_run _ _ _ _ _ (check_prop_run o p s Hatp Hm)), (proj2 (Z.ltb_ge _ _)) by lia.
  rewrite (nextprop_run ps ks st _ s Hat Hst ltac:(auto with mod4)).
  apply IH; [done|auto with mod4|].
  assert (4 <= bytes_len (enc_prop p)); [|lia].
  unfold enc_prop. rewrite !bytes_len_app, !be32_len. pose proof (bytes_len_nonneg (pad (p_value p))). lia.
Qed.

Lemma prop_at_in name o ps po p :
  Forall (wf_prop blob) ps -> at_ o (enc_props ps) -> prop_at name o ps = Some (po, p) ->
  at_ po (enc_prop p) /\ wf_prop blob p /\ po + bytes_len (enc_prop p) <= o + bytes_len (enc_props ps).
Proof.
  intros Hps. revert o. induction Hps as [|q ps Hq _ IH]; intros o Hat; [done|]. cbn [prop_at].
  change (enc_props (q :: ps)) with (enc_prop q ++ enc_props ps) in *. rewrite bytes_len_app.
  pose proof (bytes_len_nonneg (enc_props ps)).
  apply at_app in Hat as [Hatq Hat]. destruct (bool_decide _).
  - intros [= <- <-]. split_and!; [done..|lia].
  - intros Hp. destruct (IH _ Hat Hp) as (H1 & H2 & H3). split_and!; [done..|lia].
Qed.

(** The search over the properties of a node. *)
Lemma get_property_run o t st name s :
  located o t st ->
  fdt_get_property fdt blob o name s =
    Ret (match prop_at name (o + bytes_len (enc_head (t_name t))) (t_props t) with
         | Some (po, p) => (fdt + so + po, bytes_len (p_value p))
         | None => (0, - FDT_ERR_NOTFOUND)
         end) s.
Proof.
  intros Hl. destruct (located_small _ _ _ Hl) as (Ho & Hsz & Hs30). destruct Hl as [Hat Hwf Hst Hm].
  destruct t as [n ps ks]. rewrite enc_rest_node in Hat. apply wf_node in Hwf as (Hn & Hps & Hks).
  apply at_app in Hat as [Hh Hat]. pose proof (at_small _ _ Hh) as [_ Hlt].
  assert (Hst' : wf_stack (ks :: st)) by (by apply Forall_cons).
  pose proof (bytes_len_nonneg (enc_head n)) as Hhl. pose proof (offsets_range fdt blob Hfr) as (Hso & Hsz' & Hb).
  unfold fdt_get_property, fdt_get_property_namelen, fdt_first_property_offset, _fdt_check_node_offset, _fdt_check_offset.
  rewrite (proj2 (Z.ltb_ge _ _)), u32_small by (unfold is_u32; lia).
  unfold FDT_TAGSIZE. rewrite Hm. cbn [truth Z.eqb negb orb t_name t_props]. unfold bind at 1 2.
  rewrite (bind_run _ _ _ _ _ (next_tag_begin o n s Hh Hn Hm)), Z.eqb_refl.
  unfold ret at 1. rewrite (proj2 (Z.ltb_ge _ _)) by lia.
  rewrite (nextprop_run ps ks st _ s Hat Hst' ltac:(auto with mod4)).
  apply get_property_loop_run with ks st; [done..|auto with mod4|unfold scan_fuel; lia].
Qed.
Lemma located_props o t st :
  located o t st ->
  at_ (o + bytes_len (enc_head (t_name t))) (enc_props (t_props t)) /\ Forall (wf_prop blob) (t_props t).
Proof.
  intros [Hat Hwf _ _]. destruct t as [n ps ks]. rewrite enc_rest_node, !at_app in Hat.
  apply wf_node in Hwf as (_ & Hps & _). by destruct Hat as (_ & Hat & _).
Qed.

(** At least two more tags follow the properties of a node. *)
Lemma props_room o t st :
  located o t st -> o + bytes_len (enc_head (t_name t)) + bytes_len (enc_props (t_props t)) + 8 <= sz.
Proof.
  intros [Hat _ _ _]. destruct t as [n ps ks]. rewrite enc_rest_node, !at_app in Hat. cbn [t_name t_props].
  destruct Hat as (_ & _ & _ & _ & Hle). cbn [enc_rest] in Hle. rewrite !bytes_len_app, be32_len in Hle.
  pose proof (bytes_len_nonneg (enc_kids ks)). assert (4 <= bytes_len (enc_rest st)); [|lia].
  destruct st as [|l st]; cbn [enc_rest]; rewrite ?bytes_len_app, be32_len; [lia|].
  pose proof (bytes_len_nonneg (enc_kids l)). pose proof (bytes_len_nonneg (enc_rest st)). lia.
Qed.
(** A property is found under its name, with its length, at a place that has its
    value; without one there is the error. *)
Lemma getprop_run o t st name :
  located o t st ->
  match value_of name t with
  | Some v => exists a, has blob a v /\ (bytes_len v < 2 ^ 30 /\ a + bytes_len v + 8 <= so + sz) /\
                forall s, fdt_getprop fdt blob o name s = Ret (fdt + a, bytes_len v) s
  | None => forall s, fdt_getprop fdt blob o name s = Ret (0, - FDT_ERR_NOTFOUND) s
  end.
Proof.
  intros Hl. destruct (located_props _ _ _ Hl) as [Hat Hps].
  assert (Hrun := fun s => get_property_run o t st name s Hl). unfold fdt_get_property in Hrun.
  pose proof (offsets_range fdt blob Hfr) as (Hso & Hsz' & Hb). pose proof Hfr as [Ha Hlen _ _ _].
  unfold value_of. rewrite <- (prop_at_find name (o + bytes_len (enc_head (t_name t)))).
  unfold fdt_getprop, fdt_getprop_namelen, bind.
  destruct (prop_at name _ _) as [[po p]|] eqn:Hp; cbn [option_map snd].
  - destruct (prop_at_in _ _ _ _ _ Hps Hat Hp) as (Hatp & Hwp & Hend). exists (so + po + 12).
    pose proof (at_small _ _ Hatp) as [Hpo _]. pose proof Hatp as (_ & _ & Hle). pose proof (props_room _ _ _ Hl) as Hroom.
    unfold enc_prop in Hle, Hend. rewrite !bytes_len_app, !be32_len in Hle, Hend.
    assert (bytes_len (p_value p) <= bytes_len (pad (p_value p))) by
      (unfold pad; rewrite bytes_len_app; pose proof (bytes_len_nonneg (replicate (Z.to_nat (- bytes_len (p_value p) mod 4)) 0)); lia).
    destruct (prop_fields po p Hatp Hwp) as (_ & _ & Hv & Hlv & _).
    split_and!; [done|lia|lia|]. intros s. rewrite Hrun, (proj2 (Z.eqb_neq _ _)) by lia.
    rewrite u32_small by (unfold is_u32; lia). unfold ret. do 2 f_equal. lia.
  - intros s. by rewrite Hrun.
Qed.
(** The pointer to a property is null when there is none. *)
Lemma get_property_null o t st name s :
  located o t st ->
  exists p len, fdt_get_property fdt blob o name s = Ret (p, len) s /\
    (p =? 0) = bool_decide (value_of name t = None).
Proof.
  intros Hl. destruct (located_props _ _ _ Hl) as [Hat Hps]. rewrite (get_property_run _ _ _ _ _ Hl).
  unfold value_of. rewrite <- (prop_at_find name (o + bytes_len (enc_head (t_name t)))).
  pose proof (offsets_range fdt blob Hfr) as (Hso & _). pose proof Hfr as [Ha _ _ _ _].
  destruct (prop_at name _ _) as [[po p]|] eqn:Hp; cbn [option_map snd]; eexists _, _; (split; [done|]); [|done].
  destruct (prop_at_in _ _ _ _ _ Hps Hat Hp) as [Hatp _]. pose proof (at_small _ _ Hatp).
  rewrite (proj2 (Z.eqb_neq _ _)) by lia. done.
Qed.

(** The name of a node. *)
Lemma get_name_run o t st s :
  located o t st ->
  exists p, fdt_get_name fdt blob o s = (err <- fdt_check_header fdt blob;; if truth err then ret (0, err) else ret (p, 0)) s /\
    p <> 0 /\ cstring fdt blob p s = Ret (t_name t) s.
Proof.
  intros Hl. destruct (located_small _ _ _ Hl) as (Ho & Hsz & Hs30). destruct Hl as [Hat Hwf Hst Hm].
  destruct t as [n ps ks]. rewrite enc_rest_node in Hat. apply wf_node in Hwf as (Hn & Hps & Hks).
  apply at_app in Hat as [Hh _]. pose proof (at_small _ _ Hh) as [_ Hlt].
  pose proof (offsets_range fdt blob Hfr) as (Hso & _ & Hb). pose proof Hfr as [Ha Hl _ _ _].
  pose proof (bytes_len_nonneg (enc_head n)).
  exists (fdt + (so + o + 4)). split_and!; [|lia|].
  - unfold fdt_get_name, _fdt_offset_ptr, fdt_off_dt_struct. unfold bind at 1 2.
    rewrite (header_run fdt blob Hfr 8 s) by lia. fold (off_struct blob). unfold ret at 1.
    unfold bind. destruct (fdt_check_header fdt blob s) as [err s'| | |]; [|done..].
    destruct (truth err); [done|].
    unfold _fdt_check_node_offset, _fdt_check_offset.
    rewrite (proj2 (Z.ltb_ge _ _)), (u32_small o) by (unfold is_u32; lia).
    unfold FDT_TAGSIZE. rewrite Hm. cbn [truth Z.eqb negb orb].
    rewrite (bind_run _ _ _ _ _ (next_tag_begin o n s' Hh Hn Hm)), Z.eqb_refl.
    unfold ret. rewrite (proj2 (Z.ltb_ge _ _)) by lia.
    rewrite (u32_small (fdt + so + o)), u32_small by (unfold is_u32; lia). do 2 f_equal. lia.
  - unfold enc_head in Hh. apply at_app in Hh as [_ Hh]. rewrite be32_len in Hh. destruct Hh as (Hh & _ & Hle).
    unfold pad in Hh. rewrite <- app_assoc in Hh. cbn [app] in Hh.
    replace (so + (o + 4)) with (so + o + 4) in Hh by lia. cbn [t_name].
    pose proof (has_bounds _ _ _ Hh) as [_ Hbd]. rewrite bytes_len_app, bytes_len_cons in Hbd.
    match type of Hh with has _ _ (_ ++ 0 :: ?r) => pose proof (bytes_len_nonneg r) end.
    eapply cstring_has; [done|exact Hh|unfold bytes_len in *; lia].
Qed.

(** A word of a value. *)
Lemma has_word a v i s :
  has blob a v -> 0 <= i -> i + 4 <= bytes_len v ->
  fdt32_to_cpu fdt blob (fdt + a + i) s = Ret (word_at v i) s.
Proof.
  intros H Hi Hl. destruct (has_bounds _ _ _ H) as [Ha Hb].
  rewrite (load32_run fdt blob Hfr _ (a + i) s) by (unfold bytes_len in *; lia). f_equal.
  destruct H as (p & q & -> & ->).
  assert (Hbyte : forall j, 0 <= j < bytes_len v -> byte_at (p ++ v ++ q) (bytes_len p + j) = byte_at v j).
  { intros j Hj. unfold byte_at, bytes_len in *. rewrite app_nth2, app_nth1 by lia. f_equal. lia. }
  unfold word_at. rewrite <- !Z.add_assoc. by rewrite !Hbyte by lia.
Qed.

(** ** Phandles *)

Definition word_prop (name : list Z) (t : tree) : option Z :=
  match value_of name t with
  | Some v => if bytes_len v =? 4 then Some (word_at v 0) else None
  | None => None
  end.
Definition phandle_of (t : tree) : Z :=
  default (default 0 (word_prop (chars "linux,phandle") t)) (word_prop (chars "phandle") t).

Lemma word_prop_run o t st name :
  located o t st ->
  exists p len, (forall s, fdt_getprop fdt blob o name s = Ret (p, len) s) /\
    match word_prop name t with
    | Some w => p <> 0 /\ len = 4 /\ forall s, fdt32_to_cpu fdt blob p s = Ret w s
    | None => p = 0 \/ len <> 4
    end.
Proof.
  intros Hl. pose proof (getprop_run _ _ _ name Hl) as Hrun. unfold word_prop.
  destruct (value_of name t) as [v|]; [|exists 0, (- FDT_ERR_NOTFOUND); by split; [|left]].
  destruct Hrun as (a & Ha & Hv & Hrun). exists (fdt + a), (bytes_len v). split; [done|].
  destruct (Z.eqb_spec (bytes_len v) 4) as [Hv4|]; [|by right].
  pose proof (has_bounds _ _ _ Ha) as [? _]. pose proof Hfr as [? _ _ _ _].
  split; [lia|]. split; [done|]. intros s. rewrite <- (Z.add_0_r (fdt + a)).
  apply has_word; [done|lia|lia].
Qed.
Lemma get_phandle_run o t st s :
  located o t st -> fdt_get_phandle fdt blob o s = Ret (phandle_of t) s.
Proof.
  intros Hl. unfold fdt_get_phandle, phandle_of.
  destruct (word_prop_run _ _ _ (chars "phandle") Hl) as (p & n & Hrun & Hp).
  destruct (word_prop_run _ _ _ (chars "linux,phandle") Hl) as (p' & n' & Hrun' & Hp').
  assert (Hbad : forall p n, p = 0 \/ n <> 4 -> (p =? 0) || negb (n =? 4) = true) by lia.
  rewrite (bind_run _ _ _ _ _ (Hrun s)). destruct (word_prop (chars "phandle") t) as [w|].
  - destruct Hp as (Hp0 & -> & Hw). by rewrite (proj2 (Z.eqb_neq _ _)) by done.
  - rewrite (Hbad _ _ Hp). rewrite (bind_run _ _ _ _ _ (Hrun' s)).
    destruct (word_prop (chars "linux,phandle") t) as [w|]; [|by rewrite (Hbad _ _ Hp')].
    destruct Hp' as (Hp0 & -> & Hw). by rewrite (proj2 (Z.eqb_neq _ _)) by done.
Qed.

(** ** All the nodes of a tree *)

Record place := mk_place {
  pl_off : Z; pl_depth : Z; pl_parent : Z; pl_tree : tree; pl_stack : stack;
}.
(** In the order of the blob.  [par] is the offset of the parent. *)
Fixpoint places (o d par : Z) (st : stack) (t : tree) : list place :=
  match t with
  | Node n ps ks =>
      mk_place o d par t st ::
      (fix go (b : Z) (l : list tree) : list place :=
         match l with
         | [] => []
         | k :: l' => places b (d + 1) o (l' :: st) k ++ go (b + bytes_len (enc k)) l'
         end) (body_off o t) ks
  end.
Fixpoint kid_places (b d par : Z) (st : stack) (l : list tree) : list place :=
  match l with
  | [] => []
  | k :: l' => places b d par (l' :: st) k ++ kid_places (b + bytes_len (enc k)) d par st l'
  end.
Lemma places_node o d par st t :
  places o d par st t = mk_place o d par t st :: kid_places (body_off o t) (d + 1) o st (t_kids t).
Proof.
  destruct t as [n ps ks]. cbn [places t_kids]. f_equal. generalize (body_off o (Node n ps ks)).
  induction ks as [|k ks IH]; intros b; [done|]. cbn [kid_places]. f_equal. apply IH.
Qed.

Definition pl_located (p : place) : Prop := located (pl_off p) (pl_tree p) (pl_stack p).

Lemma places_located t o d par st : located o t st -> Forall pl_located (places o d par st t).
Proof.
  revert o d par st. induction t as [n ps ks IH] using tree_ind'. intros o d par st Hl.
  rewrite places_node. apply Forall_cons. split; [done|].
  destruct (located_body _ _ _ Hl) as (Hat & Hwf & Hm & _).
  generalize dependent (body_off o (Node n ps ks)). cbn [t_kids] in *. clear Hl.
  induction IH as [|k ks Hk _ IHks]; intros b Hat Hm; [done|]. cbn [kid_places].
  apply Forall_app. split.
  - apply Hk. by apply located_first.
  - apply Forall_cons in Hwf as [Hks Hst]. apply Forall_cons in Hks as [_ Hks].
    apply IHks; [by apply Forall_cons| |auto with mod4].
    cbn [enc_rest] in *. rewrite enc_kids_cons, <- app_assoc in Hat. by apply at_app in Hat as [_ Hat].
Qed.

(** Each node is followed by the next one. *)
Definition dp (b : bool) (d : Z) : option Z := if b then Some d else None.
Definition nxt (b : bool) (p : place) : Z * option Z :=
  succ (body_off (pl_off p) (pl_tree p)) (dp b (pl_depth p)) (t_kids (pl_tree p) :: pl_stack p).
Fixpoint chain (b : bool) (r : Z * option Z) (L : list place) (e : Z * option Z) : Prop :=
  match L with
  | [] => r = e
  | p :: L' => r = (pl_off p, dp b (pl_depth p)) /\ chain b (nxt b p) L' e
  end.
Lemma chain_app b r L1 L2 m e : chain b r L1 m -> chain b m L2 e -> chain b r (L1 ++ L2) e.
Proof.
  revert r. induction L1 as [|p L1 IH]; intros r H1 H2; cbn in *; [by subst|].
  destruct H1 as [-> H1]. split; [done|by apply IH].
Qed.
Lemma dp_succ b d : option_map (fun d => d + 1) (dp b d) = dp b (d + 1).
Proof. by destruct b. Qed.
Lemma succ_up b o d st : 1 <= d -> succ o (dp b d) ([] :: st) = succ (o + 4) (dp b (d - 1)) st.
Proof. intros Hd. destruct b; cbn; [|done]. by rewrite (proj2 (Z.ltb_ge _ _)) by lia. Qed.

(** The children at depth [d + 1], from the position of the first to that
    behind the last. *)
Lemma chain_kids b ks o d par st :
  Forall (fun t => forall o d par st, 1 <= d ->
    chain b (o, dp b d) (places o d par st t) (succ (o + bytes_len (enc t)) (dp b (d - 1)) st)) ks ->
  0 <= d ->
  chain b (succ o (dp b d) (ks :: st)) (kid_places o (d + 1) par st ks)
    (succ (o + bytes_len (enc_kids ks)) (dp b d) ([] :: st)).
Proof.
  intros H Hd. revert o. induction H as [|k ks Hk _ IH]; intros o.
  - cbn [kid_places chain]. change (bytes_len (enc_kids [])) with 0. by rewrite Z.add_0_r.
  - cbn [kid_places]. rewrite enc_kids_cons, bytes_len_app, Z.add_assoc. eapply chain_app; [|apply IH].
    change (succ o (dp b d) ((k :: ks) :: st)) with (o, option_map (fun d => d + 1) (dp b d)).
    rewrite dp_succ. pose proof (Hk o (d + 1) par (ks :: st) ltac:(lia)) as Hc.
    by replace (d + 1 - 1) with d in Hc by lia.
Qed.
Lemma chain_tree b t o d par st :
  1 <= d -> chain b (o, dp b d) (places o d par st t) (succ (o + bytes_len (enc t)) (dp b (d - 1)) st).
Proof.
  revert o d par st. induction t as [n ps ks IH] using tree_ind'. intros o d par st Hd.
  rewrite places_node. split; [done|]. unfold nxt. cbn [pl_off pl_depth pl_tree pl_stack].
  pose proof (chain_kids b ks (body_off o (Node n ps ks)) d o st IH ltac:(lia)) as Hc.
  cbn [t_kids]. rewrite succ_up in Hc by done.
  replace (o + bytes_len (enc (Node n ps ks))) with
    (body_off o (Node n ps ks) + bytes_len (enc_kids ks) + 4); [done|].
  unfold body_off. cbn [t_name t_props]. rewrite enc_node, !bytes_len_app, be32_len. lia.
Qed.
(** The whole tree: behind the last node the walk ends. *)
Lemma chain_root b t :
  chain b (0, dp b 0) (places 0 0 (-1) [] t)
    (if b then (bytes_len (enc t), Some (-1)) else (- FDT_ERR_NOTFOUND, None)).
Proof.
  destruct t as [n ps ks]. rewrite places_node. split; [done|]. unfold nxt. cbn [pl_off pl_depth pl_tree pl_stack].
  pose proof (chain_kids b ks (body_off 0 (Node n ps ks)) 0 0 []) as Hc. cbn [t_kids].
  replace (if b then _ else _) with
    (succ (body_off 0 (Node n ps ks) + bytes_len (enc_kids ks)) (dp b 0) [[]]).
  - apply Hc; [|lia]. apply Forall_forall. intros k _. intros. by apply chain_tree.
  - destruct b; [|done]. cbn [succ dp option_map].
    change (default 0 (Some (0 - 1)) <? 0) with true. cbv iota. f_equal.
    unfold body_off. cbn [t_name t_props]. rewrite enc_node, !bytes_len_app, be32_len. lia.
Qed.

(** ** Lists of strings *)

Lemma memcmp_cstr i l r str s :
  nz l -> nz str -> has blob i (l ++ 0 :: r) ->
  memcmp_eq fdt blob (fdt + i) (str ++ [0]) s = Ret (bool_decide (l = str)) s.
Proof.
  intros Hl. revert i str. induction Hl as [|b l Hb _ IH]; intros i str Hs H; cbn [app] in H;
    destruct (has_step _ _ _ H) as [H' Hu]; (destruct Hs as [|c str Hc Hs]; cbn [app memcmp_eq]);
    rewrite (bind_run _ _ _ _ _ (has_load8 _ _ _ s H)).
  - done.
  - by rewrite (proj2 (Z.eqb_neq 0 c)).
  - by rewrite (proj2 (Z.eqb_neq b 0)).
  - rewrite Hu. destruct (Z.eqb_spec b c) as [->|Hne].
    + rewrite IH by done. f_equal. apply bool_decide_ext. naive_solver.
    + rewrite bool_decide_eq_false_2 by congruence. done.
Qed.
Lemma has_u32 i b l : has blob i (b :: l) -> u32 (fdt + i) = fdt + i.
Proof.
  intros H. pose proof (has_bounds _ _ _ H) as [Hi Hl]. rewrite bytes_len_cons in Hl.
  pose proof (bytes_len_nonneg l). pose proof Hfr as [Ha _ _ _ _]. unfold bytes_len in *.
  apply u32_small. unfold is_u32. lia.
Qed.
Lemma memchr0_has n a i l r s :
  nz l -> has blob (a + i) (l ++ 0 :: r) -> (length l < n)%nat ->
  memchr0 fdt blob n (fdt + a) i s = Ret (Some (i + bytes_len l)) s.
Proof.
  intros Hnz. revert n i. induction Hnz as [|b l Hb _ IH]; intros n i H Hn;
    (destruct n as [|n]; [cbn in Hn; lia|]); cbn [memchr0 app] in *;
    rewrite <- Z.add_assoc, (has_u32 _ _ _ H), (bind_run _ _ _ _ _ (has_load8 _ _ _ s H)).
  - change (bytes_len (@nil Z)) with 0. by rewrite Z.add_0_r.
  - rewrite (proj2 (Z.eqb_neq b 0)) by done. destruct (has_step _ _ _ H) as [H' _].
    rewrite IH; [rewrite bytes_len_cons; do 2 f_equal; lia|by rewrite Z.add_assoc|cbn in Hn; lia].
Qed.

Lemma strings_len x l : x ∈ l -> bytes_len x < bytes_len (strings l).
Proof.
  induction l as [|y l IH]; intros Hin; [by apply elem_of_nil in Hin|].
  rewrite strings_cons, bytes_len_app, bytes_len_cons. pose proof (bytes_len_nonneg (strings l)).
  pose proof (bytes_len_nonneg y). apply elem_of_cons in Hin as [->|Hin]; [lia|]. specialize (IH Hin). lia.
Qed.

Lemma stringlist_loop_run l f a r str s :
  Forall nz l -> nz str -> str <> [] -> has blob a (strings l ++ r) -> (length l < f)%nat ->
  stringlist_loop fdt blob f (fdt + a) (bytes_len (strings l)) str s = Ret (bool_decide (str ∈ l)) s.
Proof.
  intros Hl Hs Hne. revert f a. induction Hl as [|x l Hx _ IH]; intros f a H Hf;
    (destruct f as [|f]; [cbn in Hf; lia|]); cbn [stringlist_loop].
  - change (bytes_len (strings [])) with 0. destruct str as [|c str]; [done|].
    by destruct (Z.geb_spec 0 (Z.of_nat (length (c :: str)))) as [Hge|]; [cbn in Hge; lia|].
  - destruct (Z.geb_spec (bytes_len (strings (x :: l))) (Z.of_nat (length str))) as [Hge|Hlt].
    + rewrite strings_cons, <- app_assoc in H. cbn [app] in H.
      rewrite (bind_run _ _ _ _ _ (memcmp_cstr a x _ str s Hx Hs H)).
      destruct (bool_decide_reflect (x = str)) as [->|Hxs].
      { rewrite bool_decide_eq_true_2; [done|]. by apply list_elem_of_here. }
      rewrite strings_cons, bytes_len_app, bytes_len_cons.
      pose proof (bytes_len_nonneg (strings l)). pose proof (bytes_len_nonneg x).
      assert (Hz : has blob (a + 0) (x ++ 0 :: strings l ++ r)) by (by rewrite Z.add_0_r).
      assert (Hn : (length x < Z.to_nat (bytes_len x + (1 + bytes_len (strings l))))%nat)
        by (unfold bytes_len in *; lia).
      rewrite (bind_run _ _ _ _ _ (memchr0_has _ a 0 x _ s Hx Hz Hn)).
      rewrite Z.add_0_l. apply has_app in H as [_ H]. destruct (has_step _ _ _ H) as [H' Hu].
      replace (fdt + a + bytes_len x + 1) with (fdt + (a + bytes_len x) + 1) by lia. rewrite Hu.
      replace (bytes_len x + (1 + bytes_len (strings l)) - (bytes_len x + 1)) with (bytes_len (strings l)) by lia.
      rewrite IH; [|done|cbn in Hf; lia]. f_equal. apply bool_decide_ext. rewrite elem_of_cons. intuition congruence.
    + rewrite bool_decide_eq_false_2; [done|]. intros Hin. pose proof (strings_len _ _ Hin).
      unfold bytes_len in *. lia.
Qed.

(** A list of strings is searched for one of them. *)
Lemma stringlist_contains_run l a r str s :
  Forall nz l -> nz str -> str <> [] -> has blob a (strings l ++ r) ->
  fdt_stringlist_contains fdt blob (fdt + a) (bytes_len (strings l)) str s = Ret (bool_decide (str ∈ l)) s.
Proof.
  intros Hl Hs Hne H. apply stringlist_loop_run with r; [done..|].
  assert (length l <= length (strings l))%nat; [|unfold bytes_len; lia].
  clear. induction l as [|x l IH]; [done|]. rewrite strings_cons, length_app. cbn. lia.
Qed.

(** [fdt_node_check_compatible] searches the [compatible] property. *)
Lemma check_compatible_run o t st c s :
  located o t st -> nz c -> c <> [] -> string_lists t ->
  fdt_node_check_compatible fdt blob o c s =
    Ret (match value_of (chars "compatible") t with
         | Some v => if bool_decide (c ∈ split_strings v) then 0 else 1
         | None => - FDT_ERR_NOTFOUND
         end) s.
Proof.
  intros Hl Hc Hne Hsl. unfold fdt_node_check_compatible.
  pose proof (getprop_run _ _ _ (chars "compatible") Hl) as Hrun. unfold string_lists in Hsl.
  destruct (value_of (chars "compatible") t) as [v|]; [|by rewrite (bind_run _ _ _ _ _ (Hrun s))].
  destruct Hrun as (a & Ha & _ & Hrun). rewrite (bind_run _ _ _ _ _ (Hrun s)).
  destruct (has_bounds _ _ _ Ha) as [Ha0 _]. pose proof Hfr as [Hf _ _ _ _].
  rewrite (proj2 (Z.eqb_neq _ _)) by lia. specialize (Hsl v eq_refl).
  assert (Hcont := stringlist_contains_run (split_strings v) a [] c s (split_strings_nz v) Hc Hne).
  rewrite app_nil_r, Hsl in Hcont. by rewrite (bind_run _ _ _ _ _ (Hcont Ha)).
Qed.

(** ** Searching all the nodes *)

Lemma succ_ge o d st : (succ o d st).1 < 0 \/ o <= (succ o d st).1.
Proof.
  revert o d. induction st as [|ks st IH]; intros o d; [by left|]. destruct ks as [|k ks]; [|by right].
  cbn [succ]. destruct (_ <? 0); [right; cbn; lia|].
  destruct (IH (o + 4) (option_map (fun d => d - 1) d)); [by left|right; lia].
Qed.
Lemma nxt_ge b p : pl_located p -> (nxt b p).1 < 0 \/ pl_off p + 4 <= (nxt b p).1.
Proof.
  intros Hl. destruct (located_body _ _ _ Hl) as (_ & _ & _ & Hb). unfold nxt.
  destruct (succ_ge (body_off (pl_off p) (pl_tree p)) (dp b (pl_depth p)) (t_kids (pl_tree p) :: pl_stack p));
    [by left|right; lia].
Qed.
Lemma next_node_nxt b p s :
  pl_located p -> fdt_next_node fdt blob (pl_off p) (dp b (pl_depth p)) s = Ret (nxt b p) s.
Proof. apply next_node_located. Qed.

(** Offsets grow along the walk. *)
Lemma chain_lt b r L e :
  chain b r L e -> Forall pl_located L -> forall p, p ∈ L -> r.1 <= pl_off p.
Proof.
  revert r. induction L as [|q L IH]; intros r Hc Hl p Hp; [by apply elem_of_nil in Hp|].
  destruct Hc as [-> Hc]. apply Forall_cons in Hl as [Hq Hl]. apply elem_of_cons in Hp as [->|Hp]; [done|].
  pose proof (IH _ Hc Hl p Hp) as Hle. destruct (nxt_ge b q Hq) as [Hn|Hn]; [|cbn; lia].
  destruct L as [|x L]; [by apply elem_of_nil in Hp|]. destruct Hc as [Hx _].
  apply Forall_cons in Hl as [Hlx _]. destruct (located_small _ _ _ Hlx) as (Hx0 & _).
  rewrite Hx in Hn. cbn in Hn. lia.
Qed.

Lemma by_phandle_run L f r ph s :
  chain false r L (- FDT_ERR_NOTFOUND, None) -> Forall pl_located L ->
  r.1 < 0 \/ sz - r.1 < 4 * Z.of_nat f -> (0 < f)%nat ->
  by_phandle_loop fdt blob f r.1 ph s =
    Ret (match List.find (fun p => phandle_of (pl_tree p) =? ph) L with
         | Some p => pl_off p
         | None => - FDT_ERR_NOTFOUND
         end) s.
Proof.
  revert f r. induction L as [|p L IH]; intros f r Hc Hl Hf Hpos; (destruct f as [|f]; [lia|]); cbn [by_phandle_loop].
  - rewrite Hc. done.
  - destruct Hc as [-> Hc]. apply Forall_cons in Hl as [Hp Hl]. cbn [fst] in *.
    destruct (located_small _ _ _ Hp) as (Ho & Hsz & _). rewrite (proj2 (Z.geb_le _ _)) by lia.
    rewrite (bind_run _ _ _ _ _ (get_phandle_run _ _ _ s Hp)). cbn [List.find].
    destruct (_ =? ph); [done|]. rewrite (bind_run _ _ _ _ _ (next_node_nxt false p s Hp)).
    destruct (nxt false p) as [o d] eqn:Hn. change o with (o, d).1.
    apply IH; [done|done| |lia]. pose proof (nxt_ge false p Hp) as Hge. rewrite Hn in Hge. cbn in *. lia.
Qed.

(** ** Ancestors *)

(** The last of some nodes at a depth. *)
Definition last_at (sd cur : Z) (L : list place) : Z :=
  fold_left (fun c p => if pl_depth p =? sd then pl_off p else c) L cur.
Lemma last_at_app sd cur L1 L2 : last_at sd cur (L1 ++ L2) = last_at sd (last_at sd cur L1) L2.
Proof. apply fold_left_app. Qed.
Lemma last_at_none sd cur L : Forall (fun p => pl_depth p <> sd) L -> last_at sd cur L = cur.
Proof.
  intros H. revert cur. induction H as [|p L Hp _ IH]; intros cur; [done|]. cbn.
  rewrite (proj2 (Z.eqb_neq _ _)) by done. apply IH.
Qed.

Lemma supernode_run L1 q L2 f r e sd cur s :
  chain true r (L1 ++ q :: L2) e -> Forall pl_located (L1 ++ q :: L2) ->
  sz - r.1 < 4 * Z.of_nat f ->
  supernode_loop fdt blob f r.1 (default 0 r.2) (pl_off q) sd cur s =
    Ret (if sd >? pl_depth q then - FDT_ERR_NOTFOUND else last_at sd cur (L1 ++ [q]), Some (pl_depth q)) s.
Proof.
  revert f r cur. induction L1 as [|p L1 IH]; intros f r cur Hc Hl Hf; cbn [app] in *.
  - destruct Hc as [-> Hc]. apply Forall_cons in Hl as [Hq _]. destruct (located_small _ _ _ Hq) as (Ho & Hsz & _).
    cbn [fst] in Hf. destruct f as [|f]; [lia|]. cbn [supernode_loop fst snd dp default from_option id].
    rewrite (proj2 (Z.geb_le _ _)), Z.leb_refl, Z.eqb_refl by lia. done.
  - assert (Hlt : p.(pl_off) + 4 <= pl_off q).
    { destruct Hc as [_ Hc]. apply Forall_cons in Hl as [Hp Hl].
      pose proof (chain_lt _ _ _ _ Hc Hl q ltac:(apply elem_of_app; right; left)) as Hle.
      destruct (nxt_ge true p Hp) as [Hn|Hn]; [|lia].
      destruct (L1 ++ q :: L2) as [|x L] eqn:HL; [by destruct L1|]. destruct Hc as [Hx _].
      apply Forall_cons in Hl as [Hlx _]. destruct (located_small _ _ _ Hlx) as (Hx0 & _).
      rewrite Hx in Hn. cbn in Hn. lia. }
    destruct Hc as [-> Hc]. apply Forall_cons in Hl as [Hp Hl]. destruct (located_small _ _ _ Hp) as (Ho & Hsz & _).
    cbn [fst] in Hf. destruct f as [|f]; [lia|]. cbn [supernode_loop fst snd dp default from_option id].
    rewrite (proj2 (Z.geb_le _ _)), (proj2 (Z.leb_le _ _)), (proj2 (Z.eqb_neq (pl_off p) (pl_off q))) by lia.
    cbn [andb]. rewrite (bind_run _ _ _ _ _ (next_node_nxt true p s Hp)).
    pose proof (nxt_ge true p Hp) as Hge. pose proof (chain_lt _ _ _ _ Hc Hl q ltac:(apply elem_of_app; right; left)) as Hle.
    destruct (nxt true p) as [o d] eqn:Hn. change o with (o, d).1 at 1. change d with (o, d).2 at 1.
    rewrite IH; [|done|done|].
    + cbn [app last_at fold_left]. done.
    + cbn in *. destruct Hge as [Hneg|]; [|lia]. exfalso.
      destruct (L1 ++ q :: L2) as [|x L] eqn:HL; [by destruct L1|]. destruct Hc as [Hx _].
      apply Forall_cons in Hl as [Hlx _]. destruct (located_small _ _ _ Hlx) as (Hx0 & _).
      injection Hx as -> ->. cbn in *. lia.
Qed.

(** In the places of a subtree, the node [q] is preceded by its parent, and
    nothing between them has the depth of the parent. *)
Lemma places_depth t o d par st : Forall (fun p => d <= pl_depth p) (places o d par st t).
Proof.
  revert o d par st. induction t as [n ps ks IH] using tree_ind'. intros o d par st.
  rewrite places_node. apply Forall_cons. split; [cbn; lia|]. cbn [t_kids].
  generalize (body_off o (Node n ps ks)). induction IH as [|k ks Hk _ IHks]; intros b; [done|].
  cbn [kid_places]. apply Forall_app. split; [|apply IHks].
  eapply Forall_impl; [apply Hk|]. cbn. lia.
Qed.
Lemma kid_places_depth ks b d par st : Forall (fun p => d <= pl_depth p) (kid_places b d par st ks).
Proof.
  revert b. induction ks as [|k ks IH]; intros b; [done|]. cbn [kid_places].
  apply Forall_app. split; [apply places_depth|apply IH].
Qed.

Lemma last_at_parent t o d par st L1 q L2 cur :
  places o d par st t = L1 ++ q :: L2 ->
  last_at (pl_depth q - 1) cur (L1 ++ [q]) = if bool_decide (L1 = []) then cur else pl_parent q.
Proof.
  revert o d par st L1 L2 cur. induction t as [n ps ks IH] using tree_ind'. intros o d par st L1 L2 cur.
  rewrite places_node. destruct L1 as [|p L1].
  - intros [= <- _]. cbn. by rewrite (proj2 (Z.eqb_neq _ _)) by lia.
  - intros [= <- Hk]. rewrite bool_decide_eq_false_2 by done. cbn [app]. cbn [t_kids] in Hk.
    change (last_at (pl_depth q - 1) cur (mk_place o d par (Node n ps ks) st :: L1 ++ [q]))
      with (last_at (pl_depth q - 1) (if d =? pl_depth q - 1 then o else cur) (L1 ++ [q])).
    set (c := if d =? pl_depth q - 1 then o else cur).
    assert (Hc : d = pl_depth q - 1 -> c = o) by (intros He; unfold c; by rewrite (proj2 (Z.eqb_eq _ _) He)).
    clearbody c. revert c Hc L1 Hk. generalize (body_off o (Node n ps ks)).
    induction IH as [|k ks' Hkt _ IHks]; intros b c Hc L1 Hk; [by destruct L1|]. cbn [kid_places] in Hk.
    assert (Hrest : forall L1', kid_places (b + bytes_len (enc k)) (d + 1) o st ks' = L1' ++ q :: L2 ->
      L1 = places b (d + 1) o (ks' :: st) k ++ L1' -> last_at (pl_depth q - 1) c (L1 ++ [q]) = pl_parent q).
    { intros L1' Hk' ->. rewrite <- app_assoc, last_at_app. eapply IHks; [|exact Hk']. intros Hd. rewrite last_at_none; [by apply Hc|].
      eapply Forall_impl; [apply places_depth|]. cbn. lia. }
    apply app_eq_inv in Hk as [(L & Hk1 & Hk2)|(L & Hk1 & Hk2)]; [|by apply (Hrest L)].
    destruct L as [|x L]; [apply (Hrest []); [done|by rewrite app_nil_r in *]|].
    injection Hk2 as <- Hk2. rewrite (Hkt _ _ _ _ _ _ c Hk1).
    destruct L1 as [|p L1]; [|by rewrite bool_decide_eq_false_2].
    rewrite bool_decide_eq_true_2 by done. rewrite places_node in Hk1. injection Hk1 as <- _.
    apply Hc. cbn. lia.
Qed.

Section whole.
Context (t : tree) (Hh : holds_tree fdt blob t).

(** The nodes of the tree, with their offsets and those of their parents. *)
Definition all_places : list place := places 0 0 (-1) [] t.

Lemma root_located : located 0 t [].
Proof.
  destruct Hh as [_ _ _ Hs Hsz Hwf]. split; [|done|by constructor|done].
  cbn [enc_rest]. split_and!; [by rewrite Z.add_0_r|lia|lia].
Qed.
Lemma all_located : Forall pl_located all_places.
Proof. apply places_located, root_located. Qed.
Lemma check_header_run s : fdt_check_header fdt blob s = Ret 0 s.
Proof.
  destruct Hh as [[_ _ _ Hv _] Hm Hl _ _ _]. unfold fdt_check_header.
  rewrite (bind_run _ _ _ _ _ (header_run fdt blob Hfr 0 s ltac:(lia) ltac:(lia))), Hm, Z.eqb_refl.
  rewrite (bind_run _ _ _ _ _ (header_run fdt blob Hfr 20 s ltac:(lia) ltac:(lia))).
  unfold FDT_FIRST_SUPPORTED_VERSION, FDT_LAST_SUPPORTED_VERSION. rewrite (proj2 (Z.ltb_ge _ _)) by lia.
  rewrite (bind_run _ _ _ _ _ (header_run fdt blob Hfr 24 s ltac:(lia) ltac:(lia))).
  rewrite Z.gtb_ltb. by rewrite (proj2 (Z.ltb_ge _ _)) by lia.
Qed.
Lemma sz_fuel : sz - 0 < 4 * Z.of_nat (scan_fuel blob).
Proof. pose proof (offsets_range fdt blob Hfr). unfold scan_fuel. lia. Qed.

(** The node with a phandle is the first one that has it. *)
Lemma by_phandle_spec ph s :
  ph <> 0 -> ph <> 0xffffffff ->
  fdt_node_offset_by_phandle fdt blob ph s =
    Ret (match List.find (fun p => phandle_of (pl_tree p) =? ph) all_places with
         | Some p => pl_off p
         | None => - FDT_ERR_NOTFOUND
         end) s.
Proof.
  intros H0 Hf. unfold fdt_node_offset_by_phandle.
  rewrite (proj2 (Z.eqb_neq ph 0)), (proj2 (Z.eqb_neq ph 0xffffffff)) by done. cbn [orb].
  unfold FDT_CHECK_HEADER. rewrite (bind_run _ _ _ _ _ (check_header_run s)). cbn [truth Z.eqb negb].
  assert (Hroot : fdt_next_node fdt blob (-1) None s = Ret (0, None) s).
  { unfold fdt_next_node. cbn [Z.geb Z.compare]. destruct root_located as [Hat Hwf _ _].
    destruct t as [n ps ks]. apply wf_node in Hwf as (Hn & _). rewrite enc_rest_node in Hat.
    apply at_app in Hat as [Hat _]. cbn [scan_fuel next_node_loop].
    by rewrite (bind_run _ _ _ _ _ (next_tag_begin 0 n s Hat Hn eq_refl)). }
  rewrite (bind_run _ _ _ _ _ Hroot). pose proof sz_fuel as Hsf.
  apply (by_phandle_run all_places (scan_fuel blob) (0, None)); [|apply all_located|by right|unfold scan_fuel; lia].
  apply (chain_root false t).
Qed.

(** The depth and the parent that the library computes for a node are those of
    the tree; the root has none. *)
Lemma fdt_parent_run L1 q L2 s :
  all_places = L1 ++ q :: L2 ->
  fdt_node_depth fdt blob (pl_off q) s = Ret (pl_depth q) s /\
  fdt_parent_offset fdt blob (pl_off q) s =
    Ret (if bool_decide (L1 = []) then - FDT_ERR_NOTFOUND else pl_parent q) s.
Proof.
  intros HL. pose proof all_located as Hl. pose proof (chain_root true t) as Hc. fold all_places in Hc.
  rewrite HL in Hl, Hc. pose proof sz_fuel as Hsf.
  assert (Hroot : last_at 0 (- FDT_ERR_INTERNAL) (L1 ++ [q]) = 0 /\
    (if bool_decide (L1 = []) then pl_depth q = 0 else 1 <= pl_depth q)).
  { pose proof HL as HL'. unfold all_places in HL'. rewrite places_node in HL'.
    pose proof (kid_places_depth (t_kids t) (body_off 0 t) (0 + 1) 0 []) as Hd.
    destruct L1 as [|p L1]; injection HL' as <- Hk; [done|]. rewrite Hk in Hd.
    apply Forall_app in Hd as [H1 Hd]. apply Forall_cons in Hd as [Hq _].
    rewrite bool_decide_eq_false_2 by done. split; [|lia].
    change (last_at 0 0 (L1 ++ [q]) = 0). apply last_at_none. apply Forall_app.
    split; [|apply Forall_singleton; lia]. eapply Forall_impl; [exact H1|]. cbn. lia. }
  destruct Hroot as [Hroot Hdq].
  assert (Hq0 : 0 <= pl_depth q) by (destruct (bool_decide _); lia).
  assert (Hsup : forall sd, 0 <= sd -> fdt_supernode_atdepth_offset fdt blob (pl_off q) sd s =
    Ret (if sd >? pl_depth q then - FDT_ERR_NOTFOUND else last_at sd (- FDT_ERR_INTERNAL) (L1 ++ [q]),
         Some (pl_depth q)) s).
  { intros sd Hsd. unfold fdt_supernode_atdepth_offset.
    rewrite (bind_run _ _ _ _ _ (check_header_run s)). cbn [truth Z.eqb negb].
    rewrite (proj2 (Z.ltb_ge _ _)) by lia. by apply (supernode_run L1 q L2 _ (0, Some 0) _ _ _ s Hc Hl). }
  assert (Hdepth : fdt_node_depth fdt blob (pl_off q) s = Ret (pl_depth q) s).
  { unfold fdt_node_depth. rewrite (bind_run _ _ _ _ _ (Hsup 0 ltac:(lia))), Hroot.
    rewrite Z.gtb_ltb, (proj2 (Z.ltb_ge _ _)) by lia. done. }
  split; [done|]. unfold fdt_parent_offset. rewrite (bind_run _ _ _ _ _ Hdepth).
  rewrite (proj2 (Z.ltb_ge _ _)) by lia. pose proof (last_at_parent t 0 0 (-1) [] L1 q L2) as Hpar.
  destruct (bool_decide (L1 = [])).
  - rewrite Hdq. unfold fdt_supernode_atdepth_offset, bind. by rewrite check_header_run.
  - rewrite (bind_run _ _ _ _ _ (Hsup (pl_depth q - 1) ltac:(lia))).
    rewrite Z.gtb_ltb, (proj2 (Z.ltb_ge _ _)) by lia. by rewrite Hpar.
Qed.
End whole.
End spec.

(** ** The blob that [dtb] builds *)

Definition byteb (b : Z) : bool := (0 <=? b) && (b <? 256).
Definition charb (b : Z) : bool := (0 <? b) && (b <? 256).
Definition prop_ok (strs : list Z) (p : prop) : bool :=
  forallb charb (p_name p) && (0 <=? p_nameoff p) && (p_nameoff p <=? bytes_len strs) &&
  bool_decide (take (length (p_name p ++ [0])) (drop (Z.to_nat (p_nameoff p)) strs) = p_name p ++ [0]) &&
  forallb byteb (p_value p).
Fixpoint tree_ok (strs : list Z) (t : tree) : bool :=
  match t with
  | Node n ps ks => forallb charb n && forallb (prop_ok strs) ps && forallb (tree_ok strs) ks
  end.

Lemma forallb_Forall {A} (f : A -> bool) l : forallb f l = true <-> Forall (fun x => f x = true) l.
Proof.
  induction l as [|x l IH]; [done|]. cbn. rewrite andb_true_iff, Forall_cons, IH. done.
Qed.
Lemma chars_nz l : forallb charb l = true -> nz l.
Proof. rewrite forallb_Forall. intros H. eapply Forall_impl; [exact H|]. cbn. unfold charb. lia. Qed.

Definition is_byte (b : Z) : Prop := 0 <= b < 256.
Lemma be32_bytes z : Forall is_byte (be32 z).
Proof.
  assert (H : forall x, is_byte (Z.land x 255)).
  { intros x. unfold is_byte. change 255 with (Z.ones 8). rewrite Z.land_ones by lia.
    by apply Z.mod_pos_bound. }
  unfold be32. repeat constructor; apply H.
Qed.
Lemma pad_bytes l : Forall is_byte l -> Forall is_byte (pad l).
Proof.
  intros H. unfold pad. apply Forall_app. split; [done|].
  apply Forall_replicate. by split.
Qed.
Lemma chars_bytes l : forallb charb l = true -> Forall is_byte l.
Proof. rewrite forallb_Forall. intros H. eapply Forall_impl; [exact H|]. cbn. unfold charb, is_byte. lia. Qed.
Lemma values_bytes l : forallb byteb l = true -> Forall is_byte l.
Proof. rewrite forallb_Forall. intros H. eapply Forall_impl; [exact H|]. cbn. unfold byteb, is_byte. lia. Qed.
Lemma concat_bytes {A} (f : A -> list Z) l :
  Forall (fun x => Forall is_byte (f x)) l -> Forall is_byte (concat (map f l)).
Proof. induction 1; cbn; [done|]. by apply Forall_app. Qed.
Lemma enc_head_bytes n : forallb charb n = true -> Forall is_byte (enc_head n).
Proof.
  intros H. apply Forall_app_2; [apply be32_bytes|]. apply pad_bytes.
  apply Forall_app_2; [by apply chars_bytes|by repeat constructor].
Qed.
Lemma enc_prop_bytes strs p : prop_ok strs p = true -> Forall is_byte (enc_prop p).
Proof.
  unfold prop_ok. rewrite !andb_true_iff. intros [_ H].
  do 3 (apply Forall_app_2; [apply be32_bytes|]). by apply pad_bytes, values_bytes.
Qed.
Lemma enc_bytes strs t : tree_ok strs t = true -> Forall is_byte (enc t).
Proof.
  induction t as [n ps ks IH] using tree_ind'. cbn [tree_ok]. rewrite !andb_true_iff, !forallb_Forall.
  intros [[Hn Hps] Hks]. rewrite <- forallb_Forall in Hn. rewrite enc_node.
  apply Forall_app_2; [by apply enc_head_bytes|]. apply Forall_app_2; [|apply Forall_app_2; [|apply be32_bytes]].
  - apply concat_bytes. eapply Forall_impl; [exact Hps|]. intros p. apply enc_prop_bytes.
  - apply concat_bytes. rewrite Forall_forall in *. intros k Hk. by apply IH, Hks.
Qed.

Lemma strs_wf strs pre blob t :
  blob = pre ++ strs -> word_at blob 12 = bytes_len pre -> tree_ok strs t = true -> wf_tree blob t.
Proof.
  intros Hb Hw. induction t as [n ps ks IH] using tree_ind'. cbn [tree_ok].
  rewrite !andb_true_iff, !forallb_Forall. intros [[Hn Hps] Hks]. apply wf_node. split_and!.
  - by apply chars_nz, forallb_Forall.
  - eapply Forall_impl; [exact Hps|]. intros p Hp. unfold prop_ok in Hp. rewrite !andb_true_iff in Hp.
    destruct Hp as ((((Hpn & Hp0) & Hple) & Hhas) & _). split_and!; [by apply chars_nz|lia|].
    apply bool_decide_eq_true in Hhas. rewrite Hw.
    exists (pre ++ take (Z.to_nat (p_nameoff p)) strs),
      (drop (length (p_name p ++ [0])) (drop (Z.to_nat (p_nameoff p)) strs)). split.
    + rewrite Hb, <- app_assoc. f_equal. rewrite <- Hhas at 1. by rewrite take_drop, take_drop.
    + rewrite bytes_len_app. unfold bytes_len. rewrite length_take.
      unfold bytes_len in Hple. lia.
  - rewrite Forall_forall in *. intros k Hk. by apply IH, Hks.
Qed.

Lemma word_mid p z q : is_u32 z -> word_at (p ++ be32 z ++ q) (bytes_len p) = z.
Proof. intros Hz. apply word_be32; [done|]. by exists p, q. Qed.

(** Flattening a well-formed tree gives a blob that holds it. *)
Lemma dtb_holds fdt strs t :
  tree_ok strs t = true -> Forall is_byte strs -> 0 < fdt -> bytes_len (dtb strs t) < 2 ^ 30 ->
  fdt + bytes_len (dtb strs t) < 2 ^ 32 -> holds_tree fdt (dtb strs t) t.
Proof.
  intros Hok Hs Hf Hlen Hend. set (st := enc t ++ be32 FDT_END). set (n := bytes_len st).
  assert (Hdl : bytes_len (dtb strs t) = 40 + n + bytes_len strs).
  { unfold dtb. rewrite !bytes_len_app, !be32_len. unfold n, st. rewrite bytes_len_app, be32_len. lia. }
  pose proof (bytes_len_nonneg strs) as Hs0. assert (Hn0 : 0 <= n) by apply bytes_len_nonneg.
  set (hd := be32 FDT_MAGIC ++ be32 (40 + n + bytes_len strs)) in *.
  assert (Hword : forall p z q i, is_u32 z -> dtb strs t = p ++ be32 z ++ q -> i = bytes_len p ->
    word_at (dtb strs t) i = z) by (intros p z q i Hz -> ->; by apply word_mid).
  assert (H0 : word_at (dtb strs t) 0 = FDT_MAGIC) by (eapply (Hword []); [by split|done|done]).
  assert (H8 : word_at (dtb strs t) 8 = 40) by (eapply (Hword hd); [by split|done|done]).
  assert (H12 : word_at (dtb strs t) 12 = 40 + n)
    by (eapply (Hword (hd ++ be32 40)); [unfold is_u32; lia|done|done]).
  assert (H20 : word_at (dtb strs t) 20 = 17)
    by (eapply (Hword (hd ++ be32 40 ++ be32 (40 + n) ++ be32 40)); [by split|done|done]).
  assert (H24 : word_at (dtb strs t) 24 = 16)
    by (eapply (Hword (hd ++ be32 40 ++ be32 (40 + n) ++ be32 40 ++ be32 17)); [by split|done|done]).
  set (hd36 := hd ++ be32 40 ++ be32 (40 + n) ++ be32 40 ++ be32 17 ++ be32 16 ++ be32 0 ++ be32 (bytes_len strs)).
  assert (H36 : word_at (dtb strs t) 36 = n) by (eapply (Hword hd36); [unfold is_u32; lia|done|done]).
  assert (Hall : dtb strs t = (hd36 ++ be32 n) ++ st ++ strs) by done.
  split; unfold off_struct, size_struct; rewrite ?H8, ?H36.
  - split; rewrite ?H20; try done; unfold off_struct, size_struct; rewrite ?H8, ?H36; try lia.
    + unfold bytes_len in *. lia.
    + rewrite Hall. apply Forall_app_2; [apply Forall_app_2; [|apply be32_bytes]|].
      * apply Forall_app_2; [apply Forall_app_2; apply be32_bytes|].
        do 6 (apply Forall_app_2; [apply be32_bytes|]). apply be32_bytes.
      * apply Forall_app_2; [|done]. apply Forall_app_2; [by apply enc_bytes with strs|apply be32_bytes].
    + unfold bytes_len in *. lia.
  - done.
  - by rewrite H24.
  - exists (hd36 ++ be32 n), strs. done.
  - done.
  - apply (strs_wf strs ((hd36 ++ be32 n) ++ st)); [by rewrite Hall, <- app_assoc| |done].
    rewrite H12, bytes_len_app. done.
Qed.

(** ** Reading a flattened tree *)


(** A bus with two devices. *)
Definition demo_names : list string := ["compatible"; "reg"; "phandle"; "sp-class"; "#size-cells"; "#address-cells"]%string.
Definition demo_tree : tree :=
  Node [] [mk demo_names "#address-cells" (cells [1]); mk demo_names "#size-cells" (cells [1])]
    [Node (chars "soc") [mk demo_names "compatible" (str "simple-bus")]
       [Node (chars "wifi@1000") [mk demo_names "reg" (cells [0x1000; 0x100]); mk demo_names "phandle" (cells [7]);
                                  mk demo_names "sp-class" (str "wifi")] [];
        Node (chars "camera@2000") [mk demo_names "reg" (cells [0x2000; 0x100])] []];
     Node (chars "chosen") [] []].
Definition demo_blob : list Z := dtb (strtab demo_names) demo_tree.

