(* ===== verification/DtProbe.v ===== *)
(** * Probing the device tree (kernel/dt.c and the first half of drivers/dt.c)

    At boot the kernel walks the flattened tree it finds at [CFG_DT_ADDR],
    creates a device for each node that is compatible and not disabled, and
    runs the driver that matches it.  The blob stays where it is, in memory of
    the normal world; the names and class names of the devices are pointers into it,
    which the model reads at probing time. *)

From stdpp Require Import prelude gmap list strings.
From Stdlib Require Import ZArith Lia.
From S2P Require Import Prelude Platform State CoreMmu Interrupt Dt Fdt.
#[local] Open Scope Z_scope.
#[local] Open Scope kernel_scope.

Definition DT_STATUS_DISABLED : Z := 0.
Definition DT_STATUS_OK_NSEC : Z := 1.
Definition DT_STATUS_OK_SEC : Z := 2.

(** Sizes of the structures that are allocated. *)
Definition sizeof_device : Z := 68.
Definition sizeof_resource : Z := 32.
Definition sizeof_irq_info : Z := 12.

Definition string_of_bytes (l : list Z) : string :=
  String.string_of_list_ascii (map (fun b => Ascii.ascii_of_N (Z.to_N b)) l).

(** A DT-aware driver: its match table, each entry with the [probe] function
    applied to the entry's [data]. *)
Record dt_driver (P : Type) := mk_dt_driver {
  match_table : list (string * (Z -> dev_ptr -> M (kernel P) Z));
}.
Arguments mk_dt_driver {P} _.
Arguments match_table {P} _.

Section probe.
Context {P : Type} {plat : Platform P} {cfg : Config} {lay : Layout} {drv : IrqDrivers P}.
Context (blob : list Z) (dt_drivers : list (dt_driver P)).
#[local] Abbreviation K := (M (kernel P)).
#[local] Abbreviation getprop fdt node name := (fdt_getprop fdt blob node (chars name)).

(** ** kernel/dt.c *)

(** [match_table] of one driver, then the remaining drivers. *)
Fixpoint find_match (fdt node : Z) (l : list (string * (Z -> dev_ptr -> K Z))) :
    K (option (Z -> dev_ptr -> K Z)) :=
  match l with
  | [] => ret None
  | (compatible, probe) :: l' =>
      c <- fdt_node_check_compatible fdt blob node (chars compatible);;
      if c =? 0 then ret (Some probe) else find_match fdt node l'
  end.
Fixpoint find_driver (fdt node : Z) (l : list (dt_driver P)) : K (option (Z -> dev_ptr -> K Z)) :=
  match l with
  | [] => ret None
  | d :: l' =>
      m <- find_match fdt node (match_table d);;
      match m with Some p => ret (Some p) | None => find_driver fdt node l' end
  end.
Definition dt_probe_compatible_driver (fdt : Z) (dev : dev_ptr) : K Z :=
  d <- get_device dev;;
  m <- find_driver fdt (dv_node d) dt_drivers;;
  match m with Some probe => probe fdt dev | None => ret 0 end.

(** The pointer, or null. *)
Definition dt_read_property (fdt offs : Z) (name : string) : K Z :=
  ' (prop, _) <- getprop fdt offs name;; ret prop.
(** The result and [*out]. *)
Definition dt_read_property_u32 (fdt offs : Z) (name : string) : K (Z * Z) :=
  ' (prop, prop_size) <- getprop fdt offs name;;
  if (prop =? 0) || negb (prop_size =? 4) then ret (-1, 0)
  else v <- fdt32_to_cpu fdt blob prop;; ret (0, v).

(** [strncmp(p, l, n) == 0]; [l] includes the terminating zero. *)
Fixpoint strncmp_eq (fdt p : Z) (l : list Z) (n : nat) : K bool :=
  match n, l with
  | O, _ => ret true
  | S n', [] => ret true
  | S n', b :: l' =>
      c <- load8 fdt blob p;;
      if c =? b then if b =? 0 then ret true else strncmp_eq fdt (u32 (p + 1)) l' n' else ret false
  end.
Definition is_okay (fdt st len : Z) : K bool :=
  a <- strncmp_eq fdt st (chars "ok" ++ [0]) (Z.to_nat len);;
  if a then ret true else strncmp_eq fdt st (chars "okay" ++ [0]) (Z.to_nat len).
Definition _fdt_get_status (fdt offs : Z) : K Z :=
  ' (prop, len) <- getprop fdt offs "status";;
  ok <- (if prop =? 0 then ret true else is_okay fdt prop len);;
  ret (if ok then Z.lor DT_STATUS_OK_NSEC DT_STATUS_OK_SEC else 0).

(** ** drivers/dt.c *)

Definition simple_bus_match_table : list string := ["simple-bus"; "simple-mfd"; "isa"]%string.

Fixpoint stringlist_count_loop (fdt : Z) (fl : nat) (list_ end_ count : Z) : K Z :=
  match fl with
  | O => spin
  | S f =>
      if list_ <? end_ then
        n <- strnlen fdt blob list_ (end_ - list_);;
        let length := n + 1 in
        if list_ + length >? end_ then ret (-1)
        else stringlist_count_loop fdt f (list_ + length) end_ (count + 1)
      else ret count
  end.
Definition fdt_stringlist_count (fdt nodeoffset : Z) (property : string) : K Z :=
  ' (list_, length) <- getprop fdt nodeoffset property;;
  if list_ =? 0 then ret length
  else stringlist_count_loop fdt (S (Z.to_nat length)) list_ (list_ + length) 0.

(** [n] words from [p] on. *)
Fixpoint read_words (fdt p : Z) (n : nat) : K (list Z) :=
  match n with
  | O => ret []
  | S n' => w <- fdt32_to_cpu fdt blob p;; l <- read_words fdt (u32 (p + 4)) n';; ret (w :: l)
  end.
(** An [int] division; division by zero has no meaning. *)
Definition int_div {S} (a b : Z) : M S Z := if b =? 0 then fault else ret (Z.quot a b).

(** The cells of one resource; cells that are not filled are not part of it. *)
Fixpoint read_resources (fdt p : Z) (addr_cells size_cells : Z) (n : nat) : K (list resource) :=
  match n with
  | O => ret []
  | S n' =>
      a <- read_words fdt p (Z.to_nat addr_cells);;
      z <- read_words fdt (u32 (p + 4 * addr_cells)) (Z.to_nat size_cells);;
      l <- read_resources fdt (u32 (p + 4 * (addr_cells + size_cells))) addr_cells size_cells n';;
      ret (Resource a z :: l)
  end.
Definition dt_parse_resources (fdt : Z) (dev : dev_ptr) : K bool :=
  d <- get_device dev;;
  ' (reg, reg_length) <- getprop fdt (dv_node d) "reg";;
  if reg =? 0 then ret true else
  par <- deref (dv_parent d);; p <- get_device par;;
  addr_cells <- fdt_address_cells fdt blob (dv_node p);;
  size_cells <- fdt_size_cells fdt blob (dv_node p);;
  num_resources <- int_div reg_length (4 * (addr_cells + size_cells));;
  ok <- malloc (u32 (sizeof_resource * num_resources));;
  if negb ok then ret false else
  l <- read_resources fdt reg addr_cells size_cells (Z.to_nat num_resources);;
  d <- get_device dev;; put_device dev (set_dv_resources l d) ;;; ret true.

(** The cells a chip looks at; none looks at more than three. *)
Definition dt_spec (fdt p : Z) : K (list Z) := read_words fdt p 3.

Definition map_irq (fdt : Z) (chip : chip_ptr) (p : Z) : K irq_info :=
  spec <- dt_spec fdt p;;
  ' (_, irq, flags) <- irq_map chip spec;; ret (IrqInfo (IrqDesc chip irq) flags).

(** The chip of the device that [lookup] or else [probe] gives for a node. *)
Definition chip_of (probe : Z -> K (option dev_ptr)) (node : Z) : K (option dev_ptr) :=
  o <- device_lookup node;; match o with Some d => ret (Some d) | None => probe node end.

Fixpoint interrupts_ext_loop (probe : Z -> K (option dev_ptr)) (fdt : Z) (dev : dev_ptr)
    (irqs n : Z) (fl : nat) (index : Z) : K bool :=
  match fl with
  | O => spin
  | S f =>
      if index <? n then
        ph <- fdt32_to_cpu fdt blob (u32 (irqs + 4 * index));;
        chip_offset <- fdt_node_offset_by_phandle fdt blob ph;;
        if chip_offset <? 0 then ret false else
        let index := index + 1 in
        chip_dev <- chip_of probe chip_offset;;
        match chip_dev with
        | None => ret false
        | Some cd =>
            chip <- irq_find_chip (Some cd);;
            match chip with
            | None => ret false
            | Some chip =>
                ' (irq_cells, irq_cells_length) <- getprop fdt chip_offset "#interrupt-cells";;
                if (irq_cells =? 0) || negb (irq_cells_length =? 4) then ret false else
                num <- fdt32_to_cpu fdt blob irq_cells;;
                d <- get_device dev;;
                ok <- malloc (u32 (sizeof_irq_info * (Z.of_nat (length (dv_irqs d)) + 1)));;
                if negb ok then ret false else
                info <- map_irq fdt chip (u32 (irqs + 4 * index));;
                d <- get_device dev;;
                put_device dev (set_dv_irqs (dv_irqs d ++ [info]) d) ;;;
                index' <- int_result (index + i32 num);;
                interrupts_ext_loop probe fdt dev irqs n f index'
            end
        end
      else massert (ret (index =? n)) ;;; ret true
  end.
Definition dt_parse_interrupts_ext (probe : Z -> K (option dev_ptr)) (fdt : Z) (dev : dev_ptr) : K bool :=
  d <- get_device dev;;
  ' (irqs, irqs_length) <- getprop fdt (dv_node d) "interrupts-extended";;
  if irqs =? 0 then ret true
  else let n := Z.quot irqs_length 4 in
       interrupts_ext_loop probe fdt dev irqs n (S (Z.to_nat n)) 0.

(** The loop over the ancestors: failure, no controller, or the controller's
    device and the pointer to its [#interrupt-cells]. *)
Inductive irq_parent := IRQ_PARENT_INVALID | IRQ_PARENT_NONE | IRQ_PARENT (d : dev_ptr) (irq_cells : Z).
Fixpoint find_irq_parent (probe : Z -> K (option dev_ptr)) (fdt : Z) (fl : nat) (parent : option dev_ptr) :
    K irq_parent :=
  match parent with
  | None => ret IRQ_PARENT_NONE
  | Some par =>
      match fl with
      | O => spin
      | S f =>
          p <- get_device par;;
          ' (php, len) <- getprop fdt (dv_node p) "interrupt-parent";;
          if negb (php =? 0) && (len =? 4) then
            ph <- fdt32_to_cpu fdt blob php;;
            irq_parent <- fdt_node_offset_by_phandle fdt blob ph;;
            if irq_parent <? 0 then ret IRQ_PARENT_INVALID else
            ' (irq_cells, irq_cells_length) <- getprop fdt irq_parent "#interrupt-cells";;
            if (irq_cells =? 0) || negb (irq_cells_length =? 4) then ret IRQ_PARENT_INVALID else
            o <- chip_of probe irq_parent;;
            ret (match o with Some d => IRQ_PARENT d irq_cells | None => IRQ_PARENT_NONE end)
          else find_irq_parent probe fdt f (dv_parent p)
      end
  end.
Fixpoint map_irqs (fdt : Z) (chip : chip_ptr) (p step : Z) (n : nat) : K (list irq_info) :=
  match n with
  | O => ret []
  | S n' => i <- map_irq fdt chip p;; l <- map_irqs fdt chip (u32 (p + step)) step n';; ret (i :: l)
  end.
Definition dt_parse_interrupts (probe : Z -> K (option dev_ptr)) (fdt : Z) (dev : dev_ptr) : K bool :=
  d <- get_device dev;;
  ' (irqs, irqs_length) <- getprop fdt (dv_node d) "sp-interrupts";;
  ' (irqs, irqs_length) <-
    (if irqs =? 0 then getprop fdt (dv_node d) "interrupts" else ret (irqs, irqs_length));;
  ok <- (if irqs =? 0 then ret true else
    n <- get_dt next_device;;
    r <- find_irq_parent probe fdt (S n) (Some dev);;
    match r with
    | IRQ_PARENT_INVALID | IRQ_PARENT_NONE => ret false
    | IRQ_PARENT parent irq_cells =>
        chip <- irq_find_chip (Some parent);;
        match chip with
        | None => ret false
        | Some chip =>
            num <- fdt32_to_cpu fdt blob irq_cells;;
            bytes <- int_result (4 * i32 num);;
            num_irqs <- int_div irqs_length bytes;;
            ok <- malloc (u32 (sizeof_irq_info * num_irqs));;
            if negb ok then ret false else
            l <- map_irqs fdt chip irqs bytes (Z.to_nat num_irqs);;
            d <- get_device dev;; put_device dev (set_dv_irqs l d) ;;; ret true
        end
    end);;
  if negb ok then ret false else dt_parse_interrupts_ext probe fdt dev.

Definition dt_parse_sp_csu (fdt : Z) (dev : dev_ptr) : K bool :=
  d <- get_device dev;;
  ' (sp_csu, sp_csu_length) <- getprop fdt (dv_node d) "sp-csu";;
  if sp_csu =? 0 then ret true else
  let num_csu := Z.quot sp_csu_length 4 in
  ok <- malloc (u32 (4 * num_csu));;
  if negb ok then ret false else
  l <- read_words fdt sp_csu (Z.to_nat num_csu);;
  d <- get_device dev;; put_device dev (set_dv_csu (map i32 l) d) ;;; ret true.

Fixpoint read_strings (fdt p : Z) (n : nat) : K (list string) :=
  match n with
  | O => ret []
  | S n' =>
      x <- cstring fdt blob p;;
      l <- read_strings fdt (u32 (p + Z.of_nat (length x) + 1)) n';; ret (string_of_bytes x :: l)
  end.
Definition dt_parse_sp_class (fdt : Z) (dev : dev_ptr) : K bool :=
  d <- get_device dev;;
  ' (sp_class, _) <- getprop fdt (dv_node d) "sp-class";;
  if sp_class =? 0 then ret true else
  num_classes <- fdt_stringlist_count fdt (dv_node d) "sp-class";;
  ok <- malloc (u32 (4 * num_classes));;
  if negb ok then ret false else
  l <- read_strings fdt sp_class (Z.to_nat num_classes);;
  d <- get_device dev;; put_device dev (set_dv_classes l d) ;;; ret true.

Fixpoint check_any (fdt node : Z) (l : list string) : K bool :=
  match l with
  | [] => ret false
  | m :: l' =>
      c <- fdt_node_check_compatible fdt blob node (chars m);; if c =? 0 then ret true else check_any fdt node l'
  end.

Definition zero_device : device :=
  Device 0 0 "" None RESOURCE_MEM [] [] [] [] false false.

Definition device_create (probe : Z -> K (option dev_ptr)) (fdt node : Z) (parent : option dev_ptr)
    (strict : bool) : K (option dev_ptr) :=
  ' (compat, _) <- fdt_get_property fdt blob node (chars "compatible");;
  skip <- (if strict then
             if compat =? 0 then ret true
             else st <- _fdt_get_status fdt node;; ret (st =? DT_STATUS_DISABLED)
           else ret false);;
  if skip then ret None else
  ok <- malloc sizeof_device;;
  if negb ok then panic else
  dev <- get_dt next_device;;
  modify_dt (set_next_device (S dev)) ;;;
  phandle <- fdt_get_phandle fdt blob node;;
  ' (np, _) <- fdt_get_name fdt blob node;;
  name <- (if np =? 0 then ret [] else cstring fdt blob np);;
  bus <- check_any fdt node simple_bus_match_table;;
  type <- (match parent with
           | None => ret RESOURCE_OTHER
           | Some par => p <- get_device par;; ret (if dv_is_simple_bus p then RESOURCE_MEM else RESOURCE_OTHER)
           end);;
  put_device dev (Device node phandle (string_of_bytes name) parent type [] [] [] [] true bus) ;;;
  s0 <- dt_parse_resources fdt dev;;
  s1 <- dt_parse_interrupts probe fdt dev;;
  s2 <- dt_parse_sp_csu fdt dev;;
  s3 <- dt_parse_sp_class fdt dev;;
  if s0 && s1 && s2 && s3 then ret (Some dev) else panic.

(** [n] bounds the depth of the recursion: to children, to parents that were not
    probed yet, and to interrupt controllers. *)
Fixpoint dt_probe_device (n : nat) (fdt offset : Z) (parent : option dev_ptr) (probe_children : bool) :
    K (option dev_ptr) :=
  match n with
  | O => spin
  | S n' =>
      let probe node := dt_probe_device n' fdt node None false in
      par <- (match parent with
              | Some _ => ret (Some parent)
              | None =>
                  parent_offset <- fdt_parent_offset fdt blob offset;;
                  if parent_offset >=? 0 then
                    o <- chip_of probe parent_offset;;
                    ret (match o with Some d => Some (Some d) | None => None end)
                  else ret (Some None)
              end);;
      match par with
      | None => ret None
      | Some parent =>
          o <- device_lookup offset;;
          dev <- (match o with
                  | Some d => ret (Some d)
                  | None =>
                      d <- device_create probe fdt offset parent true;;
                      match d with
                      | None => ret None
                      | Some dev => device_insert dev ;;; dt_probe_compatible_driver fdt dev ;;; ret (Some dev)
                      end
                  end);;
          match dev with
          | None => ret None
          | Some dev =>
              when probe_children
                (fdt_for_each_subnode fdt blob offset (fun child =>
                   dt_probe_device n' fdt child (Some dev) true ;;; ret tt)) ;;;
              ret (Some dev)
          end
      end
  end.

Definition dt_lookup_device (fdt phandle : Z) : K (option dev_ptr) :=
  offset <- fdt_node_offset_by_phandle fdt blob phandle;; device_lookup offset.

Definition dt_probe (n : nat) (CFG_DT_ADDR : Z) : K Z :=
  fdt <- phys_to_virt CFG_DT_ADDR MEM_AREA_RAM_NSEC;;
  if fdt =? 0 then panic else
  modify_dt (set_device_table (replicate (Z.to_nat DEVICE_TABLE_SIZE) [])) ;;;
  root <- fdt_path_offset fdt blob 2 (chars "/");;
  if root <? 0 then panic else
  root_device <- device_create (fun node => dt_probe_device n fdt node None false) fdt root None false;;
  match root_device with
  | None => panic
  | Some rd =>
      d <- get_device rd;; put_device rd (set_dv_is_simple_bus true d) ;;;
      device_insert rd ;;;
      fdt_for_each_subnode fdt blob root (fun child => dt_probe_device n fdt child (Some rd) true ;;; ret tt) ;;;
      ret 0
  end.
End probe.
