(* ===== verification/DtRead.v ===== *)
(** * What the device tree says of a device

    The reference for the parsers of core/kernel/dt.c and core/drivers/dt.c: the
    words, strings, resources and status of a node as functions of the tree, and
    the proofs that the parsers read them from a blob that holds the tree. *)

From stdpp Require Import prelude gmap list strings.
From Stdlib Require Import ZArith Lia.
From S2P Require Import Prelude Platform State Interrupt Dt Fdt FdtTree FdtScan FdtSpec DtProbe.
#[local] Open Scope Z_scope.
#[local] Open Scope kernel_scope.

(** ** Reference definitions *)

(** [n] words of a value from byte [i] on. *)
Fixpoint words_at (v : list Z) (i : Z) (n : nat) : list Z :=
  match n with O => [] | S n' => word_at v i :: words_at v (i + 4) n' end.
(** All the words of a value. *)
Definition words_of (v : list Z) : list Z := words_at v 0 (Z.to_nat (Z.quot (bytes_len v) 4)).
Definition words_prop (name : string) (t : tree) : list Z :=
  match value_of (chars name) t with Some v => words_of v | None => [] end.

(** The value of a cells property, or the error code. *)
Definition cells_of (name : string) (least : Z) (t : tree) : Z :=
  match value_of (chars name) t with
  | None => 2
  | Some v =>
      if negb (bytes_len v =? 4) then - FDT_ERR_BADNCELLS
      else let c := i32 (word_at v 0) in
           if (c <? least) || (c >? FDT_MAX_NCELLS) then - FDT_ERR_BADNCELLS else c
  end.
Definition address_cells (t : tree) : Z := cells_of "#address-cells" 1 t.
Definition size_cells (t : tree) : Z := cells_of "#size-cells" 0 t.

(** [n] resources of a value from byte [i] on. *)
Fixpoint resources_at (v : list Z) (ac sc i : Z) (n : nat) : list resource :=
  match n with
  | O => []
  | S n' => Resource (words_at v i (Z.to_nat ac)) (words_at v (i + 4 * ac) (Z.to_nat sc)) ::
            resources_at v ac sc (i + 4 * (ac + sc)) n'
  end.
(** The resources of a node: the parent says how many cells they have. *)
Definition resources_of (parent t : tree) : list resource :=
  match value_of (chars "reg") t with
  | None => []
  | Some v => let ac := address_cells parent in let sc := size_cells parent in
              resources_at v ac sc 0 (Z.to_nat (Z.quot (bytes_len v) (4 * (ac + sc))))
  end.

(** A value agrees with a string as far as [strncmp] looks at both. *)
Fixpoint agrees (v l : list Z) : bool :=
  match v, l with
  | [], _ | _, [] => true
  | c :: v', b :: l' => (c =? b) && ((b =? 0) || agrees v' l')
  end.
Definition status_ok (t : tree) : bool :=
  match value_of (chars "status") t with
  | None => true
  | Some v => agrees v (chars "ok" ++ [0]) || agrees v (chars "okay" ++ [0])
  end.
Definition compatible_with (t : tree) (c : string) : bool :=
  match value_of (chars "compatible") t with
  | None => false
  | Some v => bool_decide (chars c ∈ split_strings v)
  end.
(** The nodes that get a device. *)
Definition usable (t : tree) : bool := bool_decide (is_Some (value_of (chars "compatible") t)) && status_ok t.
Definition simple_bus (t : tree) : bool := existsb (compatible_with t) simple_bus_match_table.

Definition classes_of (t : tree) : list string :=
  match value_of (chars "sp-class") t with
  | None => []
  | Some v => map string_of_bytes (split_strings v)
  end.
(** The class list is a list of terminated strings. *)
Definition class_lists (t : tree) : Prop :=
  forall v, value_of (chars "sp-class") t = Some v -> strings (split_strings v) = v.

Lemma words_at_length v i n : length (words_at v i n) = n.
Proof. revert i. induction n as [|n IH]; intros i; cbn; [done|by rewrite IH]. Qed.
Lemma words_at_drop v i n m : drop m (words_at v i n) = words_at v (i + 4 * Z.of_nat m) (n - m).
Proof.
  revert i n. induction m as [|m IH]; intros i n; [by rewrite Z.add_0_r, Nat.sub_0_r|].
  destruct n as [|n]; [done|]. cbn [words_at drop]. rewrite IH. f_equal; lia.
Qed.
Lemma cells_sum_nonzero t : address_cells t + size_cells t <> 0.
Proof.
  unfold address_cells, size_cells, cells_of, FDT_ERR_BADNCELLS, FDT_MAX_NCELLS.
  repeat case_match; lia.
Qed.
Lemma cells_pos t : 0 < address_cells t + size_cells t -> 0 < address_cells t /\ 0 <= size_cells t.
Proof.
  unfold address_cells, size_cells, cells_of, FDT_ERR_BADNCELLS, FDT_MAX_NCELLS.
  repeat case_match; lia.
Qed.

(** ** Reading *)

Section read.
Context {P : Type} (fdt : Z) (blob : list Z).
Context (Hfr : framed fdt blob).
Implicit Types s : kernel P.

Lemma addr_small a v i : has blob a v -> 0 <= i -> i <= bytes_len v -> u32 (fdt + a + i) = fdt + a + i.
Proof.
  intros Hv Hi Hl. pose proof (has_bounds _ _ _ Hv). destruct Hfr as [? ? _ _ _].
  apply u32_small. unfold is_u32, bytes_len in *. lia.
Qed.

Lemma read_words_run a v i n s :
  has blob a v -> 0 <= i -> i + 4 * Z.of_nat n <= bytes_len v ->
  read_words blob fdt (fdt + a + i) n s = Ret (words_at v i n) s.
Proof.
  intros Hv. revert i. induction n as [|n IH]; intros i Hi Hl; [done|]. cbn [read_words words_at].
  rewrite (bind_run _ _ _ _ _ (has_word fdt blob Hfr a v i s Hv Hi ltac:(lia))).
  replace (fdt + a + i + 4) with (fdt + a + (i + 4)) by lia. rewrite (addr_small a v) by (done || lia).
  by rewrite (bind_run _ _ _ _ _ (IH (i + 4) ltac:(lia) ltac:(lia))).
Qed.

Lemma read_resources_run a v ac sc i n s :
  has blob a v -> 0 < ac -> 0 <= sc -> 0 <= i -> i + 4 * (ac + sc) * Z.of_nat n <= bytes_len v ->
  read_resources blob fdt (fdt + a + i) ac sc n s = Ret (resources_at v ac sc i n) s.
Proof.
  intros Hv Hac Hsc. revert i. induction n as [|n IH]; intros i Hi Hl; [done|]. cbn [read_resources resources_at].
  rewrite (bind_run _ _ _ _ _ (read_words_run a v i (Z.to_nat ac) s Hv Hi ltac:(nia))).
  replace (fdt + a + i + 4 * ac) with (fdt + a + (i + 4 * ac)) by lia.
  rewrite (addr_small a v) by (done || nia).
  rewrite (bind_run _ _ _ _ _ (read_words_run a v (i + 4 * ac) (Z.to_nat sc) s Hv ltac:(lia) ltac:(nia))).
  replace (fdt + a + i + 4 * (ac + sc)) with (fdt + a + (i + 4 * (ac + sc))) by lia.
  rewrite (addr_small a v) by (done || nia).
  by rewrite (bind_run _ _ _ _ _ (IH (i + 4 * (ac + sc)) ltac:(lia) ltac:(nia))).
Qed.

Lemma strncmp_run a v l s :
  has blob a v -> strncmp_eq blob fdt (fdt + a) l (length v) s = Ret (agrees v l) s.
Proof.
  revert a l. induction v as [|c v IH]; intros a [|b l] Hv; [done..|].
  cbn [length strncmp_eq agrees]. rewrite (bind_run _ _ _ _ _ (has_load8 fdt blob Hfr _ _ _ s Hv)).
  destruct (has_step fdt blob Hfr _ _ _ Hv) as [Hv' Hu]. rewrite Hu.
  destruct (c =? b), (b =? 0); [done| |done..]. by rewrite (IH _ _ Hv').
Qed.

Lemma strings_length v : strings (split_strings v) = v -> (length (split_strings v) <= length v)%nat.
Proof.
  intros Hv. rewrite <- Hv at 2. clear. generalize (split_strings v). intros l.
  induction l as [|x l IH]; [done|]. rewrite strings_cons, length_app. cbn. lia.
Qed.

(** Counting and reading the strings of a list. *)
Lemma count_strings_run f a l c s :
  has blob a (strings l) -> Forall nz l -> (length l < f)%nat ->
  stringlist_count_loop blob fdt f (fdt + a) (fdt + a + bytes_len (strings l)) c s =
    Ret (c + Z.of_nat (length l)) s.
Proof.
  revert f a c. induction l as [|x l IH]; intros f a c Ha Hnz Hf; (destruct f as [|f]; [lia|]); cbn [stringlist_count_loop].
  - cbn [strings map concat bytes_len length]. rewrite (proj2 (Z.ltb_ge _ _)) by (unfold bytes_len; cbn; lia).
    unfold ret. f_equal. lia.
  - apply Forall_cons in Hnz as [Hx Hl]. rewrite strings_cons in Ha |- *.
    rewrite bytes_len_app, bytes_len_cons. pose proof (bytes_len_nonneg x). pose proof (bytes_len_nonneg (strings l)).
    rewrite (proj2 (Z.ltb_lt _ _)) by lia. unfold strnlen, bind at 1.
    unfold bind at 1. rewrite (cstring_has fdt blob Hfr _ _ _ _ s Hx Ha) by (unfold bytes_len in *; lia).
    unfold ret at 1. cbv zeta. change (Z.of_nat (length x)) with (bytes_len x). rewrite Z.gtb_ltb, (proj2 (Z.ltb_ge _ _)) by lia.
    apply has_app in Ha as [_ Ha]. apply has_cons in Ha as [_ Ha].
    replace (fdt + a + (bytes_len x + 1)) with (fdt + (a + bytes_len x + 1)) by lia.
    replace (fdt + a + (bytes_len x + (1 + bytes_len (strings l)))) with
      (fdt + (a + bytes_len x + 1) + bytes_len (strings l)) by lia.
    rewrite IH by (done || (cbn in Hf; lia)). f_equal. cbn [length]. lia.
Qed.
Lemma read_strings_run a l s :
  has blob a (strings l) -> Forall nz l ->
  read_strings blob fdt (fdt + a) (length l) s = Ret (map string_of_bytes l) s.
Proof.
  revert a. induction l as [|x l IH]; intros a Ha Hnz; [done|]. apply Forall_cons in Hnz as [Hx Hl].
  cbn [length read_strings map]. rewrite strings_cons in Ha. pose proof (has_bounds _ _ _ Ha) as [Ha0 Hb].
  rewrite bytes_len_app, bytes_len_cons in Hb. pose proof (bytes_len_nonneg x). pose proof (bytes_len_nonneg (strings l)).
  unfold cstring. rewrite (bind_run _ _ _ _ _ (cstring_has fdt blob Hfr (S (length blob)) _ _ _ s Hx Ha ltac:(unfold bytes_len in *; lia))).
  change (Z.of_nat (length x)) with (bytes_len x).
  apply has_app in Ha as [_ Ha]. apply has_cons in Ha as [_ Ha].
  destruct Hfr as [? ? _ _ _]. rewrite u32_small by (unfold is_u32, bytes_len in *; lia).
  replace (fdt + a + bytes_len x + 1) with (fdt + (a + bytes_len x + 1)) by lia.
  by rewrite (bind_run _ _ _ _ _ (IH _ Ha Hl)).
Qed.

Context (o : Z) (t : tree) (st : stack) (Hloc : located blob o t st).

Lemma cells_run name least s :
  (v <- fdt_getprop fdt blob o (chars name);;
   let '(p, len) := v in
   if p =? 0 then ret 2 else
   if negb (len =? 4) then ret (- FDT_ERR_BADNCELLS) else
   v <- fdt32_to_cpu fdt blob p;;
   let val := i32 v in
   if (val <? least) || (val >? FDT_MAX_NCELLS) then ret (- FDT_ERR_BADNCELLS) else ret val) s =
  Ret (cells_of name least t) s.
Proof.
  pose proof (getprop_run fdt blob (S := kernel P) Hfr o t st (chars name) Hloc) as Hg. unfold cells_of.
  destruct (value_of (chars name) t) as [v|]; [|by rewrite (bind_run _ _ _ _ _ (Hg s))].
  destruct Hg as (a & Ha & _ & Hg). rewrite (bind_run _ _ _ _ _ (Hg s)).
  pose proof (has_bounds _ _ _ Ha). pose proof Hfr as [? _ _ _ _]. rewrite (proj2 (Z.eqb_neq _ _)) by lia.
  destruct (Z.eqb_spec (bytes_len v) 4); [|done]. cbn [negb].
  pose proof (has_word fdt blob Hfr a v 0 s Ha ltac:(lia) ltac:(lia)) as Hw. rewrite Z.add_0_r in Hw.
  rewrite (bind_run _ _ _ _ _ Hw). cbv zeta. by destruct (_ || _).
Qed.
Lemma address_cells_run s : fdt_address_cells fdt blob o s = Ret (address_cells t) s.
Proof.
  unfold address_cells. rewrite <- cells_run. unfold fdt_address_cells.
  unfold bind at 1 3. destruct (fdt_getprop _ _ _ _ s) as [[p len] s'| | |]; [|done..].
  destruct (p =? 0); [done|]. destruct (negb _); [done|]. unfold bind.
  destruct (fdt32_to_cpu _ _ _ s'); [|done..]. cbv zeta.
  by replace (i32 a <=? 0) with (i32 a <? 1) by lia.
Qed.
Lemma size_cells_run s : fdt_size_cells fdt blob o s = Ret (size_cells t) s.
Proof. apply cells_run. Qed.

Lemma status_run s :
  _fdt_get_status blob fdt o s = Ret (if status_ok t then 3 else 0) s.
Proof.
  unfold _fdt_get_status. pose proof (getprop_run fdt blob (S := kernel P) Hfr o t st (chars "status") Hloc) as Hg.
  unfold status_ok. destruct (value_of (chars "status") t) as [v|]; [|by rewrite (bind_run _ _ _ _ _ (Hg s))].
  destruct Hg as (a & Ha & _ & Hg). rewrite (bind_run _ _ _ _ _ (Hg s)).
  pose proof (has_bounds _ _ _ Ha). pose proof Hfr as [? _ _ _ _]. rewrite (proj2 (Z.eqb_neq _ _)) by lia.
  assert (Hok : is_okay blob fdt (fdt + a) (bytes_len v) s =
    Ret (agrees v (chars "ok" ++ [0]) || agrees v (chars "okay" ++ [0])) s).
  { unfold is_okay, bytes_len. rewrite Nat2Z.id. rewrite (bind_run _ _ _ _ _ (strncmp_run _ _ _ _ Ha)).
    destruct (agrees v _); [done|]. by rewrite (strncmp_run _ _ _ _ Ha). }
  rewrite (bind_run _ _ _ _ _ Hok). by destruct (_ || _).
Qed.

Lemma check_any_run l s :
  string_lists t -> Forall (fun c => nz (chars c) /\ chars c <> []) l ->
  check_any blob fdt o l s = Ret (existsb (compatible_with t) l) s.
Proof.
  intros Hsl. induction 1 as [|c l [Hc Hne] _ IH]; [done|]. cbn [check_any existsb].
  rewrite (bind_run _ _ _ _ _ (check_compatible_run fdt blob Hfr o t st (chars c) s Hloc Hc Hne Hsl)).
  unfold compatible_with at 1. destruct (value_of (chars "compatible") t) as [v|]; [|done].
  by destruct (bool_decide _).
Qed.

(** The words of a property. *)
Lemma words_run name :
  exists p len, (forall s, fdt_getprop fdt blob o (chars name) s = Ret (p, len) s) /\
    (p = 0 -> words_prop name t = []) /\
    (p <> 0 -> 0 <= len < 2 ^ 30 /\ Z.of_nat (length (words_prop name t)) = Z.quot len 4 /\
       forall s, read_words blob fdt p (Z.to_nat (Z.quot len 4)) s = Ret (words_prop name t) s).
Proof.
  pose proof (getprop_run fdt blob (S := kernel P) Hfr o t st (chars name) Hloc) as Hg. unfold words_prop.
  destruct (value_of (chars name) t) as [v|]; [|by exists 0, (- FDT_ERR_NOTFOUND)].
  destruct Hg as (a & Ha & Hl & Hg). exists (fdt + a), (bytes_len v). split; [done|].
  pose proof (has_bounds _ _ _ Ha). pose proof Hfr as [? _ _ _ _]. pose proof (bytes_len_nonneg v) as H0.
  split; [lia|]. intros _. split; [lia|]. unfold words_of. rewrite Z.quot_div_nonneg by lia.
  pose proof (Z.mul_div_le (bytes_len v) 4 ltac:(lia)). pose proof (Z.div_pos (bytes_len v) 4 ltac:(lia) ltac:(lia)).
  split; [rewrite words_at_length; lia|]. intros s.
  rewrite <- (Z.add_0_r (fdt + a)). apply read_words_run; [done|lia|lia].
Qed.
End read.
