(* ===== verification/DtPlaces.v ===== *)
(** * The nodes of a device tree and which of them get a device

    The nodes of a tree by their place in its blob: parents and children, the
    node of a phandle, the interrupt controllers a node refers to, and the
    reference for what core/drivers/dt.c probes: a node gets a device when it is
    compatible with something, not disabled, and its parent gets one. *)

From stdpp Require Import prelude gmap list strings.
From Stdlib Require Import ZArith Lia.
From S2P Require Import Prelude Platform State Interrupt Dt Fdt FdtTree FdtScan FdtSpec DtProbe DtRead.
#[local] Open Scope Z_scope.
#[local] Open Scope kernel_scope.

Lemma chain_tail b r L1 p L2 e : chain b r (L1 ++ p :: L2) e -> chain b (nxt b p) L2 e.
Proof. revert r. induction L1 as [|x L1 IH]; intros r Hc; [apply Hc|]. destruct Hc as [_ Hc]. by eapply IH. Qed.

(** ** Parents and children *)

Definition root_place (t : tree) : place := mk_place 0 0 (-1) t [].
Fixpoint kids_from (b d par : Z) (st : stack) (l : list tree) : list place :=
  match l with
  | [] => []
  | k :: l' => mk_place b d par k (l' :: st) :: kids_from (b + bytes_len (enc k)) d par st l'
  end.
(** The children of a node, and all the nodes of its subtree. *)
Definition kids_of (p : place) : list place :=
  kids_from (body_off (pl_off p) (pl_tree p)) (pl_depth p + 1) (pl_off p) (pl_stack p) (t_kids (pl_tree p)).
Definition below (p : place) : list place :=
  places (pl_off p) (pl_depth p) (pl_parent p) (pl_stack p) (pl_tree p).

Lemma kids_from_below b d par st l : kid_places b d par st l = concat (map below (kids_from b d par st l)).
Proof. revert b. induction l as [|k l IH]; intros b; [done|]. cbn [kid_places kids_from map concat]. by rewrite IH. Qed.
Lemma below_eq p : below p = p :: concat (map below (kids_of p)).
Proof. unfold below at 1. rewrite places_node. unfold kids_of. rewrite <- kids_from_below. by destruct p. Qed.
Lemma below_self p : p ∈ below p.
Proof. rewrite below_eq. left. Qed.
Lemma below_kid p q : q ∈ kids_of p -> forall r, r ∈ below q -> r ∈ below p.
Proof.
  intros Hq r Hr. rewrite below_eq. right. rewrite list_elem_of_In, in_concat. exists (below q).
  rewrite <- !list_elem_of_In. split; [|done]. by apply list_elem_of_fmap_2.
Qed.
Lemma below_inv p r : r ∈ below p -> r = p \/ exists q, q ∈ kids_of p /\ r ∈ below q.
Proof.
  rewrite below_eq. intros [->|Hr]%elem_of_cons; [by left|right].
  rewrite list_elem_of_In, in_concat in Hr. destruct Hr as (l & Hl & Hr).
  rewrite <- list_elem_of_In in Hl. apply list_elem_of_fmap in Hl as (q & -> & Hq). exists q. split; [done|by apply list_elem_of_In].
Qed.
Lemma kids_offs p : map pl_off (kids_of p) = kid_offs (body_off (pl_off p) (pl_tree p)) (t_kids (pl_tree p)).
Proof.
  unfold kids_of. generalize (body_off (pl_off p) (pl_tree p)), (pl_depth p + 1).
  generalize (t_kids (pl_tree p)). intros l. induction l as [|k l IH]; intros b d; [done|].
  cbn [kids_from map kid_offs]. by rewrite IH.
Qed.
Lemma kids_from_in b d par st l q :
  q ∈ kids_from b d par st l -> pl_parent q = par /\ pl_depth q = d /\ pl_tree q ∈ l.
Proof.
  revert b. induction l as [|k l IH]; intros b; [by intros ?%elem_of_nil|].
  intros [-> |H]%elem_of_cons; [cbn; split_and!; [done..|left]|].
  destruct (IH _ H) as (? & ? & ?). split_and!; [done..|by right].
Qed.
Lemma kids_in p q : q ∈ kids_of p -> pl_parent q = pl_off p /\ pl_depth q = pl_depth p + 1 /\ pl_tree q ∈ t_kids (pl_tree p).
Proof. apply kids_from_in. Qed.

(** Induction over the subtree of a node. *)
Lemma place_ind (Q : place -> Prop) :
  (forall p, (forall q, q ∈ kids_of p -> Q q) -> Q p) -> forall p, Q p.
Proof.
  intros H p. remember (pl_tree p) as t eqn:Ht. revert p Ht.
  induction t as [n ps ks IH] using tree_ind'. intros p Ht. apply H. intros q Hq.
  destruct (kids_in _ _ Hq) as (_ & _ & Hin). rewrite <- Ht in Hin. cbn in Hin.
  rewrite Forall_forall in IH. by apply (IH _ Hin).
Qed.

Section tree.
Context (t : tree).
#[local] Abbreviation root := (root_place t).

Lemma all_places_eq : all_places t = below root.
Proof. done. Qed.
Lemma root_in : root ∈ all_places t.
Proof. apply below_self. Qed.
Lemma below_closed p q : p ∈ all_places t -> q ∈ below p -> q ∈ all_places t.
Proof.
  rewrite all_places_eq. generalize root as r. intros r. revert p. induction r as [r IH] using place_ind.
  intros p Hp Hq. destruct (below_inv _ _ Hp) as [->|(k & Hk & Hp')]; [done|].
  eapply below_kid; [exact Hk|]. by eapply IH.
Qed.
Lemma kids_closed p q : p ∈ all_places t -> q ∈ kids_of p -> q ∈ all_places t.
Proof. intros Hp Hq. eapply below_closed; [exact Hp|]. eapply below_kid; [done|apply below_self]. Qed.
(** Every node but the root is the child of a node. *)
Lemma has_parent p : p ∈ all_places t -> p = root \/ exists q, q ∈ all_places t /\ p ∈ kids_of q.
Proof.
  cut (forall r, r ∈ all_places t -> p ∈ below r -> p = r \/ exists q, q ∈ all_places t /\ p ∈ kids_of q).
  { intros H Hp. apply (H root); [apply root_in|done]. }
  intros r. induction r as [r IH] using place_ind. intros Hr Hp.
  destruct (below_inv _ _ Hp) as [->|(k & Hk & Hp')]; [by left|right].
  destruct (IH k Hk (kids_closed _ _ Hr Hk) Hp') as [->|H]; [by exists r|done].
Qed.

Context (fdt : Z) (blob : list Z) {S : Type} (Hh : holds_tree fdt blob t).
#[local] Definition Hfr : framed fdt blob := ht_framed _ _ _ Hh.
Implicit Types s : S.

Lemma place_located p : p ∈ all_places t -> located blob (pl_off p) (pl_tree p) (pl_stack p).
Proof. intros Hp. pose proof (all_located fdt blob t Hh) as Hl. rewrite Forall_forall in Hl. by apply Hl. Qed.
Lemma place_off p : p ∈ all_places t -> 0 <= pl_off p.
Proof. intros Hp. by destruct (located_small fdt blob Hfr _ _ _ (place_located p Hp)). Qed.

(** Offsets grow in the order of the blob. *)
Lemma places_sorted L1 p L2 q : all_places t = L1 ++ p :: L2 -> q ∈ L2 -> pl_off p < pl_off q.
Proof.
  intros HL Hq. pose proof (chain_root true t : chain true _ (all_places t) _) as Hc.
  pose proof (all_located fdt blob t Hh) as Hl. rewrite HL in Hc, Hl.
  apply Forall_app in Hl as [_ Hl]. apply Forall_cons in Hl as [Hp Hl]. apply chain_tail in Hc.
  pose proof (chain_lt fdt blob Hfr true _ _ _ Hc Hl q Hq) as Hle.
  destruct (nxt_ge blob true p Hp) as [Hn|Hn]; [|lia].
  destruct L2 as [|x L2]; [by apply elem_of_nil in Hq|]. destruct Hc as [Hx _].
  apply Forall_cons in Hl as [Hx' _]. destruct (located_small fdt blob Hfr _ _ _ Hx') as (Hx0 & _).
  rewrite Hx in Hn. cbn in Hn. lia.
Qed.
(** So the offset determines the node. *)
Lemma place_unique p q : p ∈ all_places t -> q ∈ all_places t -> pl_off p = pl_off q -> p = q.
Proof.
  intros Hp Hq Heq. apply list_elem_of_split in Hp as (L1 & L2 & HL). rewrite HL in Hq.
  apply elem_of_app in Hq as [Hq|[->|Hq]%elem_of_cons]; [|done|].
  - apply list_elem_of_split in Hq as (K1 & K2 & ->). rewrite <- app_assoc in HL. cbn in HL.
    pose proof (places_sorted _ _ _ p HL ltac:(set_solver)). lia.
  - pose proof (places_sorted _ _ _ q HL Hq). lia.
Qed.
Lemma root_off p : p ∈ all_places t -> p <> root -> 0 < pl_off p.
Proof.
  intros Hp Hne. pose proof (place_off p Hp). assert (pl_off p <> 0); [|lia].
  intros H0. apply Hne, place_unique; [done|apply root_in|done].
Qed.
Lemma kid_not_root p q : p ∈ all_places t -> q ∈ kids_of p -> q <> root.
Proof. intros Hp Hq ->. destruct (kids_in _ _ Hq) as (Hpar & _). cbn in Hpar. pose proof (place_off p Hp). lia. Qed.
Lemma kid_unique p p' q : p ∈ all_places t -> p' ∈ all_places t -> q ∈ kids_of p -> q ∈ kids_of p' -> p = p'.
Proof.
  intros Hp Hp' Hq Hq'. apply place_unique; [done..|].
  destruct (kids_in _ _ Hq) as (<- & _). by destruct (kids_in _ _ Hq') as (<- & _).
Qed.

(** What libfdt computes as the parent of a node. *)
Lemma root_parent_run s : fdt_parent_offset fdt blob (pl_off root) s = Ret (- FDT_ERR_NOTFOUND) s.
Proof.
  assert (HL : all_places t = [] ++ root :: concat (map below (kids_of root))) by (rewrite all_places_eq; apply below_eq).
  exact (proj2 (fdt_parent_run fdt blob Hfr t Hh [] root _ s HL)).
Qed.
Lemma kid_parent_run p q s :
  p ∈ all_places t -> q ∈ kids_of p -> fdt_parent_offset fdt blob (pl_off q) s = Ret (pl_off p) s.
Proof.
  intros Hp Hq. pose proof (kid_not_root _ _ Hp Hq) as Hne. pose proof (kids_closed _ _ Hp Hq) as Hqa.
  apply list_elem_of_split in Hqa as (L1 & L2 & HL).
  destruct (fdt_parent_run fdt blob Hfr t Hh L1 q L2 s HL) as [_ ->].
  destruct (kids_in _ _ Hq) as (-> & _). rewrite bool_decide_eq_false_2; [done|]. intros ->.
  rewrite all_places_eq, below_eq in HL. by injection HL.
Qed.

(** ** Phandles *)

(** The node of a phandle. *)
Definition resolve (ph : Z) : option place :=
  if (ph =? 0) || (ph =? 0xffffffff) then None
  else List.find (fun p => phandle_of (pl_tree p) =? ph) (all_places t).
Lemma resolve_in ph c : resolve ph = Some c -> c ∈ all_places t.
Proof.
  unfold resolve. destruct (_ || _); [done|]. intros H. apply find_some in H as [H _].
  by apply list_elem_of_In.
Qed.
Lemma resolve_run ph s :
  exists o, fdt_node_offset_by_phandle fdt blob ph s = Ret o s /\
    match resolve ph with Some c => o = pl_off c | None => o < 0 end.
Proof.
  unfold resolve. destruct ((ph =? 0) || (ph =? 0xffffffff)) eqn:Hph.
  - exists (- FDT_ERR_BADPHANDLE). unfold fdt_node_offset_by_phandle. by rewrite Hph.
  - apply orb_false_iff in Hph as [H0%Z.eqb_neq H1%Z.eqb_neq].
    rewrite (by_phandle_spec fdt blob Hfr t Hh ph s H0 H1). eexists. split; [done|].
    by destruct (List.find _ _).
Qed.

(** ** Which nodes get a device, and on which controllers they depend *)

Inductive admitted : place -> Prop :=
| admitted_root : admitted root
| admitted_kid p q : p ∈ all_places t -> admitted p -> q ∈ kids_of p -> usable (pl_tree q) = true -> admitted q.

Lemma admitted_in p : admitted p -> p ∈ all_places t.
Proof. intros [|? q Hp _ Hq _]; [apply root_in|by eapply kids_closed]. Qed.
Lemma admitted_inv p q : p ∈ all_places t -> q ∈ kids_of p -> admitted q -> admitted p /\ usable (pl_tree q) = true.
Proof.
  intros Hp Hq Ha. inversion Ha as [Hr|p' ? Hp' Ha' Hq' Hu]; subst.
  - by destruct (kid_not_root _ _ Hp Hq).
  - by rewrite (kid_unique p p' q Hp Hp' Hq Hq').
Qed.
Lemma admitted_below p q : p ∈ all_places t -> q ∈ below p -> admitted q -> admitted p.
Proof.
  revert q. induction p as [p IH] using place_ind. intros q Hp Hq Ha.
  destruct (below_inv _ _ Hq) as [->|(k & Hk & Hq')]; [done|].
  pose proof (kids_closed _ _ Hp Hk) as Hka. by apply (admitted_inv p k Hp Hk), (IH k Hk q).
Qed.

(** The phandle of the interrupt parent: the nearest one up the tree. *)
Inductive irq_phandle : place -> Z -> Prop :=
| irq_own p ph : word_prop (chars "interrupt-parent") (pl_tree p) = Some ph -> irq_phandle p ph
| irq_up p q ph : word_prop (chars "interrupt-parent") (pl_tree q) = None ->
    p ∈ all_places t -> q ∈ kids_of p -> irq_phandle p ph -> irq_phandle q ph.
Definition has_irqs (t : tree) : Prop :=
  is_Some (value_of (chars "sp-interrupts") t) \/ is_Some (value_of (chars "interrupts") t).
(** The controllers that an extended specifier goes through. *)
Fixpoint ext_controllers (n : nat) (ws : list Z) : list place :=
  match n, ws with
  | Datatypes.S n', ph :: ws' =>
      match resolve ph with
      | Some c => c :: ext_controllers n' (drop (Z.to_nat (default 0 (word_prop (chars "#interrupt-cells") (pl_tree c)))) ws')
      | None => []
      end
  | _, _ => []
  end.
Definition ext_refs (p : place) : list place :=
  let ws := words_prop "interrupts-extended" (pl_tree p) in ext_controllers (length ws) ws.

(** The tree keeps to the conventions of device trees as far as the parsers rely
    on them: the root is not a device of its own, lists of strings end
    with a zero, interrupt specifiers have one to three cells, and no node is,
    through parents and controllers, its own controller; [rank] is the length of
    the longest such path. *)
Record conventional (rank : Z -> nat) : Prop := {
  cv_root : forall name, name ∈ ["reg"; "sp-interrupts"; "interrupts"; "interrupts-extended"]%string ->
    value_of (chars name) t = None;
  cv_lists : forall p, p ∈ all_places t -> string_lists (pl_tree p) /\ class_lists (pl_tree p);
  cv_cells : forall p c, p ∈ all_places t -> word_prop (chars "#interrupt-cells") (pl_tree p) = Some c -> 1 <= c <= 3;
  cv_parent : forall p q, p ∈ all_places t -> q ∈ kids_of p -> (rank (pl_off p) < rank (pl_off q))%nat;
  cv_irq : forall p ph c, p ∈ all_places t -> has_irqs (pl_tree p) -> irq_phandle p ph -> resolve ph = Some c ->
    (rank (pl_off c) < rank (pl_off p))%nat;
  cv_ext : forall p c, p ∈ all_places t -> c ∈ ext_refs p -> (rank (pl_off c) < rank (pl_off p))%nat;
}.
End tree.
