(* ===== verification/FdtPath.v ===== *)
(** * Paths of a device tree

    [fdt_path_offset] walks a blob name by name; the reference walks the tree,
    from a node to its first child with the name. *)

From stdpp Require Import prelude gmap list strings.
From Stdlib Require Import ZArith Lia.
From S2P Require Import Prelude Platform State Fdt FdtTree FdtScan FdtSpec DtPlaces.
#[local] Open Scope Z_scope.
#[local] Open Scope kernel_scope.

(** A name without a unit address also names the node that has one. *)
Definition name_eq (s n : list Z) : bool :=
  bool_decide (take (length s) n = s) &&
  match n !! length s with None => true | Some c => negb (existsb (Z.eqb 64) s) && (c =? 64) end.
Definition find_kid (p : place) (s : list Z) : option place := List.find (fun q => name_eq s (t_name (pl_tree q))) (kids_of p).
Fixpoint resolve (p : place) (names : list (list Z)) : option place :=
  match names with
  | [] => Some p
  | s :: names => q ← find_kid p s; resolve q names
  end.
Definition path_of (names : list (list Z)) : list Z := match names with [] => [47] | _ => concat (map (cons 47) names) end.
Definition name_ok (s : list Z) : Prop := s <> [] /\ Forall (fun c => c <> 0 /\ c <> 47) s /\ bytes_len s < 2 ^ 30.

Definition offset_or_notfound (p : option place) : Z := match p with Some p => pl_off p | None => - FDT_ERR_NOTFOUND end.

(** Depths do not matter to names. *)
Lemma find_kid_depth (f : tree -> bool) b d d' par st l :
  offset_or_notfound (List.find (fun q => f (pl_tree q)) (kids_from b d par st l)) =
  offset_or_notfound (List.find (fun q => f (pl_tree q)) (kids_from b d' par st l)).
Proof. revert b. induction l as [|k l IH]; intros b; [done|]. cbn. destruct (f k); [done|apply IH]. Qed.
Lemma find_app {A} (f : A -> bool) l1 l2 : List.find f (l1 ++ l2) = match List.find f l1 with Some x => Some x | None => List.find f l2 end.
Proof. induction l1 as [|x l1 IH]; [done|]. cbn. by destruct (f x). Qed.
Lemma find_none_Forall {A} (f : A -> bool) l : Forall (fun x => f x = false) l -> List.find f l = None.
Proof. induction 1 as [|x l Hx _ IH]; [done|]. cbn. by rewrite Hx. Qed.
(** Among all nodes below, those at depth one are the children. *)
Lemma find_at_one (f : tree -> bool) b par st l :
  List.find (fun q => (pl_depth q =? 1) && f (pl_tree q)) (kid_places b 1 par st l) = List.find (fun q => f (pl_tree q)) (kids_from b 1 par st l).
Proof.
  revert b. induction l as [|k l IH]; intros b; [done|]. cbn [kid_places kids_from]. rewrite find_app, places_node. cbn [List.find pl_depth pl_tree].
  change (1 =? 1) with true. cbn [andb]. destruct (f k); [done|].
  rewrite (find_none_Forall _ (kid_places (body_off b k) _ _ _ _)); [apply IH|].
  pose proof (kid_places_depth (t_kids k) (body_off b k) (1 + 1) b (l :: st)) as Hd. eapply Forall_impl; [exact Hd|].
  intros q Hq. cbn in Hq. by rewrite (proj2 (Z.eqb_neq _ _)) by lia.
Qed.

Section path.
Context (fdt : Z) (blob : list Z) {S : Type} (t : tree) (Hh : holds_tree fdt blob t).
#[local] Definition Hfr : framed fdt blob := ht_framed _ _ _ Hh.
Implicit Types s : S.
#[local] Abbreviation so := (off_struct blob).
#[local] Abbreviation sz := (size_struct blob).

Lemma memcmp_prefix i l r str s : nz l -> nz str -> has blob i (l ++ 0 :: r) ->
  memcmp_eq fdt blob (fdt + i) str s = Ret (bool_decide (take (length str) l = str)) s.
Proof.
  intros Hl. revert i str. induction Hl as [|b l Hb _ IH]; intros i str Hs H; cbn [app] in H;
    destruct (has_step fdt blob Hfr _ _ _ H) as [H' Hu]; (destruct Hs as [|c str Hc Hs]; cbn [length memcmp_eq]; [done|]);
    rewrite (bind_run _ _ _ _ _ (has_load8 fdt blob Hfr _ _ _ s H)).
  - by rewrite (proj2 (Z.eqb_neq 0 c)).
  - rewrite Hu. cbn [take]. destruct (Z.eqb_spec b c) as [->|Hne].
    + rewrite IH by done. f_equal. apply bool_decide_ext. split; [by intros ->|by intros [= H1]].
    + rewrite bool_decide_eq_false_2 by congruence. done.
Qed.

Lemma nodename_eq_run o k st str s : located blob o k st -> nz str -> bytes_len str < 2 ^ 30 ->
  _fdt_nodename_eq fdt blob o str s = Ret (name_eq str (t_name k)) s.
Proof.
  intros Hl Hs Hlen. destruct (located_small fdt blob Hfr _ _ _ Hl) as (Ho & Hsz & Hs30). destruct Hl as [Hat Hwf _ _].
  destruct k as [n ps ks]. rewrite enc_rest_node in Hat. apply wf_node in Hwf as (Hn & _). apply at_app in Hat as [Hhd _].
  pose proof (offsets_range fdt blob Hfr) as (Hso & _ & Hb). pose proof Hfr as [Ha Hbl _ _ _].
  unfold enc_head in Hhd. apply at_app in Hhd as [_ Hhd]. rewrite be32_len in Hhd. unfold pad in Hhd. apply at_app in Hhd as [Hname Hpad].
  pose proof (bytes_len_nonneg str) as Hstr. cbn [t_name].
  unfold _fdt_nodename_eq. rewrite i32_small by (unfold FDT_TAGSIZE; lia). change (Z.of_nat (length str)) with (bytes_len str).
  rewrite (bind_run _ _ _ _ _ (offset_ptr_run fdt blob Hfr (o + FDT_TAGSIZE) (bytes_len str + 1) s ltac:(unfold FDT_TAGSIZE; lia) ltac:(lia))).
  unfold FDT_TAGSIZE. destruct Hname as (Hhas & _ & Hle). rewrite bytes_len_app in Hle. change (bytes_len [0]) with 1 in Hle.
  replace (so + (o + 4)) with (so + o + 4) in Hhas by lia.
  destruct (Z.leb_spec (o + 4 + (bytes_len str + 1)) sz) as [Hin|Hout].
  2:{ change (0 =? 0) with true. cbv iota. unfold name_eq. rewrite bool_decide_eq_false_2; [done|].
      intros Ht. apply (f_equal length) in Ht. rewrite length_take in Ht. unfold bytes_len in *. lia. }
  rewrite (proj2 (Z.eqb_neq (fdt + so + (o + 4)) 0)) by lia.
  replace (fdt + so + (o + 4)) with (fdt + (so + o + 4)) by lia.
  rewrite (bind_run _ _ _ _ _ (memcmp_prefix (so + o + 4) n [] str s Hn Hs Hhas)). unfold name_eq.
  destruct (bool_decide_reflect (take (length str) n = str)) as [Ht|Ht]; cbn [negb andb]; [|done].
  assert (Hsplit : n ++ [0] = str ++ drop (length str) n ++ [0]) by (rewrite <- Ht at 1; by rewrite app_assoc, take_drop).
  rewrite Hsplit in Hhas. apply has_app in Hhas as [_ Hhas]. unfold bytes_len in *.
  destruct (drop (length str) n) as [|c rest] eqn:Ed.
  - assert (Hnone : n !! length str = None).
    { rewrite <- (Nat.add_0_r (length str)), <- lookup_drop. by rewrite Ed. }
    rewrite Hnone. rewrite u32_small by (unfold is_u32; lia). replace (fdt + (so + o + 4) + _) with (fdt + (so + o + 4 + Z.of_nat (length str))) by lia.
    by rewrite (bind_run _ _ _ _ _ (has_load8 fdt blob Hfr _ _ _ s Hhas)).
  - assert (Hsome : n !! length str = Some c).
    { rewrite <- (Nat.add_0_r (length str)), <- lookup_drop. by rewrite Ed. }
    rewrite Hsome. rewrite u32_small by (unfold is_u32; lia). replace (fdt + (so + o + 4) + _) with (fdt + (so + o + 4 + Z.of_nat (length str))) by lia.
    rewrite (bind_run _ _ _ _ _ (has_load8 fdt blob Hfr _ _ _ s Hhas)).
    assert (Hc : c <> 0) by (by apply (Forall_lookup_1 _ _ _ _ Hn Hsome)). by rewrite (proj2 (Z.eqb_neq c 0)).
Qed.

(** The search among the nodes of the walk. *)
Lemma subnode_run L f r e str s : chain true r L (e, Some (-1)) -> 0 <= e -> Forall (pl_located blob) L -> Forall (fun p => 0 <= pl_depth p) L ->
  r.1 < 0 \/ sz - r.1 < 4 * Z.of_nat f -> (0 < f)%nat -> nz str -> bytes_len str < 2 ^ 30 ->
  subnode_loop fdt blob f r.1 (default 0 r.2) str s =
    Ret (offset_or_notfound (List.find (fun q => (pl_depth q =? 1) && name_eq str (t_name (pl_tree q))) L)) s.
Proof.
  intros Hc He Hl Hd Hf Hpos Hs Hlen. revert f r Hc Hf Hpos. induction L as [|p L IH]; intros f r Hc Hf Hpos; (destruct f as [|f]; [lia|]); cbn [subnode_loop].
  - rewrite Hc. cbn [fst snd default]. rewrite andb_false_r. done.
  - destruct Hc as [-> Hc]. apply Forall_cons in Hl as [Hp Hl]. apply Forall_cons in Hd as [Hdp Hd]. cbn [fst snd] in *.
    change (default 0 (dp true (pl_depth p))) with (pl_depth p).
    destruct (located_small fdt blob Hfr _ _ _ Hp) as (Ho & Hsz & _).
    rewrite (proj2 (Z.geb_le (pl_off p) 0)), (proj2 (Z.geb_le (pl_depth p) 0)) by lia. cbn [andb List.find].
    assert (Hfound : (if pl_depth p =? 1 then _fdt_nodename_eq fdt blob (pl_off p) str else ret false) s =
      Ret ((pl_depth p =? 1) && name_eq str (t_name (pl_tree p))) s).
    { destruct (pl_depth p =? 1); [|done]. by apply (nodename_eq_run _ _ (pl_stack p)). }
    rewrite (bind_run _ _ _ _ _ Hfound). destruct ((pl_depth p =? 1) && name_eq str (t_name (pl_tree p))); [done|].
    rewrite (bind_run _ _ _ _ _ (next_node_nxt fdt blob Hfr true p s Hp)). pose proof (nxt_ge blob true p Hp) as Hge.
    destruct (nxt true p) as [o d] eqn:Hn. change o with (o, d).1 at 1. change d with (o, d).2 at 1. apply IH; [done|done|done| |].
    + cbn in *. lia.
    + destruct Hge as [Hge|Hge]; cbn in Hge; [|lia]. destruct L as [|x L]; [cbn in Hc; injection Hc as -> ->; lia|].
      destruct Hc as [Hx _]. apply Forall_cons in Hl as [Hlx _]. destruct (located_small fdt blob Hfr _ _ _ Hlx) as (Hx0 & _). injection Hx as -> _. lia.
Qed.

(** From any node, the walk of its subtree ends one level above it. *)
Lemma chain_sub o par st k : chain true (o, Some 0) (places o 0 par st k) (o + bytes_len (enc k), Some (-1)).
Proof.
  destruct k as [n ps ks]. rewrite places_node. split; [done|]. unfold nxt. cbn [pl_off pl_depth pl_tree pl_stack].
  pose proof (chain_kids true ks (body_off o (Node n ps ks)) 0 o st) as Hc. cbn [t_kids].
  replace (o + bytes_len (enc (Node n ps ks)), Some (-1)) with
    (succ (body_off o (Node n ps ks) + bytes_len (enc_kids ks)) (dp true 0) ([] :: st)).
  - apply Hc; [|lia]. apply Forall_forall. intros k _. intros. by apply chain_tree.
  - cbn [succ dp option_map]. change (default 0 (Some (0 - 1)) <? 0) with true. cbv iota. f_equal.
    unfold body_off. cbn [t_name t_props]. rewrite enc_node, !bytes_len_app, be32_len. lia.
Qed.
Lemma subnode_offset_run p str s : p ∈ all_places t -> nz str -> bytes_len str < 2 ^ 30 ->
  fdt_subnode_offset_namelen fdt blob (pl_off p) str s = Ret (offset_or_notfound (find_kid p str)) s.
Proof.
  intros Hp Hs Hlen. pose proof (place_located t fdt blob Hh p Hp) as Hl. destruct (located_small fdt blob Hfr _ _ _ Hl) as (Ho & Hsz & _).
  unfold fdt_subnode_offset_namelen, FDT_CHECK_HEADER. rewrite (bind_run _ _ _ _ _ (check_header_run fdt blob Hfr t Hh s)). cbn [truth Z.eqb negb].
  pose proof (subnode_run (places (pl_off p) 0 (pl_parent p) (pl_stack p) (pl_tree p)) (scan_fuel blob) (pl_off p, Some 0) _ str s
    (chain_sub (pl_off p) (pl_parent p) (pl_stack p) (pl_tree p))) as Hr. cbn [fst snd] in Hr. change (default 0 (Some 0)) with 0 in Hr.
  rewrite Hr; try done.
  - f_equal. rewrite places_node. cbn [List.find pl_depth]. change (0 =? 1) with false. cbn [andb].
    rewrite (find_at_one (fun k => name_eq str (t_name k))). unfold find_kid, kids_of.
    by rewrite (find_kid_depth (fun k => name_eq str (t_name k)) _ (pl_depth p + 1) (0 + 1)).
  - pose proof (bytes_len_nonneg (enc (pl_tree p))). lia.
  - by apply places_located.
  - pose proof (places_depth (pl_tree p) (pl_off p) 0 (pl_parent p) (pl_stack p)) as Hd. exact Hd.
  - right. pose proof (sz_fuel fdt blob Hfr) as Hsf. lia.
  - unfold scan_fuel. lia.
Qed.

(** A path, name by name. *)
Lemma until_slash_name c rest : Forall (fun x => x <> 0 /\ x <> 47) c -> head rest = None \/ head rest = Some 47 -> until_slash (c ++ rest) = (c, rest).
Proof.
  intros Hc Hr. induction Hc as [|x c [_ Hx] _ IH]; cbn [app until_slash].
  - destruct rest as [|y rest]; [done|]. destruct Hr as [?|[= ->]]; done.
  - by rewrite (proj2 (Z.eqb_neq x 47)), IH.
Qed.
Lemma slashes_head names : head (concat (map (cons 47) names)) = None \/ head (concat (map (cons 47) names)) = Some 47.
Proof. destruct names; [by left|by right]. Qed.
Lemma slashes_length names : (length names <= length (concat (map (cons 47%Z) names)))%nat.
Proof. induction names as [|c names IH]; [done|]. cbn [map concat length]. rewrite length_app. cbn [length]. lia. Qed.
Lemma kid_place p str q : p ∈ all_places t -> find_kid p str = Some q -> q ∈ all_places t.
Proof. intros Hp Hq. apply List.find_some in Hq as [Hq _]. apply list_elem_of_In in Hq. by eapply kids_closed. Qed.

Lemma path_loop_run names p f s : p ∈ all_places t -> Forall name_ok names -> (length names < f)%nat ->
  path_loop fdt blob f (concat (map (cons 47) names)) (pl_off p) s = Ret (offset_or_notfound (resolve p names)) s.
Proof.
  revert p f. induction names as [|c names IH]; intros p f Hp Hn Hf; (destruct f as [|f]; [lia|]); cbn [path_loop]; [done|].
  apply Forall_cons in Hn as [(Hne & Hc & Hlen) Hn]. cbn [map concat app skip_slashes]. change (47 =? 47) with true. cbv iota.
  assert (Hskip : skip_slashes (c ++ concat (map (cons 47) names)) = c ++ concat (map (cons 47) names)).
  { destruct c as [|x c]; [done|]. apply Forall_cons in Hc as [[_ Hx] _]. cbn. by rewrite (proj2 (Z.eqb_neq x 47)). }
  rewrite Hskip. destruct (c ++ concat (map (cons 47) names)) as [|y rest] eqn:E; [by apply app_eq_nil in E as [? _]|]. rewrite <- E.
  rewrite until_slash_name by (done || apply slashes_head). cbn [resolve].
  assert (Hnz : nz c) by (eapply Forall_impl; [exact Hc|]; by intros x [? _]).
  rewrite (bind_run _ _ _ _ _ (subnode_offset_run p c s Hp Hnz Hlen)).
  destruct (find_kid p c) as [q|] eqn:Eq; cbn [offset_or_notfound mbind option_bind].
  - pose proof (kid_place _ _ _ Hp Eq) as Hq. pose proof (place_off t fdt blob Hh q Hq). rewrite (proj2 (Z.ltb_ge (pl_off q) 0)) by lia.
    apply IH; [done|done|]. cbn [length] in Hf. lia.
  - done.
Qed.
Lemma path_offset_run names n s : Forall name_ok names ->
  fdt_path_offset fdt blob (Datatypes.S n) (path_of names) s = Ret (offset_or_notfound (resolve (root_place t) names)) s.
Proof.
  intros Hn. cbn [fdt_path_offset]. rewrite (bind_run _ _ _ _ _ (check_header_run fdt blob Hfr t Hh s)). cbn [truth Z.eqb negb].
  destruct names as [|c names]; [done|]. cbn [path_of]. rewrite bool_decide_eq_true_2 by done. change 0 with (pl_off (root_place t)) at 1.
  apply path_loop_run; [apply root_in|done|]. by apply Nat.lt_succ_r, slashes_length.
Qed.
End path.

(** ** The property *)

(** C18: [fdt_path_offset] resolves paths.  In a blob that holds a tree, the offset
    that it returns for an absolute path is that of the node that the tree has under
    the path: each name leads to the first child that has it, with or without a unit
    address.  Without such a node it returns the error for that; it always ends and
    never reads outside the blob. *)
Theorem fdt_path_offset_resolves {S} fdt blob t names n (s : S) : holds_tree fdt blob t -> Forall name_ok names ->
  fdt_path_offset fdt blob (Datatypes.S n) (path_of names) s =
    Ret (match resolve (root_place t) names with Some p => pl_off p | None => - FDT_ERR_NOTFOUND end) s.
Proof. intros Hh Hn. by apply path_offset_run. Qed.

(** The device is found without its unit address; it has no child. *)
Lemma fdt_path_offset_resolves_witness :
  fdt_path_offset 0x18000000 demo_blob 1 (chars "/soc/camera") tt = Ret 148 tt /\
  fdt_path_offset 0x18000000 demo_blob 1 (chars "/soc/wifi@1000/port") tt = Ret (- FDT_ERR_NOTFOUND) tt.
Proof.
  assert (Hh : holds_tree 0x18000000 demo_blob demo_tree)
    by (apply dtb_holds; [by vm_compute|apply values_bytes; by vm_compute|done|by vm_compute|by vm_compute]).
  assert (Hok : Forall name_ok [chars "soc"; chars "camera"; chars "wifi@1000"; chars "port"]).
  { repeat (apply Forall_cons; split; [split_and!; [done|cbn; by repeat constructor|done]|]). constructor. }
  apply Forall_cons in Hok as [H1 Hok]. apply Forall_cons in Hok as [H2 Hok]. apply Forall_cons in Hok as [H3 Hok]. apply Forall_cons in Hok as [H4 _].
  split.
  - pose proof (fdt_path_offset_resolves 0x18000000 demo_blob demo_tree [chars "soc"; chars "camera"] 0 tt Hh ltac:(by repeat constructor)) as H.
    exact H.
  - pose proof (fdt_path_offset_resolves 0x18000000 demo_blob demo_tree [chars "soc"; chars "wifi@1000"; chars "port"] 0 tt Hh ltac:(by repeat constructor)) as H.
    exact H.
Defined.
