(* ===== verification/KeysProbe.v ===== *)
(** * Probing the keys, and the drivers of the system

    The last driver with a [probe] function of its own kind,
    core/drivers/imx_gpio_keys.c, which reads a button from each child of its
    node; and the table of drivers that [dt_probe] runs. *)

From stdpp Require Import prelude gmap list strings.
From Stdlib Require Import ZArith Lia.
From S2P Require Import Prelude Platform State CoreMmu Emulation Interrupt Gic Gpio Dt GpioKeys Fb Entry Drivers Fdt DtProbe.
#[local] Open Scope Z_scope.
#[local] Open Scope kernel_scope.

Definition ENODEV : Z := 19.
Definition sizeof_gpio_keys_platform_data : Z := 24.
Definition sizeof_gpio_keys_button : Z := 28.

(** A button of zeroed memory, or of none; its chip is the null pointer. *)
Definition zero_button : gpio_keys_button :=
  GpioKeysButton 0 (IrqDesc CHIP_NULL 0) 0 (IrqHandler (DATA_BUTTON 0) GPIO_KEYS_HANDLER).

Section keys_probe.
Context {P : Type} {plat : Platform P} {cfg : Config} {lay : Layout} {drv : IrqDrivers P} {btn : ButtonClients P}.
Context (blob : list Z).
#[local] Abbreviation K := (M (kernel P)).

(** [fdt_for_each_subnode(node, fdt, parent) nbuttons++] *)
Fixpoint count_loop (fdt : Z) (fl : nat) (node nbuttons : Z) : K Z :=
  match fl with
  | O => spin
  | S f =>
      if node >=? 0 then n <- fdt_next_subnode fdt blob node;; count_loop fdt f n (nbuttons + 1)
      else ret nbuttons
  end.

(** The description string of the button is not part of the model. *)
Definition probe_button (fdt node : Z) (n : nat) : K (option gpio_keys_button) :=
  ' (err, code) <- dt_read_property_u32 blob fdt node "linux,code";;
  if truth err then ret None else
  gpio_dt_spec <- dt_read_property blob fdt node "gpios";;
  ph <- fdt32_to_cpu fdt blob gpio_dt_spec;;
  gpio_dev <- dt_lookup_device blob fdt ph;;
  chip <- irq_find_chip gpio_dev;;
  match chip with
  | None => ret None
  | Some gpio_chip =>
      info <- map_irq blob fdt gpio_chip (u32 (gpio_dt_spec + 4));;
      ret (Some (GpioKeysButton code (ii_desc info) (ii_flags info)
                   (IrqHandler (DATA_BUTTON n) GPIO_KEYS_HANDLER)))
  end.
Definition put_button (n : nat) (b : gpio_keys_button) : K unit :=
  pd <- get_pdata;;
  if bool_decide (n < length (gk_buttons pd))%nat
  then modify_keys (set_pdata (Some (set_gk_buttons (<[n := b]> (gk_buttons pd)) pd)))
  else fault.
(** The second loop over the children; the answer is whether all are valid. *)
Fixpoint buttons_loop (fdt : Z) (fl : nat) (node : Z) (n : nat) : K bool :=
  match fl with
  | O => spin
  | S f =>
      if node >=? 0 then
        b <- probe_button fdt node n;;
        match b with
        | None => ret false
        | Some b => put_button n b ;;; next <- fdt_next_subnode fdt blob node;; buttons_loop fdt f next (S n)
        end
      else ret true
  end.

Definition gpio_keys_probe (fdt : Z) (dev : dev_ptr) : K Z :=
  d <- get_device dev;;
  first <- fdt_first_subnode fdt blob (dv_node d);;
  nbuttons <- count_loop fdt (scan_fuel blob) first 0;;
  if nbuttons =? 0 then ret (- ENODEV) else
  ok <- malloc sizeof_gpio_keys_platform_data;;
  modify_keys (set_pdata (if ok then Some (GpioKeysPlatformData [] []) else None)) ;;;
  if negb ok then ret (- ENOMEM) else
  ok <- malloc (u32 (sizeof_gpio_keys_button * nbuttons));;
  if negb ok then
    modify_keys (set_pdata (Some (GpioKeysPlatformData (replicate (Z.to_nat nbuttons) zero_button) []))) ;;;
    ret (- ENOMEM)
  else
  modify_keys (set_pdata (Some (GpioKeysPlatformData (replicate (Z.to_nat nbuttons) zero_button) []))) ;;;
  first <- fdt_first_subnode fdt blob (dv_node d);;
  ok <- buttons_loop fdt (scan_fuel blob) first 0;;
  if negb ok then ret (- EINVAL) else
  acquired <- gpio_keys_acquire SECPWR_BUTTON_HANDLER;;
  if negb acquired then ret (- EINVAL) else ret 0.

(** ** The drivers *)

Definition gic_dt_driver : dt_driver P := mk_dt_driver [
  ("arm,cortex-a9-gic"%string, fun _ dev => gic_probe dev true);
  ("fsl,imx6q-gpc"%string, fun _ dev => gic_probe dev false)].
Definition mxc_gpio_dt_driver : dt_driver P := mk_dt_driver [
  ("fsl,imx1-gpio"%string, fun _ dev => mxc_gpio_probe dev IMX1_GPIO);
  ("fsl,imx21-gpio"%string, fun _ dev => mxc_gpio_probe dev IMX21_GPIO);
  ("fsl,imx31-gpio"%string, fun _ dev => mxc_gpio_probe dev IMX31_GPIO);
  ("fsl,imx35-gpio"%string, fun _ dev => mxc_gpio_probe dev IMX35_GPIO)].
Definition fb_dt_driver : dt_driver P := mk_dt_driver [("fsl,imx6q-ipu"%string, fun _ dev => fb_probe dev)].
Definition gpio_keys_dt_driver : dt_driver P := mk_dt_driver [("gpio-keys"%string, gpio_keys_probe)].
(** The section .rodata.dtdrv, in the order of the objects. *)
Definition dt_drivers : list (dt_driver P) := [gic_dt_driver; fb_dt_driver; mxc_gpio_dt_driver; gpio_keys_dt_driver].
End keys_probe.
