(* ===== verification/DtProbeSpec.v ===== *)
(** * Probing builds the device table of the tree

    The probing of core/drivers/dt.c on a blob that holds a tree: whatever the
    drivers and interrupt chips do within their interface, it ends, and unless it
    stops the kernel the device table then has one device for each node that is
    admitted, with the properties of the node, and none for the others. *)

From stdpp Require Import prelude gmap list strings.
From Stdlib Require Import ZArith Lia.
From S2P Require Import Prelude Platform State CoreMmu Interrupt Dt Fdt FdtTree FdtScan FdtSpec DtProbe DtRead DtPlaces Drivers KeysProbe.
#[local] Open Scope Z_scope.
#[local] Open Scope kernel_scope.

(** ** The device of a node *)

Definition bus (p : place) : bool := (pl_off p =? 0) || simple_bus (pl_tree p).
(** The device of node [p]; [par] is the device and the node of its parent. *)
Definition created (par : option (dev_ptr * place)) (p : place) (irqs : list irq_info) : device :=
  Device (pl_off p) (phandle_of (pl_tree p)) (string_of_bytes (t_name (pl_tree p))) (fst <$> par)
    (match par with Some (_, q) => if bus q then RESOURCE_MEM else RESOURCE_OTHER | None => RESOURCE_OTHER end)
    (match par with Some (_, q) => resources_of (pl_tree q) (pl_tree p) | None => [] end)
    irqs (map i32 (words_prop "sp-csu" (pl_tree p))) (classes_of (pl_tree p)) true (simple_bus (pl_tree p)).
Definition device_of (par : option (dev_ptr * place)) (p : place) (irqs : list irq_info) : device :=
  set_dv_is_simple_bus (bus p) (created par p irqs).


(** ** Lookups *)

Section lookups.
Context {P : Type}.
Implicit Types s : kernel P.

Lemma lookup_total s o : dt_wf s ->
  exists r, device_lookup o s = Ret r s /\
    forall d, r = Some d -> d ∈ concat (device_table (k_dt s)) /\ exists v, device_objs (k_dt s) !! d = Some v /\ dv_node v = o.
Proof.
  intros Hwf. destruct (node_bucket_lookup s o Hwf) as (l & Hl & Ho).
  eexists. split; [by apply device_lookup_run|]. intros d Hd.
  destruct (list_find _ l) as [[i x]|] eqn:Hf; [|done]. injection Hd as ->.
  apply list_find_Some in Hf as (Hi & Hn & _). split.
  - rewrite list_elem_of_In, in_concat. exists l. rewrite <- !list_elem_of_In.
    split; by eapply list_elem_of_lookup_2.
  - destruct (device_objs (k_dt s) !! d) as [v|]; [|done]. exists v. split; [done|]. by injection Hn.
Qed.
(** A lookup depends on the devices of the table only. *)
Lemma lookup_frame s s' o r : dt_wf s ->
  device_table (k_dt s') = device_table (k_dt s) ->
  (forall d, d ∈ concat (device_table (k_dt s)) -> device_objs (k_dt s') !! d = device_objs (k_dt s) !! d) ->
  device_lookup o s = Ret r s -> device_lookup o s' = Ret r s'.
Proof.
  intros Hwf Ht Ho Hr. destruct (node_bucket_lookup s o Hwf) as (l & Hl & Hol).
  rewrite (device_lookup_run s o l Hl Hol) in Hr. injection Hr as <-.
  assert (Hin : forall d, d ∈ l -> device_objs (k_dt s') !! d = device_objs (k_dt s) !! d).
  { intros d Hd. apply Ho. rewrite list_elem_of_In, in_concat. exists l. rewrite <- !list_elem_of_In.
    split; [by eapply list_elem_of_lookup_2|done]. }
  rewrite (device_lookup_run s' o l); [|by rewrite Ht|].
  - f_equal. clear Hl Hol. induction l as [|x l IH]; [done|]. cbn [list_find].
    rewrite (Hin x) by left. specialize (IH (fun d Hd => Hin d (list_elem_of_further _ _ _ Hd))).
    destruct (decide _); [done|]. destruct (list_find _ l) as [[]|], (list_find _ l) as [[]|]; cbn in *; congruence.
  - rewrite Forall_forall in Hol |- *. intros d Hd. rewrite Hin by done. by apply Hol.
Qed.
End lookups.

(** ** The interface to drivers and interrupt chips *)

Section spec.
Context {P : Type} {plat : Platform P} {cfg : Config} {lay : Layout} {drv : IrqDrivers P}.
Context (fdt : Z) (blob : list Z) (t : tree) (Hh : holds_tree fdt blob t).
Context (dt_drivers : list (dt_driver P)).
Implicit Types s : kernel P.
#[local] Abbreviation all := (all_places t).

(** In the states [J] that probing runs in: allocations keep to them, the list of
    chips is well formed, and the functions of chips and drivers return or stop the
    kernel, keep to them, and leave the devices alone. *)
Record probe_env (J : kernel P -> Prop) : Prop := {
  pe_dt : forall s x, J s -> J (set_k_dt x s);
  pe_alloc : forall s n p, J s -> heap_alloc n (k_plat s) = Some p -> J (set_k_plat p s);
  pe_chips : forall s, J s -> Forall (fun c => is_Some (chip_objs (k_irq s) !! c)) (chips (k_irq s));
  pe_map : forall s c spec, J s -> c ∈ chips (k_irq s) -> length spec = 3%nat ->
    wpp (irq_map c spec) s (fun _ s' => J s' /\ k_dt s' = k_dt s /\ chips (k_irq s') = chips (k_irq s));
  pe_driver : forall s d c probe dev par p irqs, d ∈ dt_drivers -> (c, probe) ∈ match_table d ->
    J s -> admitted t p -> compatible_with (pl_tree p) c = true ->
    match par with None => p = root_place t | Some (_, q) => q ∈ all /\ p ∈ kids_of q end ->
    device_objs (k_dt s) !! dev = Some (device_of par p irqs) ->
    wpp (probe fdt dev) s (fun _ s' => J s' /\ k_dt s' = k_dt s);
  pe_names : forall d c probe, d ∈ dt_drivers -> (c, probe) ∈ match_table d -> nz (chars c) /\ chars c <> [];
}.

(** ** The invariant *)

Context (J : kernel P -> Prop) (He : probe_env J).
Context (rank : Z -> nat) (Hcv : conventional t rank).
(** The strings block, which is not empty, follows the structure block. *)
Context (Hroom : off_struct blob + size_struct blob + 4 <= bytes_len blob).
#[local] Definition framed_blob : framed fdt blob := ht_framed _ _ _ Hh.

Definition listed s (p : place) (d : dev_ptr) : Prop := device_lookup (pl_off p) s = Ret (Some d) s.
Definition unlisted s (p : place) : Prop := device_lookup (pl_off p) s = Ret None s.
Definition parent_ok s (d : dev_ptr) (p : place) (par : option (dev_ptr * place)) : Prop :=
  match par with
  | None => p = root_place t
  | Some (e, q) => q ∈ all /\ p ∈ kids_of q /\ listed s q e /\ (e < d)%nat
  end.
Definition device_ok s (d : dev_ptr) (p : place) : Prop :=
  admitted t p /\ listed s p d /\
  exists par irqs, device_objs (k_dt s) !! d = Some (device_of par p irqs) /\ parent_ok s d p par.

Record Inv s : Prop := {
  i_wf : dt_wf s;
  i_hashed : dt_hashed s;
  i_fresh : forall d, is_Some (device_objs (k_dt s) !! d) -> (d < next_device (k_dt s))%nat;
  i_dev : forall d, d ∈ concat (device_table (k_dt s)) -> exists p, device_ok s d p;
  i_J : J s;
}.

(** What probing nodes of rank below [k] keeps. *)
Record grows (k : nat) s s' : Prop := {
  g_objs : forall d, (d < next_device (k_dt s))%nat -> device_objs (k_dt s') !! d = device_objs (k_dt s) !! d;
  g_next : (next_device (k_dt s) <= next_device (k_dt s'))%nat;
  g_listed : forall p d, p ∈ all -> listed s p d -> listed s' p d;
  g_unlisted : forall p, p ∈ all -> unlisted s p -> (k <= rank (pl_off p))%nat -> unlisted s' p;
}.
Lemma grows_refl k s : grows k s s.
Proof. by split. Qed.
Lemma grows_trans k s1 s2 s3 : grows k s1 s2 -> grows k s2 s3 -> grows k s1 s3.
Proof.
  intros [O1 N1 L1 U1] [O2 N2 L2 U2]. split; [|lia|auto|auto].
  intros d Hd. rewrite O2 by lia. by apply O1.
Qed.
Lemma grows_mono k k' s s' : grows k s s' -> (k <= k')%nat -> grows k' s s'.
Proof. intros [O N L U] Hk. split; [done..|]. intros p Hp Hu Hr. apply U; [done..|lia]. Qed.

(** Changes outside the table. *)
Record off_table s s' : Prop := {
  ot_table : device_table (k_dt s') = device_table (k_dt s);
  ot_next : (next_device (k_dt s) <= next_device (k_dt s'))%nat;
  ot_objs : forall d, d ∈ concat (device_table (k_dt s)) -> device_objs (k_dt s') !! d = device_objs (k_dt s) !! d;
}.
Lemma off_listed s s' p d : dt_wf s -> off_table s s' -> listed s p d -> listed s' p d.
Proof. intros Hwf [H1 _ H2]. by apply lookup_frame. Qed.
Lemma off_unlisted s s' p : dt_wf s -> off_table s s' -> unlisted s p -> unlisted s' p.
Proof. intros Hwf [H1 _ H2]. by apply lookup_frame. Qed.
Lemma off_parent s s' d p par : dt_wf s -> off_table s s' -> parent_ok s d p par -> parent_ok s' d p par.
Proof.
  intros Hwf Hot. destruct par as [[e q]|]; [|done]. intros (H1 & H2 & H3 & H4).
  split_and!; [done..|by eapply off_listed|done].
Qed.
Lemma inv_off s s' :
  Inv s -> off_table s s' -> J s' ->
  (forall d, is_Some (device_objs (k_dt s') !! d) -> (d < next_device (k_dt s'))%nat) -> Inv s'.
Proof.
  intros [Hwf Hha Hfr Hdev _] Hot HJ Hfr'. destruct Hot as [Ht Hn Ho] eqn:E. clear E. split; [| |done| |done].
  - destruct Hwf as (Hl & Hnd & Hobj). unfold dt_wf. rewrite Ht. split_and!; [done..|].
    rewrite Forall_forall in Hobj |- *. intros d Hd. rewrite Ho by done. by apply Hobj.
  - intros b l d v Hb Hd Hv. rewrite Ht in Hb. eapply Hha; [done..|]. rewrite <- Ho; [done|].
    rewrite list_elem_of_In, in_concat. exists l. rewrite <- !list_elem_of_In. split; [by eapply list_elem_of_lookup_2|done].
  - intros d Hd. rewrite Ht in Hd. destruct (Hdev d Hd) as (p & Ha & Hli & par & irqs & Hv & Hpar).
    exists p. split_and!; [done|by eapply off_listed|]. exists par, irqs. rewrite Ho by done.
    split; [done|by eapply off_parent].
Qed.
Lemma off_same s s' : k_dt s' = k_dt s -> off_table s s'.
Proof. intros E. split; by rewrite E. Qed.
Lemma inv_same s s' : Inv s -> J s' -> k_dt s' = k_dt s -> Inv s'.
Proof. intros HI HJ E. eapply inv_off; [done|by apply off_same|done|]. rewrite E. by apply (i_fresh s HI). Qed.
Lemma grows_same k s s' : Inv s -> k_dt s' = k_dt s -> grows k s s'.
Proof.
  intros HI E. pose proof (off_same s s' E) as Hot. pose proof (i_wf s HI). split; rewrite ?E; [done..| |].
  - intros p d _. by apply off_listed.
  - intros p _ Hu _. by eapply off_unlisted.
Qed.

(** ** A device in creation

    From its allocation to its insertion a device exists outside the table,
    while other nodes may be probed; [s0] is the state before. *)
Record making s0 s (d : dev_ptr) (p : place) (par : option (dev_ptr * place)) (v : device) : Prop := {
  mk_in : p ∈ all;
  mk_inv : Inv s;
  mk_obj : device_objs (k_dt s) !! d = Some v;
  mk_node : dv_node v = pl_off p;
  mk_parent : dv_parent v = fst <$> par;
  mk_unlisted : unlisted s p;
  mk_parent_ok : parent_ok s d p par;
  mk_grows : grows (rank (pl_off p)) s0 s;
  mk_new : (next_device (k_dt s0) <= d)%nat;
}.

Lemma get_device_run s d v : device_objs (k_dt s) !! d = Some v -> get_device d s = Ret v s.
Proof. intros H. unfold get_device, bind, gets, deref. by rewrite H. Qed.
Lemma making_fresh s0 s d p par v : making s0 s d p par v -> d ∉ concat (device_table (k_dt s)).
Proof.
  intros [Hin HI Ho Hn _ Hu _ _ _] Hd. destruct (i_dev s HI d Hd) as (q & Ha & Hli & par' & irqs & Hv & _).
  rewrite Ho in Hv. injection Hv as ->. cbn in Hn. unfold listed, unlisted in *. rewrite <- Hn in Hu. congruence.
Qed.
Lemma making_lt s0 s d p par v : making s0 s d p par v -> (d < next_device (k_dt s))%nat.
Proof. intros Hm. apply (i_fresh s (mk_inv _ _ _ _ _ _ Hm)). rewrite (mk_obj _ _ _ _ _ _ Hm). done. Qed.
Lemma making_same s0 s s' d p par v : making s0 s d p par v -> k_dt s' = k_dt s -> J s' -> making s0 s' d p par v.
Proof.
  intros [Hin HI Ho Hn Hp Hu Hpo Hg Hnew] E HJ. pose proof (off_same s s' E) as Hot. pose proof (i_wf s HI).
  split; [done|by eapply inv_same|by rewrite E|done|done|by eapply off_unlisted|by eapply off_parent| |done].
  eapply grows_trans; [done|by apply grows_same].
Qed.
Lemma making_grows s0 s s' d p par v :
  making s0 s d p par v -> Inv s' -> grows (rank (pl_off p)) s s' -> making s0 s' d p par v.
Proof.
  intros Hm HI' Hg'. pose proof (making_lt _ _ _ _ _ _ Hm) as Hlt. destruct Hm as [Hin HI Ho Hn Hp Hu Hpo Hg Hnew].
  split; [done|done|by rewrite (g_objs _ _ _ Hg')|done|done|by apply (g_unlisted _ _ _ Hg')| |by eapply grows_trans|done].
  destruct par as [[e q]|]; [|done]. destruct Hpo as (H1 & H2 & H3 & H4).
  split_and!; [done..|by apply (g_listed _ _ _ Hg')|done].
Qed.
Definition with_object (d : dev_ptr) (v : device) s : kernel P :=
  set_k_dt (set_device_objs (<[d := v]> (device_objs (k_dt s))) (k_dt s)) s.
Lemma making_put s0 s d p par v v' :
  making s0 s d p par v -> dv_node v' = dv_node v -> dv_parent v' = dv_parent v ->
  making s0 (with_object d v' s) d p par v'.
Proof.
  intros Hm En Ep. pose proof (making_fresh _ _ _ _ _ _ Hm) as Hni. pose proof (making_lt _ _ _ _ _ _ Hm) as Hlt.
  destruct Hm as [Hin HI Ho Hn Hp Hu Hpo Hg Hnew]. pose proof (i_wf s HI).
  assert (Hot : off_table s (with_object d v' s)).
  { split; [done|done|]. intros e Hte. cbn. rewrite lookup_insert_ne; [done|]. by intros ->. }
  split; [done| |by apply lookup_insert_eq|congruence|congruence|by eapply off_unlisted|by eapply off_parent| |done].
  - eapply inv_off; [done|done|by apply (pe_dt J He), (i_J s HI)|]. cbn. intros e. rewrite lookup_insert_is_Some.
    intros [<-|[_ Hse]]; [done|by apply (i_fresh s HI)].
  - destruct Hg as [G1 G2 G3 G4]. split; [|done|intros; by eapply off_listed, G3|intros; by eapply off_unlisted, G4].
    intros e Hlt'. cbn. rewrite lookup_insert_ne by lia. by apply G1.
Qed.

Lemma malloc_wpp n s (Q : bool -> kernel P -> Prop) :
  J s -> (forall b s', J s' -> k_dt s' = k_dt s -> k_irq s' = k_irq s -> Q b s') -> wpp (malloc n) s Q.
Proof.
  intros HJ HQ. unfold wpp, malloc. cbn. destruct (heap_alloc _ _) as [p|] eqn:E; [|by apply HQ].
  apply HQ; [by eapply (pe_alloc J He)|done|done].
Qed.
Lemma making_malloc n s0 s d p par v (Q : bool -> kernel P -> Prop) :
  making s0 s d p par v ->
  (forall b s', making s0 s' d p par v -> k_irq s' = k_irq s -> Q b s') -> wpp (malloc n) s Q.
Proof.
  intros Hm HQ. apply malloc_wpp; [apply (i_J s (mk_inv _ _ _ _ _ _ Hm))|].
  intros b s' HJ E Ei. apply HQ; [by eapply making_same|done].
Qed.

(** ** The parsers *)

(** A parser leaves a device in creation and, when it succeeds, has set the
    field [f] to [good]. *)
Definition parsed {A} (f : A -> device -> device) (good : A) s0 d p par v (ok : bool) s' : Prop :=
  exists x, making s0 s' d p par (f x v) /\ (ok = true -> x = good).

Lemma parsed_failed {A} (f : A -> device -> device) good s0 s d p par v x :
  making s0 s d p par v -> f x v = v -> parsed f good s0 d p par v false s.
Proof. intros Hm E. exists x. by rewrite E. Qed.
Lemma parsed_put {A} (f : A -> device -> device) good s0 s d p par v :
  making s0 s d p par v -> dv_node (f good v) = dv_node v -> dv_parent (f good v) = dv_parent v ->
  wpp (put_device d (f good v) ;;; ret true) s (parsed f good s0 d p par v).
Proof. intros Hm En Ep. exists good. split; [|done]. by eapply making_put. Qed.

Section parsers.
Context (s0 : kernel P) (d : dev_ptr) (p : place) (par : option (dev_ptr * place)) (v : device).
Context (s : kernel P) (Hm : making s0 s d p par v).

#[local] Lemma here : located blob (pl_off p) (pl_tree p) (pl_stack p).
Proof. eapply place_located; [exact Hh|]. apply (mk_in _ _ _ _ _ _ Hm). Qed.
#[local] Lemma node_eq : dv_node v = pl_off p.
Proof. apply (mk_node _ _ _ _ _ _ Hm). Qed.

Lemma parse_csu_spec :
  dv_csu v = [] ->
  wpp (dt_parse_sp_csu blob fdt d) s
    (parsed set_dv_csu (map i32 (words_prop "sp-csu" (pl_tree p))) s0 d p par v).
Proof.
  intros Hv0. unfold dt_parse_sp_csu. eapply wpp_run; [apply get_device_run, (mk_obj _ _ _ _ _ _ Hm)|].
  rewrite node_eq. destruct (words_run (P := P) fdt blob framed_blob _ _ _ here "sp-csu") as (ptr & len & Hg & H0 & H1).
  eapply wpp_run; [apply Hg|]. cbv beta iota. destruct (Z.eqb_spec ptr 0) as [->|Hne].
  { rewrite H0 by done. apply wpp_ret. exists []. split; [|done]. rewrite <- Hv0. by destruct v. }
  apply wpp_bind. eapply making_malloc; [exact Hm|]. intros ok s1 Hm1 _.
  destruct ok; cbn [negb]; [|apply wpp_ret, parsed_failed with (dv_csu v); [done|by destruct v]].
  destruct (H1 Hne) as (_ & _ & Hw). eapply wpp_run; [apply Hw|].
  eapply wpp_run; [apply get_device_run, (mk_obj _ _ _ _ _ _ Hm1)|].
  by apply parsed_put.
Qed.

Lemma parse_class_spec :
  dv_classes v = [] ->
  wpp (dt_parse_sp_class blob fdt d) s (parsed set_dv_classes (classes_of (pl_tree p)) s0 d p par v).
Proof.
  intros Hv0. unfold dt_parse_sp_class. eapply wpp_run; [apply get_device_run, (mk_obj _ _ _ _ _ _ Hm)|].
  rewrite node_eq. pose proof (getprop_run fdt blob (S := kernel P) framed_blob _ _ _ (chars "sp-class") here) as Hg.
  pose proof (proj2 (cv_lists t rank Hcv p (mk_in _ _ _ _ _ _ Hm))) as Hl. unfold class_lists in Hl. unfold classes_of.
  destruct (value_of (chars "sp-class") (pl_tree p)) as [w|].
  2:{ eapply wpp_run; [apply Hg|]. cbn. exists []. split; [|done]. rewrite <- Hv0. by destruct v. }
  destruct Hg as (a & Ha & (Hl30 & _) & Hg). specialize (Hl w eq_refl). rewrite <- Hl in Ha.
  pose proof (has_bounds _ _ _ Ha). pose proof framed_blob as [? _ _ _ _]. pose proof (bytes_len_nonneg w) as Hw0.
  pose proof (split_strings_nz w) as Hnz. pose proof (strings_length w Hl) as Hlen.
  assert (Hcount : forall s, fdt_stringlist_count blob fdt (pl_off p) "sp-class" s = Ret (Z.of_nat (length (split_strings w))) s).
  { intros s1. unfold fdt_stringlist_count. rewrite (bind_run _ _ _ _ _ (Hg s1)). rewrite (proj2 (Z.eqb_neq _ _)) by lia.
    rewrite <- Hl at 2. rewrite (count_strings_run fdt blob framed_blob) by (done || (unfold bytes_len; lia)). done. }
  eapply wpp_run; [apply Hg|]. cbv beta iota. rewrite (proj2 (Z.eqb_neq _ _)) by lia.
  eapply wpp_run; [apply Hcount|]. apply wpp_bind. eapply making_malloc; [exact Hm|]. intros ok s1 Hm1 _.
  destruct ok; cbn [negb]; [|apply wpp_ret, parsed_failed with (dv_classes v); [done|by destruct v]].
  rewrite Nat2Z.id. eapply wpp_run; [by apply (read_strings_run fdt blob framed_blob)|].
  eapply wpp_run; [apply get_device_run, (mk_obj _ _ _ _ _ _ Hm1)|]. by apply parsed_put.
Qed.

Lemma parse_resources_spec :
  dv_resources v = [] ->
  wpp (dt_parse_resources blob fdt d) s
    (parsed set_dv_resources (match par with Some (_, q) => resources_of (pl_tree q) (pl_tree p) | None => [] end) s0 d p par v).
Proof.
  intros Hv0. unfold dt_parse_resources. eapply wpp_run; [apply get_device_run, (mk_obj _ _ _ _ _ _ Hm)|].
  rewrite node_eq. pose proof (getprop_run fdt blob (S := kernel P) framed_blob _ _ _ (chars "reg") here) as Hg.
  assert (Hpar0 : match par with None => value_of (chars "reg") (pl_tree p) = None | Some _ => True end).
  { pose proof (mk_parent_ok _ _ _ _ _ _ Hm) as Hpo. destruct par as [[e q]|]; [done|]. rewrite Hpo. change (pl_tree (root_place t)) with t.
    apply (cv_root t rank Hcv "reg"). by left. }
  pose proof (mk_parent _ _ _ _ _ _ Hm) as Hpv. pose proof (mk_parent_ok _ _ _ _ _ _ Hm) as Hpo. unfold resources_of.
  destruct (value_of (chars "reg") (pl_tree p)) as [w|].
  2:{ eapply wpp_run; [apply Hg|]. cbn. exists []. split; [|by destruct par as [[]|]]. rewrite <- Hv0. by destruct v. }
  destruct par as [[e q]|]; [|done]. destruct Hpo as (Hq & Hk & Hli & Helt).
  destruct Hg as (a & Ha & (Hl30 & _) & Hg). pose proof (has_bounds _ _ _ Ha). pose proof framed_blob as [? _ _ _ _].
  eapply wpp_run; [apply Hg|]. cbv beta iota. rewrite (proj2 (Z.eqb_neq _ _)) by lia.
  rewrite Hpv. eapply wpp_run; [reflexivity|].
  destruct (lookup_total s (pl_off q) (i_wf s (mk_inv _ _ _ _ _ _ Hm))) as (r & Hr & Hrv).
  unfold listed in Hli. rewrite Hli in Hr. injection Hr as <-. destruct (Hrv e eq_refl) as (_ & ve & Hve & Hne).
  eapply wpp_run; [by apply get_device_run|]. rewrite Hne.
  assert (Hlq : located blob (pl_off q) (pl_tree q) (pl_stack q)) by (by eapply place_located).
  eapply wpp_run; [by apply (address_cells_run fdt blob framed_blob _ _ _ Hlq)|].
  eapply wpp_run; [by apply (size_cells_run fdt blob framed_blob _ _ _ Hlq)|].
  unfold int_div. pose proof (cells_sum_nonzero (pl_tree q)) as Hnz. pose proof (cells_pos (pl_tree q)) as Hcp.
  rewrite (proj2 (Z.eqb_neq _ _)) by lia. eapply wpp_run; [reflexivity|].
  apply wpp_bind. eapply making_malloc; [exact Hm|]. intros ok s1 Hm1 _.
  destruct ok; cbn [negb]; [|apply wpp_ret, parsed_failed with (dv_resources v); [done|by destruct v]].
  eapply wpp_run; [|eapply wpp_run; [apply get_device_run, (mk_obj _ _ _ _ _ _ Hm1)|]; by apply parsed_put].
  cbv zeta. revert Hnz Hcp. generalize (address_cells (pl_tree q)), (size_cells (pl_tree q)). intros ac sc Hnz Hcp.
  pose proof (bytes_len_nonneg w) as Hw0.
  destruct (Z.lt_ge_cases 0 (ac + sc)) as [Hpos|Hneg].
  - rewrite <- (Z.add_0_r (fdt + a)). destruct (Hcp Hpos). apply (read_resources_run fdt blob framed_blob); [done..|lia|].
    rewrite Z.quot_div_nonneg by lia. pose proof (Z.mul_div_le (bytes_len w) (4 * (ac + sc)) ltac:(lia)).
    pose proof (Z.div_pos (bytes_len w) (4 * (ac + sc)) ltac:(lia) ltac:(lia)). lia.
  - replace (Z.to_nat (Z.quot (bytes_len w) (4 * (ac + sc)))) with 0%nat; [done|].
    replace (4 * (ac + sc)) with (- (- (4 * (ac + sc)))) by lia. rewrite Z.quot_opp_r by lia.
    rewrite Z.quot_div_nonneg by lia. pose proof (Z.div_pos (bytes_len w) (- (4 * (ac + sc))) ltac:(lia) ltac:(lia)). lia.
Qed.
End parsers.

(** ** Interrupts *)

Definition rooted s : Prop := exists d, listed s (root_place t) d.
(** [probe] can be asked for nodes of rank below [k]. *)
Definition probes (k : nat) (probe : Z -> M (kernel P) (option dev_ptr)) : Prop :=
  forall c s, Inv s -> rooted s -> c ∈ all -> (rank (pl_off c) < k)%nat ->
    wpp (probe (pl_off c)) s (fun o s' => Inv s' /\ grows k s s' /\ forall d, o = Some d -> listed s' c d).

Lemma grows_rooted k s s' : rooted s -> grows k s s' -> rooted s'.
Proof. intros [d Hd] Hg. exists d. apply (g_listed _ _ _ Hg); [apply root_in|done]. Qed.
Lemma listed_object s c d :
  Inv s -> listed s c d -> d ∈ concat (device_table (k_dt s)) /\
  exists v, device_objs (k_dt s) !! d = Some v /\ dv_node v = pl_off c.
Proof.
  intros HI Hl. destruct (lookup_total s (pl_off c) (i_wf s HI)) as (r & Hr & Hrv). unfold listed in Hl.
  rewrite Hl in Hr. injection Hr as <-. by apply Hrv.
Qed.
Lemma listed_ok s c d : Inv s -> c ∈ all -> listed s c d -> device_ok s d c.
Proof.
  intros HI Hc Hl. destruct (listed_object s c d HI Hl) as (Hd & v & Hv & Hn).
  destruct (i_dev s HI d Hd) as (q & Hok). pose proof Hok as (Ha & Hlq & par & irqs & Hvq & Hpo).
  assert (q = c) as ->; [|done]. rewrite Hv in Hvq. injection Hvq as ->. cbn in Hn.
  by apply (place_unique t fdt blob Hh); [apply admitted_in in Ha|..].
Qed.

Lemma chip_of_spec k probe c s :
  probes k probe -> Inv s -> rooted s -> c ∈ all -> (rank (pl_off c) < k)%nat ->
  wpp (chip_of probe (pl_off c)) s (fun o s' => Inv s' /\ grows k s s' /\ forall d, o = Some d -> listed s' c d).
Proof.
  intros Hp HI Hr Hc Hk. unfold chip_of. destruct (lookup_total s (pl_off c) (i_wf s HI)) as (o & Ho & _).
  eapply wpp_run; [exact Ho|]. destruct o as [d|]; [|by apply Hp].
  apply wpp_ret. split_and!; [done|apply grows_refl|by intros ? [= <-]].
Qed.

Lemma find_chip_wpp s o (Q : option chip_ptr -> kernel P -> Prop) :
  J s -> (forall r, (forall c, r = Some c -> c ∈ chips (k_irq s)) -> Q r s) -> wpp (irq_find_chip o) s Q.
Proof.
  intros HJ HQ. unfold irq_find_chip, get_irq. eapply wpp_run; [reflexivity|].
  eapply wpp_intro; [apply find_chip_in_run, (pe_chips J He s HJ)|]. apply HQ.
  intros c Hc. destruct (list_find _ _) as [[i x]|] eqn:E; [|done]. injection Hc as ->.
  apply list_find_Some in E as (Hi & _). by eapply list_elem_of_lookup_2.
Qed.

(** The specifier of an interrupt is read and mapped. *)
Lemma map_irq_spec s0 s d p par v c i :
  making s0 s d p par v -> c ∈ chips (k_irq s) -> 0 <= i -> i + 12 <= bytes_len blob ->
  wpp (map_irq blob fdt c (fdt + i)) s (fun _ s' => making s0 s' d p par v /\ chips (k_irq s') = chips (k_irq s)).
Proof.
  intros Hm Hc Hi Hl. unfold map_irq, dt_spec.
  assert (Hall : has blob 0 blob) by (exists [], []; by rewrite app_nil_r).
  eapply wpp_run; [rewrite <- (Z.add_0_r fdt) at 2; by apply (read_words_run fdt blob framed_blob _ _ _ 3 _ Hall)|].
  pose proof (i_J s (mk_inv _ _ _ _ _ _ Hm)) as HJ.
  eapply wpp_step; [by apply (pe_map J He)|]. intros [[? ?] ?] s' (HJ' & E & Ec). apply wpp_ret.
  split; [by eapply making_same|done].
Qed.
Lemma map_irqs_spec s0 s d p par v c i step n :
  making s0 s d p par v -> c ∈ chips (k_irq s) -> 4 <= step -> 0 <= i ->
  i + step * Z.of_nat n + 8 <= bytes_len blob ->
  wpp (map_irqs blob fdt c (fdt + i) step n) s (fun _ s' => making s0 s' d p par v).
Proof.
  revert i s. induction n as [|n IH]; intros i s Hm Hc Hstep Hi Hl; [done|]. cbn [map_irqs].
  eapply wpp_step; [apply (map_irq_spec s0 s d p par v c i); [done..|lia]|]. intros x s1 [Hm1 Ec]. cbv beta.
  destruct n as [|n]; [done|].
  replace (u32 (fdt + i + step)) with (fdt + (i + step)).
  - eapply wpp_step; [apply (IH (i + step) s1); [done|by rewrite Ec|done|lia|lia]|]. intros l s2 Hm2. by apply wpp_ret.
  - pose proof framed_blob as [? ? _ _ _]. unfold bytes_len in *. rewrite u32_small; [lia|unfold is_u32; lia].
Qed.

(** Pointers to the one cell of [#interrupt-cells]. *)
Definition cells_pointer (ptr : Z) : Prop :=
  exists num, 1 <= num <= 3 /\ forall s, fdt32_to_cpu fdt blob ptr s = Ret num s.
Lemma cells_pointer_run c :
  c ∈ all ->
  exists ptr len, (forall s : kernel P, fdt_getprop fdt blob (pl_off c) (chars "#interrupt-cells") s = Ret (ptr, len) s) /\
    ((ptr =? 0) || negb (len =? 4) = false -> exists num, word_prop (chars "#interrupt-cells") (pl_tree c) = Some num /\
       1 <= num <= 3 /\ forall s : kernel P, fdt32_to_cpu fdt blob ptr s = Ret num s).
Proof.
  intros Hc. assert (Hl : located blob (pl_off c) (pl_tree c) (pl_stack c)) by (by eapply place_located).
  destruct (word_prop_run fdt blob framed_blob (S := kernel P) _ _ _ (chars "#interrupt-cells") Hl) as (ptr & len & Hg & Hw).
  exists ptr, len. split; [done|]. intros Hb. destruct (word_prop _ _) as [num|] eqn:E; [|lia].
  destruct Hw as (_ & _ & Hw). exists num. split_and!; [done|by eapply (cv_cells t rank Hcv)..|done].
Qed.

(** The walk to the interrupt parent, from a device whose parents are listed. *)
Lemma find_irq_parent_spec k probe fl s d q v :
  probes k probe -> Inv s -> rooted s -> q ∈ all -> device_objs (k_dt s) !! d = Some v -> dv_node v = pl_off q ->
  match dv_parent v with
  | None => True
  | Some e => exists q', q' ∈ all /\ q ∈ kids_of q' /\ listed s q' e /\ (e < d)%nat
  end ->
  (d < fl)%nat -> (forall ph c, irq_phandle t q ph -> resolve t ph = Some c -> (rank (pl_off c) < k)%nat) ->
  wpp (find_irq_parent blob probe fdt fl (Some d)) s (fun r s' => Inv s' /\ grows k s s' /\
    match r with
    | IRQ_PARENT pd ic => exists num, 1 <= num <= 3 /\ forall s : kernel P, fdt32_to_cpu fdt blob ic s = Ret num s
    | _ => True
    end).
Proof.
  intros Hp HI Hr. revert d q v. induction fl as [|f IH]; intros d q v Hq Hv Hn Hpar Hlt Hk; [lia|].
  cbn [find_irq_parent]. eapply wpp_run; [by apply get_device_run|]. rewrite Hn.
  assert (Hl : located blob (pl_off q) (pl_tree q) (pl_stack q)) by (by eapply place_located).
  destruct (word_prop_run fdt blob framed_blob (S := kernel P) _ _ _ (chars "interrupt-parent") Hl) as (php & len & Hg & Hw).
  eapply wpp_run; [apply Hg|]. cbv beta iota. destruct (word_prop _ (pl_tree q)) as [ph|] eqn:Hwp.
  - destruct Hw as (Hne & -> & Hw). rewrite (proj2 (Z.eqb_neq _ _)) by done. cbn [negb andb Z.eqb Pos.eqb].
    eapply wpp_run; [apply Hw|].
    destruct (resolve_run t fdt blob Hh ph s) as (o & Ho & Hres). eapply wpp_run; [exact Ho|].
    destruct (resolve t ph) as [c|] eqn:Hc.
    2:{ rewrite (proj2 (Z.ltb_lt _ _)) by done. apply wpp_ret. split_and!; [done|apply grows_refl|done]. }
    pose proof (resolve_in t ph c Hc) as Hca. pose proof (place_off t fdt blob Hh c Hca). subst o.
    rewrite (proj2 (Z.ltb_ge _ _)) by done. destruct (cells_pointer_run c Hca) as (ic & il & Hgi & Hci).
    eapply wpp_run; [apply Hgi|]. cbv beta iota.
    destruct (_ || _); [apply wpp_ret; split_and!; [done|apply grows_refl|done]|].
    destruct (Hci eq_refl) as (num & _ & Hnum & Hrun).
    eapply wpp_step; [apply (chip_of_spec k); [done..|by apply (Hk ph c (irq_own t q ph Hwp))]|].
    intros [pd|] s' (HI' & Hg' & _); apply wpp_ret; split_and!; try done. by exists num.
  - replace (negb (php =? 0) && (len =? 4)) with false by (destruct Hw as [->|Hw]; lia).
    destruct (dv_parent v) as [e|]; [|destruct f; apply wpp_ret; split_and!; [done|apply grows_refl|done|done|apply grows_refl|done]].
    destruct Hpar as (q' & Hq' & Hkid & Hle & Hed).
    destruct (listed_ok s q' e HI Hq' Hle) as (_ & _ & par' & irqs & Hve & Hpo).
    apply (IH e q' (device_of par' q' irqs)); [done..| |lia|].
    + cbn. destruct par' as [[e' q'']|]; [|done]. cbn. by exists q''.
    + intros ph c Hph. by apply Hk, (irq_up t q' q ph Hwp).
Qed.

Lemma ext_loop_spec s0 s d p par v k probe w a f index m :
  making s0 s d p par v -> rooted s0 -> probes k probe -> (k <= rank (pl_off p))%nat ->
  has blob a w -> bytes_len w < 2 ^ 30 -> a + bytes_len w + 12 <= bytes_len blob ->
  0 <= index -> Z.quot (bytes_len w) 4 - index < Z.of_nat f ->
  let ws := words_at w (4 * index) (Z.to_nat (Z.quot (bytes_len w) 4 - index)) in
  (length ws <= m)%nat -> (forall c, c ∈ ext_controllers t m ws -> (rank (pl_off c) < k)%nat) -> (0 < f)%nat ->
  wpp (interrupts_ext_loop blob probe fdt d (fdt + a) (Z.quot (bytes_len w) 4) f index) s
    (fun _ s' => exists x, making s0 s' d p par (set_dv_irqs x v)).
Proof.
  revert s v index m. induction f as [|f IH]; intros s v index m Hm Hr0 Hp Hkp Ha Hw30 Hab Hi Hf; [intros; lia|].
  cbn [interrupts_ext_loop]. pose proof (bytes_len_nonneg w) as Hw0. rewrite Z.quot_div_nonneg in * by lia.
  intros Hlen Hrefs _.
  pose proof (Z.mul_div_le (bytes_len w) 4 ltac:(lia)) as Hn4. set (n := bytes_len w / 4) in *.
  pose proof (grows_rooted _ _ _ Hr0 (mk_grows _ _ _ _ _ _ Hm)) as Hr.
  assert (Hsame : exists x, making s0 s d p par (set_dv_irqs x v)) by (exists (dv_irqs v); by destruct v).
  pose proof framed_blob as [? ? _ _ _]. destruct (has_bounds _ _ _ Ha) as [Ha0 _].
  destruct (Z.ltb_spec index n) as [Hlt|Hge]; [|by apply wpp_bind, wpp_massert].
  rewrite u32_small by (unfold is_u32, bytes_len in *; lia).
  eapply wpp_run; [apply (has_word fdt blob framed_blob a w (4 * index) s Ha); lia|].
  set (ph := word_at w (4 * index)). destruct (resolve_run t fdt blob Hh ph s) as (o & Ho & Hres).
  assert (Hws : words_at w (4 * index) (Z.to_nat (n - index)) =
    ph :: words_at w (4 * index + 4) (Z.to_nat (n - (index + 1)))).
  { replace (Z.to_nat (n - index)) with (S (Z.to_nat (n - (index + 1)))) by lia. done. }
  rewrite Hws in Hlen, Hrefs. clear Hws. cbn [length] in Hlen. destruct m as [|m]; [lia|].
  eapply wpp_run; [exact Ho|]. cbn [ext_controllers] in Hrefs.
  destruct (resolve t ph) as [c|] eqn:Hc; [|rewrite (proj2 (Z.ltb_lt _ _)) by done; exact Hsame].
  pose proof (resolve_in t ph c Hc) as Hca. pose proof (place_off t fdt blob Hh c Hca). subst o.
  rewrite (proj2 (Z.ltb_ge _ _)) by done. cbv zeta.
  eapply wpp_step; [apply (chip_of_spec k); [done|by apply (mk_inv _ _ _ _ _ _ Hm)|done|done|apply Hrefs; left]|].
  intros cd s1 (HI1 & Hg1 & _).
  assert (Hm1 : making s0 s1 d p par v) by (eapply making_grows; [exact Hm|exact HI1|by eapply grows_mono]).
  clear Hsame.
  assert (Hsame : exists x, making s0 s1 d p par (set_dv_irqs x v)) by (exists (dv_irqs v); by destruct v).
  destruct cd as [cd|]; [|exact Hsame]. apply wpp_bind. apply find_chip_wpp; [by apply i_J|]. intros [chip|] Hchip; [|exact Hsame].
  specialize (Hchip chip eq_refl). destruct (cells_pointer_run c Hca) as (ic & il & Hgi & Hci).
  eapply wpp_run; [apply Hgi|]. cbv beta iota. destruct (_ || _); [exact Hsame|].
  destruct (Hci eq_refl) as (num & Hnum & Hnr & Hrun). eapply wpp_run; [apply Hrun|].
  eapply wpp_run; [apply get_device_run, (mk_obj _ _ _ _ _ _ Hm1)|].
  apply wpp_bind. eapply making_malloc; [exact Hm1|]. intros ok s2 Hm2 Ei.
  destruct ok; cbn [negb]; [|apply wpp_ret; exists (dv_irqs v); by destruct v].
  rewrite u32_small by (unfold is_u32, bytes_len in *; lia).
  replace (fdt + a + 4 * (index + 1)) with (fdt + (a + 4 * (index + 1))) by lia.
  eapply wpp_step; [apply (map_irq_spec s0 s2 d p par v chip); [done|by rewrite Ei|lia|lia]|].
  intros info s3 [Hm3 _]. cbv beta. eapply wpp_run; [apply get_device_run, (mk_obj _ _ _ _ _ _ Hm3)|].
  eapply wpp_run; [reflexivity|]. rewrite i32_small by lia. eapply wpp_run; [apply int_result_run; lia|].
  set (v' := set_dv_irqs (dv_irqs v ++ [info]) v).
  assert (Hm4 : making s0 (with_object d v' s3) d p par v') by (by apply (making_put _ _ _ _ _ v)).
  assert (Hrest : words_at w (4 * (index + 1 + num)) (Z.to_nat (n - (index + 1 + num))) =
    drop (Z.to_nat num) (words_at w (4 * index + 4) (Z.to_nat (n - (index + 1))))).
  { rewrite words_at_drop. f_equal; lia. }
  eapply wpp_mono.
  - fold n in IH. apply (IH _ v' (index + 1 + num) m Hm4 Hr0 Hp Hkp Ha Hw30 Hab); try lia; rewrite Hrest.
    + rewrite length_drop. lia.
    + intros c' Hc'. apply Hrefs. right. rewrite Hnum. exact Hc'.
  - intros r s4 [x Hx]. exists x. exact Hx.
Qed.

Lemma not_root_attr p name : p ∈ all -> is_Some (value_of (chars name) (pl_tree p)) ->
  name ∈ ["reg"; "sp-interrupts"; "interrupts"; "interrupts-extended"]%string -> p <> root_place t.
Proof. intros Hp [v Hv] Hn ->. change (pl_tree (root_place t)) with t in Hv. by rewrite (cv_root t rank Hcv name Hn) in Hv. Qed.

Lemma parse_ext_spec s0 s d p par v probe :
  making s0 s d p par v -> p = root_place t \/ rooted s0 -> probes (rank (pl_off p)) probe ->
  wpp (dt_parse_interrupts_ext blob probe fdt d) s (fun _ s' => exists x, making s0 s' d p par (set_dv_irqs x v)).
Proof.
  intros Hm Hr Hp. unfold dt_parse_interrupts_ext. eapply wpp_run; [apply get_device_run, (mk_obj _ _ _ _ _ _ Hm)|].
  rewrite (mk_node _ _ _ _ _ _ Hm). pose proof (mk_in _ _ _ _ _ _ Hm) as Hin.
  assert (Hl : located blob (pl_off p) (pl_tree p) (pl_stack p)) by (by eapply place_located).
  pose proof (getprop_run fdt blob (S := kernel P) framed_blob _ _ _ (chars "interrupts-extended") Hl) as Hg.
  pose proof (fun c => cv_ext t rank Hcv p c Hin) as Hrefs. unfold ext_refs, words_prop in Hrefs.
  pose proof (not_root_attr p "interrupts-extended" Hin) as Hnr.
  destruct (value_of _ (pl_tree p)) as [w|].
  2:{ eapply wpp_run; [apply Hg|]. apply wpp_ret. exists (dv_irqs v). by destruct v. }
  destruct Hr as [->|Hr]; [by destruct (Hnr ltac:(done) ltac:(do 3 right; left))|].
  destruct Hg as (a & Ha & (Hl30 & Hend) & Hg). destruct (has_bounds _ _ _ Ha). pose proof framed_blob as [? _ _ _ _].
  eapply wpp_run; [apply Hg|]. cbv beta iota zeta. rewrite (proj2 (Z.eqb_neq _ _)) by lia.
  pose proof (bytes_len_nonneg w). pose proof (Z.quot_pos (bytes_len w) 4 ltac:(lia) ltac:(lia)).
  apply ext_loop_spec with (rank (pl_off p)) (length (words_of w)); try done; try lia.
  - unfold words_of. rewrite !words_at_length. lia.
  - intros c. rewrite Z.mul_0_r, Z.sub_0_r. apply Hrefs.
Qed.

(** The property with the interrupts: [sp-interrupts], or else [interrupts]. *)
Lemma irqs_property p :
  p ∈ all ->
  exists p1 l1 ptr len,
    (forall s : kernel P, fdt_getprop fdt blob (pl_off p) (chars "sp-interrupts") s = Ret (p1, l1) s) /\
    (forall s : kernel P,
       (if p1 =? 0 then fdt_getprop fdt blob (pl_off p) (chars "interrupts") else ret (p1, l1)) s = Ret (ptr, len) s) /\
    (ptr <> 0 -> p <> root_place t /\ has_irqs (pl_tree p) /\
       exists a, ptr = fdt + a /\ 0 <= a /\ 0 <= len < 2 ^ 30 /\ a + len + 8 <= bytes_len blob).
Proof.
  intros Hin. assert (Hl : located blob (pl_off p) (pl_tree p) (pl_stack p)) by (by eapply place_located).
  pose proof framed_blob as [Hf0 _ _ _ _].
  pose proof (not_root_attr p "sp-interrupts" Hin) as Hn1. pose proof (not_root_attr p "interrupts" Hin) as Hn2.
  pose proof (getprop_run fdt blob (S := kernel P) framed_blob _ _ _ (chars "sp-interrupts") Hl) as Hg1.
  pose proof (getprop_run fdt blob (S := kernel P) framed_blob _ _ _ (chars "interrupts") Hl) as Hg2. unfold has_irqs.
  destruct (value_of (chars "sp-interrupts") (pl_tree p)) as [w|].
  - destruct Hg1 as (a & Ha & (H1 & H2) & Hg1). destruct (has_bounds _ _ _ Ha) as [Ha0 _]. pose proof (bytes_len_nonneg w).
    exists (fdt + a), (bytes_len w), (fdt + a), (bytes_len w). rewrite (proj2 (Z.eqb_neq (fdt + a) 0)) by lia.
    split; [done|]. split; [done|]. intros _. split; [apply Hn1; [done|do 1 right; left]|]. split; [by left|].
    exists a. split; [done|]. lia.
  - exists 0, (- FDT_ERR_NOTFOUND). rewrite Z.eqb_refl.
    destruct (value_of (chars "interrupts") (pl_tree p)) as [w|]; [|by eexists _, _].
    destruct Hg2 as (a & Ha & (H1 & H2) & Hg2). destruct (has_bounds _ _ _ Ha) as [Ha0 _]. pose proof (bytes_len_nonneg w).
    exists (fdt + a), (bytes_len w). split; [done|]. split; [done|]. intros _.
    split; [apply Hn2; [done|do 2 right; left]|]. split; [by right|]. exists a. split; [done|]. lia.
Qed.

Lemma parse_interrupts_spec s0 s d p par v probe :
  making s0 s d p par v -> p = root_place t \/ rooted s0 -> probes (rank (pl_off p)) probe ->
  wpp (dt_parse_interrupts blob probe fdt d) s (fun _ s' => exists x, making s0 s' d p par (set_dv_irqs x v)).
Proof.
  intros Hm Hr Hp. unfold dt_parse_interrupts. eapply wpp_run; [apply get_device_run, (mk_obj _ _ _ _ _ _ Hm)|].
  rewrite (mk_node _ _ _ _ _ _ Hm). pose proof (mk_in _ _ _ _ _ _ Hm) as Hin.
  destruct (irqs_property p Hin) as (p1 & l1 & ptr & len & Hg1 & Hg2 & Hptr).
  eapply wpp_run; [apply Hg1|]. cbv beta iota. eapply wpp_run; [apply Hg2|]. cbv beta iota.
  assert (Hself : making s0 s d p par (set_dv_irqs (dv_irqs v) v)) by (by destruct v).
  destruct (Z.eqb_spec ptr 0) as [->|Hne].
  { eapply wpp_run; [reflexivity|]. cbn [negb]. by eapply parse_ext_spec. }
  destruct (Hptr Hne) as (Hnr & Hirqs & a & -> & Ha0 & Hl30 & Hend). destruct Hr as [->|Hr]; [done|].
  eapply wpp_step with (Q' := fun ok s' => exists x, making s0 s' d p par (set_dv_irqs x v)).
  2:{ intros ok s1 [x Hx]. destruct ok; cbn [negb]; [|apply wpp_ret; by exists x].
      eapply wpp_mono; [apply parse_ext_spec; [exact Hx|by right|exact Hp]|]. intros _ s2 [y Hy]. by exists y. }
  unfold get_dt. eapply wpp_run; [reflexivity|].
  pose proof (grows_rooted _ _ _ Hr (mk_grows _ _ _ _ _ _ Hm)) as Hr1. pose proof (mk_inv _ _ _ _ _ _ Hm) as HI.
  eapply wpp_step.
  { apply (find_irq_parent_spec (rank (pl_off p)) probe _ s d p v); [done..| | | | |].
    - apply (mk_obj _ _ _ _ _ _ Hm).
    - apply (mk_node _ _ _ _ _ _ Hm).
    - rewrite (mk_parent _ _ _ _ _ _ Hm). pose proof (mk_parent_ok _ _ _ _ _ _ Hm) as Hpo.
      destruct par as [[e q]|]; [|done]. by exists q.
    - pose proof (making_lt _ _ _ _ _ _ Hm). lia.
    - intros ph c. by apply (cv_irq t rank Hcv p ph c Hin Hirqs). }
  intros r s1 (HI1 & Hg & Hres).
  assert (Hm1 : making s0 s1 d p par v) by (by eapply making_grows).
  assert (Hself1 : making s0 s1 d p par (set_dv_irqs (dv_irqs v) v)) by (by destruct v).
  destruct r as [| |pd ic]; [apply wpp_ret; eauto..|]. destruct Hres as (num & Hnum & Hrun).
  apply wpp_bind. apply find_chip_wpp; [by apply i_J|]. intros [chip|] Hchip; [|apply wpp_ret; eauto].
  specialize (Hchip chip eq_refl). eapply wpp_run; [apply Hrun|]. rewrite i32_small by lia.
  eapply wpp_run; [apply int_result_run; lia|]. unfold int_div. rewrite (proj2 (Z.eqb_neq _ _)) by lia.
  eapply wpp_run; [reflexivity|]. apply wpp_bind. eapply making_malloc; [exact Hm1|]. intros ok s2 Hm2 Ei.
  destruct ok; cbn [negb]; [|apply wpp_ret; exists (dv_irqs v); by destruct v].
  rewrite Z.quot_div_nonneg by lia. pose proof (Z.mul_div_le len (4 * num) ltac:(lia)).
  pose proof (Z.div_pos len (4 * num) ltac:(lia) ltac:(lia)).
  eapply wpp_step; [apply (map_irqs_spec s0 s2 d p par v chip a); [done|by rewrite Ei|lia|lia|lia]|].
  intros l s3 Hm3. eapply wpp_run; [apply get_device_run, (mk_obj _ _ _ _ _ _ Hm3)|].
  eapply wpp_run; [reflexivity|]. apply wpp_ret. exists l. exact (making_put _ _ _ _ _ v (set_dv_irqs l v) Hm3 eq_refl eq_refl).
Qed.

(** ** Creating a device *)

(** The parent of a node, which has a device. *)
Definition parent_listed s (p : place) (par : option (dev_ptr * place)) : Prop :=
  match par with
  | None => p = root_place t
  | Some (e, q) => q ∈ all /\ p ∈ kids_of q /\ listed s q e
  end.

(** The new object. *)
Definition fresh_object s (v : device) : kernel P :=
  with_object (next_device (k_dt s)) v (set_k_dt (set_next_device (S (next_device (k_dt s))) (k_dt s)) s).
Lemma fresh_making s s1 p par v :
  Inv s -> J s1 -> k_dt s1 = k_dt s -> p ∈ all -> unlisted s p -> parent_listed s p par ->
  dv_node v = pl_off p -> dv_parent v = fst <$> par ->
  making s (fresh_object s1 v) (next_device (k_dt s)) p par v.
Proof.
  intros HI HJ E Hp Hu Hpl Hn Hpv. pose proof (i_wf s HI) as Hwf. unfold fresh_object. rewrite E.
  set (n := next_device (k_dt s)). set (s2 := with_object n v _).
  assert (Hfr : forall d, d ∈ concat (device_table (k_dt s)) -> d <> n).
  { intros d Hd ->. destruct (i_dev s HI n Hd) as (q & _ & _ & par' & irqs & Hv & _).
    pose proof (i_fresh s HI n ltac:(rewrite Hv; done)). lia. }
  assert (Hot : off_table s s2).
  { split; unfold s2; cbn; rewrite ?E; [done|unfold n; lia|]. intros d Hd. rewrite lookup_insert_ne; [done|].
    intros ->. by apply (Hfr d). }
  split; [done| |apply lookup_insert_eq|done|done|by eapply off_unlisted| | |done].
  - eapply inv_off; [done|done|by do 2 apply (pe_dt J He)|]. unfold s2. cbn. rewrite ?E. intros d.
    rewrite lookup_insert_is_Some. intros [<-|[_ Hd]]; [lia|]. pose proof (i_fresh s HI d Hd). lia.
  - eapply off_parent; [done|done|]. destruct par as [[e q]|]; [|done]. destruct Hpl as (H1 & H2 & H3).
    split_and!; [done..|]. destruct (listed_object s q e HI H3) as (_ & ve & Hve & _).
    apply (i_fresh s HI e). by rewrite Hve.
  - split; [|unfold s2; cbn; rewrite ?E; lia|intros; by eapply off_listed|intros; by eapply off_unlisted].
    intros d Hd. unfold s2. cbn. rewrite ?E, lookup_insert_ne; [done|]. unfold n. lia.
Qed.

Lemma simple_bus_names : Forall (fun c => nz (chars c) /\ chars c <> []) simple_bus_match_table.
Proof. repeat constructor; done. Qed.

Lemma device_create_spec probe p par strict s :
  Inv s -> p ∈ all -> unlisted s p -> parent_listed s p par -> p = root_place t \/ rooted s ->
  probes (rank (pl_off p)) probe ->
  wpp (device_create blob probe fdt (pl_off p) (fst <$> par) strict) s (fun o s' =>
    match o with
    | None => strict = true /\ usable (pl_tree p) = false /\ s' = s
    | Some d => (strict = true -> usable (pl_tree p) = true) /\ exists irqs, making s s' d p par (created par p irqs)
    end).
Proof.
  intros HI Hp Hu Hpl Hr Hpr. unfold device_create.
  assert (Hl : located blob (pl_off p) (pl_tree p) (pl_stack p)) by (by eapply place_located).
  destruct (get_property_null fdt blob framed_blob _ _ _ (chars "compatible") s Hl) as (cp & cl & Hc & Hcn).
  eapply wpp_run; [exact Hc|]. cbv beta iota.
  assert (Hskip : (if strict then if cp =? 0 then ret true
      else st <- _fdt_get_status blob fdt (pl_off p);; ret (st =? DT_STATUS_DISABLED) else ret false) s =
    Ret (strict && negb (usable (pl_tree p))) s).
  { destruct strict; [|done]. unfold usable. rewrite Hcn.
    destruct (value_of (chars "compatible") (pl_tree p)) as [w|]; [|done].
    rewrite !bool_decide_eq_false_2 by done. rewrite (bool_decide_eq_true_2 (is_Some _)) by done.
    rewrite (bind_run _ _ _ _ _ (status_run fdt blob framed_blob _ _ _ Hl s)). by destruct (status_ok _). }
  eapply wpp_run; [exact Hskip|]. destruct (strict && negb (usable (pl_tree p))) eqn:Hsk.
  { apply andb_true_iff in Hsk as [-> Hsk]. apply wpp_ret. split_and!; [done|by apply negb_true_iff|done]. }
  assert (Hus : strict = true -> usable (pl_tree p) = true) by (intros ->; by apply negb_false_iff in Hsk).
  apply wpp_bind, malloc_wpp; [by apply i_J|]. intros ok s1 HJ1 E1 _. destruct ok; [|done]. cbn [negb].
  unfold get_dt, modify_dt. eapply wpp_run; [reflexivity|]. eapply wpp_run; [reflexivity|].
  eapply wpp_run; [by apply (get_phandle_run fdt blob framed_blob _ (pl_tree p) (pl_stack p))|].
  set (s2 := set_k_dt _ s1).
  destruct (get_name_run fdt blob framed_blob _ _ _ s2 Hl) as (np & Hnr & Hnz & Hns).
  rewrite (bind_run _ _ _ _ _ (check_header_run fdt blob framed_blob t Hh s2)) in Hnr. cbn [truth Z.eqb negb] in Hnr.
  eapply wpp_run; [exact Hnr|]. cbv beta iota. rewrite (proj2 (Z.eqb_neq _ _)) by done.
  eapply wpp_run; [exact Hns|].
  eapply wpp_run; [apply (check_any_run fdt blob framed_blob _ _ _ Hl _ s2 (proj1 (cv_lists t rank Hcv p Hp))), simple_bus_names|].
  fold (simple_bus (pl_tree p)). eapply wpp_run with (s' := s2) (a := match par with
    | Some (_, q) => if bus q then RESOURCE_MEM else RESOURCE_OTHER | None => RESOURCE_OTHER end).
  { destruct par as [[e q]|]; [|done]. cbn [fmap option_fmap option_map fst]. destruct Hpl as (Hq & _ & Hlq).
    destruct (listed_ok s q e HI Hq Hlq) as (_ & _ & par' & irqs & Hve & _). rewrite <- E1 in Hve.
    by rewrite (bind_run _ _ _ _ _ (get_device_run s2 e _ Hve)). }
  set (v0 := Device _ _ _ _ _ [] [] [] [] true _).
  assert (Hm : making s (fresh_object s1 v0) (next_device (k_dt s)) p par v0) by (by apply fresh_making).
  eapply wpp_run; [reflexivity|]. rewrite <- E1 in Hm.
  eapply wpp_step; [eapply parse_resources_spec; [exact Hm|done]|]. intros b0 s3 (x0 & Hm0 & Hb0).
  eapply wpp_step; [eapply parse_interrupts_spec; [exact Hm0|done|done]|]. intros b1 s4 (irqs & Hm1).
  eapply wpp_step; [eapply parse_csu_spec; [exact Hm1|done]|]. intros b2 s5 (x2 & Hm2 & Hb2).
  eapply wpp_step; [eapply parse_class_spec; [exact Hm2|done]|]. intros b3 s6 (x3 & Hm3 & Hb3).
  destruct b0, b1, b2, b3; try done. apply wpp_ret. split; [done|]. exists irqs.
  rewrite (Hb0 eq_refl), (Hb2 eq_refl), (Hb3 eq_refl) in Hm3. exact Hm3.
Qed.

(** ** Inserting it and running its driver *)

Lemma insert_spec s0 s d p par irqs :
  making s0 s d p par (device_of par p irqs) -> admitted t p ->
  exists s', device_insert d s = Ret tt s' /\ Inv s' /\ listed s' p d /\ grows (S (rank (pl_off p))) s0 s'.
Proof.
  intros Hm Ha. pose proof (making_fresh _ _ _ _ _ _ Hm) as Hni.
  destruct Hm as [Hin HI Ho _ _ Hu Hpo Hg Hnew]. pose proof (i_wf s HI) as Hwf.
  destruct (device_insert_lookup s d _ Hwf Ho Hni) as (s' & Hs' & Hwf' & Hha' & Hl & Hoth).
  destruct (node_bucket_lookup s (dv_node (device_of par p irqs)) Hwf) as (l & Hl1 & _).
  assert (Hsame : device_objs (k_dt s') = device_objs (k_dt s) /\ next_device (k_dt s') = next_device (k_dt s) /\
    J s' /\ concat (device_table (k_dt s')) ≡ₚ d :: concat (device_table (k_dt s))).
  { rewrite (device_insert_run s d _ l Ho Hl1) in Hs'. apply Ret_inj in Hs' as [_ <-]. split_and!; [done|done|by apply (pe_dt J He), (i_J s HI)|].
    by apply concat_insert. }
  destruct Hsame as (Eo & En & HJ & Ht). cbn in Hl.
  assert (Hkeep : forall q e, q ∈ all -> listed s q e -> listed s' q e).
  { intros q e Hq Hlq. unfold listed, unlisted in *. destruct (decide (pl_off q = pl_off p)) as [E|E]; [rewrite E in *; congruence|].
    destruct (Hoth (pl_off q) ltac:(done)) as (r & H1 & H2). rewrite H1 in Hlq. injection Hlq as ->. done. }
  exists s'. split; [done|]. split; [|split; [done|]].
  - split; [done|by apply Hha', i_hashed|rewrite Eo, En; apply (i_fresh s HI)| |done].
    intros e Hte. rewrite Ht in Hte. apply elem_of_cons in Hte as [->|Hte].
    + exists p. split; [done|]. split; [done|]. exists par, irqs. rewrite Eo. split; [done|].
      destruct par as [[e q]|]; [|done]. destruct Hpo as (H1 & H2 & H3 & H4). split_and!; [done..|by apply Hkeep|done].
    + destruct (i_dev s HI e Hte) as (q & Haq & Hlq & par' & irqs' & Hv & Hpo'). exists q.
      split; [done|]. split; [by apply Hkeep; [apply admitted_in in Haq|]|]. exists par', irqs'. rewrite Eo. split; [done|].
      destruct par' as [[e' q']|]; [|done]. destruct Hpo' as (H1 & H2 & H3 & H4). split_and!; [done..|by apply Hkeep|done].
  - destruct Hg as [G1 G2 G3 G4]. split; rewrite ?Eo, ?En; [done|done| |].
    + intros q e Hq Hlq. by apply Hkeep, G3.
    + intros q Hq Huq Hk. specialize (G4 q Hq Huq ltac:(lia)). unfold unlisted in *.
      assert (E : pl_off q <> dv_node (device_of par p irqs)) by (cbn; intros E; rewrite E in Hk; lia).
      destruct (Hoth (pl_off q) E) as (r & H1 & H2). rewrite H1 in G4. by injection G4 as ->.
Qed.

Lemma find_match_spec p l s :
  p ∈ all -> (forall c pr, (c, pr) ∈ l -> nz (chars c) /\ chars c <> []) ->
  exists m, find_match blob fdt (pl_off p) l s = Ret m s /\
    forall pr, m = Some pr -> exists c, (c, pr) ∈ l /\ compatible_with (pl_tree p) c = true.
Proof.
  intros Hp. assert (Hl : located blob (pl_off p) (pl_tree p) (pl_stack p)) by (by eapply place_located).
  induction l as [|[c pr] l IH]; intros Hn; [by exists None|]. cbn [find_match].
  destruct (Hn c pr ltac:(left)) as [Hc1 Hc2]. pose proof (proj1 (cv_lists t rank Hcv p Hp)) as Hsl.
  rewrite (bind_run _ _ _ _ _ (check_compatible_run fdt blob framed_blob _ _ _ (chars c) s Hl Hc1 Hc2 Hsl)).
  destruct IH as (m & Hm & Hmp); [intros c' pr' Hin; by apply (Hn c' pr'); right|].
  assert (Hrest : exists m', find_match blob fdt (pl_off p) l s = Ret m' s /\
    forall pr0, m' = Some pr0 -> exists c0, (c0, pr0) ∈ (c, pr) :: l /\ compatible_with (pl_tree p) c0 = true).
  { exists m. split; [done|]. intros pr0 Hpr0. destruct (Hmp pr0 Hpr0) as (c0 & Hc0 & ?). exists c0. split; [by right|done]. }
  unfold compatible_with in *. destruct (value_of (chars "compatible") (pl_tree p)) as [w|]; [|exact Hrest].
  case_bool_decide as Hin; [|exact Hrest]. cbn [Z.eqb]. exists (Some pr). split; [done|]. intros ? [= <-].
  exists c. split; [left|]. by apply bool_decide_eq_true_2.
Qed.
Lemma find_driver_spec p L s :
  p ∈ all -> (forall d, d ∈ L -> d ∈ dt_drivers) ->
  exists m, find_driver blob fdt (pl_off p) L s = Ret m s /\
    forall pr, m = Some pr -> exists d c, d ∈ dt_drivers /\ (c, pr) ∈ match_table d /\ compatible_with (pl_tree p) c = true.
Proof.
  intros Hp. induction L as [|d L IH]; intros Hd; [by exists None|]. cbn [find_driver].
  destruct (find_match_spec p (match_table d) s Hp) as (m & Hm & Hmp).
  { intros c pr Hin. by apply (pe_names J He d c pr (Hd d ltac:(left))). }
  rewrite (bind_run _ _ _ _ _ Hm). destruct m as [pr|]; [|apply IH; intros d' Hd'; by apply Hd; right].
  exists (Some pr). split; [done|]. intros ? [= <-]. destruct (Hmp pr eq_refl) as (c & Hc & ?). exists d, c.
  split_and!; [by apply Hd; left|done|done].
Qed.
Lemma driver_spec s d p par irqs :
  admitted t p -> J s -> device_objs (k_dt s) !! d = Some (device_of par p irqs) -> parent_ok s d p par ->
  wpp (dt_probe_compatible_driver blob dt_drivers fdt d) s (fun _ s' => J s' /\ k_dt s' = k_dt s).
Proof.
  intros Ha HJ Ho Hpo. pose proof (admitted_in t p Ha) as Hp. unfold dt_probe_compatible_driver. eapply wpp_run; [by apply get_device_run|].
  destruct (find_driver_spec p dt_drivers s Hp ltac:(done)) as (m & Hm & Hmp). eapply wpp_run; [exact Hm|].
  destruct m as [pr|]; [|by apply wpp_ret]. destruct (Hmp pr eq_refl) as (dr & c & H1 & H2 & H3).
  apply (pe_driver J He s dr c pr d par p irqs); try done. destruct par as [[e q]|]; [|done]. by destruct Hpo as (? & ? & _).
Qed.

(** The device of a node: the one there is, or a new one. *)
Lemma device_for_spec probe p par s :
  Inv s -> rooted s -> p ∈ all -> parent_listed s p par -> probes (rank (pl_off p)) probe ->
  wpp (o <- device_lookup (pl_off p);;
       match o with
       | Some d => ret (Some d)
       | None =>
           d <- device_create blob probe fdt (pl_off p) (fst <$> par) true;;
           match d with
           | None => ret None
           | Some dev => device_insert dev ;;; dt_probe_compatible_driver blob dt_drivers fdt dev ;;; ret (Some dev)
           end
       end) s (fun o s' => Inv s' /\ grows (S (rank (pl_off p))) s s' /\
    match o with Some d => listed s' p d | None => usable (pl_tree p) = false end).
Proof.
  intros HI Hr Hp Hpl Hpr. destruct (lookup_total s (pl_off p) (i_wf s HI)) as (o & Ho & _).
  eapply wpp_run; [exact Ho|]. destruct o as [d|]; [apply wpp_ret; split_and!; [done|apply grows_refl|done]|].
  eapply wpp_step; [apply device_create_spec; [done|done|done|done|by right|done]|].
  intros [d|] s1; [|intros (_ & Hu & ->); apply wpp_ret; split_and!; [done|apply grows_refl|done]].
  intros (Hu & irqs & Hm). destruct par as [[e q]|].
  2:{ exfalso. cbn in Hpl. subst p. destruct Hr as [e Hre]. unfold listed in Hre. congruence. }
  destruct Hpl as (Hq & Hk & Hlq). destruct (listed_ok s q e HI Hq Hlq) as (Haq & _).
  assert (Ha : admitted t p) by (by apply (admitted_kid t q p Hq Haq Hk), Hu).
  assert (Hdo : created (Some (e, q)) p irqs = device_of (Some (e, q)) p irqs).
  { unfold device_of, bus. pose proof (root_off t fdt blob Hh p Hp (kid_not_root t fdt blob Hh q p Hq Hk)).
    by rewrite (proj2 (Z.eqb_neq (pl_off p) 0)) by lia. }
  rewrite Hdo in Hm. destruct (insert_spec s s1 d p _ irqs Hm Ha) as (s2 & Hins & HI2 & Hl2 & Hg2).
  eapply wpp_run; [exact Hins|]. destruct (listed_ok s2 p d HI2 Hp Hl2) as (_ & _ & par2 & irqs2 & Ho2 & Hpo2).
  eapply wpp_step; [exact (driver_spec s2 d p par2 irqs2 Ha (i_J s2 HI2) Ho2 Hpo2)|]. intros _ s3 [HJ3 E3]. apply wpp_ret.
  pose proof (inv_same s2 s3 HI2 HJ3 E3) as HI3. pose proof (grows_same (S (rank (pl_off p))) s2 s3 HI2 E3) as Hg3.
  split_and!; [done|by eapply grows_trans|by apply (g_listed _ _ _ Hg3)].
Qed.

(** ** Probing one node, and a subtree *)

#[local] Abbreviation probe_device := (dt_probe_device blob dt_drivers).

Lemma probe_up_spec n c s :
  Inv s -> rooted s -> c ∈ all -> (rank (pl_off c) < n)%nat ->
  wpp (probe_device n fdt (pl_off c) None false) s
    (fun o s' => Inv s' /\ grows (S (rank (pl_off c))) s s' /\ forall d, o = Some d -> listed s' c d).
Proof.
  revert c s. induction n as [|n IH]; intros c s HI Hr Hc Hn; [lia|]. cbn [dt_probe_device].
  set (probe := fun node => probe_device n fdt node None false).
  assert (Hpr : probes (rank (pl_off c)) probe).
  { intros q s1 HI1 Hr1 Hq Hk. eapply wpp_mono; [by apply (IH q s1 HI1 Hr1 Hq); lia|].
    intros o s2 (H1 & H2 & H3). split_and!; [done|by eapply grows_mono|done]. }
  eapply wpp_step with (Q' := fun r s' => Inv s' /\ grows (rank (pl_off c)) s s' /\
    match r with None => True | Some e => exists par, e = fst <$> par /\ parent_listed s' c par end).
  - destruct (has_parent t c Hc) as [->|(q & Hq & Hk)].
    + eapply wpp_run; [exact (root_parent_run t fdt blob Hh s)|].
      change (- FDT_ERR_NOTFOUND >=? 0) with false. cbv iota. apply wpp_ret. split_and!; [done|apply grows_refl|by exists None].
    + eapply wpp_run; [apply (kid_parent_run t fdt blob Hh q c s Hq Hk)|].
      pose proof (place_off t fdt blob Hh q Hq). rewrite (proj2 (Z.geb_le _ _)) by lia.
      eapply wpp_step; [apply (chip_of_spec (rank (pl_off c)) probe q s Hpr HI Hr Hq), (cv_parent t rank Hcv q c Hq Hk)|].
      intros [e|] s1 (HI1 & Hg1 & Hl1); apply wpp_ret; split_and!; try done.
      exists (Some (e, q)). split; [done|]. split_and!; [done..|by apply Hl1].
  - intros [e|] s1 (HI1 & Hg1 & Hpar); [|apply wpp_ret; split_and!; [done|eapply grows_mono; [done|lia]|done]].
    destruct Hpar as (par & -> & Hpl). pose proof (grows_rooted _ _ _ Hr Hg1) as Hr1.
    apply wpp_assoc. eapply wpp_step; [exact (device_for_spec probe c par s1 HI1 Hr1 Hc Hpl Hpr)|]. intros o s2 (HI2 & Hg2 & Hl2).
    assert (Hg : grows (S (rank (pl_off c))) s s2) by (eapply grows_trans; [eapply grows_mono; [exact Hg1|lia]|done]).
    destruct o as [d|]; [|by apply wpp_ret]. cbn [when]. eapply wpp_run; [reflexivity|]. apply wpp_ret.
    split_and!; [done..|by intros ? [= <-]].
Qed.

Fixpoint height (t : tree) : nat :=
  match t with Node _ _ ks => S ((fix go l := match l with [] => O | k :: l' => max (height k) (go l') end) ks) end.
Lemma height_kid u k : k ∈ t_kids u -> (height k < height u)%nat.
Proof.
  destruct u as [nm ps ks]. cbn [t_kids height]. induction ks as [|x ks IH]; [by intros ?%elem_of_nil|].
  intros [->|H]%elem_of_cons; [lia|]. specialize (IH H). lia.
Qed.

Lemma for_each_map {S A B} (g : A -> B) (l : list A) (body : B -> M S unit) (s : S) :
  for_each (map g l) body s = for_each l (fun x => body (g x)) s.
Proof. revert s. induction l as [|x l IH]; intros s; [done|]. cbn. unfold bind. destruct (body (g x) s); auto. Qed.

(** Every node of the subtree that is admitted has a device. *)
Definition covered s (p : place) : Prop := forall c, c ∈ below p -> admitted t c -> exists d, listed s c d.
Lemma covered_grows k s s' p : p ∈ all -> covered s p -> grows k s s' -> covered s' p.
Proof.
  intros Hp Hc Hg c Hb Ha. destruct (Hc c Hb Ha) as [d Hd]. exists d. apply (g_listed _ _ _ Hg); [by apply admitted_in|done].
Qed.
Lemma covered_kids s p : p ∈ all -> (admitted t p -> exists d, listed s p d) -> (forall k, k ∈ kids_of p -> covered s k) -> covered s p.
Proof.
  intros Hp Hd Hk c Hc Ha. destruct (below_inv _ _ Hc) as [->|(k & Hkk & Hck)]; [by apply Hd|]. by apply (Hk k).
Qed.

Context (R : nat) (HR : forall p, p ∈ all -> (rank (pl_off p) < R)%nat).

(** The loop over the children of a node that has a device. *)
Lemma kids_spec (body : Z -> M (kernel P) unit) p d s :
  (forall k s, k ∈ kids_of p -> Inv s -> rooted s -> listed s p d ->
     wpp (body (pl_off k)) s (fun _ s' => Inv s' /\ grows R s s' /\ covered s' k)) ->
  p ∈ all -> Inv s -> rooted s -> listed s p d ->
  wpp (fdt_for_each_subnode fdt blob (pl_off p) body) s (fun _ s' => Inv s' /\ grows R s s' /\ covered s' p).
Proof.
  intros Hb Hp HI Hr Hl. assert (Hloc : located blob (pl_off p) (pl_tree p) (pl_stack p)) by (by eapply place_located).
  unfold wpp at 1. rewrite (for_each_subnode_run fdt blob framed_blob _ _ _ body s Hloc), <- kids_offs, for_each_map.
  change (wpp (for_each (kids_of p) (fun x => body (pl_off x))) s (fun _ s' => Inv s' /\ grows R s s' /\ covered s' p)).
  eapply wpp_mono; [apply (wpp_for_each (fun done s' => Inv s' /\ grows R s s' /\ forall k, k ∈ done -> covered s' k))|].
  - split_and!; [done|apply grows_refl|]. by intros k ?%elem_of_nil.
  - intros done x rest s1 E (HI1 & Hg1 & Hc1). assert (Hx : x ∈ kids_of p) by (rewrite E; set_solver).
    eapply wpp_mono; [apply (Hb x s1 Hx HI1); [by eapply grows_rooted|by apply (g_listed _ _ _ Hg1)]|].
    intros _ s2 (HI2 & Hg2 & Hc2). split_and!; [done|by eapply grows_trans|].
    intros k [Hk| ->]%elem_of_snoc; [|done]. eapply covered_grows; [|by apply Hc1|exact Hg2].
    apply (kids_closed t p k Hp). rewrite E. set_solver.
  - intros _ s1 (HI1 & Hg1 & Hc1). split_and!; [done..|]. apply covered_kids; [done| |done].
    intros _. exists d. by apply (g_listed _ _ _ Hg1).
Qed.

Lemma probe_down_spec n p e q s :
  q ∈ all -> p ∈ kids_of q -> listed s q e -> Inv s -> rooted s -> (R + height (pl_tree p) <= n)%nat ->
  wpp (probe_device n fdt (pl_off p) (Some e) true) s (fun _ s' => Inv s' /\ grows R s s' /\ covered s' p).
Proof.
  revert p e q s. induction n as [|n IH]; intros p e q s Hq Hk Hl HI Hr Hn.
  { destruct (pl_tree p). cbn in Hn. lia. }
  pose proof (kids_closed t q p Hq Hk) as Hp. pose proof (HR p Hp) as HRp. cbn [dt_probe_device].
  eapply wpp_run; [reflexivity|]. cbv beta iota.
  assert (Hpr : probes (rank (pl_off p)) (fun node => probe_device n fdt node None false)).
  { intros c s1 HI1 Hr1 Hc Hkc. eapply wpp_mono; [apply (probe_up_spec n c s1 HI1 Hr1 Hc); lia|].
    intros o s2 (H1 & H2 & H3). split_and!; [done|by eapply grows_mono|done]. }
  apply wpp_assoc. eapply wpp_step; [exact (device_for_spec _ p (Some (e, q)) s HI Hr Hp (conj Hq (conj Hk Hl)) Hpr)|]. intros o s1 (HI1 & Hg1 & Ho).
  assert (Hg : grows R s s1) by (eapply grows_mono; [exact Hg1|lia]). pose proof (grows_rooted _ _ _ Hr Hg) as Hr1.
  destruct o as [d|].
  - cbn [when]. eapply wpp_step; [eapply (kids_spec _ p d s1); [|done..]|].
    + intros k s2 Hkk HI2 Hr2 Hl2. eapply wpp_step; [eapply (IH k d p s2); try done|].
      * destruct (kids_in _ _ Hkk) as (_ & _ & Hin). pose proof (height_kid _ _ Hin). lia.
      * intros ? s3 H3. apply wpp_ret. exact H3.
    + intros _ s2 (HI2 & Hg2 & Hc2). apply wpp_ret. split_and!; [done|by eapply grows_trans|done].
  - apply wpp_ret. split_and!; [done..|]. intros c Hc Hac. exfalso.
    pose proof (admitted_below t fdt blob Hh p c Hp Hc Hac) as Hap.
    destruct (admitted_inv t fdt blob Hh q p Hq Hk Hap) as [_ Hu]. congruence.
Qed.

(** ** The whole table *)

Lemma path_root_run s : fdt_path_offset fdt blob 2 (chars "/") s = Ret 0 s.
Proof.
  cbn [fdt_path_offset]. rewrite (bind_run _ _ _ _ _ (check_header_run fdt blob framed_blob t Hh s)).
  cbn [truth Z.eqb negb]. by rewrite bool_decide_eq_true_2 by done.
Qed.

(** The root gets a device whatever its properties. *)
Lemma root_spec probe (k : dev_ptr -> M (kernel P) Z) s Q :
  Inv s -> unlisted s (root_place t) -> probes (rank 0) probe ->
  (forall d s', Inv s' -> listed s' (root_place t) d -> wpp (k d) s' Q) ->
  wpp (root_device <- device_create blob probe fdt 0 None false;;
       match root_device with
       | None => panic
       | Some rd => d <- get_device rd;; put_device rd (set_dv_is_simple_bus true d) ;;; device_insert rd ;;; k rd
       end) s Q.
Proof.
  intros HI Hu Hpr Hk.
  eapply wpp_step; [exact (device_create_spec probe (root_place t) None false s HI (root_in t) Hu eq_refl (or_introl eq_refl) Hpr)|].
  intros [d|] s1; [|by intros (? & _)]. intros (_ & irqs & Hm). set (v := created None (root_place t) irqs) in *.
  eapply wpp_run; [apply get_device_run, (mk_obj _ _ _ _ _ _ Hm)|]. eapply wpp_run; [reflexivity|].
  pose proof (making_put _ _ _ _ _ v (device_of None (root_place t) irqs) Hm eq_refl eq_refl) as Hm'.
  destruct (insert_spec s _ d _ None irqs Hm' (admitted_root t)) as (s2 & Hins & HI2 & Hl2 & _).
  eapply wpp_run; [exact Hins|]. by apply Hk.
Qed.
End spec.

(** ** Properties *)

(** The device table of a tree. *)
Definition table_built {P} (t : tree) (s' : kernel P) : Prop :=
  dt_wf s' /\ dt_hashed s' /\
  (forall p, p ∈ all_places t -> admitted t p -> exists d par irqs, listed s' p d /\
     device_objs (k_dt s') !! d = Some (device_of par p irqs) /\ parent_ok t s' d p par) /\
  (forall p, p ∈ all_places t -> ~ admitted t p -> unlisted s' p) /\
  (forall d, d ∈ concat (device_table (k_dt s')) -> (d < next_device (k_dt s'))%nat /\ exists p, p ∈ all_places t /\ listed s' p d).
Lemma dt_probe_run {P} {plat : Platform P} {cfg : Config} {drv : IrqDrivers P}
    fdt blob t dt_drivers (J : kernel P -> Prop) (rank : Z -> nat) (R n : nat) CFG_DT_ADDR (s : kernel P) :
  holds_tree fdt blob t -> off_struct blob + size_struct blob + 4 <= bytes_len blob ->
  conventional t rank -> (forall p, p ∈ all_places t -> (rank (pl_off p) < R)%nat) -> (R + height t <= n)%nat ->
  probe_env fdt t dt_drivers J -> J s -> device_objs (k_dt s) = ∅ ->
  phys_to_virt CFG_DT_ADDR MEM_AREA_RAM_NSEC s = Ret fdt s ->
  wpp (dt_probe blob dt_drivers n CFG_DT_ADDR) s (fun r s' =>
    r = 0 /\ J s' /\ table_built t s').
Proof.
  intros Hh Hroom Hcv HR Hn He HJ Hobj Hva. unfold dt_probe. eapply wpp_run; [exact Hva|].
  pose proof (ht_framed _ _ _ Hh) as [Hf0 _ _ _ _]. rewrite (proj2 (Z.eqb_neq fdt 0)) by lia.
  eapply wpp_run; [reflexivity|]. set (s1 := set_k_dt _ s). eapply wpp_run; [apply (path_root_run fdt blob t Hh s1)|].
  change (0 <? 0) with false. cbv iota.
  assert (HI1 : Inv t J s1).
  { assert (Hc : concat (device_table (k_dt s1)) = []) by (vm_compute; reflexivity).
    split; [| | | |by apply (pe_dt _ _ _ J He)].
    - split; [by vm_compute|]. rewrite Hc. by split; constructor.
    - intros b l d v Hb Hd _. assert (Hx : d ∈ concat (device_table (k_dt s1))); [|rewrite Hc in Hx; by apply elem_of_nil in Hx].
      rewrite list_elem_of_In, in_concat. exists l. rewrite <- !list_elem_of_In. split; [by eapply list_elem_of_lookup_2|done].
    - intros d. unfold s1. cbn. rewrite Hobj, lookup_empty. by intros [].
    - intros d Hd. rewrite Hc in Hd. by apply elem_of_nil in Hd. }
  assert (Hu1 : unlisted s1 (root_place t)).
  { destruct (lookup_total s1 0 (i_wf _ _ _ HI1)) as ([d|] & Hr & Hd); [|exact Hr].
    destruct (Hd d eq_refl) as [Hin _]. by apply elem_of_nil in Hin. }
  set (probe := fun node => dt_probe_device blob dt_drivers n fdt node None false).
  assert (Hr0 : (rank 0%Z < R)%nat) by (apply (HR (root_place t)), root_in).
  apply (root_spec fdt blob t Hh dt_drivers J He rank Hcv Hroom probe); [done|done| |].
  { intros c s2 HI2 Hr2 Hc Hkc. unfold probe.
    eapply wpp_mono; [apply (probe_up_spec fdt blob t Hh dt_drivers J He rank Hcv Hroom n c s2 HI2 Hr2 Hc); lia|].
    intros o s3 (HI3 & Hg3 & Hl3). split_and!; [done|by eapply grows_mono|done]. }
  intros d s2 HI2 Hl2. eapply wpp_step.
  { apply (kids_spec fdt blob t Hh dt_drivers J He rank Hcv Hroom R HR _ (root_place t) d s2); [|apply root_in|done|by exists d|done].
    intros k s3 Hk HI3 Hr3 Hl3.
    eapply wpp_step; [eapply (probe_down_spec fdt blob t Hh dt_drivers J He rank Hcv Hroom R HR n k d (root_place t)); try done; [apply root_in|]|].
    - destruct (kids_in _ _ Hk) as (_ & _ & Hin). pose proof (height_kid _ _ Hin). cbn in *. lia.
    - intros ? s4 H4. apply wpp_ret. exact H4. }
  intros _ s3 (HI3 & Hg3 & Hcov). apply wpp_ret. split; [done|]. split; [apply HI3|]. split; [apply HI3|]. split; [apply HI3|]. split_and!.
  - intros p Hp Ha. destruct (Hcov p Hp Ha) as [e He3]. exists e.
    destruct (listed_ok fdt blob t Hh J s3 p e HI3 Hp He3) as (_ & _ & par & irqs & ? & ?). by exists par, irqs.
  - intros p Hp Hna. destruct (lookup_total s3 (pl_off p) (i_wf _ _ _ HI3)) as ([e|] & Hr & _); [|exact Hr].
    destruct Hna. by apply (listed_ok fdt blob t Hh J s3 p e HI3 Hp Hr).
  - intros e Hin. destruct (i_dev _ _ _ HI3 e Hin) as (p & Ha & Hl & par & irqs & Ho & _).
    split; [by apply (i_fresh _ _ _ HI3); rewrite Ho|]. exists p. split; [by apply admitted_in|done].
Qed.


(** ** An example

    A bus with a WLAN module and a camera that is disabled, probed with the
    drivers of the system, none of which is for them. *)

Definition board_names : list string :=
  ["compatible"; "reg"; "status"; "phandle"; "sp-class"; "sp-csu"; "#size-cells"; "#address-cells"]%string.
Definition board_tree : tree :=
  let p := mk board_names in
  Node [] [p "#address-cells" (cells [1]); p "#size-cells" (cells [1])]
    [Node (chars "soc") [p "compatible" (str "simple-bus"); p "#address-cells" (cells [1]); p "#size-cells" (cells [1])]
       [Node (chars "wifi@1000") [p "compatible" (str "ti,wl1271"); p "reg" (cells [0x1000; 0x100]);
                                  p "phandle" (cells [7]); p "sp-class" (str "wifi"); p "sp-csu" (cells [12])] [];
        Node (chars "camera@2000") [p "compatible" (str "ovti,ov5640"); p "status" (str "disabled")] []];
     Node (chars "chosen") [] []].
Definition board_dtb : list Z := dtb (strtab board_names) board_tree.
Definition board_addr : Z := 0x18000000.

Lemma Forall_places (f : place -> bool) t p : forallb f (all_places t) = true -> p ∈ all_places t -> f p = true.
Proof. intros H Hp. eapply forallb_forall in H; [exact H|by apply list_elem_of_In]. Qed.

(** The conventions, for a tree without interrupts, by computation. *)
Definition terminated (name : string) (t : tree) : bool :=
  match value_of (chars name) t with Some v => bool_decide (strings (split_strings v) = v) | None => true end.
Definition absent (t : tree) (name : string) : bool := bool_decide (value_of (chars name) t = None).
Definition quiet_place (p : place) : bool :=
  terminated "compatible" (pl_tree p) && terminated "sp-class" (pl_tree p) &&
  forallb (absent (pl_tree p)) ["#interrupt-cells"; "sp-interrupts"; "interrupts"; "interrupts-extended"]%string &&
  forallb (fun q => (0 <=? pl_off p) && (pl_off p <? pl_off q)) (kids_of p).
Lemma quiet_conventional t :
  absent t "reg" = true -> forallb quiet_place (all_places t) = true -> conventional t Z.to_nat.
Proof.
  intros Hreg Hall. assert (Hq : forall p, p ∈ all_places t -> quiet_place p = true) by (intros p; by apply Forall_places).
  assert (Habs : forall p, p ∈ all_places t -> value_of (chars "#interrupt-cells") (pl_tree p) = None /\
    value_of (chars "sp-interrupts") (pl_tree p) = None /\ value_of (chars "interrupts") (pl_tree p) = None /\
    value_of (chars "interrupts-extended") (pl_tree p) = None).
  { intros p Hp. specialize (Hq p Hp). unfold quiet_place, absent in Hq. cbn [forallb] in Hq.
    rewrite !andb_true_iff, !bool_decide_eq_true in Hq. tauto. }
  assert (Hterm : forall p, p ∈ all_places t -> string_lists (pl_tree p) /\ class_lists (pl_tree p)).
  { intros p Hp. specialize (Hq p Hp). unfold quiet_place, terminated in Hq. rewrite !andb_true_iff in Hq.
    destruct Hq as [[[H1 H2] _] _]. split; intros v Hv; [rewrite Hv in H1; by apply bool_decide_eq_true in H1|rewrite Hv in H2; by apply bool_decide_eq_true in H2]. }
  split; [| |intros p c Hp| | |].
  - intros name Hn. destruct (Habs _ (root_in t)) as (_ & H1 & H2 & H3). cbn [pl_tree root_place] in *.
    unfold absent in Hreg. apply bool_decide_eq_true in Hreg.
    repeat (apply elem_of_cons in Hn as [->|Hn]; [done|]). by apply elem_of_nil in Hn.
  - exact Hterm.
  - unfold word_prop. by destruct (Habs p Hp) as (-> & _).
  - intros p q Hp Hk. specialize (Hq p Hp). unfold quiet_place in Hq. rewrite !andb_true_iff in Hq. destruct Hq as [_ Hf].
    eapply forallb_forall in Hf; [|by apply list_elem_of_In]. rewrite andb_true_iff in Hf. lia.
  - intros p ph c Hp [[v Hv]|[v Hv]]; destruct (Habs p Hp) as (_ & H1 & H2 & _); congruence.
  - intros p c Hp Hc. unfold ext_refs, words_prop in Hc. destruct (Habs p Hp) as (_ & _ & _ & H3). rewrite H3 in Hc.
    by apply elem_of_nil in Hc.
Qed.

Definition probe_cfg : Config := {| cfg_ndebug := true |}.
Definition probe_lay : Layout := {| main_mmu_l2_ttb_va := 0x4e000000 |}.
Definition probe_start : kernel bigram :=
  set_k_mmu (MmuData [TeeMmapRegion MEM_AREA_RAM_NSEC 0x1000 board_addr board_addr 0x100000 0] ∅ ∅ 0)
    (kernel_init (mk_bigram ∅)).
Definition system_drivers : list (dt_driver bigram) :=
  KeysProbe.dt_drivers (plat := bigram_platform) (cfg := probe_cfg) (lay := probe_lay)
    (drv := @drivers bigram _ probe_cfg 3) board_dtb.

(** The states of the example: no chip was registered. *)
Definition no_chips (s : kernel bigram) : Prop := chips (k_irq s) = [].
Lemma board_env : @probe_env bigram bigram_platform (drivers (cfg := probe_cfg) 3) board_addr board_tree system_drivers no_chips.
Proof.
  assert (Hcompat : forall d c pr, d ∈ system_drivers -> (c, pr) ∈ match_table d ->
    nz (chars c) /\ chars c <> [] /\ forall p, p ∈ all_places board_tree -> compatible_with (pl_tree p) c = false).
  { set (ok := fun c => forallb charb (chars c) && bool_decide (chars c <> []) &&
      forallb (fun p => negb (compatible_with (pl_tree p) c)) (all_places board_tree)).
    assert (Hall : forallb ok (concat (map (fun d => map fst (match_table d)) system_drivers)) = true) by (vm_compute; reflexivity).
    intros d c pr Hd Hc. assert (Hok : ok c = true).
    { eapply forallb_forall in Hall; [exact Hall|]. apply in_concat. exists (map fst (match_table d)).
      split; apply list_elem_of_In; [by apply (list_elem_of_fmap_2 (fun d => map fst (match_table d)))|].
      by apply (list_elem_of_fmap_2 fst _ (c, pr)). }
    unfold ok in Hok. rewrite !andb_true_iff, bool_decide_eq_true in Hok. destruct Hok as [[H1 H2] H3].
    split_and!; [by apply chars_nz|done|]. intros p Hp.
    eapply forallb_forall in H3; [|by apply list_elem_of_In]. by apply negb_true_iff in H3. }
  split.
  - done.
  - done.
  - intros s Hs. unfold no_chips in Hs. rewrite Hs. constructor.
  - intros s c spec Hs Hc. unfold no_chips in Hs. rewrite Hs in Hc. by apply elem_of_nil in Hc.
  - intros s d c pr dev par p irqs Hd Hc _ Ha Hcomp. destruct (Hcompat d c pr Hd Hc) as (_ & _ & Hno).
    rewrite (Hno p) in Hcomp; [done|by apply admitted_in].
  - intros d c pr Hd Hc. destruct (Hcompat d c pr Hd Hc) as (H1 & H2 & _). done.
Qed.

Definition probe_board : M (kernel bigram) Z :=
  dt_probe (plat := bigram_platform) (cfg := probe_cfg) (drv := drivers (cfg := probe_cfg) 3)
    board_dtb system_drivers 1000 board_addr.

Definition board_place (i : nat) : place := nth i (all_places board_tree) (root_place board_tree).
Lemma board_holds : holds_tree board_addr board_dtb board_tree.
Proof. apply dtb_holds; [by vm_compute|apply values_bytes; by vm_compute|done|by vm_compute|by vm_compute]. Qed.
Lemma board_in i : (i < 5)%nat -> board_place i ∈ all_places board_tree.
Proof. intros Hi. apply list_elem_of_In, nth_In. exact Hi. Qed.
Lemma board_kid i j k : kids_of (board_place i) !! k = Some (board_place j) -> board_place j ∈ kids_of (board_place i).
Proof. apply list_elem_of_lookup_2. Qed.

Lemma board_conventional : conventional board_tree Z.to_nat.
Proof. apply quiet_conventional; vm_compute; reflexivity. Qed.
Lemma board_rank p : p ∈ all_places board_tree -> (Z.to_nat (pl_off p) < 990)%nat.
Proof.
  intros Hp. apply Nat.ltb_lt. apply (Forall_places (fun p => Nat.ltb (Z.to_nat (pl_off p)) 990) board_tree p); [|exact Hp].
  vm_compute. reflexivity.
Qed.
Lemma board_wifi : admitted board_tree (board_place 2) /\ pl_off (board_place 2) = 104 /\
  classes_of (pl_tree (board_place 2)) = ["wifi"%string].
Proof.
  split; [|split; vm_compute; reflexivity].
  apply (admitted_kid _ (board_place 1)); [apply board_in; lia| |apply (board_kid 1 2 0); by vm_compute|by vm_compute].
  apply (admitted_kid _ (board_place 0)); [apply board_in; lia|apply admitted_root|apply (board_kid 0 1 0); by vm_compute|by vm_compute].
Qed.
Lemma board_camera : ~ admitted board_tree (board_place 3) /\ pl_off (board_place 3) = 220.
Proof.
  split; [|vm_compute; reflexivity]. intros Ha.
  destruct (admitted_inv board_tree board_addr board_dtb board_holds (board_place 1) (board_place 3)) as [_ Hu];
    [apply board_in; lia|apply (board_kid 1 3 1); by vm_compute|exact Ha|].
  assert (Hf : usable (pl_tree (board_place 3)) = false) by (vm_compute; reflexivity). congruence.
Qed.
Lemma board_probed : returns probe_board probe_start = true.
Proof. vm_compute. reflexivity. Qed.
Lemma board_room : off_struct board_dtb + size_struct board_dtb + 4 <= bytes_len board_dtb.
Proof. vm_compute. discriminate. Qed.
Lemma board_fuel : (990 + height board_tree <= 1000)%nat.
Proof. apply Nat.leb_le. vm_compute. reflexivity. Qed.
Lemma board_va :
  phys_to_virt (plat := bigram_platform) (cfg := probe_cfg) board_addr MEM_AREA_RAM_NSEC probe_start = Ret board_addr probe_start.
Proof. vm_compute. reflexivity. Qed.

