(* ===== verification/Divmod.v ===== *)
(** * Division in software (lib/libutils/isoc/arch/arm/arm32_aeabi_divmod.c and
    arm32_aeabi_ldivmod.c)

    The core has no divide instruction: the compiler turns divisions into calls
    of these routines.  The 32-bit and the 64-bit file have the same text for
    two types; the width [w] is an argument here.  The assembly stubs
    ([ret_idivmod_values], [__aeabi_ldivmod], ...) pass quotient and remainder
    in registers: the model returns the pair. *)

From stdpp Require Import prelude.
From Stdlib Require Import ZArith Lia.
From S2P Require Import Prelude.
#[local] Open Scope Z_scope.
#[local] Open Scope kernel_scope.

(** ** Words of [w] bits *)

Definition unsigned_of (w z : Z) : Z := z mod 2 ^ w.
Definition signed_of (w z : Z) : Z :=
  if unsigned_of w z <? 2 ^ (w - 1) then unsigned_of w z else unsigned_of w z - 2 ^ w.
(** [-x] on a signed type: the least number has no opposite. *)
Definition signed_neg {S} (w x : Z) : M S Z := if x =? - 2 ^ (w - 1) then fault else ret (- x).

Record qr := Qr { q : Z; r : Z; q_n : bool; r_n : bool }.
Definition qr_init : qr := Qr 0 0 false false.

Section divmod.
Context {S : Type} (w : Z).
Abbreviation Md := (M S).

(** Scale the denominator up; the word bounds the number of steps. *)
Fixpoint scale_loop (fuel : nat) (i p : Z) : Md (Z * Z) :=
  match fuel with
  | O => spin
  | Datatypes.S fuel =>
      if Z.shiftr p (w - 1) =? 0 then scale_loop fuel (unsigned_of w (Z.shiftl i 1)) (unsigned_of w (Z.shiftl p 1))
      else ret (i, p)
  end.
(** One bit of the quotient per step. *)
Fixpoint subtract_loop (fuel : nat) (i p n q : Z) : Md (Z * Z) :=
  match fuel with
  | O => spin
  | Datatypes.S fuel =>
      if 0 <? i then
        let q := unsigned_of w (Z.shiftl q 1) in
        let '(n, q) := if p <=? n then (unsigned_of w (n - p), unsigned_of w (q + 1)) else (n, q) in
        subtract_loop fuel (Z.shiftr i 1) (Z.shiftr p 1) n q
      else ret (n, q)
  end.
Definition division (n p : Z) (x : qr) : Md qr :=
  if p =? 0 then ret (Qr (q x) (2 ^ w - 1) (q_n x) (r_n x))
  else
    '(i, p) <- scale_loop (Z.to_nat w) 1 p;;
    '(n, q) <- subtract_loop (Datatypes.S (Z.to_nat w)) i p n 0;;
    ret (Qr q n (q_n x) (r_n x)).
Definition div_qr (numerator denominator : Z) (x : qr) : Md qr :=
  x <- division numerator denominator x;;
  ret (Qr (if q_n x then unsigned_of w (- q x) else q x) (if r_n x then unsigned_of w (- r x) else r x) (q_n x) (r_n x)).

Definition unsigned_divmod (numerator denominator : Z) : Md (Z * Z) :=
  x <- div_qr numerator denominator qr_init;; ret (q x, r x).
Definition signed_divmod (numerator denominator : Z) : Md (Z * Z) :=
  let q_n := (numerator <? 0) && (0 <? denominator) || (0 <? numerator) && (denominator <? 0) in
  let r_n := numerator <? 0 in
  numerator <- (if numerator <? 0 then signed_neg w numerator else ret numerator);;
  denominator <- (if denominator <? 0 then signed_neg w denominator else ret denominator);;
  x <- div_qr numerator denominator (Qr 0 0 q_n r_n);;
  ret (signed_of w (q x), signed_of w (r x)).
End divmod.

Section aeabi.
Context {S : Type}.
Abbreviation Md := (M S).

Definition division_qr : Z -> Z -> qr -> Md qr := division 32.
Definition uint_div_qr : Z -> Z -> qr -> Md qr := div_qr 32.
Definition __aeabi_uidivmod : Z -> Z -> Md (Z * Z) := unsigned_divmod 32.
Definition __aeabi_uidiv (numerator denominator : Z) : Md Z :=
  x <- uint_div_qr numerator denominator qr_init;; ret (q x).
Definition __aeabi_uimod (numerator denominator : Z) : Md Z :=
  x <- uint_div_qr numerator denominator qr_init;; ret (r x).
Definition __aeabi_idivmod : Z -> Z -> Md (Z * Z) := signed_divmod 32.
Definition __aeabi_idiv (numerator denominator : Z) : Md Z :=
  x <- signed_divmod 32 numerator denominator;; ret x.1.

(** The search for the bit of a power of two: its position and the number of
    bits seen. *)
Fixpoint imod_scan (fuel : nat) (i j h s : Z) : Md (Z * Z) :=
  match fuel with
  | O => spin
  | Datatypes.S fuel =>
      if negb (s =? 0) || (1 <? h) then
        '(j, h) <- (if truth (Z.land s 1) then h <- int_result (h + 1);; ret (i, h) else ret (j, h));;
        i <- int_result (i + 1);;
        imod_scan fuel i j h (Z.shiftr s 1)
      else ret (j, h)
  end.
Definition __aeabi_imod (numerator denominator : Z) : Md Z :=
  '(j, h) <- imod_scan 64 0 0 0 denominator;;
  if h =? 1 then ret (Z.shiftr numerator j)
  else x <- signed_divmod 32 numerator denominator;; ret x.2.

Definition division_lqr : Z -> Z -> qr -> Md qr := division 64.
Definition ul_div_qr : Z -> Z -> qr -> Md qr := div_qr 64.
Definition __ul_divmod : Z -> Z -> Md (Z * Z) := unsigned_divmod 64.
Definition __l_divmod : Z -> Z -> Md (Z * Z) := signed_divmod 64.
End aeabi.

Example divmod_7 : __aeabi_idivmod (- 7) 2 tt = Ret (- 3, - 1) tt. Proof. reflexivity. Qed.
Example divmod_big : __ul_divmod (2 ^ 64 - 1) 10 tt = Ret (1844674407370955161, 5) tt. Proof. reflexivity. Qed.

(** ** The loops *)

Section proofs.
Context {S : Type} (w : Z) (Hw : 0 < w).
Implicit Types s : S.

Lemma unsigned_of_small z : 0 <= z < 2 ^ w -> unsigned_of w z = z.
Proof. intros H. by apply Z.mod_small. Qed.
Lemma pow_half : 2 ^ w = 2 * 2 ^ (w - 1).
Proof. rewrite <- Z.pow_succ_r by lia. f_equal. lia. Qed.

Lemma scale_loop_run fuel d k s :
  0 < d -> d * 2 ^ Z.of_nat k < 2 ^ w -> 2 ^ w <= d * 2 ^ Z.of_nat k * 2 ^ Z.of_nat fuel ->
  exists k', scale_loop w fuel (2 ^ Z.of_nat k) (d * 2 ^ Z.of_nat k) s = Ret (2 ^ Z.of_nat k', d * 2 ^ Z.of_nat k') s /\
             2 ^ (w - 1) <= d * 2 ^ Z.of_nat k' < 2 ^ w.
Proof.
  intros Hd. revert k. induction fuel as [|fuel IH]; intros k Hlt Hfuel; [change (2 ^ Z.of_nat 0) with 1 in Hfuel; lia|].
  cbn [scale_loop]. rewrite Z.shiftr_div_pow2 by lia. pose proof pow_half as Hh.
  assert (0 < 2 ^ Z.of_nat k) by (apply Z.pow_pos_nonneg; lia).
  destruct (Z.eqb_spec ((d * 2 ^ Z.of_nat k) / 2 ^ (w - 1)) 0) as [Hz|Hz].
  - apply Z.div_small_iff in Hz; [|apply Z.pow_nonzero; lia].
    assert (E : 2 ^ Z.of_nat (Datatypes.S k) = 2 * 2 ^ Z.of_nat k) by (rewrite Nat2Z.inj_succ, Z.pow_succ_r; lia).
    destruct (IH (Datatypes.S k)) as (k' & Hk' & Hb).
    + rewrite E. nia.
    + rewrite Nat2Z.inj_succ, Z.pow_succ_r in Hfuel by lia. rewrite E. nia.
    + exists k'. split; [|done]. rewrite <- Hk'. f_equal; rewrite Z.shiftl_mul_pow2, E by lia; rewrite unsigned_of_small; nia.
  - exists k. split; [done|]. split; [|done]. apply Z.nlt_ge. intros Hl. apply Hz, Z.div_small. split; [nia|done].
Qed.

Lemma subtract_step fuel d P n c s :
  0 < d -> 0 < P -> 0 <= n < d * (2 * P) -> n < 2 ^ w -> 0 <= c -> c * (2 * P) + n / d < 2 ^ w ->
  exists b, subtract_loop w (Datatypes.S fuel) P (d * P) n c s =
              subtract_loop w fuel (Z.shiftr P 1) (Z.shiftr (d * P) 1) (n - b * P * d) (2 * c + b) s /\
            0 <= b /\ 0 <= n - b * P * d < d * P.
Proof.
  intros Hd HP Hn Hnw Hc Hres. cbn [subtract_loop]. rewrite (proj2 (Z.ltb_lt 0 P)) by done.
  assert (0 <= n / d) by (apply Z.div_pos; lia).
  rewrite Z.shiftl_mul_pow2 by lia. change (2 ^ 1) with 2. rewrite (unsigned_of_small (c * 2)) by nia.
  destruct (Z.leb_spec (d * P) n) as [Hle|Hgt].
  - exists 1. assert (P <= n / d) by (apply Z.div_le_lower_bound; lia).
    rewrite !unsigned_of_small by nia. split; [f_equal; lia|lia].
  - exists 0. split; [f_equal; lia|lia].
Qed.
Lemma sub_multiple n e d : 0 < d -> (n - e * d) mod d = n mod d /\ (n - e * d) / d = n / d - e.
Proof.
  intros Hd. replace (n - e * d) with (n + - e * d) by lia. split; [apply Z_mod_plus_full|].
  rewrite Z.div_add by lia. lia.
Qed.

Lemma subtract_loop_run d k fuel n c s :
  0 < d -> (k + 1 < fuel)%nat -> 0 <= n < d * 2 ^ Z.of_nat (Datatypes.S k) -> n < 2 ^ w -> 0 <= c ->
  c * 2 ^ Z.of_nat (Datatypes.S k) + n / d < 2 ^ w ->
  subtract_loop w fuel (2 ^ Z.of_nat k) (d * 2 ^ Z.of_nat k) n c s =
  Ret (n mod d, c * 2 ^ Z.of_nat (Datatypes.S k) + n / d) s.
Proof.
  intros Hd. revert fuel n c. induction k as [|k IH]; intros [|fuel] n c Hf Hn Hnw Hc Hres; try lia.
  - change (2 ^ Z.of_nat 1) with (2 * 1) in *. change (2 ^ Z.of_nat 0) with 1.
    destruct (subtract_step fuel d 1 n c s Hd) as (b & -> & Hb & Hn'); [lia..|]. rewrite Z.mul_1_r in *.
    destruct fuel; [lia|]. destruct (sub_multiple n b d Hd) as [Em Ed]. rewrite Z.mod_small in Em by lia.
    rewrite Z.div_small in Ed by lia. change (Z.shiftr 1 1) with 0. cbn [subtract_loop Z.ltb Z.compare]. unfold ret.
    do 2 f_equal; lia.
  - rewrite (Nat2Z.inj_succ (Datatypes.S k)), Z.pow_succ_r in * by lia. set (P := 2 ^ Z.of_nat (Datatypes.S k)) in *.
    assert (HP : P = 2 * 2 ^ Z.of_nat k) by (unfold P; rewrite Nat2Z.inj_succ, Z.pow_succ_r; lia).
    assert (0 < 2 ^ Z.of_nat k) by (apply Z.pow_pos_nonneg; lia).
    destruct (subtract_step fuel d P n c s Hd) as (b & -> & Hb & Hn'); [lia..|].
    destruct (sub_multiple n (b * P) d Hd) as [Em Ed].
    rewrite !Z.shiftr_div_pow2 by lia. change (2 ^ 1) with 2.
    replace (P / 2) with (2 ^ Z.of_nat k) by (rewrite HP, Z.mul_comm, Z.div_mul; lia).
    replace (d * P / 2) with (d * 2 ^ Z.of_nat k) by (rewrite HP, (Z.mul_comm 2), Z.mul_assoc, Z.div_mul; lia).
    rewrite IH; fold P; rewrite ?Em, ?Ed; try lia; [|nia..]. do 2 f_equal. lia.
Qed.

(** Division is division, and by zero it gives all ones. *)
Lemma division_run n d x s :
  0 <= n < 2 ^ w -> 0 < d < 2 ^ w -> division w n d x s = Ret (Qr (n / d) (n mod d) (q_n x) (r_n x)) s.
Proof.
  intros Hn Hd. unfold division. rewrite (proj2 (Z.eqb_neq d 0)) by lia.
  destruct (scale_loop_run (Z.to_nat w) d 0 s) as (k & Hk & Hb); [lia|change (2 ^ Z.of_nat 0) with 1; lia| |].
  { change (2 ^ Z.of_nat 0) with 1. rewrite Z2Nat.id by lia. nia. }
  change (2 ^ Z.of_nat 0) with 1 in Hk. rewrite Z.mul_1_r in Hk.
  pose proof pow_half as Hh. assert (0 < 2 ^ Z.of_nat k) by (apply Z.pow_pos_nonneg; lia).
  assert (Hkw : (k < Z.to_nat w)%nat).
  { assert (Z.of_nat k < w); [|lia]. apply (Z.pow_lt_mono_r_iff 2); [lia..|]. nia. }
  assert (E : 2 ^ Z.of_nat (Datatypes.S k) = 2 * 2 ^ Z.of_nat k) by (rewrite Nat2Z.inj_succ, Z.pow_succ_r; lia).
  assert (n / d <= n) by (apply Z.div_le_upper_bound; nia).
  rewrite (bind_run _ _ _ _ _ Hk). erewrite bind_run; [|apply subtract_loop_run; rewrite ?E; lia || nia].
  unfold ret. by rewrite Z.mul_0_l.
Qed.
End proofs.

(** ** The routines *)

Section signed.
Context {S : Type} (w : Z) (Hw : 0 < w).
Implicit Types s : S.

Lemma signed_of_small z : - 2 ^ (w - 1) <= z < 2 ^ (w - 1) -> signed_of w (unsigned_of w z) = z.
Proof.
  intros H. pose proof (pow_half w Hw) as Hh. unfold signed_of, unsigned_of. rewrite Zmod_mod.
  destruct (Z_lt_le_dec z 0).
  - replace (z mod 2 ^ w) with (z + 2 ^ w) by (apply Z.mod_unique with (-1); lia).
    rewrite (proj2 (Z.ltb_ge _ _)); lia.
  - rewrite Z.mod_small, (proj2 (Z.ltb_lt _ _)); lia.
Qed.

Lemma div_qr_run n d x s : 0 <= n < 2 ^ w -> 0 < d < 2 ^ w ->
  div_qr w n d x s = Ret (Qr (if q_n x then unsigned_of w (- (n / d)) else n / d)
                            (if r_n x then unsigned_of w (- (n mod d)) else n mod d) (q_n x) (r_n x)) s.
Proof. intros Hn Hd. unfold div_qr. by rewrite (bind_run _ _ _ _ _ (division_run w Hw n d x s Hn Hd)). Qed.
Lemma div_qr_zero n x s :
  div_qr w n 0 x s = Ret (Qr (if q_n x then unsigned_of w (- q x) else q x)
                            (if r_n x then unsigned_of w (- (2 ^ w - 1)) else 2 ^ w - 1) (q_n x) (r_n x)) s.
Proof. done. Qed.

Lemma unsigned_divmod_run n d s : 0 <= n < 2 ^ w -> 0 < d < 2 ^ w -> unsigned_divmod w n d s = Ret (n / d, n mod d) s.
Proof. intros Hn Hd. unfold unsigned_divmod. by rewrite (bind_run _ _ _ _ _ (div_qr_run n d qr_init s Hn Hd)). Qed.
Lemma signed_neg_run n s : - 2 ^ (w - 1) < n < 2 ^ (w - 1) ->
  (if n <? 0 then signed_neg w n else ret n) s = Ret (Z.abs n) s.
Proof.
  intros H. destruct (Z.ltb_spec n 0).
  - unfold signed_neg. rewrite (proj2 (Z.eqb_neq _ _)) by lia. unfold ret. f_equal. lia.
  - unfold ret. f_equal. lia.
Qed.
(** The sign that was taken off is put back. *)
Lemma signed_back (b : bool) z : 0 <= z < 2 ^ (w - 1) ->
  signed_of w (if b then unsigned_of w (- z) else z) = if b then - z else z.
Proof.
  intros Hz. pose proof (pow_half w Hw) as Hh. destruct b; [apply signed_of_small; lia|].
  rewrite <- (unsigned_of_small w z) at 1 by lia. apply signed_of_small. lia.
Qed.
Lemma signed_divmod_run n d s :
  - 2 ^ (w - 1) < n < 2 ^ (w - 1) -> - 2 ^ (w - 1) < d < 2 ^ (w - 1) -> d <> 0 ->
  signed_divmod w n d s = Ret (Z.quot n d, Z.rem n d) s.
Proof.
  intros Hn Hd Hd0. unfold signed_divmod. pose proof (pow_half w Hw) as Hh.
  rewrite (bind_run _ _ _ _ _ (signed_neg_run n s Hn)), (bind_run _ _ _ _ _ (signed_neg_run d s Hd)).
  erewrite bind_run; [|apply div_qr_run; lia]. cbn [q r q_n r_n]. unfold ret. rewrite Z.quot_div, Z.rem_mod by done.
  assert (0 <= Z.abs n / Z.abs d <= Z.abs n) by (split; [apply Z.div_pos; lia|apply Z.div_le_upper_bound; nia]).
  assert (0 <= Z.abs n mod Z.abs d <= Z.abs n) by (split; [apply Z.mod_pos_bound; lia|apply Z.mod_le; lia]).
  rewrite !signed_back by lia. do 2 f_equal.
  - destruct (Z.ltb_spec n 0), (Z.ltb_spec 0 d), (Z.ltb_spec 0 n), (Z.ltb_spec d 0); cbn [andb orb]; try lia;
      rewrite ?(Z.sgn_pos n), ?(Z.sgn_neg n), ?(Z.sgn_pos d), ?(Z.sgn_neg d) by lia; try lia.
    all: replace n with 0 by lia; cbn; lia.
  - destruct (Z.ltb_spec n 0).
    + rewrite Z.sgn_neg by lia. lia.
    + destruct (Z.eq_dec n 0) as [->|]; [by rewrite Z.mod_0_l by lia|]. rewrite Z.sgn_pos by lia. lia.
Qed.
Lemma signed_divmod_least d s : signed_divmod w (- 2 ^ (w - 1)) d s = Fault.
Proof.
  unfold signed_divmod. assert (0 < 2 ^ (w - 1)) by (apply Z.pow_pos_nonneg; lia).
  unfold bind at 1. rewrite !(proj2 (Z.ltb_lt (- 2 ^ (w - 1)) 0)) by lia. unfold signed_neg. by rewrite Z.eqb_refl.
Qed.
End signed.

Section results.
Context {S : Type}.
Implicit Types s : S.

Definition is_int (w z : Z) : Prop := - 2 ^ (w - 1) < z < 2 ^ (w - 1).

(** C29: the division routines the compiler calls compute the quotient and the
    remainder of C (rounded towards zero), in 32 and in 64 bits, for every
    divisor but 0 and every signed number but the least one; a division by zero
    returns with the quotient 0. *)
Theorem aeabi_divmod_correct s :
  (forall n d, 0 <= n < 2 ^ 32 -> 0 < d < 2 ^ 32 ->
     __aeabi_uidivmod n d s = Ret (n / d, n mod d) s /\
     __aeabi_uidiv n d s = Ret (n / d) s /\ __aeabi_uimod n d s = Ret (n mod d) s) /\
  (forall n d, is_int 32 n -> is_int 32 d -> d <> 0 ->
     __aeabi_idivmod n d s = Ret (Z.quot n d, Z.rem n d) s /\ __aeabi_idiv n d s = Ret (Z.quot n d) s) /\
  (forall n d, 0 <= n < 2 ^ 64 -> 0 < d < 2 ^ 64 -> __ul_divmod n d s = Ret (n / d, n mod d) s) /\
  (forall n d, is_int 64 n -> is_int 64 d -> d <> 0 -> __l_divmod n d s = Ret (Z.quot n d, Z.rem n d) s) /\
  (forall n, __aeabi_uidivmod n 0 s = Ret (0, 2 ^ 32 - 1) s /\ __ul_divmod n 0 s = Ret (0, 2 ^ 64 - 1) s).
Proof.
  split_and!.
  - intros n d Hn Hd. split; [by apply unsigned_divmod_run|].
    unfold __aeabi_uidiv, __aeabi_uimod, uint_div_qr.
    by rewrite !(bind_run _ _ _ _ _ (div_qr_run 32 ltac:(done) n d qr_init s Hn Hd)).
  - intros n d Hn Hd H0. pose proof (signed_divmod_run 32 ltac:(done) n d s Hn Hd H0) as E. split; [exact E|].
    unfold __aeabi_idiv. by rewrite (bind_run _ _ _ _ _ E).
  - intros n d Hn Hd. by apply unsigned_divmod_run.
  - intros n d Hn Hd H0. by apply signed_divmod_run.
  - done.
Qed.

(** ** The remainder of __aeabi_imod *)

Lemma imod_scan_power fuel i j k s : (k + 1 < fuel)%nat -> 0 <= i -> i + Z.of_nat k < 2 ^ 31 - 1 ->
  imod_scan fuel i j 0 (2 ^ Z.of_nat k) s = Ret (i + Z.of_nat k, 1) s.
Proof.
  revert fuel i j. induction k as [|k IH]; intros [|fuel] i j Hf Hi Hk; try lia; cbn [imod_scan].
  - change (2 ^ Z.of_nat 0) with 1. cbn [Z.eqb negb orb Z.land Pos.land truth Z.add].
    rewrite (bind_run _ _ _ (i, 1) s) by done. rewrite (bind_run _ _ _ _ _ (int_result_run (i + 1) s ltac:(lia))). destruct fuel; [lia|].
    change (Z.shiftr 1 1) with 0. cbn. unfold ret. f_equal. f_equal. lia.
  - assert (0 < 2 ^ Z.of_nat k) by (apply Z.pow_pos_nonneg; lia).
    assert (E : 2 ^ Z.of_nat (Datatypes.S k) = 2 * 2 ^ Z.of_nat k) by (rewrite Nat2Z.inj_succ, Z.pow_succ_r; lia).
    rewrite (proj2 (Z.eqb_neq _ 0)) by lia. cbn [negb orb].
    replace (truth _) with false.
    2: { rewrite E. unfold truth. change 1 with (Z.ones 1). rewrite Z.land_ones by lia. change (2 ^ 1) with 2.
         by rewrite Z.mul_comm, Z.mod_mul by lia. }
    rewrite (bind_run _ _ _ (j, 0) s) by done. rewrite (bind_run _ _ _ _ _ (int_result_run (i + 1) s ltac:(lia))).
    rewrite Z.shiftr_div_pow2 by lia. change (2 ^ 1) with 2. replace (2 ^ Z.of_nat (Datatypes.S k) / 2) with (2 ^ Z.of_nat k).
    + rewrite IH by lia. f_equal. f_equal. lia.
    + rewrite E, Z.mul_comm, Z.div_mul; lia.
Qed.

(** The loop goes on after the last bit: it runs while more than one was seen. *)
Lemma imod_scan_stuck fuel i j h z s :
  0 <= h -> (1 < h \/ h = 1 /\ 0 < z \/ 0 < z /\ (forall k, 0 <= k -> z <> 2 ^ k) \/ z < 0) ->
  forall x s', imod_scan fuel i j h z s <> Ret x s'.
Proof.
  revert i j h z. induction fuel as [|fuel IH]; intros i j h z Hh H x s'; cbn [imod_scan]; [done|].
  replace (negb (z =? 0) || (1 <? h)) with true.
  2: { symmetry. destruct H as [H|H]; [rewrite (proj2 (Z.ltb_lt _ _)) by lia; apply orb_true_r|].
       rewrite (proj2 (Z.eqb_neq _ _)); [done|]. lia. }
  assert (Hodd : Z.land z 1 = z mod 2) by (change 1 with (Z.ones 1); by rewrite Z.land_ones).
  assert (Hs : Z.shiftr z 1 = z / 2) by (by rewrite Z.shiftr_div_pow2).
  rewrite Hodd, Hs. unfold truth. destruct (Z.eqb_spec (z mod 2) 0) as [Ez|Ez]; cbn [negb].
  - rewrite (bind_run _ _ _ (j, h) s) by done. unfold bind, int_result.
    destruct ((- 2 ^ 31 <=? i + 1) && (i + 1 <? 2 ^ 31)); [|done]. unfold ret. apply IH; [done|].
    destruct H as [H|[H|[[H Hk]|H]]]; [by left|right; left; Z.div_mod_to_equations; lia| |do 3 right; Z.div_mod_to_equations; lia].
    do 2 right. left. split; [Z.div_mod_to_equations; lia|]. intros k Hk0 E. apply (Hk (k + 1)); [lia|].
    rewrite Z.pow_add_r by lia. change (2 ^ 1) with 2. rewrite <- E. Z.div_mod_to_equations; lia.
  - unfold bind, int_result, ret.
    destruct ((- 2 ^ 31 <=? h + 1) && (h + 1 <? 2 ^ 31)); [|done].
    destruct ((- 2 ^ 31 <=? i + 1) && (i + 1 <? 2 ^ 31)); [|done]. apply IH; [lia|].
    destruct H as [H|[H|[[H Hk]|H]]]; [left; lia|left; lia| |do 3 right; Z.div_mod_to_equations; lia].
    destruct (Z.eq_dec z 1) as [->|]; [by destruct (Hk 0)|]. destruct (Z.eq_dec h 0) as [->|].
    + right; left. split; [done|]. Z.div_mod_to_equations; lia.
    + left. lia.
Qed.

(** C39: [__aeabi_imod] gives no remainder for any divisor but 0: for a power of
    two it shifts where it should mask, which is the quotient, and for any other
    it never leaves the loop that looks for the one bit. *)
Theorem aeabi_imod_broken s :
  (forall n k, (k <= 30)%nat -> __aeabi_imod n (2 ^ Z.of_nat k) s = Ret (n / 2 ^ Z.of_nat k) s) /\
  (forall d, d < 0 \/ 0 < d /\ (forall k, 0 <= k -> d <> 2 ^ k) ->
     forall fuel x s', imod_scan fuel 0 0 0 d s <> Ret x s') /\
  (forall n d, d < 0 \/ 0 < d /\ (forall k, 0 <= k -> d <> 2 ^ k) -> forall x s', __aeabi_imod n d s <> Ret x s').
Proof.
  assert (Hstuck : forall d, d < 0 \/ 0 < d /\ (forall k, 0 <= k -> d <> 2 ^ k) ->
     forall fuel x s', imod_scan fuel 0 0 0 d s <> Ret x s').
  { intros d H fuel. apply imod_scan_stuck; [done|]. tauto. }
  split_and!; [|exact Hstuck|].
  - intros n k Hk. unfold __aeabi_imod. rewrite (bind_run _ _ _ _ _ (imod_scan_power 64 0 0 k s ltac:(lia) ltac:(lia) ltac:(lia))).
    cbn [Z.eqb Pos.eqb]. rewrite Z.shiftr_div_pow2 by lia. done.
  - intros n d H x s'. unfold __aeabi_imod, bind. specialize (Hstuck d H 64%nat).
    destruct (imod_scan 64 0 0 0 d s) as [y s''| | |] eqn:E; try done. by destruct (Hstuck y s'').
Qed.
End results.
