(* ===== verification/Newlib.v ===== *)
(** * The string functions of the C library (lib/libutils/isoc/newlib, lib/libutils/ext)

    Each function of newlib has two bodies.  With [PREFER_SIZE_OVER_SPEED] or
    [__OPTIMIZE_SIZE__] (the release build, -Os) it goes byte by byte, otherwise
    (the debug build, -O0) it aligns its pointers and goes on word by word.
    [small_code] chooses.  The functions run on a memory of bytes; a word is read
    with its four bytes, the least significant first. *)

From stdpp Require Import prelude gmap list.
From Stdlib Require Import ZArith Lia.
From S2P Require Import Prelude.
#[local] Open Scope Z_scope.
#[local] Open Scope kernel_scope.

Abbreviation bmem := (gmap Z Z).
Class StrBuild := { small_code : bool }.

(** ** Memory *)

(** [*p] for a pointer to [unsigned char]; stores keep the low byte. *)
Definition ld (p : Z) : M bmem Z := fun m => match m !! p with Some b => Ret b m | None => Fault end.
Definition st (p b : Z) : M bmem unit := fun m =>
  match m !! p with Some _ => Ret tt (<[p := u8 b]> m) | None => Fault end.
(** [*p] for a pointer to [unsigned long]. *)
Definition ldw (p : Z) : M bmem Z :=
  b0 <- ld p;; b1 <- ld (p + 1);; b2 <- ld (p + 2);; b3 <- ld (p + 3);;
  ret (b0 + 256 * b1 + 65536 * b2 + 16777216 * b3).
Definition byte_of (w i : Z) : Z := Z.land (Z.shiftr w (8 * i)) 255.
Definition stw (p w : Z) : M bmem unit :=
  st p (byte_of w 0);;; st (p + 1) (byte_of w 1);;; st (p + 2) (byte_of w 2);;; st (p + 3) (byte_of w 3).

Definition LBLOCKSIZE : Z := 4.
Definition BIGBLOCKSIZE : Z := Z.shiftl LBLOCKSIZE 2.
Definition UNALIGNED (x : Z) : bool := truth (Z.land x (LBLOCKSIZE - 1)).
Definition UNALIGNED2 (x y : Z) : bool := truth (Z.lor (Z.land x (LBLOCKSIZE - 1)) (Z.land y (LBLOCKSIZE - 1))).
Definition DETECTNULL (x : Z) : bool := truth (Z.land (Z.land (u32 (x - 0x01010101)) (not32 x)) 0x80808080).
Definition DETECTCHAR (x mask : Z) : bool := DETECTNULL (Z.lxor x mask).

Section newlib.
Context {build : StrBuild}.

(** A loop that looks at words, or at bytes, runs over different addresses, so
    that the size of the memory bounds it. *)
Definition fuel : M bmem nat := gets (fun m => S (base.size m)).

(** ** strlen and strchr *)

(** [while (UNALIGNED(s)) { <return at *s>; s++; }] *)
Fixpoint align_loop (n : nat) (stop : Z -> Z -> option Z) (s : Z) : M bmem (Z + Z) :=
  match n with
  | O => spin
  | S n =>
      if UNALIGNED s then
        b <- ld s;;
        match stop b s with Some x => ret (inl x) | None => align_loop n stop (s + 1) end
      else ret (inr s)
  end.
(** [while (!found( *aligned_addr)) aligned_addr++;] *)
Fixpoint word_loop (n : nat) (found : Z -> bool) (a : Z) : M bmem Z :=
  match n with
  | O => spin
  | S n => w <- ldw a;; if found w then ret a else word_loop n found (a + LBLOCKSIZE)
  end.
(** [while (!found( *s)) s++;] *)
Fixpoint byte_loop (n : nat) (found : Z -> bool) (s : Z) : M bmem Z :=
  match n with
  | O => spin
  | S n => b <- ld s;; if found b then ret s else byte_loop n found (s + 1)
  end.

Definition strlen (str : Z) : M bmem Z :=
  let start := str in
  f <- fuel;;
  let bytes str := str <- byte_loop f (Z.eqb 0) str;; ret (str - start) in
  if small_code then bytes str
  else
    x <- align_loop 4 (fun b str => if b =? 0 then Some (str - start) else None) str;;
    match x with
    | inl n => ret n
    | inr str => str <- word_loop f DETECTNULL str;; bytes str
    end.

(** [mask = c; for (j = 8; j < LBLOCKSIZE * 8; j <<= 1) mask = (mask << j) | mask;] *)
Definition char_mask (c : Z) : Z :=
  let mask := Z.lor (shl32 c 8) c in Z.lor (shl32 mask 16) mask.

Definition strchr (s1 i : Z) : M bmem Z :=
  let c := u8 i in
  f <- fuel;;
  let bytes s :=
    s <- byte_loop f (fun b => (b =? 0) || (b =? c)) s;; b <- ld s;; ret (if b =? c then s else 0) in
  if small_code then bytes s1
  else if c =? 0 then
    x <- align_loop 4 (fun b s => if b =? 0 then Some s else None) s1;;
    match x with
    | inl s => ret s
    | inr s => s <- word_loop f DETECTNULL s;; byte_loop f (Z.eqb 0) s
    end
  else
    x <- align_loop 4 (fun b s => if b =? 0 then Some 0 else if b =? c then Some s else None) s1;;
    match x with
    | inl s => ret s
    | inr s => s <- word_loop f (fun w => DETECTNULL w || DETECTCHAR w (char_mask c)) s;; bytes s
    end.

(** ** memchr and strnlen *)

(** [while (length--) { if ( *src == d) return src; src++; }] *)
Fixpoint memchr_bytes (length : nat) (d src : Z) : M bmem Z :=
  match length with
  | O => ret 0
  | S length => b <- ld src;; if b =? d then ret src else memchr_bytes length d (src + 1)
  end.
Fixpoint memchr_align (n : nat) (d src length : Z) : M bmem (Z + Z * Z) :=
  match n with
  | O => spin
  | S n =>
      if UNALIGNED src then
        if length =? 0 then ret (inl 0)
        else b <- ld src;; if b =? d then ret (inl src) else memchr_align n d (src + 1) (length - 1)
      else ret (inr (src, length))
  end.
Fixpoint memchr_words (n : nat) (mask asrc length : Z) : M bmem (Z * Z) :=
  match n with
  | O => spin
  | S n =>
      if LBLOCKSIZE <=? length then
        w <- ldw asrc;;
        if DETECTCHAR w mask then ret (asrc, length) else memchr_words n mask (asrc + LBLOCKSIZE) (length - LBLOCKSIZE)
      else ret (asrc, length)
  end.
Definition memchr (src_void c length : Z) : M bmem Z :=
  let d := u8 c in
  if small_code then memchr_bytes (Z.to_nat length) d src_void
  else
    x <- memchr_align 4 d src_void length;;
    match x with
    | inl p => ret p
    | inr (src, length) =>
        '(src, length) <- (if length <? LBLOCKSIZE then ret (src, length)
                           else memchr_words (S (Z.to_nat length)) (char_mask d) src length);;
        memchr_bytes (Z.to_nat length) d src
    end.

Fixpoint strnlen_loop (n : nat) (str : Z) : M bmem Z :=
  match n with
  | O => ret str
  | S n => b <- ld str;; if b =? 0 then ret str else strnlen_loop n (str + 1)
  end.
Definition strnlen (str n : Z) : M bmem Z := p <- strnlen_loop (Z.to_nat n) str;; ret (p - str).

(** ** strcmp, strncmp, memcmp *)

(** [while ( *s1 != 0 && *s1 == *s2) { s1++; s2++; } return *s1 - *s2;] *)
Fixpoint strcmp_bytes (n : nat) (s1 s2 : Z) : M bmem Z :=
  match n with
  | O => spin
  | S n =>
      b1 <- ld s1;; b2 <- ld s2;;
      if negb (b1 =? 0) && (b1 =? b2) then strcmp_bytes n (s1 + 1) (s2 + 1) else ret (b1 - b2)
  end.
Fixpoint strcmp_words (n : nat) (a1 a2 : Z) : M bmem (option (Z * Z)) :=
  match n with
  | O => spin
  | S n =>
      w1 <- ldw a1;; w2 <- ldw a2;;
      if w1 =? w2 then
        if DETECTNULL w1 then ret None else strcmp_words n (a1 + LBLOCKSIZE) (a2 + LBLOCKSIZE)
      else ret (Some (a1, a2))
  end.
Definition strcmp (s1 s2 : Z) : M bmem Z :=
  f <- fuel;;
  if small_code then strcmp_bytes f s1 s2
  else if UNALIGNED2 s1 s2 then strcmp_bytes f s1 s2
  else
    x <- strcmp_words f s1 s2;;
    match x with None => ret 0 | Some (s1, s2) => strcmp_bytes f s1 s2 end.

(** [while (n-- != 0 && *s1 == *s2) { if (n == 0 || *s1 == 0) break; s1++; s2++; }
    return *s1 - *s2;] for a positive [n]. *)
Fixpoint strncmp_small (n : nat) (s1 s2 : Z) : M bmem Z :=
  match n with
  | O => b1 <- ld s1;; b2 <- ld s2;; ret (b1 - b2)
  | S n =>
      b1 <- ld s1;; b2 <- ld s2;;
      if b1 =? b2 then
        if (Nat.eqb n 0) || (b1 =? 0) then b1 <- ld s1;; b2 <- ld s2;; ret (b1 - b2)
        else strncmp_small n (s1 + 1) (s2 + 1)
      else b1 <- ld s1;; b2 <- ld s2;; ret (b1 - b2)
  end.
(** The same loop of the fast body, which returns 0 where the other breaks. *)
Fixpoint strncmp_bytes (n : nat) (s1 s2 : Z) : M bmem Z :=
  match n with
  | O => b1 <- ld s1;; b2 <- ld s2;; ret (b1 - b2)
  | S n =>
      b1 <- ld s1;; b2 <- ld s2;;
      if b1 =? b2 then
        if (Nat.eqb n 0) || (b1 =? 0) then ret 0 else strncmp_bytes n (s1 + 1) (s2 + 1)
      else b1 <- ld s1;; b2 <- ld s2;; ret (b1 - b2)
  end.
Fixpoint strncmp_words (k : nat) (a1 a2 n : Z) : M bmem (option (Z * Z * Z)) :=
  match k with
  | O => spin
  | S k =>
      if LBLOCKSIZE <=? n then
        w1 <- ldw a1;; w2 <- ldw a2;;
        if w1 =? w2 then
          let n := n - LBLOCKSIZE in
          if (n =? 0) || DETECTNULL w1 then ret None else strncmp_words k (a1 + LBLOCKSIZE) (a2 + LBLOCKSIZE) n
        else ret (Some (a1, a2, n))
      else ret (Some (a1, a2, n))
  end.
Definition strncmp (s1 s2 n : Z) : M bmem Z :=
  if n =? 0 then ret 0
  else if small_code then strncmp_small (Z.to_nat n) s1 s2
  else if UNALIGNED2 s1 s2 then strncmp_bytes (Z.to_nat n) s1 s2
  else
    x <- strncmp_words (S (Z.to_nat n)) s1 s2 n;;
    match x with None => ret 0 | Some (s1, s2, n) => strncmp_bytes (Z.to_nat n) s1 s2 end.

Fixpoint memcmp_bytes (n : nat) (s1 s2 : Z) : M bmem Z :=
  match n with
  | O => ret 0
  | S n =>
      b1 <- ld s1;; b2 <- ld s2;;
      if negb (b1 =? b2) then ret (b1 - b2) else memcmp_bytes n (s1 + 1) (s2 + 1)
  end.
Fixpoint memcmp_words (k : nat) (a1 a2 n : Z) : M bmem (Z * Z * Z) :=
  match k with
  | O => spin
  | S k =>
      if LBLOCKSIZE <=? n then
        w1 <- ldw a1;; w2 <- ldw a2;;
        if negb (w1 =? w2) then ret (a1, a2, n) else memcmp_words k (a1 + LBLOCKSIZE) (a2 + LBLOCKSIZE) (n - LBLOCKSIZE)
      else ret (a1, a2, n)
  end.
Definition memcmp (m1 m2 n : Z) : M bmem Z :=
  if small_code then memcmp_bytes (Z.to_nat n) m1 m2
  else
    '(s1, s2, n) <- (if negb (n <? LBLOCKSIZE) && negb (UNALIGNED2 m1 m2)
                     then memcmp_words (S (Z.to_nat n)) m1 m2 n else ret (m1, m2, n));;
    memcmp_bytes (Z.to_nat n) s1 s2.

(** ** memcpy, memmove, memset *)

(** [while (n--) *dst++ = *src++;] *)
Fixpoint copy_up (n : nat) (dst src : Z) : M bmem unit :=
  match n with
  | O => ret tt
  | S n => b <- ld src;; st dst b;;; copy_up n (dst + 1) (src + 1)
  end.
(** [while (n--) *--dst = *--src;] *)
Fixpoint copy_down (n : nat) (dst src : Z) : M bmem unit :=
  match n with
  | O => ret tt
  | S n => b <- ld (src - 1);; st (dst - 1) b;;; copy_down n (dst - 1) (src - 1)
  end.
Definition copy_word (dst src : Z) : M bmem unit := w <- ldw src;; stw dst w.
Fixpoint copy_words (k : nat) (dst src len : Z) : M bmem (Z * Z * Z) :=
  match k with
  | O => spin
  | S k =>
      if LBLOCKSIZE <=? len then
        copy_word dst src;;; copy_words k (dst + LBLOCKSIZE) (src + LBLOCKSIZE) (len - LBLOCKSIZE)
      else ret (dst, src, len)
  end.
(** Four words per turn, then one. *)
Fixpoint copy_blocks (k : nat) (dst src len : Z) : M bmem (Z * Z * Z) :=
  match k with
  | O => spin
  | S k =>
      if BIGBLOCKSIZE <=? len then
        copy_word dst src;;; copy_word (dst + 4) (src + 4);;;
        copy_word (dst + 8) (src + 8);;; copy_word (dst + 12) (src + 12);;;
        copy_blocks k (dst + BIGBLOCKSIZE) (src + BIGBLOCKSIZE) (len - BIGBLOCKSIZE)
      else copy_words (S (Z.to_nat len)) dst src len
  end.
Definition copy_fast (dst src len : Z) : M bmem unit :=
  '(dst, src, len) <- (if negb (len <? BIGBLOCKSIZE) && negb (UNALIGNED2 src dst)
                       then copy_blocks (S (Z.to_nat len)) dst src len else ret (dst, src, len));;
  copy_up (Z.to_nat len) dst src.
Definition memcpy (dst0 src0 len0 : Z) : M bmem Z :=
  (if small_code then copy_up (Z.to_nat len0) dst0 src0 else copy_fast dst0 src0 len0);;; ret dst0.
Definition memmove (dst_void src_void length : Z) : M bmem Z :=
  (if (src_void <? dst_void) && (dst_void <? src_void + length)
   then copy_down (Z.to_nat length) (dst_void + length) (src_void + length)
   else if small_code then copy_up (Z.to_nat length) dst_void src_void
   else copy_fast dst_void src_void length);;; ret dst_void.

(** [while (n--) *s++ = (char)c;] *)
Fixpoint fill (n : nat) (s c : Z) : M bmem unit :=
  match n with O => ret tt | S n => st s c;;; fill n (s + 1) c end.
Fixpoint memset_align (k : nat) (s c n : Z) : M bmem (option (Z * Z)) :=
  match k with
  | O => spin
  | S k =>
      if UNALIGNED s then
        if n =? 0 then ret None else st s c;;; memset_align k (s + 1) c (n - 1)
      else ret (Some (s, n))
  end.
Fixpoint fill_words (k : nat) (a buffer n : Z) : M bmem (Z * Z) :=
  match k with
  | O => spin
  | S k =>
      if LBLOCKSIZE <=? n then stw a buffer;;; fill_words k (a + LBLOCKSIZE) buffer (n - LBLOCKSIZE)
      else ret (a, n)
  end.
Fixpoint fill_blocks (k : nat) (a buffer n : Z) : M bmem (Z * Z) :=
  match k with
  | O => spin
  | S k =>
      if LBLOCKSIZE * 4 <=? n then
        stw a buffer;;; stw (a + 4) buffer;;; stw (a + 8) buffer;;; stw (a + 12) buffer;;;
        fill_blocks k (a + 16) buffer (n - 4 * LBLOCKSIZE)
      else fill_words (S (Z.to_nat n)) a buffer n
  end.
Definition memset (m c n : Z) : M bmem Z :=
  if small_code then fill (Z.to_nat n) m c;;; ret m
  else
    x <- memset_align 4 m c n;;
    match x with
    | None => ret m
    | Some (s, n) =>
        '(s, n) <- (if n <? LBLOCKSIZE then ret (s, n)
                    else fill_blocks (S (Z.to_nat n)) s (char_mask (Z.land c 0xff)) n);;
        fill (Z.to_nat n) s c;;; ret m
    end.

(** ** strlcpy, strlcat, buf_compare_ct *)

(** [do { if (( *d++ = *s++) == 0) break; } while (--n != 0);] for [n + 1] turns;
    the result is where [d] and [s] end and whether the string ended. *)
Fixpoint strlcpy_loop (n : nat) (d s : Z) : M bmem (Z * Z * bool) :=
  match n with
  | O => ret (d, s, false)
  | S n => b <- ld s;; st d b;;; if b =? 0 then ret (d + 1, s + 1, true) else strlcpy_loop n (d + 1) (s + 1)
  end.
Definition strlcpy (dst src siz : Z) : M bmem Z :=
  f <- fuel;;
  '(d, s, ended) <- strlcpy_loop (Z.to_nat (siz - 1)) dst src;;
  s <- (if ended then ret s
        else when (negb (siz =? 0)) (st d 0);;; s <- byte_loop f (Z.eqb 0) s;; ret (s + 1));;
  ret (s - src - 1).

(** [while ( *s != 0) { if (n != 1) { *d++ = *s; n--; } s++; }] *)
Fixpoint strlcat_loop (k : nat) (d s n : Z) : M bmem (Z * Z) :=
  match k with
  | O => spin
  | S k =>
      b <- ld s;;
      if b =? 0 then ret (d, s)
      else if negb (n =? 1) then st d b;;; strlcat_loop k (d + 1) (s + 1) (n - 1)
      else strlcat_loop k d (s + 1) n
  end.
Definition strlcat (dst src siz : Z) : M bmem Z :=
  f <- fuel;;
  d <- strnlen_loop (Z.to_nat siz) dst;;
  let dlen := d - dst in
  let n := siz - dlen in
  if n =? 0 then l <- strlen src;; ret (dlen + l)
  else '(d, s) <- strlcat_loop f d src n;; st d 0;;; ret (dlen + (s - src)).

Fixpoint compare_loop (n : nat) (c1 c2 res : Z) : M bmem Z :=
  match n with
  | O => ret res
  | S n => b1 <- ld c1;; b2 <- ld c2;; compare_loop n (c1 + 1) (c2 + 1) (Z.lor res (Z.lxor b1 b2))
  end.
Definition buf_compare_ct (s1 s2 n : Z) : M bmem Z :=
  res <- compare_loop (Z.to_nat n) s1 s2 0;;
  let res := Z.lor res (Z.shiftr res 4) in
  let res := Z.lor res (Z.shiftr res 2) in
  let res := Z.lor res (Z.shiftr res 1) in
  ret (Z.land res 1).
End newlib.
