(* ===== verification/NewlibSpec.v ===== *)
(** * The string functions compute what the C standard says, in both builds

    Strings and buffers are lists of bytes in memory ([at_mem]).  The reference
    of each function is a function on lists; the theorems say that the body that
    goes byte by byte and the one that goes word by word both compute it.  Words
    may reach past the end of a string: memory consists of whole words
    ([word_closed]). *)

From stdpp Require Import prelude gmap list.
From Stdlib Require Import ZArith Lia.
From S2P Require Import Prelude Newlib.
#[local] Open Scope Z_scope.
#[local] Open Scope kernel_scope.

(** ** Words and their bytes *)

Definition is_byte (b : Z) : Prop := 0 <= b < 256.
Definition word (b0 b1 b2 b3 : Z) : Z := b0 + 256 * b1 + 65536 * b2 + 16777216 * b3.

Lemma testbit_high x n : 0 <= n -> Z.testbit x n = ((x / 2 ^ n) mod 2 =? 1).
Proof. apply Z.testbit_eqb. Qed.

Lemma high_bits i : 0 <= i -> Z.testbit 0x80808080 i = (i =? 7) || (i =? 15) || (i =? 23) || (i =? 31).
Proof.
  intros Hi. destruct (Z.ltb_spec i 32).
  - assert (H' : forallb (fun i => Bool.eqb (Z.testbit 0x80808080 i) ((i =? 7) || (i =? 15) || (i =? 23) || (i =? 31)))
      (seqZ 0 32) = true) by done.
    rewrite forallb_forall in H'. apply eqb_prop, H'. apply list_elem_of_In, elem_of_seqZ. lia.
  - rewrite Z.bits_above_log2 by (cbn; lia). symmetry. rewrite !orb_false_iff, !Z.eqb_neq. lia.
Qed.
Lemma truth_high y :
  truth (Z.land y 0x80808080) = Z.testbit y 7 || Z.testbit y 15 || Z.testbit y 23 || Z.testbit y 31.
Proof.
  unfold truth. destruct (Z.eqb_spec (Z.land y 0x80808080) 0) as [E|E]; cbn [negb].
  - assert (H : forall i, 0 <= i -> Z.testbit y i && ((i =? 7) || (i =? 15) || (i =? 23) || (i =? 31)) = false)
      by (intros i Hi; by rewrite <- high_bits, <- Z.land_spec, E, Z.bits_0 by done).
    pose proof (H 7 ltac:(done)) as H7. pose proof (H 15 ltac:(done)) as H15.
    pose proof (H 23 ltac:(done)) as H23. pose proof (H 31 ltac:(done)) as H31.
    cbn [Z.eqb Pos.eqb orb] in H7, H15, H23, H31. rewrite andb_true_r in *. by rewrite H7, H15, H23, H31.
  - symmetry. apply not_false_iff_true. intros H. rewrite !orb_false_iff in H. destruct H as (((H7 & H15) & H23) & H31).
    apply E, Z.bits_inj'. intros i Hi. rewrite Z.land_spec, Z.bits_0, high_bits by done.
    destruct (Z.eqb_spec i 7) as [->|]; [by rewrite H7|]. destruct (Z.eqb_spec i 15) as [->|]; [by rewrite H15|].
    destruct (Z.eqb_spec i 23) as [->|]; [by rewrite H23|]. destruct (Z.eqb_spec i 31) as [->|]; [by rewrite H31|].
    apply andb_false_r.
Qed.

(** The highest bit of a byte of a word. *)
Lemma high_of_byte p lo b y x h : 0 < p -> 0 <= lo < p -> is_byte b -> x = lo + p * b + 256 * p * y -> h = 128 * p ->
  (x / h) mod 2 = b / 128.
Proof.
  unfold is_byte. intros Hp Hlo Hb -> ->. replace (lo + p * b + 256 * p * y) with (lo + (b + 256 * y) * p) by ring.
  rewrite (Z.mul_comm 128 p), <- (Z.div_div _ p 128) by lia.
  rewrite Z.div_add by lia. rewrite (Z.div_small lo p), Z.add_0_l by lia.
  replace (b + 256 * y) with (b + (2 * y) * 128) by lia. rewrite Z.div_add by lia.
  rewrite (Z.mul_comm 2), Z_mod_plus_full, Z.mod_small; [done|]. Z.div_mod_to_equations; lia.
Qed.

(** The test of all bytes at once. *)
Lemma detectnull_word b0 b1 b2 b3 : is_byte b0 -> is_byte b1 -> is_byte b2 -> is_byte b3 ->
  DETECTNULL (word b0 b1 b2 b3) = (b0 =? 0) || (b1 =? 0) || (b2 =? 0) || (b3 =? 0).
Proof.
  unfold is_byte. intros H0 H1 H2 H3. unfold DETECTNULL. rewrite truth_high, !Z.land_spec, !u32_testbit, !not32_testbit by lia.
  cbn [Z.ltb Z.compare Pos.compare Pos.compare_cont andb]. unfold word. rewrite !testbit_high by lia.
  change (2 ^ 7) with 128. change (2 ^ 15) with 32768. change (2 ^ 23) with 8388608. change (2 ^ 31) with 2147483648.
  destruct (Z.eqb_spec b0 0) as [->|N0]; [|destruct (Z.eqb_spec b1 0) as [->|N1]; [|destruct (Z.eqb_spec b2 0) as [->|N2]; [|destruct (Z.eqb_spec b3 0) as [->|N3]]]]; cbn [orb].
  - rewrite (high_of_byte 1 0 255 (b1 - 1 + 256 * (b2 - 1) + 65536 * (b3 - 1) - 1)), (high_of_byte 1 0 0 (b1 + 256 * b2 + 65536 * b3));
      unfold is_byte; done || lia.
  - rewrite (high_of_byte 256 (b0 - 1) 255 (b2 - 1 + 256 * (b3 - 1) - 1) _ 32768), (high_of_byte 256 b0 0 (b2 + 256 * b3) _ 32768);
      unfold is_byte; try done; try lia. apply orb_true_iff; left. apply orb_true_iff; left. apply orb_true_r.
  - rewrite (high_of_byte 65536 (b0 - 1 + 256 * (b1 - 1)) 255 (b3 - 1 - 1) _ 8388608), (high_of_byte 65536 (b0 + 256 * b1) 0 b3 _ 8388608);
      unfold is_byte; try done; try lia. apply orb_true_iff; left. apply orb_true_r.
  - rewrite (high_of_byte 16777216 (b0 - 1 + 256 * (b1 - 1) + 65536 * (b2 - 1)) 255 (- 1) _ 2147483648),
      (high_of_byte 16777216 (b0 + 256 * b1 + 65536 * b2) 0 0 _ 2147483648);
      unfold is_byte; try done; try lia. apply orb_true_r.
  - rewrite (high_of_byte 1 0 (b0 - 1) (b1 - 1 + 256 * (b2 - 1) + 65536 * (b3 - 1)) _ 128), (high_of_byte 1 0 b0 (b1 + 256 * b2 + 65536 * b3) _ 128),
      (high_of_byte 256 (b0 - 1) (b1 - 1) (b2 - 1 + 256 * (b3 - 1)) _ 32768), (high_of_byte 256 b0 b1 (b2 + 256 * b3) _ 32768),
      (high_of_byte 65536 (b0 - 1 + 256 * (b1 - 1)) (b2 - 1) (b3 - 1) _ 8388608), (high_of_byte 65536 (b0 + 256 * b1) b2 b3 _ 8388608),
      (high_of_byte 16777216 (b0 - 1 + 256 * (b1 - 1) + 65536 * (b2 - 1)) (b3 - 1) 0 _ 2147483648),
      (high_of_byte 16777216 (b0 + 256 * b1 + 65536 * b2) b3 0 _ 2147483648); unfold is_byte; try done; try lia.
    assert (Hno : forall b, 0 < b < 256 -> (((b - 1) / 128 =? 1) && negb (b / 128 =? 1)) = false).
    { intros b Hb. destruct (Z.eqb_spec (b / 128) 1); [apply andb_false_r|].
      rewrite (proj2 (Z.eqb_neq _ _)); [done|]. Z.div_mod_to_equations; lia. }
    by rewrite !Hno by lia.
Qed.

Lemma byte_of_div w i : 0 <= i -> byte_of w i = (w / 2 ^ (8 * i)) mod 256.
Proof. intros Hi. unfold byte_of. change 255 with (Z.ones 8). by rewrite Z.land_ones, Z.shiftr_div_pow2 by lia. Qed.
Lemma byte_of_word b0 b1 b2 b3 : is_byte b0 -> is_byte b1 -> is_byte b2 -> is_byte b3 ->
  byte_of (word b0 b1 b2 b3) 0 = b0 /\ byte_of (word b0 b1 b2 b3) 1 = b1 /\
  byte_of (word b0 b1 b2 b3) 2 = b2 /\ byte_of (word b0 b1 b2 b3) 3 = b3.
Proof.
  unfold is_byte, word. intros. rewrite !byte_of_div by lia. change (2 ^ (8 * 0)) with 1. change (2 ^ (8 * 1)) with 256.
  change (2 ^ (8 * 2)) with 65536. change (2 ^ (8 * 3)) with 16777216. split_and!; Z.div_mod_to_equations; lia.
Qed.
Lemma word_eqb b0 b1 b2 b3 c0 c1 c2 c3 :
  is_byte b0 -> is_byte b1 -> is_byte b2 -> is_byte b3 -> is_byte c0 -> is_byte c1 -> is_byte c2 -> is_byte c3 ->
  (word b0 b1 b2 b3 =? word c0 c1 c2 c3) = (b0 =? c0) && (b1 =? c1) && (b2 =? c2) && (b3 =? c3).
Proof.
  unfold is_byte, word. intros. apply eq_iff_eq_true. rewrite !andb_true_iff, !Z.eqb_eq. lia.
Qed.
Lemma bits_cat a x i : is_byte a -> 0 <= i -> Z.testbit (a + 256 * x) i = if i <? 8 then Z.testbit a i else Z.testbit x (i - 8).
Proof.
  intros Ha Hi. unfold is_byte in Ha. destruct (Z.ltb_spec i 8).
  - rewrite <- (Z.mod_pow2_bits_low (a + 256 * x) 8) by done. change (2 ^ 8) with 256.
    by rewrite Z.mul_comm, Z_mod_plus_full, Z.mod_small by done.
  - replace i with (i - 8 + 8) at 1 by lia. rewrite <- Z.div_pow2_bits by lia. change (2 ^ 8) with 256.
    by rewrite Z.mul_comm, Z.div_add, Z.div_small, Z.add_0_l by lia.
Qed.
Lemma byte_high_bits a i : is_byte a -> 8 <= i -> Z.testbit a i = false.
Proof.
  intros Ha Hi. replace a with (a + 256 * 0) by lia. rewrite bits_cat by (done || lia).
  rewrite (proj2 (Z.ltb_ge _ _)) by done. apply Z.bits_0.
Qed.
Lemma is_byte_lxor a c : is_byte a -> is_byte c -> is_byte (Z.lxor a c).
Proof.
  intros Ha Hc. assert (E : Z.lxor a c = Z.lxor a c mod 2 ^ 8).
  { rewrite <- Z.land_ones by done. apply Z.bits_inj'. intros i Hi. rewrite Z.land_spec, Z.lxor_spec. destruct (Z.ltb_spec i 8).
    - rewrite (Z.ones_spec_low 8) by lia. by rewrite andb_true_r.
    - by rewrite !(byte_high_bits _ i) by done. }
  rewrite E. by apply Z.mod_pos_bound.
Qed.
Lemma lxor_byte a x c y : is_byte a -> is_byte c -> Z.lxor (a + 256 * x) (c + 256 * y) = Z.lxor a c + 256 * Z.lxor x y.
Proof.
  intros Ha Hc. apply Z.bits_inj'. intros i Hi. rewrite Z.lxor_spec, !bits_cat by (by try apply is_byte_lxor).
  destruct (i <? 8); by rewrite Z.lxor_spec.
Qed.
Lemma lxor_word b0 b1 b2 b3 c0 c1 c2 c3 :
  is_byte b0 -> is_byte b1 -> is_byte b2 -> is_byte b3 -> is_byte c0 -> is_byte c1 -> is_byte c2 -> is_byte c3 ->
  Z.lxor (word b0 b1 b2 b3) (word c0 c1 c2 c3) = word (Z.lxor b0 c0) (Z.lxor b1 c1) (Z.lxor b2 c2) (Z.lxor b3 c3).
Proof.
  intros. assert (E : forall x0 x1 x2 x3, word x0 x1 x2 x3 = x0 + 256 * (x1 + 256 * (x2 + 256 * x3))) by (unfold word; lia).
  rewrite !E, !lxor_byte by done. done.
Qed.
Lemma char_mask_word c : is_byte c -> char_mask c = word c c c c.
Proof.
  intros Hc. assert (H : forallb (fun c => char_mask c =? word c c c c) (seqZ 0 256) = true) by by vm_compute.
  rewrite forallb_forall in H. apply Z.eqb_eq, H, list_elem_of_In, elem_of_seqZ. unfold is_byte in Hc. lia.
Qed.
Lemma detectchar_word b0 b1 b2 b3 c : is_byte b0 -> is_byte b1 -> is_byte b2 -> is_byte b3 -> is_byte c ->
  DETECTCHAR (word b0 b1 b2 b3) (char_mask c) = (b0 =? c) || (b1 =? c) || (b2 =? c) || (b3 =? c).
Proof.
  intros. unfold DETECTCHAR. rewrite char_mask_word, lxor_word, detectnull_word by (done || by apply is_byte_lxor).
  assert (E : forall b, (Z.lxor b c =? 0) = (b =? c)) by (intros b; apply eq_iff_eq_true; by rewrite !Z.eqb_eq, Z.lxor_eq_0_iff).
  by rewrite !E.
Qed.

(** ** Bytes in memory *)

Fixpoint at_mem (m : bmem) (s : Z) (l : list Z) : Prop :=
  match l with [] => True | b :: l => m !! s = Some b /\ at_mem m (s + 1) l end.
Definition bytes_ok (m : bmem) : Prop := map_Forall (fun _ b => is_byte b) m.
(** A word is in memory as a whole or not at all. *)
Definition word_closed (m : bmem) : Prop :=
  forall a, is_Some (m !! a) -> forall j, 0 <= j < 4 -> is_Some (m !! (a / 4 * 4 + j)).

Lemma at_mem_app m s l1 l2 : at_mem m s (l1 ++ l2) <-> at_mem m s l1 /\ at_mem m (s + Z.of_nat (length l1)) l2.
Proof.
  revert s. induction l1 as [|b l1 IH]; intros s; cbn [at_mem app length].
  - rewrite Z.add_0_r. tauto.
  - rewrite IH. replace (s + 1 + Z.of_nat (length l1)) with (s + Z.of_nat (S (length l1))) by lia. tauto.
Qed.
Lemma at_mem_lookup m s l i b : at_mem m s l -> l !! i = Some b -> m !! (s + Z.of_nat i) = Some b.
Proof.
  revert s i. induction l as [|c l IH]; intros s i; [done|]. intros [Hc Hl] Hi. destruct i as [|i]; cbn in Hi.
  - injection Hi as ->. by rewrite Z.add_0_r.
  - replace (s + Z.of_nat (S i)) with (s + 1 + Z.of_nat i) by lia. by apply IH.
Qed.
Lemma at_mem_bytes m s l : bytes_ok m -> at_mem m s l -> Forall is_byte l.
Proof.
  intros Hm. revert s. induction l as [|b l IH]; intros s; [constructor|]. intros [Hb Hl]. constructor; [by eapply Hm|by eapply IH].
Qed.
(** Different addresses are different bytes of memory. *)
Lemma at_mem_size m s l : at_mem m s l -> (length l <= base.size m)%nat.
Proof.
  revert m s. induction l as [|b l IH]; intros m s; [cbn; lia|]. intros [Hb Hl].
  assert (H : at_mem (delete s m) (s + 1) l).
  { clear Hb. enough (H : forall t, s < t -> at_mem m t l -> at_mem (delete s m) t l) by (apply H; [lia|done]).
    clear. induction l as [|b l IH]; intros t Ht; [done|]. intros [Hb Hl]. split; [by rewrite lookup_delete_ne by lia|]. apply IH; [lia|done]. }
  apply IH in H. rewrite <- (insert_delete_id m s b Hb), map_size_insert_None by apply lookup_delete_eq. cbn [length]. lia.
Qed.
Lemma at_mem_exists m s k : (forall i, (i < k)%nat -> is_Some (m !! (s + Z.of_nat i))) -> exists l, length l = k /\ at_mem m s l.
Proof.
  revert s. induction k as [|k IH]; intros s H; [by exists []|].
  destruct (H 0%nat) as [b Hb]; [lia|]. rewrite Z.add_0_r in Hb. destruct (IH (s + 1)) as (l & Hl & Hm).
  - intros i Hi. replace (s + 1 + Z.of_nat i) with (s + Z.of_nat (S i)) by lia. apply H. lia.
  - exists (b :: l). split; [cbn; lia|done].
Qed.
(** The rest of the last word. *)
Lemma at_mem_pad m s l : word_closed m -> s mod 4 = 0 -> at_mem m s l ->
  exists pad, at_mem m s (l ++ pad) /\ Z.of_nat (length (l ++ pad)) mod 4 = 0 /\ (length pad < 4)%nat.
Proof.
  intros Hw Hs Hl. set (n := Z.of_nat (length l)).
  destruct (at_mem_exists m (s + n) (Z.to_nat ((- n) mod 4))) as (pad & Hp & Hm).
  - intros i Hi. destruct l as [|b l _] using rev_ind; [change ((- n) mod 4) with 0 in Hi; lia|].
    apply at_mem_app in Hl as [_ [Hb _]]. assert (Hn : n = Z.of_nat (length l) + 1) by (unfold n; rewrite length_app; cbn; lia). clearbody n.
    specialize (Hw _ (mk_is_Some _ _ Hb) ((n + Z.of_nat i) mod 4)).
    replace (s + n + Z.of_nat i) with ((s + Z.of_nat (length l)) / 4 * 4 + (n + Z.of_nat i) mod 4);
      [apply Hw; apply Z.mod_pos_bound; lia|].
    clear Hw. Z.div_mod_to_equations; lia.
  - exists pad. split; [by apply at_mem_app|]. rewrite length_app, Hp. subst n. split; Z.div_mod_to_equations; lia.
Qed.

Lemma ld_run m s b : m !! s = Some b -> ld s m = Ret b m.
Proof. intros H. unfold ld. by rewrite H. Qed.
Lemma ldw_run m s b0 b1 b2 b3 l : at_mem m s (b0 :: b1 :: b2 :: b3 :: l) -> ldw s m = Ret (word b0 b1 b2 b3) m.
Proof.
  cbn [at_mem]. intros (H0 & H1 & H2 & H3 & _). unfold ldw.
  rewrite (bind_run _ _ _ _ _ (ld_run _ _ _ H0)), (bind_run _ _ _ _ _ (ld_run _ _ _ H1)).
  replace (s + 2) with (s + 1 + 1) by lia. replace (s + 3) with (s + 1 + 1 + 1) by lia.
  by rewrite (bind_run _ _ _ _ _ (ld_run _ _ _ H2)), (bind_run _ _ _ _ _ (ld_run _ _ _ H3)).
Qed.
(** Four bytes of a list whose length is a multiple of four. *)
Lemma four_bytes (l : list Z) : Z.of_nat (length l) mod 4 = 0 -> l = [] \/ exists b0 b1 b2 b3 l', l = b0 :: b1 :: b2 :: b3 :: l'.
Proof.
  intros H. destruct l as [|b0 [|b1 [|b2 [|b3 l]]]]; [by left|done..|]. right. by exists b0, b1, b2, b3, l.
Qed.

(** ** Searching for the end of a string or a character *)

Lemma UNALIGNED_mod x : UNALIGNED x = negb (x mod 4 =? 0).
Proof. unfold UNALIGNED, truth. change (LBLOCKSIZE - 1) with (Z.ones 2). by rewrite Z.land_ones by lia. Qed.
Lemma UNALIGNED2_false x y : UNALIGNED2 x y = false -> x mod 4 = 0 /\ y mod 4 = 0.
Proof.
  unfold UNALIGNED2, truth. rewrite negb_false_iff, Z.eqb_eq, Z.lor_eq_0_iff.
  change (LBLOCKSIZE - 1) with (Z.ones 2). by rewrite !Z.land_ones by lia.
Qed.

Section scan.
Context (m : bmem) (Hm : bytes_ok m) (Hw : word_closed m) (P : Z -> bool).

(** The first byte [b] with [P] after the bytes [l]. *)
Record first (s : Z) (l : list Z) (b : Z) : Prop := {
  first_mem : at_mem m s (l ++ [b]);
  first_before : Forall (fun x => P x = false) l;
  first_at : P b = true }.

Lemma first_skip s l1 l2 b : first s (l1 ++ l2) b -> first (s + Z.of_nat (length l1)) l2 b.
Proof.
  intros [H1 H2 H3]. rewrite <- app_assoc in H1. apply at_mem_app in H1 as [_ H1]. apply Forall_app in H2 as [_ H2]. by split.
Qed.
Lemma first_size s l b : first s l b -> (length l < base.size m)%nat.
Proof. intros [H _ _]. apply at_mem_size in H. rewrite length_app in H. cbn in H. lia. Qed.

Lemma byte_loop_run n s l b : first s l b -> (length l < n)%nat -> byte_loop n P s m = Ret (s + Z.of_nat (length l)) m.
Proof.
  revert n s. induction l as [|x l IH]; intros [|n] s Hf Hn; cbn [length] in *; try lia; cbn [byte_loop].
  - destruct Hf as [[Hb _] _ HP]. rewrite (bind_run _ _ _ _ _ (ld_run _ _ _ Hb)), HP. unfold ret. f_equal. lia.
  - pose proof (first_skip s [x] l b Hf) as Hf'. cbn [length] in Hf'. destruct Hf as [[Hx _] Hl _].
    apply Forall_cons in Hl as [Hx0 _]. rewrite (bind_run _ _ _ _ _ (ld_run _ _ _ Hx)), Hx0.
    rewrite (IH n (s + 1)); [f_equal; lia|done|lia].
Qed.

(** The words before the one with the byte are passed. *)
Lemma word_loop_run found n s l b :
  (forall b0 b1 b2 b3, is_byte b0 -> is_byte b1 -> is_byte b2 -> is_byte b3 ->
     found (word b0 b1 b2 b3) = P b0 || P b1 || P b2 || P b3) ->
  s mod 4 = 0 -> first s l b -> (length l < n)%nat ->
  exists l1 l2, l = l1 ++ l2 /\ word_loop n found s m = Ret (s + Z.of_nat (length l1)) m.
Proof.
  intros Hfound. revert s l. induction n as [|n IH]; intros s l Hs Hf Hn; [lia|]. cbn [word_loop].
  destruct (at_mem_pad m s (l ++ [b]) Hw Hs (first_mem _ _ _ Hf)) as (pad & Hp & H4 & _).
  destruct (four_bytes _ H4) as [E|(b0 & b1 & b2 & b3 & l' & E)]; [by destruct l|].
  pose proof (at_mem_bytes _ _ _ Hm Hp) as Hb. rewrite E in Hp, Hb.
  apply Forall_cons in Hb as [Hb0 Hb]. apply Forall_cons in Hb as [Hb1 Hb]. apply Forall_cons in Hb as [Hb2 Hb]. apply Forall_cons in Hb as [Hb3 _].
  rewrite (bind_run _ _ _ _ _ (ldw_run _ _ _ _ _ _ _ Hp)), Hfound by done.
  destruct (P b0 || P b1 || P b2 || P b3) eqn:EP.
  - exists [], l. split; [done|]. unfold ret. f_equal. cbn. lia.
  - rewrite !orb_false_iff in EP. destruct EP as (((E0 & E1) & E2) & E3).
    pose proof (first_at _ _ _ Hf) as HPb. rewrite <- app_assoc in E.
    destruct l as [|x0 l]; [injection E as <- _; congruence|]. injection E as <- E.
    destruct l as [|x1 l]; [injection E as <- _; congruence|]. injection E as <- E.
    destruct l as [|x2 l]; [injection E as <- _; congruence|]. injection E as <- E.
    destruct l as [|x3 l]; [injection E as <- _; congruence|]. injection E as <- E.
    destruct (IH (s + 4) l) as (l1 & l2 & -> & Hr); [by rewrite Z.add_mod, Hs by lia|exact (first_skip s [x0; x1; x2; x3] l b Hf)|cbn in Hn; lia|].
    exists (x0 :: x1 :: x2 :: x3 :: l1), l2. split; [done|]. change LBLOCKSIZE with 4. rewrite Hr. cbn [length]. f_equal. lia.
Qed.

Lemma align_loop_run stop n s l b y :
  (forall x t, P x = false -> stop x t = None) -> stop b (s + Z.of_nat (length l)) = Some y ->
  first s l b -> (- s) mod 4 < Z.of_nat n ->
  align_loop n stop s m = Ret (inl y) m \/
  exists l1 l2, l = l1 ++ l2 /\ (s + Z.of_nat (length l1)) mod 4 = 0 /\ align_loop n stop s m = Ret (inr (s + Z.of_nat (length l1))) m.
Proof.
  intros Hnone. revert s l. induction n as [|n IH]; intros s l Hy Hf Hn; [Z.div_mod_to_equations; lia|]. cbn [align_loop].
  rewrite UNALIGNED_mod. destruct (Z.eqb_spec (s mod 4) 0) as [Es|Es]; cbn [negb].
  { right. exists [], l. cbn [length]. rewrite Z.add_0_r. done. }
  destruct l as [|x l].
  - destruct Hf as [[Hb _] _ _]. rewrite (bind_run _ _ _ _ _ (ld_run _ _ _ Hb)). cbn [length] in Hy. rewrite Z.add_0_r in Hy. rewrite Hy. by left.
  - pose proof (first_skip s [x] l b Hf) as Hf'. cbn [length] in *. destruct Hf as [[Hx _] Hl _].
    apply Forall_cons in Hl as [Hx0 _]. rewrite (bind_run _ _ _ _ _ (ld_run _ _ _ Hx)), Hnone by done.
    destruct (IH (s + 1) l) as [H|(l1 & l2 & -> & Ha & H)]; [by replace (s + 1 + Z.of_nat (length l)) with (s + Z.of_nat (S (length l))) by lia|done|Z.div_mod_to_equations; lia|by left|].
    right. exists (x :: l1), l2. cbn [length]. replace (s + Z.of_nat (S (length l1))) with (s + 1 + Z.of_nat (length l1)) by lia. done.
Qed.
End scan.

(** A string in memory. *)
Definition cstr (m : bmem) (s : Z) (l : list Z) : Prop := at_mem m s (l ++ [0]) /\ Forall (fun x => x <> 0) l.

Lemma cstr_first m s l : cstr m s l -> first m (Z.eqb 0) s l 0.
Proof. intros [H1 H2]. split; [done| |done]. eapply Forall_impl; [exact H2|]. intros x Hx. by apply Z.eqb_neq. Qed.

Section strings.
Context (m : bmem) (Hm : bytes_ok m) (Hw : word_closed m).

Lemma align_fuel s : (- s) mod 4 < Z.of_nat 4.
Proof. by apply Z.mod_pos_bound. Qed.

Lemma found_null b0 b1 b2 b3 : is_byte b0 -> is_byte b1 -> is_byte b2 -> is_byte b3 ->
  DETECTNULL (word b0 b1 b2 b3) = (0 =? b0) || (0 =? b1) || (0 =? b2) || (0 =? b3).
Proof. intros. by rewrite detectnull_word, !(Z.eqb_sym 0) by done. Qed.

Lemma strlen_run {build : StrBuild} s l : cstr m s l -> strlen s m = Ret (Z.of_nat (length l)) m.
Proof.
  intros Hs%cstr_first. pose proof (first_size _ _ _ _ _ Hs) as Hn.
  assert (Hbytes : forall l1 l2, l = l1 ++ l2 ->
    (str <- byte_loop (S (base.size m)) (Z.eqb 0) (s + Z.of_nat (length l1));; ret (str - s)) m = Ret (Z.of_nat (length l)) m).
  { intros l1 l2 ->. erewrite bind_run; [|eapply byte_loop_run; [by apply first_skip|]; rewrite length_app in Hn; lia].
    unfold ret. f_equal. rewrite length_app. lia. }
  unfold strlen, fuel. rewrite (bind_run _ _ _ (S (base.size m)) m) by done. destruct small_code.
  { specialize (Hbytes [] l eq_refl). cbn [length] in Hbytes. by rewrite Z.add_0_r in Hbytes. }
  destruct (align_loop_run m (Z.eqb 0) (fun b str => if b =? 0 then Some (str - s) else None) 4 s l 0 (Z.of_nat (length l)))
    as [E|(l1 & l2 & -> & Ha & E)]; [| |done|apply align_fuel|rewrite (bind_run _ _ _ _ _ E)..].
  - intros x t Hx. rewrite Z.eqb_sym. by rewrite Hx.
  - cbn [Z.eqb]. f_equal. lia.
  - done.
  - destruct (word_loop_run m Hm Hw (Z.eqb 0) DETECTNULL (S (base.size m)) _ _ _ found_null Ha (first_skip _ _ _ _ _ _ Hs))
      as (l3 & l4 & -> & E'); [rewrite length_app in Hn; lia|].
    rewrite (bind_run _ _ _ _ _ E').
    replace (s + Z.of_nat (length l1) + Z.of_nat (length l3)) with (s + Z.of_nat (length (l1 ++ l3))) by (rewrite length_app; lia).
    apply (Hbytes _ l4). by rewrite app_assoc.
Qed.

(** [strchr] stops at the character or at the end of the string. *)
Definition chr_stop (c : Z) (b : Z) : bool := (b =? 0) || (b =? c).
Lemma found_char c b0 b1 b2 b3 : is_byte c -> is_byte b0 -> is_byte b1 -> is_byte b2 -> is_byte b3 ->
  DETECTNULL (word b0 b1 b2 b3) || DETECTCHAR (word b0 b1 b2 b3) (char_mask c) =
  chr_stop c b0 || chr_stop c b1 || chr_stop c b2 || chr_stop c b3.
Proof.
  intros. rewrite detectnull_word, detectchar_word by done. unfold chr_stop.
  destruct (b0 =? 0), (b1 =? 0), (b2 =? 0), (b3 =? 0), (b0 =? c), (b1 =? c), (b2 =? c), (b3 =? c); done.
Qed.

Lemma strchr_run {build : StrBuild} s i l b : first m (chr_stop (u8 i)) s l b ->
  strchr s i m = Ret (if b =? u8 i then s + Z.of_nat (length l) else 0) m.
Proof.
  intros Hs. pose proof (first_size _ _ _ _ _ Hs) as Hn. pose proof (u8_range i) as Hc. set (c := u8 i) in *.
  assert (Hb : m !! (s + Z.of_nat (length l)) = Some b).
  { destruct Hs as [H _ _]. apply at_mem_app in H as [_ [H _]]. done. }
  assert (Hbytes : forall l1 l2, l = l1 ++ l2 ->
    (t <- byte_loop (S (base.size m)) (chr_stop c) (s + Z.of_nat (length l1));; x <- ld t;; ret (if x =? c then t else 0)) m =
    Ret (if b =? c then s + Z.of_nat (length l) else 0) m).
  { intros l1 l2 ->. erewrite bind_run; [|eapply byte_loop_run; [by apply first_skip|]; rewrite length_app in Hn; lia].
    rewrite length_app in Hb |- *. rewrite <- Z.add_assoc, <- Nat2Z.inj_add. by rewrite (bind_run _ _ _ _ _ (ld_run _ _ _ Hb)). }
  unfold strchr, fuel. fold c. rewrite (bind_run _ _ _ (S (base.size m)) m) by done. destruct small_code.
  { specialize (Hbytes [] l eq_refl). cbn [length] in Hbytes. by rewrite Z.add_0_r in Hbytes. }
  destruct (Z.eqb_spec c 0) as [Ec|Ec].
  - assert (Hz : first m (Z.eqb 0) s l b).
    { destruct Hs as [H1 H2 H3]. rewrite Ec in H2, H3. unfold chr_stop in *. split; [done| |].
      - eapply Forall_impl; [exact H2|]. intros x Hx. rewrite orb_false_iff in Hx. rewrite Z.eqb_sym. apply Hx.
      - rewrite orb_diag, Z.eqb_sym in H3. done. }
    assert (b = 0) as -> by (symmetry; apply Z.eqb_eq, Hz). rewrite Ec, Z.eqb_refl.
    destruct (align_loop_run m (Z.eqb 0) (fun b s => if b =? 0 then Some s else None) 4 s l 0 (s + Z.of_nat (length l)))
      as [E|(l1 & l2 & -> & Ha & E)]; [| |done|apply align_fuel|rewrite (bind_run _ _ _ _ _ E)..].
    + intros x t Hx. rewrite Z.eqb_sym. by rewrite Hx.
    + done.
    + done.
    + destruct (word_loop_run m Hm Hw (Z.eqb 0) DETECTNULL (S (base.size m)) _ _ _ found_null Ha (first_skip _ _ _ _ _ _ Hz))
        as (l3 & l4 & -> & E'); [rewrite length_app in Hn; lia|].
      rewrite (bind_run _ _ _ _ _ E'). rewrite !length_app in *.
      rewrite (byte_loop_run m (Z.eqb 0) _ _ l4 0); [f_equal; lia| |lia].
      apply first_skip in Hz. by apply first_skip in Hz.
  - destruct (align_loop_run m (chr_stop c) (fun b s => if b =? 0 then Some 0 else if b =? c then Some s else None) 4 s l b
      (if b =? c then s + Z.of_nat (length l) else 0))
      as [E|(l1 & l2 & -> & Ha & E)]; [| |done|apply align_fuel|rewrite (bind_run _ _ _ _ _ E)..].
    + unfold chr_stop. intros x t Hx. rewrite orb_false_iff in Hx. destruct Hx as [-> ->]. done.
    + pose proof (first_at _ _ _ _ _ Hs) as Hst. unfold chr_stop in Hst. destruct (Z.eqb_spec b 0) as [->|]; cbn [orb] in Hst.
      * by rewrite (proj2 (Z.eqb_neq 0 c)) by done.
      * by rewrite Hst.
    + done.
    + destruct (word_loop_run m Hm Hw (chr_stop c) (fun w => DETECTNULL w || DETECTCHAR w (char_mask c)) (S (base.size m)) _ _ _
        (fun b0 b1 b2 b3 => found_char c b0 b1 b2 b3 Hc) Ha (first_skip _ _ _ _ _ _ Hs))
        as (l3 & l4 & -> & E'); [rewrite length_app in Hn; lia|].
      rewrite (bind_run _ _ _ _ _ E').
      replace (s + Z.of_nat (length l1) + Z.of_nat (length l3)) with (s + Z.of_nat (length (l1 ++ l3))) by (rewrite length_app; lia).
      apply (Hbytes _ l4). by rewrite app_assoc.
Qed.

(** ** Searching and comparing buffers *)

Lemma byte_cons m' s b l : at_mem m' s (b :: l) -> ld s m' = Ret b m' /\ at_mem m' (s + 1) l.
Proof. intros [Hb Hl]. split; [by apply ld_run|done]. Qed.

Fixpoint find (c s : Z) (l : list Z) : Z :=
  match l with [] => 0 | b :: l => if b =? c then s else find c (s + 1) l end.

Lemma memchr_bytes_run c s l : at_mem m s l -> memchr_bytes (length l) c s m = Ret (find c s l) m.
Proof.
  revert s. induction l as [|b l IH]; intros s Hl; [done|]. apply byte_cons in Hl as [Hb Hl]. cbn [memchr_bytes length find].
  rewrite (bind_run _ _ _ _ _ Hb). destruct (b =? c); [done|]. by apply IH.
Qed.
(** How far the search has come: what is left gives the answer. *)
Definition memchr_left (c s : Z) (l : list Z) (src length : Z) : Prop :=
  exists l2, at_mem m src l2 /\ length = Z.of_nat (base.length l2) /\ find c s l = find c src l2.

Lemma memchr_align_run n c s l : at_mem m s l -> (- s) mod 4 < Z.of_nat n ->
  memchr_align n c s (Z.of_nat (length l)) m = Ret (inl (find c s l)) m \/
  exists src length, memchr_align n c s (Z.of_nat (base.length l)) m = Ret (inr (src, length)) m /\ src mod 4 = 0 /\ memchr_left c s l src length.
Proof.
  revert s l. induction n as [|n IH]; intros s l Hl Hn; [Z.div_mod_to_equations; lia|]. cbn [memchr_align].
  rewrite UNALIGNED_mod. destruct (Z.eqb_spec (s mod 4) 0) as [Es|Es]; cbn [negb].
  { right. exists s, (Z.of_nat (length l)). split_and!; [done|done|by exists l]. }
  destruct l as [|b l]; [by left|]. apply byte_cons in Hl as [Hb Hl].
  rewrite (proj2 (Z.eqb_neq (Z.of_nat (length (b :: l))) 0)) by (cbn [length]; lia). rewrite (bind_run _ _ _ _ _ Hb). cbn [find].
  destruct (b =? c) eqn:Eb; [by left|]. replace (Z.of_nat (length (b :: l)) - 1) with (Z.of_nat (length l)) by (cbn [length]; lia).
  destruct (IH (s + 1) l) as [H|(src & len & H & Ha & H')]; [done|Z.div_mod_to_equations; lia|by left|]. right. exists src, len.
  split_and!; [done|done|]. destruct H' as (l2 & ? & ? & E). exists l2. split_and!; [done|done|]. by rewrite <- E; cbn [find]; rewrite Eb.
Qed.
Lemma memchr_words_run n c s l : is_byte c -> at_mem m s l -> (length l < n)%nat ->
  exists src length, memchr_words n (char_mask c) s (Z.of_nat (base.length l)) m = Ret (src, length) m /\ memchr_left c s l src length.
Proof.
  intros Hc. revert s l. induction n as [|n IH]; intros s l Hl Hn; [lia|]. cbn [memchr_words]. change LBLOCKSIZE with 4.
  assert (Hstop : memchr_left c s l s (Z.of_nat (length l))) by (by exists l).
  destruct (Z.leb_spec 4 (Z.of_nat (length l))); [|by eexists _, _].
  destruct l as [|b0 [|b1 [|b2 [|b3 l]]]]; cbn [length] in *; try lia.
  pose proof (at_mem_bytes _ _ _ Hm Hl) as Hb. rewrite !Forall_cons in Hb. destruct Hb as (H0 & H1 & H2 & H3 & _).
  rewrite (bind_run _ _ _ _ _ (ldw_run _ _ _ _ _ _ _ Hl)), detectchar_word by done.
  destruct ((b0 =? c) || (b1 =? c) || (b2 =? c) || (b3 =? c)) eqn:E; [by eexists _, _|].
  rewrite !orb_false_iff in E. destruct E as (((E0 & E1) & E2) & E3).
  replace (Z.of_nat (S (S (S (S (length l))))) - 4) with (Z.of_nat (length l)) by lia.
  destruct (IH (s + 4) l) as (src & len & H' & l2 & ? & ? & Ef); [apply (at_mem_app m s [b0; b1; b2; b3] l); done|lia|].
  exists src, len. split; [done|]. exists l2. split_and!; [done|done|]. cbn [find]. rewrite E0, E1, E2, E3, <- Ef. f_equal. lia.
Qed.
Lemma memchr_run {build : StrBuild} s i l : at_mem m s l -> memchr s i (Z.of_nat (length l)) m = Ret (find (u8 i) s l) m.
Proof.
  intros Hl. pose proof (u8_range i) as Hc. unfold memchr. destruct small_code; [rewrite Nat2Z.id; by apply memchr_bytes_run|].
  assert (Hleft : forall src len, memchr_left (u8 i) s l src len -> memchr_bytes (Z.to_nat len) (u8 i) src m = Ret (find (u8 i) s l) m).
  { intros src len (l2 & H2 & -> & ->). rewrite Nat2Z.id. by apply memchr_bytes_run. }
  destruct (memchr_align_run 4 (u8 i) s l Hl (align_fuel s)) as [E|(src & len & E & Ha & Hx)]; rewrite (bind_run _ _ _ _ _ E); [done|].
  destruct (Z.ltb_spec len LBLOCKSIZE); [by rewrite (bind_run _ _ _ (src, len) m); [apply Hleft|]|].
  destruct Hx as (l2 & H2 & -> & Ef). rewrite Nat2Z.id.
  destruct (memchr_words_run (S (length l2)) (u8 i) src l2 Hc H2 ltac:(lia)) as (src' & len' & E' & l3 & H3 & -> & Ef').
  rewrite (bind_run _ _ _ _ _ E'). apply Hleft. exists l3. split_and!; [done|done|]. congruence.
Qed.

(** The comparisons, on what is in memory at the two places; [None] when it ends
    before the answer is known. *)
Fixpoint scmp (l1 l2 : list Z) : option Z :=
  match l1, l2 with
  | b1 :: l1, b2 :: l2 => if negb (b1 =? 0) && (b1 =? b2) then scmp l1 l2 else Some (b1 - b2)
  | _, _ => None
  end.
Fixpoint sncmp (n : nat) (l1 l2 : list Z) : option Z :=
  match n with
  | O => Some 0
  | S n =>
      match l1, l2 with
      | b1 :: l1, b2 :: l2 => if negb (b1 =? 0) && (b1 =? b2) then sncmp n l1 l2 else Some (b1 - b2)
      | _, _ => None
      end
  end.
Fixpoint mcmp (n : nat) (l1 l2 : list Z) : option Z :=
  match n with
  | O => Some 0
  | S n =>
      match l1, l2 with
      | b1 :: l1, b2 :: l2 => if b1 =? b2 then mcmp n l1 l2 else Some (b1 - b2)
      | _, _ => None
      end
  end.

Lemma scmp_app l1 l2 p1 p2 d : scmp l1 l2 = Some d -> scmp (l1 ++ p1) (l2 ++ p2) = Some d.
Proof.
  revert l2. induction l1 as [|b1 l1 IH]; intros [|b2 l2]; cbn; try done.
  destruct (negb (b1 =? 0) && (b1 =? b2)); [apply IH|done].
Qed.
Lemma sncmp_app n l1 l2 p1 p2 d : sncmp n l1 l2 = Some d -> sncmp n (l1 ++ p1) (l2 ++ p2) = Some d.
Proof.
  revert l1 l2. induction n as [|n IH]; intros [|b1 l1] [|b2 l2]; cbn; try done.
  destruct (negb (b1 =? 0) && (b1 =? b2)); [apply IH|done].
Qed.
Lemma mcmp_app n l1 l2 p1 p2 d : mcmp n l1 l2 = Some d -> mcmp n (l1 ++ p1) (l2 ++ p2) = Some d.
Proof.
  revert l1 l2. induction n as [|n IH]; intros [|b1 l1] [|b2 l2]; cbn; try done. destruct (b1 =? b2); [apply IH|done].
Qed.

(** Two aligned words of memory, where the comparison is not over yet. *)
Lemma two_words s1 s2 l1 l2 : s1 mod 4 = 0 -> s2 mod 4 = 0 -> at_mem m s1 l1 -> at_mem m s2 l2 -> l1 <> [] -> l2 <> [] ->
  exists b0 b1 b2 b3 c0 c1 c2 c3 l1' l2' p1 p2,
    l1 ++ p1 = b0 :: b1 :: b2 :: b3 :: l1' /\ l2 ++ p2 = c0 :: c1 :: c2 :: c3 :: l2' /\
    at_mem m s1 (l1 ++ p1) /\ at_mem m s2 (l2 ++ p2) /\ (length l1' < length l1)%nat /\ at_mem m (s1 + 4) l1' /\ at_mem m (s2 + 4) l2' /\
    ldw s1 m = Ret (word b0 b1 b2 b3) m /\ ldw s2 m = Ret (word c0 c1 c2 c3) m /\
    (word b0 b1 b2 b3 =? word c0 c1 c2 c3) = (b0 =? c0) && (b1 =? c1) && (b2 =? c2) && (b3 =? c3) /\
    DETECTNULL (word b0 b1 b2 b3) = (b0 =? 0) || (b1 =? 0) || (b2 =? 0) || (b3 =? 0).
Proof.
  intros Hs1 Hs2 H1 H2 N1 N2.
  destruct (at_mem_pad m s1 l1 Hw Hs1 H1) as (p1 & M1 & E1 & L1). destruct (at_mem_pad m s2 l2 Hw Hs2 H2) as (p2 & M2 & E2 & _).
  destruct (four_bytes _ E1) as [?|(b0 & b1 & b2 & b3 & l1' & Eq1)]; [by destruct l1|].
  destruct (four_bytes _ E2) as [?|(c0 & c1 & c2 & c3 & l2' & Eq2)]; [by destruct l2|].
  pose proof (at_mem_bytes _ _ _ Hm M1) as B1. pose proof (at_mem_bytes _ _ _ Hm M2) as B2.
  pose proof M1 as M1'. pose proof M2 as M2'. rewrite Eq1 in B1, M1'. rewrite Eq2 in B2, M2'. rewrite !Forall_cons in B1, B2.
  destruct B1 as (? & ? & ? & ? & _), B2 as (? & ? & ? & ? & _).
  exists b0, b1, b2, b3, c0, c1, c2, c3, l1', l2', p1, p2.
  split_and!; try done; [apply (f_equal length) in Eq1; rewrite length_app in Eq1; cbn in Eq1; lia|apply (at_mem_app m s1 [b0; b1; b2; b3] l1'); done|apply (at_mem_app m s2 [c0; c1; c2; c3] l2'); done
    |by eapply ldw_run|by eapply ldw_run|by apply word_eqb|by apply detectnull_word].
Qed.

Lemma strcmp_bytes_run n s1 s2 l1 l2 d : at_mem m s1 l1 -> at_mem m s2 l2 -> scmp l1 l2 = Some d -> (length l1 <= n)%nat ->
  strcmp_bytes n s1 s2 m = Ret d m.
Proof.
  revert n s1 s2 l2. induction l1 as [|b1 l1 IH]; intros n s1 s2 [|b2 l2] H1 H2 Hd Hn; try done. destruct n as [|n]; [cbn in Hn; lia|].
  apply byte_cons in H1 as [E1 H1]. apply byte_cons in H2 as [E2 H2]. cbn [strcmp_bytes scmp] in *.
  rewrite (bind_run _ _ _ _ _ E1), (bind_run _ _ _ _ _ E2). destruct (negb (b1 =? 0) && (b1 =? b2)).
  - eapply IH; [done..|]. cbn in Hn. lia.
  - injection Hd as <-. done.
Qed.
Lemma strcmp_words_run n s1 s2 l1 l2 d :
  s1 mod 4 = 0 -> s2 mod 4 = 0 -> at_mem m s1 l1 -> at_mem m s2 l2 -> scmp l1 l2 = Some d -> (length l1 < n)%nat ->
  strcmp_words n s1 s2 m = Ret None m /\ d = 0 \/
  exists t1 t2 k1 k2, strcmp_words n s1 s2 m = Ret (Some (t1, t2)) m /\ at_mem m t1 k1 /\ at_mem m t2 k2 /\ scmp k1 k2 = Some d.
Proof.
  revert s1 s2 l1 l2. induction n as [|n IH]; intros s1 s2 l1 l2 Hs1 Hs2 H1 H2 Hd Hn; [lia|]. cbn [strcmp_words].
  destruct (two_words s1 s2 l1 l2) as (b0 & b1 & b2 & b3 & c0 & c1 & c2 & c3 & l1' & l2' & p1 & p2 & Eq1 & Eq2 & M1 & M2 & Hlen & R1 & R2 & W1 & W2 & Ew & En);
    [done..|by destruct l1|by destruct l1, l2|].
  rewrite (bind_run _ _ _ _ _ W1), (bind_run _ _ _ _ _ W2), Ew.
  pose proof (scmp_app _ _ p1 p2 _ Hd) as Hd'.
  destruct ((b0 =? c0) && (b1 =? c1) && (b2 =? c2) && (b3 =? c3)) eqn:E.
  - rewrite !andb_true_iff, !Z.eqb_eq in E. destruct E as (((-> & ->) & ->) & ->). rewrite En.
    rewrite Eq1, Eq2 in Hd'. cbn [scmp] in Hd'. rewrite !Z.eqb_refl, !andb_true_r in Hd'.
    destruct (c0 =? 0), (c1 =? 0), (c2 =? 0), (c3 =? 0); cbn [negb orb] in *; try (left; split; [done|]; injection Hd'; lia).
    change LBLOCKSIZE with 4. eapply (IH (s1 + 4) (s2 + 4) l1' l2'); try done; [Z.div_mod_to_equations; lia..|lia].
  - right. exists s1, s2, (l1 ++ p1), (l2 ++ p2). done.
Qed.
Lemma strcmp_run {build : StrBuild} s1 s2 l1 l2 d : at_mem m s1 l1 -> at_mem m s2 l2 -> scmp l1 l2 = Some d ->
  strcmp s1 s2 m = Ret d m.
Proof.
  intros H1 H2 Hd.
  assert (Hbytes : forall t1 t2 k1 k2, at_mem m t1 k1 -> at_mem m t2 k2 -> scmp k1 k2 = Some d -> strcmp_bytes (S (base.size m)) t1 t2 m = Ret d m).
  { intros t1 t2 k1 k2 K1 K2 Hk. eapply strcmp_bytes_run; [exact K1|exact K2|done|]. apply at_mem_size in K1. lia. }
  unfold strcmp, fuel. rewrite (bind_run _ _ _ (S (base.size m)) m) by done. destruct small_code; [by eapply Hbytes|].
  destruct (UNALIGNED2 s1 s2) eqn:E; [by eapply Hbytes|]. apply UNALIGNED2_false in E as [A1 A2].
  destruct (strcmp_words_run (S (base.size m)) s1 s2 l1 l2 d) as [[Ew ->]|(t1 & t2 & k1 & k2 & Ew & K1 & K2 & Hk)];
    [done..|apply at_mem_size in H1; lia|by rewrite (bind_run _ _ _ _ _ Ew)|].
  rewrite (bind_run _ _ _ _ _ Ew). by eapply Hbytes.
Qed.

(** One step of the byte loops, up to what they return on equality. *)
Lemma strncmp_small_run n s1 s2 l1 l2 d : at_mem m s1 l1 -> at_mem m s2 l2 -> (0 < n)%nat -> sncmp n l1 l2 = Some d ->
  strncmp_small n s1 s2 m = Ret d m /\ strncmp_bytes n s1 s2 m = Ret d m.
Proof.
  revert s1 s2 l1 l2. induction n as [|n IH]; intros s1 s2 [|b1 l1] [|b2 l2] H1 H2 Hn Hd; try lia; try done.
  apply byte_cons in H1 as [E1 H1]. apply byte_cons in H2 as [E2 H2]. cbn [strncmp_small strncmp_bytes sncmp] in *.
  rewrite !(bind_run _ _ _ _ _ E1), !(bind_run _ _ _ _ _ E2).
  destruct (Z.eqb_spec b1 b2) as [->|Hne].
  - rewrite andb_true_r in Hd. destruct (Nat.eqb_spec n 0) as [->|]; cbn [orb].
    + rewrite !(bind_run _ _ _ _ _ E1), !(bind_run _ _ _ _ _ E2). unfold ret.
      destruct (negb (b2 =? 0)); cbn in Hd; injection Hd as <-; rewrite ?Z.sub_diag; done.
    + destruct (b2 =? 0); cbn [negb] in Hd.
      * injection Hd as <-. rewrite !(bind_run _ _ _ _ _ E1), !(bind_run _ _ _ _ _ E2). unfold ret. by rewrite Z.sub_diag.
      * apply (IH _ _ l1 l2); [done..|lia|done].
  - rewrite andb_false_r in Hd. injection Hd as <-. by rewrite !(bind_run _ _ _ _ _ E1), !(bind_run _ _ _ _ _ E2).
Qed.
Lemma strncmp_words_run k s1 s2 n l1 l2 d :
  s1 mod 4 = 0 -> s2 mod 4 = 0 -> at_mem m s1 l1 -> at_mem m s2 l2 -> 0 < n -> sncmp (Z.to_nat n) l1 l2 = Some d -> n < Z.of_nat k ->
  strncmp_words k s1 s2 n m = Ret None m /\ d = 0 \/
  exists t1 t2 n' k1 k2, strncmp_words k s1 s2 n m = Ret (Some (t1, t2, n')) m /\ at_mem m t1 k1 /\ at_mem m t2 k2 /\
    0 < n' /\ sncmp (Z.to_nat n') k1 k2 = Some d.
Proof.
  revert s1 s2 n l1 l2. induction k as [|k IH]; intros s1 s2 n l1 l2 Hs1 Hs2 H1 H2 Hn Hd Hk; [lia|]. cbn [strncmp_words].
  change LBLOCKSIZE with 4. destruct (Z.leb_spec 4 n) as [H4|H4]; [|right; by exists s1, s2, n, l1, l2].
  destruct (Z.to_nat n) as [|[|[|[|j]]]] eqn:Ej; try lia.
  destruct (two_words s1 s2 l1 l2) as (b0 & b1 & b2 & b3 & c0 & c1 & c2 & c3 & l1' & l2' & p1 & p2 & Eq1 & Eq2 & M1 & M2 & Hlen & R1 & R2 & W1 & W2 & Ew & En);
    [done..|by destruct l1|by destruct l1, l2|].
  rewrite (bind_run _ _ _ _ _ W1), (bind_run _ _ _ _ _ W2), Ew.
  pose proof (sncmp_app _ _ _ p1 p2 _ Hd) as Hd'.
  destruct ((b0 =? c0) && (b1 =? c1) && (b2 =? c2) && (b3 =? c3)) eqn:E.
  - rewrite !andb_true_iff, !Z.eqb_eq in E. destruct E as (((-> & ->) & ->) & ->). rewrite En.
    rewrite Eq1, Eq2 in Hd'. cbn [sncmp] in Hd'. rewrite !Z.eqb_refl, !andb_true_r in Hd'.
    destruct (Z.eqb_spec (n - 4) 0) as [E0|E0]; cbn [orb].
    + left. split; [done|]. replace j with 0%nat in Hd' by lia. cbn [sncmp] in Hd'.
      destruct (c0 =? 0), (c1 =? 0), (c2 =? 0), (c3 =? 0); cbn [negb] in Hd'; injection Hd'; lia.
    + destruct (c0 =? 0), (c1 =? 0), (c2 =? 0), (c3 =? 0); cbn [negb orb] in *; try (left; split; [done|]; injection Hd'; lia).
      apply (IH (s1 + 4) (s2 + 4) (n - 4) l1' l2'); try done; [Z.div_mod_to_equations; lia..|lia| |lia].
      by replace (Z.to_nat (n - 4)) with j by lia.
  - right. exists s1, s2, n, (l1 ++ p1), (l2 ++ p2). rewrite Ej. done.
Qed.
Lemma newlib_strncmp_run {build : StrBuild} s1 s2 n l1 l2 d : at_mem m s1 l1 -> at_mem m s2 l2 -> 0 <= n -> sncmp (Z.to_nat n) l1 l2 = Some d ->
  strncmp s1 s2 n m = Ret d m.
Proof.
  intros H1 H2 Hn Hd. unfold strncmp. destruct (Z.eqb_spec n 0) as [->|Hn0]; [by injection Hd as <-|].
  destruct small_code; [eapply strncmp_small_run; [exact H1|exact H2|lia|done]|].
  destruct (UNALIGNED2 s1 s2) eqn:E; [eapply strncmp_small_run; [exact H1|exact H2|lia|done]|]. apply UNALIGNED2_false in E as [A1 A2].
  destruct (strncmp_words_run (S (Z.to_nat n)) s1 s2 n l1 l2 d) as [[Ew ->]|(t1 & t2 & n' & k1 & k2 & Ew & K1 & K2 & Hn' & Hk)];
    [done..|lia|done|lia|by rewrite (bind_run _ _ _ _ _ Ew)|].
  rewrite (bind_run _ _ _ _ _ Ew). eapply strncmp_small_run; [exact K1|exact K2|lia|done].
Qed.

Lemma memcmp_bytes_run n s1 s2 l1 l2 d : at_mem m s1 l1 -> at_mem m s2 l2 -> mcmp n l1 l2 = Some d -> memcmp_bytes n s1 s2 m = Ret d m.
Proof.
  revert s1 s2 l1 l2. induction n as [|n IH]; intros s1 s2 l1 l2 H1 H2 Hd; [by injection Hd as <-|].
  destruct l1 as [|b1 l1], l2 as [|b2 l2]; try done.
  apply byte_cons in H1 as [E1 H1]. apply byte_cons in H2 as [E2 H2]. cbn [memcmp_bytes mcmp] in *.
  rewrite (bind_run _ _ _ _ _ E1), (bind_run _ _ _ _ _ E2). destruct (b1 =? b2); cbn [negb]; [by eapply IH|by injection Hd as <-].
Qed.
Lemma memcmp_words_run k s1 s2 n l1 l2 d :
  s1 mod 4 = 0 -> s2 mod 4 = 0 -> at_mem m s1 l1 -> at_mem m s2 l2 -> 0 <= n -> mcmp (Z.to_nat n) l1 l2 = Some d -> n < Z.of_nat k ->
  exists t1 t2 n' k1 k2, memcmp_words k s1 s2 n m = Ret (t1, t2, n') m /\ at_mem m t1 k1 /\ at_mem m t2 k2 /\
    mcmp (Z.to_nat n') k1 k2 = Some d.
Proof.
  revert s1 s2 n l1 l2. induction k as [|k IH]; intros s1 s2 n l1 l2 Hs1 Hs2 H1 H2 Hn Hd Hk; [lia|]. cbn [memcmp_words].
  change LBLOCKSIZE with 4. destruct (Z.leb_spec 4 n) as [H4|H4]; [|by exists s1, s2, n, l1, l2].
  destruct (Z.to_nat n) as [|[|[|[|j]]]] eqn:Ej; try lia.
  destruct (two_words s1 s2 l1 l2) as (b0 & b1 & b2 & b3 & c0 & c1 & c2 & c3 & l1' & l2' & p1 & p2 & Eq1 & Eq2 & M1 & M2 & Hlen & R1 & R2 & W1 & W2 & Ew & En);
    [done..|by destruct l1|by destruct l1, l2|].
  rewrite (bind_run _ _ _ _ _ W1), (bind_run _ _ _ _ _ W2), Ew.
  pose proof (mcmp_app _ _ _ p1 p2 _ Hd) as Hd'.
  destruct ((b0 =? c0) && (b1 =? c1) && (b2 =? c2) && (b3 =? c3)) eqn:E; cbn [negb].
  - rewrite !andb_true_iff, !Z.eqb_eq in E. destruct E as (((-> & ->) & ->) & ->).
    rewrite Eq1, Eq2 in Hd'. cbn [mcmp] in Hd'. rewrite !Z.eqb_refl in Hd'.
    apply (IH (s1 + 4) (s2 + 4) (n - 4) l1' l2'); try done; [Z.div_mod_to_equations; lia..|lia| |lia].
    by replace (Z.to_nat (n - 4)) with j by lia.
  - exists s1, s2, n, (l1 ++ p1), (l2 ++ p2). rewrite Ej. done.
Qed.
Lemma memcmp_run {build : StrBuild} s1 s2 n l1 l2 d : at_mem m s1 l1 -> at_mem m s2 l2 -> 0 <= n -> mcmp (Z.to_nat n) l1 l2 = Some d ->
  memcmp s1 s2 n m = Ret d m.
Proof.
  intros H1 H2 Hn Hd. unfold memcmp. destruct small_code; [by eapply memcmp_bytes_run|].
  destruct (negb (n <? LBLOCKSIZE) && negb (UNALIGNED2 s1 s2)) eqn:E.
  - apply andb_prop in E as [_ E%negb_true_iff]. apply UNALIGNED2_false in E as [A1 A2].
    destruct (memcmp_words_run (S (Z.to_nat n)) s1 s2 n l1 l2 d) as (t1 & t2 & n' & k1 & k2 & Ew & K1 & K2 & Hk); [done..|lia|].
    rewrite (bind_run _ _ _ _ _ Ew). by eapply memcmp_bytes_run.
  - rewrite (bind_run _ _ _ (s1, s2, n) m) by done. by eapply memcmp_bytes_run.
Qed.
End strings.

(** ** Copying and filling *)

(** The memory after the bytes [l] were stored from [d] on. *)
Fixpoint put_bytes (d : Z) (l : list Z) (m : bmem) : bmem :=
  match l with [] => m | b :: l => put_bytes (d + 1) l (<[d := b]> m) end.

Lemma put_bytes_app d l1 l2 m : put_bytes d (l1 ++ l2) m = put_bytes (d + Z.of_nat (length l1)) l2 (put_bytes d l1 m).
Proof.
  revert d m. induction l1 as [|b l1 IH]; intros d m; cbn [put_bytes app length]; [by rewrite Z.add_0_r|].
  rewrite IH. f_equal. lia.
Qed.
Lemma put_bytes_lookup d l m a : put_bytes d l m !! a = if (d <=? a) && (a <? d + Z.of_nat (length l)) then l !! Z.to_nat (a - d) else m !! a.
Proof.
  revert d m. induction l as [|b l IH]; intros d m; cbn [put_bytes length].
  - destruct (Z.leb_spec d a), (Z.ltb_spec a (d + Z.of_nat 0)); try done. lia.
  - rewrite IH. destruct (Z.leb_spec (d + 1) a), (Z.leb_spec d a); try lia; cbn [andb].
    + replace (d + Z.of_nat (S (length l))) with (d + 1 + Z.of_nat (length l)) by lia.
      destruct (a <? d + 1 + Z.of_nat (length l)).
      * replace (Z.to_nat (a - d)) with (S (Z.to_nat (a - (d + 1)))) by lia. done.
      * rewrite lookup_insert_ne; [done|lia].
    + assert (a = d) as -> by lia. rewrite lookup_insert_eq, Z.sub_diag. rewrite (proj2 (Z.ltb_lt _ _)) by lia. done.
    + rewrite lookup_insert_ne; [done|lia].
Qed.
Lemma at_mem_other m m' s l : (forall a, s <= a < s + Z.of_nat (length l) -> m' !! a = m !! a) -> at_mem m s l -> at_mem m' s l.
Proof.
  revert s. induction l as [|b l IH]; intros s H; [done|]. cbn [length] in H. intros [Hb Hl]. split; [rewrite H by lia; done|].
  apply IH; [intros a Ha; apply H; lia|done].
Qed.
Lemma at_mem_put_bytes d x m s l : d + Z.of_nat (length x) <= s \/ s + Z.of_nat (length l) <= d -> at_mem m s l -> at_mem (put_bytes d x m) s l.
Proof.
  intros H. apply at_mem_other. intros a Ha. rewrite put_bytes_lookup.
  destruct (Z.leb_spec d a), (Z.ltb_spec a (d + Z.of_nat (length x))); cbn [andb]; try done. lia.
Qed.
Lemma put_same m s l : at_mem m s l -> put_bytes s l m = m.
Proof.
  revert s. induction l as [|b l IH]; intros s; [done|]. intros [Hb Hl]. cbn [put_bytes]. rewrite insert_id by done. by apply IH.
Qed.
Lemma put_at m s l : at_mem (put_bytes s l m) s l.
Proof.
  enough (H : forall k t, t = s + Z.of_nat k -> at_mem (put_bytes s l m) t (drop k l)) by (apply (H 0%nat); lia).
  intros k t ->. remember (length l - k)%nat as n eqn:En. revert k En. induction n as [|n IH]; intros k En.
  - rewrite drop_ge by lia. done.
  - destruct (lookup_lt_is_Some_2 l k ltac:(lia)) as [b Hb]. rewrite (drop_S _ _ _ Hb). split.
    + rewrite put_bytes_lookup. rewrite (proj2 (Z.leb_le _ _)), (proj2 (Z.ltb_lt _ _)) by lia. cbn [andb].
      by replace (Z.to_nat (s + Z.of_nat k - s)) with k by lia.
    + replace (s + Z.of_nat k + 1) with (s + Z.of_nat (S k)) by lia. apply IH. lia.
Qed.

(** [n] bytes of memory at [d]. *)
Definition room (m : bmem) (d : Z) (n : nat) : Prop := forall i, 0 <= i < Z.of_nat n -> is_Some (m !! (d + i)).
Lemma room_put_bytes m d n e l : room m d n -> room (put_bytes e l m) d n.
Proof.
  intros H i Hi. rewrite put_bytes_lookup. destruct (_ && _) eqn:E; [|by apply H]. apply lookup_lt_is_Some. lia.
Qed.
Lemma room_skip m d k n : room m d (k + n) -> room m (d + Z.of_nat k) n.
Proof. intros H i Hi. rewrite <- Z.add_assoc. apply H. lia. Qed.
Lemma room_take m d k n : room m d (k + n) -> room m d k.
Proof. intros H i Hi. apply H. lia. Qed.
Lemma st_run m d b : is_Some (m !! d) -> is_byte b -> st d b m = Ret tt (<[d := b]> m).
Proof. intros [x Hx] Hb. unfold st. rewrite Hx. unfold u8. change (2 ^ 8) with 256. by rewrite Z.mod_small by exact Hb. Qed.
Lemma room_insert m d n a b : room m d n -> room (<[a := b]> m) d n.
Proof. intros H i Hi. destruct (decide (a = d + i)) as [->|]; [by rewrite lookup_insert_eq|rewrite lookup_insert_ne by done; by apply H]. Qed.
Lemma stw_run m d b0 b1 b2 b3 : room m d 4 -> is_byte b0 -> is_byte b1 -> is_byte b2 -> is_byte b3 ->
  stw d (word b0 b1 b2 b3) m = Ret tt (put_bytes d [b0; b1; b2; b3] m).
Proof.
  intros Hr H0 H1 H2 H3. unfold stw. destruct (byte_of_word b0 b1 b2 b3 H0 H1 H2 H3) as (-> & -> & -> & ->).
  assert (H : forall m', room m' d 4 -> is_Some (m' !! d) /\ is_Some (m' !! (d + 1)) /\ is_Some (m' !! (d + 2)) /\ is_Some (m' !! (d + 3))).
  { intros m' Hm'. split; [rewrite <- (Z.add_0_r d); apply Hm'; lia|]. split_and!; apply Hm'; lia. }
  rewrite (bind_run _ _ _ _ _ (st_run m d b0 (proj1 (H _ Hr)) H0)). set (m1 := <[d := b0]> m).
  assert (R1 : room m1 d 4) by by apply room_insert.
  rewrite (bind_run _ _ _ _ _ (st_run m1 (d + 1) b1 ltac:(apply (H _ R1)) H1)). set (m2 := <[d + 1 := b1]> m1).
  assert (R2 : room m2 d 4) by by apply room_insert.
  rewrite (bind_run _ _ _ _ _ (st_run m2 (d + 2) b2 ltac:(apply (H _ R2)) H2)). set (m3 := <[d + 2 := b2]> m2).
  assert (R3 : room m3 d 4) by by apply room_insert.
  rewrite (st_run m3 (d + 3) b3 ltac:(apply (H _ R3)) H3). cbn [put_bytes]. unfold m3, m2, m1.
  by replace (d + 1 + 1) with (d + 2) by lia; replace (d + 2 + 1) with (d + 3) by lia.
Qed.

(** Bytes that can be copied from the front: what is stored is not read later. *)
Record copyable (m : bmem) (d s : Z) (l : list Z) : Prop := {
  cp_src : at_mem m s l;
  cp_bytes : Forall is_byte l;
  cp_room : room m d (length l);
  cp_order : d <= s \/ s + Z.of_nat (length l) <= d }.
Lemma copyable_skip m d s l1 l2 : copyable m d s (l1 ++ l2) ->
  copyable (put_bytes d l1 m) (d + Z.of_nat (length l1)) (s + Z.of_nat (length l1)) l2.
Proof.
  intros [H1 H2 H3 H4]. apply at_mem_app in H1 as [_ H1]. apply Forall_app in H2 as [_ H2]. rewrite length_app in *. split.
  - apply at_mem_put_bytes; [lia|done].
  - done.
  - by apply room_put_bytes, room_skip.
  - lia.
Qed.

Lemma copy_up_run m d s l : copyable m d s l -> copy_up (length l) d s m = Ret tt (put_bytes d l m).
Proof.
  revert m d s. induction l as [|b l IH]; intros m d s H; [done|]. pose proof (copyable_skip m d s [b] l H) as H'.
  destruct H as [[Hb _] Hby Hr _]. cbn [copy_up length put_bytes] in *. apply Forall_cons in Hby as [Hb0 _].
  rewrite (bind_run _ _ _ _ _ (ld_run _ _ _ Hb)).
  rewrite (bind_run _ _ _ _ _ (st_run m d b ltac:(rewrite <- (Z.add_0_r d); apply Hr; lia) Hb0)). by apply IH.
Qed.
Lemma copy_word_run m d s b0 b1 b2 b3 l : copyable m d s (b0 :: b1 :: b2 :: b3 :: l) ->
  copy_word d s m = Ret tt (put_bytes d [b0; b1; b2; b3] m) /\ copyable (put_bytes d [b0; b1; b2; b3] m) (d + 4) (s + 4) l.
Proof.
  intros H. split; [|exact (copyable_skip m d s [b0; b1; b2; b3] l H)]. destruct H as [H1 H2 H3 _].
  rewrite !Forall_cons in H2. destruct H2 as (? & ? & ? & ? & _). unfold copy_word. rewrite (bind_run _ _ _ _ _ (ldw_run _ _ _ _ _ _ _ H1)).
  apply stw_run; try done. exact (room_take m d 4 (length l) H3).
Qed.
(** The word loops leave a rest that the byte loop copies. *)
Definition copied (m : bmem) (d s : Z) (l : list Z) (c : M bmem (Z * Z * Z)) : Prop :=
  exists d' s' l' m', c m = Ret (d', s', Z.of_nat (length l')) m' /\ copyable m' d' s' l' /\ put_bytes d' l' m' = put_bytes d l m.
Lemma copy_words_run k m d s l : copyable m d s l -> (length l < k)%nat -> copied m d s l (copy_words k d s (Z.of_nat (length l))).
Proof.
  revert m d s l. induction k as [|k IH]; intros m d s l H Hk; [lia|]. unfold copied. cbn [copy_words]. change LBLOCKSIZE with 4.
  destruct (Z.leb_spec 4 (Z.of_nat (length l))); [|by exists d, s, l, m].
  destruct l as [|b0 [|b1 [|b2 [|b3 l]]]]; cbn [length] in *; try lia.
  destruct (copy_word_run _ _ _ _ _ _ _ _ H) as [E Hc]. rewrite (bind_run _ _ _ _ _ E).
  replace (Z.of_nat (S (S (S (S (length l))))) - 4) with (Z.of_nat (length l)) by lia.
  destruct (IH _ _ _ l Hc) as (d' & s' & l' & m' & E' & Hc' & Hb); [lia|]. exists d', s', l', m'. split_and!; [done|done|]. rewrite Hb.
  change (b0 :: b1 :: b2 :: b3 :: l) with ([b0; b1; b2; b3] ++ l). by rewrite put_bytes_app.
Qed.
Lemma copy_blocks_run k m d s l : copyable m d s l -> (length l < k)%nat -> copied m d s l (copy_blocks k d s (Z.of_nat (length l))).
Proof.
  revert m d s l. induction k as [|k IH]; intros m d s l H Hk; [lia|]. cbn [copy_blocks]. change BIGBLOCKSIZE with 16. unfold copied.
  destruct (Z.leb_spec 16 (Z.of_nat (length l))) as [Hle|Hle]; [|apply copy_words_run; [done|rewrite Nat2Z.id; lia]].
  destruct l as [|b0 [|b1 [|b2 [|b3 l]]]]; cbn [length] in *; try lia. destruct (copy_word_run _ _ _ _ _ _ _ _ H) as [E0 H0].
  destruct l as [|b4 [|b5 [|b6 [|b7 l]]]]; cbn [length] in *; try lia. destruct (copy_word_run _ _ _ _ _ _ _ _ H0) as [E1 H1].
  destruct l as [|b8 [|b9 [|b10 [|b11 l]]]]; cbn [length] in *; try lia. destruct (copy_word_run _ _ _ _ _ _ _ _ H1) as [E2 H2].
  destruct l as [|b12 [|b13 [|b14 [|b15 l]]]]; cbn [length] in *; try lia. destruct (copy_word_run _ _ _ _ _ _ _ _ H2) as [E3 H3].
  rewrite (bind_run _ _ _ _ _ E0), (bind_run _ _ _ _ _ E1).
  replace (d + 8) with (d + 4 + 4) by lia. replace (s + 8) with (s + 4 + 4) by lia. rewrite (bind_run _ _ _ _ _ E2).
  replace (d + 12) with (d + 4 + 4 + 4) by lia. replace (s + 12) with (s + 4 + 4 + 4) by lia. rewrite (bind_run _ _ _ _ _ E3).
  replace (d + 16) with (d + 4 + 4 + 4 + 4) by lia. replace (s + 16) with (s + 4 + 4 + 4 + 4) by lia.
  match goal with |- context [copy_blocks k _ _ ?x] => replace x with (Z.of_nat (length l)) by lia end.
  destruct (IH _ _ _ l H3) as (d' & s' & l' & m' & E' & Hc' & Hb); [lia|]. exists d', s', l', m'. split_and!; [done|done|]. rewrite Hb.
  change (b0 :: b1 :: b2 :: b3 :: b4 :: b5 :: b6 :: b7 :: b8 :: b9 :: b10 :: b11 :: b12 :: b13 :: b14 :: b15 :: l)
    with ([b0; b1; b2; b3] ++ [b4; b5; b6; b7] ++ [b8; b9; b10; b11] ++ [b12; b13; b14; b15] ++ l).
  by rewrite !put_bytes_app.
Qed.
Lemma copy_fast_run m d s l : copyable m d s l -> copy_fast d s (Z.of_nat (length l)) m = Ret tt (put_bytes d l m).
Proof.
  intros H. unfold copy_fast. destruct (negb (Z.of_nat (length l) <? BIGBLOCKSIZE) && negb (UNALIGNED2 s d)).
  - destruct (copy_blocks_run (S (Z.to_nat (Z.of_nat (length l)))) m d s l H) as (d' & s' & l' & m' & E & Hc & Hb); [lia|].
    rewrite (bind_run _ _ _ _ _ E), Nat2Z.id, <- Hb. by apply copy_up_run.
  - rewrite (bind_run _ _ _ (d, s, Z.of_nat (length l)) m) by done. rewrite Nat2Z.id. by apply copy_up_run.
Qed.
Lemma memcpy_run {build : StrBuild} m d s l : copyable m d s l -> memcpy d s (Z.of_nat (length l)) m = Ret d (put_bytes d l m).
Proof.
  intros H. unfold memcpy. rewrite (bind_run _ _ _ tt (put_bytes d l m)); [done|].
  destruct small_code; [rewrite Nat2Z.id; by apply copy_up_run|by apply copy_fast_run].
Qed.

(** ** memmove *)

Lemma copy_down_run m d s l : s <= d -> at_mem m s l -> Forall is_byte l -> room m d (length l) ->
  copy_down (length l) (d + Z.of_nat (length l)) (s + Z.of_nat (length l)) m = Ret tt (put_bytes d l m).
Proof.
  revert m. induction l as [|b l IH] using rev_ind; intros m Hds Hs Hb Hr; [done|].
  rewrite length_app, Nat.add_1_r. cbn [copy_down]. apply at_mem_app in Hs as [Hs [Hx _]]. apply Forall_app in Hb as [Hb [Hbx _]%Forall_cons].
  rewrite length_app in Hr. cbn [length] in Hr.
  replace (s + Z.of_nat (S (length l)) - 1) with (s + Z.of_nat (length l)) by lia.
  replace (d + Z.of_nat (S (length l)) - 1) with (d + Z.of_nat (length l)) by lia.
  rewrite (bind_run _ _ _ _ _ (ld_run _ _ _ Hx)), (bind_run _ _ _ _ _ (st_run m (d + Z.of_nat (length l)) b ltac:(apply Hr; lia) Hbx)).
  rewrite IH; [|done| |done|by eapply room_insert, room_take].
  - f_equal. apply map_eq. intros a. rewrite !put_bytes_lookup, length_app. cbn [length].
    destruct (Z.leb_spec d a), (Z.ltb_spec a (d + Z.of_nat (length l))), (Z.ltb_spec a (d + Z.of_nat (length l + 1))); cbn [andb]; try lia.
    + rewrite lookup_app_l by lia. done.
    + assert (a = d + Z.of_nat (length l)) as -> by lia. rewrite lookup_insert_eq, lookup_app_r by lia.
      by replace (Z.to_nat (d + Z.of_nat (length l) - d) - length l)%nat with 0%nat by lia.
    + rewrite lookup_insert_ne by lia. done.
    + rewrite lookup_insert_ne by lia. done.
  - eapply at_mem_other; [|done]. intros a Ha. rewrite lookup_insert_ne by lia. done.
Qed.
Lemma memmove_run {build : StrBuild} m d s l : at_mem m s l -> Forall is_byte l -> room m d (length l) ->
  memmove d s (Z.of_nat (length l)) m = Ret d (put_bytes d l m).
Proof.
  intros Hs Hb Hr. unfold memmove. rewrite Nat2Z.id.
  rewrite (bind_run _ _ _ tt (put_bytes d l m)); [done|].
  destruct (Z.ltb_spec s d), (Z.ltb_spec d (s + Z.of_nat (length l))); cbn [andb]; [apply copy_down_run; [lia|done..]|..];
    (assert (copyable m d s l) by (split; [done..|lia]); destruct small_code; [by apply copy_up_run|by apply copy_fast_run]).
Qed.

(** ** memset *)

Lemma is_byte_u8 c : is_byte (u8 c).
Proof. apply Z.mod_pos_bound. done. Qed.
Lemma st_u8 d c m : st d (u8 c) m = st d c m.
Proof. unfold st, u8. destruct (m !! d); [|done]. by rewrite Zmod_mod. Qed.
Lemma fill_run m n s c : room m s n -> fill n s c m = Ret tt (put_bytes s (replicate n (u8 c)) m).
Proof.
  revert m s. induction n as [|n IH]; intros m s Hr; [done|]. cbn [fill replicate put_bytes].
  rewrite (bind_run _ _ _ tt (<[s := u8 c]> m)).
  - apply IH. apply room_insert, (room_skip _ _ 1), Hr.
  - rewrite <- st_u8. apply st_run; [rewrite <- (Z.add_0_r s); apply Hr; lia|apply is_byte_u8].
Qed.

(** What is left to fill after a part of the loops. *)
Definition to_fill (m : bmem) (s b n : Z) (m' : bmem) (s' n' : Z) : Prop :=
  0 <= n' /\ room m' s' (Z.to_nat n') /\ put_bytes s' (replicate (Z.to_nat n') b) m' = put_bytes s (replicate (Z.to_nat n) b) m.
Lemma to_fill_step m s b n k : room m s (Z.to_nat n) -> 0 <= k <= n ->
  to_fill m s b n (put_bytes s (replicate (Z.to_nat k) b) m) (s + k) (n - k).
Proof.
  intros Hr Hk. split_and!; [lia| |].
  - apply room_put_bytes. replace k with (Z.of_nat (Z.to_nat k)) at 1 by lia. apply room_skip.
    by replace (Z.to_nat k + Z.to_nat (n - k))%nat with (Z.to_nat n) by lia.
  - replace (Z.to_nat n) with (Z.to_nat k + Z.to_nat (n - k))%nat by lia. rewrite replicate_add, put_bytes_app, length_replicate.
    by replace (Z.of_nat (Z.to_nat k)) with k by lia.
Qed.
Lemma to_fill_trans m s b n m1 s1 n1 m2 s2 n2 :
  to_fill m s b n m1 s1 n1 -> to_fill m1 s1 b n1 m2 s2 n2 -> to_fill m s b n m2 s2 n2.
Proof. intros (_ & _ & E1) (? & ? & E2). split_and!; [done..|by rewrite E2]. Qed.
Lemma to_fill_refl m s b n : 0 <= n -> room m s (Z.to_nat n) -> to_fill m s b n m s n.
Proof. intros ? ?. split; [done|split; done]. Qed.

Lemma stw_mask m s b n : is_byte b -> room m s (Z.to_nat n) -> 4 <= n ->
  stw s (char_mask b) m = Ret tt (put_bytes s (replicate 4 b) m) /\ to_fill m s b n (put_bytes s (replicate 4 b) m) (s + 4) (n - 4).
Proof.
  intros Hb Hr Hn. split; [|apply (to_fill_step m s b n 4); [done|lia]]. rewrite char_mask_word by done.
  apply stw_run; [|done..]. intros i Hi. apply Hr. lia.
Qed.
Lemma fill_words_run k m s b n : is_byte b -> room m s (Z.to_nat n) -> 0 <= n < Z.of_nat k ->
  exists m' s' n', fill_words k s (char_mask b) n m = Ret (s', n') m' /\ to_fill m s b n m' s' n'.
Proof.
  intros Hb. revert m s n. induction k as [|k IH]; intros m s n Hr Hn; [lia|]. cbn [fill_words]. change LBLOCKSIZE with 4.
  destruct (Z.leb_spec 4 n) as [H4|H4]; [|exists m, s, n; split; [done|apply to_fill_refl; [lia|done]]].
  destruct (stw_mask m s b n Hb Hr H4) as [E Hf]. rewrite (bind_run _ _ _ _ _ E).
  destruct (IH (put_bytes s (replicate 4 b) m) (s + 4) (n - 4)) as (m' & s' & n' & E' & H'); [apply Hf|lia|].
  exists m', s', n'. split; [done|]. by eapply to_fill_trans.
Qed.
Lemma fill_blocks_run k m s b n : is_byte b -> room m s (Z.to_nat n) -> 0 <= n < Z.of_nat k ->
  exists m' s' n', fill_blocks k s (char_mask b) n m = Ret (s', n') m' /\ to_fill m s b n m' s' n'.
Proof.
  intros Hb. revert m s n. induction k as [|k IH]; intros m s n Hr Hn; [lia|]. cbn [fill_blocks]. change (LBLOCKSIZE * 4) with 16.
  destruct (Z.leb_spec 16 n) as [H16|H16]; [|apply fill_words_run; [done..|lia]].
  destruct (stw_mask m s b n Hb Hr ltac:(lia)) as [E0 F0]. set (m0 := put_bytes s _ m) in *.
  destruct (stw_mask m0 (s + 4) b (n - 4) Hb (proj1 (proj2 F0)) ltac:(lia)) as [E1 F1]. set (m1 := put_bytes (s + 4) _ m0) in *.
  destruct (stw_mask m1 (s + 4 + 4) b (n - 4 - 4) Hb (proj1 (proj2 F1)) ltac:(lia)) as [E2 F2]. set (m2 := put_bytes (s + 4 + 4) _ m1) in *.
  destruct (stw_mask m2 (s + 4 + 4 + 4) b (n - 4 - 4 - 4) Hb (proj1 (proj2 F2)) ltac:(lia)) as [E3 F3]. set (m3 := put_bytes (s + 4 + 4 + 4) _ m2) in *.
  pose proof (to_fill_trans _ _ _ _ _ _ _ _ _ _ F0 (to_fill_trans _ _ _ _ _ _ _ _ _ _ F1 (to_fill_trans _ _ _ _ _ _ _ _ _ _ F2 F3))) as F.
  rewrite (bind_run _ _ _ _ _ E0), (bind_run _ _ _ _ _ E1).
  replace (s + 8) with (s + 4 + 4) by lia. rewrite (bind_run _ _ _ _ _ E2).
  replace (s + 12) with (s + 4 + 4 + 4) by lia. rewrite (bind_run _ _ _ _ _ E3).
  replace (s + 16) with (s + 4 + 4 + 4 + 4) by lia. change (4 * LBLOCKSIZE) with 16. replace (n - 16) with (n - 4 - 4 - 4 - 4) by lia.
  destruct (IH m3 (s + 4 + 4 + 4 + 4) (n - 4 - 4 - 4 - 4)) as (m' & s' & n' & E' & H'); [apply F|lia|].
  exists m', s', n'. split; [done|]. by eapply to_fill_trans.
Qed.
Lemma memset_align_run k m s c n : room m s (Z.to_nat n) -> 0 <= n -> (- s) mod 4 < Z.of_nat k ->
  match memset_align k s c n m with
  | Ret None m' => m' = put_bytes s (replicate (Z.to_nat n) (u8 c)) m
  | Ret (Some (s', n')) m' => to_fill m s (u8 c) n m' s' n'
  | _ => False
  end.
Proof.
  revert m s n. induction k as [|k IH]; intros m s n Hr Hn Hk; [pose proof (Z.mod_pos_bound (- s) 4); lia|]. cbn [memset_align].
  rewrite UNALIGNED_mod. destruct (Z.eqb_spec (s mod 4) 0) as [E|E]; cbn [negb]; [by apply to_fill_refl|].
  destruct (Z.eqb_spec n 0) as [->|Hn0]; [done|].
  pose proof (to_fill_step m s (u8 c) n 1 Hr ltac:(lia)) as Hf. cbn [replicate Z.to_nat Pos.to_nat Pos.iter_op put_bytes] in Hf.
  rewrite (bind_run _ _ _ tt (<[s := u8 c]> m)).
  2: { rewrite <- st_u8. apply st_run; [rewrite <- (Z.add_0_r s); apply Hr; lia|apply is_byte_u8]. }
  specialize (IH (<[s := u8 c]> m) (s + 1) (n - 1) ltac:(apply Hf) ltac:(lia) ltac:(Z.div_mod_to_equations; lia)).
  destruct (memset_align k (s + 1) c (n - 1) (<[s := u8 c]> m)) as [[[s' n']|] m'| | |]; try done.
  - by eapply to_fill_trans.
  - rewrite IH. apply Hf.
Qed.
Lemma memset_run {build : StrBuild} m s c n : room m s n ->
  memset s c (Z.of_nat n) m = Ret s (put_bytes s (replicate n (u8 c)) m).
Proof.
  intros Hr. unfold memset. destruct small_code.
  { rewrite Nat2Z.id. by rewrite (bind_run _ _ _ _ _ (fill_run m n s c Hr)). }
  pose proof (memset_align_run 4 m s c (Z.of_nat n) ltac:(by rewrite Nat2Z.id) ltac:(lia) (align_fuel s)) as H.
  destruct (memset_align 4 s c (Z.of_nat n) m) as [[[s' n']|] m'| | |] eqn:E; try done; rewrite (bind_run _ _ _ _ _ E), ?Nat2Z.id in *; [|by rewrite H].
  replace (Z.land c 0xff) with (u8 c) by (symmetry; apply (Z.land_ones c 8); done).
  assert (X : exists m2 s2 n2, (if n' <? LBLOCKSIZE then ret (s', n') else fill_blocks (S (Z.to_nat n')) s' (char_mask (u8 c)) n') m' = Ret (s2, n2) m2 /\
    to_fill m' s' (u8 c) n' m2 s2 n2).
  { destruct H as (Hn' & Hr' & _). destruct (n' <? LBLOCKSIZE); [by exists m', s', n'|]. apply fill_blocks_run; [apply is_byte_u8|done|lia]. }
  destruct X as (m2 & s2 & n2 & E2 & F2). rewrite (bind_run _ _ _ _ _ E2).
  pose proof (to_fill_trans _ _ _ _ _ _ _ _ _ _ H F2) as (_ & Hr2 & Eb). rewrite (bind_run _ _ _ _ _ (fill_run _ _ _ _ Hr2)), Eb, Nat2Z.id. done.
Qed.

(** ** Bounded strings *)

(** The bytes before the first zero byte. *)
Fixpoint str_prefix (l : list Z) : list Z :=
  match l with [] => [] | b :: l => if b =? 0 then [] else b :: str_prefix l end.
Lemma str_prefix_nonzero l : Forall (fun x => x <> 0) l -> str_prefix l = l.
Proof. induction 1 as [|b l Hb _ IH]; [done|]. cbn [str_prefix]. by rewrite (proj2 (Z.eqb_neq _ _) Hb), IH. Qed.
Lemma str_prefix_app l1 l2 : Forall (fun x => x <> 0) l1 -> str_prefix (l1 ++ l2) = l1 ++ str_prefix l2.
Proof. induction 1 as [|b l Hb _ IH]; [done|]. cbn [str_prefix app]. by rewrite (proj2 (Z.eqb_neq _ _) Hb), IH. Qed.

Lemma strnlen_loop_run m n s l r : at_mem m s l -> (n <= length l)%nat \/ l = r ++ [0] ->
  strnlen_loop n s m = Ret (s + Z.of_nat (length (str_prefix (take n l)))) m.
Proof.
  revert s l r. induction n as [|n IH]; intros s l r Hl Hn; cbn [strnlen_loop]; [by rewrite Z.add_0_r|].
  destruct l as [|b l]; [destruct Hn as [Hn|Hn]; [cbn in Hn; lia|by destruct r]|]. apply byte_cons in Hl as [Hb Hl].
  rewrite (bind_run _ _ _ _ _ Hb). cbn [take str_prefix]. destruct (Z.eqb_spec b 0); [unfold ret; cbn [length]; f_equal; lia|].
  rewrite (IH (s + 1) l (tail r)); [cbn [length]; f_equal; lia|done|].
  destruct Hn as [Hn|Hn]; [left; cbn in Hn; lia|]. destruct r as [|b' r]; cbn in Hn; injection Hn as ? ->; [done|by right].
Qed.
Lemma strnlen_run m n s l r : at_mem m s l -> (n <= length l)%nat \/ l = r ++ [0] ->
  strnlen s (Z.of_nat n) m = Ret (Z.of_nat (length (str_prefix (take n l)))) m.
Proof.
  intros Hl Hn. unfold strnlen. rewrite Nat2Z.id, (bind_run _ _ _ _ _ (strnlen_loop_run m n s l r Hl Hn)). unfold ret. f_equal. lia.
Qed.

(** The copy of a string and the string do not meet. *)
Definition apart (d : Z) (k : nat) (s : Z) (l : list Z) : Prop :=
  k = 0%nat \/ d + Z.of_nat k <= s \/ s + Z.of_nat (length l) + 1 <= d.
Lemma cstr_put_bytes m d x s l : apart d (length x) s l -> cstr m s l -> cstr (put_bytes d x m) s l.
Proof.
  intros Ha [H1 H2]. split; [|done]. destruct x as [|b x]; [done|]. apply at_mem_put_bytes; [|done]. rewrite length_app.
  unfold apart in Ha. cbn [length] in *. lia.
Qed.
Lemma cstr_skip m s l1 l2 : cstr m s (l1 ++ l2) -> cstr m (s + Z.of_nat (length l1)) l2.
Proof. intros [H1 H2]. rewrite <- app_assoc in H1. apply at_mem_app in H1 as [_ H1]. apply Forall_app in H2 as [_ H2]. by split. Qed.
Lemma cstr_end m s l n : cstr m s l -> (base.size m <= n)%nat -> byte_loop n (Z.eqb 0) s m = Ret (s + Z.of_nat (length l)) m.
Proof.
  intros H%cstr_first Hn. apply byte_loop_run with (b := 0); [done|]. pose proof (first_size _ _ _ _ _ H). lia.
Qed.
Lemma cstr_bytes m s l : bytes_ok m -> cstr m s l -> Forall is_byte l.
Proof. intros Hm [H _]. apply (at_mem_bytes m s) in H; [|done]. by apply Forall_app in H as [? _]. Qed.
Lemma size_put_bytes m d l : room m d (length l) -> base.size (put_bytes d l m) = base.size m.
Proof.
  revert m d. induction l as [|b l IH]; intros m d Hr; [done|]. cbn [put_bytes].
  rewrite IH by (apply room_insert, (room_skip _ _ 1), Hr). apply map_size_insert_Some. rewrite <- (Z.add_0_r d). apply Hr. cbn [length]. lia.
Qed.

(** [strlcpy] stores what fits of the string. *)
Lemma strlcpy_loop_run m n d s l : cstr m s l -> Forall is_byte l -> apart d (Nat.min n (S (length l))) s l -> room m d (Nat.min n (S (length l))) ->
  strlcpy_loop n d s m =
    if bool_decide (length l < n)%nat then Ret (d + Z.of_nat (S (length l)), s + Z.of_nat (S (length l)), true) (put_bytes d (l ++ [0]) m)
    else Ret (d + Z.of_nat n, s + Z.of_nat n, false) (put_bytes d (take n l) m).
Proof.
  revert m d s l. induction n as [|n IH]; intros m d s l Hs Hb Ha Hr; cbn [strlcpy_loop Nat.min] in *; [by rewrite !Z.add_0_r|].
  assert (Hd : is_Some (m !! d)) by (rewrite <- (Z.add_0_r d); apply Hr; lia).
  destruct l as [|b l].
  - destruct Hs as [[Hx _] _]. rewrite (bind_run _ _ _ _ _ (ld_run _ _ _ Hx)), (bind_run _ _ _ _ _ (st_run _ _ _ Hd ltac:(done))).
    cbn [Z.eqb length app put_bytes]. by rewrite bool_decide_true by lia.
  - apply Forall_cons in Hb as [Hb0 Hb]. cbn [length] in *.
    assert (Hs' : cstr (<[d := b]> m) (s + 1) l).
    { apply (cstr_skip _ _ [b] l), (cstr_put_bytes _ d [b]); [|done]. unfold apart in *. cbn [length app] in *. lia. }
    destruct Hs as [[Hx _] [Hb1 _]%Forall_cons]. rewrite (bind_run _ _ _ _ _ (ld_run _ _ _ Hx)), (bind_run _ _ _ _ _ (st_run _ _ _ Hd Hb0)).
    rewrite (proj2 (Z.eqb_neq b 0) Hb1). rewrite (IH _ _ _ l); [|done|done|unfold apart in *; cbn [length] in *; lia|].
    2: { apply room_insert, (room_skip m d 1), Hr. }
    cbn [take app put_bytes]. destruct (decide (length l < n)%nat); [rewrite !bool_decide_true by lia|rewrite !bool_decide_false by lia];
      (f_equal; f_equal; f_equal; lia).
Qed.
Definition strlcpy_bytes (siz : nat) (l : list Z) : list Z := match siz with O => [] | S n => take n l ++ [0] end.
Lemma strlcpy_run m siz d s l : bytes_ok m -> cstr m s l -> apart d (length (strlcpy_bytes siz l)) s l -> room m d (length (strlcpy_bytes siz l)) ->
  strlcpy d s (Z.of_nat siz) m = Ret (Z.of_nat (length l)) (put_bytes d (strlcpy_bytes siz l) m).
Proof.
  intros Hm Hs Ha Hr. pose proof (cstr_bytes _ _ _ Hm Hs) as Hb.
  unfold strlcpy, fuel. rewrite (bind_run _ _ _ (S (base.size m)) m) by done.
  destruct siz as [|n]; cbn [strlcpy_bytes] in *.
  { cbn [Z.to_nat Z.of_nat Z.sub Z.add Z.opp strlcpy_loop]. rewrite (bind_run _ _ _ (d, s, false) m) by done. cbn [Z.eqb negb when].
    rewrite (bind_run _ _ _ (s + Z.of_nat (length l) + 1) m); [unfold ret; cbn [put_bytes]; f_equal; lia|].
    rewrite (bind_run _ _ _ tt m) by done. by rewrite (bind_run _ _ _ _ _ (cstr_end m s l (S (base.size m)) Hs ltac:(lia))). }
  replace (Z.to_nat (Z.of_nat (S n) - 1)) with n by lia. rewrite length_app, length_take in Ha, Hr. cbn [length] in Ha, Hr.
  pose proof (strlcpy_loop_run m n d s l Hs Hb) as E.
  rewrite bool_decide_decide in E. destruct (decide (length l < n)%nat) as [Hl|Hl].
  - rewrite (bind_run _ _ _ _ _ (E ltac:(unfold apart in *; lia) ltac:(intros i Hi; apply Hr; lia))).
    rewrite (bind_run _ _ _ (s + Z.of_nat (S (length l))) (put_bytes d (l ++ [0]) m)) by done.
    rewrite take_ge by lia. unfold ret. f_equal. lia.
  - rewrite (bind_run _ _ _ _ _ (E ltac:(unfold apart in *; lia) ltac:(intros i Hi; apply Hr; lia))).
    rewrite (proj2 (Z.eqb_neq _ _)) by lia. cbn [negb when].
    assert (Hn : length (take n l) = n) by (rewrite length_take; lia).
    assert (Hs' : cstr (put_bytes d (take n l ++ [0]) m) (s + Z.of_nat n) (drop n l)).
    { rewrite <- Hn at 2. apply (cstr_skip _ _ (take n l)). rewrite take_drop. apply cstr_put_bytes; [|done]. rewrite length_app, Hn. unfold apart in *. cbn [length]. lia. }
    erewrite bind_run; [unfold ret; f_equal|].
    2: { rewrite (bind_run _ _ _ tt (put_bytes d (take n l ++ [0]) m)).
         - rewrite (bind_run _ _ _ _ _ (cstr_end _ _ _ (S (base.size m)) Hs' ltac:(rewrite size_put_bytes by (rewrite length_app, Hn; intros i Hi; apply Hr; cbn [length] in *; lia); lia))). done.
         - rewrite st_run; [|apply room_put_bytes with (n := S n) (d := d); [intros i Hi; apply Hr; lia|lia]|done].
           by rewrite put_bytes_app, Hn. }
    rewrite length_drop. lia.
Qed.

Lemma strlcat_loop_run m k n d s l : cstr m s l -> Forall is_byte l -> apart d (length (take n l)) s l -> room m d (length (take n l)) ->
  (length l < k)%nat ->
  strlcat_loop k d s (Z.of_nat (S n)) m = Ret (d + Z.of_nat (length (take n l)), s + Z.of_nat (length l)) (put_bytes d (take n l) m).
Proof.
  revert m n d s l. induction k as [|k IH]; intros m n d s l Hs Hb Ha Hr Hk; [lia|]. cbn [strlcat_loop].
  destruct l as [|b l].
  { destruct Hs as [[Hx _] _]. rewrite (bind_run _ _ _ _ _ (ld_run _ _ _ Hx)). cbn [Z.eqb]. rewrite take_nil. cbn [length put_bytes].
    unfold ret. by rewrite !Z.add_0_r. }
  pose proof (cstr_skip _ _ [b] l Hs) as Hs'. cbn [length Z.of_nat] in Hs'. apply Forall_cons in Hb as [Hb0 Hb]. cbn [length] in Hk.
  destruct Hs as [[Hx _] [Hb1 _]%Forall_cons]. rewrite (bind_run _ _ _ _ _ (ld_run _ _ _ Hx)), (proj2 (Z.eqb_neq b 0) Hb1).
  destruct n as [|n]; cbn [take length] in *.
  - change (Z.of_nat 1 =? 1) with true. cbn [negb]. rewrite (IH m 0%nat d (s + 1) l); [|done|done|unfold apart in *; rewrite firstn_O; cbn [length] in *; lia|done|lia].
    rewrite firstn_O. cbn [take length put_bytes]. f_equal. f_equal. lia.
  - rewrite (proj2 (Z.eqb_neq _ _)) by lia. cbn [negb].
    rewrite (bind_run _ _ _ _ _ (st_run m d b ltac:(rewrite <- (Z.add_0_r d); apply Hr; lia) Hb0)).
    replace (Z.of_nat (S (S n)) - 1) with (Z.of_nat (S n)) by lia.
    rewrite (IH _ n (d + 1) (s + 1) l); [|apply (cstr_put_bytes _ d [b]); [unfold apart in *; cbn [length] in *; lia|done]|done| | |lia].
    + cbn [put_bytes]. f_equal. f_equal; lia.
    + unfold apart in *. cbn [length] in *. lia.
    + apply room_insert, (room_skip m d 1), Hr.
Qed.

(** [strlcat] appends what fits of the string; when no end is found in the buffer it
    stores nothing. *)
Definition strlcat_bytes (siz : nat) (x l : list Z) : list Z := strlcpy_bytes (siz - length x) l.
Lemma strlcat_run {build : StrBuild} m siz d x s l : bytes_ok m -> word_closed m -> cstr m s l ->
  at_mem m d x /\ Forall (fun b => b <> 0) x -> length x = siz \/ (length x < siz)%nat /\ m !! (d + Z.of_nat (length x)) = Some 0 ->
  apart (d + Z.of_nat (length x)) (length (strlcat_bytes siz x l)) s l ->
  room m (d + Z.of_nat (length x)) (length (strlcat_bytes siz x l)) ->
  strlcat d s (Z.of_nat siz) m = Ret (Z.of_nat (length x + length l)) (put_bytes (d + Z.of_nat (length x)) (strlcat_bytes siz x l) m).
Proof.
  intros Hm Hw Hs [Hx Hnz] Hend Ha Hr. pose proof (cstr_bytes _ _ _ Hm Hs) as Hb.
  unfold strlcat, fuel. rewrite (bind_run _ _ _ (S (base.size m)) m) by done. rewrite Nat2Z.id.
  assert (E : strnlen_loop siz d m = Ret (d + Z.of_nat (length x)) m).
  { destruct Hend as [<-|[Hlt H0]].
    - rewrite (strnlen_loop_run m (length x) d x [] Hx) by (by left). by rewrite firstn_all, str_prefix_nonzero.
    - rewrite (strnlen_loop_run m siz d (x ++ [0]) x); [|by apply at_mem_app|by right].
      rewrite take_ge by (rewrite length_app; cbn [length]; lia). rewrite str_prefix_app by done. cbn [str_prefix Z.eqb]. by rewrite app_nil_r. }
  rewrite (bind_run _ _ _ _ _ E). unfold strlcat_bytes in *. replace (d + Z.of_nat (length x) - d) with (Z.of_nat (length x)) by lia.
  destruct Hend as [<-|[Hlt H0]].
  - rewrite Z.sub_diag, Nat.sub_diag. cbn [Z.eqb strlcpy_bytes put_bytes]. rewrite (bind_run _ _ _ _ _ (strlen_run m Hm Hw s l Hs)). unfold ret. f_equal. lia.
  - rewrite (proj2 (Z.eqb_neq _ _)) by lia. destruct (siz - length x)%nat as [|n] eqn:En; [lia|]. cbn [strlcpy_bytes] in *.
    replace (Z.of_nat siz - Z.of_nat (length x)) with (Z.of_nat (S n)) by lia. rewrite length_app in Ha, Hr. cbn [length] in Ha, Hr.
    erewrite bind_run; [|apply strlcat_loop_run; [done|done|unfold apart in *; lia|by eapply room_take|]].
    2: { destruct Hs as [Hs _]. apply at_mem_size in Hs. rewrite length_app in Hs. cbn [length] in Hs. lia. }
    cbn beta iota. rewrite (bind_run _ _ _ tt (put_bytes (d + Z.of_nat (length x)) (take n l ++ [0]) m)).
    + unfold ret. f_equal. lia.
    + rewrite st_run; [by rewrite put_bytes_app| |done].
      eapply (room_put_bytes m _ _ _ _ Hr (Z.of_nat (length (take n l)))). lia.
Qed.

(** ** Comparing in constant time *)

Lemma compare_loop_run m n s1 s2 l1 l2 res : at_mem m s1 l1 -> at_mem m s2 l2 -> length l1 = n -> length l2 = n ->
  Forall is_byte l1 -> Forall is_byte l2 -> is_byte res ->
  exists res', compare_loop n s1 s2 res m = Ret res' m /\ is_byte res' /\ (res' = 0 <-> res = 0 /\ l1 = l2).
Proof.
  revert s1 s2 l1 l2 res. induction n as [|n IH]; intros s1 s2 [|b1 l1] [|b2 l2] res H1 H2 E1 E2 B1 B2 Hr; cbn [length] in *; try lia.
  { exists res. split; [done|]. split; [done|tauto]. }
  apply byte_cons in H1 as [L1 H1]. apply byte_cons in H2 as [L2 H2]. apply Forall_cons in B1 as [B1 B1']. apply Forall_cons in B2 as [B2 B2'].
  cbn [compare_loop]. rewrite (bind_run _ _ _ _ _ L1), (bind_run _ _ _ _ _ L2).
  destruct (IH (s1 + 1) (s2 + 1) l1 l2 (Z.lor res (Z.lxor b1 b2))) as (r & E & Hr' & H); [done..|lia|lia|done|done| |].
  - pose proof (is_byte_lxor _ _ B1 B2) as X. unfold is_byte in *. split; [apply Z.lor_nonneg; split; [apply Hr|apply X]|].
    destruct (Z.eq_dec (Z.lor res (Z.lxor b1 b2)) 0) as [->|Hne]; [done|]. apply (Z.log2_lt_pow2 _ 8); [|].
    { pose proof (proj2 (Z.lor_nonneg res (Z.lxor b1 b2)) ltac:(lia)). lia. }
    rewrite Z.log2_lor by lia. apply Z.max_lub_lt.
    + destruct (Z.eq_dec res 0) as [->|]; [done|]. apply Z.log2_lt_pow2; lia.
    + destruct (Z.eq_dec (Z.lxor b1 b2) 0) as [->|]; [done|]. apply Z.log2_lt_pow2; lia.
  - exists r. split; [done|]. split; [done|]. rewrite H, Z.lor_eq_0_iff, Z.lxor_eq_0_iff.
    split; [intros [[-> ->] ->]; done|intros [-> [= -> ->]]; done].
Qed.
Lemma fold_bits b : is_byte b ->
  let r := Z.lor b (Z.shiftr b 4) in let r := Z.lor r (Z.shiftr r 2) in let r := Z.lor r (Z.shiftr r 1) in
  Z.land r 1 = if b =? 0 then 0 else 1.
Proof.
  intros Hb. cbv zeta. apply Z.eqb_eq.
  set (f := fun b => Z.land (Z.lor (Z.lor (Z.lor b (Z.shiftr b 4)) (Z.shiftr (Z.lor b (Z.shiftr b 4)) 2))
    (Z.shiftr (Z.lor (Z.lor b (Z.shiftr b 4)) (Z.shiftr (Z.lor b (Z.shiftr b 4)) 2)) 1)) 1 =? (if b =? 0 then 0 else 1)).
  assert (H : forallb f (seqZ 0 256) = true) by (vm_compute; done).
  rewrite forallb_forall in H. apply (H b), list_elem_of_In, elem_of_seqZ. unfold is_byte in Hb. lia.
Qed.
Lemma buf_compare_ct_run m s1 s2 l1 l2 : bytes_ok m -> at_mem m s1 l1 -> at_mem m s2 l2 -> length l1 = length l2 ->
  buf_compare_ct s1 s2 (Z.of_nat (length l1)) m = Ret (if bool_decide (l1 = l2) then 0 else 1) m.
Proof.
  intros Hm H1 H2 Hl. unfold buf_compare_ct. rewrite Nat2Z.id.
  destruct (compare_loop_run m (length l1) s1 s2 l1 l2 0) as (r & E & Hr & Hz); [done..|by eapply at_mem_bytes|by eapply at_mem_bytes|done|].
  rewrite (bind_run _ _ _ _ _ E), (fold_bits r Hr). unfold ret. f_equal.
  destruct (Z.eqb_spec r 0) as [H0|H0]; [rewrite bool_decide_true; [done|by apply Hz]|rewrite bool_decide_false; [done|tauto]].
Qed.

(** ** The references *)

(** The difference at the first place where two byte strings differ; a string that
    ends is taken to go on with a zero byte. *)
Fixpoint str_diff (l1 l2 : list Z) : Z :=
  match l1, l2 with
  | [], [] => 0
  | b1 :: _, [] => b1
  | [], b2 :: _ => - b2
  | b1 :: l1, b2 :: l2 => if b1 =? b2 then str_diff l1 l2 else b1 - b2
  end.

Lemma find_stop c s l : Forall (fun x => x <> 0) l ->
  exists l1 b l2, l ++ [0] = l1 ++ b :: l2 /\ Forall (fun x => chr_stop c x = false) l1 /\ chr_stop c b = true /\
    find c s (l ++ [0]) = if b =? c then s + Z.of_nat (length l1) else 0.
Proof.
  intros H. revert s. induction H as [|b l Hb _ IH]; intros s.
  - exists [], 0, []. split_and!; [done|done|done|]. cbn [find app length]. by rewrite Z.add_0_r.
  - destruct (chr_stop c b) eqn:Ec; unfold chr_stop in Ec; rewrite (proj2 (Z.eqb_neq b 0) Hb) in Ec; cbn [orb] in Ec.
    + exists [], b, (l ++ [0]). split_and!; [done|done|unfold chr_stop; by rewrite Ec, orb_true_r|].
      cbn [find app length]. by rewrite Ec, Z.add_0_r.
    + destruct (IH (s + 1)) as (l1 & x & l2 & E & H1 & Hx & Ef). exists (b :: l1), x, l2. cbn [app]. rewrite E. split_and!; [done| |done|].
      * constructor; [unfold chr_stop; by rewrite Ec, (proj2 (Z.eqb_neq b 0) Hb)|done].
      * cbn [find length]. rewrite Ec, <- E, Ef. destruct (x =? c); [lia|done].
Qed.
Lemma cstr_strchr {build : StrBuild} m s i l : bytes_ok m -> word_closed m -> cstr m s l ->
  strchr s i m = Ret (find (u8 i) s (l ++ [0])) m.
Proof.
  intros Hm Hw [H1 H2]. destruct (find_stop (u8 i) s l H2) as (l1 & b & l2 & E & Hl1 & Hb & ->).
  apply strchr_run; [done..|]. split; [|done|done]. rewrite E in H1. change (b :: l2) with ([b] ++ l2) in H1. rewrite app_assoc in H1.
  by apply at_mem_app in H1 as [H1 _].
Qed.

Lemma scmp_str l1 l2 : Forall (fun x => x <> 0) l1 -> Forall (fun x => x <> 0) l2 ->
  scmp (l1 ++ [0]) (l2 ++ [0]) = Some (str_diff l1 l2).
Proof.
  intros H1. revert l2. induction H1 as [|b1 l1 Hb1 H1 IH]; intros [|b2 l2] H2; cbn [app scmp str_diff]; try done.
  - f_equal. cbn [Z.eqb]. rewrite Z.sub_0_r, (proj2 (Z.eqb_neq _ _) Hb1). done.
  - apply Forall_cons in H2 as [Hb2 H2]. rewrite (proj2 (Z.eqb_neq _ _) Hb1). cbn [negb andb]. destruct (b1 =? b2); [by apply IH|done].
Qed.
Lemma sncmp_str n l1 l2 : Forall (fun x => x <> 0) l1 -> Forall (fun x => x <> 0) l2 ->
  sncmp n (l1 ++ [0]) (l2 ++ [0]) = Some (str_diff (take n l1) (take n l2)).
Proof.
  intros H1. revert n l2. induction H1 as [|b1 l1 Hb1 H1 IH]; intros [|n] [|b2 l2] H2; cbn [app sncmp take str_diff]; try done.
  - rewrite (proj2 (Z.eqb_neq _ _) Hb1). cbn [negb andb]. destruct (b1 =? 0); by rewrite Z.sub_0_r.
  - apply Forall_cons in H2 as [Hb2 H2]. rewrite (proj2 (Z.eqb_neq _ _) Hb1). cbn [negb andb]. destruct (b1 =? b2); [by apply IH|done].
Qed.
Lemma mcmp_str l1 l2 : length l1 = length l2 -> mcmp (length l1) l1 l2 = Some (str_diff l1 l2).
Proof.
  revert l2. induction l1 as [|b1 l1 IH]; intros [|b2 l2] H; cbn [length] in *; try lia; [done|]. cbn [mcmp str_diff].
  destruct (b1 =? b2); [apply IH; lia|done].
Qed.

(** ** The claims *)

(** [strlcat] from the string in the buffer, which may be longer than the size. *)
Lemma cstr_strlcat {build : StrBuild} m n s1 l1 s2 l2 : bytes_ok m -> word_closed m -> cstr m s1 l1 -> cstr m s2 l2 ->
  let e := s1 + Z.of_nat (length l1) in let x := strlcpy_bytes (n - length l1) l2 in
  apart e (length x) s2 l2 -> room m e (length x) ->
  strlcat s1 s2 (Z.of_nat n) m = Ret (Z.of_nat (Nat.min n (length l1) + length l2)) (put_bytes e x m).
Proof.
  intros Hm Hw [H1 N1] H2 e x Ha Hr. apply at_mem_app in H1 as [H1 [H0 _]]. destruct (decide (length l1 < n)%nat) as [Hl|Hl].
  - rewrite Nat.min_r by lia. apply strlcat_run; [done..|by split|by right|done|done].
  - subst x. replace (n - length l1)%nat with 0%nat in * by lia. cbn [strlcpy_bytes put_bytes] in *.
    assert (Hn : length (take n l1) = n) by (rewrite length_take; lia).
    pose proof (strlcat_run m n s1 (take n l1) s2 l2 Hm Hw H2) as E. unfold strlcat_bytes in E. rewrite Hn, Nat.sub_diag in E.
    rewrite Nat.min_l by lia. apply E.
    + split; [|by apply Forall_take]. rewrite <- (take_drop n l1), at_mem_app in H1. apply H1.
    + by left.
    + by left.
    + intros i Hi. cbn [strlcpy_bytes length] in Hi. lia.
Qed.

Section claims.
Context (build : StrBuild) (m : bmem) (Hm : bytes_ok m) (Hw : word_closed m).

(** C15: For zero-terminated strings in memory the string functions compute their
    reference on lists, in the build that goes byte by byte and in the one that
    goes word by word: lengths, the place of a character, the difference at the
    first difference (of at most [n] bytes); [strlcpy] and [strlcat] store what
    fits with a zero byte behind it, nothing else, and return the length of what
    they tried to build. *)
Theorem newlib_strings s1 l1 s2 l2 c n : cstr m s1 l1 -> cstr m s2 l2 ->
  strlen s1 m = Ret (Z.of_nat (length l1)) m /\
  strnlen s1 (Z.of_nat n) m = Ret (Z.of_nat (Nat.min n (length l1))) m /\
  strchr s1 c m = Ret (find (u8 c) s1 (l1 ++ [0])) m /\
  strcmp s1 s2 m = Ret (str_diff l1 l2) m /\
  strncmp s1 s2 (Z.of_nat n) m = Ret (str_diff (take n l1) (take n l2)) m /\
  (forall d, let x := match n with O => [] | S n => take n l1 ++ [0] end in
     apart d (length x) s1 l1 -> room m d (length x) ->
     strlcpy d s1 (Z.of_nat n) m = Ret (Z.of_nat (length l1)) (put_bytes d x m)) /\
  (let e := s1 + Z.of_nat (length l1) in let x := match (n - length l1)%nat with O => [] | S n => take n l2 ++ [0] end in
     apart e (length x) s2 l2 -> room m e (length x) ->
     strlcat s1 s2 (Z.of_nat n) m = Ret (Z.of_nat (Nat.min n (length l1) + length l2)) (put_bytes e x m)).
Proof.
  intros H1 H2. pose proof (proj2 H1) as N1. pose proof (proj2 H2) as N2. repeat split.
  - by apply strlen_run.
  - rewrite (strnlen_run m n s1 (l1 ++ [0]) l1); [|apply H1|by right]. f_equal. f_equal.
    destruct (decide (n <= length l1)%nat).
    + rewrite take_app_le, str_prefix_nonzero, length_take by (done || by apply Forall_take). lia.
    + rewrite take_ge by (rewrite length_app; cbn [length]; lia). rewrite str_prefix_app by done. cbn [str_prefix Z.eqb]. rewrite app_nil_r. lia.
  - by apply cstr_strchr.
  - apply strcmp_run with (l1 := l1 ++ [0]) (l2 := l2 ++ [0]); [done..|apply H1|apply H2|by apply scmp_str].
  - apply newlib_strncmp_run with (l1 := l1 ++ [0]) (l2 := l2 ++ [0]); [done..|apply H1|apply H2|lia|]. rewrite Nat2Z.id. by apply sncmp_str.
  - intros d x Ha Hr. by apply strlcpy_run.
  - intros e x Ha Hr. by apply cstr_strlcat.
Qed.

(** C16: For buffers in memory the buffer functions compute their reference on lists,
    in both builds: the place of a byte, the difference at the first difference,
    equality in constant time; [memcpy] copies where the destination does not
    follow the source with an overlap, [memmove] always, [memset] fills with the
    low byte, and no other byte changes. *)
Theorem newlib_buffers s1 s2 l1 l2 c d :
  at_mem m s1 l1 -> at_mem m s2 l2 -> length l1 = length l2 -> room m d (length l1) ->
  let n := Z.of_nat (length l1) in
  memchr s1 c n m = Ret (find (u8 c) s1 l1) m /\
  memcmp s1 s2 n m = Ret (str_diff l1 l2) m /\
  buf_compare_ct s1 s2 n m = Ret (if bool_decide (l1 = l2) then 0 else 1) m /\
  memmove d s1 n m = Ret d (put_bytes d l1 m) /\
  memset d c n m = Ret d (put_bytes d (replicate (length l1) (u8 c)) m) /\
  (d <= s1 \/ s1 + n <= d -> memcpy d s1 n m = Ret d (put_bytes d l1 m)).
Proof.
  intros H1 H2 Hl Hr n. pose proof (at_mem_bytes _ _ _ Hm H1) as B1. subst n. repeat split.
  - by apply memchr_run.
  - apply memcmp_run with (l1 := l1) (l2 := l2); [done..|lia|]. rewrite Nat2Z.id. by apply mcmp_str.
  - by apply buf_compare_ct_run.
  - by apply memmove_run.
  - by apply memset_run.
  - intros Ho. by apply memcpy_run.
Qed.
End claims.

(** ** Witnesses *)

(** Twenty bytes from address 4 on: "hi!" at 6 and "hip" at 10, then room. *)
Definition wit_mem : bmem := list_to_map (zip (seqZ 4 20) ([0; 0] ++ [104; 105; 33; 0] ++ [104; 105; 112; 0] ++ replicate 10 7)).
Lemma wit_bytes : bytes_ok wit_mem.
Proof. apply (bool_decide_unpack (map_Forall (fun _ b => is_byte b) wit_mem)). vm_compute. exact I. Qed.
Lemma wit_words : word_closed wit_mem.
Proof.
  assert (H : map_Forall (fun a _ => Forall (fun j => is_Some (wit_mem !! (a / 4 * 4 + j))) [0; 1; 2; 3]) wit_mem).
  { apply (bool_decide_unpack _). vm_compute. exact I. }
  intros a [b Hb] j Hj. specialize (H a b Hb). rewrite Forall_forall in H. apply H.
  assert (j = 0 \/ j = 1 \/ j = 2 \/ j = 3) as Hj' by lia. apply list_elem_of_In. cbn [In]. lia.
Qed.
Lemma wit_room d n : 4 <= d -> d + Z.of_nat n <= 24 -> room wit_mem d n.
Proof.
  intros Hd Hn i Hi. assert (H : Forall (fun a => is_Some (wit_mem !! a)) (seqZ 4 20)) by (apply (bool_decide_unpack _); vm_compute; exact I).
  rewrite Forall_forall in H. apply H, elem_of_seqZ. lia.
Qed.
Lemma wit_hi : cstr wit_mem 6 [104; 105; 33].
Proof. split; [by repeat split|by repeat constructor]. Qed.
Lemma wit_hip : cstr wit_mem 10 [104; 105; 112].
Proof. split; [by repeat split|by repeat constructor]. Qed.

(** The build that goes word by word finds the "!" at 8 and "hi!" before "hip"; of
    the copy in three bytes "hi" is left, and "hip" is appended to its copy. *)
Lemma newlib_strings_witness :
  let build := {| small_code := false |} in
  strlen 6 wit_mem = Ret 3 wit_mem /\ strchr 6 33 wit_mem = Ret 8 wit_mem /\ strcmp 6 10 wit_mem = Ret (-79) wit_mem /\
  strncmp 6 10 2 wit_mem = Ret 0 wit_mem /\ strlcpy 14 6 3 wit_mem = Ret 3 (put_bytes 14 [104; 105; 0] wit_mem) /\
  strlcat 10 6 6 wit_mem = Ret 6 (put_bytes 13 [104; 105; 0] wit_mem).
Proof.
  intros build.
  destruct (newlib_strings build wit_mem wit_bytes wit_words 6 [104; 105; 33] 10 [104; 105; 112] 33 2 wit_hi wit_hip) as (H1 & _ & H3 & H4 & H5 & _ & _).
  destruct (newlib_strings build wit_mem wit_bytes wit_words 6 [104; 105; 33] 10 [104; 105; 112] 33 3 wit_hi wit_hip) as (_ & _ & _ & _ & _ & H6 & _).
  destruct (newlib_strings build wit_mem wit_bytes wit_words 10 [104; 105; 112] 6 [104; 105; 33] 33 6 wit_hip wit_hi) as (_ & _ & _ & _ & _ & _ & H7).
  refine (conj H1 (conj H3 (conj H4 (conj H5 (conj (H6 14 _ _) (H7 _ _)))))).
  - right. right. vm_compute. discriminate.
  - apply wit_room; [lia|vm_compute; discriminate].
  - right. right. vm_compute. discriminate.
  - apply wit_room; [lia|vm_compute; discriminate].
Defined.

(** "hi!" is moved two bytes up over itself and word-wise found, compared and copied. *)
Lemma newlib_buffers_witness :
  let build := {| small_code := false |} in
  memchr 6 33 3 wit_mem = Ret 8 wit_mem /\ memcmp 6 10 3 wit_mem = Ret (-79) wit_mem /\ buf_compare_ct 6 10 3 wit_mem = Ret 1 wit_mem /\
  memmove 7 6 3 wit_mem = Ret 7 (put_bytes 7 [104; 105; 33] wit_mem) /\ memset 7 33 3 wit_mem = Ret 7 (put_bytes 7 [33; 33; 33] wit_mem) /\
  memcpy 16 6 3 wit_mem = Ret 16 (put_bytes 16 [104; 105; 33] wit_mem).
Proof.
  intros build. pose proof (proj1 (proj1 (at_mem_app _ _ [104; 105; 33] [0]) (proj1 wit_hi))) as A1.
  pose proof (proj1 (proj1 (at_mem_app _ _ [104; 105; 112] [0]) (proj1 wit_hip))) as A2.
  destruct (newlib_buffers build wit_mem wit_bytes wit_words 6 10 [104; 105; 33] [104; 105; 112] 33 7 A1 A2 eq_refl) as (H1 & H2 & H3 & H4 & H5 & _);
    [apply wit_room; [lia|vm_compute; discriminate]|].
  destruct (newlib_buffers build wit_mem wit_bytes wit_words 6 10 [104; 105; 33] [104; 105; 112] 33 16 A1 A2 eq_refl) as (_ & _ & _ & _ & _ & H6);
    [apply wit_room; [lia|vm_compute; discriminate]|].
  refine (conj H1 (conj H2 (conj H3 (conj H4 (conj H5 (H6 _)))))). right. vm_compute. discriminate.
Defined.
