(* ===== verification/FdtPack.v ===== *)
(** * Moving and packing a flattened device tree (core/lib/libfdt/fdt_rw.c, fdt.c)

    What [init_fdt] uses of the half of libfdt that writes.  The functions run on
    the memory of bytes of [Newlib], with the [memmove] of the C library; the
    routines that only read are those of [Fdt], on the bytes that are in memory
    from the address of the tree on. *)

From stdpp Require Import prelude gmap list.
From Stdlib Require Import ZArith Lia.
From S2P Require Import Prelude Fdt Newlib.
#[local] Open Scope Z_scope.
#[local] Open Scope kernel_scope.

Definition FDT_ERR_NOSPACE : Z := 3.
Definition FDT_ERR_BADLAYOUT : Z := 12.

(** ** The bytes from an address on *)

Fixpoint bytes_from (n : nat) (m : bmem) (p : Z) : list Z :=
  match n with
  | O => []
  | S n => match m !! p with Some b => b :: bytes_from n m (p + 1) | None => [] end
  end.
Definition on_blob {A} (fdt : Z) (f : list Z -> M bmem A) : M bmem A :=
  fun m => f (bytes_from (base.size m) m fdt) m.

(** ** The header *)

Definition fdt_header_word (fdt field : Z) : M bmem Z := on_blob fdt (fun blob => fdt_get_header fdt blob field).
Definition fdt_get_totalsize (fdt : Z) := fdt_header_word fdt 4.
Definition fdt_get_off_dt_struct (fdt : Z) := fdt_header_word fdt 8.
Definition fdt_get_off_dt_strings (fdt : Z) := fdt_header_word fdt 12.
Definition fdt_off_mem_rsvmap (fdt : Z) := fdt_header_word fdt 16.
Definition fdt_get_version (fdt : Z) := fdt_header_word fdt 20.
Definition fdt_boot_cpuid_phys (fdt : Z) := fdt_header_word fdt 28.
Definition fdt_size_dt_strings (fdt : Z) := fdt_header_word fdt 32.
Definition fdt_get_size_dt_struct (fdt : Z) := fdt_header_word fdt 36.

(** [fdth->field = cpu_to_fdt32(val)]: the bytes from the highest to the lowest. *)
Definition __fdt_set_hdr (fdt field val : Z) : M bmem unit :=
  st (fdt + field) (Z.shiftr val 24);;; st (fdt + field + 1) (Z.shiftr val 16);;;
  st (fdt + field + 2) (Z.shiftr val 8);;; st (fdt + field + 3) val.
Definition fdt_set_magic (fdt v : Z) := __fdt_set_hdr fdt 0 v.
Definition fdt_set_totalsize (fdt v : Z) := __fdt_set_hdr fdt 4 v.
Definition fdt_set_off_dt_struct (fdt v : Z) := __fdt_set_hdr fdt 8 v.
Definition fdt_set_off_dt_strings (fdt v : Z) := __fdt_set_hdr fdt 12 v.
Definition fdt_set_off_mem_rsvmap (fdt v : Z) := __fdt_set_hdr fdt 16 v.
Definition fdt_set_version (fdt v : Z) := __fdt_set_hdr fdt 20 v.
Definition fdt_set_last_comp_version (fdt v : Z) := __fdt_set_hdr fdt 24 v.
Definition fdt_set_boot_cpuid_phys (fdt v : Z) := __fdt_set_hdr fdt 28 v.
Definition fdt_set_size_dt_strings (fdt v : Z) := __fdt_set_hdr fdt 32 v.
Definition fdt_set_size_dt_struct (fdt v : Z) := __fdt_set_hdr fdt 36 v.

Definition check_header (fdt : Z) (k : M bmem Z) : M bmem Z :=
  on_blob fdt (fun blob => FDT_CHECK_HEADER fdt blob k).

(** ** The memory reservations (fdt_ro.c) *)

Definition _fdt_mem_rsv (fdt n : Z) : M bmem Z := o <- fdt_off_mem_rsvmap fdt;; ret (u32 (fdt + o + 16 * n)).
(** [fdt64_to_cpu( *p)] *)
Definition fdt64_to_cpu (fdt p : Z) : M bmem Z :=
  hi <- on_blob fdt (fun blob => fdt32_to_cpu fdt blob p);;
  lo <- on_blob fdt (fun blob => fdt32_to_cpu fdt blob (p + 4));;
  ret (Z.lor (Z.shiftl hi 32) lo).
Fixpoint num_mem_rsv_loop (fl : nat) (fdt i : Z) : M bmem Z :=
  match fl with
  | O => spin
  | S fl =>
      p <- _fdt_mem_rsv fdt i;; size <- fdt64_to_cpu fdt (p + 8);;
      if negb (size =? 0) then i <- int_result (i + 1);; num_mem_rsv_loop fl fdt i else ret i
  end.
Definition fdt_num_mem_rsv (fdt : Z) : M bmem Z :=
  on_blob fdt (fun blob => num_mem_rsv_loop (S (length blob)) fdt 0).

Section pack.
Context {build : StrBuild}.

(** ** fdt_rw.c *)

Definition _fdt_blocks_misordered (fdt mem_rsv_size struct_size : Z) : M bmem bool :=
  off_rsv <- fdt_off_mem_rsvmap fdt;;
  off_struct <- fdt_get_off_dt_struct fdt;;
  off_strings <- fdt_get_off_dt_strings fdt;;
  totalsize <- fdt_get_totalsize fdt;;
  size_strings <- fdt_size_dt_strings fdt;;
  ret ((off_rsv <? FDT_ALIGN 40 8) ||
       (off_struct <? u32 (off_rsv + mem_rsv_size)) ||
       (off_strings <? u32 (off_struct + struct_size)) ||
       (totalsize <? u32 (off_strings + size_strings))).

Definition _fdt_rw_check_header (fdt : Z) : M bmem Z :=
  check_header fdt (
    v <- fdt_get_version fdt;;
    if v <? 17 then ret (- FDT_ERR_BADVERSION) else
    size <- fdt_get_size_dt_struct fdt;;
    bad <- _fdt_blocks_misordered fdt 16 (i32 size);;
    if (bad : bool) then ret (- FDT_ERR_BADLAYOUT) else
    when (v >? 17) (fdt_set_version fdt 17);;; ret 0).
Definition FDT_RW_CHECK_HEADER (fdt : Z) (k : M bmem Z) : M bmem Z :=
  err <- _fdt_rw_check_header fdt;; if truth err then ret err else k.

Definition _fdt_data_size (fdt : Z) : M bmem Z :=
  o <- fdt_get_off_dt_strings fdt;; n <- fdt_size_dt_strings fdt;; ret (i32 (o + n)).

(** fdt.c *)
Definition fdt_move (fdt buf bufsize : Z) : M bmem Z :=
  check_header fdt (
    totalsize <- fdt_get_totalsize fdt;;
    if totalsize >? u32 bufsize then ret (- FDT_ERR_NOSPACE)
    else memmove buf fdt totalsize;;; ret 0).

(** The blocks one after the other, behind the header. *)
Definition _fdt_packblocks (old new mem_rsv_size struct_size : Z) : M bmem unit :=
  let mem_rsv_off := FDT_ALIGN 40 8 in
  struct_off <- int_result (mem_rsv_off + mem_rsv_size);;
  strings_off <- int_result (struct_off + struct_size);;
  o <- fdt_off_mem_rsvmap old;; memmove (new + mem_rsv_off) (old + o) (u32 mem_rsv_size);;;
  fdt_set_off_mem_rsvmap new mem_rsv_off;;;
  o <- fdt_get_off_dt_struct old;; memmove (new + struct_off) (old + o) (u32 struct_size);;;
  fdt_set_off_dt_struct new struct_off;;;
  fdt_set_size_dt_struct new struct_size;;;
  o <- fdt_get_off_dt_strings old;; n <- fdt_size_dt_strings old;; memmove (new + strings_off) (old + o) n;;;
  fdt_set_off_dt_strings new strings_off;;;
  n <- fdt_size_dt_strings old;; fdt_set_size_dt_strings new n.

(** The end of the structure block of a version without its size. *)
Fixpoint struct_end_loop (fl : nat) (fdt struct_size : Z) : M bmem Z :=
  match fl with
  | O => spin
  | S fl =>
      ' (tag, struct_size) <- on_blob fdt (fun blob => fdt_next_tag fdt blob struct_size);;
      if tag =? FDT_END then ret struct_size else struct_end_loop fl fdt struct_size
  end.

Definition rsv_bytes (fdt : Z) : M bmem Z := n <- fdt_num_mem_rsv fdt;; n <- int_result (n + 1);; ret (i32 (n * 16)).
Definition fdt_open_into (fdt buf bufsize : Z) : M bmem Z :=
  let fdtstart := fdt in
  totalsize <- fdt_get_totalsize fdt;;
  let fdtend := u32 (fdtstart + totalsize) in
  check_header fdt (
    mem_rsv_size <- rsv_bytes fdt;;
    v <- fdt_get_version fdt;;
    struct_size <- (if v >=? 17 then n <- fdt_get_size_dt_struct fdt;; ret (i32 n)
                    else on_blob fdt (fun blob => struct_end_loop (S (length blob)) fdt 0));;
    if (v <? 17) && (struct_size <? 0) then ret struct_size else
    misordered <- _fdt_blocks_misordered fdt mem_rsv_size struct_size;;
    if negb misordered then
      err <- fdt_move fdt buf bufsize;;
      if truth err then ret err else
      fdt_set_version buf 17;;; fdt_set_size_dt_struct buf struct_size;;; fdt_set_totalsize buf bufsize;;; ret 0
    else
      size_strings <- fdt_size_dt_strings fdt;;
      let newsize := i32 (FDT_ALIGN 40 8 + mem_rsv_size + struct_size + size_strings) in
      if bufsize <? newsize then ret (- FDT_ERR_NOSPACE) else
      let overlaps := (u32 (buf + newsize) >? fdtstart) && (buf <? fdtend) in
      let tmp := if overlaps then fdtend else buf in
      if overlaps && (u32 (tmp + newsize) >? u32 (buf + bufsize)) then ret (- FDT_ERR_NOSPACE) else
      _fdt_packblocks fdt tmp mem_rsv_size struct_size;;;
      memmove buf tmp (u32 newsize);;;
      fdt_set_magic buf FDT_MAGIC;;;
      fdt_set_totalsize buf bufsize;;;
      fdt_set_version buf 17;;;
      fdt_set_last_comp_version buf 16;;;
      b <- fdt_boot_cpuid_phys fdt;; fdt_set_boot_cpuid_phys buf b;;;
      ret 0).

Definition fdt_pack (fdt : Z) : M bmem Z :=
  FDT_RW_CHECK_HEADER fdt (
    mem_rsv_size <- rsv_bytes fdt;;
    size <- fdt_get_size_dt_struct fdt;;
    _fdt_packblocks fdt fdt mem_rsv_size (i32 size);;;
    n <- _fdt_data_size fdt;; fdt_set_totalsize fdt n;;; ret 0).
End pack.
