(* ===== verification/FdtPackSpec.v ===== *)
(** * Packing a device tree keeps the tree

    The memory that [init_fdt] may write is a window of bytes, a list; loads,
    stores and moves inside it are the list operations [word_at], [patch] and
    [sub].  The theorem says that the tree in the window is the same after
    [fdt_open_into] and [fdt_pack], whatever the order of its blocks was. *)

From stdpp Require Import prelude gmap list.
From Stdlib Require Import ZArith Lia.
From S2P Require Import Prelude Fdt FdtTree FdtScan FdtSpec Newlib NewlibSpec FdtPack.
#[local] Open Scope Z_scope.
#[local] Open Scope kernel_scope.

(** ** Windows *)

Definition sub (i n : Z) (L : list Z) : list Z := take (Z.to_nat n) (drop (Z.to_nat i) L).
Definition patch (i : Z) (x L : list Z) : list Z := take (Z.to_nat i) L ++ x ++ drop (Z.to_nat i + length x) L.

Lemma patch_length i x L : 0 <= i -> i + bytes_len x <= bytes_len L -> length (patch i x L) = length L.
Proof. unfold bytes_len, patch. intros. rewrite !length_app, length_take, length_drop. lia. Qed.
Lemma sub_length i n L : 0 <= i -> 0 <= n -> i + n <= bytes_len L -> bytes_len (sub i n L) = n.
Proof. unfold bytes_len, sub. intros. rewrite length_take, length_drop. lia. Qed.
Lemma sub_lookup i n L k : 0 <= i -> sub i n L !! k = if (Z.of_nat k <? n) then L !! (Z.to_nat i + k)%nat else None.
Proof.
  intros. unfold sub. destruct (Z.ltb_spec (Z.of_nat k) n).
  - rewrite lookup_take_lt by lia. apply lookup_drop.
  - apply lookup_ge_None. rewrite length_take. lia.
Qed.
Lemma patch_lookup i x L k : 0 <= i -> i + bytes_len x <= bytes_len L ->
  patch i x L !! k = if (i <=? Z.of_nat k) && (Z.of_nat k <? i + bytes_len x) then x !! (k - Z.to_nat i)%nat else L !! k.
Proof.
  unfold bytes_len, patch. intros Hi Hx. destruct (Z.leb_spec i (Z.of_nat k)); cbn [andb].
  - assert (Hl : length (take (Z.to_nat i) L) = Z.to_nat i) by (rewrite length_take; lia).
    rewrite lookup_app_r by lia. rewrite Hl. destruct (Z.ltb_spec (Z.of_nat k) (i + Z.of_nat (length x))).
    + rewrite lookup_app_l by lia. done.
    + rewrite lookup_app_r by lia. rewrite lookup_drop. f_equal. lia.
  - rewrite lookup_app_l by (rewrite length_take; lia). by rewrite lookup_take_lt by lia.
Qed.
Lemma sub_patch_ne i n j x L : 0 <= i -> 0 <= j -> j + bytes_len x <= bytes_len L -> i + n <= j \/ j + bytes_len x <= i ->
  sub i n (patch j x L) = sub i n L.
Proof.
  intros Hi Hj Hx H. apply list_eq. intros k. rewrite !sub_lookup by done. destruct (Z.ltb_spec (Z.of_nat k) n); [|done].
  rewrite patch_lookup by done. destruct (Z.leb_spec j (Z.of_nat (Z.to_nat i + k))), (Z.ltb_spec (Z.of_nat (Z.to_nat i + k)) (j + bytes_len x));
    cbn [andb]; try done. lia.
Qed.
Lemma sub_patch_eq j x L : 0 <= j -> j + bytes_len x <= bytes_len L -> sub j (bytes_len x) (patch j x L) = x.
Proof.
  intros Hj Hx. apply list_eq. intros k. rewrite sub_lookup by done. unfold bytes_len in *. destruct (Z.ltb_spec (Z.of_nat k) (Z.of_nat (length x))).
  - rewrite patch_lookup by done. unfold bytes_len. rewrite (proj2 (Z.leb_le _ _)), (proj2 (Z.ltb_lt _ _)) by lia. cbn [andb]. f_equal. lia.
  - symmetry. apply lookup_ge_None. lia.
Qed.
Lemma sub_cut i n k L : 0 <= i -> 0 <= k <= n -> sub i n L = sub i k L ++ sub (i + k) (n - k) L.
Proof.
  intros Hi Hk. unfold sub. replace (Z.to_nat n) with (Z.to_nat k + Z.to_nat (n - k))%nat by lia. rewrite <- take_take_drop, drop_drop.
  do 3 f_equal. lia.
Qed.
Lemma sub_bytes i n L : Forall is_byte L -> Forall is_byte (sub i n L).
Proof. intros H. by apply Forall_take, Forall_drop. Qed.
Lemma patch_bytes i x L : Forall is_byte x -> Forall is_byte L -> Forall is_byte (patch i x L).
Proof. intros Hx H. apply Forall_app_2; [by apply Forall_take|]. apply Forall_app_2; [done|]. by apply Forall_drop. Qed.

(** Words of a window. *)
Lemma byte_at_patch_ne f j x L : 0 <= f -> 0 <= j -> j + bytes_len x <= bytes_len L -> f < j \/ j + bytes_len x <= f ->
  byte_at (patch j x L) f = byte_at L f.
Proof.
  intros Hf Hj Hx H. unfold byte_at. rewrite !nth_lookup, patch_lookup by done.
  destruct (Z.leb_spec j (Z.of_nat (Z.to_nat f))), (Z.ltb_spec (Z.of_nat (Z.to_nat f)) (j + bytes_len x)); cbn [andb]; try done. lia.
Qed.
Lemma word_patch_ne f j x L : 0 <= f -> 0 <= j -> j + bytes_len x <= bytes_len L -> f + 4 <= j \/ j + bytes_len x <= f ->
  word_at (patch j x L) f = word_at L f.
Proof. intros. unfold word_at. by rewrite !byte_at_patch_ne by (done || lia). Qed.
Lemma patch_has j x L : 0 <= j -> j + bytes_len x <= bytes_len L -> has (patch j x L) j x.
Proof.
  intros Hj Hx. unfold bytes_len in *. exists (take (Z.to_nat j) L), (drop (Z.to_nat j + length x) L). split; [done|].
  unfold bytes_len. rewrite length_take. lia.
Qed.
Lemma word_patch_eq f v L : 0 <= f -> f + 4 <= bytes_len L -> is_u32 v -> word_at (patch f (be32 v) L) f = v.
Proof. intros Hf Hl Hv. apply word_be32; [done|]. by apply patch_has. Qed.
Lemma sub_has i x L : 0 <= i -> i + bytes_len x <= bytes_len L -> sub i (bytes_len x) L = x -> has L i x.
Proof.
  unfold bytes_len, sub. intros Hi Hl Hs. exists (take (Z.to_nat i) L), (drop (Z.to_nat i + length x) L). split.
  - rewrite <- Hs at 1. rewrite Nat2Z.id, <- drop_drop. by rewrite (take_drop (length x)), take_drop.
  - unfold bytes_len. rewrite length_take. lia.
Qed.
Lemma has_sub i x L : has L i x -> sub i (bytes_len x) L = x.
Proof.
  intros (p & q & -> & ->). unfold sub, bytes_len. rewrite !Nat2Z.id, drop_app_length. apply take_app_length.
Qed.

(** The bytes of a word. *)
Lemma be32_bytes4 b0 b1 b2 b3 : is_byte b0 -> is_byte b1 -> is_byte b2 -> is_byte b3 ->
  be32 (Z.lor (Z.lor (Z.lor (Z.shiftl b0 24) (Z.shiftl b1 16)) (Z.shiftl b2 8)) b3) = [b0; b1; b2; b3].
Proof.
  intros H0 H1 H2 H3. unfold be32.
  assert (Hb : forall w k b, 0 <= k -> is_byte b -> (forall i, 0 <= i < 8 -> Z.testbit w (i + k) = Z.testbit b i) ->
    Z.land (Z.shiftr w k) 255 = b).
  { intros w k b Hk Hby H. apply Z.bits_inj'. intros i Hi. rewrite byte_bit by done. rewrite (proj2 (Z.leb_le 0 i)) by done. cbn [andb].
    destruct (Z.ltb_spec i 8) as [Hi8|Hi8]; [by apply H|]. cbn [andb]. symmetry. by apply byte_high_bits. }
  rewrite <- (Z.shiftr_0_r (Z.lor _ b3)) at 4.
  rewrite (Hb _ 24 b0), (Hb _ 16 b1), (Hb _ 8 b2), (Hb _ 0 b3); try done; intros i Hi; rewrite !Z.lor_spec, !Z.shiftl_spec by lia;
    rewrite ?(byte_high_bits b0), ?(byte_high_bits b1), ?(byte_high_bits b2), ?(byte_high_bits b3) by (done || lia);
    rewrite ?(Z.testbit_neg_r b0), ?(Z.testbit_neg_r b1), ?(Z.testbit_neg_r b2) by lia; rewrite ?orb_false_r, ?orb_false_l; f_equal; lia.
Qed.
Lemma sub4 i L : 0 <= i -> i + 4 <= bytes_len L -> sub i 4 L = [byte_at L i; byte_at L (i + 1); byte_at L (i + 2); byte_at L (i + 3)].
Proof.
  intros Hi Hl. unfold bytes_len in Hl. assert (Hb : forall k, 0 <= k < 4 -> L !! (Z.to_nat i + Z.to_nat k)%nat = Some (byte_at L (i + k))).
  { intros k Hk. unfold byte_at. replace (Z.to_nat (i + k)) with (Z.to_nat i + Z.to_nat k)%nat by lia.
    destruct (lookup_lt_is_Some_2 L (Z.to_nat i + Z.to_nat k)%nat ltac:(lia)) as [x Hx]. by rewrite (nth_lookup_Some _ _ _ _ Hx). }
  apply list_eq. intros k. rewrite sub_lookup by done. destruct (Z.ltb_spec (Z.of_nat k) 4); [|symmetry; apply lookup_ge_None; cbn; lia].
  destruct k as [|[|[|[|k]]]]; [| | | |lia]; [rewrite <- (Z.add_0_r i) at 2; apply (Hb 0)|apply (Hb 1)|apply (Hb 2)|apply (Hb 3)]; lia.
Qed.
Lemma sub_be32 i L : Forall is_byte L -> 0 <= i -> i + 4 <= bytes_len L -> sub i 4 L = be32 (word_at L i).
Proof.
  intros HB Hi Hl. rewrite sub4 by done. unfold word_at. symmetry.
  assert (H : forall k, is_byte (byte_at L k)).
  { intros k. unfold byte_at. destruct (nth_in_or_default (Z.to_nat k) L 0) as [Hin| ->]; [|by split].
    rewrite Forall_forall in HB. apply HB. by apply list_elem_of_In. }
  by apply be32_bytes4.
Qed.

(** ** The window in memory *)

(** Storing what is there changes nothing. *)
Lemma put_patch m s i x L : 0 <= i -> i + bytes_len x <= bytes_len L ->
  put_bytes (s + i) x (put_bytes s L m) = put_bytes s (patch i x L) m.
Proof.
  intros Hi Hx. apply map_eq. intros a. rewrite !put_bytes_lookup, patch_length by done. unfold bytes_len in *.
  destruct (Z.leb_spec (s + i) a), (Z.ltb_spec a (s + i + Z.of_nat (length x))), (Z.leb_spec s a), (Z.ltb_spec a (s + Z.of_nat (length L)));
    cbn [andb]; try lia; try done; rewrite patch_lookup by (done || unfold bytes_len; lia); unfold bytes_len.
  - rewrite (proj2 (Z.leb_le _ _)), (proj2 (Z.ltb_lt _ _)) by lia. cbn [andb]. f_equal. lia.
  - rewrite (proj2 (Z.ltb_ge (Z.of_nat _) _)), andb_false_r by lia. done.
  - rewrite (proj2 (Z.leb_gt i _)) by lia. done.
Qed.
Lemma at_mem_sub m s L i n : 0 <= i -> 0 <= n -> i + n <= bytes_len L -> at_mem m s L -> at_mem m (s + i) (sub i n L).
Proof.
  intros Hi Hn Hb H. unfold bytes_len in *. rewrite <- (take_drop (Z.to_nat i) L), at_mem_app in H. destruct H as [_ H].
  rewrite length_take in H. replace (Z.of_nat (Z.to_nat i `min` length L)) with i in H by lia.
  rewrite <- (take_drop (Z.to_nat n)), at_mem_app in H. apply H.
Qed.
Lemma room_put m s L : (forall i, 0 <= i < bytes_len L -> is_Some (m !! (s + i))) -> room (put_bytes s L m) s (length L).
Proof. intros H. apply room_put_bytes. intros i Hi. by apply H. Qed.

Lemma bytes_from_prefix n m p l : at_mem m p l -> (length l <= n)%nat -> exists r, bytes_from n m p = l ++ r.
Proof.
  revert n p. induction l as [|b l IH]; intros n p; [intros _ _; by eexists|]. intros [Hb Hl] Hn. cbn [length] in Hn.
  destruct n as [|n]; [lia|]. cbn [bytes_from]. rewrite Hb. destruct (IH n (p + 1) Hl) as [r ->]; [lia|]. by exists r.
Qed.

Section window.
Context (fdt : Z) (m0 : bmem) (W : Z).
Context (Hf : 0 < fdt) (Hend : fdt + W < 2 ^ 32) (HW : 0 <= W < 2 ^ 30).
Context (Hroom : forall i, 0 <= i < W -> is_Some (m0 !! (fdt + i))).

(** The memory with the window [L]. *)
Definition R (L : list Z) : bmem := put_bytes fdt L m0.
Definition window (L : list Z) : Prop := bytes_len L = W /\ Forall is_byte L.

Lemma window_patch i x L : window L -> 0 <= i -> i + bytes_len x <= W -> Forall is_byte x -> window (patch i x L).
Proof. intros [H1 H2] Hi Hx Hb. split; [unfold bytes_len; rewrite patch_length by lia; done|by apply patch_bytes]. Qed.

Lemma on_blob_run {A} L (f : list Z -> M bmem A) x m :
  bytes_len L = W -> (forall r, f (L ++ r) (R L) = Ret x m) -> on_blob fdt f (R L) = Ret x m.
Proof.
  intros HL H. unfold on_blob. destruct (bytes_from_prefix (base.size (R L)) (R L) fdt L (put_at _ _ _)) as [r ->]; [|done].
  apply (at_mem_size (R L) fdt). apply put_at.
Qed.
Lemma prefix_load8 {S} L r i (s : S) : bytes_len L = W -> 0 <= i < W -> load8 fdt (L ++ r) (fdt + i) s = Ret (byte_at L i) s.
Proof.
  intros HL Hi. unfold load8. replace (fdt + i - fdt) with i by lia. rewrite u32_small by (unfold is_u32; lia). unfold bytes_len in HL.
  rewrite length_app, (proj2 (Z.ltb_lt _ _)) by lia. rewrite lookup_app_l by lia. unfold byte_at.
  destruct (L !! Z.to_nat i) as [b|] eqn:Hb; [|apply lookup_ge_None in Hb; lia]. cbn. by rewrite (nth_lookup_Some _ _ _ _ Hb).
Qed.
Lemma prefix_load32 {S} L r i p (s : S) : bytes_len L = W -> 0 <= i -> i + 4 <= W -> p = fdt + i ->
  fdt32_to_cpu fdt (L ++ r) p s = Ret (word_at L i) s.
Proof.
  intros HL Hi H4 ->. unfold fdt32_to_cpu.
  rewrite (bind_run _ _ _ _ _ (prefix_load8 L r i s HL ltac:(lia))).
  replace (fdt + i + 1) with (fdt + (i + 1)) by lia. rewrite (bind_run _ _ _ _ _ (prefix_load8 L r (i + 1) s HL ltac:(lia))).
  replace (fdt + i + 2) with (fdt + (i + 2)) by lia. rewrite (bind_run _ _ _ _ _ (prefix_load8 L r (i + 2) s HL ltac:(lia))).
  replace (fdt + i + 3) with (fdt + (i + 3)) by lia. by rewrite (bind_run _ _ _ _ _ (prefix_load8 L r (i + 3) s HL ltac:(lia))).
Qed.
Lemma header_word_run f L : window L -> 0 <= f -> f + 4 <= W -> fdt_header_word fdt f (R L) = Ret (word_at L f) (R L).
Proof. intros [HL _] H0 H4. apply on_blob_run; [done|]. intros r. by apply prefix_load32. Qed.

(** Stores of header words. *)
Lemma st_low p b m : st p b m = st p (u8 b) m.
Proof. by rewrite st_u8. Qed.
Lemma u8_land b : u8 b = Z.land b 255.
Proof. unfold u8. change 255 with (Z.ones 8). by rewrite Z.land_ones by lia. Qed.
Lemma set_hdr_run f v L : window L -> 0 <= f -> f + 4 <= W -> __fdt_set_hdr fdt f v (R L) = Ret tt (R (patch f (be32 v) L)).
Proof.
  intros [HL _] H0 H4. unfold __fdt_set_hdr, R. rewrite <- put_patch by (try change (bytes_len (be32 v)) with 4; lia).
  set (m := put_bytes fdt L m0).
  assert (Hr : forall m', room m' fdt (length L) -> forall k, 0 <= k < 4 -> is_Some (m' !! (fdt + f + k))).
  { intros m' H k Hk. rewrite <- Z.add_assoc. apply H. unfold bytes_len in HL. lia. }
  assert (R0 : room m fdt (length L)) by (apply room_put; rewrite HL; done).
  cbn [be32 put_bytes]. rewrite <- !u8_land.
  assert (Hs : forall k x m', room m' fdt (length L) -> 0 <= k < 4 -> st (fdt + f + k) x m' = Ret tt (<[fdt + f + k := u8 x]> m')).
  { intros k x m' Hm Hk. rewrite st_low. apply st_run; [by apply Hr|apply is_byte_u8]. }
  pose proof (Hs 0 (Z.shiftr v 24) m R0 ltac:(lia)) as E0. rewrite Z.add_0_r in E0. rewrite (bind_run _ _ _ _ _ E0).
  set (m1 := <[fdt + f := _]> m). assert (R1 : room m1 fdt (length L)) by by apply room_insert.
  rewrite (bind_run _ _ _ _ _ (Hs 1 (Z.shiftr v 16) m1 R1 ltac:(lia))). set (m2 := <[fdt + f + 1 := _]> m1).
  assert (R2 : room m2 fdt (length L)) by by apply room_insert.
  rewrite (bind_run _ _ _ _ _ (Hs 2 (Z.shiftr v 8) m2 R2 ltac:(lia))). set (m3 := <[fdt + f + 2 := _]> m2).
  assert (R3 : room m3 fdt (length L)) by by apply room_insert.
  rewrite (Hs 3 v m3 R3 ltac:(lia)). unfold m3, m2, m1.
  by replace (fdt + f + 1 + 1) with (fdt + f + 2) by lia; replace (fdt + f + 2 + 1) with (fdt + f + 3) by lia.
Qed.

(** A move inside the window. *)
Lemma memmove_window {build : StrBuild} i j n L : window L -> 0 <= i -> 0 <= j -> 0 <= n -> i + n <= W -> j + n <= W ->
  memmove (fdt + i) (fdt + j) n (R L) = Ret (fdt + i) (R (patch i (sub j n L) L)).
Proof.
  intros [HL HB] Hi Hj Hn Hin Hjn. pose proof (sub_length j n L Hj Hn ltac:(lia)) as Hs.
  unfold R at 2. rewrite <- put_patch by lia. fold (R L).
  replace n with (Z.of_nat (length (sub j n L))) at 1 by exact Hs. apply memmove_run.
  - apply at_mem_sub; [lia..|apply put_at].
  - by apply sub_bytes.
  - intros k Hk. rewrite <- Z.add_assoc. unfold bytes_len in *. assert (H : room (R L) fdt (length L)) by (apply room_put; unfold bytes_len; rewrite HL; done).
    apply H. lia.
Qed.
End window.

(** ** The memory reservations *)

Definition be64 (z : Z) : list Z := be32 (Z.shiftr z 32) ++ be32 (u32 z).
Definition enc_rsv (l : list (Z * Z)) : list Z := concat (map (fun e => be64 e.1 ++ be64 e.2) l) ++ replicate 16 0.
Definition rsv_ok (l : list (Z * Z)) : Prop := Forall (fun e => 0 < e.2 < 2 ^ 64) l.

Lemma enc_rsv_cons e l : enc_rsv (e :: l) = (be64 e.1 ++ be64 e.2) ++ enc_rsv l.
Proof. unfold enc_rsv. cbn [map concat]. by rewrite <- !app_assoc. Qed.
Lemma enc_rsv_len l : bytes_len (enc_rsv l) = 16 * bytes_len l + 16.
Proof.
  induction l as [|e l IH]; [done|]. rewrite enc_rsv_cons, bytes_len_app, IH, bytes_len_cons.
  change (bytes_len (be64 e.1 ++ be64 e.2)) with 16. lia.
Qed.
Lemma enc_rsv_bytes l : Forall is_byte (enc_rsv l).
Proof.
  unfold enc_rsv. apply Forall_app_2; [|by repeat constructor]. apply concat_bytes, Forall_true. intros e.
  repeat apply Forall_app_2; apply be32_bytes.
Qed.
Lemma word_sub L1 L2 f g : 0 <= f -> 0 <= g -> sub f 4 L1 = sub g 4 L2 -> word_at L1 f = word_at L2 g.
Proof.
  intros Hf Hg H. assert (Hb : forall k, 0 <= k < 4 -> byte_at L1 (f + k) = byte_at L2 (g + k)).
  { intros k Hk. unfold byte_at. rewrite !nth_lookup. apply (f_equal (fun l => l !! Z.to_nat k)) in H.
    rewrite !sub_lookup, (proj2 (Z.ltb_lt _ _)) in H by lia. replace (Z.to_nat (f + k)) with (Z.to_nat f + Z.to_nat k)%nat by lia.
    replace (Z.to_nat (g + k)) with (Z.to_nat g + Z.to_nat k)%nat by lia. by rewrite H. }
  unfold word_at. rewrite <- (Z.add_0_r f) at 1. rewrite <- (Z.add_0_r g) at 1. by rewrite !Hb by lia.
Qed.
Lemma sub_sub i N f n L : 0 <= i -> 0 <= f -> 0 <= n -> f + n <= N -> sub f n (sub i N L) = sub (i + f) n L.
Proof.
  intros. apply list_eq. intros k. rewrite !sub_lookup by lia. destruct (Z.ltb_spec (Z.of_nat k) n); [|done].
  rewrite (proj2 (Z.ltb_lt _ _)) by lia. f_equal. lia.
Qed.

Section packing.
Context (fdt : Z) (m0 : bmem) (W : Z).
Context (Hf : 0 < fdt) (Hend : fdt + W < 2 ^ 32) (HW : 40 <= W < 2 ^ 30).
Context (Hroom : forall i, 0 <= i < W -> is_Some (m0 !! (fdt + i))).
#[local] Abbreviation R := (R fdt m0).
#[local] Abbreviation window := (window W).

Lemma hdr_run f L : window L -> 0 <= f -> f + 4 <= W -> fdt_header_word fdt f (R L) = Ret (word_at L f) (R L).
Proof. apply header_word_run; lia. Qed.
Lemma blob_word_run i p L : window L -> 0 <= i -> i + 4 <= W -> p = fdt + i ->
  on_blob fdt (fun blob => fdt32_to_cpu fdt blob p) (R L) = Ret (word_at L i) (R L).
Proof. intros [HL _] Hi H4 Hp. apply (on_blob_run fdt m0 W); [done|]. intros r. apply prefix_load32 with (W := W); try done; lia. Qed.


Lemma window_byte L i : window L -> is_byte (byte_at L i).
Proof.
  intros [_ HB]. unfold byte_at. destruct (nth_in_or_default (Z.to_nat i) L 0) as [Hin| ->]; [|by split].
  rewrite Forall_forall in HB. apply HB. by apply list_elem_of_In.
Qed.
Lemma window_word L i : window L -> is_u32 (word_at L i).
Proof.
  intros HL. pose proof (window_byte L i HL). pose proof (window_byte L (i + 1) HL). pose proof (window_byte L (i + 2) HL).
  pose proof (window_byte L (i + 3) HL). unfold word_at, NewlibSpec.is_byte in *.
  repeat apply is_u32_lor; unfold is_u32; rewrite ?Z.shiftl_mul_pow2 by lia; lia.
Qed.
Lemma mem_rsv_run L n : window L -> 0 <= n -> word_at L 16 + 16 * n < W ->
  _fdt_mem_rsv fdt n (R L) = Ret (fdt + word_at L 16 + 16 * n) (R L).
Proof.
  intros HL Hn Hb. unfold _fdt_mem_rsv, fdt_off_mem_rsvmap. rewrite (bind_run _ _ _ _ _ (hdr_run 16 L HL ltac:(lia) ltac:(lia))).
  pose proof (window_word L 16 HL) as [H _].
  unfold ret. f_equal. apply u32_small. unfold is_u32. lia.
Qed.
Lemma u64_zero z : 0 <= z < 2 ^ 64 -> (Z.lor (Z.shiftl (Z.shiftr z 32) 32) (u32 z) =? 0) = (z =? 0).
Proof.
  intros Hz. apply eq_true_iff_eq. rewrite !Z.eqb_eq, Z.lor_eq_0_iff. rewrite Z.shiftl_mul_pow2, Z.shiftr_div_pow2 by lia. unfold u32.
  split; [intros [H1 H2]|intros ->; done]. pose proof (Z.div_mod z (2 ^ 32) ltac:(done)). lia.
Qed.
Lemma fdt64_run i z p L : window L -> has L i (be64 z) -> 0 <= z < 2 ^ 64 -> p = fdt + i ->
  fdt64_to_cpu fdt p (R L) = Ret (Z.lor (Z.shiftl (Z.shiftr z 32) 32) (u32 z)) (R L).
Proof.
  intros HL Hh Hz ->. pose proof (has_bounds _ _ _ Hh) as [H0 H1]. change (bytes_len (be64 z)) with 8 in H1.
  apply has_app in Hh as [Hhi Hlo]. change (bytes_len (be32 (Z.shiftr z 32))) with 4 in Hlo.
  assert (HLW : bytes_len L = W) by apply HL. unfold fdt64_to_cpu.
  rewrite (bind_run _ _ _ _ _ (blob_word_run i (fdt + i) L HL H0 ltac:(lia) eq_refl)).
  rewrite (bind_run _ _ _ _ _ (blob_word_run (i + 4) (fdt + i + 4) L HL ltac:(lia) ltac:(lia) ltac:(lia))).
  assert (H1' : is_u32 (Z.shiftr z 32)).
  { rewrite Z.shiftr_div_pow2 by lia. split; [apply Z.div_pos; lia|apply Z.div_lt_upper_bound; lia]. }
  assert (H2' : is_u32 (u32 z)) by (apply Z.mod_pos_bound; done).
  by rewrite (word_be32 _ _ _ H1' Hhi), (word_be32 _ _ _ H2' Hlo).
Qed.

Lemma num_rsv_loop_run k L l1 l2 : window L -> 0 <= word_at L 16 -> has L (word_at L 16) (enc_rsv (l1 ++ l2)) -> rsv_ok l2 ->
  (length l2 < k)%nat -> num_mem_rsv_loop k fdt (bytes_len l1) (R L) = Ret (bytes_len (l1 ++ l2)) (R L).
Proof.
  intros HL H0. revert k l1. induction l2 as [|e l2 IH]; intros [|k] l1 Hh Hok Hk; cbn [length] in Hk; try lia; cbn [num_mem_rsv_loop];
    pose proof (has_bounds _ _ _ Hh) as [_ Hb]; rewrite enc_rsv_len in Hb; assert (HLW : bytes_len L = W) by apply HL;
    rewrite bytes_len_app in *; pose proof (bytes_len_nonneg l1); pose proof Hh as Hh0; unfold enc_rsv in Hh; rewrite map_app, concat_app, <- app_assoc in Hh;
    apply has_app in Hh as Hh'; destruct Hh' as [_ Hh'];
    replace (bytes_len (concat (map (fun e => be64 e.1 ++ be64 e.2) l1))) with (16 * bytes_len l1) in Hh'
      by (pose proof (enc_rsv_len l1) as X; unfold enc_rsv in X; rewrite bytes_len_app in X; change (bytes_len (replicate 16 0)) with 16 in X; lia).
  - change (bytes_len (@nil (Z * Z))) with 0 in *. rewrite (bind_run _ _ _ _ _ (mem_rsv_run L (bytes_len l1) HL ltac:(lia) ltac:(lia))).
    cbn [map concat app] in Hh'. apply (has_app _ _ (replicate 8 0) (be64 0)) in Hh' as [_ Hz]. change (bytes_len (replicate 8 0)) with 8 in Hz.
    rewrite (bind_run _ _ _ _ _ (fdt64_run _ 0 (fdt + word_at L 16 + 16 * bytes_len l1 + 8) L HL Hz ltac:(done) ltac:(lia))). rewrite u64_zero by lia. cbn [Z.eqb negb]. unfold ret. f_equal. lia.
  - rewrite bytes_len_cons in *. pose proof (bytes_len_nonneg l2). rewrite (bind_run _ _ _ _ _ (mem_rsv_run L (bytes_len l1) HL ltac:(lia) ltac:(lia))).
    apply Forall_cons in Hok as [He Hok]. cbn [map concat] in Hh'. rewrite <- !app_assoc in Hh'. apply has_app in Hh' as [_ Hz].
    change (bytes_len (be64 e.1)) with 8 in Hz. apply has_prefix in Hz.
    rewrite (bind_run _ _ _ _ _ (fdt64_run _ e.2 (fdt + word_at L 16 + 16 * bytes_len l1 + 8) L HL Hz ltac:(lia) ltac:(lia))), u64_zero, (proj2 (Z.eqb_neq _ _)) by lia. cbn [negb].
    rewrite (bind_run _ _ _ _ _ (int_result_run (bytes_len l1 + 1) (R L) ltac:(lia))).
    replace (bytes_len l1 + 1) with (bytes_len (l1 ++ [e])) by (rewrite bytes_len_app; done). rewrite IH; [|by rewrite <- app_assoc; exact Hh0|done|lia].
    f_equal. rewrite !bytes_len_app, bytes_len_cons. change (bytes_len (@nil (Z * Z))) with 0. lia.
Qed.
Lemma num_mem_rsv_run L l : window L -> 0 <= word_at L 16 -> has L (word_at L 16) (enc_rsv l) -> rsv_ok l ->
  fdt_num_mem_rsv fdt (R L) = Ret (bytes_len l) (R L).
Proof.
  intros HL H0 Hh Hok. unfold fdt_num_mem_rsv. apply (on_blob_run fdt m0 W); [apply HL|]. intros r.
  apply (num_rsv_loop_run _ L [] l); try done. pose proof (has_bounds _ _ _ Hh) as [_ Hb]. rewrite enc_rsv_len in Hb. rewrite length_app.
  unfold bytes_len in *. lia.
Qed.
Lemma rsv_bytes_run L l : window L -> 0 <= word_at L 16 -> has L (word_at L 16) (enc_rsv l) -> rsv_ok l ->
  rsv_bytes fdt (R L) = Ret (bytes_len (enc_rsv l)) (R L).
Proof.
  intros HL H0 Hh Hok. pose proof (has_bounds _ _ _ Hh) as [_ Hb]. rewrite enc_rsv_len in *. assert (HLW : bytes_len L = W) by apply HL.
  pose proof (bytes_len_nonneg l). unfold rsv_bytes. rewrite (bind_run _ _ _ _ _ (num_mem_rsv_run L l HL H0 Hh Hok)).
  rewrite (bind_run _ _ _ _ _ (int_result_run (bytes_len l + 1) (R L) ltac:(lia))).
  unfold ret. f_equal. rewrite i32_small by lia. lia.
Qed.

(** ** Packing the blocks *)

(** What a store of [x] at [j] did to the window. *)
Record patched (L : list Z) (j : Z) (x L' : list Z) : Prop := {
  pa_win : window L';
  pa_sub : forall f n, 0 <= f -> f + n <= j \/ j + bytes_len x <= f -> sub f n L' = sub f n L;
  pa_word : forall f, 0 <= f -> f + 4 <= j \/ j + bytes_len x <= f -> word_at L' f = word_at L f;
  pa_eq : sub j (bytes_len x) L' = x;
  pa_has : has L' j x }.
Lemma patch_patched L j x : window L -> 0 <= j -> j + bytes_len x <= W -> Forall is_byte x -> patched L j x (patch j x L).
Proof.
  intros HL Hj Hx Hb. assert (HLW : bytes_len L = W) by apply HL. split.
  - by apply window_patch.
  - intros f n H0 H. apply sub_patch_ne; lia.
  - intros f H0 H. apply word_patch_ne; lia.
  - apply sub_patch_eq; lia.
  - apply patch_has; lia.
Qed.
Lemma patched_word L j v L' : patched L j (be32 v) L' -> is_u32 v -> word_at L' j = v.
Proof. intros [_ _ _ _ Hh] Hv. by apply word_be32. Qed.

Lemma set_hdr_shift d f v : __fdt_set_hdr (fdt + d) f v = __fdt_set_hdr fdt (d + f) v.
Proof. unfold __fdt_set_hdr. by rewrite (Z.add_assoc fdt d f). Qed.
Lemma put_word f v L : window L -> 0 <= f -> f + 4 <= W ->
  exists L', __fdt_set_hdr fdt f v (R L) = Ret tt (R L') /\ patched L f (be32 v) L'.
Proof.
  intros HL H0 H4. exists (patch f (be32 v) L). split; [apply set_hdr_run with (W := W); try done; lia|].
  apply patch_patched; [done|done|by change (bytes_len (be32 v)) with 4|apply be32_bytes].
Qed.
Lemma move_block {build : StrBuild} i j n x L : window L -> 0 <= i -> 0 <= j -> 0 <= n -> i + n <= W -> j + n <= W -> sub j n L = x ->
  exists L', memmove (fdt + i) (fdt + j) n (R L) = Ret (fdt + i) (R L') /\ patched L i x L'.
Proof.
  intros HL Hi Hj Hn H1 H2 <-. exists (patch i (sub j n L) L). assert (HLW : bytes_len L = W) by apply HL. split.
  - apply memmove_window with (W := W); try done; lia.
  - apply patch_patched; [done|done|rewrite sub_length; lia|]. apply sub_bytes, HL.
Qed.

Context (rsv st strs : list Z).
#[local] Abbreviation nr := (bytes_len rsv).
#[local] Abbreviation ns := (bytes_len st).
#[local] Abbreviation nt := (bytes_len strs).

(** The window has the three blocks at these offsets, and its header says so. *)
Record laid_out (L : list Z) (o_r o_s o_t : Z) : Prop := {
  lo_win : window L;
  lo_r : word_at L 16 = o_r; lo_s : word_at L 8 = o_s; lo_t : word_at L 12 = o_t;
  lo_ns : word_at L 36 = ns; lo_nt : word_at L 32 = nt;
  lo_rsv : sub o_r nr L = rsv; lo_st : sub o_s ns L = st; lo_strs : sub o_t nt L = strs;
  lo_pos : 0 <= o_r /\ 0 <= o_s /\ 0 <= o_t;
  lo_in : o_r + nr <= W /\ o_s + ns <= W /\ o_t + nt <= W }.

(** The copy of the blocks does not meet what is still to be copied. *)
Definition pack_ok (d o_r o_s o_t : Z) : Prop :=
  d = 0 /\ 40 <= o_r /\ o_r + nr <= o_s /\ o_s + ns <= o_t \/ 40 <= d /\ o_r + nr <= d /\ o_s + ns <= d /\ o_t + nt <= d.

(** The blocks behind a header at [d], and nothing else changed. *)
Record packed_at (d : Z) (L L' : list Z) : Prop := {
  pk_win : window L';
  pk_rsv : sub (d + 40) nr L' = rsv;
  pk_st : sub (d + (40 + nr)) ns L' = st;
  pk_strs : sub (d + (40 + nr + ns)) nt L' = strs;
  pk_hdr : word_at L' (d + 16) = 40 /\ word_at L' (d + 8) = 40 + nr /\ word_at L' (d + 12) = 40 + nr + ns /\
    word_at L' (d + 32) = nt /\ word_at L' (d + 36) = ns;
  pk_frame : forall f n, 0 <= f -> 0 <= n ->
    f + n <= d + 8 \/ d + 20 <= f /\ f + n <= d + 32 \/ d + (40 + nr + ns + nt) <= f -> sub f n L' = sub f n L }.

Lemma packblocks_run {build : StrBuild} L d o_r o_s o_t : laid_out L o_r o_s o_t -> pack_ok d o_r o_s o_t -> 0 <= d -> d + 40 + nr + ns + nt <= W ->
  exists L', _fdt_packblocks fdt (fdt + d) nr ns (R L) = Ret tt (R L') /\ packed_at d L L'.
Proof.
  intros [HL Hr Hs Ht Hns Hnt Br Bs Bt (P1 & P2 & P3) (I1 & I2 & I3)] Hok Hd Hfit. unfold pack_ok in Hok.
  pose proof (bytes_len_nonneg rsv). pose proof (bytes_len_nonneg st). pose proof (bytes_len_nonneg strs).
  unfold _fdt_packblocks. change (FDT_ALIGN 40 8) with 40. rewrite !(u32_small nr), !(u32_small ns) by (unfold is_u32; lia).
  rewrite (bind_run _ _ _ _ _ (int_result_run (40 + nr) (R L) ltac:(lia))).
  rewrite (bind_run _ _ _ _ _ (int_result_run (40 + nr + ns) (R L) ltac:(lia))).
  unfold fdt_off_mem_rsvmap, fdt_get_off_dt_struct, fdt_get_off_dt_strings, fdt_size_dt_strings,
    fdt_set_off_mem_rsvmap, fdt_set_off_dt_struct, fdt_set_size_dt_struct, fdt_set_off_dt_strings, fdt_set_size_dt_strings.
  rewrite (bind_run _ _ _ _ _ (hdr_run 16 L HL ltac:(lia) ltac:(lia))), Hr, <- !(Z.add_assoc fdt d).
  destruct (move_block (d + 40) o_r nr rsv L HL) as (L1 & E1 & [W1 S1 V1 Q1 _]); [lia..|done|]. rewrite (bind_run _ _ _ _ _ E1).
  rewrite !set_hdr_shift.
  destruct (put_word (d + 16) 40 L1 W1) as (L2 & E2 & P2'); [lia..|]. rewrite (bind_run _ _ _ _ _ E2).
  pose proof (patched_word _ _ _ _ P2' ltac:(done)) as K2. destruct P2' as [W2 S2 V2 _ _]. change (bytes_len (be32 _)) with 4 in S2, V2.
  rewrite (bind_run _ _ _ _ _ (hdr_run 8 L2 W2 ltac:(lia) ltac:(lia))). replace (word_at L2 8) with o_s by (rewrite V2, V1; lia).
  destruct (move_block (d + (40 + nr)) o_s ns st L2 W2) as (L3 & E3 & [W3 S3 V3 Q3 _]); [lia..|rewrite S2, S1 by lia; done|].
  rewrite (bind_run _ _ _ _ _ E3).
  destruct (put_word (d + 8) (40 + nr) L3 W3) as (L4 & E4 & P4'); [lia..|]. rewrite (bind_run _ _ _ _ _ E4).
  pose proof (patched_word _ _ (40 + nr) _ P4' ltac:(unfold is_u32; lia)) as K4. destruct P4' as [W4 S4 V4 _ _]. change (bytes_len (be32 _)) with 4 in S4, V4.
  destruct (put_word (d + 36) ns L4 W4) as (L5 & E5 & P5'); [lia..|]. rewrite (bind_run _ _ _ _ _ E5).
  pose proof (patched_word _ _ ns _ P5' ltac:(unfold is_u32; lia)) as K5. destruct P5' as [W5 S5 V5 _ _]. change (bytes_len (be32 _)) with 4 in S5, V5.
  rewrite (bind_run _ _ _ _ _ (hdr_run 12 L5 W5 ltac:(lia) ltac:(lia))).
  replace (word_at L5 12) with o_t by (rewrite V5, V4, V3, V2, V1; lia).
  rewrite (bind_run _ _ _ _ _ (hdr_run 32 L5 W5 ltac:(lia) ltac:(lia))).
  replace (word_at L5 32) with nt by (rewrite V5, V4, V3, V2, V1; lia).
  destruct (move_block (d + (40 + nr + ns)) o_t nt strs L5 W5) as (L6 & E6 & [W6 S6 V6 Q6 _]);
    [lia..|rewrite S5, S4, S3, S2, S1 by lia; done|]. rewrite (bind_run _ _ _ _ _ E6).
  destruct (put_word (d + 12) (40 + nr + ns) L6 W6) as (L7 & E7 & P7'); [lia..|]. rewrite (bind_run _ _ _ _ _ E7).
  pose proof (patched_word _ _ (40 + nr + ns) _ P7' ltac:(unfold is_u32; lia)) as K7. destruct P7' as [W7 S7 V7 _ _]. change (bytes_len (be32 _)) with 4 in S7, V7.
  rewrite (bind_run _ _ _ _ _ (hdr_run 32 L7 W7 ltac:(lia) ltac:(lia))).
  replace (word_at L7 32) with nt by (rewrite V7, V6, V5, V4, V3, V2, V1; lia).
  destruct (put_word (d + 32) nt L7 W7) as (L8 & E8 & P8'); [lia..|].
  pose proof (patched_word _ _ nt _ P8' ltac:(unfold is_u32; lia)) as K8. destruct P8' as [W8 S8 V8 _ _]. change (bytes_len (be32 _)) with 4 in S8, V8.
  exists L8. split; [rewrite set_hdr_shift; exact E8|]. split.
  - done.
  - rewrite S8, S7, S6, S5, S4, S3, S2 by lia. exact Q1.
  - rewrite S8, S7, S6, S5, S4 by lia. exact Q3.
  - rewrite S8, S7 by lia. exact Q6.
  - split_and!.
    + rewrite V8, V7, V6, V5, V4, V3 by lia. exact K2.
    + rewrite V8, V7, V6, V5 by lia. exact K4.
    + rewrite V8 by lia. exact K7.
    + exact K8.
    + rewrite V8, V7, V6 by lia. exact K5.
  - intros f n Hf0 Hn H'. by rewrite S8, S7, S6, S5, S4, S3, S2, S1 by lia.
Qed.

(** ** fdt_open_into and fdt_pack, in place *)

Context {build : StrBuild} (l : list (Z * Z)) (Hrsv : rsv = enc_rsv l) (Hl : rsv_ok l).

Lemma patch_self i n L : window L -> 0 <= i -> 0 <= n -> i + n <= W -> patch i (sub i n L) L = L.
Proof.
  intros [HL _] Hi Hn Hb. apply list_eq. intros k. rewrite patch_lookup by (rewrite ?sub_length; lia). rewrite sub_length by lia.
  destruct (Z.leb_spec i (Z.of_nat k)), (Z.ltb_spec (Z.of_nat k) (i + n)); cbn [andb]; try done.
  rewrite sub_lookup by done. rewrite (proj2 (Z.ltb_lt _ _)) by lia. f_equal. lia.
Qed.

(** The rest of the header. *)
Record header_ok (L : list Z) (total : Z) : Prop := {
  hd_magic : word_at L 0 = FDT_MAGIC;
  hd_version : 17 <= word_at L 20 < 2 ^ 32;
  hd_last : word_at L 24 <= 17;
  hd_total : word_at L 4 = total;
  hd_fits : 40 <= total <= W }.
Lemma window_header_run L total k x m : window L -> header_ok L total -> k (R L) = Ret x m -> check_header fdt k (R L) = Ret x m.
Proof.
  intros HL [H0 Hv Hc Ht Hb] Hk. unfold check_header. apply (on_blob_run fdt m0 W); [apply HL|]. intros r. assert (HLW : bytes_len L = W) by apply HL.
  assert (E : forall f, 0 <= f -> f + 4 <= 40 -> fdt_get_header fdt (L ++ r) f (R L) = Ret (word_at L f) (R L)).
  { intros f F0 F4. apply prefix_load32 with (W := W); try done; lia. }
  unfold FDT_CHECK_HEADER. rewrite (bind_run _ _ _ 0 (R L)); [exact Hk|]. unfold fdt_check_header, fdt_magic, fdt_version, fdt_last_comp_version.
  rewrite (bind_run _ _ _ _ _ (E 0 ltac:(lia) ltac:(lia))), H0. cbn [Z.eqb Pos.eqb FDT_MAGIC].
  rewrite (bind_run _ _ _ _ _ (E 20 ltac:(lia) ltac:(lia))). change FDT_FIRST_SUPPORTED_VERSION with 16. change FDT_LAST_SUPPORTED_VERSION with 17.
  rewrite (proj2 (Z.ltb_ge _ _)) by lia. rewrite (bind_run _ _ _ _ _ (E 24 ltac:(lia) ltac:(lia))).
  rewrite Z.gtb_ltb, (proj2 (Z.ltb_ge _ _)) by lia. done.
Qed.

Lemma misordered_run L o_r o_s o_t total n : laid_out L o_r o_s o_t -> header_ok L total -> o_t + nt <= total -> 0 <= n <= nr ->
  _fdt_blocks_misordered fdt n ns (R L) =
    Ret ((o_r <? 40) || (o_s <? o_r + n) || (o_t <? o_s + ns)) (R L).
Proof.
  intros [HL Hr Hs Ht Hns Hnt _ _ _ (P1 & P2 & P3) (I1 & I2 & I3)] Hh Hb Hn. unfold _fdt_blocks_misordered.
  pose proof (bytes_len_nonneg rsv). pose proof (bytes_len_nonneg st). pose proof (bytes_len_nonneg strs).
  unfold fdt_off_mem_rsvmap, fdt_get_off_dt_struct, fdt_get_off_dt_strings, fdt_get_totalsize, fdt_size_dt_strings.
  rewrite (bind_run _ _ _ _ _ (hdr_run 16 L HL ltac:(lia) ltac:(lia))), (bind_run _ _ _ _ _ (hdr_run 8 L HL ltac:(lia) ltac:(lia))),
    (bind_run _ _ _ _ _ (hdr_run 12 L HL ltac:(lia) ltac:(lia))), (bind_run _ _ _ _ _ (hdr_run 4 L HL ltac:(lia) ltac:(lia))),
    (bind_run _ _ _ _ _ (hdr_run 32 L HL ltac:(lia) ltac:(lia))).
  rewrite Hr, Hs, Ht, Hnt, (hd_total _ _ Hh). change (FDT_ALIGN 40 8) with 40. rewrite !u32_small by (unfold is_u32; lia).
  rewrite (proj2 (Z.ltb_ge total _)) by lia. unfold ret. by rewrite orb_false_r.
Qed.

Lemma laid_out_patched L o_r o_s o_t f v L' : laid_out L o_r o_s o_t -> patched L f (be32 v) L' ->
  f = 0 \/ f = 4 \/ f = 20 \/ f = 24 \/ f = 28 \/ f = 36 /\ v = ns -> 40 <= o_r -> 40 <= o_s -> 40 <= o_t -> laid_out L' o_r o_s o_t.
Proof.
  intros [HL Hr Hs Ht Hns Hnt Br Bs Bt (P1 & P2 & P3) (I1 & I2 & I3)] Hp Hf' Q1 Q2 Q3. pose proof (patched_word _ _ v _ Hp) as Hw.
  pose proof (bytes_len_nonneg st). destruct Hp as [W' S V _ _]. change (bytes_len (be32 v)) with 4 in S, V.
  split; try (split_and!; lia); try (rewrite S by lia; done); try (rewrite V by lia; done); [done|].
  destruct (decide (f = 36)) as [->|]; [|by rewrite V by lia]. rewrite Hw; [lia|]. unfold is_u32. lia.
Qed.

(** A header word set, the blocks left alone. *)
Lemma put_header_field L o_r o_s o_t f v : laid_out L o_r o_s o_t -> 40 <= o_r -> 40 <= o_s -> 40 <= o_t -> is_u32 v ->
  f = 0 \/ f = 4 \/ f = 20 \/ f = 24 \/ f = 28 \/ f = 36 /\ v = ns ->
  exists L', __fdt_set_hdr fdt f v (R L) = Ret tt (R L') /\ laid_out L' o_r o_s o_t /\ word_at L' f = v /\
    (forall g, 0 <= g -> g + 4 <= f \/ f + 4 <= g -> word_at L' g = word_at L g).
Proof.
  intros Hlo Q1 Q2 Q3 Hv Hf'. destruct (put_word f v L (lo_win _ _ _ _ Hlo)) as (L' & E & P); [lia..|]. exists L'. split_and!.
  - done.
  - by eapply laid_out_patched.
  - by eapply patched_word.
  - intros g Hg H. apply (pa_word _ _ _ _ P); [done|]. by change (bytes_len (be32 v)) with 4.
Qed.

(** What both functions need of the window, and the size of the structure block. *)
Lemma blocks_run L o_r o_s o_t total : laid_out L o_r o_s o_t -> header_ok L total ->
  rsv_bytes fdt (R L) = Ret nr (R L) /\ fdt_get_version fdt (R L) = Ret (word_at L 20) (R L) /\
  fdt_get_size_dt_struct fdt (R L) = Ret ns (R L) /\ fdt_get_totalsize fdt (R L) = Ret total (R L) /\ i32 ns = ns.
Proof.
  intros [HL Hr Hs Ht Hns Hnt Br Bs Bt (P1 & P2 & P3) (I1 & I2 & I3)] Hh.
  pose proof (bytes_len_nonneg rsv). pose proof (bytes_len_nonneg st). assert (HLW : bytes_len L = W) by apply HL. split_and!.
  - rewrite Hrsv. apply rsv_bytes_run; [done|lia| |done]. rewrite <- Hrsv, Hr. apply sub_has; [lia|lia|done].
  - apply hdr_run; [done|lia|lia].
  - rewrite <- Hns. apply hdr_run; [done|lia|lia].
  - rewrite <- (hd_total _ _ Hh). apply hdr_run; [done|lia|lia].
  - apply i32_small. lia.
Qed.

Lemma open_ordered L o_r o_s o_t total : laid_out L o_r o_s o_t -> header_ok L total -> o_t + nt <= total ->
  40 <= o_r -> o_r + nr <= o_s -> o_s + ns <= o_t ->
  exists L', fdt_open_into fdt fdt W (R L) = Ret 0 (R L') /\ laid_out L' o_r o_s o_t /\ header_ok L' W /\ word_at L' 20 = 17 /\
    word_at L' 24 = word_at L 24 /\ word_at L' 28 = word_at L 28.
Proof.
  intros Hlo Hh Hb O1 O2 O3. destruct (blocks_run _ _ _ _ _ Hlo Hh) as (Ersv & Ev & Esz & Etot & Ens).
  pose proof (hd_version _ _ Hh) as Hv. pose proof (hd_fits _ _ Hh) as Hfit. assert (HL : window L) by apply Hlo.
  pose proof (bytes_len_nonneg rsv). pose proof (bytes_len_nonneg st). pose proof (bytes_len_nonneg strs).
  assert (Emv : memmove (fdt + 0) (fdt + 0) total (R L) = Ret (fdt + 0) (R (patch 0 (sub 0 total L) L)))
    by (apply memmove_window with (W := W); (done || lia)).
  rewrite patch_self, Z.add_0_r in Emv by (done || lia).
  destruct (put_header_field L o_r o_s o_t 20 17 Hlo) as (L1 & E1 & Lo1 & K1 & V1); [lia..|by split|lia|].
  destruct (put_header_field L1 o_r o_s o_t 36 ns Lo1) as (L2 & E2 & Lo2 & _ & V2); [lia..|unfold is_u32; lia|lia|].
  destruct (put_header_field L2 o_r o_s o_t 4 W Lo2) as (L3 & E3 & Lo3 & K3 & V3); [lia..|unfold is_u32; lia|lia|].
  exists L3. split; [|split; [done|]].
  - unfold fdt_open_into. rewrite (bind_run _ _ _ _ _ Etot). apply (window_header_run L total); [done|done|].
    rewrite (bind_run _ _ _ _ _ Ersv), (bind_run _ _ _ _ _ Ev). rewrite Z.geb_leb, (proj2 (Z.leb_le _ _)) by lia.
    rewrite (bind_run _ _ _ ns (R L)) by (rewrite (bind_run _ _ _ _ _ Esz), Ens; done).
    rewrite (proj2 (Z.ltb_ge _ _)) by lia. cbn [andb].
    rewrite (bind_run _ _ _ _ _ (misordered_run L _ _ _ total nr Hlo Hh Hb ltac:(lia))).
    rewrite (proj2 (Z.ltb_ge o_r 40)), (proj2 (Z.ltb_ge o_s _)), (proj2 (Z.ltb_ge o_t _)) by lia. cbn [orb negb].
    rewrite (bind_run _ _ _ 0 (R L)).
    + cbn [truth Z.eqb negb]. change (truth 0) with false. cbv iota.
      unfold fdt_set_version, fdt_set_size_dt_struct, fdt_set_totalsize.
      by rewrite (bind_run _ _ _ _ _ E1), (bind_run _ _ _ _ _ E2), (bind_run _ _ _ _ _ E3).
    + unfold fdt_move. apply (window_header_run L total); [done|done|]. rewrite (bind_run _ _ _ _ _ Etot).
      rewrite u32_small by (unfold is_u32; lia). rewrite Z.gtb_ltb, (proj2 (Z.ltb_ge _ _)) by lia.
      by rewrite (bind_run _ _ _ _ _ Emv).
  - destruct Hh as [Hmg Hvv Hc Ht Hbb]. split_and!.
    + split; [rewrite V3, V2, V1 by lia; done|rewrite V3, V2, K1 by lia; lia|rewrite V3, V2, V1 by lia; done|done|lia].
    + rewrite V3, V2, K1 by lia. done.
    + by rewrite V3, V2, V1 by lia.
    + by rewrite V3, V2, V1 by lia.
Qed.

Lemma packed_words L d L' f : packed_at d L L' -> 0 <= d -> f + 4 <= 8 \/ 20 <= f /\ f + 4 <= 32 -> 0 <= f -> word_at L' (d + f) = word_at L (d + f).
Proof. intros H Hd Hf' H0. apply word_sub; [lia..|]. apply (pk_frame _ _ _ H); lia. Qed.

(** The packed copy moved to the front. *)
Lemma moved_front L d L1 L2 N : packed_at d L L1 -> N = 40 + nr + ns + nt -> 0 <= d -> d + N <= W -> patched L1 0 (sub d N L1) L2 ->
  laid_out L2 40 (40 + nr) (40 + nr + ns) /\ word_at L2 28 = word_at L (d + 28).
Proof.
  intros Hp HN Hd Hfit H2. pose proof (bytes_len_nonneg rsv). pose proof (bytes_len_nonneg st). pose proof (bytes_len_nonneg strs).
  assert (Hlen : bytes_len (sub d N L1) = N) by (apply sub_length; [lia|lia|destruct (pk_win _ _ _ Hp); lia]).
  assert (S : forall f n, 0 <= f -> 0 <= n -> f + n <= N -> sub f n L2 = sub (d + f) n L1).
  { intros f n Hf0 Hn Hfn. rewrite <- (sub_sub d N f n L1) by lia. rewrite <- (pa_eq _ _ _ _ H2) at 1. rewrite Hlen, sub_sub by lia. done. }
  assert (V : forall f, 0 <= f -> f + 4 <= N -> word_at L2 f = word_at L1 (d + f)).
  { intros f Hf0 Hfn. apply word_sub; [lia..|]. apply S; lia. }
  destruct (pk_hdr _ _ _ Hp) as (K1 & K2 & K3 & K4 & K5). split.
  - split; rewrite ?V by lia; try done; try (split_and!; lia).
    + apply H2.
    + rewrite S by lia. apply Hp.
    + rewrite S by lia. apply Hp.
    + rewrite S by lia. apply Hp.
  - rewrite V by lia. eapply packed_words; [exact Hp|lia..].
Qed.

Lemma open_reordered L o_r o_s o_t total : laid_out L o_r o_s o_t -> header_ok L total ->
  o_r + nr <= total -> o_s + ns <= total -> o_t + nt <= total ->
  (o_r <? 40) || (o_s <? o_r + nr) || (o_t <? o_s + ns) = true -> total + 40 + nr + ns + nt <= W ->
  exists L', fdt_open_into fdt fdt W (R L) = Ret 0 (R L') /\ laid_out L' 40 (40 + nr) (40 + nr + ns) /\ header_ok L' W /\ word_at L' 20 = 17 /\
    word_at L' 24 = 16 /\ word_at L' 28 = word_at L (total + 28).
Proof.
  intros Hlo Hh B1 B2 B3 Hmis Hroom2. destruct (blocks_run _ _ _ _ _ Hlo Hh) as (Ersv & Ev & Esz & Etot & Ens).
  pose proof (hd_version _ _ Hh) as Hv. pose proof (hd_fits _ _ Hh) as Hfit. assert (HL : window L) by apply Hlo.
  pose proof (bytes_len_nonneg rsv). pose proof (bytes_len_nonneg st). pose proof (bytes_len_nonneg strs).
  set (N := 40 + nr + ns + nt). assert (HN : N = 40 + nr + ns + nt) by done.
  destruct (packblocks_run L total o_r o_s o_t Hlo ltac:(right; lia) ltac:(lia) ltac:(lia)) as (L1 & E1 & Hp).
  destruct (move_block 0 total N _ L1 (pk_win _ _ _ Hp) ltac:(lia) ltac:(lia) ltac:(lia) ltac:(lia) ltac:(lia) eq_refl) as (L2 & E2 & P2).
  rewrite Z.add_0_r in E2. destruct (moved_front L total L1 L2 N Hp HN ltac:(lia) ltac:(lia) P2) as [Lo2 Hboot].
  destruct (put_header_field L2 _ _ _ 0 FDT_MAGIC Lo2) as (L3 & E3 & Lo3 & K3 & V3); [lia..|by split|lia|].
  destruct (put_header_field L3 _ _ _ 4 W Lo3) as (L4 & E4 & Lo4 & K4 & V4); [lia..|unfold is_u32; lia|lia|].
  destruct (put_header_field L4 _ _ _ 20 17 Lo4) as (L5 & E5 & Lo5 & K5 & V5); [lia..|by split|lia|].
  destruct (put_header_field L5 _ _ _ 24 16 Lo5) as (L6 & E6 & Lo6 & K6 & V6); [lia..|by split|lia|].
  pose proof (lo_win _ _ _ _ Lo6) as W6.
  destruct (put_header_field L6 _ _ _ 28 (word_at L6 28) Lo6) as (L7 & E7 & Lo7 & K7 & V7); [lia..|by apply window_word|lia|].
  exists L7. split; [|split; [done|]].
  - unfold fdt_open_into. rewrite (bind_run _ _ _ _ _ Etot). apply (window_header_run L total); [done|done|].
    rewrite (bind_run _ _ _ _ _ Ersv), (bind_run _ _ _ _ _ Ev). rewrite Z.geb_leb, (proj2 (Z.leb_le _ _)) by lia.
    rewrite (bind_run _ _ _ ns (R L)) by (rewrite (bind_run _ _ _ _ _ Esz), Ens; done).
    rewrite (proj2 (Z.ltb_ge _ _)) by lia. cbn [andb].
    rewrite (bind_run _ _ _ _ _ (misordered_run L _ _ _ total nr Hlo Hh B3 ltac:(lia))), Hmis. cbn [negb].
    unfold fdt_size_dt_strings. rewrite (bind_run _ _ _ _ _ (hdr_run 32 L HL ltac:(lia) ltac:(lia))), (lo_nt _ _ _ _ Hlo).
    change (FDT_ALIGN 40 8) with 40. fold N. rewrite i32_small by lia. rewrite !u32_small by (unfold is_u32; lia).
    rewrite (proj2 (Z.ltb_ge W N)) by lia. rewrite Z.gtb_ltb, (proj2 (Z.ltb_lt fdt (fdt + N))), (proj2 (Z.ltb_lt fdt _)) by lia. cbn [andb].
    rewrite !u32_small by (unfold is_u32; lia). rewrite Z.gtb_ltb, (proj2 (Z.ltb_ge _ _)) by lia.
    rewrite (bind_run _ _ _ _ _ E1), (bind_run _ _ _ _ _ E2).
    unfold fdt_set_magic, fdt_set_totalsize, fdt_set_version, fdt_set_last_comp_version, fdt_boot_cpuid_phys, fdt_set_boot_cpuid_phys.
    rewrite (bind_run _ _ _ _ _ E3), (bind_run _ _ _ _ _ E4), (bind_run _ _ _ _ _ E5), (bind_run _ _ _ _ _ E6).
    by rewrite (bind_run _ _ _ _ _ (hdr_run 28 L6 W6 ltac:(lia) ltac:(lia))), (bind_run _ _ _ _ _ E7).
  - rewrite K7, V6, V5, V4, V3 by lia. split_and!; [|by rewrite V7, V6, K5 by lia|by rewrite V7, K6 by lia|done].
    split; [by rewrite V7, V6, V5, V4, K3 by lia|rewrite V7, V6, K5 by lia; lia|rewrite V7, K6 by lia; lia|by rewrite V7, V6, V5, K4 by lia|lia].
Qed.

(** The packed tree as a list. *)
Definition packed_blob (last boot : Z) : list Z :=
  be32 FDT_MAGIC ++ be32 (40 + nr + ns + nt) ++ be32 (40 + nr) ++ be32 (40 + nr + ns) ++ be32 40 ++
  be32 17 ++ be32 last ++ be32 boot ++ be32 nt ++ be32 ns ++ rsv ++ st ++ strs.

Lemma word_split i n L : window L -> 0 <= i -> 4 <= n -> i + n <= W -> sub i n L = be32 (word_at L i) ++ sub (i + 4) (n - 4) L.
Proof. intros [HL HB] Hi Hn Hb. rewrite (sub_cut i n 4), sub_be32 by (done || lia). done. Qed.
Lemma header_split N L : window L -> 40 <= N <= W ->
  sub 0 N L = be32 (word_at L 0) ++ be32 (word_at L 4) ++ be32 (word_at L 8) ++ be32 (word_at L 12) ++ be32 (word_at L 16) ++
    be32 (word_at L 20) ++ be32 (word_at L 24) ++ be32 (word_at L 28) ++ be32 (word_at L 32) ++ be32 (word_at L 36) ++ sub 40 (N - 40) L.
Proof.
  intros HL HN. rewrite (word_split 0 N) by (done || lia). change (0 + 4) with 4.
  rewrite (word_split 4) by (done || lia). change (4 + 4) with 8. rewrite (word_split 8) by (done || lia). change (8 + 4) with 12.
  rewrite (word_split 12) by (done || lia). change (12 + 4) with 16. rewrite (word_split 16) by (done || lia). change (16 + 4) with 20.
  rewrite (word_split 20) by (done || lia). change (20 + 4) with 24. rewrite (word_split 24) by (done || lia). change (24 + 4) with 28.
  rewrite (word_split 28) by (done || lia). change (28 + 4) with 32. rewrite (word_split 32) by (done || lia). change (32 + 4) with 36.
  rewrite (word_split 36) by (done || lia). change (36 + 4) with 40. by replace (N - 4 - 4 - 4 - 4 - 4 - 4 - 4 - 4 - 4 - 4) with (N - 40) by lia.
Qed.

(** Packing an ordered tree gives this list. *)
Lemma pack_run L o_r o_s o_t : laid_out L o_r o_s o_t -> header_ok L W -> word_at L 20 = 17 ->
  40 <= o_r -> o_r + nr <= o_s -> o_s + ns <= o_t ->
  exists L', fdt_pack fdt (R L) = Ret 0 (R L') /\ window L' /\ 40 + nr + ns + nt <= W /\
    sub 0 (40 + nr + ns + nt) L' = packed_blob (word_at L 24) (word_at L 28).
Proof.
  intros Hlo Hh Hv17 O1 O2 O3. destruct (blocks_run _ _ _ _ _ Hlo Hh) as (Ersv & Ev & Esz & Etot & Ens).
  destruct (lo_in _ _ _ _ Hlo) as (I1 & I2 & I3). assert (HL : window L) by apply Hlo.
  pose proof (bytes_len_nonneg rsv). pose proof (bytes_len_nonneg st). pose proof (bytes_len_nonneg strs).
  assert (Hnr : 16 <= nr) by (rewrite Hrsv, enc_rsv_len; pose proof (bytes_len_nonneg l); lia).
  destruct (packblocks_run L 0 o_r o_s o_t Hlo ltac:(left; lia) ltac:(lia) ltac:(lia)) as (L1 & E1 & Hp). rewrite Z.add_0_r in E1.
  destruct Hp as [W1 B1 B2 B3 (K1 & K2 & K3 & K4 & K5) Fr] eqn:EHp. clear EHp. rewrite Z.add_0_l in *.
  set (N := 40 + nr + ns + nt) in *. destruct (put_word 4 N L1 W1) as (L2 & E2 & P2); [lia..|].
  pose proof (patched_word _ _ N _ P2 ltac:(unfold is_u32; lia)) as K6. destruct P2 as [W2 S2 V2 _ _]. change (bytes_len (be32 N)) with 4 in S2, V2.
  exists L2. split_and!; [|done|lia|].
  - unfold fdt_pack, FDT_RW_CHECK_HEADER. rewrite (bind_run _ _ _ 0 (R L)).
    + change (truth 0) with false. cbv iota. rewrite (bind_run _ _ _ _ _ Ersv), (bind_run _ _ _ _ _ Esz), Ens, (bind_run _ _ _ _ _ E1).
      rewrite (bind_run _ _ _ N (R L1)).
      * unfold fdt_set_totalsize. by rewrite (bind_run _ _ _ _ _ E2).
      * unfold _fdt_data_size, fdt_get_off_dt_strings, fdt_size_dt_strings.
        rewrite (bind_run _ _ _ _ _ (hdr_run 12 L1 W1 ltac:(lia) ltac:(lia))), (bind_run _ _ _ _ _ (hdr_run 32 L1 W1 ltac:(lia) ltac:(lia))).
        rewrite K3, K4, i32_small by lia. done.
    + unfold _fdt_rw_check_header. apply (window_header_run L W); [done|done|]. rewrite (bind_run _ _ _ _ _ Ev), Hv17. cbn [Z.ltb Z.compare Pos.compare Pos.compare_cont].
      rewrite (bind_run _ _ _ _ _ Esz), Ens.
      rewrite (bind_run _ _ _ _ _ (misordered_run L _ _ _ W 16 Hlo Hh ltac:(lia) ltac:(lia))).
      rewrite (proj2 (Z.ltb_ge o_r 40)), (proj2 (Z.ltb_ge o_s _)), (proj2 (Z.ltb_ge o_t _)) by lia. done.
  - assert (V1 : forall f, 0 <= f -> f + 4 <= 8 \/ 20 <= f /\ f + 4 <= 32 -> word_at L1 f = word_at L f)
      by (intros f Hf0 Hd; apply word_sub; [lia..|]; apply Fr; lia).
    rewrite header_split, K6 by (done || lia). rewrite !V2 by lia. rewrite (V1 0), (V1 20), (V1 24), (V1 28) by lia. rewrite K1, K2, K3, K4, K5, Hv17, (hd_magic _ _ Hh).
    unfold packed_blob. fold N. do 10 f_equal. replace (N - 40) with (nr + (ns + nt)) by lia.
    rewrite (sub_cut 40 _ nr), (sub_cut (40 + nr) _ ns), !S2 by lia. rewrite B1. f_equal.
    replace (nr + (ns + nt) - nr - ns) with nt by lia. by rewrite B2, B3.
Qed.
End packing.

(** ** The tree before and after *)

Definition struct_of (t : tree) : list Z := enc t ++ be32 FDT_END.

(** At [fdt] there is, with [W] bytes of room, the tree [t] with the reservations
    [l] and the strings [strs], in any order of the three blocks: in the order of the
    specification, or with room for a copy behind the tree. *)
Record tree_at (fdt W : Z) (L : list Z) (l : list (Z * Z)) (strs : list Z) (t : tree) (o_r o_s o_t total : Z) : Prop := {
  ta_addr : 0 < fdt /\ fdt + W < 2 ^ 32 /\ 40 <= W < 2 ^ 30;
  ta_laid : laid_out W (enc_rsv l) (struct_of t) strs L o_r o_s o_t;
  ta_header : header_ok W L total;
  ta_total : o_r + bytes_len (enc_rsv l) <= total /\ o_s + bytes_len (struct_of t) <= total /\ o_t + bytes_len strs <= total;
  ta_rsv : rsv_ok l;
  ta_strings : tree_ok strs t = true;
  ta_room : 40 <= o_r /\ o_r + bytes_len (enc_rsv l) <= o_s /\ o_s + bytes_len (struct_of t) <= o_t \/
            total + 40 + bytes_len (enc_rsv l) + bytes_len (struct_of t) + bytes_len strs <= W }.

(** The order that the code looks for. *)
Definition ordered_blocks (l : list (Z * Z)) (t : tree) (o_r o_s o_t : Z) : bool :=
  negb ((o_r <? 40) || (o_s <? o_r + bytes_len (enc_rsv l)) || (o_t <? o_s + bytes_len (struct_of t))).

Lemma packed_words_at rsv st strs last boot r : bytes_len (packed_blob rsv st strs last boot) < 2 ^ 30 -> is_u32 last ->
  let b := packed_blob rsv st strs last boot ++ r in
  word_at b 0 = FDT_MAGIC /\ word_at b 8 = 40 + bytes_len rsv /\ word_at b 12 = 40 + bytes_len rsv + bytes_len st /\
  word_at b 20 = 17 /\ word_at b 24 = last /\ word_at b 36 = bytes_len st.
Proof.
  intros Hlen Hlast. cbv zeta. pose proof (bytes_len_nonneg rsv). pose proof (bytes_len_nonneg st). pose proof (bytes_len_nonneg strs).
  unfold packed_blob in *. rewrite !bytes_len_app, !be32_len in Hlen. set (N := 40 + bytes_len rsv + bytes_len st + bytes_len strs) in *.
  rewrite <- !app_assoc. set (h1 := be32 FDT_MAGIC ++ be32 N). set (h2 := h1 ++ be32 (40 + bytes_len rsv)).
  set (h3 := h2 ++ be32 (40 + bytes_len rsv + bytes_len st) ++ be32 40). set (h4 := h3 ++ be32 17).
  set (h5 := h4 ++ be32 last ++ be32 boot ++ be32 (bytes_len strs)).
  split_and!.
  - apply (word_mid [] FDT_MAGIC). by split.
  - apply (word_mid h1). unfold is_u32. lia.
  - apply (word_mid h2). unfold is_u32. lia.
  - apply (word_mid h3). by split.
  - apply (word_mid h4). done.
  - apply (word_mid h5). unfold is_u32. lia.
Qed.
Lemma prop_ok_app strs r p : prop_ok strs p = true -> prop_ok (strs ++ r) p = true.
Proof.
  unfold prop_ok. rewrite !andb_true_iff, !bool_decide_eq_true. intros ((((H1 & H2) & H3) & H4) & H5).
  assert (Hl : (length (p_name p ++ [0%Z]) <= length (drop (Z.to_nat (p_nameoff p)) strs))%nat).
  { rewrite <- H4 at 1. rewrite length_take. lia. }
  split_and!; [done|done|rewrite bytes_len_app; pose proof (bytes_len_nonneg r); lia| |done].
  rewrite drop_app_le by (unfold bytes_len in H3; lia). by rewrite take_app_le.
Qed.
Lemma tree_ok_app strs r t : tree_ok strs t = true -> tree_ok (strs ++ r) t = true.
Proof.
  induction t as [n ps ks IH] using tree_ind'. cbn [tree_ok]. rewrite !andb_true_iff, !forallb_Forall. intros [[H1 H2] H3].
  split_and!; [done|eapply Forall_impl; [exact H2|]; intros p; apply prop_ok_app|].
  rewrite Forall_forall in *. intros k Hk. by apply IH, H3.
Qed.
Lemma packed_holds fdt l strs t last boot r : let b := packed_blob (enc_rsv l) (struct_of t) strs last boot ++ r in
  0 < fdt -> fdt + bytes_len b < 2 ^ 32 -> bytes_len b < 2 ^ 30 -> Forall is_byte b -> 0 <= last <= 17 -> tree_ok strs t = true ->
  holds_tree fdt b t.
Proof.
  intros b Hf Hend Hlen Hb Hlast Hok. pose proof (bytes_len_nonneg strs). pose proof (bytes_len_nonneg r).
  pose proof (bytes_len_nonneg (enc_rsv l)). pose proof (bytes_len_nonneg (struct_of t)).
  set (rsv := enc_rsv l) in *. set (st := struct_of t) in *. assert (E : bytes_len b = 40 + bytes_len rsv + bytes_len st + bytes_len strs + bytes_len r).
  { unfold b, packed_blob. rewrite !bytes_len_app, !be32_len. lia. }
  destruct (packed_words_at rsv st strs last boot r) as (Hmg & H8 & H12 & H20 & H24 & H36).
  { unfold b in Hlen. rewrite bytes_len_app in Hlen. lia. } { unfold is_u32. lia. } fold b in Hmg, H8, H12, H20, H24, H36.
  set (pre := be32 FDT_MAGIC ++ be32 (40 + bytes_len rsv + bytes_len st + bytes_len strs) ++ be32 (40 + bytes_len rsv) ++
    be32 (40 + bytes_len rsv + bytes_len st) ++ be32 40 ++ be32 17 ++ be32 last ++ be32 boot ++ be32 (bytes_len strs) ++ be32 (bytes_len st) ++ rsv).
  assert (Hall : b = pre ++ st ++ strs ++ r) by (unfold b, packed_blob, pre; by rewrite <- !app_assoc).
  assert (Hpre : bytes_len pre = 40 + bytes_len rsv) by (unfold pre; rewrite !bytes_len_app, !be32_len; lia).
  split; unfold off_struct, size_struct; rewrite ?H8, ?H36.
  - split; unfold off_struct, size_struct; rewrite ?H8, ?H20, ?H36; unfold bytes_len in *; try lia. exact Hb.
  - done.
  - rewrite H24. lia.
  - exists pre, (strs ++ r). by split.
  - done.
  - apply (strs_wf (strs ++ r) (pre ++ st)); [by rewrite Hall, <- app_assoc|rewrite H12, bytes_len_app; lia|].
    by apply tree_ok_app.
Qed.

Section opened.
Context {build : StrBuild} (fdt W : Z) (L : list Z) (l : list (Z * Z)) (strs : list Z) (t : tree) (o_r o_s o_t total : Z).
Context (Ht : tree_at fdt W L l strs t o_r o_s o_t total).

(** The words of the header that packing does not compute. *)
Definition kept_last : Z := if ordered_blocks l t o_r o_s o_t then word_at L 24 else 16.
Definition kept_boot : Z := if ordered_blocks l t o_r o_s o_t then word_at L 28 else word_at L (total + 28).

Lemma open_run m : at_mem m fdt L -> exists L1 p_r p_s p_t, fdt_open_into fdt fdt W m = Ret 0 (put_bytes fdt L1 m) /\
  laid_out W (enc_rsv l) (struct_of t) strs L1 p_r p_s p_t /\ header_ok W L1 W /\ word_at L1 20 = 17 /\
  word_at L1 24 = kept_last /\ word_at L1 28 = kept_boot /\
  40 <= p_r /\ p_r + bytes_len (enc_rsv l) <= p_s /\ p_s + bytes_len (struct_of t) <= p_t.
Proof.
  intros Hm. destruct Ht as [(Hf & Hend & HW) Hlo Hh (B1 & B2 & B3) Hl Hok Hroom].
  assert (HLW : bytes_len L = W) by apply (lo_win _ _ _ _ _ _ _ _ Hlo).
  assert (Hr : forall i, 0 <= i < W -> is_Some (m !! (fdt + i))).
  { intros i Hi. unfold bytes_len in HLW. destruct (lookup_lt_is_Some_2 L (Z.to_nat i) ltac:(lia)) as [b Hb]. exists b.
    replace i with (Z.of_nat (Z.to_nat i)) by lia. by apply (at_mem_lookup m fdt L). }
  unfold kept_last, kept_boot, ordered_blocks. destruct ((o_r <? 40) || _ || _) eqn:Em; cbn [negb].
  - assert (Hfit : total + 40 + bytes_len (enc_rsv l) + bytes_len (struct_of t) + bytes_len strs <= W).
    { destruct Hroom as [Ho|Ho]; [|done]. rewrite !orb_true_iff, !Z.ltb_lt in Em. lia. }
    destruct (open_reordered fdt m W Hf Hend HW Hr _ _ _ l eq_refl Hl L o_r o_s o_t total Hlo Hh B1 B2 B3 Em Hfit)
      as (L1 & E & Lo1 & H1 & K1 & K2 & K3).
    unfold R in E. rewrite (put_same m fdt L Hm) in E. exists L1, 40, (40 + bytes_len (enc_rsv l)), (40 + bytes_len (enc_rsv l) + bytes_len (struct_of t)).
    split_and!; (done || lia).
  - rewrite !orb_false_iff, !Z.ltb_ge in Em. destruct Em as [[O1 O2] O3].
    destruct (open_ordered fdt m W Hf Hend HW Hr _ _ _ l eq_refl Hl L o_r o_s o_t total Hlo Hh B3 O1 O2 O3) as (L1 & E & Lo1 & H1 & K1 & K2 & K3).
    unfold R in E. rewrite (put_same m fdt L Hm) in E. exists L1, o_r, o_s, o_t. by split_and!.
Qed.

Lemma open_pack_run m : at_mem m fdt L -> exists m1 L', fdt_open_into fdt fdt W m = Ret 0 m1 /\ fdt_pack fdt m1 = Ret 0 (put_bytes fdt L' m) /\
  bytes_len L' = W /\ (exists r, L' = packed_blob (enc_rsv l) (struct_of t) strs kept_last kept_boot ++ r) /\ holds_tree fdt L' t.
Proof.
  intros Hm. destruct (open_run m Hm) as (L1 & p_r & p_s & p_t & E & Lo1 & H1 & K20 & K24 & K28 & O1 & O2 & O3).
  destruct Ht as [(Hf & Hend & HW) Hlo Hh _ Hl Hok _]. assert (HL1 : bytes_len L1 = W) by apply (lo_win _ _ _ _ _ _ _ _ Lo1).
  assert (HLW : bytes_len L = W) by apply (lo_win _ _ _ _ _ _ _ _ Hlo).
  assert (Hr : forall i, 0 <= i < W -> is_Some (m !! (fdt + i))).
  { intros i Hi. unfold bytes_len in HLW. destruct (lookup_lt_is_Some_2 L (Z.to_nat i) ltac:(lia)) as [b Hb]. exists b.
    replace i with (Z.of_nat (Z.to_nat i)) by lia. by apply (at_mem_lookup m fdt L). }
  destruct (pack_run fdt m W Hf Hend HW Hr _ _ _ l eq_refl Hl L1 p_r p_s p_t Lo1 H1 K20 O1 O2 O3) as (L2 & E2 & [W2 B2] & Hfit & Hs).
  rewrite K24, K28 in Hs. exists (put_bytes fdt L1 m), L2. split; [exact E|]. split; [exact E2|]. split; [exact W2|].
  assert (HL2 : L2 = packed_blob (enc_rsv l) (struct_of t) strs kept_last kept_boot ++ drop (Z.to_nat (40 + bytes_len (enc_rsv l) + bytes_len (struct_of t) + bytes_len strs)) L2).
  { rewrite <- Hs. unfold sub. change (Z.to_nat 0) with 0%nat. rewrite drop_0. by rewrite take_drop. }
  split; [by eexists|]. rewrite HL2. apply packed_holds; rewrite <- ?HL2; try done; try lia.
  unfold kept_last. pose proof (window_word W L 24 (lo_win _ _ _ _ _ _ _ _ Hlo)) as [? _]. pose proof (hd_last _ _ _ Hh). destruct (ordered_blocks _ _ _ _ _); lia.
Qed.
End opened.
