(* ===== verification/Printk.v ===== *)
(** * Formatted output (lib/libutils/ext/snprintk.c)

    [kprintf] interprets a format string in memory, converts its arguments and
    puts characters into a buffer, of which it never passes the end.  Of the flags
    of [kprintf] only [TOBUFONLY] is used, so a character goes to the buffer or is
    dropped.  An argument list is a list of words and double words; taking an
    argument of the other size has no meaning in C and is a fault. *)

From stdpp Require Import prelude gmap list strings.
From Stdlib Require Import ZArith Lia.
From S2P Require Import Prelude Fdt Newlib NewlibSpec.
#[local] Open Scope Z_scope.
#[local] Open Scope kernel_scope.

Definition KPRINTF_BUFSIZE : Z := 37.
Definition hexdigits : list Z := chars "0123456789abcdef".
Definition HEXDIGITS : list Z := chars "0123456789ABCDEF".

Definition u64 (z : Z) : Z := z mod 2 ^ 64.
(** [(int64_t)z] is negative. *)
Definition neg64 (z : Z) : bool := 2 ^ 63 <=? u64 z.

Definition to_digit (c : Z) : Z := c - 48.
Definition is_digit (c : Z) : bool := u32 (to_digit c) <=? 9.
Definition to_char (n : Z) : Z := n + 48.

(** Flags used during conversion. *)
Definition ALT : Z := 0x001.
Definition HEXPREFIX : Z := 0x002.
Definition LADJUST : Z := 0x004.
Definition LONGINT : Z := 0x010.
Definition QUADINT : Z := 0x020.
Definition SHORTINT : Z := 0x040.
Definition MAXINT : Z := 0x080.
Definition PTRINT : Z := 0x100.
Definition SIZEINT : Z := 0x200.
Definition ZEROPAD : Z := 0x400.

(** ** Arguments *)

(** [int], [long], [size_t] and pointers are words, [int64_t] and [intmax_t]
    double words. *)
Inductive va := VWord (w : Z) | VQuad (q : Z).
Definition va_word (ap : list va) : M bmem (Z * list va) :=
  match ap with VWord w :: ap => ret (w, ap) | _ => fault end.
Definition va_quad (ap : list va) : M bmem (Z * list va) :=
  match ap with VQuad q :: ap => ret (q, ap) | _ => fault end.

(** What becomes of the argument when it is stored in a [uint64_t]. *)
Definition SARG (flags : Z) (ap : list va) : M bmem (Z * list va) :=
  if truth (Z.land flags MAXINT) then ' (q, ap) <- va_quad ap;; ret (u64 q, ap)
  else if truth (Z.land flags PTRINT) then ' (w, ap) <- va_word ap;; ret (u64 (i32 w), ap)
  else if truth (Z.land flags SIZEINT) then ' (w, ap) <- va_word ap;; ret (u64 (i32 w), ap)
  else if truth (Z.land flags QUADINT) then ' (q, ap) <- va_quad ap;; ret (u64 q, ap)
  else if truth (Z.land flags LONGINT) then ' (w, ap) <- va_word ap;; ret (u64 (i32 w), ap)
  else if truth (Z.land flags SHORTINT) then
    ' (w, ap) <- va_word ap;; ret (u64 (if u16 w <? 2 ^ 15 then u16 w else u16 w - 2 ^ 16), ap)
  else ' (w, ap) <- va_word ap;; ret (u64 (i32 w), ap).
Definition UARG (flags : Z) (ap : list va) : M bmem (Z * list va) :=
  if truth (Z.land flags MAXINT) then ' (q, ap) <- va_quad ap;; ret (u64 q, ap)
  else if truth (Z.land flags PTRINT) then ' (w, ap) <- va_word ap;; ret (u32 w, ap)
  else if truth (Z.land flags SIZEINT) then ' (w, ap) <- va_word ap;; ret (u32 w, ap)
  else if truth (Z.land flags QUADINT) then ' (q, ap) <- va_quad ap;; ret (u64 q, ap)
  else if truth (Z.land flags LONGINT) then ' (w, ap) <- va_word ap;; ret (u32 w, ap)
  else if truth (Z.land flags SHORTINT) then ' (w, ap) <- va_word ap;; ret (u16 w, ap)
  else ' (w, ap) <- va_word ap;; ret (u32 w, ap).

(** ** Output *)

(** [KPRINTF_PUTCHAR]; [vp] is never null. *)
Definition KPRINTF_PUTCHAR (tailp c sbuf : Z) : M bmem Z :=
  if negb (sbuf =? 0) && (sbuf <? tailp) then st sbuf c;;; ret (sbuf + 1) else ret sbuf.
(** [while (n-- > 0) KPRINTF_PUTCHAR(c);] *)
Fixpoint put_times (n : nat) (tailp c sbuf : Z) : M bmem Z :=
  match n with
  | O => ret sbuf
  | S n => sbuf <- KPRINTF_PUTCHAR tailp c sbuf;; put_times n tailp c sbuf
  end.

(** Where [cp] points: into the local buffer [bf] or a constant, or to a string of
    the caller. *)
Inductive field_at := Local (l : list Z) | At (p : Z).
(** [for (; size--; cp++) KPRINTF_PUTCHAR( *cp);] *)
Fixpoint put_field (n : nat) (tailp : Z) (cp : field_at) (sbuf : Z) : M bmem Z :=
  match n with
  | O => ret sbuf
  | S n =>
      match cp with
      | Local [] => fault
      | Local (c :: l) => sbuf <- KPRINTF_PUTCHAR tailp c sbuf;; put_field n tailp (Local l) sbuf
      | At p => c <- ld p;; sbuf <- KPRINTF_PUTCHAR tailp c sbuf;; put_field n tailp (At (p + 1)) sbuf
      end
  end.

(** ** Digits *)

(** [*--cp = c] in [bf]: what lies between [cp] and the end of [bf]. *)
Definition push (c : Z) (cp : list Z) : M bmem (list Z) :=
  if Z.of_nat (length cp) <? KPRINTF_BUFSIZE then ret (c :: cp) else fault.

Inductive number_base := OCT | DEC | HEX.
Fixpoint oct_loop (n : nat) (uquad : Z) (cp : list Z) : M bmem (list Z) :=
  match n with
  | O => spin
  | S n =>
      cp <- push (to_char (Z.land uquad 7)) cp;;
      let uquad := Z.shiftr uquad 3 in
      if truth uquad then oct_loop n uquad cp else ret cp
  end.
Fixpoint dec_loop (n : nat) (uquad : Z) (cp : list Z) : M bmem (Z * list Z) :=
  match n with
  | O => spin
  | S n =>
      if 10 <=? uquad then
        cp <- push (to_char (uquad mod 10)) cp;; dec_loop n (uquad / 10) cp
      else ret (uquad, cp)
  end.
Fixpoint hex_loop (n : nat) (xdigs : list Z) (uquad : Z) (cp : list Z) : M bmem (list Z) :=
  match n with
  | O => spin
  | S n =>
      d <- aget xdigs (Z.land uquad 15);;
      cp <- push d cp;;
      let uquad := Z.shiftr uquad 4 in
      if truth uquad then hex_loop n xdigs uquad cp else ret cp
  end.
Definition number_digits (flags : Z) (base : number_base) (xdigs : list Z) (uquad : Z) : M bmem (list Z) :=
  match base with
  | OCT =>
      cp <- oct_loop 64 uquad [];;
      c <- aget cp 0;;
      if truth (Z.land flags ALT) && negb (c =? 48) then push 48 cp else ret cp
  | DEC => ' (uquad, cp) <- dec_loop 64 uquad [];; push (to_char uquad) cp
  | HEX => hex_loop 64 xdigs uquad []
  end.

(** ** Directives *)

(** The variables of the scan of a directive. *)
Record directive := mk_dir { d_flags : Z; d_width : Z; d_prec : Z; d_sign : Z }.
Definition or_flags (f : Z) (d : directive) : directive := mk_dir (Z.lor (d_flags d) f) (d_width d) (d_prec d) (d_sign d).
Definition set_width (v : Z) (d : directive) : directive := mk_dir (d_flags d) v (d_prec d) (d_sign d).
Definition set_prec (v : Z) (d : directive) : directive := mk_dir (d_flags d) (d_width d) v (d_sign d).
Definition set_sign (v : Z) (d : directive) : directive := mk_dir (d_flags d) (d_width d) (d_prec d) v.

(** A converted field: [fl_ch] is the character of the directive. *)
Record field := mk_field { fl_dir : directive; fl_dprec : Z; fl_ch : Z; fl_cp : field_at; fl_size : Z }.
Inductive scanned := Done | Continue | Field (f : field).

(** [while (is_digit(ch)) { n = 10 * n + to_digit(ch); ch = *fmt++; }] *)
Fixpoint number_loop (fl : nat) (n ch fmt : Z) : M bmem (Z * Z * Z) :=
  match fl with
  | O => spin
  | S fl =>
      if is_digit ch then
        t <- int_result (10 * n);; n <- int_result (t + to_digit ch);;
        ch <- ld fmt;; number_loop fl n ch (fmt + 1)
      else ret (n, ch, fmt)
  end.

Section kprintf.
Context {build : StrBuild}.

(** The labels [number] and [nosign]. *)
Definition number (d : directive) (ch : Z) (base : number_base) (xdigs : list Z) (uquad : Z) : M bmem field :=
  let dprec := d_prec d in
  let d := if dprec >=? 0 then mk_dir (Z.land (d_flags d) (Z.lnot ZEROPAD)) (d_width d) (d_prec d) (d_sign d) else d in
  cp <- (if negb (uquad =? 0) || negb (d_prec d =? 0) then number_digits (d_flags d) base xdigs uquad else ret []);;
  ret (mk_field d dprec ch (Local cp) (Z.of_nat (length cp))).
Definition nosign (d : directive) := number (set_sign 0 d).

(** [case 's'] *)
Definition string_field (d : directive) (ch : Z) (cp : Z) : M bmem field :=
  let prec := d_prec d in
  if cp =? 0 then
    let null := chars "(null)" in
    let size := if prec >=? 0 then Z.min prec 6 else 6 in
    ret (mk_field (set_sign 0 d) 0 ch (Local null) size)
  else
    size <- (if prec >=? 0 then
               p <- memchr cp 0 prec;;
               if negb (p =? 0) then let size := i32 (p - cp) in ret (if size >? prec then prec else size) else ret prec
             else n <- strlen cp;; ret (i32 n));;
    ret (mk_field (set_sign 0 d) 0 ch (At cp) size).

(** [case 'n'] *)
Definition store_count (d : directive) (count : Z) (ap : list va) : M bmem (list va) :=
  ' (p, ap) <- va_word ap;;
  let f := d_flags d in
  let quad := stw p (u32 count);;; stw (p + 4) (u32 (Z.shiftr count 32)) in
  (if truth (Z.land f MAXINT) then quad
   else if truth (Z.land f PTRINT) then stw p (u32 count)
   else if truth (Z.land f SIZEINT) then stw p (u32 count)
   else if truth (Z.land f QUADINT) then quad
   else if truth (Z.land f LONGINT) then stw p (u32 count)
   else if truth (Z.land f SHORTINT) then st p count;;; st (p + 1) (Z.shiftr count 8)
   else stw p (u32 count));;;
  ret ap.

(** The label [reswitch]: [ch] was read, [fmt] is behind it.  [uuid2str] gives the
    text of the UUID at an address. *)
Fixpoint reswitch (fl : nat) (ext : bool) (uuid2str : Z -> M bmem (list Z)) (count ch fmt : Z) (ap : list va) (d : directive)
  : M bmem (scanned * Z * list va) :=
  match fl with
  | O => spin
  | S fl =>
      let rflag fmt ap d := ch <- ld fmt;; reswitch fl ext uuid2str count ch (fmt + 1) ap d in
      let chr c := ch =? c in
      let signed d := ' (q, ap) <- SARG (d_flags d) ap;;
        let '(q, d) := if neg64 q then (u64 (- q), set_sign 45 d) else (q, d) in
        f <- number d ch DEC [] q;; ret (Field f, fmt, ap) in
      let unsigned d base := ' (q, ap) <- UARG (d_flags d) ap;; f <- nosign d ch base [] q;; ret (Field f, fmt, ap) in
      let hex xdigs := ' (q, ap) <- UARG (d_flags d) ap;;
        let d := if truth (Z.land (d_flags d) ALT) && negb (q =? 0) then or_flags HEXPREFIX d else d in
        f <- nosign d ch HEX xdigs q;; ret (Field f, fmt, ap) in
      if chr 32 then rflag fmt ap (if d_sign d =? 0 then set_sign 32 d else d)
      else if chr 35 then rflag fmt ap (or_flags ALT d)
      else if chr 42 then
        ' (w, ap) <- va_word ap;;
        let width := i32 w in
        if width >=? 0 then rflag fmt ap (set_width width d)
        else width <- int_result (- width);; rflag fmt ap (or_flags LADJUST (set_width width d))
      else if chr 45 then rflag fmt ap (or_flags LADJUST d)
      else if chr 43 then rflag fmt ap (set_sign 43 d)
      else if chr 46 then
        ch <- ld fmt;; let fmt := fmt + 1 in
        if ch =? 42 then
          ' (w, ap) <- va_word ap;; rflag fmt ap (set_prec (if i32 w <? 0 then -1 else i32 w) d)
        else
          ' (n, ch, fmt) <- number_loop fl 0 ch fmt;;
          reswitch fl ext uuid2str count ch fmt ap (set_prec (if n <? 0 then -1 else n) d)
      else if chr 48 then rflag fmt ap (or_flags ZEROPAD d)
      else if (49 <=? ch) && (ch <=? 57) then
        ' (n, ch, fmt) <- number_loop fl 0 ch fmt;;
        reswitch fl ext uuid2str count ch fmt ap (set_width n d)
      else if chr 104 then rflag fmt ap (or_flags SHORTINT d)
      else if chr 106 then rflag fmt ap (or_flags MAXINT d)
      else if chr 108 then
        c <- ld fmt;;
        if c =? 108 then rflag (fmt + 1) ap (or_flags QUADINT d) else rflag fmt ap (or_flags LONGINT d)
      else if chr 113 then rflag fmt ap (or_flags QUADINT d)
      else if chr 116 then rflag fmt ap (or_flags PTRINT d)
      else if chr 122 then rflag fmt ap (or_flags SIZEINT d)
      else if chr 99 then
        ' (w, ap) <- va_word ap;; ret (Field (mk_field (set_sign 0 d) 0 ch (Local [u8 w]) 1), fmt, ap)
      else if chr 68 then signed (or_flags LONGINT d)
      else if chr 100 || chr 105 then signed d
      else if chr 110 then ap <- store_count d count ap;; ret (Continue, fmt, ap)
      else if chr 79 then unsigned (or_flags LONGINT d) OCT
      else if chr 111 then unsigned d OCT
      else if chr 112 then
        c <- (if ext then ld fmt else ret 0);;
        c' <- (if ext && (c =? 85) then ld (fmt + 1) else ret 0);;
        if ext && (c =? 85) && (c' =? 108) then
          ' (w, ap) <- va_word ap;;
          text <- uuid2str (u32 w);;
          ret (Field (mk_field (set_sign 0 d) 0 ch (Local text) (Z.of_nat (length text))), fmt + 2, ap)
        else
          ' (w, ap) <- va_word ap;;
          f <- nosign (or_flags HEXPREFIX d) 120 HEX hexdigits (u32 w);; ret (Field f, fmt, ap)
      else if chr 115 then
        ' (w, ap) <- va_word ap;; f <- string_field d ch (u32 w);; ret (Field f, fmt, ap)
      else if chr 85 then unsigned (or_flags LONGINT d) DEC
      else if chr 117 then unsigned d DEC
      else if chr 88 then hex HEXDIGITS
      else if chr 120 then hex hexdigits
      else if chr 0 then ret (Done, fmt, ap)
      else ret (Field (mk_field (set_sign 0 d) 0 ch (Local [ch]) 1), fmt, ap)
  end.

(** From [realsz = ...] to the end of the loop of [kprintf]. *)
Definition emit (f : field) (tailp count sbuf : Z) : M bmem (Z * Z) :=
  let d := fl_dir f in
  let flags := d_flags d in
  let prefix := truth (Z.land flags HEXPREFIX) in
  realsz <- int_result ((if fl_dprec f >? fl_size f then fl_dprec f else fl_size f) +
                        (if truth (d_sign d) then 1 else if prefix then 2 else 0));;
  count <- int_result (count + (if d_width d >? realsz then d_width d else realsz));;
  let pad := Z.to_nat (d_width d - realsz) in
  sbuf <- (if Z.land flags (Z.lor LADJUST ZEROPAD) =? 0 then put_times pad tailp 32 sbuf else ret sbuf);;
  sbuf <- (if truth (d_sign d) then KPRINTF_PUTCHAR tailp (d_sign d) sbuf
           else if prefix then sbuf <- KPRINTF_PUTCHAR tailp 48 sbuf;; KPRINTF_PUTCHAR tailp (fl_ch f) sbuf
           else ret sbuf);;
  sbuf <- (if Z.land flags (Z.lor LADJUST ZEROPAD) =? ZEROPAD then put_times pad tailp 48 sbuf else ret sbuf);;
  sbuf <- put_times (Z.to_nat (fl_dprec f - fl_size f)) tailp 48 sbuf;;
  sbuf <- (if fl_size f <? 0 then fault else put_field (Z.to_nat (fl_size f)) tailp (fl_cp f) sbuf);;
  sbuf <- (if truth (Z.land flags LADJUST) then put_times pad tailp 32 sbuf else ret sbuf);;
  ret (count, sbuf).

(** The loop of [kprintf]; [count] is its variable [ret]. *)
Fixpoint kprintf_loop (fl : nat) (ext : bool) (uuid2str : Z -> M bmem (list Z)) (tailp fmt : Z) (ap : list va) (count sbuf : Z)
  : M bmem Z :=
  match fl with
  | O => spin
  | S fl =>
      c <- ld fmt;;
      if c =? 0 then ret count
      else if negb (c =? 37) then
        count <- int_result (count + 1);;
        sbuf <- KPRINTF_PUTCHAR tailp c sbuf;;
        kprintf_loop fl ext uuid2str tailp (fmt + 1) ap count sbuf
      else
        let fmt := fmt + 1 in
        ch <- ld fmt;;
        ' (r, fmt, ap) <- reswitch fl ext uuid2str count ch (fmt + 1) ap (mk_dir 0 0 (-1) 0);;
        match r with
        | Done => ret count
        | Continue => kprintf_loop fl ext uuid2str tailp fmt ap count sbuf
        | Field f =>
            ' (count, sbuf) <- emit f tailp count sbuf;;
            kprintf_loop fl ext uuid2str tailp fmt ap count sbuf
        end
  end.
Definition kprintf (uuid2str : Z -> M bmem (list Z)) (fmt0 tailp sbuf : Z) (ap : list va) (ext : bool) : M bmem Z :=
  fl <- fuel;; kprintf_loop fl ext uuid2str tailp fmt0 ap 0 sbuf.

Definition vsnprintf_with (uuid2str : Z -> M bmem (list Z)) (bf size fmt : Z) (ap : list va) (ext : bool) : M bmem Z :=
  let p := u32 (bf + size) in
  retval <- kprintf uuid2str fmt p bf ap ext;;
  when (negb (bf =? 0) && (size >? 0))
    (if size <=? u32 retval then st (bf + size - 1) 0 else st (bf + retval) 0);;;
  ret retval.

(** ** UUIDs *)

Definition uuid_format : list Z := chars "%08x-%04x-%04x-%02x%02x-%02x%02x%02x%02x%02x%02x" ++ [0].
(** [uuid2str(bf, sizeof(bf), ptr)] calls [snprintk] with a constant format for the
    local buffer: a memory of their own, the format at 0x1000 and [bf] at 0x2000,
    both filled up to whole words.  The result is what [bf] holds up to the size
    that is returned. *)
Definition uuid_rest : bmem := put_bytes 0x1000 (uuid_format ++ [0; 0; 0]) (put_bytes 0x2025 [0; 0; 0] ∅).
Definition uuid_frame : bmem := put_bytes 0x2000 (replicate 37 0) uuid_rest.
Definition ldh (p : Z) : M bmem Z := b0 <- ld p;; b1 <- ld (p + 1);; ret (b0 + 256 * b1).
Definition uuid2str (ptr : Z) : M bmem (list Z) :=
  lo <- ldw ptr;; mid <- ldh (ptr + 4);; hi_ver <- ldh (ptr + 6);;
  s0 <- ld (ptr + 8);; s1 <- ld (ptr + 9);; s2 <- ld (ptr + 10);; s3 <- ld (ptr + 11);;
  s4 <- ld (ptr + 12);; s5 <- ld (ptr + 13);; s6 <- ld (ptr + 14);; s7 <- ld (ptr + 15);;
  let args := map VWord [lo; mid; hi_ver; s0; s1; s2; s3; s4; s5; s6; s7] in
  match vsnprintf_with (fun _ => fault) 0x2000 KPRINTF_BUFSIZE 0x1000 args true uuid_frame with
  | Ret size m' => ret (map (fun i => default 0 (m' !! (0x2000 + i))) (seqZ 0 size))
  | Panic => panic | Fault => fault | Spin => spin
  end.

Definition __vsnprintf (bf size fmt : Z) (ap : list va) (ext : bool) : M bmem Z := vsnprintf_with uuid2str bf size fmt ap ext.
Definition vsnprintk (bf size fmt : Z) (ap : list va) : M bmem Z := __vsnprintf bf size fmt ap true.
Definition snprintk (bf size fmt : Z) (args : list va) : M bmem Z := vsnprintk bf size fmt args.
(** isoc/snprintf.c *)
Definition vsnprintf (bf size fmt : Z) (ap : list va) : M bmem Z := __vsnprintf bf size fmt ap false.
Definition snprintf (bf size fmt : Z) (args : list va) : M bmem Z := __vsnprintf bf size fmt args false.
End kprintf.
