(* ===== verification/PrintkSpec.v ===== *)
(** * Formatting prints what printf should

    The reference: a format is a list of pieces, a directive has flags, a width, a
    precision, a length and a conversion, and [render] gives the text of the whole.
    [__vsnprintf] leaves that text in its buffer, cut off at the end of the buffer,
    and returns the length of the whole. *)

From stdpp Require Import prelude gmap list strings.
From Stdlib Require Import ZArith Lia.
From S2P Require Import Prelude Fdt Newlib NewlibSpec Printk.
#[local] Open Scope Z_scope.
#[local] Open Scope kernel_scope.

Abbreviation len l := (Z.of_nat (length l)).

(** ** Reference: numbers *)

(** The digits of a number, the most significant first. *)
Fixpoint digits_upto (n : nat) (b z : Z) : list Z :=
  match n with
  | O => []
  | S n => if z <? b then [z] else digits_upto n b (z / b) ++ [z mod b]
  end.
Definition digits (b z : Z) : list Z := digits_upto 64 b z.
(** Reading them back. *)
Definition value_from (b : Z) : Z -> list Z -> Z := foldl (fun a d => a * b + d).

Lemma digits_bound n b z : 1 < b -> 0 <= z -> Forall (fun d => 0 <= d < b) (digits_upto n b z).
Proof.
  intros Hb. revert z. induction n as [|n IH]; intros z Hz; cbn [digits_upto]; [constructor|].
  destruct (Z.ltb_spec z b); [repeat constructor; lia|]. apply Forall_app. split.
  - apply IH. apply Z.div_pos; lia.
  - repeat constructor; apply Z.mod_pos_bound; lia.
Qed.
Lemma div_pow z b k : 1 < b -> 0 <= z < b ^ Z.of_nat (S (S k)) -> 0 <= z / b < b ^ Z.of_nat (S k).
Proof.
  intros Hb Hz. split; [apply Z.div_pos; lia|]. apply Z.div_lt_upper_bound; [lia|].
  rewrite (Nat2Z.inj_succ (S k)), Z.pow_succ_r in Hz by lia. lia.
Qed.
Lemma digits_length n b z k : 1 < b -> 0 <= z < b ^ Z.of_nat (S k) -> (length (digits_upto n b z) <= S k)%nat.
Proof.
  intros Hb. revert z k. induction n as [|n IH]; intros z k Hz; cbn [digits_upto]; [cbn; lia|].
  destruct (Z.ltb_spec z b); [cbn; lia|]. rewrite length_app. cbn [length].
  destruct k as [|k]; [cbn in Hz; lia|]. specialize (IH (z / b) k (div_pow _ _ _ Hb Hz)). lia.
Qed.
Lemma digits_nonempty n b z : digits_upto (S n) b z <> [].
Proof. cbn [digits_upto]. destruct (z <? b); [done|]. by destruct (digits_upto n b (z / b)). Qed.
Lemma digits_value n b z k : 1 < b -> 0 <= z < b ^ Z.of_nat (S k) -> (k < n)%nat -> value_from b 0 (digits_upto n b z) = z.
Proof.
  intros Hb. revert z k. induction n as [|n IH]; intros z k Hz Hk; [lia|]. cbn [digits_upto].
  destruct (Z.ltb_spec z b); [cbn; lia|]. destruct k as [|k]; [cbn in Hz; lia|].
  unfold value_from in *. rewrite foldl_app, (IH (z / b) k) by (by apply div_pow || lia). cbn. pose proof (Z.div_mod z b). lia.
Qed.
(** No leading zero. *)
Lemma digits_head n b z k : 1 < b -> 0 < z < b ^ Z.of_nat (S k) -> (k < n)%nat -> exists d l, digits_upto n b z = d :: l /\ d <> 0.
Proof.
  intros Hb. revert z k. induction n as [|n IH]; intros z k Hz Hk; [lia|]. cbn [digits_upto].
  destruct (Z.ltb_spec z b); [exists z, []; split; [done|lia]|]. destruct k as [|k]; [cbn in Hz; lia|].
  destruct (IH (z / b) k) as (d & l & E & Hd); [ |lia|].
  - pose proof (div_pow z b k Hb (conj (Z.lt_le_incl _ _ (proj1 Hz)) (proj2 Hz))). assert (0 < z / b) by (apply Z.div_str_pos; lia). lia.
  - exists d, (l ++ [z mod b]). by rewrite E.
Qed.

Definition digit_char (upper : bool) (d : Z) : Z := if d <? 10 then 48 + d else (if upper then 55 else 87) + d.
Definition number_text (b : Z) (upper : bool) (z : Z) : list Z := map (digit_char upper) (digits b z).
Definition decimal (n : Z) : list Z := number_text 10 false n.
Lemma digit_char_byte up d : 0 <= d < 16 -> is_byte (digit_char up d).
Proof. unfold is_byte, digit_char. intros. destruct (d <? 10), up; lia. Qed.
Lemma number_text_byte b up z : 1 < b <= 16 -> 0 <= z -> Forall is_byte (number_text b up z).
Proof.
  intros Hb Hz. unfold number_text, digits. apply Forall_map. eapply Forall_impl; [apply (digits_bound 64 b z); lia|].
  intros d Hd. apply digit_char_byte. cbn in Hd. lia.
Qed.

(** ** Reference: directives *)

Inductive flag := FMinus | FPlus | FSpace | FAlt | FZero.
Inductive width := NoWidth | Width (n : Z) | StarWidth.
Inductive precision := NoPrec | Prec (n : Z) | EmptyPrec | StarPrec.
Inductive length_mod := LNone | Lh | Ll | Lll | Lj | Lq | Lt | Lz.
Inductive conversion := Cd | Ci | Cu | Co | Cx | CX | Cc | Cs | Cp | Cuuid | Cpercent.
#[global] Instance flag_dec : EqDecision flag.
Proof. solve_decision. Defined.
#[global] Instance conversion_dec : EqDecision conversion.
Proof. solve_decision. Defined.
Record dir := mk_spec { s_flags : list flag; s_width : width; s_prec : precision; s_len : length_mod; s_conv : conversion }.
Inductive piece := Lit (c : Z) | Dir (d : dir).

Definition flag_char (f : flag) : Z :=
  match f with FMinus => 45 | FPlus => 43 | FSpace => 32 | FAlt => 35 | FZero => 48 end.
Definition width_text (w : width) : list Z := match w with NoWidth => [] | Width n => decimal n | StarWidth => [42] end.
Definition prec_text (p : precision) : list Z :=
  match p with NoPrec => [] | Prec n => 46 :: decimal n | EmptyPrec => [46] | StarPrec => [46; 42] end.
Definition len_text (l : length_mod) : list Z :=
  match l with LNone => [] | Lh => [104] | Ll => [108] | Lll => [108; 108] | Lj => [106] | Lq => [113] | Lt => [116] | Lz => [122] end.
Definition conv_text (c : conversion) : list Z :=
  match c with Cd => [100] | Ci => [105] | Cu => [117] | Co => [111] | Cx => [120] | CX => [88] | Cc => [99] | Cs => [115]
  | Cp => [112] | Cuuid => [112; 85; 108] | Cpercent => [37] end.
(** The text of a directive behind its percent sign. *)
Definition dir_text (d : dir) : list Z :=
  map flag_char (s_flags d) ++ width_text (s_width d) ++ prec_text (s_prec d) ++ len_text (s_len d) ++ conv_text (s_conv d).
Definition piece_text (p : piece) : list Z := match p with Lit c => [c] | Dir d => 37 :: dir_text d end.
Definition format_text (l : list piece) : list Z := concat (map piece_text l).

(** ** Reference: conversions *)

(** [prefix] and [body], padded to [width]. *)
Definition layout (minus zero : bool) (width : Z) (prefix body : list Z) : list Z :=
  let pad := Z.to_nat (width - len prefix - len body) in
  if minus then prefix ++ body ++ replicate pad 32
  else if zero then prefix ++ replicate pad 48 ++ body
  else replicate pad 32 ++ prefix ++ body.
Lemma layout_len minus zero w prefix body : len (layout minus zero w prefix body) = Z.max w (len prefix + len body).
Proof. unfold layout. destruct minus, zero; rewrite !length_app, ?length_replicate; lia. Qed.
(** A number with a minimal number of digits; without one, [0] has a digit. *)
Definition with_digits (prec : option Z) (text : list Z) : list Z :=
  match prec with Some n => replicate (Z.to_nat (n - len text)) 48 ++ text | None => text end.

(** The value of an argument. *)
Definition wide (l : length_mod) : bool := match l with Lll | Lj | Lq => true | _ => false end.
Definition arg_bits (l : length_mod) (a : va) : option Z :=
  match a with
  | VWord w => if wide l then None else Some (match l with Lh => u16 w | _ => u32 w end)
  | VQuad q => if wide l then Some (u64 q) else None
  end.
Definition bits_of (l : length_mod) : Z := match l with Lh => 16 | _ => if wide l then 64 else 32 end.
Definition signed_value (l : length_mod) (z : Z) : Z := if z <? 2 ^ (bits_of l - 1) then z else z - 2 ^ bits_of l.

(** The text at an address: at most [n] bytes, which must all be there, or up to
    the end of the string. *)
Fixpoint bytes_at (n : nat) (m : bmem) (p : Z) : option (list Z) :=
  match n with
  | O => Some []
  | S n => match m !! p with Some b => cons b <$> bytes_at n m (p + 1) | None => None end
  end.
Fixpoint until_nul (l : list Z) : list Z := match l with [] => [] | b :: l => if b =? 0 then [] else b :: until_nul l end.
Fixpoint string_at (n : nat) (m : bmem) (p : Z) : option (list Z) :=
  match n with
  | O => None
  | S n => match m !! p with Some b => if b =? 0 then Some [] else cons b <$> string_at n m (p + 1) | None => None end
  end.
Definition text_at (m : bmem) (prec : option Z) (p : Z) : option (list Z) :=
  if p =? 0 then Some (take (match prec with Some n => Z.to_nat n | None => 6%nat end) (chars "(null)"))
  else match prec with Some n => until_nul <$> bytes_at (Z.to_nat n) m p | None => string_at (S (base.size m)) m p end.

(** The options of a directive after its stars were replaced. *)
Record options := mk_options { o_minus : bool; o_zero : bool; o_alt : bool; o_sign : Z; o_width : Z; o_prec : option Z }.
Definition has_flag (f : flag) (l : list flag) : bool := bool_decide (f ∈ l).
Definition sign_of (l : list flag) : Z := if has_flag FPlus l then 43 else if has_flag FSpace l then 32 else 0.
Definition star (ap : list va) : option (Z * list va) :=
  match ap with VWord w :: ap => Some (i32 w, ap) | _ => None end.
Definition options_of (d : dir) (ap : list va) : option (options * list va) :=
  let fl := s_flags d in
  ' (w, ap) ← match s_width d with NoWidth => Some (0, ap) | Width n => Some (n, ap)
              | StarWidth => ' (w, ap) ← star ap; if w =? - 2 ^ 31 then None else Some (w, ap) end;
  ' (p, ap) ← match s_prec d with
              | NoPrec => Some (None, ap) | Prec n => Some (Some n, ap) | EmptyPrec => Some (Some 0, ap)
              | StarPrec => ' (p, ap) ← star ap; Some (if p <? 0 then None else Some p, ap) end;
  Some (mk_options (has_flag FMinus fl || (w <? 0)) (has_flag FZero fl) (has_flag FAlt fl) (sign_of fl) (Z.abs w) p, ap).

Section render.
Context (m : bmem) (uuid : Z -> option (list Z)).

Definition no_digits (o : options) (z : Z) : bool := (z =? 0) && bool_decide (o_prec o = Some 0).
Definition number_body (o : options) (b : Z) (upper : bool) (z : Z) : list Z :=
  if no_digits o z then [] else number_text b upper z.
Definition int_layout (o : options) (prefix text : list Z) : list Z :=
  layout (o_minus o) (o_zero o && bool_decide (o_prec o = None)) (o_width o) prefix (with_digits (o_prec o) text).
Definition text_layout (o : options) (text : list Z) : list Z := layout (o_minus o) (o_zero o) (o_width o) [] text.

Definition render_arg (d : dir) (o : options) (a : va) : option (list Z) :=
  let word := arg_bits LNone a in
  let signed :=
    z ← arg_bits (s_len d) a; let v := signed_value (s_len d) z in
    Some (int_layout o (if v <? 0 then [45] else if o_sign o =? 0 then [] else [o_sign o]) (number_body o 10 false (Z.abs v))) in
  let hex upper x :=
    z ← arg_bits (s_len d) a;
    Some (int_layout o (if o_alt o && negb (z =? 0) then [48; x] else []) (number_body o 16 upper z)) in
  match s_conv d with
  | Cd | Ci => signed
  | Cu => z ← arg_bits (s_len d) a; Some (int_layout o [] (number_body o 10 false z))
  | Co => z ← arg_bits (s_len d) a;
      Some (int_layout o [] (if o_alt o && negb (z =? 0) then 48 :: number_body o 8 false z else number_body o 8 false z))
  | Cx => hex false 120
  | CX => hex true 88
  | Cc => w ← word; Some (text_layout o [u8 w])
  | Cs => p ← word; t ← text_at m (o_prec o) p; Some (text_layout o t)
  | Cp => p ← word; Some (int_layout o [48; 120] (number_body o 16 false p))
  | Cuuid => p ← word; t ← uuid p; Some (text_layout o t)
  | Cpercent => None
  end.
Definition render_dir (d : dir) (ap : list va) : option (list Z * list va) :=
  ' (o, ap) ← options_of d ap;
  match s_conv d with
  | Cpercent => Some (text_layout o [37], ap)
  | _ => match ap with a :: ap => t ← render_arg d o a; Some (t, ap) | [] => None end
  end.
Fixpoint render (l : list piece) (ap : list va) : option (list Z * list va) :=
  match l with
  | [] => Some ([], ap)
  | Lit c :: l => ' (t, ap) ← render l ap; Some (c :: t, ap)
  | Dir d :: l => ' (x, ap) ← render_dir d ap; ' (t, ap) ← render l ap; Some (x ++ t, ap)
  end.
End render.

(** ** The flags of a directive as a word *)

Record cflags := mk_cflags { c_minus : bool; c_zero : bool; c_alt : bool; c_hex : bool; c_len : length_mod }.
Definition bit (b : bool) (f : Z) : Z := if b then f else 0.
Definition len_bit (l : length_mod) : Z :=
  match l with LNone => 0 | Lh => SHORTINT | Ll => LONGINT | Lll | Lq => QUADINT | Lj => MAXINT | Lt => PTRINT | Lz => SIZEINT end.
Definition flags_of (c : cflags) : Z :=
  Z.lor (bit (c_minus c) LADJUST) (Z.lor (bit (c_zero c) ZEROPAD) (Z.lor (bit (c_alt c) ALT) (Z.lor (bit (c_hex c) HEXPREFIX) (len_bit (c_len c))))).

Ltac by_flags c := destruct c as [[] [] [] [] []]; reflexivity.
Lemma flags_minus c : Z.lor (flags_of c) LADJUST = flags_of (mk_cflags true (c_zero c) (c_alt c) (c_hex c) (c_len c)).
Proof. by_flags c. Qed.
Lemma flags_zero c : Z.lor (flags_of c) ZEROPAD = flags_of (mk_cflags (c_minus c) true (c_alt c) (c_hex c) (c_len c)).
Proof. by_flags c. Qed.
Lemma flags_alt c : Z.lor (flags_of c) ALT = flags_of (mk_cflags (c_minus c) (c_zero c) true (c_hex c) (c_len c)).
Proof. by_flags c. Qed.
Lemma flags_hex c : Z.lor (flags_of c) HEXPREFIX = flags_of (mk_cflags (c_minus c) (c_zero c) (c_alt c) true (c_len c)).
Proof. by_flags c. Qed.
Lemma flags_nozero c : Z.land (flags_of c) (Z.lnot ZEROPAD) = flags_of (mk_cflags (c_minus c) false (c_alt c) (c_hex c) (c_len c)).
Proof. by_flags c. Qed.
Lemma flags_len c l : c_len c = LNone -> Z.lor (flags_of c) (len_bit l) = flags_of (mk_cflags (c_minus c) (c_zero c) (c_alt c) (c_hex c) l).
Proof. destruct c as [[] [] [] [] k]; cbn [c_len]; intros ->; destruct l; reflexivity. Qed.
Lemma has_alt c : truth (Z.land (flags_of c) ALT) = c_alt c.
Proof. by_flags c. Qed.
Lemma has_hex c : truth (Z.land (flags_of c) HEXPREFIX) = c_hex c.
Proof. by_flags c. Qed.
Lemma has_minus c : truth (Z.land (flags_of c) LADJUST) = c_minus c.
Proof. by_flags c. Qed.
Lemma blank_pad c : (Z.land (flags_of c) (Z.lor LADJUST ZEROPAD) =? 0) = negb (c_minus c) && negb (c_zero c).
Proof. by_flags c. Qed.
Lemma zero_pad c : (Z.land (flags_of c) (Z.lor LADJUST ZEROPAD) =? ZEROPAD) = negb (c_minus c) && c_zero c.
Proof. by_flags c. Qed.

(** Taking an argument. *)
Lemma UARG_run c a ap z m : arg_bits (c_len c) a = Some z -> UARG (flags_of c) (a :: ap) m = Ret (z, ap) m.
Proof. destruct c as [[] [] [] [] []], a as [w|q]; cbn; intros [= <-]; reflexivity. Qed.
Lemma u64_i32 w : u64 (i32 w) = u64 (signed_value LNone (u32 w)).
Proof. unfold i32, signed_value, bits_of, wide. done. Qed.
Lemma SARG_run c a ap z m : arg_bits (c_len c) a = Some z -> SARG (flags_of c) (a :: ap) m = Ret (u64 (signed_value (c_len c) z), ap) m.
Proof.
  assert (Hq : forall q, u64 q = u64 (if u64 q <? 2 ^ 63 then u64 q else u64 q - 2 ^ 64)).
  { intros q. unfold u64. case_match; [by rewrite Z.mod_mod|]. rewrite Zminus_mod_idemp_l. replace (q - 2 ^ 64) with (q + (-1) * 2 ^ 64) by lia. by rewrite Z_mod_plus_full. }
  destruct c as [[] [] [] [] []], a as [w|q]; cbn [c_len arg_bits wide]; intros [= <-]; unfold signed_value, bits_of, wide;
    cbn -[u64 u32 u16 i32 Z.ltb Z.sub Z.pow]; try reflexivity; unfold ret; rewrite <- Hq; reflexivity.
Qed.

(** ** Digits *)

Lemma bind_assoc {S A B C} (x : M S A) (k : A -> M S B) (f : B -> M S C) s : bind (bind x k) f s = bind x (fun a => bind (k a) f) s.
Proof. unfold bind. by destruct (x s). Qed.
Lemma push_run c l (m : bmem) : len l < KPRINTF_BUFSIZE -> push c l m = Ret (c :: l) m.
Proof. intros H. unfold push. by rewrite (proj2 (Z.ltb_lt _ _)). Qed.
Lemma low_mod z k : 0 <= k -> Z.land z (2 ^ k - 1) = z mod 2 ^ k.
Proof. intros. rewrite <- Z.land_ones by done. f_equal. rewrite Z.ones_equiv. lia. Qed.

Section loops.
Context (m : bmem).
Lemma oct_loop_run n k z cp : 0 <= z < 8 ^ Z.of_nat (S k) -> (k < n)%nat -> len cp + Z.of_nat (S k) <= KPRINTF_BUFSIZE ->
  oct_loop n z cp m = Ret (map (digit_char false) (digits_upto n 8 z) ++ cp) m.
Proof.
  revert k z cp. induction n as [|n IH]; intros k z cp Hz Hk Hcp; [lia|]. cbn [oct_loop digits_upto].
  change 7 with (2 ^ 3 - 1). rewrite low_mod, Z.shiftr_div_pow2 by lia. change (2 ^ 3) with 8.
  rewrite (bind_run _ _ _ _ _ (push_run _ cp m ltac:(lia))). pose proof (Z.mod_pos_bound z 8 ltac:(lia)).
  assert (Hd : forall d, 0 <= d < 8 -> to_char d = digit_char false d).
  { intros d ?. unfold to_char, digit_char. rewrite (proj2 (Z.ltb_lt _ _)) by lia. lia. }
  unfold truth. destruct (Z.ltb_spec z 8).
  - rewrite Z.div_small, Z.mod_small by lia. cbn. by rewrite Hd by lia.
  - assert (0 < z / 8) by (apply Z.div_str_pos; lia). rewrite (proj2 (Z.eqb_neq _ _)) by lia. cbn [negb].
    destruct k as [|k]; [cbn in Hz; lia|]. rewrite (IH k); [|by apply div_pow|lia|cbn [length]; lia].
    rewrite map_app, <- app_assoc. cbn [map app]. by rewrite Hd by lia.
Qed.
Lemma hex_loop_run n k (up : bool) z cp : 0 <= z < 16 ^ Z.of_nat (S k) -> (k < n)%nat -> len cp + Z.of_nat (S k) <= KPRINTF_BUFSIZE ->
  hex_loop n (if up then HEXDIGITS else hexdigits) z cp m = Ret (map (digit_char up) (digits_upto n 16 z) ++ cp) m.
Proof.
  revert k z cp. induction n as [|n IH]; intros k z cp Hz Hk Hcp; [lia|]. cbn [hex_loop digits_upto].
  change 15 with (2 ^ 4 - 1). rewrite low_mod, Z.shiftr_div_pow2 by lia. change (2 ^ 4) with 16. pose proof (Z.mod_pos_bound z 16 ltac:(lia)).
  assert (Hd : forall d, 0 <= d < 16 -> aget (if up then HEXDIGITS else hexdigits) d m = Ret (digit_char up d) m).
  { intros d Hd. assert (Hn : exists i, (i < 16)%nat /\ d = Z.of_nat i) by (exists (Z.to_nat d); lia). destruct Hn as (i & Hi & ->).
    do 16 (destruct i as [|i]; [by destruct up|]). lia. }
  rewrite (bind_run _ _ _ _ _ (Hd _ H)), (bind_run _ _ _ _ _ (push_run _ cp m ltac:(lia))).
  unfold truth. destruct (Z.ltb_spec z 16).
  - rewrite Z.div_small, Z.mod_small by lia. done.
  - assert (0 < z / 16) by (apply Z.div_str_pos; lia). rewrite (proj2 (Z.eqb_neq _ _)) by lia. cbn [negb].
    destruct k as [|k]; [cbn in Hz; lia|]. rewrite (IH k); [|by apply div_pow|lia|cbn [length]; lia].
    by rewrite map_app, <- app_assoc.
Qed.
Lemma dec_loop_run n k z cp : 0 <= z < 10 ^ Z.of_nat (S k) -> (k < n)%nat -> len cp + Z.of_nat (S k) <= KPRINTF_BUFSIZE ->
  (' (z, cp) <- dec_loop n z cp;; push (to_char z) cp) m = Ret (map (digit_char false) (digits_upto n 10 z) ++ cp) m.
Proof.
  assert (Hd : forall d, 0 <= d < 10 -> to_char d = digit_char false d).
  { intros d ?. unfold to_char, digit_char. rewrite (proj2 (Z.ltb_lt _ _)) by lia. lia. }
  revert k z cp. induction n as [|n IH]; intros k z cp Hz Hk Hcp; [lia|]. cbn [dec_loop digits_upto].
  pose proof (Z.mod_pos_bound z 10 ltac:(lia)). destruct (Z.leb_spec 10 z).
  - rewrite (proj2 (Z.ltb_ge _ _)) by lia. destruct k as [|k]; [cbn in Hz; lia|]. rewrite bind_assoc, (bind_run _ _ _ _ _ (push_run _ cp m ltac:(lia))).
    rewrite (IH k); [|by apply div_pow|lia|cbn [length]; lia]. rewrite map_app, <- app_assoc. cbn [map app]. by rewrite Hd by lia.
  - rewrite (proj2 (Z.ltb_lt _ _)) by lia. unfold bind, ret. rewrite push_run by lia. cbn. by rewrite Hd by lia.
Qed.

Lemma digits_shorter z : 0 <= z < 2 ^ 64 -> z < 8 ^ Z.of_nat 22 /\ z < 10 ^ Z.of_nat 20 /\ z < 16 ^ Z.of_nat 16.
Proof. cbn. lia. Qed.
Lemma number_digits_run c b (up : bool) z : 0 <= z < 2 ^ 64 ->
  number_digits (flags_of c) b (if up then HEXDIGITS else hexdigits) z m =
    Ret (match b with
         | OCT => if c_alt c && negb (z =? 0) then 48 :: number_text 8 false z else number_text 8 false z
         | DEC => number_text 10 false z | HEX => number_text 16 up z end) m.
Proof.
  intros Hz. destruct (digits_shorter z Hz) as (H8 & H10 & H16). unfold number_digits, number_text, digits. destruct b.
  - rewrite (bind_run _ _ _ _ _ (oct_loop_run 64 21 z [] (conj (proj1 Hz) H8) ltac:(lia) ltac:(unfold KPRINTF_BUFSIZE; cbn; lia))), app_nil_r.
    pose proof (digits_length 64 8 z 21 ltac:(lia) (conj (proj1 Hz) H8)) as Hlen. rewrite has_alt.
    destruct (Z.eqb_spec z 0) as [->|Hnz]; [by destruct (c_alt c)|].
    destruct (digits_head 64 8 z 21 ltac:(lia) ltac:(cbn; cbn in H8; lia) ltac:(lia)) as (d & l & E & Hd). pose proof (digits_bound 64 8 z ltac:(lia) ltac:(lia)) as Hb.
    rewrite E in *. apply Forall_cons in Hb as [Hb _]. cbn [map].
    assert (Hg : aget (digit_char false d :: map (digit_char false) l) 0 m = Ret (48 + d) m).
    { unfold aget, digit_char at 1. cbn. by rewrite (proj2 (Z.ltb_lt d 10)) by lia. }
    rewrite (bind_run _ _ _ _ _ Hg), (proj2 (Z.eqb_neq (48 + d) 48)) by lia. unfold negb. rewrite !andb_true_r.
    destruct (c_alt c); [|done]. rewrite push_run; [done|].
    cbn [length] in *. rewrite length_map. unfold KPRINTF_BUFSIZE. lia.
  - rewrite (dec_loop_run 64 19 z []); [|split; [lia|exact H10]|lia|unfold KPRINTF_BUFSIZE; cbn [length]; lia]. by rewrite app_nil_r.
  - rewrite (hex_loop_run 64 15 up z []); [|split; [lia|exact H16]|lia|unfold KPRINTF_BUFSIZE; cbn [length]; lia]. by rewrite app_nil_r.
Qed.
End loops.

(** ** Strings in memory *)

Lemma bytes_at_mem n m p l : bytes_at n m p = Some l -> at_mem m p l /\ length l = n.
Proof.
  revert p l. induction n as [|n IH]; intros p l; cbn [bytes_at]; [by intros [= <-]|].
  destruct (m !! p) as [b|] eqn:Eb; [|done]. destruct (bytes_at n m (p + 1)) as [l'|] eqn:El; [|done]. intros [= <-].
  destruct (IH _ _ El) as [H1 H2]. cbn [length]. by rewrite H2.
Qed.
Lemma string_at_cstr n m p l : string_at n m p = Some l -> cstr m p l.
Proof.
  revert p l. induction n as [|n IH]; intros p l; cbn [string_at]; [done|].
  destruct (m !! p) as [b|] eqn:Eb; [|done]. destruct (Z.eqb_spec b 0) as [->|Hb]; [by intros [= <-]|].
  destruct (string_at n m (p + 1)) as [l'|] eqn:El; [|done]. intros [= <-]. destruct (IH _ _ El) as [H1 H2]. split; [by split|by constructor].
Qed.
Lemma until_nul_prefix l : exists r, l = until_nul l ++ r.
Proof.
  induction l as [|b l [r IH]]; [by exists []|]. cbn [until_nul]. destruct (b =? 0); [by exists (b :: l)|]. exists r. cbn. by f_equal.
Qed.
Lemma find_nul s l : 0 < s -> find 0 s l = if bool_decide (until_nul l = l) then 0 else s + len (until_nul l).
Proof.
  revert s. induction l as [|b l IH]; intros s Hs; [done|]. cbn [find until_nul]. destruct (Z.eqb_spec b 0) as [->|Hb].
  - rewrite bool_decide_eq_false_2 by done. cbn. lia.
  - rewrite IH by lia. destruct (decide (until_nul l = l)) as [E|E].
    + by rewrite !bool_decide_eq_true_2 by congruence.
    + rewrite !bool_decide_eq_false_2 by congruence. cbn [length]. lia.
Qed.

(** ** The buffer *)

Section buffer.
(** The buffer [L] at [bf], and the rest of the memory. *)
Context (bf tailp : Z) (L : list Z) (m0 : bmem).
Hypothesis Hbf : bf = 0 /\ L = [] \/ 0 < bf.
Hypothesis Htail : bf <> 0 -> tailp = bf + len L.
Hypothesis Hsep : forall a, bf <= a < bf + len L -> m0 !! a = None.

(** The buffer after [out] was put there, and where the next character goes. *)
Definition filled (out : list Z) : list Z := take (length L) out ++ drop (length out) L.
Definition after (out : list Z) : bmem := put_bytes bf (filled out) m0.
Definition next (out : list Z) : Z := if bf =? 0 then 0 else bf + Z.min (len L) (len out).

Lemma filled_length out : length (filled out) = length L.
Proof. unfold filled. rewrite length_app, length_take, length_drop. lia. Qed.
Lemma filled_snoc out c : filled (out ++ [c]) = if (length out <? length L)%nat then <[length out := c]> (filled out) else filled out.
Proof.
  unfold filled. destruct (Nat.ltb_spec (length out) (length L)) as [H|H].
  - rewrite !take_ge by (rewrite ?length_app; cbn [length]; lia). rewrite length_app. cbn [length].
    rewrite <- app_assoc, insert_app_r_alt, Nat.sub_diag by lia. f_equal.
    destruct (drop (length out) L) as [|x l] eqn:E.
    + apply (f_equal length) in E. rewrite length_drop in E. cbn in E. lia.
    + cbn. rewrite Nat.add_1_r. change (S (length out)) with (1 + length out)%nat. rewrite <- skipn_skipn. by rewrite E.
  - rewrite take_app_le by lia. rewrite !drop_ge by (rewrite ?length_app; cbn [length]; lia). by rewrite !app_nil_r.
Qed.
Lemma rest_lookup out a b : m0 !! a = Some b -> after out !! a = Some b.
Proof.
  intros H. unfold after. rewrite put_bytes_lookup, filled_length. destruct (Z.leb_spec bf a), (Z.ltb_spec a (bf + len L)); cbn [andb]; try done.
  rewrite Hsep in H by lia. done.
Qed.
Lemma ld_rest out a b : m0 !! a = Some b -> ld a (after out) = Ret b (after out).
Proof. intros H. apply ld_run. by apply rest_lookup. Qed.
Lemma at_rest out p l : at_mem m0 p l -> at_mem (after out) p l.
Proof. revert p. induction l as [|b l IH]; intros p; [done|]. intros [H1 H2]. split; [by apply rest_lookup|by apply IH]. Qed.
Lemma at_mem_none d l a (m : bmem) : m !! a = None -> (a < d \/ d + len l <= a) -> put_bytes d l m !! a = None.
Proof. intros. rewrite put_bytes_lookup. destruct (Z.leb_spec d a), (Z.ltb_spec a (d + len l)); cbn [andb]; (done || lia). Qed.

Lemma putchar_run c out : is_byte c -> KPRINTF_PUTCHAR tailp c (next out) (after out) = Ret (next (out ++ [c])) (after (out ++ [c])).
Proof.
  intros Hc. unfold KPRINTF_PUTCHAR, next, after. rewrite filled_snoc, length_app. cbn [length].
  destruct (Z.eqb_spec bf 0) as [E|E]; cbn [negb andb Z.eqb].
  - destruct Hbf as [[_ ->]|]; [|lia]. cbn [length]. rewrite (proj2 (Nat.ltb_ge _ _)) by lia. done.
  - rewrite (Htail E), (proj2 (Z.eqb_neq _ 0)) by lia. cbn [negb andb]. destruct (Nat.ltb_spec (length out) (length L)) as [Hl|Hl].
    + rewrite (proj2 (Z.ltb_lt _ _)) by lia.
      assert (Hr : is_Some (put_bytes bf (filled out) m0 !! (bf + len out))).
      { rewrite put_bytes_lookup, filled_length. rewrite (proj2 (Z.leb_le _ _)), (proj2 (Z.ltb_lt _ _)) by lia. cbn [andb].
        apply lookup_lt_is_Some. rewrite filled_length. lia. }
      rewrite Z.min_r by lia. rewrite (bind_run _ _ _ _ _ (st_run _ _ _ Hr Hc)). unfold ret. f_equal; [lia|].
      apply map_eq. intros a. rewrite put_bytes_lookup, length_insert, filled_length.
      destruct (decide (a = bf + len out)) as [->|Hne].
      * rewrite lookup_insert_eq, (proj2 (Z.leb_le _ _)), (proj2 (Z.ltb_lt _ _)) by lia. cbn [andb].
        replace (Z.to_nat (bf + len out - bf)) with (length out) by lia. by rewrite list_lookup_insert_eq by (rewrite filled_length; lia).
      * rewrite lookup_insert_ne, put_bytes_lookup, filled_length by done. destruct (Z.leb_spec bf a), (Z.ltb_spec a (bf + len L)); cbn [andb]; try done.
        rewrite list_lookup_insert_ne by lia. done.
    + rewrite (proj2 (Z.ltb_ge _ _)) by lia. unfold ret. f_equal. lia.
Qed.

Lemma put_times_run n c out : is_byte c ->
  put_times n tailp c (next out) (after out) = Ret (next (out ++ replicate n c)) (after (out ++ replicate n c)).
Proof.
  intros Hc. revert out. induction n as [|n IH]; intros out; cbn [put_times replicate]; [by rewrite app_nil_r|].
  rewrite (bind_run _ _ _ _ _ (putchar_run c out Hc)), IH. by rewrite <- app_assoc.
Qed.

(** The characters of a field. *)
Definition field_is (cp : field_at) (l : list Z) : Prop :=
  match cp with Local l' => exists r, l' = l ++ r | At p => at_mem m0 p l end.
Lemma put_field_run cp l out : field_is cp l -> Forall is_byte l ->
  put_field (length l) tailp cp (next out) (after out) = Ret (next (out ++ l)) (after (out ++ l)).
Proof.
  intros Hcp Hl. revert cp out Hcp. induction Hl as [|c l Hc Hl IH]; intros cp out Hcp; cbn [put_field length]; [by rewrite app_nil_r|].
  destruct cp as [l'|p].
  - destruct Hcp as [r ->]. cbn [app]. rewrite (bind_run _ _ _ _ _ (putchar_run c out Hc)), IH by (by exists r). by rewrite <- app_assoc.
  - destruct Hcp as [H1 H2]. rewrite (bind_run _ _ _ _ _ (ld_rest out p c H1)), (bind_run _ _ _ _ _ (putchar_run c out Hc)), IH by done.
    by rewrite <- app_assoc.
Qed.

(** A field, padded. *)
Definition dir_of (c : cflags) (w : Z) (p : option Z) (sg : Z) : directive := mk_dir (flags_of c) w (default (-1) p) sg.
Definition prefix_of (c : cflags) (sg ch : Z) : list Z := if truth sg then [sg] else if c_hex c then [48; ch] else [].
Definition leading (dprec : Z) (text : list Z) : list Z := replicate (Z.to_nat (dprec - len text)) 48 ++ text.

Lemma field_prefix_run c sg ch out : is_byte sg -> is_byte ch ->
  (if truth sg then KPRINTF_PUTCHAR tailp sg (next out)
   else if c_hex c then sbuf <- KPRINTF_PUTCHAR tailp 48 (next out);; KPRINTF_PUTCHAR tailp ch sbuf else ret (next out)) (after out) =
  Ret (next (out ++ prefix_of c sg ch)) (after (out ++ prefix_of c sg ch)).
Proof.
  intros Hs Hc. unfold prefix_of. destruct (truth sg); [by apply putchar_run|]. destruct (c_hex c); [|by rewrite app_nil_r].
  rewrite (bind_run _ _ _ _ _ (putchar_run 48 out ltac:(done))), putchar_run by done. by rewrite <- app_assoc.
Qed.
Lemma pad_run (b : bool) n c out : is_byte c ->
  (if b then put_times n tailp c (next out) else ret (next out)) (after out) =
  Ret (next (out ++ (if b then replicate n c else []))) (after (out ++ (if b then replicate n c else []))).
Proof. intros. destruct b; [by apply put_times_run|by rewrite app_nil_r]. Qed.

Lemma emit_run c w p sg dprec ch cp text count out : let x := layout (c_minus c) (c_zero c) w (prefix_of c sg ch) (leading dprec text) in
  field_is cp text -> Forall is_byte text -> is_byte sg -> is_byte ch -> 0 <= w -> 0 <= count -> count + len x < 2 ^ 31 ->
  emit (mk_field (dir_of c w p sg) dprec ch cp (len text)) tailp count (next out) (after out) =
    Ret (count + len x, next (out ++ x)) (after (out ++ x)).
Proof.
  intros x Hcp Ht Hsg Hch Hw Hcount Hx. unfold emit. cbn [fl_dir fl_dprec fl_ch fl_cp fl_size dir_of d_flags d_width d_sign].
  rewrite has_hex, blank_pad, zero_pad, has_minus.
  assert (Hbody : len (leading dprec text) = Z.max dprec (len text)) by (unfold leading; rewrite length_app, length_replicate; lia).
  pose proof (layout_len (c_minus c) (c_zero c) w (prefix_of c sg ch) (leading dprec text)) as Hlen. fold x in Hlen. rewrite Hbody in Hlen.
  assert (Hp : len (prefix_of c sg ch) = if truth sg then 1 else if c_hex c then 2 else 0) by (unfold prefix_of; by destruct (truth sg), (c_hex c)).
  rewrite <- Hp. assert (Hmax : (if dprec >? len text then dprec else len text) = Z.max dprec (len text)) by (destruct (Z.gtb_spec dprec (len text)); lia).
  rewrite Hmax. set (realsz := Z.max dprec (len text) + len (prefix_of c sg ch)).
  rewrite (bind_run _ _ _ _ _ (int_result_run realsz _ ltac:(unfold realsz; lia))).
  assert (Hw' : (if w >? realsz then w else realsz) = len x) by (destruct (Z.gtb_spec w realsz); lia).
  rewrite Hw'. rewrite (bind_run _ _ _ _ _ (int_result_run (count + len x) _ ltac:(lia))).
  rewrite (bind_run _ _ _ _ _ (pad_run _ _ 32 out ltac:(done))).
  rewrite (bind_run _ _ _ _ _ (field_prefix_run c sg ch _ Hsg Hch)).
  rewrite (bind_run _ _ _ _ _ (pad_run _ _ 48 _ ltac:(done))).
  rewrite (bind_run _ _ _ _ _ (put_times_run _ 48 _ ltac:(done))).
  rewrite (proj2 (Z.ltb_ge (len text) 0)), Nat2Z.id by lia.
  rewrite (bind_run _ _ _ _ _ (put_field_run cp text _ Hcp Ht)).
  rewrite (bind_run _ _ _ _ _ (pad_run _ _ 32 _ ltac:(done))).
  assert (Heq : forall a b, a = b -> Ret (count + len x, next a) (after a) = Ret (count + len x, next b) (after b)) by (by intros ? ? ->).
  apply Heq. rewrite <- !app_assoc. f_equal. unfold x, layout, leading.
  rewrite Hbody || idtac. replace (Z.to_nat (w - len (prefix_of c sg ch) - len (replicate (Z.to_nat (dprec - len text)) 48 ++ text))) with (Z.to_nat (w - realsz))
    by (change (replicate (Z.to_nat (dprec - len text)) 48 ++ text) with (leading dprec text); lia).
  destruct (c_minus c), (c_zero c); cbn [negb andb app]; rewrite <- ?app_assoc; cbn [app]; rewrite ?app_nil_r; done.
Qed.

(** The label [number]. *)
Definition number_is (c : cflags) (p : option Z) (b : number_base) (up : bool) (z : Z) : list Z :=
  if (z =? 0) && bool_decide (p = Some 0) then []
  else match b with
       | OCT => if c_alt c && negb (z =? 0) then 48 :: number_text 8 false z else number_text 8 false z
       | DEC => number_text 10 false z | HEX => number_text 16 up z end.
Definition no_zero (c : cflags) : cflags := mk_cflags (c_minus c) false (c_alt c) (c_hex c) (c_len c).
Definition prec_ok (p : option Z) : Prop := match p with Some n => 0 <= n | None => True end.
Lemma number_run c w p sg ch b (up : bool) xdigs z m : 0 <= z < 2 ^ 64 -> prec_ok p -> (b = HEX -> xdigs = if up then HEXDIGITS else hexdigits) ->
  number (dir_of c w p sg) ch b xdigs z m =
    Ret (mk_field (dir_of (if bool_decide (p = None) then c else no_zero c) w p sg) (default (-1) p) ch
           (Local (number_is c p b up z)) (len (number_is c p b up z))) m.
Proof.
  intros Hz Hp Hx. unfold number, number_is. cbn [dir_of d_prec d_flags d_width d_sign].
  assert (Hd : (default (-1) p >=? 0) = negb (bool_decide (p = None))).
  { destruct p as [n|]; [|done]. rewrite bool_decide_eq_false_2 by done. change (default (-1) (Some n)) with n. rewrite Z.geb_leb. by apply Z.leb_le. }
  rewrite Hd, flags_nozero. fold (no_zero c). set (c' := if bool_decide (p = None) then c else no_zero c).
  assert (Hdir : (if negb (bool_decide (p = None)) then mk_dir (flags_of (no_zero c)) w (default (-1) p) sg
                  else dir_of c w p sg) = dir_of c' w p sg)
    by (unfold c'; by destruct (bool_decide (p = None))).
  rewrite Hdir. cbn [dir_of d_flags d_prec].
  assert (Hn : (negb (z =? 0) || negb (default (-1) p =? 0)) = negb ((z =? 0) && bool_decide (p = Some 0))).
  { rewrite negb_andb. f_equal. f_equal. destruct p as [n|]; [|done]. change (default (-1) (Some n)) with n. destruct (Z.eqb_spec n 0) as [->|]; [done|]. by rewrite bool_decide_eq_false_2 by congruence. }
  rewrite Hn. assert (Halt : c_alt c' = c_alt c) by (unfold c'; by destruct (bool_decide (p = None))).
  destruct ((z =? 0) && bool_decide (p = Some 0)); cbn [negb]; [done|].
  assert (Hrun : number_digits (flags_of c') b xdigs z m = Ret (match b with
       | OCT => if c_alt c' && negb (z =? 0) then 48 :: number_text 8 false z else number_text 8 false z
       | DEC => number_text 10 false z | HEX => number_text 16 up z end) m).
  { rewrite <- (number_digits_run m c' b up z Hz). destruct b; [done|done|]. by rewrite Hx. }
  rewrite (bind_run _ _ _ _ _ Hrun), Halt. done.
Qed.

(** The word loops of the string functions need whole words of memory. *)
Hypothesis Hbytes : bytes_ok (put_bytes bf L m0).
Hypothesis Hclosed : word_closed (put_bytes bf L m0).

Lemma after_dom out a : is_Some (after out !! a) <-> is_Some (put_bytes bf L m0 !! a).
Proof.
  unfold after. rewrite !put_bytes_lookup, filled_length. destruct (Z.leb_spec bf a), (Z.ltb_spec a (bf + len L)); cbn [andb]; try done.
  rewrite !lookup_lt_is_Some, filled_length. lia.
Qed.
Lemma after_closed out : word_closed (after out).
Proof. intros a Ha j Hj. rewrite after_dom in *. by apply Hclosed. Qed.
Lemma after_bytes out : Forall is_byte out -> bytes_ok (after out).
Proof.
  intros Ho a b. unfold after. rewrite put_bytes_lookup, filled_length.
  pose proof (Hbytes a) as HL. rewrite put_bytes_lookup in HL.
  destruct (Z.leb_spec bf a), (Z.ltb_spec a (bf + len L)); cbn [andb] in *; try (intros; by apply HL).
  unfold filled. rewrite lookup_app. destruct (take (length L) out !! Z.to_nat (a - bf)) as [x|] eqn:E.
  - intros [= <-]. rewrite lookup_take in E. case_decide; [|done]. by apply (Forall_lookup_1 _ _ _ _ Ho E).
  - apply lookup_ge_None in E. rewrite length_take in *. rewrite lookup_drop. intros Hb. apply HL.
    rewrite <- Hb. f_equal. destruct (Nat.le_gt_cases (length L) (length out)); [|lia].
    apply lookup_lt_Some in Hb. lia.
Qed.

Lemma string_run {build : StrBuild} c w p sg ch ptr t out :
  text_at m0 p ptr = Some t -> 0 <= ptr -> len t < 2 ^ 31 -> prec_ok p -> Forall is_byte out ->
  exists cp, string_field (dir_of c w p sg) ch ptr (after out) = Ret (mk_field (dir_of c w p 0) 0 ch cp (len t)) (after out) /\
    field_is cp t /\ Forall is_byte t.
Proof.
  intros Ht Hptr Hlen Hp Ho. unfold string_field, text_at in *. cbn [dir_of d_prec set_sign d_flags d_width d_sign] in *.
  fold (dir_of c w p 0). pose proof (after_bytes out Ho) as Hb. pose proof (after_closed out) as Hcl.
  destruct (Z.eqb_spec ptr 0) as [->|Hnz].
  - injection Ht as <-. exists (Local (chars "(null)")). split_and!.
    + assert (Hs : (if default (-1) p >=? 0 then Z.min (default (-1) p) 6 else 6) = len (take (match p with Some n => Z.to_nat n | None => 6%nat end) (chars "(null)"))).
      { rewrite length_take. destruct p as [n|]; cbn in *; [|done]. rewrite Z.geb_leb, (proj2 (Z.leb_le _ _)) by done. lia. }
      rewrite Hs. done.
    + eexists. symmetry. apply take_drop.
    + apply Forall_take. repeat constructor; done.
  - exists (At ptr). destruct p as [n|]; cbn [default prec_ok] in *.
    + destruct (bytes_at (Z.to_nat n) m0 ptr) as [l|] eqn:El; [|done]. injection Ht as <-. destruct (bytes_at_mem _ _ _ _ El) as [Hl Hn].
      change (default (-1) (Some n)) with n. rewrite Z.geb_leb, (proj2 (Z.leb_le _ _)) by done.
      pose proof (memchr_run (after out) Hb ptr 0 l (at_rest out ptr l Hl)) as Hr. replace (len l) with n in Hr by lia.
      destruct (until_nul_prefix l) as [r Hr']. assert (Hle : len (until_nul l) <= n) by (apply (f_equal length) in Hr'; rewrite length_app in Hr'; lia).
      split_and!.
      * change (u8 0) with 0 in Hr. rewrite find_nul in Hr by lia.
        assert (Hsize : (p <- memchr ptr 0 n;; if negb (p =? 0) then let size := i32 (p - ptr) in ret (if size >? n then n else size) else ret n) (after out)
          = Ret (len (until_nul l)) (after out)).
        { rewrite (bind_run _ _ _ _ _ Hr). case_bool_decide as E.
          - cbn. rewrite E. by replace (len l) with n by lia.
          - rewrite (proj2 (Z.eqb_neq _ _)) by lia. cbn [negb]. replace (ptr + len (until_nul l) - ptr) with (len (until_nul l)) by lia.
            rewrite i32_small by lia. cbn zeta. by rewrite Z.gtb_ltb, (proj2 (Z.ltb_ge _ _)) by lia. }
        by rewrite (bind_run _ _ _ _ _ Hsize).
      * cbn. rewrite Hr' in Hl. by apply at_mem_app in Hl as [? _].
      * apply (at_mem_bytes (after out) ptr); [done|]. apply at_rest. rewrite Hr' in Hl. by apply at_mem_app in Hl as [? _].
    + destruct (string_at_cstr _ _ _ _ Ht) as [Hl Hnul]. pose proof (proj1 (at_mem_app _ _ _ _) Hl) as [Hl' _].
      assert (Hr : strlen ptr (after out) = Ret (len t) (after out)) by (apply strlen_run; [done|done|]; split; [by apply at_rest|done]).
      split_and!; [|done|by apply (at_mem_bytes (after out) ptr); [|apply at_rest]].
      change (-1 >=? 0) with false. cbn match. rewrite bind_assoc, (bind_run _ _ _ _ _ Hr), i32_small by lia. done.
Qed.

(** ** Scanning a directive *)

Section scan.
Context {build : StrBuild} (ext : bool) (u2s : Z -> M bmem (list Z)) (count : Z) (out : list Z).
Context (Hout : Forall is_byte out).
#[local] Abbreviation mem := (after out).
Implicit Types (ap : list va).

(** The label [rflag]. *)
Definition rflag (fl : nat) (fmt : Z) ap (d : directive) : M bmem (scanned * Z * list va) :=
  ch <- ld fmt;; reswitch fl ext u2s count ch (fmt + 1) ap d.
Lemma rflag_at fl p c rest ap d : at_mem m0 p (c :: rest) -> rflag fl p ap d mem = reswitch fl ext u2s count c (p + 1) ap d mem.
Proof. intros [H _]. unfold rflag. by rewrite (bind_run _ _ _ _ _ (ld_rest out p c H)). Qed.

(** The scan gets past [text], in as many steps as it has characters or fewer. *)
Definition passes (text rest : list Z) ap (d : directive) ap' (d' : directive) : Prop :=
  forall fl p, at_mem m0 p (text ++ rest) -> (length (text ++ rest) <= fl)%nat ->
    exists fl', (length rest <= fl')%nat /\ rflag fl p ap d mem = rflag fl' (p + len text) ap' d' mem.
Lemma passes_nil rest ap d : passes [] rest ap d ap d.
Proof. intros fl p _ Hfl. exists fl. split; [done|]. cbn [length]. by rewrite Z.add_0_r. Qed.
Lemma passes_app t1 t2 rest ap d ap1 d1 ap2 d2 :
  passes t1 (t2 ++ rest) ap d ap1 d1 -> passes t2 rest ap1 d1 ap2 d2 -> passes (t1 ++ t2) rest ap d ap2 d2.
Proof.
  intros H1 H2 fl p Hm Hfl. rewrite <- app_assoc in Hm, Hfl. destruct (H1 fl p Hm Hfl) as (fl1 & Hf1 & ->).
  apply at_mem_app in Hm as [_ Hm]. destruct (H2 fl1 _ Hm Hf1) as (fl2 & Hf2 & ->). exists fl2. split; [done|].
  rewrite length_app. f_equal. lia.
Qed.
(** One character that [reswitch] takes as an option. *)
Lemma passes_char c rest ap d d' :
  (forall fl fmt, reswitch (S fl) ext u2s count c fmt ap d = rflag fl fmt ap d') -> passes [c] rest ap d ap d'.
Proof.
  intros Hs fl p Hm Hfl. cbn [length app] in *. destruct fl as [|fl]; [lia|]. exists fl. split; [lia|].
  by rewrite (rflag_at (S fl) p c rest ap d Hm), Hs.
Qed.

(** Flags. *)
Definition put_flag (f : flag) (c : cflags) : cflags :=
  mk_cflags (c_minus c || bool_decide (f = FMinus)) (c_zero c || bool_decide (f = FZero)) (c_alt c || bool_decide (f = FAlt)) (c_hex c) (c_len c).
Definition put_sign (f : flag) (sg : Z) : Z := match f with FPlus => 43 | FSpace => if sg =? 0 then 32 else sg | _ => sg end.
Lemma flag_passes f rest ap c w p sg : passes [flag_char f] rest ap (dir_of c w p sg) ap (dir_of (put_flag f c) w p (put_sign f sg)).
Proof.
  apply passes_char. intros fl fmt. unfold dir_of, put_flag. destruct f; cbn [put_sign flag_char].
  - rewrite bool_decide_eq_true_2, !bool_decide_eq_false_2, !orb_false_r, orb_true_r, <- flags_minus by done. reflexivity.
  - rewrite !bool_decide_eq_false_2, !orb_false_r by done. destruct c; reflexivity.
  - rewrite !bool_decide_eq_false_2, !orb_false_r by done. destruct c. cbn. destruct (sg =? 0); reflexivity.
  - rewrite (bool_decide_eq_true_2 (FAlt = FAlt)), !bool_decide_eq_false_2, !orb_false_r, orb_true_r, <- flags_alt by done. reflexivity.
  - rewrite (bool_decide_eq_true_2 (FZero = FZero)), !bool_decide_eq_false_2, !orb_false_r, orb_true_r, <- flags_zero by done. reflexivity.
Qed.
Definition with_flags (l : list flag) (c : cflags) : cflags :=
  mk_cflags (c_minus c || has_flag FMinus l) (c_zero c || has_flag FZero l) (c_alt c || has_flag FAlt l) (c_hex c) (c_len c).
Definition with_sign (l : list flag) (sg : Z) : Z := if has_flag FPlus l then 43 else if (sg =? 0) && has_flag FSpace l then 32 else sg.
Lemma has_flag_cons f g l : has_flag f (g :: l) = bool_decide (g = f) || has_flag f l.
Proof. unfold has_flag. destruct (decide (g = f)) as [->|].
  - rewrite (bool_decide_eq_true_2 (f = f)) by done. by apply bool_decide_eq_true_2, list_elem_of_here.
  - rewrite (bool_decide_eq_false_2 (g = f)) by done. cbn. apply bool_decide_ext. rewrite elem_of_cons. split; [intros [?|?]; [congruence|done]|by right].
Qed.
Lemma flags_pass l rest ap c w p sg : passes (map flag_char l) rest ap (dir_of c w p sg) ap (dir_of (with_flags l c) w p (with_sign l sg)).
Proof.
  revert c sg. induction l as [|f l IH]; intros c sg; cbn [map].
  - assert (E : dir_of (with_flags [] c) w p (with_sign [] sg) = dir_of c w p sg); [|rewrite E; apply passes_nil].
    unfold with_flags, with_sign, has_flag. cbn. rewrite !orb_false_r, andb_false_r. by destruct c.
  - change (flag_char f :: map flag_char l) with ([flag_char f] ++ map flag_char l).
    eapply passes_app; [apply flag_passes|]. specialize (IH (put_flag f c) (put_sign f sg)).
    assert (E : dir_of (with_flags l (put_flag f c)) w p (with_sign l (put_sign f sg)) = dir_of (with_flags (f :: l) c) w p (with_sign (f :: l) sg)).
    { unfold with_flags, with_sign, put_flag. cbn [c_minus c_zero c_alt c_hex c_len]. rewrite !has_flag_cons, <- !orb_assoc. f_equal.
      destruct f; cbn [put_sign]; rewrite ?bool_decide_eq_true_2, ?bool_decide_eq_false_2 by done; cbn [orb].
      all: destruct (has_flag FPlus l), (has_flag FSpace l), (Z.eqb_spec sg 0); cbn; try done; by destruct (Z.eqb_spec sg 0). }
    by rewrite <- E.
Qed.

(** Numbers in a format. *)
Lemma value_from_ge b a l : 0 <= b -> 1 <= b -> 0 <= a -> Forall (fun d => 0 <= d) l -> a <= value_from b a l.
Proof.
  intros Hb0 Hb Ha Hl. revert a Ha. induction Hl as [|d l Hd Hl IH]; intros a Ha; [cbn; lia|]; change (a <= value_from b (a * b + d) l).
  assert (a <= a * b) by nia. cbn beta in Hd. specialize (IH (a * b + d) ltac:(lia)). lia.
Qed.
Lemma is_digit_char d : 0 <= d < 10 -> is_digit (digit_char false d) = true /\ to_digit (digit_char false d) = d.
Proof.
  intros Hd. unfold is_digit, to_digit, digit_char. rewrite (proj2 (Z.ltb_lt d 10)) by lia.
  replace (48 + d - 48) with d by lia. rewrite u32_small by (unfold is_u32; lia). split; [by apply Z.leb_le; lia|done].
Qed.
Lemma number_loop_run l c rest fl n p : at_mem m0 p (map (digit_char false) l ++ c :: rest) -> is_digit c = false ->
  Forall (fun d => 0 <= d < 10) l -> 0 <= n -> value_from 10 n l < 2 ^ 31 -> (length l < fl)%nat ->
  (ch <- ld p;; number_loop fl n ch (p + 1)) mem = Ret (value_from 10 n l, c, p + len l + 1) mem.
Proof.
  intros Hm Hc Hl. revert fl n p Hm. induction Hl as [|d l Hd Hl IH]; intros fl n p Hm Hn Hv Hfl; cbn [map app length] in *.
  - rewrite (bind_run _ _ _ _ _ (ld_rest out p c (proj1 Hm))). destruct fl as [|fl]; [lia|]. cbn [number_loop]. rewrite Hc. unfold ret. cbn [value_from foldl].
    do 3 f_equal. lia.
  - destruct Hm as [Hd' Hm]. rewrite (bind_run _ _ _ _ _ (ld_rest out p _ Hd')). destruct fl as [|fl]; [lia|]. cbn [number_loop].
    destruct (is_digit_char d Hd) as [-> ->]. unfold value_from in *. cbn [foldl] in *. replace (n * 10) with (10 * n) in * by lia.
    assert (Hge : 10 * n + d <= value_from 10 (10 * n + d) l)
      by (apply value_from_ge; [lia|lia|lia|]; eapply Forall_impl; [exact Hl|]; cbn; lia).
    unfold value_from in Hge.
    rewrite (bind_run _ _ _ _ _ (int_result_run (10 * n) _ ltac:(lia))), (bind_run _ _ _ _ _ (int_result_run (10 * n + d) _ ltac:(lia))).
    rewrite IH by (done || lia). do 3 f_equal. lia.
Qed.

Definition ends_number (rest : list Z) : Prop := exists c c' l, rest = c :: c' :: l /\ is_digit c = false.
Lemma decimal_digits n : 0 <= n < 2 ^ 31 -> Forall (fun d => 0 <= d < 10) (digits 10 n) /\ value_from 10 0 (digits 10 n) = n.
Proof.
  intros Hn. split; [by apply digits_bound; lia|]. apply (digits_value 64 10 n 19); [lia| |lia].
  change (10 ^ Z.of_nat 20) with 100000000000000000000. lia.
Qed.
Lemma width_number d fl fmt ap dd : 1 <= d < 10 -> reswitch (S fl) ext u2s count (digit_char false d) fmt ap dd =
  (' (n, ch, fmt) <- number_loop fl 0 (digit_char false d) fmt;; reswitch fl ext u2s count ch fmt ap (set_width n dd)).
Proof.
  intros Hd. assert (Hc : d = 1 \/ d = 2 \/ d = 3 \/ d = 4 \/ d = 5 \/ d = 6 \/ d = 7 \/ d = 8 \/ d = 9) by lia.
  repeat destruct Hc as [-> | Hc]; try subst d; reflexivity.
Qed.
(** After a number the scan goes on with the character that ended it. *)
Lemma after_number l c rest fl fl' p ap (k : Z -> directive) : at_mem m0 p (map (digit_char false) l ++ c :: rest) -> is_digit c = false ->
  Forall (fun d => 0 <= d < 10) l -> value_from 10 0 l < 2 ^ 31 -> (length l < fl)%nat ->
  (ch <- ld p;; ' (n, ch, fmt) <- number_loop fl 0 ch (p + 1);; reswitch fl' ext u2s count ch fmt ap (k n)) mem =
  rflag fl' (p + len l) ap (k (value_from 10 0 l)) mem.
Proof.
  intros Hm Hc Hl Hv Hfl. rewrite <- bind_assoc. rewrite (bind_run _ _ _ _ _ (number_loop_run l c rest fl 0 p Hm Hc Hl ltac:(lia) Hv Hfl)).
  apply at_mem_app in Hm as [_ Hm]. rewrite length_map in Hm. by rewrite (rflag_at fl' _ c rest ap _ Hm).
Qed.
Lemma width_passes n rest ap c w p sg : 0 < n < 2 ^ 31 -> ends_number rest ->
  passes (decimal n) rest ap (dir_of c w p sg) ap (dir_of c n p sg).
Proof.
  intros Hn (e & e' & l' & -> & He) fl q Hm Hfl. set (l := e' :: l') in *. assert (Hl1 : (1 <= length l)%nat) by (cbn; lia). destruct (decimal_digits n ltac:(lia)) as [Hb Hv].
  destruct (digits_head 64 10 n 19) as (d & ds & E & Hd); [lia|change (10 ^ Z.of_nat 20) with 100000000000000000000; lia|lia|].
  unfold decimal, number_text in *. change (digits_upto 64 10 n) with (digits 10 n) in E.
  rewrite length_app, length_map in Hfl. cbn [length] in Hfl. rewrite E in Hfl. destruct fl as [|fl]; [lia|]. exists fl. split; [cbn [length] in *; lia|].
  pose proof (after_number (digits 10 n) e l fl fl q ap (fun n => set_width n (dir_of c w p sg)) Hm He Hb ltac:(lia) ltac:(rewrite E; cbn [length] in *; lia)) as Hr.
  rewrite Hv in Hr. rewrite length_map. unfold dir_of at 2. unfold set_width in Hr. cbn [dir_of d_flags d_prec d_sign] in Hr. rewrite <- Hr. clear Hr.
  rewrite E in Hm. cbn [map app] in Hm. rewrite (rflag_at _ q _ _ ap _ Hm). rewrite (bind_run _ _ _ _ _ (ld_rest out q _ (proj1 Hm))).
  rewrite E in Hb. apply Forall_cons in Hb as [Hb _]. by rewrite width_number by lia.
Qed.
Lemma prec_passes n rest ap c w p sg : 0 <= n < 2 ^ 31 -> ends_number rest ->
  passes (46 :: decimal n) rest ap (dir_of c w p sg) ap (dir_of c w (Some n) sg).
Proof.
  intros Hn (e & e' & l' & -> & He) fl q Hm Hfl. set (l := e' :: l') in *. assert (Hl1 : (1 <= length l)%nat) by (cbn; lia). destruct (decimal_digits n Hn) as [Hb Hv].
  unfold decimal, number_text in *. cbn [app] in *. cbn [length] in Hfl. rewrite length_app, length_map in Hfl. cbn [length] in Hfl.
  destruct fl as [|fl]; [lia|]. exists fl. split; [cbn [length] in *; lia|]. rewrite (rflag_at _ q _ _ ap _ Hm). destruct Hm as [_ Hm].
  pose proof (after_number (digits 10 n) e l fl fl (q + 1) ap (fun n => set_prec (if n <? 0 then -1 else n) (dir_of c w p sg)) Hm He Hb ltac:(lia) ltac:(cbn [length] in *; lia)) as Hr.
  rewrite Hv, (proj2 (Z.ltb_ge n 0)) in Hr by lia. cbn [length]. rewrite length_map.
  replace (q + Z.of_nat (S (length (digits 10 n)))) with (q + 1 + len (digits 10 n)) by lia.
  unfold dir_of at 2. unfold set_prec in Hr at 2. cbn [dir_of d_flags d_width d_sign] in Hr. change (default (-1) (Some n)) with n. rewrite <- Hr. clear Hr.
  assert (Hne : exists x xs, map (digit_char false) (digits 10 n) ++ e :: l = x :: xs /\ (x =? 42) = false).
  { destruct (digits 10 n) as [|d ds] eqn:E; [by apply digits_nonempty in E|]. eexists _, _. split; [reflexivity|].
    apply Forall_cons in Hb as [Hb _]. unfold digit_char. rewrite (proj2 (Z.ltb_lt d 10)) by lia. apply Z.eqb_neq. lia. }
  destruct Hne as (x & xs & Ex & Hx). rewrite Ex in Hm. pose proof (ld_rest out _ _ (proj1 Hm)) as Hld.
  cbn [reswitch Z.eqb Pos.eqb]. rewrite !(bind_run _ _ _ _ _ Hld). by rewrite Hx.
Qed.

(** Stars, an empty precision, lengths. *)
Definition star_flags (w : Z) (c : cflags) : cflags := mk_cflags (c_minus c || (w <? 0)) (c_zero c) (c_alt c) (c_hex c) (c_len c).
Lemma star_width_passes w rest ap c p sg : i32 w <> - 2 ^ 31 ->
  passes [42] rest (VWord w :: ap) (dir_of c 0 p sg) ap (dir_of (star_flags (i32 w) c) (Z.abs (i32 w)) p sg).
Proof.
  intros Hw fl q Hm Hfl. cbn [app length] in *. destruct fl as [|fl]; [lia|]. exists fl. split; [lia|].
  rewrite (rflag_at _ q _ _ _ _ Hm). unfold star_flags, dir_of. cbn [reswitch Z.eqb Pos.eqb]. unfold va_word. unfold bind at 1, ret at 1.
  assert (Hi : - 2 ^ 31 <= i32 w < 2 ^ 31) by (unfold i32; pose proof (u32_range w) as Hr; unfold is_u32 in Hr; case_match; lia).
  destruct (Z.ltb_spec (i32 w) 0) as [Hn|Hn].
  - rewrite Z.geb_leb, (proj2 (Z.leb_gt 0 _)) by lia. rewrite (bind_run _ _ _ _ _ (int_result_run (- i32 w) _ ltac:(lia))), orb_true_r, <- flags_minus.
    rewrite Z.abs_neq by lia. reflexivity.
  - rewrite Z.geb_leb, (proj2 (Z.leb_le 0 _)), orb_false_r, Z.abs_eq by lia. destruct c. reflexivity.
Qed.
Lemma star_prec_passes w rest ap c n sg : passes [46; 42] rest (VWord w :: ap) (dir_of c n None sg) ap
  (dir_of c n (if i32 w <? 0 then None else Some (i32 w)) sg).
Proof.
  intros fl q Hm Hfl. cbn [app length] in *. destruct fl as [|fl]; [lia|]. exists fl. split; [lia|].
  rewrite (rflag_at _ q _ _ _ _ Hm). destruct Hm as (_ & Hm & _). cbn [reswitch Z.eqb Pos.eqb]. rewrite (bind_run _ _ _ _ _ (ld_rest out _ _ Hm)).
  replace (q + Z.of_nat 2) with (q + 1 + 1) by lia. cbn [Z.eqb Pos.eqb]. unfold va_word, bind at 1, ret at 1. destruct (i32 w <? 0); reflexivity.
Qed.
Definition ends_prec (rest : list Z) : Prop := exists c l, rest = c :: l /\ is_digit c = false /\ (c =? 42) = false.
Lemma sw_dot fl fmt ap d : reswitch (S fl) ext u2s count 46 fmt ap d =
  (ch <- ld fmt;; if ch =? 42 then ' (w, ap) <- va_word ap;; rflag fl (fmt + 1) ap (set_prec (if i32 w <? 0 then -1 else i32 w) d)
                  else ' (n, ch, fmt) <- number_loop fl 0 ch (fmt + 1);; reswitch fl ext u2s count ch fmt ap (set_prec (if n <? 0 then -1 else n) d)).
Proof. reflexivity. Qed.
Lemma empty_prec_passes rest ap c n sg : ends_prec rest -> passes [46] rest ap (dir_of c n None sg) ap (dir_of c n (Some 0) sg).
Proof.
  intros (e & l & -> & He & Hs) fl q Hm Hfl. cbn [app length] in *. destruct fl as [|[|fl]]; [lia|lia|]. exists (S fl). split; [lia|].
  rewrite (rflag_at _ q _ _ _ _ Hm), sw_dot. destruct Hm as (_ & Hm). change (q + Z.of_nat 1) with (q + 1). rewrite (rflag_at _ _ _ _ _ _ Hm).
  rewrite (bind_run _ _ _ _ _ (ld_rest out _ _ (proj1 Hm))), Hs. cbn [number_loop]. rewrite He. reflexivity.
Qed.
Lemma sw_l fl fmt ap d : reswitch (S fl) ext u2s count 108 fmt ap d =
  (c <- ld fmt;; if c =? 108 then rflag fl (fmt + 1) ap (or_flags QUADINT d) else rflag fl fmt ap (or_flags LONGINT d)).
Proof. reflexivity. Qed.
Lemma len_passes l rest ap c w p sg : c_len c = LNone -> (exists e r, rest = e :: r /\ (e =? 108) = false) ->
  passes (len_text l) rest ap (dir_of c w p sg) ap (dir_of (mk_cflags (c_minus c) (c_zero c) (c_alt c) (c_hex c) l) w p sg).
Proof.
  intros Hc (e & r & -> & He). unfold dir_of at 2. rewrite <- flags_len by done.
  destruct l; try (apply passes_char; intros; reflexivity).
  - cbn [len_text len_bit]. rewrite Z.lor_0_r. apply passes_nil.
  - intros fl q Hm Hfl. cbn [app length len_text] in *. destruct fl as [|fl]; [lia|]. exists fl. split; [lia|].
    rewrite (rflag_at _ q _ _ _ _ Hm), sw_l. destruct Hm as (_ & Hm & _). by rewrite (bind_run _ _ _ _ _ (ld_rest out _ _ Hm)), He.
  - intros fl q Hm Hfl. cbn [app length len_text] in *. destruct fl as [|fl]; [lia|]. exists fl. split; [lia|].
    rewrite (rflag_at _ q _ _ _ _ Hm), sw_l. destruct Hm as (_ & Hm & _). rewrite (bind_run _ _ _ _ _ (ld_rest out _ _ Hm)). replace (q + Z.of_nat 2) with (q + 1 + 1) by lia. reflexivity.
Qed.

(** Everything in front of the conversion. *)
Definition dir_ok (d : dir) : Prop :=
  match s_width d with Width n => 0 < n < 2 ^ 31 | _ => True end /\
  match s_prec d with Prec n => 0 <= n < 2 ^ 31 | _ => True end.
Definition dir_front (d : dir) : list Z := map flag_char (s_flags d) ++ width_text (s_width d) ++ prec_text (s_prec d) ++ len_text (s_len d).
Definition flags_for (d : dir) (o : options) : cflags := mk_cflags (o_minus o) (o_zero o) (o_alt o) false (s_len d).
Lemma conv_head (k : conversion) rest : exists c l, conv_text k ++ rest = c :: l /\ (c =? 108) = false /\ (k <> Cpercent -> True) /\ is_digit c = false /\ (c =? 42) = false.
Proof. destruct k; eexists _, _; split_and!; reflexivity || done. Qed.
Lemma len_conv_head l (k : conversion) x rest : ends_number (len_text l ++ conv_text k ++ x :: rest) /\ ends_prec (len_text l ++ conv_text k ++ x :: rest).
Proof. unfold ends_number, ends_prec. destruct l, k; split; eexists _, _; try eexists _; split_and!; reflexivity. Qed.
Lemma prec_head p l (k : conversion) x rest : ends_number (prec_text p ++ len_text l ++ conv_text k ++ x :: rest).
Proof.
  destruct p; cbn [prec_text]; [apply len_conv_head| |by unfold ends_number; destruct l, k; eexists _, _, _|by eexists _, _, _].
  destruct (decimal n ++ len_text l ++ conv_text k ++ x :: rest) as [|y r] eqn:E.
  - apply (f_equal length) in E. rewrite !length_app in E. cbn in E. lia.
  - exists 46, y, r. split; [|done]. change ((46 :: decimal n) ++ len_text l ++ conv_text k ++ x :: rest) with (46 :: (decimal n ++ len_text l ++ conv_text k ++ x :: rest)). by rewrite E.
Qed.

Lemma front_passes d ap o ap' x rest : dir_ok d -> options_of d ap = Some (o, ap') ->
  passes (dir_front d) (conv_text (s_conv d) ++ x :: rest) ap (mk_dir 0 0 (-1) 0) ap' (dir_of (flags_for d o) (o_width o) (o_prec o) (o_sign o)).
Proof.
  intros [Hw Hp] Ho. unfold dir_front, options_of in *. set (k := s_conv d).
  assert (Hlen : exists e r, conv_text k ++ x :: rest = e :: r /\ (e =? 108) = false)
    by (destruct (conv_head k (x :: rest)) as (e & r & E & H & _); eauto).
  change (mk_dir 0 0 (-1) 0) with (dir_of (mk_cflags false false false false LNone) 0 None 0).
  eapply passes_app; [apply flags_pass|]. change (with_sign (s_flags d) 0) with (sign_of (s_flags d)).
  unfold with_flags. cbn [c_minus c_zero c_alt c_hex c_len orb]. set (fm := has_flag FMinus (s_flags d)) in *.
  assert (Hprec : forall c w sg ap, c_len c = LNone -> match s_prec d with
       | NoPrec => Some (None, ap) | Prec n => Some (Some n, ap) | EmptyPrec => Some (Some 0, ap)
       | StarPrec => ' (p, ap) ← star ap; Some (if p <? 0 then None else Some p, ap) end = Some (o_prec o, ap') ->
     passes (prec_text (s_prec d) ++ len_text (s_len d)) (conv_text k ++ x :: rest) ap (dir_of c w None sg) ap'
       (dir_of (mk_cflags (c_minus c) (c_zero c) (c_alt c) (c_hex c) (s_len d)) w (o_prec o) sg)).
  { intros c w sg ap0 Hc Hq. eapply passes_app; [|by apply len_passes]. destruct (s_prec d); cbn [prec_text].
    - injection Hq as <- <-. apply passes_nil.
    - injection Hq as <- <-. apply prec_passes; [done|apply len_conv_head].
    - injection Hq as <- <-. apply empty_prec_passes, len_conv_head.
    - destruct ap0 as [|[w'|] ap0]; cbn in Hq; try done. injection Hq as <- <-. apply star_prec_passes. }
  assert (Hsome : forall w ap1, match s_prec d with
       | NoPrec => Some (None, ap1) | Prec n => Some (Some n, ap1) | EmptyPrec => Some (Some 0, ap1)
       | StarPrec => ' (p, ap) ← star ap1; Some (if p <? 0 then None else Some p, ap) end ≫= (fun '(p, ap) =>
         Some (mk_options (fm || (w <? 0)) (has_flag FZero (s_flags d)) (has_flag FAlt (s_flags d)) (sign_of (s_flags d)) (Z.abs w) p, ap)) = Some (o, ap') ->
     passes (prec_text (s_prec d) ++ len_text (s_len d)) (conv_text k ++ x :: rest) ap1
       (dir_of (mk_cflags (fm || (w <? 0)) (has_flag FZero (s_flags d)) (has_flag FAlt (s_flags d)) false LNone) (Z.abs w) None (sign_of (s_flags d))) ap'
       (dir_of (flags_for d o) (o_width o) (o_prec o) (o_sign o))).
  { intros w ap1 Hq. specialize (Hprec (mk_cflags (fm || (w <? 0)) (has_flag FZero (s_flags d)) (has_flag FAlt (s_flags d)) false LNone)
      (Z.abs w) (sign_of (s_flags d)) ap1 eq_refl).
    destruct (match s_prec d with NoPrec => _ | _ => _ end) as [[p ap2]|]; [|done]. cbn in Hq. injection Hq as <- <-. by apply Hprec. }
  destruct (s_width d) as [|n|] eqn:Ew; cbn [width_text app].
  - specialize (Hsome 0 ap Ho). cbn in Hsome. by rewrite orb_false_r in Hsome.
  - eapply passes_app; [apply width_passes; [done|rewrite <- app_assoc; apply prec_head]|]. specialize (Hsome n ap Ho).
    rewrite (proj2 (Z.ltb_ge n 0)), orb_false_r, Z.abs_eq in Hsome by lia. exact Hsome.
  - destruct ap as [|[w|] ap]; cbn in Ho; try done. destruct (Z.eqb_spec (i32 w) (- 2 ^ 31)); [done|].
    change (42 :: prec_text (s_prec d) ++ len_text (s_len d)) with ([42] ++ prec_text (s_prec d) ++ len_text (s_len d)).
    eapply passes_app; [by apply star_width_passes|]. exact (Hsome (i32 w) ap Ho).
Qed.

(** ** Conversions *)

Definition prints (f : field) (x : list Z) : Prop := Forall is_byte x /\ forall n, 0 <= n -> n + len x < 2 ^ 31 ->
  emit f tailp n (next out) mem = Ret (n + len x, next (out ++ x)) (after (out ++ x)).
Lemma number_is_byte c p b up z : 0 <= z -> Forall is_byte (number_is c p b up z).
Proof.
  intros Hz. unfold number_is. destruct (_ && _); [constructor|].
  destruct b; [destruct (_ && _); [constructor; [done|]|]| |]; apply number_text_byte; lia.
Qed.
Lemma layout_byte minus zero w prefix body : Forall is_byte prefix -> Forall is_byte body -> Forall is_byte (layout minus zero w prefix body).
Proof.
  intros. unfold layout. assert (H48 : forall n, Forall is_byte (replicate n 48)) by (intros; by apply Forall_replicate).
  assert (H32 : forall n, Forall is_byte (replicate n 32)) by (intros; by apply Forall_replicate).
  destruct minus, zero; rewrite !Forall_app; auto.
Qed.
Lemma prefix_byte c sg ch : is_byte sg -> is_byte ch -> Forall is_byte (prefix_of c sg ch).
Proof. intros. unfold prefix_of. destruct (truth sg); [by constructor|]. destruct (c_hex c); [|constructor]. constructor; [done|by constructor]. Qed.

Definition options_ok (o : options) : Prop := 0 <= o_width o /\ prec_ok (o_prec o) /\ is_byte (o_sign o).
Definition agree (c : cflags) (o : options) : Prop := c_minus c = o_minus o /\ c_zero c = o_zero o /\ c_alt c = o_alt o.

(** Numbers. *)
Lemma number_prints o c ch b (up : bool) xdigs z sg : agree c o -> options_ok o -> 0 <= z < 2 ^ 64 ->
  (b = HEX -> xdigs = if up then HEXDIGITS else hexdigits) -> is_byte sg -> is_byte ch ->
  exists f, number (dir_of c (o_width o) (o_prec o) sg) ch b xdigs z mem = Ret f mem /\
    prints f (int_layout o (prefix_of c sg ch) (number_is c (o_prec o) b up z)).
Proof.
  intros (Hm & Hz & Ha) (Hw & Hp & _) Hz' Hx Hsg Hch. eexists. split; [by apply (number_run _ _ _ _ _ _ up)|].
  set (text := number_is c (o_prec o) b up z). set (c' := if bool_decide (o_prec o = None) then c else no_zero c).
  assert (Hl : with_digits (o_prec o) text = leading (default (-1) (o_prec o)) text).
  { unfold with_digits, leading. destruct (o_prec o) as [n|]; [done|]. change (default (-1) None) with (-1). by rewrite (Z2Nat.nonpos (-1 - len text)) by lia. }
  assert (Ht : Forall is_byte text) by (apply number_is_byte; lia).
  assert (Hc : c_minus c' = o_minus o /\ c_zero c' = o_zero o && bool_decide (o_prec o = None) /\ prefix_of c' sg ch = prefix_of c sg ch).
  { unfold c'. case_bool_decide; cbn; rewrite ?andb_true_r, ?andb_false_r; by split_and!. }
  destruct Hc as (Hc1 & Hc2 & Hc3). unfold int_layout. rewrite Hl, <- Hc1, <- Hc2, <- Hc3. split.
  - apply layout_byte; [by apply prefix_byte|]. unfold leading. apply Forall_app. split; [by apply Forall_replicate|done].
  - intros n Hn Hlen. apply emit_run; try done. exists []. by rewrite app_nil_r.
Qed.
(** Characters and strings. *)
Lemma text_prints o c ch cp text p : agree c o -> options_ok o -> c_hex c = false -> field_is cp text -> Forall is_byte text -> is_byte ch ->
  prints (mk_field (dir_of c (o_width o) p 0) 0 ch cp (len text)) (text_layout o text).
Proof.
  intros (Hm & Hz & Ha) (Hw & Hp & _) Hh Hcp Ht Hch. unfold text_layout.
  assert (Hl : leading 0 text = text) by (unfold leading; by rewrite (Z2Nat.nonpos (0 - len text)) by lia).
  assert (Hpre : prefix_of c 0 ch = []) by (unfold prefix_of; by rewrite Hh).
  rewrite <- Hm, <- Hz. split; [by apply layout_byte|]. intros n Hn Hlen.
  pose proof (emit_run c (o_width o) p 0 0 ch cp text n out) as He. cbn zeta in He. rewrite Hl, Hpre in He. by apply He.
Qed.

Lemma arg_bits_range l a z : arg_bits l a = Some z -> 0 <= z < 2 ^ bits_of l /\ 2 ^ bits_of l <= 2 ^ 64.
Proof.
  destruct l, a as [w|q]; cbn; intros [= <-]; unfold u16, u32, u64; split; try lia; apply Z.mod_pos_bound; lia.
Qed.
Lemma sign_byte o v : options_ok o -> is_byte (if v <? 0 then 45 else o_sign o).
Proof. intros (_ & _ & H). by destruct (v <? 0). Qed.
Lemma signed_abs l z : 0 <= z < 2 ^ bits_of l -> 2 ^ bits_of l <= 2 ^ 64 -> let v := signed_value l z in
  neg64 (u64 v) = (v <? 0) /\ (if v <? 0 then u64 (- u64 v) else u64 v) = Z.abs v /\ Z.abs v < 2 ^ 64.
Proof.
  intros Hz Hb v. assert (Hv : - 2 ^ 63 <= v < 2 ^ 63).
  { unfold v, signed_value. assert (Hh : 2 ^ bits_of l = 2 * 2 ^ (bits_of l - 1)) by (destruct l; reflexivity). case_match; lia. }
  unfold neg64, u64. rewrite Z.mod_mod by lia. destruct (Z.ltb_spec v 0).
  - replace (v mod 2 ^ 64) with (v + 2 ^ 64) by (apply (Z.mod_unique v (2 ^ 64) (-1)); lia).
    split_and!; [by apply Z.leb_le; lia| |lia]. rewrite Z.abs_neq by lia. replace (- (v + 2 ^ 64)) with (- v + (-1) * 2 ^ 64) by lia.
    rewrite Z_mod_plus_full. apply Z.mod_small. lia.
  - rewrite !Z.mod_small by lia. split_and!; [by apply Z.leb_gt; lia| |lia]. by rewrite Z.abs_eq by lia.
Qed.

Section conversion.
Context (uuid : Z -> option (list Z)).
Hypothesis Huuid : forall p t, uuid p = Some t -> u2s p mem = Ret t mem /\ Forall is_byte t.

(** A field was scanned that prints [x]. *)
Definition scans (k : list Z) (rest : list Z) ap (d : directive) ap' (x : list Z) : Prop :=
  forall fl p, at_mem m0 p (k ++ rest) -> (length (k ++ rest) <= fl)%nat ->
    exists f, rflag fl p ap d mem = Ret (Field f, p + len k, ap') mem /\ prints f x.
Lemma scans_char k rest ap d ap' x :
  (forall fl fmt, exists f, reswitch (S fl) ext u2s count k fmt ap d mem = Ret (Field f, fmt, ap') mem /\ prints f x) ->
  scans [k] rest ap d ap' x.
Proof.
  intros H fl p Hm Hfl. cbn [app length] in *. destruct fl as [|fl]; [lia|]. rewrite (rflag_at _ p _ _ _ _ Hm).
  by destruct (H fl (p + 1)) as (f & -> & Hf); exists f.
Qed.

Context (d : dir) (o : options).
Context (Ho : options_ok o).
Let c := flags_for d o.
Lemma agree_for : agree c o.
Proof. done. Qed.
Definition hexed : cflags := mk_cflags (o_minus o) (o_zero o) (o_alt o) true (s_len d).

(** [number_is] and the text of the reference. *)
Lemma number_is_dec up z : number_is c (o_prec o) DEC up z = number_body o 10 false z.
Proof. done. Qed.
Lemma number_is_hex c' up z : number_is c' (o_prec o) HEX up z = number_body o 16 up z.
Proof. done. Qed.
Lemma number_is_oct up z : number_is c (o_prec o) OCT up z = if o_alt o && negb (z =? 0) then 48 :: number_body o 8 false z else number_body o 8 false z.
Proof.
  unfold number_is, number_body, no_digits. cbn [c flags_for c_alt]. destruct (Z.eqb_spec z 0) as [->|]; cbn [andb negb]; [|done].
  by rewrite andb_false_r.
Qed.

Lemma signed_scans ch a rest ap x : ch = 100 \/ ch = 105 ->
  (z ← arg_bits (s_len d) a; let v := signed_value (s_len d) z in
   Some (int_layout o (if v <? 0 then [45] else if o_sign o =? 0 then [] else [o_sign o]) (number_body o 10 false (Z.abs v)))) = Some x ->
  scans [ch] rest (a :: ap) (dir_of c (o_width o) (o_prec o) (o_sign o)) ap x.
Proof.
  intros Hch Hx. destruct (arg_bits (s_len d) a) as [z|] eqn:Ea; [|done]. cbn in Hx. injection Hx as <-. set (v := signed_value (s_len d) z).
  destruct (arg_bits_range _ _ _ Ea) as [Hz Hb]. destruct (signed_abs (s_len d) z Hz Hb) as (Hn & Hq & Hr). fold v in Hn, Hq, Hr.
  apply scans_char. intros fl fmt.
  assert (Hsw : reswitch (S fl) ext u2s count ch fmt (a :: ap) (dir_of c (o_width o) (o_prec o) (o_sign o)) =
    (' (q, ap) <- SARG (flags_of c) (a :: ap);;
     let '(q, d) := if neg64 q then (u64 (- q), dir_of c (o_width o) (o_prec o) 45) else (q, dir_of c (o_width o) (o_prec o) (o_sign o)) in
     f <- number d ch DEC [] q;; ret (Field f, fmt, ap))) by (destruct Hch as [-> | ->]; reflexivity).
  rewrite Hsw. rewrite (bind_run _ _ _ _ _ (SARG_run c a ap z mem Ea)). fold v. change (c_len c) with (s_len d). fold v. rewrite Hn.
  destruct (number_prints o c ch DEC false [] (Z.abs v) (if v <? 0 then 45 else o_sign o) agree_for Ho ltac:(lia) ltac:(done) (sign_byte o v Ho)
    ltac:(destruct Hch as [-> | ->]; done)) as (f & Hf & Hp).
  exists f. destruct (v <? 0) eqn:Ev; rewrite Hq; rewrite (bind_run _ _ _ _ _ Hf); (split; [done|]).
  - exact Hp.
  - unfold prefix_of, truth in Hp. cbn [c flags_for c_hex] in Hp. rewrite number_is_dec in Hp. by destruct (o_sign o =? 0).
Qed.
Lemma unsigned_scans ch b a rest ap x : (ch = 117 /\ b = DEC) \/ (ch = 111 /\ b = OCT) ->
  (z ← arg_bits (s_len d) a; Some (int_layout o [] (number_is c (o_prec o) b false z))) = Some x ->
  scans [ch] rest (a :: ap) (dir_of c (o_width o) (o_prec o) (o_sign o)) ap x.
Proof.
  intros Hch Hx. destruct (arg_bits (s_len d) a) as [z|] eqn:Ea; [|done]. cbn in Hx. injection Hx as <-.
  destruct (arg_bits_range _ _ _ Ea) as [Hz Hb]. apply scans_char. intros fl fmt.
  assert (Hsw : reswitch (S fl) ext u2s count ch fmt (a :: ap) (dir_of c (o_width o) (o_prec o) (o_sign o)) =
    (' (q, ap) <- UARG (flags_of c) (a :: ap);; f <- number (dir_of c (o_width o) (o_prec o) 0) ch b [] q;; ret (Field f, fmt, ap)))
    by (destruct Hch as [[-> ->] | [-> ->]]; reflexivity).
  rewrite Hsw, (bind_run _ _ _ _ _ (UARG_run c a ap z mem Ea)).
  destruct (number_prints o c ch b false [] z 0 agree_for Ho ltac:(lia) ltac:(destruct Hch as [[_ ->] | [_ ->]]; done) ltac:(done)
    ltac:(destruct Hch as [[-> _] | [-> _]]; done)) as (f & Hf & Hp).
  exists f. by rewrite (bind_run _ _ _ _ _ Hf).
Qed.
Lemma hex_scans ch (up : bool) a rest ap x : ch = (if up then 88 else 120) ->
  (z ← arg_bits (s_len d) a; Some (int_layout o (if o_alt o && negb (z =? 0) then [48; ch] else []) (number_body o 16 up z))) = Some x ->
  scans [ch] rest (a :: ap) (dir_of c (o_width o) (o_prec o) (o_sign o)) ap x.
Proof.
  intros Hch Hx. destruct (arg_bits (s_len d) a) as [z|] eqn:Ea; [|done]. cbn in Hx. injection Hx as <-.
  destruct (arg_bits_range _ _ _ Ea) as [Hz Hb]. apply scans_char. intros fl fmt.
  set (c' := if o_alt o && negb (z =? 0) then hexed else c).
  assert (Hsw : reswitch (S fl) ext u2s count ch fmt (a :: ap) (dir_of c (o_width o) (o_prec o) (o_sign o)) =
    (' (q, ap) <- UARG (flags_of c) (a :: ap);;
     let d := if truth (Z.land (flags_of c) ALT) && negb (q =? 0) then or_flags HEXPREFIX (dir_of c (o_width o) (o_prec o) (o_sign o)) else dir_of c (o_width o) (o_prec o) (o_sign o) in
     f <- nosign d ch HEX (if up then HEXDIGITS else hexdigits) q;; ret (Field f, fmt, ap))) by (rewrite Hch; destruct up; reflexivity).
  rewrite Hsw, (bind_run _ _ _ _ _ (UARG_run c a ap z mem Ea)), has_alt. cbn zeta.
  assert (Hd : set_sign 0 (if c_alt c && negb (z =? 0) then or_flags HEXPREFIX (dir_of c (o_width o) (o_prec o) (o_sign o)) else dir_of c (o_width o) (o_prec o) (o_sign o))
    = dir_of c' (o_width o) (o_prec o) 0).
  { unfold c'. change (c_alt c) with (o_alt o). destruct (_ && _); [|done]. unfold or_flags, set_sign, dir_of. cbn [d_flags d_width d_prec d_sign]. by rewrite flags_hex. }
  unfold nosign. rewrite Hd. assert (Ha : agree c' o) by (unfold c'; by destruct (_ && _)).
  destruct (number_prints o c' ch HEX up (if up then HEXDIGITS else hexdigits) z 0 Ha Ho ltac:(lia) ltac:(done) ltac:(done) ltac:(rewrite Hch; by destruct up)) as (f & Hf & Hp).
  exists f. rewrite (bind_run _ _ _ _ _ Hf). split; [done|]. rewrite number_is_hex in Hp.
  assert (Hpre : prefix_of c' 0 ch = if o_alt o && negb (z =? 0) then [48; ch] else []) by (unfold prefix_of, c'; by destruct (_ && _)).
  by rewrite Hpre in Hp.
Qed.

Lemma word_arg a p : arg_bits LNone a = Some p -> exists w, a = VWord w /\ p = u32 w.
Proof. destruct a as [w|q]; cbn; [|done]. intros [= <-]. by exists w. Qed.
Lemma u8_u32 w : u8 (u32 w) = u8 w.
Proof. unfold u8, u32. apply Z.mod_mod_divide. by exists (2 ^ 24). Qed.
Lemma text_layout_len t : len t <= len (text_layout o t).
Proof. unfold text_layout. rewrite layout_len. cbn. lia. Qed.

Lemma char_scans a rest ap x : (w ← arg_bits LNone a; Some (text_layout o [u8 w])) = Some x ->
  scans [99] rest (a :: ap) (dir_of c (o_width o) (o_prec o) (o_sign o)) ap x.
Proof.
  intros Hx. destruct (arg_bits LNone a) as [z|] eqn:Ea; [|done]. destruct (word_arg _ _ Ea) as (w & -> & ->). cbn in Hx. injection Hx as <-.
  rewrite u8_u32. apply scans_char. intros fl fmt. eexists. split; [reflexivity|]. change 1 with (len [u8 w]).
  apply (text_prints o c 99 (Local [u8 w]) [u8 w] (o_prec o) agree_for Ho eq_refl); [by exists []| |done].
  constructor; [apply u8_range|constructor].
Qed.
Lemma string_scans a rest ap x : (p ← arg_bits LNone a; t ← text_at m0 (o_prec o) p; Some (text_layout o t)) = Some x -> len x < 2 ^ 31 ->
  scans [115] rest (a :: ap) (dir_of c (o_width o) (o_prec o) (o_sign o)) ap x.
Proof.
  intros Hx Hlen. destruct (arg_bits LNone a) as [z|] eqn:Ea; [|done]. destruct (word_arg _ _ Ea) as (w & -> & ->). cbn [mbind option_bind] in Hx.
  destruct (text_at m0 (o_prec o) (u32 w)) as [t|] eqn:Et; [|done]. cbn in Hx. injection Hx as <-.
  apply scans_char. intros fl fmt. pose proof (text_layout_len t). pose proof (u32_range w) as [Hw _].
  destruct (string_run c (o_width o) (o_prec o) (o_sign o) 115 (u32 w) t out Et Hw ltac:(lia) (proj1 (proj2 Ho)) Hout) as (cp & Hr & Hcp & Hb).
  eexists. split; [|by apply (text_prints o c 115 cp t (o_prec o) agree_for Ho eq_refl Hcp Hb)].
  change (reswitch (S fl) ext u2s count 115 fmt (VWord w :: ap) (dir_of c (o_width o) (o_prec o) (o_sign o)) (after out))
    with ((f <- string_field (dir_of c (o_width o) (o_prec o) (o_sign o)) 115 (u32 w);; ret (Field f, fmt, ap)) (after out)).
  by rewrite (bind_run _ _ _ _ _ Hr).
Qed.

(** [%p] is not followed by [Ul] where that means a UUID. *)
Definition ul_free (rest : list Z) : bool := match rest with [] => false | 85 :: 108 :: _ => false | [85] => false | _ => true end.
Lemma pointer_scans a rest ap x : (ext = true -> ul_free rest = true) ->
  (p ← arg_bits LNone a; Some (int_layout o [48; 120] (number_body o 16 false p))) = Some x ->
  scans [112] rest (a :: ap) (dir_of c (o_width o) (o_prec o) (o_sign o)) ap x.
Proof.
  intros Hul Hx. destruct (arg_bits LNone a) as [z|] eqn:Ea; [|done]. destruct (word_arg _ _ Ea) as (w & -> & ->). cbn in Hx. injection Hx as <-.
  intros fl p Hm Hfl. destruct fl as [|fl]; [cbn in Hfl; lia|]. rewrite (rflag_at _ p _ _ _ _ Hm). destruct Hm as [_ Hm].
  pose proof (u32_range w) as Hw. unfold is_u32 in Hw.
  destruct (number_prints o hexed 120 HEX false hexdigits (u32 w) 0 (conj eq_refl (conj eq_refl eq_refl)) Ho ltac:(lia) ltac:(done) ltac:(done) ltac:(done)) as (f & Hf & Hp).
  exists f. split; [|exact Hp].
  assert (Hsw : reswitch (S fl) ext u2s count 112 (p + 1) (VWord w :: ap) (dir_of c (o_width o) (o_prec o) (o_sign o)) =
    (c1 <- (if ext then ld (p + 1) else ret 0);;
     c' <- (if ext && (c1 =? 85) then ld (p + 1 + 1) else ret 0);;
     if ext && (c1 =? 85) && (c' =? 108) then
       text <- u2s (u32 w);; ret (Field (mk_field (dir_of c (o_width o) (o_prec o) 0) 0 112 (Local text) (Z.of_nat (length text))), p + 1 + 2, ap)
     else f <- nosign (or_flags HEXPREFIX (dir_of c (o_width o) (o_prec o) (o_sign o))) 120 HEX hexdigits (u32 w);; ret (Field f, p + 1, ap)))
    by reflexivity.
  rewrite Hsw. clear Hsw. unfold nosign, or_flags, dir_of at 2 3. unfold set_sign. cbn [dir_of d_flags d_width d_prec d_sign]. rewrite flags_hex.
  change (number {| d_flags := flags_of _; d_width := o_width o; d_prec := default (-1) (o_prec o); d_sign := 0 |} 120 HEX hexdigits (u32 w))
    with (number (dir_of hexed (o_width o) (o_prec o) 0) 120 HEX hexdigits (u32 w)).
  assert (Hend : (f <- number (dir_of hexed (o_width o) (o_prec o) 0) 120 HEX hexdigits (u32 w);; ret (Field f, p + 1, ap)) mem = Ret (Field f, p + len [112], ap) mem)
    by by rewrite (bind_run _ _ _ _ _ Hf).
  destruct ext; [|exact Hend]. specialize (Hul eq_refl). destruct rest as [|c1 rest]; [done|].
  rewrite (bind_run _ _ _ _ _ (ld_rest out _ _ (proj1 Hm))). cbn [andb]. destruct (Z.eqb_spec c1 85) as [->|Hne]; cbn [andb]; [|exact Hend].
  destruct rest as [|c2 rest]; [done|]. destruct Hm as (_ & Hm & _). rewrite (bind_run _ _ _ _ _ (ld_rest out _ _ Hm)).
  destruct (Z.eqb_spec c2 108) as [->|]; [done|exact Hend].
Qed.
Lemma uuid_scans a rest ap x : ext = true -> (p ← arg_bits LNone a; t ← uuid p; Some (text_layout o t)) = Some x ->
  scans [112; 85; 108] rest (a :: ap) (dir_of c (o_width o) (o_prec o) (o_sign o)) ap x.
Proof.
  intros Hext Hx. destruct (arg_bits LNone a) as [z|] eqn:Ea; [|done]. destruct (word_arg _ _ Ea) as (w & -> & ->). cbn [mbind option_bind] in Hx.
  destruct (uuid (u32 w)) as [t|] eqn:Et; [|done]. cbn in Hx. injection Hx as <-. destruct (Huuid _ _ Et) as [Hu Hb].
  intros fl p Hm Hfl. destruct fl as [|fl]; [cbn in Hfl; lia|]. cbn [app] in Hm. rewrite (rflag_at _ p _ _ _ _ Hm). destruct Hm as (_ & H1 & H2 & _).
  eexists. split; [|apply (text_prints o c 112 (Local t) t (o_prec o) agree_for Ho eq_refl); [by exists []; rewrite app_nil_r|exact Hb|done]].
  assert (Hsw : reswitch (S fl) ext u2s count 112 (p + 1) (VWord w :: ap) (dir_of c (o_width o) (o_prec o) (o_sign o)) =
    (c1 <- (if ext then ld (p + 1) else ret 0);;
     c' <- (if ext && (c1 =? 85) then ld (p + 1 + 1) else ret 0);;
     if ext && (c1 =? 85) && (c' =? 108) then
       text <- u2s (u32 w);; ret (Field (mk_field (dir_of c (o_width o) (o_prec o) 0) 0 112 (Local text) (Z.of_nat (length text))), p + 1 + 2, ap)
     else f <- nosign (or_flags HEXPREFIX (dir_of c (o_width o) (o_prec o) (o_sign o))) 120 HEX hexdigits (u32 w);; ret (Field f, p + 1, ap)))
    by reflexivity.
  rewrite Hsw, Hext. rewrite (bind_run _ _ _ _ _ (ld_rest out _ _ H1)). cbn [Z.eqb Pos.eqb andb].
  rewrite (bind_run _ _ _ _ _ (ld_rest out _ _ H2)). cbn [Z.eqb Pos.eqb andb]. rewrite (bind_run _ _ _ _ _ Hu).
  unfold ret. do 3 f_equal. cbn. lia.
Qed.
Lemma percent_scans rest ap : scans [37] rest ap (dir_of c (o_width o) (o_prec o) (o_sign o)) ap (text_layout o [37]).
Proof.
  apply scans_char. intros fl fmt. eexists. split; [reflexivity|].
  apply (text_prints o c 37 (Local [37]) [37] (o_prec o) agree_for Ho eq_refl); [by exists []| |done]. by constructor.
Qed.

Definition conv_ok (rest : list Z) : Prop := (s_conv d = Cuuid -> ext = true) /\ (s_conv d = Cp -> ext = true -> ul_free rest = true).
Lemma arg_scans a rest ap x : s_conv d <> Cpercent -> render_arg m0 uuid d o a = Some x -> len x < 2 ^ 31 -> conv_ok rest ->
  scans (conv_text (s_conv d)) rest (a :: ap) (dir_of c (o_width o) (o_prec o) (o_sign o)) ap x.
Proof.
  intros Hk Hx Hlen [Hok1 Hok2]. unfold render_arg in Hx. destruct (s_conv d); cbn [conv_text].
  - by apply (signed_scans 100 a); [left|].
  - by apply (signed_scans 105 a); [right|].
  - by apply (unsigned_scans 117 DEC a); [left|].
  - apply (unsigned_scans 111 OCT a); [by right|]. rewrite <- Hx. destruct (arg_bits (s_len d) a) as [z|]; [|done]. cbn. by rewrite number_is_oct.
  - by apply (hex_scans 120 false a).
  - by apply (hex_scans 88 true a).
  - by apply (char_scans a).
  - by apply (string_scans a).
  - apply (pointer_scans a); [by apply Hok2|done].
  - apply (uuid_scans a); [by apply Hok1|done].
  - done.
Qed.
End conversion.

Lemma options_of_ok d ap o ap' : dir_ok d -> options_of d ap = Some (o, ap') -> options_ok o.
Proof.
  intros [Hw Hp] Ho. unfold options_of in Ho.
  assert (Hsign : is_byte (sign_of (s_flags d))) by (unfold sign_of; destruct (has_flag FPlus (s_flags d)); [done|]; by destruct (has_flag FSpace (s_flags d))).
  destruct (match s_width d with NoWidth => _ | _ => _ end) as [[w ap1]|]; [|done]. cbn [mbind option_bind] in Ho.
  destruct (match s_prec d with NoPrec => _ | _ => _ end) as [[p ap2]|] eqn:Ep; [|done]. cbn in Ho. injection Ho as <- <-.
  split_and!; cbn [o_width o_prec o_sign]; [lia| |done].
  destruct (s_prec d); cbn in Ep; [injection Ep as <- _; done|injection Ep as <- _; cbn; lia|injection Ep as <- _; done|].
  destruct ap1 as [|[w1|] ap1]; cbn in Ep; try done. injection Ep as <- _. destruct (Z.ltb_spec (i32 w1) 0); [done|cbn; lia].
Qed.
Lemma dir_scans uuid (Huuid : forall p t, uuid p = Some t -> u2s p mem = Ret t mem /\ Forall is_byte t) d ap x ap' x0 rest fl p :
  dir_ok d -> render_dir m0 uuid d ap = Some (x, ap') -> len x < 2 ^ 31 -> conv_ok d (x0 :: rest) ->
  at_mem m0 p (dir_text d ++ x0 :: rest) -> (length (dir_text d ++ x0 :: rest) <= fl)%nat ->
  exists f, rflag fl p ap (mk_dir 0 0 (-1) 0) mem = Ret (Field f, p + len (dir_text d), ap') mem /\ prints f x.
Proof.
  intros Hd Hx Hlen Hc. assert (Htext : dir_text d = dir_front d ++ conv_text (s_conv d)) by (unfold dir_text, dir_front; by rewrite <- !app_assoc).
  rewrite Htext, <- app_assoc. intros Hm Hfl. unfold render_dir in Hx. destruct (options_of d ap) as [[o ap1]|] eqn:Ho; [|done]. cbn [mbind option_bind] in Hx.
  pose proof (options_of_ok d ap o ap1 Hd Ho) as Hok.
  destruct (front_passes d ap o ap1 x0 rest Hd Ho fl p Hm Hfl) as (fl' & Hf' & Hr). rewrite Hr. apply at_mem_app in Hm as [_ Hm].
  rewrite length_app, Nat2Z.inj_add, Z.add_assoc.
  destruct (decide (s_conv d = Cpercent)) as [E|E].
  - rewrite E in *. injection Hx as <- <-. by apply (percent_scans d o Hok (x0 :: rest) ap1).
  - assert (Harg : exists a ap2, ap1 = a :: ap2 /\ render_arg m0 uuid d o a = Some x /\ ap' = ap2).
    { destruct ap1 as [|a ap2]; [by destruct (s_conv d)|]. exists a, ap2. destruct (render_arg m0 uuid d o a) as [t|]; [|by destruct (s_conv d)].
      destruct (s_conv d); cbn in Hx; by inversion Hx. }
    destruct Harg as (a & ap2 & -> & Ha & ->). by apply (arg_scans uuid Huuid d o Hok a (x0 :: rest) ap2 x E Ha Hlen Hc).
Qed.
End scan.

(** ** The whole format *)

Section whole.
Context {build : StrBuild} (ext : bool) (u2s : Z -> M bmem (list Z)) (uuid : Z -> option (list Z)).
Hypothesis Huuid : forall out, Forall is_byte out -> forall p t, uuid p = Some t -> u2s p (after out) = Ret t (after out) /\ Forall is_byte t.

Fixpoint pieces_ok (l : list piece) : Prop :=
  match l with
  | [] => True
  | Lit c :: l => 0 < c < 256 /\ c <> 37 /\ pieces_ok l
  | Dir d :: l => dir_ok d /\ conv_ok ext d (format_text l ++ [0]) /\ pieces_ok l
  end.

Lemma loop_run l : forall ap out count fl p x ap', at_mem m0 p (format_text l ++ [0]) -> (length (format_text l ++ [0%Z]) <= fl)%nat ->
  pieces_ok l -> render m0 uuid l ap = Some (x, ap') -> Forall is_byte out -> 0 <= count -> count + len x < 2 ^ 31 ->
  kprintf_loop fl ext u2s tailp p ap count (next out) (after out) = Ret (count + len x) (after (out ++ x)) /\ Forall is_byte x.
Proof.
  induction l as [|y l IH]; intros ap out count fl p x ap' Hm Hfl Hok Hx Ho Hc Hlen; (destruct fl as [|fl]; [rewrite length_app in Hfl; cbn in Hfl; lia|]); cbn [kprintf_loop].
  - cbn in Hm, Hx. injection Hx as <- <-. rewrite (bind_run _ _ _ _ _ (ld_rest out p 0 (proj1 Hm))). cbn. rewrite app_nil_r, Z.add_0_r. done.
  - unfold format_text in Hm, Hfl. cbn [map concat] in Hm, Hfl. fold (format_text l) in Hm, Hfl. rewrite <- app_assoc in Hm, Hfl.
    destruct y as [c|d]; cbn [piece_text app] in Hm, Hfl; cbn [render pieces_ok] in Hx, Hok.
    + destruct Hok as (Hc1 & Hc2 & Hok). destruct Hm as [H1 Hm]. destruct (render m0 uuid l ap) as [[t ap1]|] eqn:Et; [|done]. cbn in Hx. injection Hx as <- <-.
      rewrite (bind_run _ _ _ _ _ (ld_rest out p c H1)), (proj2 (Z.eqb_neq c 0)), (proj2 (Z.eqb_neq c 37)) by lia. cbn [negb].
      cbn [length] in Hlen, Hfl. rewrite (bind_run _ _ _ _ _ (int_result_run (count + 1) _ ltac:(lia))).
      assert (Hcb : is_byte c) by (unfold is_byte; lia). rewrite (bind_run _ _ _ _ _ (putchar_run c out Hcb)).
      destruct (IH ap (out ++ [c]) (count + 1) fl (p + 1) t ap1 Hm ltac:(lia) Hok Et) as [Hr Hb]; [by apply Forall_app; split; [|constructor]|lia|lia|].
      rewrite Hr, <- app_assoc. split; [|by constructor]. cbn [length app]. f_equal. lia.
    + destruct Hok as (Hd & Hk & Hok). destruct Hm as [H1 Hm].
      destruct (render_dir m0 uuid d ap) as [[t1 ap1]|] eqn:E1; [|done]. cbn [mbind option_bind] in Hx.
      destruct (render m0 uuid l ap1) as [[t2 ap2]|] eqn:E2; [|done]. cbn in Hx. injection Hx as <- <-. rewrite length_app in Hlen. cbn [length] in Hfl.
      rewrite (bind_run _ _ _ _ _ (ld_rest out p 37 H1)). cbn [Z.eqb Pos.eqb negb].
      destruct (format_text l ++ [0]) as [|x0 rest] eqn:Ef; [by apply app_eq_nil in Ef as [_ ?]|].
      destruct (dir_scans ext u2s count out Ho uuid (Huuid out Ho) d ap t1 ap1 x0 rest fl (p + 1) Hd E1 ltac:(lia) Hk Hm ltac:(lia)) as (f & Hr & Hbt & Hpr).
      unfold rflag in Hr. rewrite <- bind_assoc, (bind_run _ _ _ _ _ Hr). cbn match.
      rewrite (bind_run _ _ _ _ _ (Hpr count Hc ltac:(lia))). apply at_mem_app in Hm as [_ Hm].
      rewrite length_app in Hfl.
      destruct (IH ap1 (out ++ t1) (count + len t1) fl (p + 1 + len (dir_text d)) t2 ap2) as [Hr2 Hb2];
        [exact Hm|cbn [length] in *; lia|done|done|by apply Forall_app|lia|lia|].
      rewrite Hr2, <- app_assoc. split; [|by apply Forall_app]. rewrite length_app. f_equal. lia.
Qed.
End whole.
End buffer.

(** What is in the buffer when [x] was printed: as much of it as there is room for,
    and the end of the string. *)
Definition cut (L x : list Z) : list Z := match L with [] => [] | _ => take (length L - 1) x ++ 0 :: drop (S (length x)) L end.
Lemma cut_filled L x : L <> [] -> <[Nat.min (length L - 1) (length x) := 0]> (filled L x) = cut L x.
Proof.
  intros HL. destruct L as [|l0 L0]; [done|]. set (L := l0 :: L0) in *. change (cut L x) with (take (length L - 1) x ++ 0 :: drop (S (length x)) L).
  unfold filled. assert (H1 : (0 < length L)%nat) by (cbn; lia). destruct (Nat.lt_ge_cases (length x) (length L)) as [Hl|Hl].
  - rewrite Nat.min_r by lia. rewrite !take_ge by lia. rewrite insert_app_r_alt, Nat.sub_diag by lia. f_equal.
    destruct (drop (length x) L) as [|y r] eqn:E; [apply (f_equal length) in E; rewrite length_drop in E; change (length (@nil Z)) with 0%nat in E; lia|].
    assert (E2 : drop (S (length x)) L = r) by (change (S (length x)) with (1 + length x)%nat; rewrite <- skipn_skipn; by rewrite E).
    by rewrite E2.
  - rewrite Nat.min_l by lia. rewrite !drop_ge by lia. rewrite app_nil_r.
    destruct (lookup_lt_is_Some_2 x (length L - 1)) as [b Hb]; [lia|].
    replace (length L) with (S (length L - 1)) at 2 by lia. rewrite (take_S_r _ _ b Hb).
    rewrite insert_app_r_alt by (rewrite length_take; lia). rewrite length_take, Nat.min_l, Nat.sub_diag by lia. done.
Qed.

(** A buffer [L] of [size] bytes at [bf], or none, and a format elsewhere in memory. *)
Record formats (ext : bool) (bf size : Z) (L : list Z) (m0 : bmem) (fmt : Z) (l : list piece) : Prop := {
  fo_buf : bf = 0 /\ L = [] \/ 0 < bf /\ len L = size /\ bf + size < 2 ^ 32;
  fo_size : 0 <= size < 2 ^ 32;
  fo_sep : forall a, bf <= a < bf + len L -> m0 !! a = None;
  fo_bytes : bytes_ok (put_bytes bf L m0);
  fo_words : word_closed (put_bytes bf L m0);
  fo_text : at_mem m0 fmt (format_text l ++ [0]);
  fo_pieces : pieces_ok ext l }.

Lemma vsnprintf_run {build : StrBuild} ext u2s uuid bf size L m0 fmt l ap x rest : formats ext bf size L m0 fmt l ->
  (forall out, Forall is_byte out -> forall p t, uuid p = Some t -> u2s p (after bf L m0 out) = Ret t (after bf L m0 out) /\ Forall is_byte t) ->
  render m0 uuid l ap = Some (x, rest) -> len x < 2 ^ 31 ->
  vsnprintf_with u2s bf size fmt ap ext (put_bytes bf L m0) = Ret (len x) (put_bytes bf (cut L x) m0) /\ Forall is_byte x.
Proof.
  intros [Hbuf Hsize Hsep Hb Hw Ht Hp] Hu Hx Hlen. unfold vsnprintf_with.
  assert (Hbf : bf = 0 /\ L = [] \/ 0 < bf) by (destruct Hbuf as [?|[? _]]; [by left|by right]).
  assert (Htail : bf <> 0 -> u32 (bf + size) = bf + len L).
  { intros Hne. destruct Hbuf as [[? _]|(H1 & H2 & H3)]; [lia|]. rewrite u32_small by (unfold is_u32; lia). lia. }
  assert (H0 : after bf L m0 [] = put_bytes bf L m0) by (unfold after, filled; cbn [length]; by rewrite take_nil, drop_0).
  assert (Hn0 : next bf L [] = bf) by (unfold next; destruct (Z.eqb_spec bf 0); cbn [length]; lia).
  assert (Hfl : (length (format_text l ++ [0%Z]) <= S (base.size (put_bytes bf L m0)))%nat).
  { pose proof (at_rest bf L m0 Hsep [] fmt _ Ht) as Ha. rewrite H0 in Ha. apply at_mem_size in Ha. lia. }
  destruct (loop_run bf (u32 (bf + size)) L m0 Hbf Htail Hsep Hb Hw ext u2s uuid Hu l ap [] 0 _ fmt x rest Ht Hfl Hp Hx) as [Hr Hbx]; [by constructor|lia|lia|].
  rewrite H0, Hn0 in Hr. cbn [app] in Hr.
  assert (Hk : kprintf u2s fmt (u32 (bf + size)) bf ap ext (put_bytes bf L m0) = Ret (len x) (after bf L m0 x)) by exact Hr.
  split; [|done]. rewrite (bind_run _ _ _ _ _ Hk). clear Hr Hk H0 Hn0. destruct Hbuf as [[-> ->]|(H1 & H2 & H3)].
  - cbn. unfold after, filled. by rewrite drop_nil, app_nil_r.
  - rewrite (proj2 (Z.eqb_neq bf 0)), (u32_small (len x)) by (unfold is_u32; lia). cbn [negb andb].
    destruct (Z.gtb_spec size 0) as [Hs|Hs]; cbn [when].
    2:{ destruct L; [|cbn in H2; lia]. cbn. unfold after, filled. by rewrite drop_nil, app_nil_r. }
    assert (HL : L <> []) by (intros ->; cbn in H2; lia).
    assert (Hst : (if size <=? len x then st (bf + size - 1) 0 else st (bf + len x) 0) (after bf L m0 x) = Ret tt (put_bytes bf (cut L x) m0)).
    { set (i := Nat.min (length L - 1) (length x)).
      assert (Hi : (if size <=? len x then st (bf + size - 1) 0 else st (bf + len x) 0) = st (bf + Z.of_nat i) 0)
        by (unfold i; destruct (Z.leb_spec size (len x)); f_equal; lia).
      rewrite Hi. assert (Hil : (i < length L)%nat) by (unfold i; lia).
      assert (Hsome : is_Some (after bf L m0 x !! (bf + Z.of_nat i))).
      { unfold after. rewrite put_bytes_lookup, filled_length. rewrite (proj2 (Z.leb_le _ _)), (proj2 (Z.ltb_lt _ _)) by lia. cbn [andb].
        apply lookup_lt_is_Some. rewrite filled_length. lia. }
      rewrite (st_run _ _ 0 Hsome ltac:(done)), <- cut_filled by done. fold i. f_equal. unfold after. apply map_eq. intros a.
      rewrite put_bytes_lookup, length_insert, filled_length. destruct (decide (a = bf + Z.of_nat i)) as [->|Hne].
      - rewrite lookup_insert_eq, (proj2 (Z.leb_le _ _)), (proj2 (Z.ltb_lt _ _)) by lia. cbn [andb].
        replace (Z.to_nat (bf + Z.of_nat i - bf)) with i by lia. by rewrite list_lookup_insert_eq by (rewrite filled_length; lia).
      - rewrite lookup_insert_ne, put_bytes_lookup, filled_length by done. destruct (Z.leb_spec bf a), (Z.ltb_spec a (bf + len L)); cbn [andb]; try done.
        rewrite list_lookup_insert_ne by lia. done. }
    by rewrite (bind_run _ _ _ _ _ Hst).
Qed.

(** ** UUIDs *)

(** [n] hexadecimal digits. *)
Definition hex_fixed (n z : Z) : list Z := with_digits (Some n) (number_text 16 false z).
Definition uuid_values (l : list Z) : list Z :=
  let b i := nth i l 0 in
  [word (b 0%nat) (b 1%nat) (b 2%nat) (b 3%nat); b 4%nat + 256 * b 5%nat; b 6%nat + 256 * b 7%nat] ++ map b (seq 8 8).
(** 8-4-4-4-12 digits. *)
Definition uuid_text (l : list Z) : list Z :=
  let v i := nth i (uuid_values l) 0 in
  hex_fixed 8 (v 0%nat) ++ [45] ++ hex_fixed 4 (v 1%nat) ++ [45] ++ hex_fixed 4 (v 2%nat) ++ [45] ++
  concat (map (fun i => hex_fixed 2 (v i)) [3; 4]%nat) ++ [45] ++ concat (map (fun i => hex_fixed 2 (v i)) (seq 5 6)).
Definition uuid_at (m : bmem) (p : Z) : option (list Z) := uuid_text <$> bytes_at 16 m p.

Definition hex_dir (n : Z) : piece := Dir (mk_spec [FZero] (Width n) NoPrec LNone Cx).
Definition uuid_pieces : list piece :=
  [hex_dir 8; Lit 45; hex_dir 4; Lit 45; hex_dir 4; Lit 45; hex_dir 2; hex_dir 2; Lit 45] ++ map hex_dir (replicate 6 2).

Lemma word_closed_check m : bool_decide (map_Forall (fun a _ => Forall (fun j => is_Some (m !! (a / 4 * 4 + j))) [0; 1; 2; 3]) m) = true -> word_closed m.
Proof.
  intros H a [b Hb] j Hj. apply bool_decide_eq_true in H. specialize (H a b Hb). rewrite Forall_forall in H. apply H.
  apply list_elem_of_In. cbn [In]. lia.
Qed.
Lemma bytes_ok_check m : bool_decide (map_Forall (fun _ b => is_byte b) m) = true -> bytes_ok m.
Proof. by intros H%bool_decide_eq_true. Qed.

Lemma uuid_formats : formats true 0x2000 37 (replicate 37 0) uuid_rest 0x1000 uuid_pieces.
Proof.
  split.
  - right. split_and!; [lia|done|lia].
  - lia.
  - intros a Ha. rewrite length_replicate in Ha. unfold uuid_rest. rewrite !put_bytes_lookup.
    destruct (Z.leb_spec 0x1000 a), (Z.ltb_spec a (0x1000 + len (uuid_format ++ [0; 0; 0]))); cbn [andb]; try (cbn in *; lia);
      destruct (Z.leb_spec 0x2025 a), (Z.ltb_spec a (0x2025 + len [0; 0; 0])); cbn [andb]; try (cbn in *; lia); done.
  - apply bytes_ok_check. by vm_compute.
  - apply word_closed_check. by vm_compute.
  - assert (Ht : format_text uuid_pieces ++ [0] = uuid_format) by (vm_compute; reflexivity). rewrite Ht.
    unfold uuid_rest. assert (H : at_mem (put_bytes 0x1000 (uuid_format ++ [0; 0; 0]) (put_bytes 0x2025 [0; 0; 0] ∅)) 0x1000 (uuid_format ++ [0; 0; 0])).
    { vm_compute. by repeat split. }
    by apply at_mem_app in H as [? _].
  - cbn. unfold dir_ok, conv_ok. cbn. split_and!; (lia || done).
Qed.

Lemma digits_small b z : 1 < b -> 0 <= z < b -> digits b z = [z].
Proof. intros Hb Hz. unfold digits. change 64%nat with (S 63). cbn [digits_upto]. by rewrite (proj2 (Z.ltb_lt z b)) by lia. Qed.
Lemma hex_fixed_len n z : 0 < n -> 0 <= z < 16 ^ n -> len (hex_fixed n z) = n.
Proof.
  intros Hn Hz. unfold hex_fixed, with_digits. rewrite length_app, length_replicate. unfold number_text, digits. rewrite length_map.
  assert (Hl : (length (digits_upto 64 16 z) <= Z.to_nat n)%nat).
  { replace (Z.to_nat n) with (S (Z.to_nat (n - 1))) by lia. apply digits_length; [lia|]. by replace (Z.of_nat (S (Z.to_nat (n - 1)))) with n by lia. }
  lia.
Qed.
(** One directive of the format. *)
Lemma hex_dir_render m uuid n w ap : 0 < n -> is_u32 w -> render_dir m uuid (mk_spec [FZero] (Width n) NoPrec LNone Cx) (VWord w :: ap) = Some (hex_fixed n w, ap).
Proof.
  intros Hn Hw. unfold render_dir, options_of. cbn [s_width s_prec s_flags s_conv mbind option_bind].
  change (has_flag FMinus [FZero]) with false. change (has_flag FZero [FZero]) with true. change (has_flag FAlt [FZero]) with false.
  unfold render_arg. cbn [s_conv s_len o_alt andb arg_bits wide mbind option_bind].
  rewrite u32_small by done. unfold hex_fixed, with_digits, int_layout, layout, number_body, no_digits.
  cbn [o_prec o_minus o_zero o_width orb]. rewrite (proj2 (Z.ltb_ge n 0)), Z.abs_eq by lia. rewrite (bool_decide_eq_false_2 (None = Some 0)) by done.
  rewrite andb_false_r, (bool_decide_eq_true_2 (None = None)) by done. cbn [orb andb app].
  unfold with_digits. replace (n - len (@nil Z) - len (number_text 16 false w)) with (n - len (number_text 16 false w)) by (cbn [length]; lia). done.
Qed.

Lemma render_hex m uuid n w l ap t ap' : 0 < n -> is_u32 w -> render m uuid l ap = Some (t, ap') ->
  render m uuid (hex_dir n :: l) (VWord w :: ap) = Some (hex_fixed n w ++ t, ap').
Proof. intros Hn Hw Ht. unfold hex_dir. cbn [render]. rewrite hex_dir_render by done. cbn [mbind option_bind]. by rewrite Ht. Qed.
Lemma render_lit m uuid c l ap t ap' : render m uuid l ap = Some (t, ap') -> render m uuid (Lit c :: l) ap = Some (c :: t, ap').
Proof. intros Ht. cbn [render]. by rewrite Ht. Qed.
Lemma byte_u32 b : is_byte b -> is_u32 b.
Proof. unfold is_byte, is_u32. lia. Qed.

Definition uuid_widths : list Z := [8; 4; 4; 2; 2; 2; 2; 2; 2; 2; 2].
Lemma uuid_values_fit l : length l = 16%nat -> Forall is_byte l -> Forall2 (fun n v => 0 <= v < 16 ^ n) uuid_widths (uuid_values l).
Proof.
  intros Hl Hb. do 16 (destruct l as [|? l]; [done|]). destruct l; [|done]. repeat (apply Forall_cons in Hb as [? Hb]).
  unfold uuid_values, uuid_widths, word, is_byte in *. cbn [nth seq map app]. repeat constructor; lia.
Qed.
Lemma uuid_render m uuid l vs : Forall2 (fun n v => 0 <= v < 16 ^ n) uuid_widths vs -> uuid_values l = vs ->
  render m uuid uuid_pieces (map VWord vs) = Some (uuid_text l, []) /\ len (uuid_text l) = 36 /\ Forall is_byte (uuid_text l).
Proof.
  intros Hv Hl. unfold uuid_text, uuid_pieces. rewrite Hl. unfold uuid_widths in Hv.
  repeat (apply Forall2_cons_inv_l in Hv as (? & ? & ? & Hv & ->)). apply Forall2_nil_inv_l in Hv as ->.
  cbn [map nth seq concat app replicate]. rewrite <- !app_assoc. cbn [app]. rewrite ?app_nil_r. split_and!.
  - repeat (first [apply render_hex; [lia|unfold is_u32; lia|] | apply render_lit]). rewrite <- (app_nil_r (hex_fixed 2 _)).
    by apply render_hex; [lia|unfold is_u32; lia|].
  - repeat (rewrite ?length_app; cbn [length]). rewrite !Nat2Z.inj_add, !Nat2Z.inj_succ, !Nat2Z.inj_add, !Nat2Z.inj_succ, !Nat2Z.inj_add, !Nat2Z.inj_succ, !Nat2Z.inj_add, !Nat2Z.inj_succ.
    rewrite !Nat2Z.inj_add. rewrite !hex_fixed_len by lia. lia.
  - assert (Hx : forall n z, 0 <= z -> Forall is_byte (hex_fixed n z)).
    { intros n z Hz. unfold hex_fixed, with_digits. apply Forall_app. split; [by apply Forall_replicate|apply number_text_byte; lia]. }
    repeat (first [apply Forall_app; split; [apply Hx; lia|] | constructor; [done|] | apply Hx; lia]).
Qed.

Lemma read_back bf L x m : len x <= len L - 1 ->
  map (fun i => default 0 (put_bytes bf (cut L x) m !! (bf + i))) (seqZ 0 (len x)) = x.
Proof.
  intros Hx. destruct L as [|l0 L0]; [cbn in Hx; lia|]. set (L := l0 :: L0) in *. change (cut L x) with (take (length L - 1) x ++ 0 :: drop (S (length x)) L).
  rewrite take_ge by lia. apply list_eq. intros i. rewrite list_lookup_fmap. destruct (Nat.lt_ge_cases i (length x)) as [Hi|Hi].
  - rewrite lookup_seqZ_lt by lia. cbn [fmap option_fmap option_map]. rewrite put_bytes_lookup, length_app. cbn [length].
    rewrite (proj2 (Z.leb_le _ _)), (proj2 (Z.ltb_lt _ _)) by lia. cbn [andb]. replace (Z.to_nat (bf + (0 + Z.of_nat i) - bf)) with i by lia.
    rewrite lookup_app_l by done. destruct (lookup_lt_is_Some_2 x i Hi) as [b Hb]. by rewrite Hb.
  - rewrite lookup_seqZ_ge by lia. symmetry. apply lookup_ge_None. lia.
Qed.
(** [uuid2str] as a function of the sixteen bytes. *)
Definition uuid_result {build : StrBuild} (l : list Z) (m : bmem) : outcome bmem (list Z) :=
  match vsnprintf_with (fun _ => fault) 0x2000 KPRINTF_BUFSIZE 0x1000 (map VWord (uuid_values l)) true uuid_frame with
  | Ret size m' => Ret (map (fun i => default 0 (m' !! (0x2000 + i))) (seqZ 0 size)) m
  | Panic => Panic | Fault => Fault | Spin => Spin
  end.
Lemma ldh_run m a x y l : at_mem m a (x :: y :: l) -> ldh a m = Ret (x + 256 * y) m.
Proof. intros (H1 & H2 & _). unfold ldh. by rewrite (bind_run _ _ _ _ _ (ld_run _ _ _ H1)), (bind_run _ _ _ _ _ (ld_run _ _ _ H2)). Qed.
Lemma uuid2str_bytes {build : StrBuild} m p l : at_mem m p l -> length l = 16%nat -> uuid2str p m = uuid_result l m.
Proof.
  intros Hm Hl. assert (Hat : forall i k, (i + k = 16)%nat -> at_mem m (p + Z.of_nat i) (drop i l)).
  { intros i k Hik. rewrite <- (take_drop i l) in Hm. apply at_mem_app in Hm as [_ Hm]. by rewrite length_take, Nat.min_l in Hm by lia. }
  unfold uuid_result. set (r := vsnprintf_with (fun _ => fault) 0x2000 KPRINTF_BUFSIZE 0x1000). do 16 (destruct l as [|? l]; [discriminate Hl|]). destruct l; [|discriminate Hl].
  unfold uuid2str. rewrite (bind_run _ _ _ _ _ (ldw_run _ _ _ _ _ _ _ Hm)).
  rewrite (bind_run _ _ _ _ _ (ldh_run m _ _ _ _ (Hat 4%nat 12%nat eq_refl))), (bind_run _ _ _ _ _ (ldh_run m _ _ _ _ (Hat 6%nat 10%nat eq_refl))).
  assert (Hld : forall i k x y, (i + k = 16)%nat -> drop i [z; z0; z1; z2; z3; z4; z5; z6; z7; z8; z9; z10; z11; z12; z13; z14] = x :: y -> ld (p + Z.of_nat i) m = Ret x m).
  { intros i k x y Hik E. pose proof (Hat i k Hik) as H. rewrite E in H. exact (ld_run _ _ _ (proj1 H)). }
  rewrite (bind_run _ _ _ _ _ (Hld 8%nat 8%nat _ _ eq_refl eq_refl)), (bind_run _ _ _ _ _ (Hld 9%nat 7%nat _ _ eq_refl eq_refl)),
    (bind_run _ _ _ _ _ (Hld 10%nat 6%nat _ _ eq_refl eq_refl)), (bind_run _ _ _ _ _ (Hld 11%nat 5%nat _ _ eq_refl eq_refl)),
    (bind_run _ _ _ _ _ (Hld 12%nat 4%nat _ _ eq_refl eq_refl)), (bind_run _ _ _ _ _ (Hld 13%nat 3%nat _ _ eq_refl eq_refl)),
    (bind_run _ _ _ _ _ (Hld 14%nat 2%nat _ _ eq_refl eq_refl)), (bind_run _ _ _ _ _ (Hld 15%nat 1%nat _ _ eq_refl eq_refl)).
  fold r. unfold uuid_values. cbn [nth seq map app]. by destruct (r _ _ _).
Qed.
Lemma uuid2str_run {build : StrBuild} m p l : at_mem m p l -> length l = 16%nat -> Forall is_byte l ->
  uuid2str p m = Ret (uuid_text l) m /\ Forall is_byte (uuid_text l).
Proof.
  intros Hm Hl Hb. pose proof (uuid_values_fit l Hl Hb) as Hv.
  destruct (uuid_render uuid_rest (fun _ => None) l _ Hv eq_refl) as (Hx & Hlen & Hbt). split; [|done].
  rewrite (uuid2str_bytes m p l Hm Hl). unfold uuid_result, uuid_frame, KPRINTF_BUFSIZE.
  rewrite (proj1 (vsnprintf_run true (fun _ => fault) (fun _ => None) 0x2000 37 (replicate 37 0) uuid_rest 0x1000 uuid_pieces _ _ _ uuid_formats ltac:(done) Hx ltac:(lia))).
  rewrite read_back; [done|]. rewrite Hlen, length_replicate. lia.
Qed.

Section claims.
Context {build : StrBuild}.

Lemma vsnprintf_renders ext bf size L m0 fmt l ap x rest :
  formats ext bf size L m0 fmt l -> render m0 (uuid_at m0) l ap = Some (x, rest) -> len x < 2 ^ 31 ->
  __vsnprintf bf size fmt ap ext (put_bytes bf L m0) = Ret (len x) (put_bytes bf (cut L x) m0) /\ Forall is_byte x.
Proof.
  intros Hf Hx Hlen. refine (vsnprintf_run ext uuid2str (uuid_at m0) bf size L m0 fmt l ap x rest Hf _ Hx Hlen).
  destruct Hf as [Hbuf Hsize Hsep Hb Hw Ht Hp]. intros out Hout p t Hu. unfold uuid_at in Hu.
  destruct (bytes_at 16 m0 p) as [u|] eqn:Eu; [|done]. change (Some (uuid_text u) = Some t) in Hu. apply (inj Some) in Hu. subst t. destruct (bytes_at_mem _ _ _ _ Eu) as [Hm Hl].
  pose proof (at_rest bf L m0 Hsep out p u Hm) as Hm'. apply uuid2str_run; [done|done|].
  apply (at_mem_bytes (after bf L m0 out) p); [by apply after_bytes|done].
Qed.

(** C17: [__vsnprintf] prints what printf should.  For a format that is the text of
    a list of pieces (characters and directives with flags, widths, precisions,
    stars and lengths), arguments that fit, and a buffer apart from the format, it
    ends, returns the length of the reference text [x], and leaves in the buffer
    as much of [x] as there is room for and the end of the string; nothing else
    in memory changes, and without a buffer nothing does. *)
Theorem vsnprintf_prints ext bf size L m0 fmt l ap x rest :
  formats ext bf size L m0 fmt l -> render m0 (uuid_at m0) l ap = Some (x, rest) -> len x < 2 ^ 31 ->
  __vsnprintf bf size fmt ap ext (put_bytes bf L m0) = Ret (len x) (put_bytes bf (cut L x) m0).
Proof. intros Hf Hx Hlen. by apply (vsnprintf_renders ext bf size L m0 fmt l ap x rest). Qed.
End claims.

(** ** Memory that is only read *)

Section mono.
Context (m1 m2 : bmem) (Hm : m1 ⊆ m2).
Lemma bytes_at_mono n p l : bytes_at n m1 p = Some l -> bytes_at n m2 p = Some l.
Proof.
  revert p l. induction n as [|n IH]; intros p l; [done|]. cbn. destruct (m1 !! p) as [b|] eqn:E; [|done].
  rewrite (lookup_weaken _ _ _ _ E Hm). destruct (bytes_at n m1 (p + 1)) eqn:E2; [|done]. by rewrite (IH _ _ E2).
Qed.
Lemma string_at_mono n n' p l : string_at n m1 p = Some l -> (n <= n')%nat -> string_at n' m2 p = Some l.
Proof.
  revert n' p l. induction n as [|n IH]; intros n' p l H Hn; [done|]. destruct n' as [|n']; [lia|]. cbn in *.
  destruct (m1 !! p) as [b|] eqn:E; [|done]. rewrite (lookup_weaken _ _ _ _ E Hm). destruct (b =? 0); [done|].
  destruct (string_at n m1 (p + 1)) eqn:E2; [|done]. by rewrite (IH _ _ _ E2) by lia.
Qed.
Lemma text_at_mono prec p l : text_at m1 prec p = Some l -> text_at m2 prec p = Some l.
Proof.
  unfold text_at. destruct (p =? 0); [done|]. destruct prec as [n|].
  - destruct (bytes_at _ m1 p) eqn:E; [|done]. by rewrite (bytes_at_mono _ _ _ E).
  - intros H. eapply string_at_mono; [exact H|]. apply le_n_S. by apply map_subseteq_size.
Qed.
Lemma uuid_at_mono p l : uuid_at m1 p = Some l -> uuid_at m2 p = Some l.
Proof. unfold uuid_at. destruct (bytes_at 16 m1 p) eqn:E; [|done]. by rewrite (bytes_at_mono _ _ _ E). Qed.
Lemma render_arg_mono d o a x : render_arg m1 (uuid_at m1) d o a = Some x -> render_arg m2 (uuid_at m2) d o a = Some x.
Proof.
  unfold render_arg. destruct (s_conv d); try done; destruct (arg_bits LNone a) as [p|]; try done; cbn [mbind option_bind].
  - destruct (text_at m1 (o_prec o) p) eqn:E; [|done]. by rewrite (text_at_mono _ _ _ E).
  - destruct (uuid_at m1 p) eqn:E; [|done]. by rewrite (uuid_at_mono _ _ E).
Qed.
Lemma render_dir_mono d ap x : render_dir m1 (uuid_at m1) d ap = Some x -> render_dir m2 (uuid_at m2) d ap = Some x.
Proof.
  unfold render_dir. destruct (options_of d ap) as [[o ap']|]; [|done]. cbn [mbind option_bind].
  destruct (s_conv d); try done; destruct ap' as [|a ap']; try done;
    (destruct (render_arg m1 _ d o a) eqn:E; [|done]; by rewrite (render_arg_mono _ _ _ _ E)).
Qed.
Lemma render_mono l ap x : render m1 (uuid_at m1) l ap = Some x -> render m2 (uuid_at m2) l ap = Some x.
Proof.
  revert ap x. induction l as [|[c|d] l IH]; intros ap x; [done|..]; cbn [render].
  - destruct (render m1 _ l ap) as [r|] eqn:E; [|done]. by rewrite (IH _ _ E).
  - destruct (render_dir m1 _ d ap) as [[y ap']|] eqn:E; [|done]. rewrite (render_dir_mono _ _ _ E). cbn [mbind option_bind].
    destruct (render m1 _ l ap') as [r|] eqn:E2; [|done]. by rewrite (IH _ _ E2).
Qed.
End mono.

(** A line of a trace: a padded decimal, a string cut off by its precision, a
    negative number and the end of the buffer. *)
Definition demo_pieces : list piece :=
  [Dir (mk_spec [FZero] (Width 4) NoPrec LNone Cd); Lit 32; Dir (mk_spec [FMinus] (Width 5) (Prec 2) LNone Cs); Lit 124;
   Dir (mk_spec [FAlt] StarWidth NoPrec Ll Cx); Lit 10].
Definition demo_text : list Z := chars "%04d %-5.2s|%#*lx" ++ [10; 0].
Definition demo_rest : bmem := put_bytes 0x100 (demo_text ++ [0]) (put_bytes 0x200 (chars "hello" ++ [0; 0; 0]) ∅).
Lemma demo_formats : formats true 0x300 16 (replicate 16 255) demo_rest 0x100 demo_pieces.
Proof.
  split.
  - right. split_and!; [lia|done|lia].
  - lia.
  - intros a Ha. rewrite length_replicate in Ha. unfold demo_rest. rewrite !put_bytes_lookup.
    rewrite !(proj2 (Z.ltb_ge a _)) by (cbn; lia). by rewrite !andb_false_r.
  - apply bytes_ok_check. by vm_compute.
  - apply word_closed_check. by vm_compute.
  - vm_compute. by repeat split.
  - cbn. unfold dir_ok, conv_ok. cbn. split_and!; (lia || done).
Qed.
Lemma vsnprintf_prints_witness :
  let m := put_bytes 0x300 (replicate 16 255) demo_rest in
  @__vsnprintf {| small_code := false |} 0x300 16 0x100 [VWord (2 ^ 32 - 7); VWord 0x200; VWord 8; VWord 0xbeef] true m =
    Ret 20 (put_bytes 0x300 (chars "-007 he   |  0x" ++ [0]) demo_rest).
Proof.
  intros m. refine (@vsnprintf_prints {| small_code := false |} true 0x300 16 (replicate 16 255) demo_rest 0x100 demo_pieces
    [VWord (2 ^ 32 - 7); VWord 0x200; VWord 8; VWord 0xbeef] (chars "-007 he   |  0xbeef" ++ [10]) [] demo_formats _ _).
  - vm_compute. reflexivity.
  - vm_compute. reflexivity.
Defined.
