(* ===== verification/Console.v ===== *)
(** * The console and the trace (core/kernel/console.c, core/drivers/imx_uart.c,
      core/arch/arm/kernel/trace_ext.c, lib/libutils/ext/trace.c, core/kernel/dt.c)

    A trace is formatted in a buffer, and its characters go one by one to the
    serial chip that is registered as the console.  The chips are behind an
    interface ([SerialOps]), of which the UART of the i.MX6 is the instance.  The
    routines that mask exceptions and take locks run on the state of the threads. *)

From stdpp Require Import prelude gmap list strings.
From Stdlib Require Import ZArith Lia.
From S2P Require Import Prelude Platform State CoreMmu Fdt DtProbe Thread Newlib Printk.
#[local] Open Scope Z_scope.
#[local] Open Scope kernel_scope.

(** ** State *)

(** A pointer to a [struct serial_chip] is the index of the [struct
    imx_uart_data] that contains it; main.c has one of these, [console_data]. *)
Definition serial_chip : Type := nat.
Definition console_data : serial_chip := 0%nat.
Record io_pa_va := mk_pa_va { io_pa : Z; io_va : Z }.

Record console (P : Type) := mk_console {
  con_kernel : kernel P;
  serial_console : option serial_chip;
  uarts : list io_pa_va;
  puts_lock : Z;
  trace_level : Z;
  con_mem : bmem;
}.
Arguments mk_console {P} _ _ _ _ _ _.
Arguments con_kernel {P} _.
Arguments serial_console {P} _.
Arguments uarts {P} _.
Arguments puts_lock {P} _.
Arguments trace_level {P} _.
Arguments con_mem {P} _.
Definition set_con_kernel {P} (v : kernel P) (s : console P) := mk_console v (serial_console s) (uarts s) (puts_lock s) (trace_level s) (con_mem s).
Definition set_serial_console {P} (v : option serial_chip) (s : console P) := mk_console (con_kernel s) v (uarts s) (puts_lock s) (trace_level s) (con_mem s).
Definition set_uarts {P} (v : list io_pa_va) (s : console P) := mk_console (con_kernel s) (serial_console s) v (puts_lock s) (trace_level s) (con_mem s).
Definition set_puts_lock {P} (v : Z) (s : console P) := mk_console (con_kernel s) (serial_console s) (uarts s) v (trace_level s) (con_mem s).
Definition set_trace_level {P} (v : Z) (s : console P) := mk_console (con_kernel s) (serial_console s) (uarts s) (puts_lock s) v (con_mem s).
Definition set_con_mem {P} (v : bmem) (s : console P) := mk_console (con_kernel s) (serial_console s) (uarts s) (puts_lock s) (trace_level s) v.

(** A routine on a part of the state. *)
Definition on_part {S T A} (get : S -> T) (put : T -> S -> S) (m : M T A) : M S A := fun s =>
  match m (get s) with
  | Ret a t => Ret a (put t s)
  | Panic => Panic
  | Fault => Fault
  | Spin => Spin
  end.
Definition in_kern {P A} (m : M (kernel P) A) : M (console P) A := on_part con_kernel set_con_kernel m.
Definition in_mem {P A} (m : M bmem A) : M (console P) A := on_part con_mem set_con_mem m.

(** [struct serial_ops]; [have_rx_data] is never set. *)
Class SerialOps (P : Type) := {
  ops_putc : serial_chip -> Z -> M (console P) unit;
  ops_flush : serial_chip -> M (console P) unit;
  ops_getchar : serial_chip -> M (console P) Z;
}.

(** ** drivers/serial.h and drivers/imx_uart.c *)

Definition URXD : Z := 0x0.
Definition UTXD : Z := 0x40.
Definition UTS : Z := 0xb4.
Definition URXD_RX_DATA : Z := 0xFF.
Definition UTS_TXEMPTY : Z := 0x40.
Definition UTS_RXEMPTY : Z := 0x20.

Section uart.
Context {P : Type} {plat : Platform P} {cfg : Config}.
(** Whether the MMU is on ([cpu_mmu_enabled]), and how often a status is read
    before waiting for it is given up as a spin. *)
Context (mmu_on : bool) (polls : nat).
#[local] Abbreviation K := (M (console P)).

Definition io_pa_or_va (i : serial_chip) : K Z :=
  p <- (us <- gets uarts;; aget us (Z.of_nat i));;
  massert (ret (truth (io_pa p)));;;
  if mmu_on then
    (if io_va p =? 0 then
       va <- in_kern (phys_to_virt_io (io_pa p));;
       us <- gets uarts;; us <- aset us (Z.of_nat i) (mk_pa_va (io_pa p) va);; modify (set_uarts us)
     else ret tt);;;
    p <- (us <- gets uarts;; aget us (Z.of_nat i));;
    massert (ret (truth (io_va p)));;; ret (io_va p)
  else ret (io_pa p).
Definition chip_to_base (chip : serial_chip) : K Z := io_pa_or_va chip.

(** [while (!(read32(a) & mask)) ;] and [while (read32(a) & mask) ;] *)
Fixpoint wait_set (n : nat) (a mask : Z) : K unit :=
  match n with
  | O => spin
  | S n => v <- in_kern (read32 a);; if truth (Z.land v mask) then ret tt else wait_set n a mask
  end.
Fixpoint wait_clear (n : nat) (a mask : Z) : K unit :=
  match n with
  | O => spin
  | S n => v <- in_kern (read32 a);; if truth (Z.land v mask) then wait_clear n a mask else ret tt
  end.

Definition imx_uart_flush (chip : serial_chip) : K unit :=
  base <- chip_to_base chip;; wait_set polls (base + UTS) UTS_TXEMPTY.
Definition imx_uart_getchar (chip : serial_chip) : K Z :=
  base <- chip_to_base chip;;
  wait_clear polls (base + UTS) UTS_RXEMPTY;;;
  v <- in_kern (read32 (base + URXD));; ret (Z.land v URXD_RX_DATA).
Definition imx_uart_putc (chip : serial_chip) (ch : Z) : K unit :=
  base <- chip_to_base chip;;
  in_kern (write32 ch (base + UTXD));;;
  wait_set polls (base + UTS) UTS_TXEMPTY.

#[export] Instance imx_uart_ops : SerialOps P := {
  ops_putc := imx_uart_putc; ops_flush := imx_uart_flush; ops_getchar := imx_uart_getchar }.
(** The operations are those of this chip already. *)
Definition imx_uart_init (pd : serial_chip) (base : Z) : K unit :=
  us <- gets uarts;; p <- aget us (Z.of_nat pd);;
  us <- aset us (Z.of_nat pd) (mk_pa_va base (io_va p));; modify (set_uarts us).
End uart.

(** ** kernel/console.c *)

Section console.
Context {P : Type} {plat : Platform P} {cfg : Config} {ops : SerialOps P}.
#[local] Abbreviation K := (M (console P)).

Definition console_putc (ch : Z) : K unit :=
  c <- gets serial_console;;
  match c with
  | None => ret tt
  | Some chip => when (ch =? 10) (ops_putc chip 13);;; ops_putc chip ch
  end.
Definition console_flush : K unit :=
  c <- gets serial_console;; match c with None => ret tt | Some chip => ops_flush chip end.
Definition register_serial_console (chip : option serial_chip) : K unit := modify (set_serial_console chip).

(** plat-imx/main.c *)
Definition console_init (CONSOLE_UART_BASE : Z) : K unit :=
  imx_uart_init console_data CONSOLE_UART_BASE;;; register_serial_console (Some console_data).

(** kernel/dt.c: no entry of a table is null, so the search for a driver does not
    end at the end of a table.  The entry there has no string, and what follows is
    no entry. *)
Fixpoint match_entries {A} (fdt : Z) (blob : list Z) (offs : Z) (table : list (string * A)) : M (kernel P) unit :=
  match table with
  | [] => fault
  | (compatible, _) :: table =>
      r <- fdt_node_check_compatible fdt blob offs (chars compatible);;
      if r =? 0 then ret tt else match_entries fdt blob offs table
  end.
Definition dt_find_compatible_driver (fdt : Z) (blob : list Z) (offs : Z) (drivers : list (dt_driver P)) : M (kernel P) (option (dt_driver P)) :=
  match drivers with
  | [] => ret None
  | drv :: _ => match_entries fdt blob offs (match_table drv);;; ret (Some drv)
  end.

(** fdt_ro.c: the pointer, or null. *)
Definition fdt_get_alias_namelen (fdt : Z) (blob : list Z) (n : nat) (name : list Z) : M (kernel P) Z :=
  aliasoffset <- fdt_path_offset fdt blob n (chars "/aliases");;
  if aliasoffset <? 0 then ret 0 else ' (p, _) <- fdt_getprop_namelen fdt blob aliasoffset name;; ret p.
Definition fdt_get_alias := fdt_get_alias_namelen.

(** [struct serial_driver]; results below zero are errors. *)
Record serial_driver := mk_serial_driver {
  dev_alloc : K (option serial_chip);
  dev_init : serial_chip -> Z -> Z -> option (list Z) -> K Z;
  dev_free : serial_chip -> K unit;
}.
(** [strchr(s, ':')]: what is before it and behind it. *)
Fixpoint until_colon (l : list Z) : list Z * option (list Z) :=
  match l with
  | [] => ([], None)
  | c :: l => if c =? 58 then ([], Some l) else let '(a, r) := until_colon l in (c :: a, r)
  end.

(** [driver_of] gives [dt_drv->driver]; [strdup] takes its memory from the heap, and
    the copy is a list here.  [n] bounds the aliases that are followed. *)
Definition configure_console_from_dt (driver_of : dt_driver P -> option serial_driver) (blob : list Z)
    (drivers : list (dt_driver P)) (n : nat) (phys_fdt : Z) : K unit :=
  if phys_fdt =? 0 then ret tt else
  fdt <- in_kern (phys_to_virt phys_fdt MEM_AREA_RAM_NSEC);;
  if fdt =? 0 then panic else
  offs <- in_kern (fdt_path_offset fdt blob n (chars "/secure-chosen"));;
  if offs <? 0 then ret tt else
  ' (prop, _) <- in_kern (fdt_get_property fdt blob offs (chars "stdout-path"));;
  if prop =? 0 then register_serial_console None else
  data <- in_kern (cstring fdt blob (prop + 12));;
  let size := Z.of_nat (length data) + 1 in
  ok <- in_kern (malloc size);;
  if negb (ok : bool) then ret tt else
  let '(name, parms) := until_colon data in
  alias <- in_kern (fdt_get_alias fdt blob n name);;
  uart <- (if alias =? 0 then ret name else in_kern (cstring fdt blob alias));;
  offs <- in_kern (fdt_path_offset fdt blob n uart);;
  (if offs <? 0 then ret tt else
   dt_drv <- in_kern (dt_find_compatible_driver fdt blob offs drivers);;
   match dt_drv ≫= driver_of with
   | None => ret tt
   | Some sdrv =>
       dev <- dev_alloc sdrv;;
       match dev with
       | None => ret tt
       | Some dev =>
           console_flush;;;
           r <- dev_init sdrv dev fdt offs parms;;
           if r <? 0 then dev_free sdrv dev else register_serial_console (Some dev)
       end
   end);;;
  in_kern (free size).
End console.

(** ** arch/arm/kernel/trace_ext.c *)

Section trace.
Context {P : Type} {plat : Platform P} {cfg : Config} {tcfg : ThreadConfig} {ops : SerialOps P} {build : StrBuild}.
Context (mmu_on : bool) (c : nat).
#[local] Abbreviation K := (M (tstate (console P))).

Definition put_con (k : console P) (s : tstate (console P)) : tstate (console P) :=
  mk_tstate (threads s) (core_locals s) (cores s) (thread_global_lock s) (handlers s) (stack_tmp s) (stack_abt s) (stack_thread s) k.
Definition in_con {A} (m : M (console P) A) : K A := on_part world put_con m.

(** What the other core does that holds the lock, until it opens it. *)
Context (until_unlocked : console P -> console P).

(** kernel/spinlock.h on [puts_lock]. *)
Definition puts_trylock : K bool :=
  massert (thread_foreign_intr_disabled c);;;
  v <- in_con (gets puts_lock);;
  if v =? SPINLOCK_UNLOCK then in_con (modify (set_puts_lock SPINLOCK_LOCK));;; spinlock_count_incr c;;; ret true
  else ret false.
Definition puts_lock_wait : K unit :=
  massert (thread_foreign_intr_disabled c);;;
  v <- in_con (gets puts_lock);;
  when (negb (v =? SPINLOCK_UNLOCK)) (in_con (modify until_unlocked));;;
  v <- in_con (gets puts_lock);;
  (if v =? SPINLOCK_UNLOCK then in_con (modify (set_puts_lock SPINLOCK_LOCK)) else spin);;;
  spinlock_count_incr c.
Definition puts_unlock : K unit :=
  massert (thread_foreign_intr_disabled c);;;
  in_con (modify (set_puts_lock SPINLOCK_UNLOCK));;;
  spinlock_count_decr c.

(** [for (p = str; *p; p++) console_putc( *p);] *)
Fixpoint puts_loop (n : nat) (p : Z) : M (console P) unit :=
  match n with
  | O => spin
  | S n => ch <- in_mem (ld p);; if ch =? 0 then ret tt else console_putc ch;;; puts_loop n (p + 1)
  end.
Definition trace_ext_puts (str : Z) : K unit :=
  itr_status <- thread_mask_exceptions c THREAD_EXCP_ALL;;
  was_contended <- (if mmu_on then
                      ok <- puts_trylock;; if (ok : bool) then ret false else puts_lock_wait;;; ret true
                    else ret false);;
  in_con console_flush;;;
  when was_contended (in_con (console_putc 42));;;
  in_con (n <- in_mem fuel;; puts_loop n str);;;
  in_con console_flush;;;
  when mmu_on puts_unlock;;;
  thread_unmask_exceptions c itr_status.
Definition trace_ext_get_thread_id : K Z := thread_get_id_may_fail c.

(** ** lib/libutils/ext/trace.c *)

Definition TRACE_MIN : Z := 1.
Definition TRACE_ERROR : Z := 1.
Definition TRACE_INFO : Z := 2.
Definition TRACE_DEBUG : Z := 3.
Definition TRACE_FLOW : Z := 4.
Definition TRACE_MAX : Z := 4.
Definition MAX_PRINT_SIZE : Z := 256.

Definition trace_set_level (level : Z) : K unit :=
  in_con (modify (set_trace_level (if (level >=? TRACE_MIN) && (level <=? TRACE_MAX) then level else TRACE_MAX))).
Definition trace_get_level : K Z := in_con (gets trace_level).
End trace.

(** Where the stack has the buffers and the linker placed the constants of
    [trace_printf] and [dhex_dump], and [CFG_MSG_LONG_PREFIX_THRESHOLD]. *)
Class TraceStatics := {
  buf_at : Z;
  lvl_strs_at : Z;
  message_at : Z;
  fmt_level_at : Z;
  fmt_id_at : Z;
  fmt_prefix_at : Z;
  fmt_func_at : Z;
  fmt_space_at : Z;
  trace_ext_prefix_at : Z;
  long_prefix_threshold : Z;
  sbuf_at : Z;
  fmt_addr_at : Z;
  fmt_byte_at : Z;
  fmt_gap_at : Z;
  fmt_str_at : Z;
  hex_error_at : Z;
  dhex_dump_at : Z;
}.

Section trace_printf.
Context {P : Type} {plat : Platform P} {cfg : Config} {tcfg : ThreadConfig} {ops : SerialOps P} {build : StrBuild}.
Context {statics : TraceStatics} (mmu_on : bool) (c : nat) (until_unlocked : console P -> console P).
#[local] Abbreviation K := (M (tstate (console P))).

(** [lvl_strs[l]], an array of strings of nine bytes. *)
Definition trace_level_to_string (level : Z) (level_ok : bool) : Z :=
  if negb level_ok then message_at
  else lvl_strs_at + 9 * (if (level >=? TRACE_MIN) && (level <=? TRACE_MAX) then level else 0).

(** [snprintk(buf + boffs, sizeof(buf) - boffs, fmt, ...)]; [None] is the return
    for a negative result. *)
Definition print_at (boffs fmt : Z) (args : list va) : K (option Z) :=
  res <- in_con (in_mem (snprintk (buf_at + boffs) (u32 (MAX_PRINT_SIZE - boffs)) fmt args));;
  if res <? 0 then ret None else ret (Some (u32 (boffs + res))).
Definition printing (boffs fmt : Z) (args : list va) (k : Z -> K unit) : K unit :=
  r <- print_at boffs fmt args;; match r with None => ret tt | Some boffs => k boffs end.

(** [while (boffs && buf[boffs] == '\n') boffs--;] *)
Fixpoint strip_newlines (n : nat) : M bmem Z :=
  match n with
  | O => ret 0
  | S n' => b <- ld (buf_at + Z.of_nat n);; if b =? 10 then strip_newlines n' else ret (Z.of_nat n)
  end.
Definition end_line (boffs : Z) : M bmem unit :=
  let boffs := if boffs >=? MAX_PRINT_SIZE - 1 then MAX_PRINT_SIZE - 2 else boffs in
  st (buf_at + boffs) 10;;;
  boffs <- strip_newlines (Z.to_nat boffs);;
  st (buf_at + (boffs + 1) + 1) 0.

Definition trace_printf (function line level : Z) (level_ok : bool) (fmt : Z) (ap : list va) : K unit :=
  tl <- in_con (gets trace_level);;
  if level_ok && (level >? tl) then ret tt else
  printing 0 fmt_level_at [VWord (trace_level_to_string level level_ok)] (fun boffs =>
  let short := level_ok && (level <? long_prefix_threshold) in
  thread_id <- (if short then ret (-1) else trace_ext_get_thread_id c);;
  let with_id k := if thread_id >=? 0 then printing boffs fmt_id_at [VWord thread_id] k else k boffs in
  with_id (fun boffs =>
  printing boffs fmt_prefix_at [VWord trace_ext_prefix_at] (fun boffs =>
  let function := if short then 0 else function in
  let with_func k := if negb (function =? 0) then printing boffs fmt_func_at [VWord function; VWord line] k else k boffs in
  with_func (fun boffs =>
  printing boffs fmt_space_at [] (fun boffs =>
  res <- in_con (in_mem (vsnprintk (buf_at + boffs) (u32 (MAX_PRINT_SIZE - boffs)) fmt ap));;
  let boffs := if res >? 0 then u32 (boffs + res) else boffs in
  in_con (in_mem (end_line boffs));;;
  trace_ext_puts mmu_on c until_unlocked buf_at))))).

(** A [struct strbuf] is at [sbuf_at]; its member [ptr] is passed around, 0 for
    null.  The result is what [append] returns and [ptr] after it. *)
Definition append (ptr fmt : Z) (args : list va) : K (bool * Z) :=
  let ptr := if ptr =? 0 then sbuf_at else ptr in
  let left := MAX_PRINT_SIZE - (ptr - sbuf_at) in
  len <- in_con (in_mem (vsnprintk ptr (u32 left) fmt args));;
  if len <? 0 then ret (false, ptr)
  else if len >=? left then ret (false, ptr)
  else ret (true, ptr + Z.min left len).

(** The loop of [dhex_dump]: whether it came to its end, and [sbuf.ptr] then. *)
Fixpoint dump_loop (n : nat) (function line level inp i ptr : Z) : K (bool * Z) :=
  match n with
  | O => ret (true, ptr)
  | S n =>
      ' (ok, ptr) <- (if i mod 16 =? 0 then append ptr fmt_addr_at [VWord 8; VWord (u32 (inp + i))] else ret (true, ptr));;
      if negb ok then ret (false, ptr) else
      b <- in_con (in_mem (ld (inp + i)));;
      ' (ok, ptr) <- append ptr fmt_byte_at [VWord b];;
      if negb ok then ret (false, ptr) else
      ' (ok, ptr) <- (if i mod 16 =? 7 then append ptr fmt_gap_at []
                      else if i mod 16 =? 15 then
                        trace_printf function line level true fmt_str_at [VWord sbuf_at];;; ret (true, 0)
                      else ret (true, ptr));;
      if negb ok then ret (false, ptr) else dump_loop n function line level inp (i + 1) ptr
  end.
Definition dhex_dump (function line level buf len : Z) : K unit :=
  tl <- in_con (gets trace_level);;
  if level <=? tl then
    ' (ok, ptr) <- dump_loop (Z.to_nat len) function line level buf 0 0;;
    if negb ok then trace_printf dhex_dump_at 238 TRACE_DEBUG true hex_error_at []
    else when (negb (ptr =? 0)) (trace_printf function line level true fmt_str_at [VWord sbuf_at])
  else ret tt.
End trace_printf.
