(* ===== verification/ConsoleSpec.v ===== *)
(** * What a trace puts on the wire

    [SerialPrints] is what the console asks of a serial chip: a character that is
    put is sent, and nothing but the chip changes.  The UART of the i.MX6 has it
    when its transmitter drains ([UartDevice]).  Against this interface, a string
    is printed with a carriage return before every newline, under the lock of the
    console and with the exceptions masked. *)

From stdpp Require Import prelude gmap list strings.
From Stdlib Require Import ZArith Lia.
From S2P Require Import Prelude Platform State CoreMmu Fdt Thread ThreadInv Newlib NewlibSpec Printk PrintkSpec Console.
#[local] Open Scope Z_scope.
#[local] Open Scope kernel_scope.

(** ** The interface *)

(** Only the devices and what is known of their addresses changed. *)
Definition chip_only {P} (k k' : console P) : Prop :=
  exists p us, k' = mk_console (set_k_plat p (con_kernel k)) (serial_console k) us (puts_lock k) (trace_level k) (con_mem k).
Lemma chip_only_refl {P} (k : console P) : chip_only k k.
Proof. exists (k_plat (con_kernel k)), (uarts k). by destruct k as [[] ? ? ? ? ?]. Qed.
Lemma chip_only_trans {P} (k1 k2 k3 : console P) : chip_only k1 k2 -> chip_only k2 k3 -> chip_only k1 k3.
Proof. intros (p & us & ->) (p' & us' & ->). exists p', us'. done. Qed.
#[global] Instance chip_only_preorder {P} : PreOrder (@chip_only P).
Proof. split; [exact chip_only_refl|exact chip_only_trans]. Qed.
Lemma chip_only_mem {P} (k k' : console P) : chip_only k k' -> con_mem k' = con_mem k /\ puts_lock k' = puts_lock k /\
  trace_level k' = trace_level k /\ serial_console k' = serial_console k.
Proof. by intros (p & us & ->). Qed.

(** [out k] is what was sent so far; [ok k] holds while the chip can be used. *)
Class SerialPrints (P : Type) {ops : SerialOps P} (ok : console P -> Prop) (out : console P -> list Z) : Prop := {
  putc_sends : forall chip ch k, ok k -> serial_console k = Some chip ->
    wp (ops_putc chip ch) k (fun _ k' => chip_only k k' /\ ok k' /\ out k' = out k ++ [u8 ch]);
  flush_waits : forall chip k, ok k -> serial_console k = Some chip ->
    wp (ops_flush chip) k (fun _ k' => chip_only k k' /\ ok k' /\ out k' = out k);
  ok_lock : forall v k, ok k -> ok (set_puts_lock v k);
  out_lock : forall v k, out (set_puts_lock v k) = out k;
  ok_mem : forall m k, ok k -> ok (set_con_mem m k);
  out_mem : forall m k, out (set_con_mem m k) = out k;
}.

(** ** The UART *)

Fixpoint polled {P} {plat : Platform P} (n : nat) (a : Z) (p : P) : P :=
  match n with O => p | S n => polled n a (io_read 4 (u32 a) p).2 end.
(** The documented behaviour that the driver relies on: a store to [UTXD] sends a
    byte, the transmit FIFO is empty after fewer than [polls] looks at [UTS], and
    looking sends nothing. *)
Class UartDevice (P : Type) {plat : Platform P} (base : Z) (polls : nat) := {
  sent : P -> list Z;
  sent_put : forall v p, sent (io_write 4 (u32 (base + UTXD)) v p) = sent p ++ [u8 v];
  sent_poll : forall p, sent (io_read 4 (u32 (base + UTS)) p).2 = sent p;
  drains : forall p, exists n, (n < polls)%nat /\
    truth (Z.land ((io_read 4 (u32 (base + UTS)) (polled n (base + UTS) p)).1 mod 2 ^ 32) UTS_TXEMPTY) = true;
}.

Section uart.
Context {P : Type} {plat : Platform P} {cfg : Config} (mmu_on : bool) (polls : nat) (base : Z) {dev : UartDevice P base polls}.
Context (chip : serial_chip).
Implicit Types k : console P.
Definition uart_sent k : list Z := sent (k_plat (con_kernel k)).
Definition put_plat (p : P) k : console P := set_con_kernel (set_k_plat p (con_kernel k)) k.

Lemma in_kern_read a k : in_kern (read32 a) k =
  let r := io_read 4 (u32 a) (k_plat (con_kernel k)) in Ret (r.1 mod 2 ^ 32) (put_plat r.2 k).
Proof.
  unfold in_kern, on_part, read32, io_load. change (get_platform (con_kernel k)) with (k_plat (con_kernel k)).
  by destruct (io_read 4 (u32 a) (k_plat (con_kernel k))).
Qed.
Lemma in_kern_write v a k : in_kern (write32 v a) k = Ret tt (put_plat (io_write 4 (u32 a) (v mod 2 ^ 32) (k_plat (con_kernel k))) k).
Proof. done. Qed.
Lemma put_plat_twice p q k : put_plat p (put_plat q k) = put_plat p k.
Proof. by destruct k as [[] ? ? ? ? ?]. Qed.

Lemma wait_run n m k : (n < m)%nat ->
  truth (Z.land ((io_read 4 (u32 (base + UTS)) (polled n (base + UTS) (k_plat (con_kernel k)))).1 mod 2 ^ 32) UTS_TXEMPTY) = true ->
  exists p, wait_set m (base + UTS) UTS_TXEMPTY k = Ret tt (put_plat p k) /\ sent p = uart_sent k.
Proof.
  revert m k. induction n as [|n IH]; intros m k Hm Ht; (destruct m as [|m]; [lia|]); cbn [wait_set polled] in *;
    rewrite (bind_run _ _ _ _ _ (in_kern_read _ k)); cbn zeta.
  - rewrite Ht. eexists. split; [reflexivity|]. exact (sent_poll (k_plat (con_kernel k))).
  - case_match; [eexists; split; [reflexivity|exact (sent_poll (k_plat (con_kernel k)))]|].
    destruct (IH m (put_plat (io_read 4 (u32 (base + UTS)) (k_plat (con_kernel k))).2 k)) as (p & Hr & Hs); [lia|exact Ht|].
    exists p. rewrite Hr, put_plat_twice. split; [done|]. rewrite Hs. exact (sent_poll (k_plat (con_kernel k))).
Qed.
Lemma drain_run k : exists p, wait_set polls (base + UTS) UTS_TXEMPTY k = Ret tt (put_plat p k) /\ sent p = uart_sent k.
Proof. destruct (drains (k_plat (con_kernel k))) as (n & Hn & Ht). by apply (wait_run n). Qed.

(** The driver knows the address [base] of the chip, or finds it in the memory map. *)
Definition located k : Prop := exists p, uarts k !! chip = Some p /\ io_pa p <> 0 /\ base <> 0 /\
  if mmu_on then io_va p = base \/ io_va p = 0 /\ phys_to_virt_io (io_pa p) (con_kernel k) = Ret base (con_kernel k) else io_pa p = base.
Definition known k : Prop := exists p, uarts k !! chip = Some p /\ io_pa p <> 0 /\ base <> 0 /\ (if mmu_on then io_va p else io_pa p) = base.
Lemma known_located k : known k -> located k.
Proof. intros (p & H1 & H2 & H3 & H4). exists p. split_and!; try done. destruct mmu_on; [by left|done]. Qed.
Lemma known_put_plat p k : known k -> known (put_plat p k).
Proof. done. Qed.
Lemma chip_to_base_run k : located k -> exists us, chip_to_base mmu_on chip k = Ret base (set_uarts us k) /\ known (set_uarts us k).
Proof.
  intros (p & Hp & Hpa & Hb & Hva). unfold chip_to_base, io_pa_or_va, known.
  assert (Hget : forall k, uarts k !! chip = Some p -> (us <- gets uarts;; aget us (Z.of_nat chip)) k = Ret p k)
    by (intros k' Hk; erewrite bind_run by reflexivity; by apply aget_lookup).
  rewrite (bind_run _ _ _ _ _ (Hget k Hp)).
  assert (Hm : truth (io_pa p) = true) by (unfold truth; by rewrite (proj2 (Z.eqb_neq _ _))).
  rewrite (bind_run _ _ _ _ _ (massert_run _ _ Hm)). destruct mmu_on.
  2:{ exists (uarts k). rewrite Hva. split; [by destruct k|]. exists p. by split_and!. }
  assert (Hbt : truth base = true) by (unfold truth; by rewrite (proj2 (Z.eqb_neq _ _))).
  destruct (Z.eqb_spec (io_va p) 0) as [E|E].
  - destruct Hva as [Hva|[_ Hva]]; [congruence|].
    assert (Hv : in_kern (phys_to_virt_io (io_pa p)) k = Ret base k) by (unfold in_kern, on_part; rewrite Hva; by destruct k).
    exists (<[chip := mk_pa_va (io_pa p) base]> (uarts k)). set (k' := set_uarts _ k).
    assert (Hl : (chip < length (uarts k))%nat) by (by eapply lookup_lt_Some).
    assert (Hset : (va <- in_kern (phys_to_virt_io (io_pa p));;
       us <- gets uarts;; us <- aset us (Z.of_nat chip) (mk_pa_va (io_pa p) va);; modify (set_uarts us)) k = Ret tt k').
    { rewrite (bind_run _ _ _ _ _ Hv). erewrite bind_run by reflexivity. by rewrite (bind_run _ _ _ _ _ (aset_insert _ _ _ _ Hl)). }
    rewrite (bind_run _ _ _ _ _ Hset).
    assert (Hk' : uarts k' !! chip = Some (mk_pa_va (io_pa p) base)) by (by apply list_lookup_insert_eq).
    assert (Hget' : (us <- gets uarts;; aget us (Z.of_nat chip)) k' = Ret (mk_pa_va (io_pa p) base) k')
      by (erewrite bind_run by reflexivity; apply aget_lookup, Hk').
    rewrite (bind_run _ _ _ _ _ Hget'), (bind_run _ _ _ _ _ (massert_run _ _ Hbt)). split; [done|]. exists (mk_pa_va (io_pa p) base). by split_and!.
  - destruct Hva as [Hva|[? _]]; [|done]. exists (uarts k). erewrite bind_run by reflexivity.
    rewrite (bind_run _ _ _ _ _ (Hget k Hp)), Hva, (bind_run _ _ _ _ _ (massert_run _ _ Hbt)). split; [by destruct k|]. exists p. by split_and!.
Qed.

(** The chip can be used: it is the console, and located. *)
Definition uart_ok k : Prop := (forall i, serial_console k = Some i -> i = chip) /\ located k.

#[export] Instance uart_prints : @SerialPrints P (imx_uart_ops mmu_on polls) uart_ok uart_sent.
Proof.
  split; try done; intros i; [intros ch|]; intros k [Hi Hk] Hc; pose proof (Hi i Hc); subst i;
    destruct (chip_to_base_run k Hk) as (us & Hr & Hkn); cbn [ops_putc ops_flush imx_uart_ops]; unfold imx_uart_putc, imx_uart_flush;
    apply wp_bind; (eapply wp_intro; [exact Hr|]).
  - apply wp_bind. eapply wp_intro; [apply in_kern_write|].
    set (k2 := put_plat _ _). destruct (drain_run k2) as (p & Hd & Hs). eapply wp_intro; [exact Hd|]. split_and!.
    + by exists p, us.
    + split; [|by apply known_located]. intros j Hj. change (serial_console k = Some j) in Hj. congruence.
    + unfold uart_sent at 1. cbn. rewrite Hs. unfold k2, uart_sent. cbn. rewrite sent_put. unfold u8. do 2 f_equal.
      apply Z.mod_mod_divide. by exists (2 ^ 24).
  - destruct (drain_run (set_uarts us k)) as (p & Hd & Hs). eapply wp_intro; [exact Hd|]. split_and!.
    + by exists p, us.
    + split; [|by apply known_located]. intros j Hj. change (serial_console k = Some j) in Hj. congruence.
    + unfold uart_sent at 1. cbn. by rewrite Hs.
Qed.
End uart.

(** ** Strings on the console *)

Definition crlf (l : list Z) : list Z := concat (map (fun c => if c =? 10 then [13; 10] else [c]) l).

Section puts.
Context {P : Type} {plat : Platform P} {cfg : Config} {ops : SerialOps P} (ok : console P -> Prop) (out : console P -> list Z) {sp : SerialPrints P ok out}.
Implicit Types k : console P.

(** What reaches the wire: nothing without a console. *)
Definition heard k (l : list Z) : list Z := match serial_console k with None => [] | Some _ => crlf l end.
Definition said k (l : list Z) k' : Prop := chip_only k k' /\ ok k' /\ out k' = out k ++ heard k l.
Lemma said_nil k : ok k -> said k [] k.
Proof. intros Hk. unfold said. split_and!; [done|done|]. unfold heard. by destruct (serial_console k); rewrite app_nil_r. Qed.
Lemma said_app k1 k2 k3 l1 l2 : said k1 l1 k2 -> said k2 l2 k3 -> said k1 (l1 ++ l2) k3.
Proof.
  intros (H1 & _ & O1) (H2 & Hok & O2). split_and!; [by etrans|done|]. rewrite O2, O1, <- app_assoc. f_equal.
  apply chip_only_mem in H1 as (_ & _ & _ & Hs). unfold heard, crlf. rewrite Hs. destruct (serial_console k1); [|done]. by rewrite map_app, concat_app.
Qed.
Lemma console_putc_run ch k : is_byte ch -> ok k -> wp (console_putc ch) k (fun _ k' => said k [ch] k').
Proof.
  intros Hb Hk. unfold console_putc. apply wp_bind, wp_gets. unfold said, heard. destruct (serial_console k) as [i|] eqn:Hc.
  2:{ apply wp_ret. split_and!; [done|done|]. by rewrite app_nil_r. }
  assert (Hu : u8 ch = ch) by (apply Z.mod_small; unfold is_byte in Hb; lia).
  apply wp_bind, wp_when. destruct (Z.eqb_spec ch 10) as [->|Hne].
  - eapply wp_mono; [|by apply (putc_sends i 13)]. intros _ k1 (H1 & Hk1 & O1).
    assert (Hc1 : serial_console k1 = Some i) by (apply chip_only_mem in H1 as (_ & _ & _ & ->); done).
    eapply wp_mono; [|by apply (putc_sends i 10)]. intros _ k2 (H2 & Hk2 & O2). split_and!; [by etrans|done|].
    rewrite O2, O1, <- app_assoc. done.
  - eapply wp_mono; [|by apply (putc_sends i ch)]. intros _ k1 (H1 & Hk1 & O1). split_and!; [done|done|].
    rewrite O1, Hu. unfold crlf. cbn. by rewrite (proj2 (Z.eqb_neq ch 10)).
Qed.
Lemma console_flush_run k : ok k -> wp console_flush k (fun _ k' => said k [] k').
Proof.
  intros Hk. unfold console_flush. apply wp_bind, wp_gets. destruct (serial_console k) as [i|] eqn:Hc.
  - eapply wp_mono; [|by apply (flush_waits i)]. intros _ k1 (H1 & Hk1 & O1). split_and!; [done|done|]. unfold heard. rewrite Hc. cbn. by rewrite app_nil_r.
  - apply wp_ret. by apply said_nil.
Qed.
Lemma in_mem_ld k p b : con_mem k !! p = Some b -> in_mem (ld p) k = Ret b k.
Proof. intros H. unfold in_mem, on_part. rewrite (ld_run _ _ _ H). by destruct k. Qed.
Lemma puts_loop_run l n p k : cstr (con_mem k) p l -> Forall is_byte l -> (length l < n)%nat -> ok k ->
  wp (puts_loop n p) k (fun _ k' => said k l k').
Proof.
  revert n p k. induction l as [|b l IH]; intros n p k [Hm Hnz] Hb Hn Hk; (destruct n as [|n]; [cbn in Hn; lia|]); cbn [puts_loop].
  - apply wp_bind. eapply wp_intro; [apply in_mem_ld, (proj1 Hm)|]. cbn. apply wp_ret. by apply said_nil.
  - destruct Hm as [H1 Hm]. apply Forall_cons in Hnz as [Hnz0 Hnz]. apply Forall_cons in Hb as [Hb0 Hb].
    apply wp_bind. eapply wp_intro; [apply in_mem_ld, H1|]. rewrite (proj2 (Z.eqb_neq b 0)) by done.
    apply wp_bind. eapply wp_mono; [|by apply console_putc_run]. intros [] k1 Hs1.
    eapply wp_mono; [|apply IH]; [|split; [|done]|done|cbn in Hn; lia|apply Hs1].
    + intros [] k2 Hs2. by apply (said_app k k1 k2 [b] l).
    + cbn beta in Hs1. pose proof (proj1 (chip_only_mem _ _ (proj1 Hs1))) as Hc1. by rewrite Hc1.
Qed.
End puts.

(** ** trace_ext_puts *)

Section ext.
Context {P : Type} {plat : Platform P} {cfg : Config} {tcfg : ThreadConfig} {ops : SerialOps P}.
Context (ok : console P -> Prop) (out : console P -> list Z) {sp : SerialPrints P ok out}.
Context (mmu_on : bool) (c : nat) (until_unlocked : console P -> console P).
Implicit Types (s : tstate (console P)) (k : console P).

Lemma in_con_run {A} (m : M (console P) A) s a k : m (world s) = Ret a k -> in_con m s = Ret a (put_con k s).
Proof. intros H. unfold in_con, on_part. by rewrite H. Qed.
Lemma wp_in_con {A} (m : M (console P) A) s (Q : A -> console P -> Prop) (R : A -> tstate (console P) -> Prop) :
  wp m (world s) Q -> (forall a k, Q a k -> R a (put_con k s)) -> wp (in_con m) s R.
Proof. intros Hm HR. destruct (wp_elim _ _ _ Hm) as (a & k & Hr & HQ). eapply wp_intro; [by apply in_con_run|]. by apply HR. Qed.
Lemma put_con_twice k k' s : put_con k (put_con k' s) = put_con k s.
Proof. done. Qed.
Lemma put_con_id s : put_con (world s) s = s.
Proof. by destruct s. Qed.

Lemma in_con_gets {A} (f : console P -> A) s : in_con (gets f) s = Ret (f (world s)) s.
Proof. rewrite (in_con_run (gets f) s (f (world s)) (world s) eq_refl). by rewrite put_con_id. Qed.
Lemma in_con_modify f s : in_con (modify f) s = Ret tt (put_con (f (world s)) s).
Proof. done. Qed.

(** The mask that is put back. *)
Lemma put_excp_restore v e : is_u32 v -> put_excp (put_excp v e) (Z.land (Z.land (Z.shiftr v ARM32_CPSR_F_SHIFT) THREAD_EXCP_ALL) THREAD_EXCP_ALL) = v.
Proof.
  intros Hv. unfold put_excp. apply Z.bits_inj'. intros i Hi. change ARM32_CPSR_F_SHIFT with 6. change THREAD_EXCP_ALL with (Z.ones 3).
  rewrite !Z.lor_spec, !Z.land_spec, !Z.lor_spec, !Z.land_spec, !Z.shiftl_spec by lia. rewrite !Z.land_spec.
  assert (Hn : Z.testbit (not32 (Z.shiftl (Z.ones 3) 6)) i = (i <? 32) && negb ((6 <=? i) && (i <? 9))).
  { rewrite not32_testbit, Z.shiftl_spec by lia. f_equal. f_equal. destruct (Z.leb_spec 6 i); cbn [andb].
    - rewrite Z.testbit_ones_nonneg by lia. destruct (Z.ltb_spec i 9), (Z.ltb_spec (i - 6) 3); (done || lia).
    - by rewrite Z.testbit_neg_r by lia. }
  rewrite Hn. destruct (Z.ltb_spec i 32).
  2:{ rewrite (is_u32_testbit v i Hv) by lia. cbn [andb orb]. rewrite !andb_false_r. cbn [orb].
      rewrite (Z.testbit_ones_nonneg 3 (i - 6)), (proj2 (Z.ltb_ge (i - 6) 3)) by lia. by rewrite !andb_false_r. }
  destruct (Z.leb_spec 6 i); cbn [andb].
  - rewrite Z.testbit_ones_nonneg, Z.shiftr_spec by lia. replace (i - 6 + 6) with i by lia.
    destruct (Z.ltb_spec i 9), (Z.ltb_spec (i - 6) 3); try lia; cbn [negb]; rewrite ?andb_true_r, ?andb_false_r; cbn [orb]; rewrite ?orb_false_r; done.
  - rewrite (Z.testbit_neg_r (Z.ones 3)), !andb_false_r by lia. cbn [negb orb]. rewrite !andb_true_r, !orb_false_r. done.
Qed.

(** A core that holds no lock. *)
Definition holds_no_lock s : Prop := (c < CFG_TEE_CORE_NB_CORE)%nat /\
  exists r l, cores s !! c = Some r /\ is_u32 (core_cpsr r) /\ core_locals s !! c = Some l /\ count_is 0 l.

Definition contended k : bool := mmu_on && negb (puts_lock k =? SPINLOCK_UNLOCK).
Definition when_open k : console P := if contended k then until_unlocked k else k.
(** The lock, once it is open. *)
Record can_print k (str : Z) (l : list Z) : Prop := {
  cp_ok : ok k;
  cp_open : mmu_on = true -> puts_lock k = SPINLOCK_UNLOCK;
  cp_text : cstr (con_mem k) str l;
  cp_bytes : Forall is_byte l }.

Definition take_lock : M (tstate (console P)) bool :=
  if mmu_on then ok <- puts_trylock c;; if (ok : bool) then ret false else puts_lock_wait c until_unlocked;;; ret true else ret false.
Definition locked_state s l k : tstate (console P) :=
  if mmu_on then upd_core_locals (insert c (with_count 1 l)) (put_con (set_puts_lock SPINLOCK_LOCK k) s) else put_con k s.
Lemma take_lock_run s l : masked s c -> (c < CFG_TEE_CORE_NB_CORE)%nat -> core_locals s !! c = Some l -> count_is 0 l ->
  (mmu_on = true -> puts_lock (when_open (world s)) = SPINLOCK_UNLOCK) ->
  take_lock s = Ret (contended (world s)) (locked_state s l (when_open (world s))).
Proof.
  intros Hm Hc Hl Hn Hopen. unfold take_lock, locked_state, when_open, contended in *. destruct mmu_on; cbn [andb] in *; [|by rewrite put_con_id].
  specialize (Hopen eq_refl). unfold puts_trylock. rewrite bind_assoc, (bind_run _ _ _ _ _ (massert_ok _ _ (foreign_disabled_run s c Hm))).
  rewrite bind_assoc, (bind_run _ _ _ _ _ (in_con_gets puts_lock s)). destruct (puts_lock (world s) =? SPINLOCK_UNLOCK) eqn:E; cbn [negb] in *.
  - rewrite bind_assoc. rewrite (bind_run _ _ _ _ _ (in_con_modify _ s)). rewrite bind_assoc.
    rewrite (bind_run _ _ _ _ _ (count_incr_run (put_con (set_puts_lock SPINLOCK_LOCK (world s)) s) c l Hm Hc Hl Hn)). done.
  - change (bind (ret false) ?f s) with (f false s). cbn match. unfold puts_lock_wait.
    rewrite bind_assoc, (bind_run _ _ _ _ _ (massert_ok _ _ (foreign_disabled_run s c Hm))).
    rewrite bind_assoc, (bind_run _ _ _ _ _ (in_con_gets puts_lock s)), E. cbn [negb when].
    rewrite bind_assoc, (bind_run _ _ _ _ _ (in_con_modify _ s)).
    rewrite bind_assoc, (bind_run _ _ _ _ _ (in_con_gets puts_lock _)). cbn [world put_con]. rewrite Hopen, Z.eqb_refl. cbn match.
    rewrite bind_assoc, (bind_run _ _ _ _ _ (in_con_modify _ _)). cbn [world put_con].
    rewrite (bind_run _ _ _ _ _ (count_incr_run (put_con (set_puts_lock SPINLOCK_LOCK (until_unlocked (world s))) (put_con (until_unlocked (world s)) s)) c l Hm Hc Hl Hn)). done.
Qed.

Lemma puts_unlock_run s l : masked s c -> (c < CFG_TEE_CORE_NB_CORE)%nat -> core_locals s !! c = Some l -> count_is 1 l ->
  puts_unlock c s = Ret tt (upd_core_locals (insert c (with_count 0 l)) (put_con (set_puts_lock SPINLOCK_UNLOCK (world s)) s)).
Proof.
  intros Hm Hc Hl H1. unfold puts_unlock. rewrite (bind_run _ _ _ _ _ (massert_ok _ _ (foreign_disabled_run s c Hm))).
  rewrite (bind_run _ _ _ _ _ (in_con_modify _ s)). by apply count_decr_run.
Qed.
Lemma with_count_back l : count_is 0 l -> with_count 0 (with_count 1 l) = l.
Proof. unfold count_is, with_count. destruct cfg_ndebug; [done|]. intros H. specialize (H eq_refl). destruct l. by cbn in *; subst. Qed.

Lemma said_set_lock v w k l k1 : said ok out (set_puts_lock v k) l k1 -> puts_lock k = w -> said ok out k l (set_puts_lock w k1).
Proof.
  intros ((p & us & ->) & Hok & Ho) <-. split_and!.
  - by exists p, us.
  - by apply ok_lock.
  - rewrite out_lock, Ho. f_equal. apply out_lock.
Qed.

(** What is printed under the lock, whatever the state of the lock is. *)
Lemma print_run (b : bool) str l s : ok (world s) -> cstr (con_mem (world s)) str l -> Forall is_byte l ->
  wp (in_con console_flush;;; when b (in_con (console_putc 42));;;
      in_con (n <- in_mem fuel;; puts_loop n str);;; in_con console_flush) s
    (fun _ s' => exists k', s' = put_con k' s /\ said ok out (world s) ((if b then [42] else []) ++ l) k').
Proof.
  intros Hk Hl Hb. apply wp_bind. eapply wp_in_con; [by apply (console_flush_run ok out)|]. intros [] k1 H1. cbn beta in H1.
  apply wp_bind. apply (wp_mono _ _ (fun _ s' => exists k', s' = put_con k' s /\ said ok out (world s) (if b then [42] else []) k')).
  2:{ apply wp_when. destruct b; [|by exists k1].
    eapply wp_in_con; [apply (console_putc_run ok out); [unfold is_byte; lia|apply H1]|]. intros [] k2 H2. exists k2. split; [done|]. by apply (said_app ok out _ _ _ [] _ H1). }
  intros [] s2 (k2 & -> & H2). apply wp_bind.
  assert (Hm2 : con_mem k2 = con_mem (world s)) by apply (chip_only_mem _ _ (proj1 H2)).
  eapply wp_in_con.
  { apply wp_bind. eapply wp_intro; [unfold in_mem, on_part, fuel; cbn; reflexivity|]. apply (puts_loop_run ok out l).
    - cbn. by rewrite Hm2.
    - done.
    - cbn. rewrite Hm2. destruct Hl as [Hl _]. apply at_mem_size in Hl. rewrite length_app in Hl. cbn in Hl. lia.
    - cbn. apply ok_mem, H2. }
  intros [] k3 H3. cbn beta in H3. cbn [world put_con] in H3.
  assert (E : set_con_mem (con_mem k2) k2 = k2) by (by destruct k2). rewrite E in H3.
  pose proof (said_app ok out _ _ _ _ _ H2 H3) as H4.
  eapply wp_in_con; [apply (console_flush_run ok out), H4|]. intros [] k4 H5. exists k4. split; [done|].
  rewrite <- (app_nil_r (_ ++ l)). by apply (said_app ok out _ _ _ _ _ H4).
Qed.

Lemma wp_four {S} (m1 m2 m3 m4 m5 : M S unit) (x : S) (Q R : unit -> S -> Prop) :
  wp (m1;;; m2;;; m3;;; m4) x Q -> (forall x', Q tt x' -> wp m5 x' R) -> wp (m1;;; m2;;; m3;;; m4;;; m5) x R.
Proof.
  unfold wp, bind. destruct (m1 x); try done. destruct (m2 _); try done. destruct (m3 _); try done.
  destruct (m4 _) as [[] ?| | |]; try done. intros HQ H. exact (H _ HQ).
Qed.

(** The state of the threads, once the lock is open and the mask is back. *)
Lemma restored s r l s2 k k' v l1 : cores s !! c = Some r -> core_locals s !! c = Some l ->
  (let s1 := put_con k' (upd_cores (insert c (set_core_cpsr v r)) s) in s2 = s1 \/ s2 = upd_core_locals (insert c l1) s1) ->
  upd_cores (insert c (set_core_cpsr (core_cpsr r) (set_core_cpsr v r))) (upd_core_locals (insert c l) (put_con k s2)) = put_con k s.
Proof.
  intros Hr Hl Hs. cbn zeta in Hs.
  assert (E : set_core_cpsr (core_cpsr r) (set_core_cpsr v r) = r) by (by destruct r). rewrite E.
  destruct s, Hs as [-> | ->]; unfold upd_cores, upd_core_locals, put_con; cbn in *;
    rewrite !list_insert_insert_eq, ?(list_insert_id _ _ _ Hr), ?(list_insert_id _ _ _ Hl); done.
Qed.

(** [trace_ext_puts] masks the exceptions, takes the lock of the console when
    the MMU is on (waiting for the core that has it), prints the string, opens the
    lock and restores the mask.  The string is on the wire once, after an asterisk
    when the lock had been taken; the state of the threads is what it was, the lock
    depth of the core included, and of the console only the chip has changed. *)
Lemma trace_ext_puts_run s str l : holds_no_lock s -> can_print (when_open (world s)) str l ->
  wp (trace_ext_puts mmu_on c until_unlocked str) s (fun _ s' => exists k', s' = put_con k' s /\
    said ok out (when_open (world s)) ((if contended (world s) then [42] else []) ++ l) k').
Proof.
  intros (Hc & r & lc & Hr & Hu & Hlc & H0) [Hok Hopen Htext Hbytes]. unfold trace_ext_puts, thread_mask_exceptions.
  apply wp_bind, wp_bind. eapply wp_intro; [by apply get_exceptions_run|].
  apply wp_bind. eapply wp_intro; [by eapply set_exceptions_run|]. apply wp_ret.
  set (st := Z.land (Z.shiftr _ _) _). set (e := Z.lor _ _). set (s1 := upd_cores _ s).
  assert (Hm1 : masked s1 c).
  { apply (masked_upd s c r); [done|]. rewrite put_excp_foreign. unfold e. by rewrite Z.lor_spec, orb_true_r. }
  apply wp_bind. eapply wp_intro; [by apply (take_lock_run s1 lc Hm1 Hc Hlc H0)|].
  set (k0 := when_open (world s)) in *. change (contended (world s1)) with (contended (world s)). change (when_open (world s1)) with k0.
  set (b := contended (world s)). set (s2 := locked_state s1 lc k0).
  assert (Hw : world s2 = if mmu_on then set_puts_lock SPINLOCK_LOCK k0 else k0) by (unfold s2, locked_state; by destruct mmu_on).
  eapply wp_four; [apply print_run; rewrite ?Hw; destruct mmu_on; try done; by apply ok_lock|]. cbn beta.
  intros s3 (k3 & -> & H3). rewrite Hw in H3.
  assert (Hr3 : cores (put_con k3 s2) !! c = Some (set_core_cpsr (put_excp (core_cpsr r) e) r)).
  { unfold s2, locked_state. destruct mmu_on; by apply (lookup_upd_core s c r). }
  assert (Hm3 : masked (put_con k3 s2) c) by (unfold s2, locked_state; by destruct mmu_on).
  set (l0 := if mmu_on then with_count 1 lc else lc).
  assert (Hl3 : core_locals (put_con k3 s2) !! c = Some l0).
  { unfold s2, locked_state, l0. destruct mmu_on; [|done]. by apply (lookup_upd_local _ c lc). }
  set (k4 := if mmu_on then set_puts_lock SPINLOCK_UNLOCK k3 else k3).
  set (s4 := upd_core_locals (insert c lc) (put_con k4 s2)).
  assert (Hrun : when mmu_on (puts_unlock c) (put_con k3 s2) = Ret tt s4).
  { unfold s4, k4, l0, when in *. destruct mmu_on.
    - rewrite (puts_unlock_run _ _ Hm3 Hc Hl3) by apply count_with_count. by rewrite (with_count_back lc H0).
    - by rewrite upd_core_locals_id. }
  apply wp_bind. eapply wp_intro; [exact Hrun|]. unfold thread_unmask_exceptions.
  assert (Hl4 : core_locals s4 !! c = Some lc) by (by apply (lookup_upd_local (put_con k4 s2) c l0)).
  eapply wp_intro; [by apply (set_exceptions_run s4 c _ lc _ Hc Hr3 Hl4)|].
  exists k4. split.
  - cbn [core_cpsr set_core_cpsr]. unfold st. rewrite put_excp_restore by done.
    apply (restored s r lc s2 k4 (world s2) (put_excp (core_cpsr r) e) (with_count 1 lc) Hr Hlc). unfold s2, locked_state, s1. by destruct mmu_on; [right|left].
  - unfold k4. destruct mmu_on; [|done]. apply (said_set_lock SPINLOCK_LOCK); [done|by apply Hopen].
Qed.
End ext.
