(* ===== verification/TraceSpec.v ===== *)
(** * A trace is one line

    [trace_printf] builds a line out of a prefix and a message in a buffer on the
    stack, and hands it to the console.  However long the message is, and however
    many newlines it ends with, what is printed is one line that ends with one
    newline. *)

From stdpp Require Import prelude gmap list strings.
From Stdlib Require Import ZArith Lia.
From S2P Require Import Prelude Platform State CoreMmu Fdt Thread ThreadInv Newlib NewlibSpec Printk PrintkSpec Console ConsoleSpec.
#[local] Open Scope Z_scope.
#[local] Open Scope kernel_scope.
#[local] Abbreviation len l := (Z.of_nat (length l)).

(** ** Lines *)

(** A text without the newlines at its end. *)
Fixpoint strip (l : list Z) : list Z :=
  match l with
  | [] => []
  | c :: l => match strip l with [] => if c =? 10 then [] else [c] | r => c :: r end
  end.
Lemma strip_split l : strip l = [] /\ l = replicate (length l) 10 \/
  exists y b k, strip l = y ++ [b] /\ b <> 10 /\ l = y ++ b :: replicate k 10.
Proof.
  induction l as [|c l IH]; [by left|]. cbn [strip]. destruct IH as [[-> IH]|(y & b & k & -> & Hb & ->)].
  - destruct (Z.eqb_spec c 10) as [->|Hc].
    + left. split; [done|]. cbn. by f_equal.
    + right. exists [], c, (length l). cbn. by rewrite <- IH.
  - right. exists (c :: y), b, k. split_and!; [by destruct y|done..].
Qed.
Lemma strip_head c l : c <> 10 -> exists y b k, strip (c :: l) = y ++ [b] /\ b <> 10 /\ c :: l = y ++ b :: replicate k 10.
Proof. intros Hc. destruct (strip_split (c :: l)) as [[_ H]|H]; [|done]. cbn in H. by inversion H. Qed.

(** ** The buffer *)

Lemma put_bytes_insert bf l m i b : (i < length l)%nat -> <[bf + Z.of_nat i := b]> (put_bytes bf l m) = put_bytes bf (<[i := b]> l) m.
Proof.
  intros Hi. apply map_eq. intros a. rewrite put_bytes_lookup, length_insert. destruct (decide (a = bf + Z.of_nat i)) as [->|Hne].
  - rewrite lookup_insert_eq, (proj2 (Z.leb_le _ _)), (proj2 (Z.ltb_lt _ _)) by lia. cbn [andb].
    replace (Z.to_nat (bf + Z.of_nat i - bf)) with i by lia. by rewrite list_lookup_insert_eq.
  - rewrite lookup_insert_ne, put_bytes_lookup by done. destruct (Z.leb_spec bf a), (Z.ltb_spec a (bf + len l)); cbn [andb]; try done.
    by rewrite list_lookup_insert_ne by lia.
Qed.
Lemma put_bytes_room bf l m i : (i < length l)%nat -> is_Some (put_bytes bf l m !! (bf + Z.of_nat i)).
Proof. intros Hi. apply lookup_lt_is_Some in Hi as [b Hb]. exists b. eapply at_mem_lookup; [apply put_at|done]. Qed.

Lemma at_mem_exists_at m s l a : at_mem m s l -> s <= a < s + len l -> is_Some (m !! a).
Proof.
  intros Hm Ha. destruct (lookup_lt_is_Some_2 l (Z.to_nat (a - s))) as [b Hb]; [lia|]. exists b.
  rewrite <- (at_mem_lookup _ _ _ _ _ Hm Hb). f_equal. lia.
Qed.

Section line.
Context {statics : TraceStatics} (m1 : bmem).

Lemma strip_newlines_run k y b T m : b <> 10 -> at_mem m buf_at (y ++ b :: replicate k 10 ++ T) ->
  strip_newlines (length y + k) m = Ret (len y) m.
Proof.
  intros Hb. revert T. induction k as [|k IH]; intros T Hm.
  - rewrite Nat.add_0_r. destruct y as [|c y]; [done|]. set (n := length (c :: y)). assert (Hn : n = S (length y)) by done.
    rewrite Hn. cbn [strip_newlines]. rewrite <- Hn.
    assert (Hl : m !! (buf_at + Z.of_nat n) = Some b) by (eapply at_mem_lookup; [exact Hm|]; unfold n; by apply list_lookup_middle).
    rewrite (bind_run _ _ _ _ _ (ld_run _ _ _ Hl)). by rewrite (proj2 (Z.eqb_neq b 10)).
  - rewrite Nat.add_succ_r. cbn [strip_newlines].
    assert (Hl : m !! (buf_at + Z.of_nat (S (length y + k))) = Some 10).
    { eapply at_mem_lookup; [exact Hm|]. rewrite lookup_app_r by lia. replace (S (length y + k) - length y)%nat with (S k) by lia. rewrite <- lookup_tail. cbn [tail].
      rewrite lookup_app_l by (rewrite length_replicate; lia). apply lookup_replicate_2. lia. }
    rewrite (bind_run _ _ _ _ _ (ld_run _ _ _ Hl)). apply (IH (10 :: T)).
    by rewrite replicate_S_end, <- app_assoc in Hm.
Qed.

(** The line that is in a buffer of text [l]: at most 254 characters, and one newline. *)
Definition line_of (l : list Z) : list Z := strip (take 254 l) ++ [10].

Lemma end_line_run l B T c r : l = c :: r -> c <> 10 -> length B = 256%nat -> B = take 254 l ++ T -> len l < 2 ^ 32 ->
  exists T', length (line_of l ++ [0] ++ T') = 256%nat /\
    end_line (len l) (put_bytes buf_at B m1) = Ret tt (put_bytes buf_at (line_of l ++ [0] ++ T') m1).
Proof.
  intros Hl Hc HB HT Hlen. set (n := Nat.min 254 (length l)).
  assert (Hn : length (take 254 l) = n) by (by rewrite length_take).
  assert (Hoffs : (if len l >=? MAX_PRINT_SIZE - 1 then MAX_PRINT_SIZE - 2 else len l) = Z.of_nat n).
  { unfold n, MAX_PRINT_SIZE. destruct (Z.geb_spec (len l) (256 - 1)); lia. }
  assert (HT0 : (2 <= length T)%nat) by (rewrite HT, length_app, Hn in HB; unfold n in *; lia).
  destruct T as [|t0 T]; [cbn in HT0; lia|].
  assert (Htk : take 254 l = c :: take 253 r) by (by rewrite Hl).
  destruct (strip_head c (take 253 r) Hc) as (y & b & k & Hs & Hb & Hy). rewrite <- Htk in Hs, Hy.
  assert (Hnk : n = (length y + S k)%nat) by (rewrite <- Hn, Hy, length_app; cbn; rewrite length_replicate; lia).
  assert (HB2 : <[n := 10]> B = y ++ b :: replicate (S k) 10 ++ T).
  { rewrite HT, insert_app_r_alt by lia. rewrite Hn, Nat.sub_diag. cbn. rewrite Hy, <- app_assoc. cbn. do 2 f_equal.
    by rewrite (app_comm_cons _ T), <- replicate_S, replicate_S_end, <- app_assoc. }
  set (B2 := y ++ b :: replicate (S k) 10 ++ T) in *.
  assert (HlB2 : length B2 = 256%nat) by (by rewrite <- HB2, length_insert).
  unfold end_line. rewrite Hoffs.
  assert (Hst : st (buf_at + Z.of_nat n) 10 (put_bytes buf_at B m1) = Ret tt (put_bytes buf_at B2 m1)).
  { rewrite st_run; [by rewrite put_bytes_insert, HB2 by lia|apply put_bytes_room; lia|unfold is_byte; lia]. }
  rewrite (bind_run _ _ _ _ _ Hst), Nat2Z.id, Hnk.
  rewrite (bind_run _ _ _ _ _ (strip_newlines_run (S k) y b T _ Hb (put_at m1 buf_at B2))).
  destruct (replicate k 10 ++ T) as [|x0 X] eqn:EX.
  { apply (f_equal length) in EX. unfold B2 in HlB2. rewrite !length_app in *. cbn in HlB2. rewrite length_app in HlB2. cbn in *. lia. }
  assert (HB3 : B2 = (y ++ [b; 10]) ++ x0 :: X) by (unfold B2; cbn [replicate app]; rewrite EX, <- app_assoc; done).
  set (j := length (y ++ [b; 10])). assert (Hj : (j < 256)%nat) by (rewrite <- HlB2, HB3, length_app; unfold j; cbn; lia).
  assert (Hjl : buf_at + (len y + 1) + 1 = buf_at + Z.of_nat j) by (unfold j; rewrite length_app; cbn; lia).
  assert (HB4 : <[j := 0]> B2 = line_of l ++ [0] ++ X).
  { rewrite HB3, insert_app_r_alt by (unfold j; lia). unfold j. rewrite Nat.sub_diag. unfold line_of. rewrite Hs, <- !app_assoc. done. }
  exists X. split_and!.
  - by rewrite <- HB4, length_insert.
  - rewrite Hjl, st_run; [by rewrite put_bytes_insert, HB4 by lia|apply put_bytes_room; lia|unfold is_byte; lia].
Qed.
End line.

(** ** Printing at the end of what is there *)

Section printing.
Context {P : Type} {plat : Platform P} {cfg : Config} {tcfg : ThreadConfig} {build : StrBuild} {statics : TraceStatics}.
Context (m1 : bmem).
Implicit Types (s : tstate (console P)).

(** The buffer is apart from everything else, on whole words. *)
Record trace_room : Prop := {
  tr_buf : 0 < buf_at /\ buf_at + 256 < 2 ^ 32;
  tr_sep : forall a, buf_at <= a < buf_at + 256 -> m1 !! a = None;
  tr_bytes : bytes_ok m1;
  tr_words : word_closed (put_bytes buf_at (replicate 256 0) m1) }.

Context (Hroom : trace_room).

Lemma buffer_closed B : length B = 256%nat -> word_closed (put_bytes buf_at B m1).
Proof.
  intros HB. assert (H : forall a, is_Some (put_bytes buf_at B m1 !! a) <-> is_Some (put_bytes buf_at (replicate 256 0) m1 !! a)).
  { intros a. rewrite !put_bytes_lookup, HB, length_replicate. destruct (Z.leb_spec buf_at a), (Z.ltb_spec a (buf_at + Z.of_nat 256)); cbn [andb]; try done.
    rewrite !lookup_lt_is_Some, HB, length_replicate. done. }
  intros a Ha j Hj. rewrite H in *. by apply (tr_words Hroom).
Qed.
Lemma put_bytes_bytes bf l m : bytes_ok m -> Forall is_byte l -> bytes_ok (put_bytes bf l m).
Proof.
  intros Hm Hl a b. cbn. rewrite put_bytes_lookup. case_match; [|by apply Hm]. intros Hb. by apply (Forall_lookup_1 _ _ _ _ Hl Hb).
Qed.
Lemma below_buffer x : len x <= 256 -> m1 ⊆ put_bytes buf_at x m1.
Proof.
  intros Hx. apply map_subseteq_spec. intros a b Hb. rewrite put_bytes_lookup.
  destruct (Z.leb_spec buf_at a), (Z.ltb_spec a (buf_at + len x)); cbn [andb]; try done.
  rewrite (tr_sep Hroom) in Hb by lia. done.
Qed.
Lemma room_formats x R fmt l : len x + len R = 256 -> Forall is_byte x -> Forall is_byte R ->
  at_mem m1 fmt (format_text l ++ [0]) -> pieces_ok true l -> formats true (buf_at + len x) (256 - len x) R (put_bytes buf_at x m1) fmt l.
Proof.
  intros Hlen Hx HR Ht Hp. pose proof (tr_buf Hroom). split.
  - right. lia.
  - lia.
  - intros a Ha. rewrite put_bytes_lookup, (proj2 (Z.ltb_ge a _)), andb_false_r by lia. apply (tr_sep Hroom). lia.
  - rewrite <- put_bytes_app. apply put_bytes_bytes; [apply (tr_bytes Hroom)|by apply Forall_app].
  - rewrite <- put_bytes_app. apply buffer_closed. rewrite length_app. lia.
  - apply (at_mem_other m1); [|done]. intros a Ha.
    destruct (at_mem_exists_at m1 fmt _ a Ht Ha) as [b Hb]. rewrite Hb. apply (lookup_weaken _ _ _ _ Hb). apply below_buffer. lia.
  - done.
Qed.

Lemma vsnprintk_at x R fmt l ap t rest : len x + len R = 256 -> Forall is_byte x -> Forall is_byte R ->
  at_mem m1 fmt (format_text l ++ [0]) -> pieces_ok true l ->
  render m1 (uuid_at m1) l ap = Some (t, rest) -> len t < 2 ^ 31 ->
  vsnprintk (buf_at + len x) (u32 (MAX_PRINT_SIZE - len x)) fmt ap (put_bytes buf_at (x ++ R) m1)
    = Ret (len t) (put_bytes buf_at (x ++ cut R t) m1) /\ Forall is_byte t.
Proof.
  intros Hlen Hx HR Ht Hp Hr Hl. unfold vsnprintk, MAX_PRINT_SIZE. rewrite u32_small by (unfold is_u32; lia). rewrite !put_bytes_app.
  apply (vsnprintf_renders true _ _ R _ fmt l ap t rest); [by apply room_formats| |done].
  eapply render_mono; [|exact Hr]. apply below_buffer. lia.
Qed.

Definition with_buf (B : list Z) s : tstate (console P) := put_con (set_con_mem (put_bytes buf_at B m1) (world s)) s.
(** The buffer starts with [x], and nothing but it differs from [s]. *)
Definition printed (x : list Z) s s' : Prop := exists R, len x + len R = 256 /\ Forall is_byte x /\ Forall is_byte R /\ s' = with_buf (x ++ R) s.

Lemma cut_length L x : length (cut L x) = length L.
Proof.
  destruct L as [|b L]; [done|]. cbn [cut]. rewrite length_app, length_take. cbn [length]. rewrite length_drop. cbn [length]. lia.
Qed.
Lemma in_con_mem {A} (m : M bmem A) B B' a s : m (put_bytes buf_at B m1) = Ret a (put_bytes buf_at B' m1) ->
  in_con (in_mem m) (with_buf B s) = Ret a (with_buf B' s).
Proof. intros H. unfold in_con, in_mem, on_part, with_buf. cbn [world put_con con_mem set_con_mem]. rewrite H. by destruct s. Qed.

Lemma printing_run x fmt l ap t rest k s s' (Q : unit -> tstate (console P) -> Prop) : printed x s s' ->
  at_mem m1 fmt (format_text l ++ [0]) -> pieces_ok true l -> render m1 (uuid_at m1) l ap = Some (t, rest) ->
  len (x ++ t) < 256 -> (forall s'', printed (x ++ t) s s'' -> wp (k (len (x ++ t))) s'' Q) -> wp (printing (len x) fmt ap k) s' Q.
Proof.
  intros (R & HR & Hx & HRb & ->) Ht Hp Hr Hl Hk. rewrite length_app in Hl.
  destruct (vsnprintk_at x R fmt l ap t rest HR Hx HRb Ht Hp Hr ltac:(lia)) as [Hv Htb].
  unfold printing, print_at. apply wp_bind, wp_bind. eapply wp_intro; [apply in_con_mem, Hv|].
  rewrite (proj2 (Z.ltb_ge _ _)) by lia. apply wp_ret. rewrite u32_small by (unfold is_u32; lia).
  replace (len x + len t) with (len (x ++ t)) by (rewrite length_app; lia). apply Hk.
  destruct R as [|b R]; [cbn in HR; lia|]. set (R0 := b :: R) in *. change (cut R0 t) with (take (length R0 - 1) t ++ 0 :: drop (S (length t)) R0).
  rewrite take_ge by lia. exists (0 :: drop (S (length t)) R0). split_and!.
  - rewrite length_app. cbn [length]. rewrite length_drop. lia.
  - by apply Forall_app.
  - constructor; [done|by apply Forall_drop].
  - by rewrite <- app_assoc.
Qed.
End printing.

(** ** The parts of a line *)

Definition no_flags (c : conversion) : piece := Dir (mk_spec [] NoWidth NoPrec LNone c).
Definition level_format : list piece := [no_flags Cs; Lit 32].
Definition id_format : list piece := [Lit 91; Lit 48; Lit 120; no_flags Cx; Lit 93; Lit 32].
Definition prefix_format : list piece := [no_flags Cs; Lit 58].
Definition func_format : list piece := [no_flags Cs; Lit 58; no_flags Cd; Lit 58].
Lemma the_formats : map format_text [level_format; id_format; prefix_format; func_format; [Lit 32]] =
  map chars ["%s "; "[0x%x] "; "%s:"; "%s:%d:"; " "]%string.
Proof. by vm_compute. Qed.

Definition level_texts : list (list Z) := map chars ["UNKNOWN:"; "ERROR:  "; "INFO:   "; "DEBUG:  "; "FLOW:   "]%string.
Definition level_index (level : Z) : nat := if (level >=? TRACE_MIN) && (level <=? TRACE_MAX) then Z.to_nat level else 0%nat.
Definition level_text (level : Z) (level_ok : bool) : list Z :=
  if level_ok then nth (level_index level) level_texts [] else chars "MESSAGE:".

(** A string that is a constant of the kernel. *)
Definition placed (m : bmem) (p : Z) (l : list Z) : Prop := 0 < p < 2 ^ 32 /\ cstr m p l.
Record trace_strings {statics : TraceStatics} (m : bmem) : Prop := {
  ts_level : at_mem m fmt_level_at (format_text level_format ++ [0]);
  ts_id : at_mem m fmt_id_at (format_text id_format ++ [0]);
  ts_prefix : at_mem m fmt_prefix_at (format_text prefix_format ++ [0]);
  ts_func : at_mem m fmt_func_at (format_text func_format ++ [0]);
  ts_space : at_mem m fmt_space_at (format_text [Lit 32] ++ [0]);
  ts_core : placed m trace_ext_prefix_at (chars "TEE-CORE");
  ts_message : placed m message_at (chars "MESSAGE:");
  ts_levels : forall i, (i < 5)%nat -> placed m (lvl_strs_at + 9 * Z.of_nat i) (nth i level_texts []) }.

Lemma cstr_string_at m p l n : cstr m p l -> (length l < n)%nat -> string_at n m p = Some l.
Proof.
  revert p n. induction l as [|b l IH]; intros p n [Hm Hnz] Hn; (destruct n as [|n]; [cbn in Hn; lia|]); destruct Hm as [H1 Hm]; cbn [string_at]; rewrite H1.
  - done.
  - apply Forall_cons in Hnz as [H0 Hnz]. rewrite (proj2 (Z.eqb_neq b 0)) by done. cbn [length] in Hn. rewrite (IH (p + 1) n); [done|by split|lia].
Qed.
Section parts.
Context (m : bmem) (uuid : Z -> option (list Z)) (l : list piece) (ap ap' : list va) (t : list Z).
Context (Ht : render m uuid l ap = Some (t, ap')).
Lemma plain_layout x y : layout false false 0 x y = x ++ y.
Proof. unfold layout. replace (Z.to_nat _) with 0%nat by lia. done. Qed.
Lemma render_s p x : placed m p x -> render m uuid (no_flags Cs :: l) (VWord p :: ap) = Some (x ++ t, ap').
Proof.
  intros [Hp Hx]. unfold no_flags. cbn [render]. unfold render_dir, options_of. cbn [s_width s_prec s_flags s_conv mbind option_bind].
  unfold render_arg. cbn [s_conv s_len o_prec arg_bits wide mbind option_bind]. rewrite u32_small by (unfold is_u32; lia).
  unfold text_at. rewrite (proj2 (Z.eqb_neq p 0)) by lia.
  pose proof (at_mem_size _ _ _ (proj1 Hx)) as Hsz. rewrite length_app, Nat.add_comm in Hsz.
  rewrite (cstr_string_at m p x); [|done|by apply Nat.lt_succ_r, Nat.lt_le_incl].
  cbn [mbind option_bind]. rewrite Ht. cbn [mbind option_bind]. unfold text_layout. cbn [o_minus o_zero o_width Z.abs].
  change (has_flag FMinus [] || (0 <? 0)) with false. change (has_flag FZero []) with false. by rewrite plain_layout.
Qed.
Lemma render_number (c : conversion) (b w : Z) : is_u32 w -> (c = Cx /\ b = 16) \/ (c = Cd /\ b = 10 /\ w < 2 ^ 31) ->
  render m uuid (no_flags c :: l) (VWord w :: ap) = Some (number_text b false w ++ t, ap').
Proof.
  intros Hw Hc. unfold no_flags. cbn [render]. unfold render_dir, options_of. cbn [s_width s_prec s_flags s_conv mbind option_bind].
  assert (Hr : forall o, o = mk_options false false false 0 0 None -> render_arg m uuid (mk_spec [] NoWidth NoPrec LNone c) o (VWord w) = Some (number_text b false w)).
  { intros o ->. unfold render_arg. cbn [s_conv s_len arg_bits wide mbind option_bind o_alt andb o_sign]. rewrite u32_small by done.
    assert (Hn : forall v, number_body (mk_options false false false 0 0 None) b false v = number_text b false v)
      by (intros v; unfold number_body, no_digits; cbn [o_prec]; by rewrite bool_decide_eq_false_2, andb_false_r).
    destruct Hc as [[-> ->]|(-> & -> & Hs)].
    - unfold int_layout. rewrite Hn. cbn [o_minus o_zero andb o_width o_prec with_digits]. by rewrite plain_layout.
    - unfold signed_value, bits_of. cbn [wide]. rewrite (proj2 (Z.ltb_lt w _)), (proj2 (Z.ltb_ge w 0)), Z.abs_eq by (unfold is_u32 in Hw; lia).
      unfold int_layout. rewrite Hn. cbn [o_minus o_zero andb o_width o_prec with_digits Z.eqb]. by rewrite plain_layout. }
  change (mk_options (has_flag FMinus [] || (0 <? 0)) (has_flag FZero []) (has_flag FAlt []) (sign_of []) (Z.abs 0) None) with (mk_options false false false 0 0 None).
  rewrite (Hr _ eq_refl). destruct Hc as [[-> _]|(-> & _)]; cbn [mbind option_bind]; by rewrite Ht.
Qed.
End parts.
Lemma number_text_nonzero b z : 1 < b <= 16 -> 0 <= z -> Forall (fun x => x <> 0) (number_text b false z).
Proof.
  intros Hb Hz. unfold number_text. apply Forall_map. eapply Forall_impl; [apply (digits_bound 64 b z); lia|].
  intros d Hd. cbn in *. unfold digit_char. case_match; lia.
Qed.

(** What is in front of the message. *)
Definition trace_header (level : Z) (level_ok : bool) (id : option Z) (func : option (list Z)) (line : Z) : list Z :=
  level_text level level_ok ++ [32] ++
  (match id with Some i => chars "[0x" ++ number_text 16 false i ++ chars "] " | None => [] end) ++
  chars "TEE-CORE:" ++
  (match func with Some f => f ++ [58] ++ decimal line ++ [58] | None => [] end) ++ [32].

Lemma level_text_head level level_ok : exists c r, level_text level level_ok = c :: r /\ c <> 10.
Proof.
  assert (H : forall x, (exists c r, x = c :: r /\ c <> 10) <-> match x with [] => False | c :: _ => c <> 10 end).
  { intros x. destruct x as [|c r]; [by split; [intros (? & ? & ? & _)|]|]. split; [by intros (? & ? & [= <- <-] & ?)|by exists c, r]. }
  apply H. unfold level_text, level_index, TRACE_MIN, TRACE_MAX. destruct level_ok; [|by vm_compute]. destruct ((level >=? 1) && (level <=? 4)) eqn:E; [|by vm_compute].
  apply andb_prop in E as [E1 E2]. apply Z.geb_le in E1. apply Z.leb_le in E2.
  assert (Hc : level = 1 \/ level = 2 \/ level = 3 \/ level = 4) by lia. destruct Hc as [->|[->|[->| ->]]]; by vm_compute.
Qed.
Lemma placed_bytes m p l : bytes_ok m -> placed m p l -> Forall is_byte l.
Proof. intros Hm [_ H]. by eapply cstr_bytes. Qed.
Lemma placed_nonzero m p l : placed m p l -> Forall (fun x => x <> 0) l.
Proof. by intros [_ [_ H]]. Qed.
Lemma strip_Forall (Q : Z -> Prop) l : Forall Q l -> Forall Q (strip l).
Proof.
  intros H. destruct (strip_split l) as [[-> _]|(y & b & k & -> & _ & Hl)]; [done|]. rewrite Hl in H.
  apply Forall_app in H as [H1 H2]. apply Forall_cons in H2 as [H2 _]. apply Forall_app. by split; [|constructor].
Qed.
Lemma line_of_Forall (Q : Z -> Prop) l : Forall Q l -> Q 10 -> Forall Q (line_of l).
Proof. intros H H0. apply Forall_app. split; [by apply strip_Forall, Forall_take|by constructor]. Qed.

Section trace_printf.
Context {P : Type} {plat : Platform P} {cfg : Config} {tcfg : ThreadConfig} {ops : SerialOps P} {build : StrBuild} {statics : TraceStatics}.
Context (ok : console P -> Prop) (out : console P -> list Z) {sp : SerialPrints P ok out}.
Context (mmu_on : bool) (c : nat) (until_unlocked : console P -> console P).
Implicit Types (s : tstate (console P)) (k : console P).

Lemma get_id_run s r lc : (c < CFG_TEE_CORE_NB_CORE)%nat -> cores s !! c = Some r -> is_u32 (core_cpsr r) ->
  core_locals s !! c = Some lc -> count_is 0 lc -> thread_get_id_may_fail c s = Ret (curr_thread lc) s.
Proof.
  intros Hc Hr Hu Hl H0. unfold thread_get_id_may_fail. rewrite (bind_run _ _ _ _ _ (mask_foreign_run s c r lc Hc Hr Hl H0)).
  set (s1 := upd_cores _ s). pose proof (masked_upd s c r _ Hr (mask_foreign_bit (core_cpsr r))) as Hm.
  rewrite (bind_run _ _ _ _ _ (core_local_run s1 c Hm Hc)).
  rewrite (bind_run _ _ _ _ _ (get_local_run s1 c lc Hl)).
  pose proof (set_exceptions_run s1 c _ lc (Z.land (Z.land (Z.shiftr (core_cpsr r) ARM32_CPSR_F_SHIFT) THREAD_EXCP_ALL) THREAD_EXCP_ALL) Hc
    (lookup_upd_core s c r _ Hr) Hl H0) as Hs.
  unfold thread_unmask_exceptions. rewrite (bind_run _ _ _ _ _ Hs). unfold ret. f_equal.
  unfold s1. rewrite upd_cores_twice. cbn [core_cpsr set_core_cpsr].
  change (mask_foreign (core_cpsr r)) with (put_excp (core_cpsr r) (Z.lor (Z.land (Z.shiftr (core_cpsr r) ARM32_CPSR_F_SHIFT) THREAD_EXCP_ALL)
                    (Z.land THREAD_EXCP_FOREIGN_INTR THREAD_EXCP_ALL))).
  rewrite put_excp_restore by done.
  assert (E : forall v, set_core_cpsr (core_cpsr r) (set_core_cpsr v r) = r) by (by destruct r). rewrite E.
  destruct s. unfold upd_cores. cbn in *. by rewrite list_insert_id.
Qed.

(** A call of [trace_printf] whose message is the reference text [t]. *)
Record trace_call s (m1 : bmem) (function line level : Z) (level_ok : bool) (fmt : Z) (ap : list va)
    (lc : thread_core_local) (func : option (list Z)) (t : list Z) : Prop := {
  tc_core : holds_no_lock c s /\ core_locals s !! c = Some lc /\ curr_thread lc < 2 ^ 31;
  tc_buffer : exists L, con_mem (world s) = put_bytes buf_at L m1 /\ length L = 256%nat /\ Forall is_byte L;
  tc_room : trace_room m1;
  tc_strings : trace_strings m1;
  tc_func : match func with Some f => placed m1 function f | None => function = 0 end;
  tc_line : 0 <= line < 2 ^ 31;
  tc_message : exists l rest, at_mem m1 fmt (format_text l ++ [0]) /\ pieces_ok true l /\ render m1 (uuid_at m1) l ap = Some (t, rest);
  tc_text : len t < 2 ^ 31 /\ Forall (fun b => b <> 0) t;
  tc_fits : len (trace_header level level_ok (Some (curr_thread lc)) func line) < 256;
  tc_chip : ok (world s);
  tc_other : forall k, ok k -> puts_lock k <> SPINLOCK_UNLOCK ->
    ok (until_unlocked k) /\ puts_lock (until_unlocked k) = SPINLOCK_UNLOCK /\ con_mem (until_unlocked k) = con_mem k }.

(** Below the threshold, a line says neither where it is from nor in which thread. *)
Definition short_line (level : Z) (level_ok : bool) : bool := level_ok && (level <? long_prefix_threshold).
Definition header_of (level : Z) (level_ok : bool) (lc : thread_core_local) (func : option (list Z)) (line : Z) : list Z :=
  if short_line level level_ok then trace_header level level_ok None None line
  else trace_header level level_ok (if curr_thread lc >=? 0 then Some (curr_thread lc) else None) func line.

Lemma with_buf_same m1 s L : con_mem (world s) = put_bytes buf_at L m1 -> with_buf m1 L s = s.
Proof. intros H. unfold with_buf. rewrite <- H. destruct s as [? ? ? ? ? ? ? ? k]. by destruct k. Qed.

(** The end of a trace: the message is cut off, its line is ended, and printed. *)
Lemma message_run s m1 function line level level_ok fmt ap lc func t x s' ch r : trace_call s m1 function line level level_ok fmt ap lc func t ->
  printed m1 x s s' -> len x < 256 -> x = ch :: r -> ch <> 10 -> Forall (fun b => b <> 0) x ->
  wp (res <- in_con (in_mem (vsnprintk (buf_at + len x) (u32 (MAX_PRINT_SIZE - len x)) fmt ap));;
      let boffs := if res >? 0 then u32 (len x + res) else len x in
      in_con (in_mem (end_line boffs));;; trace_ext_puts mmu_on c until_unlocked buf_at) s'
    (fun _ s' => exists B k', length B = 256%nat /\ s' = put_con k' s /\
      said ok out (when_open mmu_on until_unlocked (world (with_buf m1 B s)))
        ((if contended mmu_on (world s) then [42] else []) ++ line_of (x ++ t)) k').
Proof.
  intros [Hcore _ Hroom _ _ _ (l & rest & Hfmt & Hp & Hr) [Ht Hnz] _ Hok Hother] (R & HR & Hxb & HRb & ->) Hx Hhd Hch Hxnz.
  destruct (vsnprintk_at m1 Hroom x R fmt l ap t rest HR Hxb HRb Hfmt Hp Hr Ht) as [Hv Htb].
  apply wp_bind. eapply wp_intro; [apply in_con_mem, Hv|]. cbn zeta.
  assert (Hoffs : (if len t >? 0 then u32 (len x + len t) else len x) = len (x ++ t)).
  { rewrite length_app, Nat2Z.inj_add. destruct (Z.gtb_spec (len t) 0); [|lia]. apply u32_small. unfold is_u32. lia. }
  rewrite Hoffs. destruct R as [|b0 R]; [cbn in HR; lia|]. set (R0 := b0 :: R) in *.
  assert (HB : length (x ++ cut R0 t) = 256%nat) by (rewrite length_app, cut_length; lia).
  assert (HT : exists T, x ++ cut R0 t = take 254 (x ++ t) ++ T).
  { exists (drop 254 (take 255 (x ++ t)) ++ 0 :: drop (S (length t)) R0).
    change (cut R0 t) with (take (length R0 - 1) t ++ 0 :: drop (S (length t)) R0). rewrite !app_assoc. f_equal.
    assert (E : take 255 (x ++ t) = x ++ take (length R0 - 1) t) by (rewrite take_app, (take_ge x) by lia; do 2 f_equal; lia).
    rewrite <- E. rewrite <- (take_drop 254 (take 255 (x ++ t))) at 1. f_equal. by rewrite take_take. }
  destruct HT as [T HT].
  destruct (end_line_run m1 (x ++ t) _ T ch (r ++ t) ltac:(by rewrite Hhd) Hch HB HT ltac:(rewrite length_app; lia)) as (T' & HT' & He).
  apply wp_bind. eapply wp_intro; [apply in_con_mem, He|]. set (B := line_of (x ++ t) ++ [0] ++ T') in *.
  assert (Hw : ok (world (with_buf m1 B s))) by (by apply ok_mem).
  eapply wp_mono; [|apply (trace_ext_puts_run ok out mmu_on c until_unlocked _ buf_at (line_of (x ++ t)))].
  - intros _ s2 (k' & -> & Hs). exists B, k'. split_and!; [done|done|exact Hs].
  - by apply Hcore.
  - assert (Hmem : con_mem (when_open mmu_on until_unlocked (world (with_buf m1 B s))) = put_bytes buf_at B m1 /\
      ok (when_open mmu_on until_unlocked (world (with_buf m1 B s))) /\
      (mmu_on = true -> puts_lock (when_open mmu_on until_unlocked (world (with_buf m1 B s))) = SPINLOCK_UNLOCK)).
    { unfold when_open, contended. destruct mmu_on; cbn [andb]; [|by split_and!].
      destruct (Z.eqb_spec (puts_lock (world (with_buf m1 B s))) SPINLOCK_UNLOCK) as [E|E]; cbn [negb]; [by split_and!|].
      destruct (Hother _ Hw E) as (H1 & H2 & H3). rewrite H3. by split_and!. }
    destruct Hmem as (H1 & H2 & H3). split; [done|done| |].
    + rewrite H1. split; [|apply line_of_Forall; [by apply Forall_app|lia]].
      pose proof (put_at m1 buf_at B) as Hat. unfold B in Hat at 2. rewrite app_assoc in Hat. by apply at_mem_app in Hat as [Hat _].
    + apply line_of_Forall; [by apply Forall_app|unfold is_byte; lia].
Qed.

Lemma level_placed m level level_ok : trace_strings m -> placed m (trace_level_to_string level level_ok) (level_text level level_ok).
Proof.
  intros H. unfold trace_level_to_string, level_text, level_index, TRACE_MIN, TRACE_MAX. destruct level_ok; cbn [negb]; [|apply (ts_message m H)].
  destruct (Z.geb_spec level 1), (Z.leb_spec level 4); cbn [andb]; try apply (ts_levels m H 0); try lia.
  rewrite <- (Z2Nat.id level) at 1 by lia. apply (ts_levels m H). lia.
Qed.

Lemma header_nonzero m level level_ok id func line : trace_strings m -> match func with Some f => exists p, placed m p f | None => True end ->
  match id with Some i => 0 <= i | None => True end -> 0 <= line -> Forall (fun b => b <> 0) (trace_header level level_ok id func line).
Proof.
  intros Hs Hf Hi Hl. unfold trace_header. repeat (apply Forall_app; split).
  - eapply placed_nonzero. by apply level_placed.
  - by repeat constructor.
  - destruct id as [i|]; [|constructor]. repeat (apply Forall_app; split); [by repeat constructor|apply number_text_nonzero; lia|by repeat constructor].
  - by repeat constructor.
  - destruct func as [f|]; [|constructor]. destruct Hf as [p Hp].
    repeat (apply Forall_app; split); [by eapply placed_nonzero|by repeat constructor|apply number_text_nonzero; lia|by repeat constructor].
  - by repeat constructor.
Qed.

(** The strings of the formats. *)
Lemma plain_pieces_ok : pieces_ok true level_format /\ pieces_ok true id_format /\ pieces_ok true prefix_format /\ pieces_ok true func_format /\ pieces_ok true [Lit 32].
Proof.
  unfold level_format, id_format, prefix_format, func_format, no_flags. cbn [pieces_ok]. unfold dir_ok, conv_ok. cbn. by split_and!; try lia.
Qed.

(** What follows the prefix: the place in the source, a space and the message. *)
Lemma source_place_run s m1 function line level level_ok fmt ap lc func t x s' ch r (f : option (list Z)) (fn : Z) :
  trace_call s m1 function line level level_ok fmt ap lc func t ->
  printed m1 x s s' -> x = ch :: r -> ch <> 10 -> Forall (fun b => b <> 0) x ->
  match f with Some f => fn <> 0 /\ placed m1 fn f | None => fn = 0 end ->
  let y := match f with Some f => f ++ [58] ++ decimal line ++ [58] | None => [] end ++ [32] in len (x ++ y) < 256 ->
  wp (let with_func next := if negb (fn =? 0) then printing (len x) fmt_func_at [VWord fn; VWord line] next else next (len x) in
      with_func (fun boffs =>
      printing boffs fmt_space_at [] (fun boffs =>
      res <- in_con (in_mem (vsnprintk (buf_at + boffs) (u32 (MAX_PRINT_SIZE - boffs)) fmt ap));;
      let boffs := if res >? 0 then u32 (boffs + res) else boffs in
      in_con (in_mem (end_line boffs));;; trace_ext_puts mmu_on c until_unlocked buf_at))) s'
    (fun _ s' => exists B k', length B = 256%nat /\ s' = put_con k' s /\
      said ok out (when_open mmu_on until_unlocked (world (with_buf m1 B s)))
        ((if contended mmu_on (world s) then [42] else []) ++ line_of ((x ++ y) ++ t)) k').
Proof.
  intros Hcall Hpr Hx Hch Hnz Hf y Hfit. cbn zeta beta. pose proof Hcall as [_ _ Hroom Hstr _ Hline _ _ _ _ _].
  destruct plain_pieces_ok as (_ & _ & _ & Hp4 & Hp5).
  assert (Hspace : forall z s2, printed m1 z s s2 -> z ++ [32] = x ++ y -> wp (printing (len z) fmt_space_at [] (fun boffs =>
      res <- in_con (in_mem (vsnprintk (buf_at + boffs) (u32 (MAX_PRINT_SIZE - boffs)) fmt ap));;
      let boffs := if res >? 0 then u32 (boffs + res) else boffs in
      in_con (in_mem (end_line boffs));;; trace_ext_puts mmu_on c until_unlocked buf_at)) s2 (fun _ s' => exists B k', length B = 256%nat /\ s' = put_con k' s /\
      said ok out (when_open mmu_on until_unlocked (world (with_buf m1 B s)))
        ((if contended mmu_on (world s) then [42] else []) ++ line_of ((x ++ y) ++ t)) k')).
  { intros z s2 Hz Hzy. eapply (printing_run m1 Hroom z _ [Lit 32] [] [32] []); [exact Hz|apply (ts_space m1 Hstr)|done|done|by rewrite Hzy|].
    intros s3 H3. rewrite Hzy in *. eapply message_run; [done|exact H3|done|by rewrite Hx|done|].
    apply Forall_app. split; [done|]. unfold y. apply Forall_app. split; [|by repeat constructor]. destruct f as [f|]; [|constructor]. destruct Hf as [_ Hf].
    repeat (apply Forall_app; split); [by eapply placed_nonzero|by repeat constructor|apply number_text_nonzero; lia|by repeat constructor]. }
  destruct f as [f|].
  - destruct Hf as [Hfn Hf]. rewrite (proj2 (Z.eqb_neq fn 0)) by done. cbn [negb].
    eapply (printing_run m1 Hroom x _ func_format _ (f ++ [58] ++ decimal line ++ [58]) []); [exact Hpr|apply (ts_func m1 Hstr)|done| | |].
    + unfold func_format. apply (render_s m1 _ _ [VWord line] [] ([58] ++ decimal line ++ [58])); [|done].
      apply render_lit, (render_number m1 _ [Lit 58] [] [] [58] eq_refl Cd 10 line); [unfold is_u32; lia|right; split_and!; [done|done|lia]].
    + unfold y in Hfit. rewrite !length_app in *. cbn in *. lia.
    + intros s2 H2. apply Hspace; [done|]. unfold y. by rewrite <- app_assoc.
  - rewrite Hf. cbn [Z.eqb negb]. by apply Hspace.
Qed.

(** What follows the thread. *)
Lemma trace_prefix_run s m1 function line level level_ok fmt ap lc func t z s' ch r (f : option (list Z)) (fn : Z) :
  trace_call s m1 function line level level_ok fmt ap lc func t ->
  printed m1 z s s' -> z = ch :: r -> ch <> 10 -> Forall (fun b => b <> 0) z ->
  match f with Some f => fn <> 0 /\ placed m1 fn f | None => fn = 0 end ->
  let y := chars "TEE-CORE:" ++ match f with Some f => f ++ [58] ++ decimal line ++ [58] | None => [] end ++ [32] in len (z ++ y) < 256 ->
  wp (printing (len z) fmt_prefix_at [VWord trace_ext_prefix_at] (fun boffs =>
      let with_func next := if negb (fn =? 0) then printing boffs fmt_func_at [VWord fn; VWord line] next else next boffs in
      with_func (fun boffs => printing boffs fmt_space_at [] (fun boffs =>
        res <- in_con (in_mem (vsnprintk (buf_at + boffs) (u32 (MAX_PRINT_SIZE - boffs)) fmt ap));;
        let boffs := if res >? 0 then u32 (boffs + res) else boffs in
        in_con (in_mem (end_line boffs));;; trace_ext_puts mmu_on c until_unlocked buf_at)))) s'
    (fun _ s' => exists B k', length B = 256%nat /\ s' = put_con k' s /\
      said ok out (when_open mmu_on until_unlocked (world (with_buf m1 B s)))
        ((if contended mmu_on (world s) then [42] else []) ++ line_of ((z ++ y) ++ t)) k').
Proof.
  intros Hcall Hpr Hz Hch Hnz Hf y Hfit. pose proof Hcall as [_ _ Hroom Hstr _ _ _ _ _ _ _].
  destruct plain_pieces_ok as (_ & _ & Hp3 & _ & _). unfold y in *. rewrite app_assoc in Hfit |- *.
  eapply (printing_run m1 Hroom z _ prefix_format _ (chars "TEE-CORE:") []); [exact Hpr|apply (ts_prefix m1 Hstr)|done| | |].
  - unfold prefix_format. by apply (render_s m1 _ [Lit 58] [] [] [58] eq_refl _ _ (ts_core m1 Hstr)).
  - rewrite length_app in Hfit. lia.
  - intros s3 H3. eapply (source_place_run s m1 function line level level_ok fmt ap lc func t _ s3 ch (r ++ chars "TEE-CORE:") f fn Hcall H3); [by rewrite Hz|done| |done|exact Hfit].
    apply Forall_app. by split; [|repeat constructor].
Qed.

Lemma header_shape level level_ok lc func line : let short := short_line level level_ok in
  let id := if short then None else if curr_thread lc >=? 0 then Some (curr_thread lc) else None in
  header_of level level_ok lc func line = trace_header level level_ok id (if short then None else func) line /\
  (length (header_of level level_ok lc func line) <= length (trace_header level level_ok (Some (curr_thread lc)) func line))%nat.
Proof.
  cbn zeta. unfold header_of. destruct (short_line level level_ok); (split; [done|]); unfold trace_header; rewrite !length_app;
    destruct func, (curr_thread lc >=? 0); rewrite ?length_app; cbn [length]; lia.
Qed.

(** C10: A trace is one line.  Above the trace level, [trace_printf] does nothing.
    Otherwise, with a prefix that fits in the buffer and for every message that
    printf can print (of any length, with any newlines at its end), it ends, and
    the console gets, under its lock, one line: the level, the thread, the place in
    the source as far as the level asks for them, and the message, cut off after
    254 characters, without the newlines at its end and with one newline.  Apart
    from the buffer on the stack and the chip nothing changes. *)
Theorem trace_printf_line s m1 function line level level_ok fmt ap lc func t :
  trace_call s m1 function line level level_ok fmt ap lc func t ->
  if level_ok && (level >? trace_level (world s)) then
    trace_printf mmu_on c until_unlocked function line level level_ok fmt ap s = Ret tt s
  else wp (trace_printf mmu_on c until_unlocked function line level level_ok fmt ap) s
    (fun _ s' => exists B k', length B = 256%nat /\ s' = put_con k' s /\
      said ok out (when_open mmu_on until_unlocked (world (with_buf m1 B s)))
        ((if contended mmu_on (world s) then [42] else []) ++ line_of (header_of level level_ok lc func line ++ t)) k').
Proof.
  intros Hcall. pose proof Hcall as [((Hc & r & lc' & Hr & Hu & Hlc' & H0) & Hlc & Htid) (L & HL & HLl & HLb) Hroom Hstr Hfunc Hline _ _ Hfits _ _].
  assert (lc' = lc) as -> by congruence. destruct plain_pieces_ok as (Hp1 & Hp2 & Hp3 & _ & _).
  unfold trace_printf. destruct (level_ok && (level >? trace_level (world s))) eqn:Elev.
  { rewrite (bind_run _ _ _ _ _ (in_con_gets trace_level s)). by rewrite Elev. }
  apply wp_bind. eapply wp_intro; [apply in_con_gets|]. rewrite Elev.
  assert (Hpr0 : printed m1 [] s s).
  { exists L. split_and!; [cbn; lia|done|done|]. symmetry. by apply with_buf_same. }
  destruct (level_text_head level level_ok) as (ch & r0 & Hhd & Hch). set (lv := level_text level level_ok) in *.
  pose proof (level_placed m1 level level_ok Hstr) as Hlv.
  eapply (printing_run m1 Hroom [] _ level_format _ (lv ++ [32]) []); [exact Hpr0|apply (ts_level m1 Hstr)|done| | |].
  { unfold level_format. by apply (render_s m1 _ [Lit 32] [] [] [32] eq_refl). }
  { unfold trace_header in Hfits. fold lv in Hfits. rewrite !length_app in *. cbn in *. lia. }
  intros s1 H1. cbn [app] in H1 |- *. cbn zeta. fold (short_line level level_ok).
  destruct (header_shape level level_ok lc func line) as [Hhead Hlen]. set (short := short_line level level_ok) in *.
  set (id := if short then None else if curr_thread lc >=? 0 then Some (curr_thread lc) else None) in *.
  assert (Hget : (if short then ret (-1) else trace_ext_get_thread_id c) s1 = Ret (if short then -1 else curr_thread lc) s1).
  { destruct short; [done|]. destruct H1 as (R & _ & _ & _ & ->). by apply (get_id_run _ r). }
  apply wp_bind. eapply wp_intro; [exact Hget|].
  set (func' := if short then None else func) in *. set (fn := if short then 0 else function).
  assert (Hfn : match func' with Some f => fn <> 0 /\ placed m1 fn f | None => fn = 0 end).
  { unfold func', fn. destruct short; [done|]. destruct func as [f|]; [|done]. split; [|done]. destruct Hfunc as [? _]. lia. }
  set (idt := match id with Some i => chars "[0x" ++ number_text 16 false i ++ chars "] " | None => [] end).
  assert (Hnz : Forall (fun b => b <> 0) (trace_header level level_ok id func' line)).
  { apply (header_nonzero m1); [done| | |lia].
    - destruct func' as [f|]; [|done]. exists fn. apply Hfn.
    - unfold id. destruct short; [done|]. by destruct (Z.geb_spec (curr_thread lc) 0). }
  rewrite Hhead in Hlen |- *. assert (Hfit : len (trace_header level level_ok id func' line) < 256) by (clear -Hlen Hfits; lia).
  clear Hhead Hlen. unfold trace_header in Hnz, Hfit |- *. fold lv idt in Hnz, Hfit |- *.
  set (y := chars "TEE-CORE:" ++ _) in *.
  assert (Hx : forall z, z = (lv ++ [32]) ++ idt -> lv ++ [32] ++ idt ++ y = z ++ y) by (intros z ->; by rewrite <- !app_assoc).
  rewrite (Hx _ eq_refl) in Hnz, Hfit |- *.
  apply Forall_app in Hnz as [Hnz _].
  assert (Hz : ((lv ++ [32]) ++ idt) = ch :: r0 ++ [32] ++ idt) by (rewrite Hhd, <- app_assoc; done).
  pose proof (fun s2 Hs2 => trace_prefix_run s m1 function line level level_ok fmt ap lc func t _ s2 ch (r0 ++ [32] ++ idt) func' fn Hcall Hs2 Hz Hch Hnz Hfn Hfit) as Hrest.
  cbn zeta in Hrest. fold y in Hrest. unfold idt, id in Hrest, Hfit |- *. destruct short; [cbn [Z.geb Z.compare]; rewrite app_nil_r in Hrest |- *; by apply Hrest|].
  destruct (Z.geb_spec (curr_thread lc) 0) as [Hge|Hge]; [|rewrite app_nil_r in Hrest |- *; by apply Hrest].
  eapply (printing_run m1 Hroom _ _ id_format _ (chars "[0x" ++ number_text 16 false (curr_thread lc) ++ chars "] ") []); [exact H1|apply (ts_id m1 Hstr)|done| | |done].
  - unfold id_format. do 3 apply render_lit. apply (render_number m1 _ [Lit 93; Lit 32] [] [] [93; 32] eq_refl Cx 16); [unfold is_u32; lia|by left].
  - rewrite length_app in Hfit. lia.
Qed.
End trace_printf.

(** ** A concrete board: its UART is busy for one look after every byte *)

Definition uart_sim : Type := list Z * bool.
Definition SIM_BASE : Z := 0x2020000.
#[local] Instance uart_sim_platform : Platform uart_sim := {
  io_read n a p := if a =? SIM_BASE + UTS then (if p.2 then 0 else UTS_TXEMPTY, (p.1, false)) else (0, p);
  io_write n a v p := if a =? SIM_BASE + UTXD then (p.1 ++ [u8 v], true) else p;
  heap_alloc n p := None;
  heap_free n p := p;
  par_of_va va p := va;
}.
#[local] Instance uart_sim_device : UartDevice uart_sim SIM_BASE 3.
Proof.
  unshelve refine {| sent := fst |}.
  - done.
  - done.
  - intros [l b]. exists (if b then 1%nat else 0%nat). destruct b; (split; [lia|by vm_compute]).
Defined.

Definition trace_board : TraceStatics := {|
  buf_at := 0x2000; lvl_strs_at := 0x1100; message_at := 0x1060; fmt_level_at := 0x1000; fmt_id_at := 0x1010; fmt_prefix_at := 0x1020;
  fmt_func_at := 0x1030; fmt_space_at := 0x1040; trace_ext_prefix_at := 0x1050; long_prefix_threshold := 3; sbuf_at := 0x2100;
  fmt_addr_at := 0x1070; fmt_byte_at := 0x1080; fmt_gap_at := 0x1090; fmt_str_at := 0x10a0; hex_error_at := 0x10b0; dhex_dump_at := 0x10c0 |}.
Definition in_words (l : list Z) : list Z := l ++ replicate (4 - length l mod 4) 0.
Definition trace_rodata : bmem := foldr (fun x m => put_bytes x.1 (in_words x.2) m) ∅
  [(0x1000, chars "%s "); (0x1010, chars "[0x%x] "); (0x1020, chars "%s:"); (0x1030, chars "%s:%d:"); (0x1040, chars " ");
   (0x1050, chars "TEE-CORE"); (0x1060, chars "MESSAGE:"); (0x1100, concat (map (fun l => l ++ [0]) level_texts));
   (0x1200, chars "main"); (0x1300, chars "val %d" ++ [10; 10])].

(** Core 1 of the board runs thread 1; another core has the lock of the console. *)
Definition trace_console : console uart_sim := mk_console
  (set_k_mmu (MmuData [TeeMmapRegion MEM_AREA_IO_SEC 0x100000 0x02000000 0x02000000 0x00200000 0] ∅ ∅ 0) (kernel_init ([], false)))
  (Some console_data) [mk_pa_va SIM_BASE 0] SPINLOCK_LOCK TRACE_DEBUG (put_bytes 0x2000 (replicate 256 0xee) trace_rodata).
Definition tracing : tstate (console uart_sim) := mk_tstate [] [mk_local 0 (-1) 0; mk_local 0 1 0; mk_local 0 (-1) 0; mk_local 0 (-1) 0]
  (replicate 4 (mk_core_regs 0x13 0 0 0 0)) 0 board_handlers [] [] [] trace_console.
Definition opened (k : console uart_sim) : console uart_sim := set_puts_lock SPINLOCK_UNLOCK k.
#[local] Existing Instance board_threads.
#[local] Existing Instance board_debug.
#[local] Instance trace_build : StrBuild := {| small_code := false |}.
#[local] Existing Instance trace_board.
#[local] Instance sim_ops : SerialOps uart_sim := imx_uart_ops true 3.
#[local] Instance sim_prints : SerialPrints uart_sim (uart_ok true SIM_BASE console_data) (uart_sent 3 SIM_BASE) := uart_prints true 3 SIM_BASE console_data.

#[local] Ltac sim_placed := split; [done|]; vm_compute; by repeat constructor.
Lemma sim_strings : trace_strings trace_rodata.
Proof.
  split; [vm_compute; by repeat split..|sim_placed|sim_placed|].
  intros i Hi. do 5 (destruct i as [|i]; [sim_placed|]). lia.
Qed.
Lemma sim_room : trace_room trace_rodata.
Proof.
  split.
  - done.
  - intros a Ha. assert (H : bool_decide (map_Forall (fun x _ => ~ (buf_at <= x < buf_at + 256)) trace_rodata) = true) by (by vm_compute).
    apply bool_decide_eq_true in H. destruct (trace_rodata !! a) as [b|] eqn:E; [|done]. by destruct (H a b E).
  - apply bytes_ok_check. by vm_compute.
  - apply word_closed_check. by vm_compute.
Qed.
Lemma sim_call : trace_call (uart_ok true SIM_BASE console_data) 1 opened tracing trace_rodata 0x1200 42 TRACE_DEBUG true 0x1300 [VWord (2 ^ 32 - 7)]
  (mk_local 0 1 0) (Some (chars "main")) (chars "val -7" ++ [10; 10]).
Proof.
  split.
  - split_and!; [|done|done]. split; [cbn; lia|]. by exists (mk_core_regs 0x13 0 0 0 0), (mk_local 0 1 0).
  - exists (replicate 256 0xee). split_and!; [done|done|]. by apply Forall_replicate.
  - apply sim_room.
  - apply sim_strings.
  - split; [done|]. vm_compute. by repeat constructor.
  - done.
  - exists (map Lit (chars "val ") ++ [no_flags Cd; Lit 10; Lit 10]), []. split_and!; [vm_compute; by repeat split| |by vm_compute].
    cbn. unfold dir_ok, conv_ok. cbn. by split_and!; try lia.
  - split; [done|]. by repeat constructor.
  - by vm_compute.
  - split; [by intros i [= <-]|]. exists (mk_pa_va SIM_BASE 0). split_and!; [done|done|done|]. right. split; [done|by vm_compute].
  - intros k Hk _. split_and!; [exact Hk|done|done].
Qed.
Lemma trace_printf_line_witness :
  wp (trace_printf true 1 opened 0x1200 42 TRACE_DEBUG true 0x1300 [VWord (2 ^ 32 - 7)]) tracing
    (fun _ s' => uart_sent 3 SIM_BASE (world s') = chars "*DEBUG:   [0x1] TEE-CORE:main:42: val -7" ++ [13; 10]).
Proof.
  pose proof (trace_printf_line _ _ true 1 opened _ _ _ _ _ _ _ _ _ _ _ sim_call) as H.
  refine (wp_mono _ _ _ _ _ H). intros ? s' HB. destruct HB as (B & k' & _ & -> & _ & _ & Ho). etrans; [exact Ho|]. vm_compute. reflexivity.
Defined.

(** The dump of 18 bytes: a full line of 16 and a line with the rest. *)
Definition dump_rodata : bmem := foldr (fun x m => put_bytes x.1 (in_words x.2) m) trace_rodata
  [(0x1070, chars "%0*x  "); (0x1080, chars "%02x "); (0x1090, chars " "); (0x10a0, chars "%s"); (0x1400, seqZ 0x60 18)].
Definition dumping : tstate (console uart_sim) :=
  put_con (set_con_mem (put_bytes 0x2000 (replicate 512 0) dump_rodata) trace_console) tracing.
Example dhex_dump_lines :
  match dhex_dump true 1 opened 0x1200 42 TRACE_INFO 0x1400 18 dumping with
  | Ret _ s => uart_sent 3 SIM_BASE (world s) =
      chars "*INFO:    TEE-CORE: 00001400  60 61 62 63 64 65 66 67  68 69 6a 6b 6c 6d 6e 6f " ++ [13; 10] ++
      chars "INFO:    TEE-CORE: 00001410  70 71 " ++ [13; 10]
  | _ => False
  end.
Proof. vm_compute. reflexivity. Qed.
