(* ===== verification/SepLogic.v ===== *)
(** * Separation logic for routines on a memory of words

    The memory allocator threads its headers and its list of free blocks through
    the memory it hands out.  Its routines run on a partial map from addresses
    to words, and their specifications say which words they own.  The
    assertions are the upward-closed predicates on such maps; they form an
    affine logic of bunched implications, so that the proof mode of Iris
    applies to them.  A triple is the entailment [P ⊢ wpm m Q]: from every
    memory with a part that satisfies [P], [m] returns, and what it changes lies
    in that part. *)

From stdpp Require Import prelude gmap list.
From Stdlib Require Import ZArith Lia.
From iris.proofmode Require Import proofmode.
From S2P Require Import Prelude.
#[local] Open Scope Z_scope.

(** ** Memory *)

Abbreviation memory := (gmap Z Z).

(** A load and a store of a word; an address without memory is a fault. *)
Definition rd (a : Z) : M memory Z := fun m =>
  match m !! a with Some v => Ret v m | None => Fault end.
Definition wr (a v : Z) : M memory unit := fun m =>
  match m !! a with Some _ => Ret tt (<[a := v]> m) | None => Fault end.

(** ** Assertions *)

Record mprop := MProp {
  holds : memory -> Prop;
  holds_mono m1 m2 : m1 ⊆ m2 -> holds m1 -> holds m2 }.

Inductive mequiv (P Q : mprop) : Prop := MEquiv : (forall m, holds P m <-> holds Q m) -> mequiv P Q.
#[global] Instance mprop_equiv : Equiv mprop := mequiv.
#[global] Instance mprop_equivalence : Equivalence (≡@{mprop}).
Proof.
  split.
  - by intros P; constructor.
  - intros P Q [H]. by constructor.
  - intros P Q R [H1] [H2]. constructor. intros m. by rw H1.
Qed.
Canonical Structure mpropO := discreteO mprop.

Inductive mentails (P Q : mprop) : Prop := MEntails : (forall m, holds P m -> holds Q m) -> mentails P Q.

Program Definition m_pure (φ : Prop) : mprop := MProp (fun _ => φ) _.
Next Obligation. done. Qed.
Definition m_emp : mprop := m_pure True.
Program Definition m_and (P Q : mprop) : mprop := MProp (fun m => holds P m /\ holds Q m) _.
Next Obligation. intros P Q m1 m2 Hm [HP HQ]. split; by eapply holds_mono. Qed.
Program Definition m_or (P Q : mprop) : mprop := MProp (fun m => holds P m \/ holds Q m) _.
Next Obligation. intros P Q m1 m2 Hm [H|H]; [left|right]; by eapply holds_mono. Qed.
Program Definition m_impl (P Q : mprop) : mprop :=
  MProp (fun m => forall m', m ⊆ m' -> holds P m' -> holds Q m') _.
Next Obligation. intros P Q m1 m2 Hm H m' Hm'. apply H. by etrans. Qed.
Program Definition m_forall (A : Type) (Φ : A -> mprop) : mprop := MProp (fun m => forall x, holds (Φ x) m) _.
Next Obligation. intros A Φ m1 m2 Hm H x. by eapply holds_mono. Qed.
Program Definition m_exist (A : Type) (Φ : A -> mprop) : mprop := MProp (fun m => exists x, holds (Φ x) m) _.
Next Obligation. intros A Φ m1 m2 Hm [x H]. exists x. by eapply holds_mono. Qed.
(** The two halves of the memory do not overlap. *)
Program Definition m_sep (P Q : mprop) : mprop :=
  MProp (fun m => exists m1 m2, m1 ##ₘ m2 /\ m1 ∪ m2 ⊆ m /\ holds P m1 /\ holds Q m2) _.
Next Obligation. intros P Q m m' Hm (m1 & m2 & Hd & Hu & HP & HQ). exists m1, m2. split_and!; [done| |done..]. by etrans. Qed.
Program Definition m_wand (P Q : mprop) : mprop :=
  MProp (fun m => forall m', m ##ₘ m' -> holds P m' -> holds Q (m ∪ m')) _.
Next Obligation.
  intros P Q m1 m2 Hm H m' Hd HP. eapply holds_mono; [|apply H; [|exact HP]].
  - by apply map_union_mono_r.
  - by eapply map_disjoint_weaken_l.
Qed.
Definition m_persistently (P : mprop) : mprop := m_pure (mentails m_emp P).

Lemma sub_split (m1 m2 : memory) : m1 ⊆ m2 -> exists f, m1 ##ₘ f /\ m2 = m1 ∪ f.
Proof. intros H. exists (m2 ∖ m1). split; [by apply map_disjoint_difference_r1|by rw map_difference_union]. Qed.

Lemma m_bi_mixin :
  BiMixin mentails m_emp m_pure m_and m_or m_impl m_forall m_exist m_sep m_wand.
Proof.
  split.
  - split; [by intros P; constructor|]. intros P Q R [H1] [H2]. constructor. auto.
  - intros P Q. split; [intros [H]; split; constructor; intros m; by apply H|].
    intros [[H1] [H2]]. constructor. split; auto.
  - intros n φ ψ H. by constructor.
  - intros n P P' [H] Q Q' [H']. constructor. intros m. cbn. by rw H H'.
  - intros n P P' [H] Q Q' [H']. constructor. intros m. cbn. by rw H H'.
  - intros n P P' [H] Q Q' [H']. constructor. intros m. cbn. setoid_rewrite H. by setoid_rewrite H'.
  - intros A n Φ Ψ H. constructor. intros m. cbn. split; intros H' x; destruct (H x) as [Hx]; by apply Hx.
  - intros A n Φ Ψ H. constructor. intros m. cbn. split; intros [x Hx]; exists x; destruct (H x) as [Hx']; by apply Hx'.
  - intros n P P' [H] Q Q' [H']. constructor. intros m. cbn. setoid_rewrite H. by setoid_rewrite H'.
  - intros n P P' [H] Q Q' [H']. constructor. intros m. cbn. setoid_rewrite H. by setoid_rewrite H'.
  - intros φ P H. by constructor.
  - intros φ P H. constructor. intros m Hm. destruct (H Hm) as [H']. by apply H'.
  - intros P Q. constructor. by intros m [].
  - intros P Q. constructor. by intros m [].
  - intros P Q R [H1] [H2]. constructor. intros m Hm. split; auto.
  - intros P Q. constructor. by left.
  - intros P Q. constructor. by right.
  - intros P Q R [H1] [H2]. constructor. intros m [Hm|Hm]; auto.
  - intros P Q R [H]. constructor. intros m HP m' Hm HQ. apply H. split; [by eapply holds_mono|done].
  - intros P Q R [H]. constructor. intros m [HP HQ]. by apply (H m HP m).
  - intros A P Ψ H. constructor. intros m HP a. by apply (H a).
  - intros A Ψ a. constructor. intros m H. apply H.
  - intros A Ψ a. constructor. intros m H. by exists a.
  - intros A Φ Q H. constructor. intros m [a Ha]. by apply (H a).
  - intros P P' Q Q' [H1] [H2]. constructor. intros m (m1 & m2 & ? & ? & ? & ?). exists m1, m2. split_and!; auto.
  - intros P. constructor. intros m H. exists ∅, m. split_and!; [apply map_disjoint_empty_l|by rw map_empty_union|done..].
  - intros P. constructor. intros m (m1 & m2 & Hd & Hu & _ & H). eapply holds_mono; [|done].
    etrans; [|done]. by apply map_union_subseteq_r.
  - intros P Q. constructor. intros m (m1 & m2 & Hd & Hu & HP & HQ). exists m2, m1.
    split_and!; [done| |done..]. by rw map_union_comm.
  - intros P Q R. constructor. intros m (m12 & m3 & Hd & Hu & (m1 & m2 & Hd' & Hu' & HP & HQ) & HR).
    assert (Hd3 : m1 ∪ m2 ##ₘ m3) by (by eapply map_disjoint_weaken_l).
    apply map_disjoint_union_l in Hd3 as [Hd13 Hd23].
    exists m1, (m2 ∪ m3). split_and!; [by apply map_disjoint_union_r| |done|by exists m2, m3].
    rw (assoc_L (∪)). etrans; [|done]. by apply map_union_mono_r.
  - intros P Q R [H]. constructor. intros m HP m' Hd HQ. apply H. by exists m, m'.
  - intros P Q R [H]. constructor. intros m (m1 & m2 & Hd & Hu & HP & HQ).
    eapply holds_mono; [done|]. by apply (H m1 HP m2).
Qed.

Lemma m_persistently_mixin : BiPersistentlyMixin mentails m_emp m_and m_exist m_sep m_persistently.
Proof.
  eapply bi_persistently_mixin_discrete; [|
    |intros P; reflexivity|exact m_bi_mixin].
  - by intros n P Q H.
  - intros A Φ [H]. destruct (H ∅ I) as [a Ha]. exists a. constructor. intros m _.
    eapply holds_mono; [|exact Ha]. apply map_empty_subseteq.
Qed.
Lemma m_later_mixin :
  BiLaterMixin mentails m_pure m_or m_impl m_forall m_exist m_sep m_persistently (fun P => P).
Proof. eapply bi_later_mixin_id; [done|exact m_bi_mixin]. Qed.

Canonical Structure mpropI : bi :=
  {| bi_ofe_mixin := ofe_mixin_of mprop; bi_bi_mixin := m_bi_mixin;
     bi_bi_persistently_mixin := m_persistently_mixin; bi_bi_later_mixin := m_later_mixin |}.

#[global] Instance mprop_affine : BiAffine mpropI | 0.
Proof. intros P. by constructor. Qed.
#[global] Instance mprop_pure_forall : BiPureForall mpropI.
Proof. intros A φ. by constructor. Qed.

(** ** Words of memory *)

Program Definition points_to (a v : Z) : mpropI := MProp (fun m => m !! a = Some v) _.
Next Obligation. intros a v m1 m2 Hm H. cbn in *. by eapply lookup_weaken. Qed.
Notation "a ↦ v" := (points_to a v) (at level 20, format "a  ↦  v") : bi_scope.

Lemma points_to_ne a b v w : a ↦ v ∗ b ↦ w ⊢ ⌜a <> b⌝.
Proof.
  constructor. intros m (m1 & m2 & Hd & Hu & H1 & H2) ->.
  by apply (map_disjoint_spec m1 m2) with (i := b) (x := v) (y := w) in Hd.
Qed.

(** The word at an address, whatever it is. *)
Definition some_word (a : Z) : mpropI := (∃ v, a ↦ v)%I.

(** Owned words are counted by the memory. *)
Definition owns_at_least (k : nat) (P : mpropI) : Prop := forall m, holds P m -> (k <= size m)%nat.
Lemma owns_0 P : owns_at_least 0 P.
Proof. intros m _. lia. Qed.
Lemma owns_word a v : owns_at_least 1 (a ↦ v)%I.
Proof.
  intros m H. cbn in H. destruct (decide (size m = 0%nat)) as [E|]; [|lia].
  apply map_size_empty_inv in E. subst m. by rw lookup_empty in H.
Qed.
Lemma owns_sep j k P Q : owns_at_least j P -> owns_at_least k Q -> owns_at_least (j + k) (P ∗ Q)%I.
Proof.
  intros HP HQ m (m1 & m2 & Hd & Hu & H1 & H2). specialize (HP _ H1). specialize (HQ _ H2).
  apply map_subseteq_size in Hu. rw map_size_disj_union in Hu; [lia|done].
Qed.
Lemma owns_mono k P Q : (Q ⊢ P) -> owns_at_least k P -> owns_at_least k Q.
Proof. intros [H] HP m Hm. by apply HP, H. Qed.

(** ** Triples *)

Program Definition wpm {A} (r : M memory A) (Q : A -> mpropI) : mpropI :=
  MProp (fun m => forall f, m ##ₘ f ->
    exists a m', r (m ∪ f) = Ret a (m' ∪ f) /\ m' ##ₘ f /\ holds (Q a) m') _.
Next Obligation.
  intros A r Q m1 m2 Hm H f Hf. apply sub_split in Hm as (g & Hg & ->).
  apply map_disjoint_union_l in Hf as [Hf1 Hf2].
  destruct (H (g ∪ f)) as (a & m' & E & Hd & HQ); [by apply map_disjoint_union_r|].
  apply map_disjoint_union_r in Hd as [Hd1 Hd2].
  exists a, (m' ∪ g). split_and!.
  - by rw -!(assoc_L (∪)).
  - by apply map_disjoint_union_l.
  - eapply holds_mono; [|exact HQ]. apply map_union_subseteq_l.
Qed.

Section rules.
Context {A B : Type}.
Implicit Types (Q : A -> mpropI).

Lemma wpm_ret (a : A) Q : Q a ⊢ wpm (ret a) Q.
Proof. constructor. intros m H f Hf. by exists a, m. Qed.
Lemma wpm_bind (r : M memory B) (k : B -> M memory A) Q :
  wpm r (fun b => wpm (k b) Q) ⊢ wpm (bind r k) Q.
Proof.
  constructor. intros m H f Hf. destruct (H f Hf) as (b & m' & E & Hd & H').
  destruct (H' f Hd) as (a & m'' & E' & Hd' & HQ). exists a, m''. split_and!; [|done|done].
  unfold bind. by rw E.
Qed.
(** The frame rule and the rule of consequence. *)
Lemma wpm_wand (r : M memory A) Q Q' : wpm r Q ∗ (∀ a, Q a -∗ Q' a) ⊢ wpm r Q'.
Proof.
  constructor. intros m (m1 & m2 & Hd & Hu & H & HW) f Hf.
  apply sub_split in Hu as (g & Hg & ->).
  apply map_disjoint_union_l in Hf as [Hf Hgf]. apply map_disjoint_union_l in Hf as [Hf1 Hf2].
  apply map_disjoint_union_l in Hg as [Hg1 Hg2].
  destruct (H (m2 ∪ (g ∪ f))) as (a & m' & E & Hd' & HQ); [rw !map_disjoint_union_r; by split_and!|].
  rw !map_disjoint_union_r in Hd'. destruct Hd' as (D1 & D2 & D3).
  exists a, (m' ∪ m2 ∪ g). split_and!.
  - by rw -!(assoc_L (∪)).
  - by rw !map_disjoint_union_l.
  - eapply holds_mono; [apply map_union_subseteq_l|].
    rw (map_union_comm m' m2); [|done]. by apply HW.
Qed.
End rules.

Lemma wpm_rd a v Q : a ↦ v ∗ (a ↦ v -∗ Q v) ⊢ wpm (rd a) Q.
Proof.
  constructor. intros m (m1 & m2 & Hd & Hu & H1 & HW) f Hf. cbn in H1.
  exists v, m. split_and!; [|done|].
  - unfold rd. rw (lookup_union_Some_l m f a v); [done|]. eapply lookup_weaken; [|exact Hu].
    by apply lookup_union_Some_l.
  - eapply holds_mono; [exact Hu|]. rw (map_union_comm m1 m2); [|done]. by apply HW.
Qed.
Lemma wpm_wr a v w Q : a ↦ v ∗ (a ↦ w -∗ Q tt) ⊢ wpm (wr a w) Q.
Proof.
  constructor. intros m (m1 & m2 & Hd & Hu & H1 & HW) f Hf. cbn in H1.
  assert (Hm : m !! a = Some v) by (eapply lookup_weaken; [|exact Hu]; by apply lookup_union_Some_l).
  exists tt, (<[a := w]> m). split_and!.
  - unfold wr. rw (lookup_union_Some_l m f a v); [|done]. by rw insert_union_l.
  - by apply map_disjoint_insert_l_2; [eapply map_disjoint_Some_l|].
  - eapply holds_mono; [|apply (HW (<[a := w]> m1))].
    + rw map_union_comm. 2:{ apply map_disjoint_insert_r_2; [|by apply map_disjoint_sym]. by eapply map_disjoint_Some_l. }
      rw -insert_union_l. by apply insert_mono.
    + apply map_disjoint_insert_r_2; [|by apply map_disjoint_sym]. by eapply map_disjoint_Some_l.
    + cbn. apply lookup_insert_eq.
Qed.
(** Reading the number of words: at least as many as are owned. *)
Lemma wpm_size k P Q :
  owns_at_least k P -> P ∗ (∀ n : nat, ⌜(k <= n)%nat⌝ -∗ P -∗ Q n) ⊢ wpm (gets size) Q.
Proof.
  intros HP. constructor. intros m (m1 & m2 & Hd & Hu & H1 & HW) f Hf.
  exists (size (m ∪ f)), m. split_and!; [done|done|].
  eapply holds_mono; [exact Hu|]. rw (map_union_comm m1 m2); [|done].
  pose proof (HW (size (m ∪ f)) ∅ (map_disjoint_empty_r _)) as HW'. rw map_union_empty in HW'.
  apply HW'; [|done|done]. cbn.
  assert (Hs : (size m1 <= size (m ∪ f))%nat).
  { apply map_subseteq_size. etrans; [|apply map_union_subseteq_l]. etrans; [|exact Hu]. apply map_union_subseteq_l. }
  exact (Nat.le_trans _ _ _ (HP _ H1) Hs).
Qed.
Lemma wpm_massert `{Config} (c : M memory bool) Q :
  wpm c (fun b => ⌜b = true⌝ ∗ Q tt) ∧ Q tt ⊢ wpm (massert c) Q.
Proof.
  unfold massert. destruct cfg_ndebug; [by iIntros "[_ H]"; iApply wpm_ret|].
  iIntros "[H _]". iApply wpm_bind. iApply (wpm_wand with "[$H]"). iIntros (b) "[-> H]". by iApply wpm_ret.
Qed.
(** An assertion about values already known. *)
Lemma wpm_assert_pure `{Config} (b : bool) Q : b = true -> Q tt ⊢ wpm (massert (ret b)) Q.
Proof. intros ->. iIntros "H". iApply wpm_massert. iSplit; [|done]. iApply wpm_ret. by iSplit. Qed.

Lemma mentails_holds (P Q : mpropI) m : (P ⊢ Q) -> holds P m -> holds Q m.
Proof. intros [H]. apply H. Qed.
Lemma holds_exist {A} (Φ : A -> mpropI) m : holds (∃ x, Φ x)%I m -> exists x, holds (Φ x) m.
Proof. by intros [x H]; exists x. Qed.
Lemma holds_pure_sep (φ : Prop) (P : mpropI) m : holds (⌜φ⌝ ∗ P)%I m -> φ /\ holds P m.
Proof.
  intros (m1 & m2 & Hd & Hu & Hφ & HP). split; [exact Hφ|]. eapply holds_mono; [|exact HP].
  etrans; [|exact Hu]. by apply map_union_subseteq_r.
Qed.
Lemma holds_pure (φ : Prop) (P : mpropI) m : (P ⊢ ⌜φ⌝) -> holds P m -> φ.
Proof. intros [H] HP. exact (H m HP). Qed.
(** From a triple to a run of the routine. *)
Lemma wpm_adequate {A} (r : M memory A) P Q m :
  (P ⊢ wpm r Q) -> holds P m -> exists a m', r m = Ret a m' /\ holds (Q a) m'.
Proof.
  intros [H] HP. destruct (H m HP ∅) as (a & m' & E & _ & HQ); [apply map_disjoint_empty_r|].
  rw !map_union_empty in E. eauto.
Qed.
