(* ===== verification/Bget.v ===== *)
(** * The memory allocator (lib/libutils/isoc/bget.c and bget_malloc.c)

    The routines run on a memory of words.  A block starts with its header: the
    size of the block before it when that one is free ([prevfree]), and its own
    size, positive when it is free and negative when it is in use ([bsize]).  A
    free block continues with the links of the list of free blocks, whose head
    is [freelist].  Options of bget that the kernel does not define (BECtl,
    BestFit, FreeWipe, BufStats, BufValid, ENABLE_MDBG) are left out, and
    [malloc_lock] is the spin lock of [Thread].

    [bufsize] is [long]: results of its arithmetic that do not fit are a fault;
    where C converts to [size_t] (an operand is a [sizeof]) they wrap. *)

From stdpp Require Import prelude gmap list.
From Stdlib Require Import ZArith Lia.
From S2P Require Import Prelude CoreMmu SepLogic.
#[local] Open Scope Z_scope.
#[local] Open Scope kernel_scope.

Definition SizeQuant : Z := 8.
(** [sizeof(struct bhead)], [sizeof(struct bdhead)], [sizeof(struct qlinks)] *)
Definition BHEAD : Z := 8.
Definition BDHEAD : Z := 12.
Definition QLSize : Z := 8.
Definition SizeQ : Z := if SizeQuant >? QLSize then SizeQuant else QLSize.
Definition ESent : Z := - (((Z.shiftl 1 30) - 1) * 2) - 2.

(** Where the linker placed the statics of the two files. *)
Class HeapLayout := { freelist : Z; malloc_pool_at : Z; malloc_pool_len_at : Z }.

(** The fields of the header at [b]. *)
Definition prevfree (b : Z) : Z := b.
Definition bsize (b : Z) : Z := b + 4.
Definition flink (b : Z) : Z := b + 8.
Definition blink (b : Z) : Z := b + 12.

Section bget.
Context {cfg : Config} {hl : HeapLayout}.
Abbreviation Mem := (M memory).

(** Fields of type [bufsize] hold the bit pattern of the number. *)
Definition rds (a : Z) : Mem Z := v <- rd a;; ret (i32 v).
Definition wrs (a n : Z) : Mem unit := wr a (u32 n).

(** [assert(b->ql.blink->ql.flink == b)] and [assert(b->ql.flink->ql.blink == b)] *)
Definition assert_links (b : Z) : Mem unit :=
  massert (p <- rd (blink b);; f <- rd (flink p);; ret (f =? b));;;
  massert (n <- rd (flink b);; k <- rd (blink n);; ret (k =? b)).
Definition unlink (b : Z) : Mem unit :=
  p <- rd (blink b);; n <- rd (flink b);; wr (flink p) n;;;
  n <- rd (flink b);; p <- rd (blink b);; wr (blink n) p.
(** A block is linked in at the end of the list. *)
Definition link_last (b : Z) : Mem unit :=
  assert_links freelist;;;
  wr (flink b) freelist;;;
  l <- rd (blink freelist);; wr (blink b) l;;;
  wr (blink freelist) b;;;
  p <- rd (blink b);; wr (flink p) b.

(** The size of the block for a request. *)
Definition round_size (size : Z) : Mem Z :=
  let size := if u32 size <? SizeQ then SizeQ else size in
  s <- int_result (size + (SizeQuant - 1));;
  let size := Z.land s (Z.lnot (SizeQuant - 1)) in
  ret (i32 (u32 size + BHEAD)).

(** The block [b] is large enough: split it, or give all of it away. *)
Definition take_block (b size : Z) : Mem Z :=
  n <- rds (bsize b);;
  d <- int_result (n - size);;
  if u32 d >? SizeQ + BHEAD then
    let ba := b + (n - size) in
    let bn := ba + size in
    massert (p <- rds (prevfree bn);; ret (p =? n));;;
    wrs (bsize b) (n - size);;;
    n <- rds (bsize b);; wrs (prevfree ba) n;;;
    wrs (bsize ba) (- size);;;
    wrs (prevfree bn) 0;;;
    ret (ba + BHEAD)
  else
    let ba := b + n in
    massert (p <- rds (prevfree ba);; ret (p =? n));;;
    assert_links b;;;
    unlink b;;;
    wrs (bsize b) (- n);;;
    wrs (prevfree ba) 0;;;
    ret (b + BHEAD).

(** The walk over the list of free blocks; the null pointer is 0. *)
Fixpoint bget_loop (fuel : nat) (b size : Z) : Mem Z :=
  match fuel with
  | O => spin
  | S fuel =>
      if b =? freelist then ret 0
      else
        n <- rds (bsize b);;
        if size <=? n then take_block b size
        else nxt <- rd (flink b);; bget_loop fuel nxt size
  end.
(** Every free block has a word of its own, so the number of words bounds the
    length of the list. *)
Definition bget (requested_size : Z) : Mem Z :=
  massert (ret (0 <? requested_size));;;
  sz <- round_size requested_size;;
  b <- rd (flink freelist);;
  words <- gets size;;
  bget_loop (S words) b sz.

(** [memset(buf, 0, n)] for a whole number of words. *)
Definition memset0 (buf n : Z) : Mem unit := for_each (seqZ 0 (n / 4)) (fun i => wr (buf + 4 * i) 0).
(** [memcpy(d, s, n)]; of a last incomplete word the low bytes are copied. *)
Definition memcpy (d s n : Z) : Mem unit :=
  for_each (seqZ 0 (n / 4)) (fun i => v <- rd (s + 4 * i);; wr (d + 4 * i) v);;;
  if n mod 4 =? 0 then ret tt
  else
    let q := 4 * (n / 4) in
    let mask := 2 ^ (8 * (n mod 4)) - 1 in
    v <- rd (s + q);; w <- rd (d + q);;
    wr (d + q) (Z.lor (Z.land w (not32 mask)) (Z.land v mask)).

Definition bgetz (size : Z) : Mem Z :=
  buf <- bget size;;
  if buf =? 0 then ret 0
  else
    n <- rds (bsize (buf - BHEAD));;
    rsize <- (if n =? 0 then t <- rds (buf - BDHEAD);; ret (i32 (u32 t - BDHEAD))
              else ret (i32 (u32 (- n) - BHEAD)));;
    massert (ret (size <=? rsize));;;
    memset0 buf rsize;;;
    ret buf.

(** The previous block is free: join the released one to it.  Otherwise it
    becomes a free block of its own. *)
Definition join_prev (b : Z) : Mem Z :=
  p <- rds (prevfree b);;
  if negb (p =? 0) then
    n <- rds (bsize b);;
    massert (m <- rds (bsize (b - p));; ret (m =? p));;;
    let b := b - p in
    m <- rds (bsize b);; s <- int_result (m - n);; wrs (bsize b) s;;;
    ret b
  else
    link_last b;;;
    n <- rds (bsize b);; wrs (bsize b) (- n);;;
    ret b.
(** The next block is free: unlink it and join it to [b].  The result is the
    block after [b]. *)
Definition join_next (b : Z) : Mem Z :=
  n <- rds (bsize b);;
  let bn := b + n in
  m <- rds (bsize bn);;
  if 0 <? m then
    massert (p <- rds (prevfree (bn + m));; ret (p =? m));;;
    assert_links bn;;;
    unlink bn;;;
    s <- int_result (n + m);; wrs (bsize b) s;;;
    ret (b + s)
  else ret bn.

Definition brel (buf : Z) : Mem unit :=
  let b := buf - BHEAD in
  massert (ret (negb (buf =? 0)));;;
  massert (n <- rds (bsize b);; ret (n <? 0));;;
  massert (n <- rds (bsize b);; p <- rds (prevfree (b - n));; ret (p =? 0));;;
  b <- join_prev b;;
  bn <- join_next b;;
  massert (n <- rds (bsize bn);; ret (n <? 0));;;
  n <- rds (bsize b);; wrs (prevfree bn) n.

Definition bgetr (buf size : Z) : Mem Z :=
  nbuf <- bget size;;
  if nbuf =? 0 then ret 0
  else if buf =? 0 then ret nbuf
  else
    n <- rds (bsize (buf - BHEAD));;
    let osize := i32 (u32 (- n) - BHEAD) in
    massert (ret (0 <? osize));;;
    memcpy nbuf buf (if size <? osize then size else osize);;;
    brel buf;;;
    ret nbuf.

(** [assert((~0) == -1)] is about the compiler. *)
Definition bpool (buf len : Z) : Mem unit :=
  let len := Z.land len (Z.lnot (SizeQuant - 1)) in
  massert (ret (u32 (u32 len - BHEAD) <=? - (ESent + 1)));;;
  wrs (prevfree buf) 0;;;
  link_last buf;;;
  let len := i32 (u32 len - BHEAD) in
  wrs (bsize buf) len;;;
  let bn := buf + len in
  wrs (prevfree bn) len;;;
  wrs (bsize bn) ESent.

(** ** bget_malloc.c *)

Definition raw_malloc (hdr_size ftr_size pl_size : Z) : Mem Z :=
  let s := u32 (hdr_size + ftr_size + pl_size) in
  if s <? pl_size then ret 0
  else bget (i32 (if s =? 0 then 1 else s)).

Definition raw_free (ptr : Z) : Mem unit := if ptr =? 0 then ret tt else brel ptr.

Definition raw_calloc (hdr_size ftr_size pl_nmemb pl_size : Z) : Mem Z :=
  let s := u32 (hdr_size + ftr_size + u32 (pl_nmemb * pl_size)) in
  if (s <? pl_nmemb) || (s <? pl_size) then ret 0
  else bgetz (i32 (if s =? 0 then 1 else s)).

Definition raw_realloc (ptr hdr_size ftr_size pl_size : Z) : Mem Z :=
  let s := u32 (hdr_size + ftr_size + pl_size) in
  if s <? pl_size then ret 0
  else bgetr ptr (i32 (if s =? 0 then 1 else s)).

Definition create_free_block (bf size bn : Z) : Mem unit :=
  massert (ret (bf + size =? bn));;;
  massert (n <- rds (bsize bn);; ret (n <? 0));;;
  massert (p <- rds (prevfree bn);; ret (p =? 0));;;
  wrs (bsize bf) size;;;
  wrs (prevfree bf) 0;;;
  wrs (prevfree bn) size;;;
  link_last bf.

Definition brel_before (orig_buf new_buf : Z) : Mem unit :=
  massert (ret (orig_buf <? new_buf));;;
  let size := new_buf - orig_buf in
  massert (ret (SizeQ + BHEAD <=? u32 size));;;
  let bf := orig_buf - BHEAD in
  n <- rds (bsize bf);;
  let orig_size := - n in
  let b := new_buf - BHEAD in
  p <- rds (prevfree bf);;
  if negb (p =? 0) then
    let bfp := bf - p in
    massert (m <- rds (bsize bfp);; ret (m =? p));;;
    m <- rds (bsize bfp);; s <- int_result (m + size);; wrs (bsize bfp) s;;;
    m <- rds (bsize bfp);; wrs (prevfree b) m;;;
    wrs (bsize b) (- (orig_size - size))
  else
    wrs (bsize b) (- (orig_size - size));;;
    create_free_block bf size b.

Definition brel_after (buf size : Z) : Mem unit :=
  let b := buf - BHEAD in
  new_size <- round_size size;;
  n <- rds (bsize b);;
  massert (ret (new_size <=? - n));;;
  let free_size := - n - new_size in
  if u32 free_size <? SizeQ + BHEAD then ret tt
  else
    let bn := b - n in
    wrs (bsize b) (- new_size);;;
    m <- rds (bsize bn);;
    if 0 <? m then
      let nbf := b + new_size in
      let bnn := bn + m in
      massert (p <- rds (prevfree bn);; ret (p =? 0));;;
      massert (p <- rds (prevfree bnn);; ret (p =? m));;;
      wrs (prevfree nbf) 0;;;
      s <- int_result (m + free_size);; wrs (bsize nbf) s;;;
      p <- rds (prevfree bnn);; s <- int_result (p + free_size);; wrs (prevfree bnn) s;;;
      assert_links bn;;;
      k <- rd (blink bn);; wr (blink nbf) k;;;
      f <- rd (flink bn);; wr (flink nbf) f;;;
      k <- rd (blink nbf);; wr (flink k) nbf;;;
      f <- rd (flink nbf);; wr (blink f) nbf
    else create_free_block (b + new_size) free_size bn.

Definition IS_POWER_OF_TWO (x : Z) : bool := negb (x =? 0) && (Z.land x (u32 (not32 x + 1)) =? x).

Definition raw_memalign (hdr_size ftr_size alignment size : Z) : Mem Z :=
  if negb (IS_POWER_OF_TWO alignment) then ret 0
  else if alignment <=? SizeQuant then raw_malloc hdr_size ftr_size size
  else
    let s := u32 (hdr_size + ftr_size + alignment + size + SizeQ + BHEAD) in
    if (s <? alignment) || (s <? size) then ret 0
    else
      b <- bget (i32 s);;
      if b =? 0 then ret 0
      else
        b <- (if truth (Z.land (u32 (b + hdr_size)) (alignment - 1)) then
                let p := u32 (b + hdr_size + alignment) in
                let p := Z.land p (not32 (alignment - 1)) in
                let p := u32 (p - hdr_size) in
                let p := if u32 (p - b) <? SizeQ + BHEAD then u32 (p + alignment) else p in
                massert (ret (u32 (p + hdr_size + ftr_size + size) <=? u32 (b + s)));;;
                brel_before b p;;;
                ret p
              else ret b);;
        brel_after b (i32 (u32 (hdr_size + ftr_size + size)));;;
        ret b.

Definition bget_buf_size (buf : Z) : Mem Z :=
  n <- rds (bsize (buf - BHEAD));;
  let osize := i32 (u32 (- n) - BHEAD) in
  massert (ret (0 <? osize));;;
  ret osize.

Definition malloc (size : Z) : Mem Z := raw_malloc 0 0 size.
Definition free (ptr : Z) : Mem unit := raw_free ptr.
Definition calloc (nmemb size : Z) : Mem Z := raw_calloc 0 0 nmemb size.
Definition realloc_unlocked (ptr size : Z) : Mem Z := raw_realloc ptr 0 0 size.
Definition realloc (ptr size : Z) : Mem Z := realloc_unlocked ptr size.
Definition memalign (alignment size : Z) : Mem Z := raw_memalign 0 0 alignment size.

(** [struct malloc_pool] is two words. *)
Definition MALLOC_POOL : Z := 8.
Definition malloc_add_pool (buf len : Z) : Mem unit :=
  let start := ROUNDUP buf SizeQuant in
  let end_ := ROUNDDOWN (u32 (buf + len)) SizeQuant in
  let min_len := Z.land (MALLOC_POOL + (SizeQuant - 1)) (not32 (SizeQuant - 1)) + BHEAD * 2 in
  massert (ret (start <? end_));;;
  if u32 (end_ - start) <? min_len then ret tt
  else
    bpool start (i32 (end_ - start));;;
    k <- rd malloc_pool_len_at;;
    let l := u32 (k + 1) in
    old <- rd malloc_pool_at;;
    p <- realloc_unlocked old (u32 (MALLOC_POOL * l));;
    massert (ret (negb (p =? 0)));;;
    wr malloc_pool_at p;;;
    k <- rd malloc_pool_len_at;; wr (p + 8 * k) start;;;
    k <- rd malloc_pool_len_at;; wr (p + 8 * k + 4) (u32 (end_ - start));;;
    wr malloc_pool_len_at l.

(** The iterator over the blocks in use: the next block and the pool. *)
Fixpoint bpool_foreach (fuel : nat) (it : Z * Z) : Mem (option Z * (Z * Z)) :=
  match fuel with
  | O => spin
  | S fuel =>
      let '(b, idx) := it in
      bs <- rds (bsize b);;
      if bs =? ESent then
        l <- rd malloc_pool_len_at;;
        if l <=? u32 (idx + 1) then ret (None, it)
        else
          p <- rd malloc_pool_at;;
          b <- rd (p + 8 * u32 (idx + 1));;
          bpool_foreach fuel (b, u32 (idx + 1))
      else if bs <? 0 then ret (Some (b + BHEAD), (b + - bs, idx))
      else assert_links b;;; bpool_foreach fuel (b + bs, idx)
  end.
Fixpoint within_alloced_loop (fuel : nat) (it : Z * Z) (start_buf end_buf : Z) : Mem bool :=
  match fuel with
  | O => spin
  | S fuel' =>
      '(o, it) <- bpool_foreach fuel it;;
      match o with
      | None => ret false
      | Some b =>
          s <- bget_buf_size b;;
          if (b <=? start_buf) && (end_buf <=? u32 (b + s)) then ret true
          else within_alloced_loop fuel' it start_buf end_buf
      end
  end.
Definition malloc_buffer_is_within_alloced (buf len : Z) : Mem bool :=
  let end_buf := u32 (buf + len) in
  if end_buf <? buf then ret false
  else
    p <- rd malloc_pool_at;;
    b <- rd p;;
    words <- gets size;;
    within_alloced_loop (S words) (b, 0) buf end_buf.

(** As written, with [||] where the test for an overlap needs [&&]. *)
Fixpoint overlaps_loop (pools : list Z) (p buf_start buf_end : Z) : Mem bool :=
  match pools with
  | [] => ret false
  | n :: pools =>
      pool_start <- rd (p + 8 * n);;
      len <- rd (p + 8 * n + 4);;
      let pool_end := u32 (pool_start + len) in
      if (buf_end <? buf_start) || (pool_end <? pool_start) then ret true
      else if (pool_start <? buf_end) || (buf_start <? pool_end) then ret true
      else overlaps_loop pools p buf_start buf_end
  end.
Definition malloc_buffer_overlaps_heap (buf len : Z) : Mem bool :=
  n <- rd malloc_pool_len_at;;
  p <- rd malloc_pool_at;;
  overlaps_loop (seqZ 0 n) p buf (u32 (buf + len)).
End bget.
