(* ===== verification/BgetSpec.v ===== *)
(** * What the memory allocator promises: the blocks of the heap

    The heap is described by its pools, each a list of blocks without gaps in
    which no two neighbours are free.  [tail] and [tiles] lay the blocks of a
    pool out in memory, [circ] lays out the circular list of free blocks.  The
    triples say how the routines of [Bget] change the list of blocks and which
    words pass to and from their caller. *)

From stdpp Require Import prelude gmap list sorting.
From Stdlib Require Import ZArith Lia.
From iris.proofmode Require Import proofmode.
From S2P Require Import Prelude SepLogic Bget.
#[local] Open Scope Z_scope.

(** ** The blocks of a pool *)

(** The size of a block with its header, and whether it is free. *)
Abbreviation block := (Z * bool)%type.
(** A pool: where it starts, and its blocks. *)
Abbreviation pool := (Z * list block)%type.

(** What the header of the next block records of a block. *)
Definition pfree (x : block) : Z := if x.2 then x.1 else 0.
(** The size field of the block itself. *)
Definition signed (x : block) : Z := if x.2 then x.1 else - x.1.

(** The address after the blocks. *)
Fixpoint bend (a : Z) (bs : list block) : Z :=
  match bs with [] => a | x :: bs => bend (a + x.1) bs end.
Fixpoint blast (pf : Z) (bs : list block) : Z :=
  match bs with [] => pf | x :: bs => blast (pfree x) bs end.
(** Addresses and sizes of the blocks that are free, or of those that are not. *)
Fixpoint select (f : bool) (a : Z) (bs : list block) : list (Z * Z) :=
  match bs with
  | [] => []
  | x :: bs => (if Bool.eqb x.2 f then [(a, x.1)] else []) ++ select f (a + x.1) bs
  end.
Abbreviation frees := (select true).
Abbreviation useds := (select false).
(** Sizes are multiples of the quantum and have room for the links; a free block
    does not follow a free block. *)
Fixpoint bwf (pf : Z) (bs : list block) : Prop :=
  match bs with
  | [] => True
  | x :: bs => SizeQ + BHEAD <= x.1 /\ x.1 mod SizeQuant = 0 /\ (x.2 = true -> pf = 0) /\ bwf (pfree x) bs
  end.
#[global] Instance bwf_dec pf bs : Decision (bwf pf bs).
Proof. revert pf. induction bs as [|x bs IH]; intros pf; cbn; apply _. Defined.

Lemma bwf_cons pf x bs :
  bwf pf (x :: bs) <-> 16 <= x.1 /\ x.1 mod 8 = 0 /\ (x.2 = true -> pf = 0) /\ bwf (pfree x) bs.
Proof. done. Qed.
Lemma bwf_inv pf x bs :
  bwf pf (x :: bs) -> 16 <= x.1 /\ x.1 mod 8 = 0 /\ (x.2 = true -> pf = 0) /\ bwf (pfree x) bs.
Proof. apply bwf_cons. Qed.
Lemma bend_app a bs1 bs2 : bend a (bs1 ++ bs2) = bend (bend a bs1) bs2.
Proof. revert a. by induction bs1 as [|x bs1 IH]; intros a; cbn. Qed.
Lemma blast_app pf bs1 bs2 : blast pf (bs1 ++ bs2) = blast (blast pf bs1) bs2.
Proof. revert pf. by induction bs1 as [|x bs1 IH]; intros pf; cbn. Qed.
Lemma select_app f a bs1 bs2 : select f a (bs1 ++ bs2) = select f a bs1 ++ select f (bend a bs1) bs2.
Proof. revert a. induction bs1 as [|x bs1 IH]; intros a; cbn; [done|]. by rw IH (assoc_L (++)). Qed.
Lemma bwf_app pf bs1 bs2 : bwf pf (bs1 ++ bs2) <-> bwf pf bs1 /\ bwf (blast pf bs1) bs2.
Proof.
  revert pf. induction bs1 as [|x bs1 IH]; intros pf; [cbn; tauto|].
  rw -app_comm_cons !bwf_cons IH. tauto.
Qed.

Lemma select_elem f a bs b n :
  (b, n) ∈ select f a bs <-> exists bs1 bs2, bs = bs1 ++ (n, f) :: bs2 /\ b = bend a bs1.
Proof.
  split.
  - revert a. induction bs as [|[m g] bs IH]; intros a; cbn; [by intros ?%elem_of_nil|].
    intros [H|H]%elem_of_app.
    + destruct (Bool.eqb_spec g f) as [->|]; [|by apply elem_of_nil in H].
      apply list_elem_of_singleton in H as [= -> ->]. by exists [], bs.
    + apply IH in H as (bs1 & bs2 & -> & ->). by exists ((m, g) :: bs1), bs2.
  - intros (bs1 & bs2 & -> & ->). rw select_app. apply elem_of_app. right. cbn.
    rw Bool.eqb_reflx. apply list_elem_of_here.
Qed.

Lemma bend_le pf a bs : bwf pf bs -> a <= bend a bs.
Proof.
  revert pf a. induction bs as [|x bs IH]; intros pf a; [cbn; lia|].
  intros (H & _ & _ & Hb)%bwf_inv. pose proof (IH _ (a + x.1) Hb). cbn [bend]. lia.
Qed.
Lemma bend_mod pf a bs : bwf pf bs -> bend a bs mod 8 = a mod 8.
Proof.
  revert pf a. induction bs as [|x bs IH]; intros pf a; [done|].
  intros (_ & H & _ & Hb)%bwf_inv. cbn [bend]. rw (IH _ _ Hb). rw Z.add_mod; [|done]. rw H Z.add_0_r. by rw Zmod_mod.
Qed.
(** What comes before a block: the block before it is free, or not. *)
Lemma blast_cases bs : bwf 0 bs ->
  blast 0 bs = 0 \/ exists bs' p, bs = bs' ++ [(p, true)] /\ blast 0 bs = p /\ blast 0 bs' = 0 /\ 16 <= p.
Proof.
  induction bs as [|[p f] bs' _] using rev_ind; [by left|]. rw bwf_app.
  intros (H & (Hp & _ & Hf & _)%bwf_inv). rw blast_app. cbn in *.
  destruct f; [|by left]. right. exists bs', p. split_and!; [done|done|by apply Hf|done].
Qed.

(** ** Words *)

(** Consecutive words from [a] on. *)
Fixpoint cells (a : Z) (l : list Z) : mpropI :=
  match l with [] => emp | v :: l => a ↦ v ∗ cells (a + 4) l end%I.
Definition bytes (l : list Z) : Z := 4 * Z.of_nat (length l).
(** [n] bytes of memory with whatever they hold. *)
Definition mem (a n : Z) : mpropI := (∃ l, ⌜bytes l = n⌝ ∗ cells a l)%I.

Lemma bytes_app l1 l2 : bytes (l1 ++ l2) = bytes l1 + bytes l2.
Proof. unfold bytes. rw length_app. lia. Qed.
Lemma cells_app a l1 l2 : cells a (l1 ++ l2) ⊣⊢ cells a l1 ∗ cells (a + bytes l1) l2.
Proof.
  revert a. induction l1 as [|v l1 IH]; intros a; cbn [cells app].
  - rw (_ : a + bytes [] = a); [|unfold bytes; cbn [length]; lia]. iSplit; [by iIntros "$"|by iIntros "[_ $]"].
  - rw IH (assoc (∗)%I). change (v :: l1) with ([v] ++ l1). by rw bytes_app Z.add_assoc.
Qed.
Lemma mem_join a b n k : b = a + n -> mem a n ∗ mem b k ⊢ mem a (n + k).
Proof.
  iIntros (->) "[(%l1 & <- & H1) (%l2 & <- & H2)]". iExists (l1 ++ l2). rw cells_app bytes_app. by iFrame.
Qed.
Lemma mem_split a n k : 0 <= n -> n mod 4 = 0 -> 0 <= k -> mem a (n + k) ⊢ mem a n ∗ mem (a + n) k.
Proof.
  iIntros (Hn Hm Hk) "(%l & %H & Hl)".
  set (i := Z.to_nat (n / 4)). unfold bytes in H.
  assert (E : bytes (take i l) = n) by (unfold bytes; rw length_take; Z.div_mod_to_equations; lia).
  rw -{1}(take_drop i l) cells_app E. iDestruct "Hl" as "[H1 H2]".
  iSplitL "H1"; [by iExists (take i l); iFrame|]. iExists (drop i l). iFrame. iPureIntro.
  unfold bytes. rw length_drop. Z.div_mod_to_equations; lia.
Qed.
Lemma mem_words a : mem a 8 ⊣⊢ some_word a ∗ some_word (a + 4).
Proof.
  iSplit.
  - iIntros "(%l & %H & Hl)". destruct l as [|v [|w [|? l]]]; cbv [bytes length] in H; try lia. cbn.
    iDestruct "Hl" as "(H1 & H2 & _)". iSplitL "H1"; by iExists _.
  - iIntros "[[%v H1] [%w H2]]". iExists [v; w]. cbn. iFrame. done.
Qed.

(** ** Reading and writing header fields *)

Section rules.
Context {cfg : Config} {hl : HeapLayout}.

Lemma wpm_rds a v Q : - 2 ^ 31 <= v < 2 ^ 31 -> a ↦ u32 v ∗ (a ↦ u32 v -∗ Q v) ⊢ wpm (rds a) Q.
Proof.
  iIntros (Hv) "[Ha HQ]". iApply wpm_bind. iApply wpm_rd. iFrame "Ha". iIntros "Ha".
  iApply wpm_ret. rw i32_u32; [|done]. by iApply "HQ".
Qed.
Lemma wpm_wrs a w v Q : a ↦ w ∗ (a ↦ u32 v -∗ Q tt) ⊢ wpm (wrs a v) Q.
Proof. apply wpm_wr. Qed.
Lemma wpm_int_result z (Q : Z -> mpropI) : - 2 ^ 31 <= z < 2 ^ 31 -> Q z ⊢ wpm (int_result z) Q.
Proof.
  iIntros (Hz) "HQ". unfold int_result. rw (proj2 (Z.leb_le _ _)); [|lia]. rw (proj2 (Z.ltb_lt _ _)); [|lia].
  by iApply wpm_ret.
Qed.
(** An assertion about what is owned leaves it as it was. *)
Lemma wpm_massert_keep (c : M memory bool) P (Q : unit -> mpropI) :
  (P ⊢ wpm c (fun b => ⌜b = true⌝ ∗ P)) -> P ∗ (P -∗ Q tt) ⊢ wpm (massert c) Q.
Proof.
  iIntros (H) "[HP HQ]". iApply wpm_massert. iSplit; [|by iApply "HQ"].
  iApply (wpm_wand _ (fun b => ⌜b = true⌝ ∗ P)%I). iSplitL "HP"; [by iApply H|].
  iIntros (b) "[$ HP]". by iApply "HQ".
Qed.
Lemma wpm_massert_rds a v (f : Z -> bool) (Q : unit -> mpropI) :
  - 2 ^ 31 <= v < 2 ^ 31 -> f v = true ->
  a ↦ u32 v ∗ (a ↦ u32 v -∗ Q tt) ⊢ wpm (massert (n <- rds a;; ret (f n))%K) Q.
Proof.
  intros Hv Hf. apply wpm_massert_keep. iIntros "Ha". iApply wpm_bind. iApply (wpm_rds a v); [done|].
  iFrame "Ha". iIntros "Ha". iApply wpm_ret. by iFrame.
Qed.

(** ** The list of free blocks *)

(** Two neighbours of the list. *)
Definition edge (x y : Z) : mpropI := (flink x ↦ y ∗ blink y ↦ x)%I.
Fixpoint path (x : Z) (l : list Z) (z : Z) : mpropI :=
  match l with [] => edge x z | y :: l => edge x y ∗ path y l z end%I.
Definition circ (l : list Z) : mpropI := path freelist l freelist.

Lemma path_app x l1 y l2 z : path x (l1 ++ y :: l2) z ⊣⊢ path x l1 y ∗ path y l2 z.
Proof. revert x. induction l1 as [|w l1 IH]; intros x; cbn; [done|]. by rw IH (assoc (∗)%I). Qed.
Lemma path_last x l z : path x l z ⊢ ∃ p, edge p z ∗ (∀ z', edge p z' -∗ path x l z').
Proof.
  revert x. induction l as [|y l IH]; intros x; cbn.
  - iIntros "H". iExists x. iFrame. by iIntros (z') "H".
  - iIntros "[H Hl]". iDestruct (IH with "Hl") as (p) "[Hp Hl]". iExists p. iFrame.
    iIntros (z') "H'". by iApply "Hl".
Qed.
Lemma path_first x l z : path x l z ⊢ ∃ n, edge x n ∗ (∀ x', edge x' n -∗ path x' l z).
Proof.
  destruct l as [|y l]; cbn.
  - iIntros "H". iExists z. iFrame. by iIntros (x') "H".
  - iIntros "[H Hl]". iExists y. iFrame. by iIntros (x') "H".
Qed.
Lemma path_owns x l z : owns_at_least (length l) (path x l z).
Proof.
  revert x. induction l as [|y l IH]; intros x; cbn [path length]; [apply owns_0|].
  change (S (length l)) with (1 + length l)%nat. apply owns_sep; [|apply IH].
  eapply owns_mono; [|exact (owns_word (flink x) y)]. by iIntros "[$ _]".
Qed.
(** A node between two parts of the list: its two neighbours. *)
Lemma path_node x l1 b l2 z : path x l1 b ∗ path b l2 z ⊢
  ∃ p n, edge p b ∗ edge b n ∗ (edge p n -∗ path x (l1 ++ l2) z) ∧ (edge p b ∗ edge b n -∗ path x l1 b ∗ path b l2 z).
Proof.
  iIntros "[H1 H2]". iDestruct (path_last with "H1") as (p) "[Hp H1]".
  destruct l2 as [|y l2]; cbn [path].
  - iExists p, z. iFrame "Hp H2". iSplit; [rw app_nil_r; iApply "H1"|]. iIntros "[Hp $]". by iApply "H1".
  - iDestruct "H2" as "[Hy H2]". iExists p, y. iFrame "Hp Hy". iSplit.
    + rw path_app. iIntros "Hp". iFrame. by iApply "H1".
    + iIntros "[Hp $]". iFrame "H2". by iApply "H1".
Qed.

Lemma wpm_assert_links b P (Q : unit -> mpropI) :
  (P ⊢ ∃ p, edge p b ∗ (edge p b -∗ P)) -> (P ⊢ ∃ n, edge b n ∗ (edge b n -∗ P)) ->
  P ∗ (P -∗ Q tt) ⊢ wpm (assert_links b) Q.
Proof.
  intros H1 H2. iIntros "[HP HQ]". iApply wpm_bind.
  iApply (wpm_massert_keep _ P); [|iFrame "HP"; iIntros "HP"; iApply (wpm_massert_keep _ P); [|by iFrame]].
  - rw {1}H1. iIntros "(%p & [Hf Hb] & HP)". iApply wpm_bind. iApply wpm_rd. iFrame "Hb". iIntros "Hb".
    iApply wpm_bind. iApply wpm_rd. iFrame "Hf". iIntros "Hf". iApply wpm_ret.
    iSplit; [by rw Z.eqb_refl|]. iApply "HP". iFrame.
  - rw {1}H2. iIntros "(%p & [Hf Hb] & HP)". iApply wpm_bind. iApply wpm_rd. iFrame "Hf". iIntros "Hf".
    iApply wpm_bind. iApply wpm_rd. iFrame "Hb". iIntros "Hb". iApply wpm_ret.
    iSplit; [by rw Z.eqb_refl|]. iApply "HP". iFrame.
Qed.

(** Room for the links, not yet or no longer in the list. *)
Definition links (b : Z) : mpropI := (some_word (flink b) ∗ some_word (blink b))%I.
Lemma links_mem b : links b ⊣⊢ mem (b + BHEAD) 8.
Proof. rw mem_words. unfold links, flink, blink, BHEAD. by rw (_ : b + 12 = b + 8 + 4); [|lia]. Qed.

Lemma wpm_unlink p b n (Q : unit -> mpropI) :
  edge p b ∗ edge b n ∗ (edge p n ∗ links b -∗ Q tt) ⊢ wpm (unlink b) Q.
Proof.
  iIntros "([Hpf Hb] & [Hf Hnb] & HQ)".
  iApply wpm_bind. iApply wpm_rd. iFrame "Hb". iIntros "Hb".
  iApply wpm_bind. iApply wpm_rd. iFrame "Hf". iIntros "Hf".
  iApply wpm_bind. iApply (wpm_wr _ b). iFrame "Hpf". iIntros "Hpf".
  iApply wpm_bind. iApply wpm_rd. iFrame "Hf". iIntros "Hf".
  iApply wpm_bind. iApply wpm_rd. iFrame "Hb". iIntros "Hb".
  iApply (wpm_wr _ b). iFrame "Hnb". iIntros "Hnb".
  iApply "HQ". iFrame.
Qed.
Lemma wpm_link_last l b (Q : unit -> mpropI) :
  circ l ∗ links b ∗ (circ (l ++ [b]) -∗ Q tt) ⊢ wpm (link_last b) Q.
Proof.
  iIntros "(Hl & [[%v Hf] [%w Hb]] & HQ)". unfold circ. iApply wpm_bind.
  iApply (wpm_assert_links _ (path freelist l freelist)).
  { iIntros "H". iDestruct (path_last with "H") as (p) "[$ H]". iApply "H". }
  { iIntros "H". iDestruct (path_first with "H") as (n) "[$ H]". iApply "H". }
  iFrame "Hl". iIntros "Hl".
  iApply wpm_bind. iApply (wpm_wr _ v). iFrame "Hf". iIntros "Hf".
  iDestruct (path_last with "Hl") as (p) "[[Hpf Hfb] Hl]".
  iApply wpm_bind. iApply wpm_rd. iFrame "Hfb". iIntros "Hfb".
  iApply wpm_bind. iApply (wpm_wr _ w). iFrame "Hb". iIntros "Hb".
  iApply wpm_bind. iApply (wpm_wr _ p). iFrame "Hfb". iIntros "Hfb".
  iApply wpm_bind. iApply wpm_rd. iFrame "Hb". iIntros "Hb".
  iApply (wpm_wr _ freelist). iFrame "Hpf". iIntros "Hpf".
  iApply "HQ". rw path_app. cbn. iFrame. iApply "Hl". iFrame.
Qed.

(** A block leaves the list. *)
Lemma wpm_leave {A} l1 b l2 (k : M memory A) (Q : A -> mpropI) :
  path freelist l1 b ∗ path b l2 freelist ∗ (circ (l1 ++ l2) ∗ links b -∗ wpm k Q) ⊢
  wpm (assert_links b;;; unlink b;;; k)%K Q.
Proof.
  iIntros "(H1 & H2 & HQ)". iDestruct (path_node with "[$H1 $H2]") as (p q) "(Hp & Hq & Hl)". iApply wpm_bind.
  iApply (wpm_assert_links _ (edge p b ∗ edge b q)).
  { iIntros "[Hp $]". iExists p. iFrame. iIntros "$". }
  { iIntros "[$ Hq]". iExists q. iFrame. iIntros "$". }
  iFrame "Hp Hq". iIntros "[Hp Hq]". iApply wpm_bind. iApply (wpm_unlink p b q). iFrame "Hp Hq".
  iIntros "[Hpq Hb]". iApply "HQ". iFrame "Hb". iDestruct "Hl" as "[Hl _]". by iApply "Hl".
Qed.

(** ** Blocks in memory *)

Definition hdr (b pf n : Z) : mpropI := (prevfree b ↦ u32 pf ∗ bsize b ↦ u32 n)%I.
(** What the heap owns of a block besides header and links. *)
Definition body (b : Z) (x : block) : mpropI := if x.2 then mem (b + 16) (x.1 - 16) else emp%I.
Fixpoint tiles (a pf : Z) (bs : list block) : mpropI :=
  match bs with
  | [] => emp
  | x :: bs => hdr a pf (signed x) ∗ body a x ∗ tiles (a + x.1) (pfree x) bs
  end%I.
(** Blocks up to the end of the pool, with the header that ends it. *)
Fixpoint tail (a pf : Z) (bs : list block) : mpropI :=
  match bs with
  | [] => hdr a pf ESent
  | x :: bs => hdr a pf (signed x) ∗ body a x ∗ tail (a + x.1) (pfree x) bs
  end%I.
Lemma tail_app a pf bs1 bs2 : tail a pf (bs1 ++ bs2) ⊣⊢ tiles a pf bs1 ∗ tail (bend a bs1) (blast pf bs1) bs2.
Proof.
  revert a pf. induction bs1 as [|x bs1 IH]; intros a pf; cbn.
  - iSplit; [by iIntros "$"|by iIntros "[_ $]"].
  - rw IH. by rw -!(assoc (∗)%I).
Qed.
Lemma tiles_app a pf bs1 bs2 : tiles a pf (bs1 ++ bs2) ⊣⊢ tiles a pf bs1 ∗ tiles (bend a bs1) (blast pf bs1) bs2.
Proof.
  revert a pf. induction bs1 as [|x bs1 IH]; intros a pf; cbn.
  - iSplit; [by iIntros "$"|by iIntros "[_ $]"].
  - rw IH. by rw -!(assoc (∗)%I).
Qed.
(** The header at the start of a tail. *)
Definition head_size (bs : list block) : Z := match bs with [] => ESent | x :: _ => signed x end.
Lemma tail_head a pf bs : tail a pf bs ⊢ hdr a pf (head_size bs) ∗ (∀ pf', hdr a pf' (head_size bs) -∗ tail a pf' bs).
Proof.
  destruct bs as [|x bs]; cbn; [iIntros "$"; iIntros (pf') "$"|].
  iIntros "($ & Hb & Ht)". iIntros (pf') "H". iFrame.
Qed.

(** The header that ends a pool lies in it too. *)
Definition pool_ok (p : pool) : Prop :=
  0 < p.1 /\ p.1 mod 8 = 0 /\ bwf 0 p.2 /\ bend p.1 p.2 < p.1 + 2 ^ 31 /\ bend p.1 p.2 + BHEAD <= 2 ^ 32.
Definition pool_select (f : bool) (p : pool) : list (Z * Z) := select f p.1 p.2.
Definition pools (ps : list pool) : mpropI := ([∗ list] p ∈ ps, tail p.1 0 p.2)%I.
(** The list of free blocks has exactly those of the pools. *)
Definition heap_ok (l : list (Z * Z)) (ps : list pool) : Prop :=
  Forall pool_ok ps /\ l ≡ₚ ps ≫= pool_select true.
Definition heap (ps : list pool) : mpropI := (∃ l, ⌜heap_ok l ps⌝ ∗ circ l.*1 ∗ pools ps)%I.

Lemma pools_app ps1 a bs ps2 : pools (ps1 ++ (a, bs) :: ps2) ⊣⊢ tail a 0 bs ∗ pools ps1 ∗ pools ps2.
Proof.
  unfold pools. rw big_sepL_app. cbn. iSplit; [by iIntros "($ & $ & $)"|by iIntros "($ & $ & $)"].
Qed.
Lemma pools_select f ps1 a bs ps2 :
  (ps1 ++ (a, bs) :: ps2) ≫= pool_select f ≡ₚ select f a bs ++ (ps1 ++ ps2) ≫= pool_select f.
Proof. rw !bind_app bind_cons. apply Permutation_app_swap_app. Qed.
Lemma pools_ok ps1 p p' ps2 :
  Forall pool_ok (ps1 ++ p :: ps2) -> pool_ok p' -> Forall pool_ok (ps1 ++ p' :: ps2).
Proof. rw !Forall_app !Forall_cons. tauto. Qed.
Lemma pools_elem f ps b n : (b, n) ∈ ps ≫= pool_select f ->
  exists ps1 a bs1 bs2 ps2, ps = ps1 ++ (a, bs1 ++ (n, f) :: bs2) :: ps2 /\ b = bend a bs1.
Proof.
  intros ([a bs] & H & Hp)%list_elem_of_bind. apply select_elem in H as (bs1 & bs2 & E & ->). cbn in E. subst bs.
  apply list_elem_of_split in Hp as (ps1 & ps2 & ->). by exists ps1, a, bs1, bs2, ps2.
Qed.
End rules.

(** ** Taking a block *)

(** The size of the block for a request, and what a free block of size [n] gives
    for a block of size [k]. *)
Definition block_size (req : Z) : Z := (Z.max req SizeQ + 7) / 8 * 8 + BHEAD.
Definition given (n k : Z) : Z := if 16 <? n - k then k else n.
Definition taken (n k : Z) : list block := if 16 <? n - k then [(n - k, true); (k, false)] else [(n, false)].

Lemma block_size_spec req : 0 < req <= 2 ^ 31 - 16 ->
  16 <= block_size req < 2 ^ 31 /\ block_size req mod 8 = 0 /\ req + 8 <= block_size req < Z.max req 8 + 16.
Proof. intros H. unfold block_size, BHEAD. change SizeQ with 8. Z.div_mod_to_equations. lia. Qed.

Lemma land_quantum s : Z.land s (Z.lnot (SizeQuant - 1)) = s / 8 * 8.
Proof. change (SizeQuant - 1) with (Z.ones 3). rw -Z.ldiff_land Z.ldiff_ones_r; [|done]. by rw Z.shiftl_mul_pow2 // Z.shiftr_div_pow2. Qed.

Section take.
Context {cfg : Config} {hl : HeapLayout}.

Lemma wpm_round_size req Q : 0 < req <= 2 ^ 31 - 16 -> Q (block_size req) ⊢ wpm (round_size req) Q.
Proof.
  iIntros (H) "HQ". unfold round_size.
  assert (E : (if u32 req <? SizeQ then SizeQ else req) = Z.max req SizeQ).
  { change SizeQ with 8. rw u32_small; [|unfold is_u32; lia]. destruct (Z.ltb_spec req 8); lia. }
  rw E. pose proof (block_size_spec req H) as (H1 & _). unfold block_size, BHEAD in *.
  change SizeQ with 8 in *. change SizeQuant with 8.
  iApply wpm_bind. iApply wpm_int_result; [lia|]. iApply wpm_ret.
  change (8 - 1) with (SizeQuant - 1). rw land_quantum. change (SizeQuant - 1) with 7.
  rw (u32_small ((Z.max req 8 + 7) / 8 * 8)); [|unfold is_u32; Z.div_mod_to_equations; lia].
  rw (_ : i32 _ = (Z.max req 8 + 7) / 8 * 8 + 8); [done|].
  apply i32_small. lia.
Qed.

Lemma bwf_taken bs1 n k bs2 : 16 <= k -> k mod 8 = 0 ->
  bwf 0 (bs1 ++ (n, true) :: bs2) -> bwf 0 (bs1 ++ taken n k ++ bs2).
Proof.
  intros Hk Hm. rw !bwf_app. intros [H (Hn & Hn8 & Hp & H2)%bwf_inv]. split; [done|].
  assert (H0 : bwf 0 bs2). { destruct bs2 as [|[m f] bs2]; [done|]. apply bwf_inv in H2. apply bwf_cons. tauto. }
  cbn [fst snd] in *. unfold taken. destruct (Z.ltb_spec 16 (n - k)); cbn [app]; rw !bwf_cons; cbn [fst snd pfree].
  - split_and!; try done; [lia|Z.div_mod_to_equations; lia].
  - by split_and!.
Qed.

(** The free block [b] of size [n] gives a block of size [given n k]; its caller
    owns what follows the header. *)
Lemma wpm_take_block a bs1 b n bs2 k l1 l2 Q :
  b = bend a bs1 -> 16 <= k -> k mod 8 = 0 -> k <= n -> pool_ok (a, bs1 ++ (n, true) :: bs2) ->
  (path freelist l1 b ∗ path b l2 freelist) ∗ tail a 0 (bs1 ++ (n, true) :: bs2) ∗
  (circ (l1 ++ (if 16 <? n - k then [b] else []) ++ l2) ∗ tail a 0 (bs1 ++ taken n k ++ bs2) ∗
     mem (b + (n - given n k) + BHEAD) (given n k - BHEAD) -∗ Q (b + (n - given n k) + BHEAD)) ⊢
  wpm (take_block b k) Q.
Proof.
  iIntros (Eb Hk Hk8 Hkn (Ha & Ha8 & Hbs & Hlen & Hend)) "(Hl & Ht & HQ)". cbn [fst snd] in *.
  rw bend_app -Eb in Hlen. cbn [bend fst] in Hlen.
  apply bwf_app in Hbs as [Hb1 (Hn & Hn8 & Hpf & Hb2)%bwf_inv]. cbn [fst snd] in *. specialize (Hpf eq_refl).
  pose proof (bend_le _ a _ Hb1) as Hab. rw -Eb in Hab. pose proof (bend_le _ (b + n) _ Hb2).
  rw (tail_app a 0 bs1) Hpf -Eb. cbn [tail]. iDestruct "Ht" as "(H1 & [Hbp Hbs] & Hbody & Ht)".
  unfold body. cbn [fst snd signed pfree].
  unfold take_block. iApply wpm_bind. iApply (wpm_rds _ n); [lia|]. iFrame "Hbs". iIntros "Hbs".
  iApply wpm_bind. iApply wpm_int_result; [lia|].
  rw (u32_small (n - k)); [|unfold is_u32; lia]. change (SizeQ + BHEAD) with 16.
  rw (Z.gtb_ltb (n - k) 16). unfold given, taken in *.
  iDestruct (tail_head with "Ht") as "[[Hnp Hns] Ht]".
  destruct (Z.ltb_spec 16 (n - k)) as [Hs|Hs].
  - rw (_ : n - 16 = (n - k - 16) + k); [|lia]. rw mem_split; [|lia|Z.div_mod_to_equations; lia|lia].
    rw (_ : b + 16 + (n - k - 16) = b + (n - k)); [|lia]. iDestruct "Hbody" as "[Hbody Hk]".
    rw (_ : k = 8 + (k - 8)); [|lia]. rw {1}mem_split; [|done|done|lia]. rw mem_words.
    iDestruct "Hk" as "[[[%v Hap] [%w Has]] Hk]". rw (_ : 8 + (k - 8) = k); [|lia].
    rw (_ : b + (n - k) + k = b + n); [|lia].
    iApply wpm_bind. iApply (wpm_massert_rds _ n); [lia|apply Z.eqb_refl|]. iFrame "Hnp". iIntros "Hnp".
    iApply wpm_bind. iApply (wpm_wrs _ (u32 n)). iFrame "Hbs". iIntros "Hbs".
    iApply wpm_bind. iApply (wpm_rds _ (n - k)); [lia|]. iFrame "Hbs". iIntros "Hbs".
    iApply wpm_bind. iApply (wpm_wrs _ v). iFrame "Hap". iIntros "Hap".
    iApply wpm_bind. iApply (wpm_wrs _ w). iFrame "Has". iIntros "Has".
    iApply wpm_bind. iApply (wpm_wrs _ (u32 n)). iFrame "Hnp". iIntros "Hnp".
    iApply wpm_ret. iApply "HQ". iSplitL "Hl"; [unfold circ; rw path_app; iFrame|].
    rw (tail_app a 0 bs1) Hpf -Eb. cbn [app tail signed pfree body fst snd]. rw (_ : b + (n - k) + k = b + n); [|lia].
    iFrame "H1 Hbp Hbs Hbody Hap Has Hk". iSplitR; [done|]. iApply "Ht". iFrame.
  - iApply wpm_bind. iApply (wpm_massert_rds _ n); [lia|apply Z.eqb_refl|]. iFrame "Hnp". iIntros "Hnp".
    iDestruct "Hl" as "[Hl1 Hl2]". iApply wpm_leave. iFrame "Hl1 Hl2". iIntros "[Hl Hb]".
    iApply wpm_bind. iApply (wpm_wrs _ (u32 n)). iFrame "Hbs". iIntros "Hbs".
    iApply wpm_bind. iApply (wpm_wrs _ (u32 n)). iFrame "Hnp". iIntros "Hnp".
    iApply wpm_ret. rw Z.sub_diag Z.add_0_r. iApply "HQ". iFrame "Hl".
    rw (tail_app a 0 bs1) Hpf -Eb. cbn [app tail signed pfree body fst snd]. iFrame "H1 Hbp Hbs".
    rw links_mem. iSplitR "Hb Hbody"; [iSplitR; [done|]; iApply "Ht"; iFrame|].
    rw (_ : n - BHEAD = 8 + (n - 16)); [|unfold BHEAD; lia]. iApply (mem_join (b + BHEAD) (b + 16)); [unfold BHEAD; lia|]. iFrame.
Qed.

(** From the heap [ps] a block for [k] bytes is taken, at [b] and of size [g]. *)
Definition gives (k : Z) (ps ps' : list pool) (b g : Z) : Prop :=
  exists ps1 a bs1 n bs2 ps2,
    ps = ps1 ++ (a, bs1 ++ (n, true) :: bs2) :: ps2 /\ ps' = ps1 ++ (a, bs1 ++ taken n k ++ bs2) :: ps2 /\
    k <= n /\ g = given n k /\ b = bend a bs1 + (n - g).
(** What [bget] does with the heap for a block of [k] bytes. *)
Definition bget_post (k : Z) (ps : list pool) (r : Z) : mpropI :=
  ((⌜r = 0 /\ Forall (fun x => x.2 < k) (ps ≫= pool_select true)⌝ ∗ heap ps) ∨
   (∃ ps' b g, ⌜r = (b + BHEAD)%Z /\ gives k ps ps' b g⌝ ∗ heap ps' ∗ mem r (g - BHEAD)))%I.

Definition cur (l : list (Z * Z)) : Z := match l with [] => freelist | x :: _ => x.1 end.

Lemma bend_taken a bs1 n k bs2 : bend a (bs1 ++ taken n k ++ bs2) = bend a (bs1 ++ (n, true) :: bs2).
Proof. rw !bend_app. unfold taken. case_match; cbn; f_equal; lia. Qed.
Lemma select_taken f a n k bs2 :
  select f a (taken n k ++ bs2) =
  (if f then if 16 <? n - k then [(a, n - k)] else [] else [(a + (n - given n k), given n k)]) ++ select f (a + n) bs2.
Proof.
  unfold taken, given. destruct (16 <? n - k), f; cbn; rw ?Z.sub_diag ?Z.add_0_r; try done;
    by rw (_ : a + (n - k) + k = a + n); [|lia].
Qed.

Lemma pool_ok_taken a bs1 n k bs2 : 16 <= k -> k mod 8 = 0 ->
  pool_ok (a, bs1 ++ (n, true) :: bs2) -> pool_ok (a, bs1 ++ taken n k ++ bs2).
Proof.
  intros Hk Hm (H1 & H2 & H3 & H4 & H5). unfold pool_ok. cbn [fst snd] in *. rw !bend_taken.
  split_and!; try done. by eapply bwf_taken.
Qed.

(** A block at the head of the walk is large enough. *)
Lemma wpm_bget_found ps l1 b n l2 k :
  16 <= k -> k mod 8 = 0 -> k <= n -> heap_ok (l1 ++ (b, n) :: l2) ps ->
  circ (l1 ++ (b, n) :: l2).*1 ∗ pools ps ⊢ wpm (take_block b k) (bget_post k ps).
Proof.
  iIntros (Hk Hk8 Hkn [Hok Hl]) "[Hc Hps]".
  assert (Hin : (b, n) ∈ ps ≫= pool_select true) by (rw -Hl; apply elem_of_app; right; apply list_elem_of_here).
  destruct (pools_elem _ _ _ _ Hin) as (ps1 & a & bs1 & bs2 & ps2 & -> & Eb).
  rw pools_app. iDestruct "Hps" as "(Ht & H1 & H2)".
  pose proof Hok as [_ [Hp _]%Forall_cons]%Forall_app.
  unfold circ. rw fmap_app fmap_cons path_app. cbn [fst].
  iApply (wpm_take_block a bs1 b n bs2 k l1.*1 l2.*1); [done..|]. iFrame "Hc Ht". iIntros "(Hc & Ht & Hm)".
  iRight. iExists _, (b + (n - given n k)), (given n k). iFrame "Hm". iSplitR.
  { iPureIntro. split; [done|]. exists ps1, a, bs1, n, bs2, ps2. by rw -Eb. }
  iExists (l1 ++ (if 16 <? n - k then [(b, n - k)] else []) ++ l2).
  rw pools_app. iFrame "Ht H1 H2". iSplitR "Hc".
  - iPureIntro. split; [by eapply pools_ok, pool_ok_taken; [..|exact Hp]|].
    rw pools_select select_app select_taken -Eb. rw pools_select select_app in Hl. cbn [select fst snd Bool.eqb] in Hl.
    rw -Eb in Hl. rewrite <- Permutation_middle, <- (app_assoc (select true a bs1)) in Hl.
    cbn [app] in Hl. rewrite <- (Permutation_middle (select true a bs1)) in Hl. apply Permutation_cons_inv in Hl.
    destruct (16 <? n - k); cbn [app].
    + rewrite <- Permutation_middle. rw -(app_assoc (select true a bs1)). cbn [app]. rewrite <- Permutation_middle.
      by apply Permutation_skip.
    + rw Hl. by rw app_assoc.
  - rw !fmap_app. by destruct (16 <? n - k).
Qed.

Lemma pools_bsize f ps b n : (b, n) ∈ ps ≫= pool_select f ->
  pools ps ⊢ bsize b ↦ u32 (signed (n, f)) ∗ (bsize b ↦ u32 (signed (n, f)) -∗ pools ps).
Proof.
  intros (ps1 & a & bs1 & bs2 & ps2 & -> & ->)%pools_elem. rw pools_app tail_app. cbn [tail].
  iIntros "(($ & ($ & $) & $ & $) & $ & $) $".
Qed.
Lemma pools_size_range f ps b n : Forall pool_ok ps -> (b, n) ∈ ps ≫= pool_select f ->
  16 <= n < 2 ^ 31 /\ 0 < b /\ n mod 8 = 0 /\ b mod 8 = 0.
Proof.
  intros Hok (ps1 & a & bs1 & bs2 & ps2 & -> & ->)%pools_elem.
  apply Forall_app in Hok as [_ [(H1 & Ha8 & H3 & H4 & _) _]%Forall_cons]. cbn [fst snd] in *.
  apply bwf_app in H3 as [H0 (Hn & Hn8 & _ & H2)%bwf_inv]. rw bend_app in H4. cbn [bend fst] in *.
  pose proof (bend_le _ a _ H0). pose proof (bend_le _ (bend a bs1 + n) _ H2). pose proof (bend_mod _ a _ H0).
  split_and!; lia.
Qed.
(** A free block is not the head of the list. *)
Lemma circ_ne l1 b l2 : circ (l1 ++ b :: l2) ⊢ ⌜b <> freelist⌝.
Proof.
  unfold circ. rw path_app. iIntros "[H1 H2]".
  iDestruct (path_first with "H1") as (x) "[[H1 _] _]". iDestruct (path_first with "H2") as (y) "[[H2 _] _]".
  iDestruct (points_to_ne with "[$H1 $H2]") as %H. iPureIntro. congruence.
Qed.

Lemma wpm_bget_loop fuel l1 l2 ps k :
  (length l2 < fuel)%nat -> 16 <= k -> k mod 8 = 0 -> heap_ok (l1 ++ l2) ps -> Forall (fun x => x.2 < k) l1 ->
  circ (l1 ++ l2).*1 ∗ pools ps ⊢ wpm (bget_loop fuel (cur l2) k) (bget_post k ps).
Proof.
  intros Hf Hk Hk8. revert l1 l2 Hf. induction fuel as [|fuel IH]; intros l1 l2 Hf Hok Hl1; [lia|].
  cbn [bget_loop]. destruct l2 as [|[b n] l2]; cbn [cur fst].
  - rw Z.eqb_refl. rw app_nil_r in Hok *. iIntros "[Hc Hps]". iApply wpm_ret. iLeft. iSplit.
    + iPureIntro. split; [done|]. destruct Hok as [_ Hp]. by rewrite <- Hp.
    + iExists l1. by iFrame.
  - iIntros "[Hc Hps]". rw {1}fmap_app {1}fmap_cons. cbn [fst]. iDestruct (circ_ne with "Hc") as %Hne.
    apply Z.eqb_neq in Hne. rw Hne.
    assert (Hin : (b, n) ∈ ps ≫= pool_select true) by (destruct Hok as [_ Hp]; rewrite <- Hp; apply elem_of_app; right; apply list_elem_of_here).
    destruct (pools_size_range _ _ _ _ (proj1 Hok) Hin) as [Hn _].
    iDestruct (pools_bsize _ _ _ _ Hin with "Hps") as "[Hb Hps]".
    iApply wpm_bind. iApply (wpm_rds _ n); [lia|]. iFrame "Hb". iIntros "Hb". iSpecialize ("Hps" with "Hb").
    destruct (Z.leb_spec k n).
    + iApply (wpm_bget_found _ l1 b n l2); [done..|]. rw fmap_app fmap_cons. iFrame.
    + unfold circ. rw path_app. iDestruct "Hc" as "[Hc1 Hc2]".
      destruct l2 as [|[b' n'] l2]; cbn [path fmap list_fmap fst].
      * iDestruct "Hc2" as "[Hc2 Hc3]". iApply wpm_bind. iApply wpm_rd. iFrame "Hc2". iIntros "Hc2".
        iApply (IH (l1 ++ [(b, n)]) []); [cbn in *; lia|by rw -app_assoc|by apply Forall_app; split; [|constructor]|].
        iFrame "Hps". rw app_nil_r fmap_app. unfold circ. rw path_app. cbn. iFrame.
      * iDestruct "Hc2" as "[[Hc2 Hc3] Hc4]". iApply wpm_bind. iApply wpm_rd. iFrame "Hc2". iIntros "Hc2".
        iApply (IH (l1 ++ [(b, n)]) ((b', n') :: l2)); [cbn in *; lia|by rw -app_assoc|by apply Forall_app; split; [|constructor]|].
        iFrame "Hps". rw -app_assoc fmap_app. unfold circ. rw path_app. cbn. iFrame.
Qed.

Lemma circ_flink l : circ l.*1 ⊢ flink freelist ↦ cur l ∗ (flink freelist ↦ cur l -∗ circ l.*1).
Proof. unfold circ. destruct l as [|x l]; cbn; [iIntros "[$ $] $"|iIntros "[[$ $] $] $"]. Qed.

(** [bget] finds a block when there is one, and gives nothing else away. *)
Lemma wpm_bget req ps :
  0 < req <= 2 ^ 31 - 16 -> heap ps ⊢ wpm (bget req) (bget_post (block_size req) ps).
Proof.
  iIntros (Hreq) "(%l & %Hok & Hc & Hps)". pose proof (block_size_spec req Hreq) as (H1 & H2 & _).
  iApply wpm_bind. iApply wpm_assert_pure; [apply Z.ltb_lt; lia|].
  iApply wpm_bind. iApply wpm_round_size; [done|]. iDestruct (circ_flink with "Hc") as "[Hf Hc]".
  iApply wpm_bind. iApply wpm_rd. iFrame "Hf". iIntros "Hf". iSpecialize ("Hc" with "Hf"). iApply wpm_bind.
  iApply (wpm_size (length l) (circ l.*1)); [rewrite <- (length_fmap fst l); apply path_owns|].
  iFrame "Hc". iIntros (words) "%Hw Hc".
  iApply (wpm_bget_loop _ [] l); [lia|lia|done..|]. iFrame.
Qed.
End take.

(** ** Giving a block back *)

Section release.
Context {cfg : Config} {hl : HeapLayout}.

Lemma head_size_range a bs pf : bwf pf bs -> bend a bs < a + 2 ^ 31 -> - 2 ^ 31 <= head_size bs < 2 ^ 31.
Proof.
  intros H Hl. destruct bs as [|[n f] bs]; cbn [head_size bend fst] in *; [done|].
  apply bwf_inv in H as (Hn & _ & _ & H). pose proof (bend_le _ (a + n) _ H). unfold signed. cbn [fst snd] in *. destruct f; lia.
Qed.
(** The list of free blocks records a size that has changed. *)
Lemma list_resize (l : list (Z * Z)) (b n m : Z) (l1 l2 : list (Z * Z)) :
  l ≡ₚ l1 ++ (b, n) :: l2 -> exists l', l'.*1 = l.*1 /\ l' ≡ₚ l1 ++ (b, m) :: l2.
Proof.
  intros Hl. assert (H : (b, n) ∈ l) by (rw Hl; apply elem_of_app; right; apply list_elem_of_here).
  apply list_elem_of_split in H as (la & lb & ->). exists (la ++ (b, m) :: lb). split; [by rw !fmap_app|].
  rewrite <- !Permutation_middle in Hl. rewrite <- !Permutation_middle. by apply Permutation_cons, (Permutation_cons_inv (a := (b, n))).
Qed.
(** A header that is no longer one. *)
Lemma hdr_mem b pf n : hdr b pf n ⊢ mem b 8.
Proof. rw mem_words. iIntros "[H1 H2]". iSplitL "H1"; by iExists _. Qed.

(** The block [b], whose memory has come back, is joined to a free block before
    it or put on the list. *)
Definition joined_prev (a : Z) (bs1 : list block) (b n : Z) (R : list (Z * Z)) (c : Z) : mpropI :=
  (∃ bsL m l, ⌜c = bend a bsL /\ (c + m = b + n)%Z /\ 16 <= m /\ m mod 8 = 0 /\ bwf 0 bsL /\ blast 0 bsL = 0 /\
               useds a bsL = useds a bs1 /\ l ≡ₚ frees a bsL ++ (c, m) :: R⌝ ∗
     tiles a 0 bsL ∗ hdr c 0 m ∗ mem (c + 16) (m - 16) ∗ circ l.*1)%I.

Lemma wpm_join_prev a bs1 b n l R Q :
  b = bend a bs1 -> bwf 0 bs1 -> 16 <= n -> n mod 8 = 0 -> b + n < a + 2 ^ 31 -> l ≡ₚ frees a bs1 ++ R ->
  circ l.*1 ∗ tiles a 0 bs1 ∗ hdr b (blast 0 bs1) (- n) ∗ mem (b + BHEAD) (n - BHEAD) ∗
    (∀ c, joined_prev a bs1 b n R c -∗ Q c) ⊢
  wpm (join_prev b) Q.
Proof.
  iIntros (Eb Hbs Hn Hn8 Hlen Hl) "(Hc & Ht & [Hp Hs] & Hm & HQ)". pose proof (bend_le _ a _ Hbs) as Hab. rw -Eb in Hab.
  iApply wpm_bind.
  destruct (blast_cases bs1 Hbs) as [E|(bs' & p & -> & E & E' & Hp16)]; rw E.
  - iApply (wpm_rds _ 0); [lia|]. iFrame "Hp". iIntros "Hp". cbn [negb Z.eqb].
    rw (_ : n - BHEAD = 8 + (n - 16)); [|unfold BHEAD; lia].
    rw mem_split; [|done|done|lia]. rw -links_mem. iDestruct "Hm" as "[Hk Hm]".
    iApply wpm_bind. iApply wpm_link_last. iFrame "Hc Hk". iIntros "Hc".
    iApply wpm_bind. iApply (wpm_rds _ (- n)); [lia|]. iFrame "Hs". iIntros "Hs".
    iApply wpm_bind. iApply (wpm_wrs _ (u32 (- n))). iFrame "Hs". iIntros "Hs".
    iApply wpm_ret. iApply "HQ". iExists bs1, n, (l ++ [(b, n)]). rw Z.opp_involutive.
    rw (_ : b + BHEAD + 8 = b + 16); [|unfold BHEAD; lia]. rw fmap_app. iFrame. iPureIntro.
    split_and!; try done. rw Hl. rewrite <- Permutation_cons_append. apply Permutation_middle.
  - apply bwf_app in Hbs as [Hbs (_ & Hp8 & _)%bwf_inv]. cbn [fst] in Hp8.
    rw bend_app in Eb. cbn [bend fst] in Eb. pose proof (bend_le _ a _ Hbs).
    iApply (wpm_rds _ p); [lia|]. iFrame "Hp". iIntros "Hp". rw (proj2 (Z.eqb_neq p 0)); [|lia]. cbn [negb].
    rw tiles_app E'. cbn [tiles signed body fst snd]. iDestruct "Ht" as "(Ht & [Hcp Hcs] & Hcm & _)".
    rw (_ : bend a bs' = b - p); [|lia].
    iApply wpm_bind. iApply (wpm_rds _ (- n)); [lia|]. iFrame "Hs". iIntros "Hs".
    iApply wpm_bind. iApply (wpm_massert_rds _ p); [lia|apply Z.eqb_refl|]. iFrame "Hcs". iIntros "Hcs".
    iApply wpm_bind. iApply (wpm_rds _ p); [lia|]. iFrame "Hcs". iIntros "Hcs".
    iApply wpm_bind. iApply wpm_int_result; [lia|].
    iApply wpm_bind. iApply (wpm_wrs _ (u32 p)). iFrame "Hcs". iIntros "Hcs".
    rw select_app in Hl. cbn in Hl. rw -app_assoc in Hl. destruct (list_resize l _ p (p + n) _ _ Hl) as (l' & El & Hl').
    iApply wpm_ret. iApply "HQ". iExists bs', (p + n), l'. rw Z.sub_opp_r El (_ : bend a bs' = b - p); [|lia]. iFrame "Hcp Hcs Hc Ht".
    iSplitR.
    { iPureIntro. rw select_app. cbn. rw app_nil_r.
      split_and!; [lia|lia|lia|Z.div_mod_to_equations; lia|done|done|done|]. rw Hl'. by rw (_ : bend a bs' = b - p); [|lia]. }
    rw (_ : p + n - 16 = p - 16 + (8 + (n - 8))); [|lia]. iApply (mem_join (b - p + 16) b); [lia|]. iFrame "Hcm".
    iApply (mem_join b (b + BHEAD)); [done|]. iFrame "Hm". iApply (hdr_mem _ p (- n)). iFrame.
Qed.

(** The free block [c] takes in a free block that follows it. *)
Definition joined_next (c m : Z) (bs2 : list block) (R : list (Z * Z)) (bn : Z) : mpropI :=
  (∃ m' bs2' pf l, ⌜bn = (c + m')%Z /\ 16 <= m' /\ m' mod 8 = 0 /\ bwf m' bs2' /\ head_size bs2' < 0 /\
               useds (c + m') bs2' = useds (c + m) bs2 /\ bend (c + m') bs2' = bend (c + m) bs2 /\
               l ≡ₚ (c, m') :: frees (c + m') bs2' ++ R⌝ ∗
     hdr c 0 m' ∗ mem (c + 16) (m' - 16) ∗ tail (c + m') pf bs2' ∗ circ l.*1)%I.

Lemma bwf_used pf bs : bwf pf bs -> head_size bs < 0 -> forall pf', bwf pf' bs.
Proof.
  destruct bs as [|[n f] bs]; [done|]. intros (H1 & H2 & H3 & H4)%bwf_inv Hh pf'. apply bwf_cons.
  unfold head_size, signed in Hh. cbn [fst snd] in *. destruct f; [lia|]. by split_and!.
Qed.
(** What follows a free block is in use. *)
Lemma bwf_used_free n bs : bwf n bs -> 0 < n -> head_size bs < 0 /\ forall pf, bwf pf bs.
Proof.
  intros H Hn. assert (head_size bs < 0).
  { destruct bs as [|[m f] bs]; [done|]. apply bwf_inv in H as (H1 & _ & H3 & _). unfold head_size, signed.
    cbn [fst snd] in *. destruct f; [|lia]. specialize (H3 eq_refl). lia. }
  split; [done|]. by eapply bwf_used.
Qed.
Lemma wpm_join_next c m bs2 l R Q :
  bwf 0 bs2 -> 16 <= m -> m mod 8 = 0 -> bend (c + m) bs2 < c + 2 ^ 31 -> l ≡ₚ (c, m) :: frees (c + m) bs2 ++ R ->
  circ l.*1 ∗ hdr c 0 m ∗ mem (c + 16) (m - 16) ∗ tail (c + m) 0 bs2 ∗
    (∀ bn, joined_next c m bs2 R bn -∗ Q bn) ⊢
  wpm (join_next c) Q.
Proof.
  iIntros (Hbs Hm Hm8 Hlen Hl) "(Hc & [Hp Hs] & Hm & Ht & HQ)". pose proof (bend_le _ (c + m) _ Hbs).
  assert (Hr : - 2 ^ 31 <= head_size bs2 < 2 ^ 31) by (eapply (head_size_range (c + m)); [done|lia]).
  iApply wpm_bind. iApply (wpm_rds _ m); [lia|]. iFrame "Hs". iIntros "Hs".
  destruct (decide (0 < head_size bs2)) as [Hpos|Hneg]; first last.
  - iDestruct (tail_head with "Ht") as "[[Hnp Hns] Ht]".
    iApply wpm_bind. iApply (wpm_rds _ (head_size bs2)); [done|]. iFrame "Hns". iIntros "Hns".
    rw (proj2 (Z.ltb_ge _ _)); [|lia]. iSpecialize ("Ht" $! 0 with "[$Hnp $Hns]").
    iApply wpm_ret. iApply "HQ". iExists m, bs2, 0, l. iFrame. iPureIntro.
    assert (Hh : head_size bs2 < 0).
    { destruct bs2 as [|[n f] bs2]; [done|]. apply bwf_inv in Hbs. unfold head_size, signed in *. cbn [fst snd] in *. destruct f; lia. }
    split_and!; try done. by eapply bwf_used.
  - destruct bs2 as [|[n f] bs2]; [done|]. apply bwf_inv in Hbs as (Hn & Hn8 & _ & Hbs). cbn [fst snd] in *.
    assert (f = true) as -> by (destruct f; [done|]; unfold head_size, signed in Hpos; cbn in Hpos; lia).
    cbn [tail body signed pfree fst snd head_size bend select Bool.eqb app] in *.
    iDestruct "Ht" as "([Hbp Hbs] & Hbm & Ht)". pose proof (bend_le _ (c + m + n) _ Hbs).
    iApply wpm_bind. iApply (wpm_rds _ n); [done|]. iFrame "Hbs". iIntros "Hbs".
    rw (proj2 (Z.ltb_lt _ _)); [|lia]. iDestruct (tail_head with "Ht") as "[[Hnp Hns] Ht]".
    iApply wpm_bind. iApply (wpm_massert_rds _ n); [lia|apply Z.eqb_refl|]. iFrame "Hnp". iIntros "Hnp".
    iSpecialize ("Ht" with "[$Hnp $Hns]").
    assert (Hin : (c + m, n) ∈ l) by (rw Hl; apply list_elem_of_further, list_elem_of_here).
    apply list_elem_of_split in Hin as (l1 & l2 & ->). unfold circ. rw {1}fmap_app {1}fmap_cons path_app. cbn [fst].
    iDestruct "Hc" as "[Hc1 Hc2]". iApply wpm_leave. iFrame "Hc1 Hc2". iIntros "[Hc Hb]".
    iApply wpm_bind. iApply wpm_int_result; [lia|]. iApply wpm_bind. iApply (wpm_wrs _ (u32 m)). iFrame "Hs". iIntros "Hs".
    rewrite <- Permutation_middle in Hl. rw perm_swap in Hl. apply Permutation_cons_inv in Hl.
    destruct (list_resize (l1 ++ l2) c m (m + n) [] _ Hl) as (l' & El & Hl').
    iApply wpm_ret. iApply "HQ". iExists (m + n), bs2, n, l'. rw El Z.add_assoc fmap_app. iFrame "Hp Hs Ht Hc".
    iSplitR.
    { iPureIntro. apply (bwf_used_free n) in Hbs as [Hh Hbs]; [|lia].
      split_and!; [lia|lia|rw Z.add_mod; [|done]; by rw Hm8 Hn8|done|done|done|done|done]. }
    rw (_ : m + n - 16 = m - 16 + (8 + (8 + (n - 16)))); [|lia]. iApply (mem_join (c + 16) (c + m)); [lia|]. iFrame "Hm".
    iApply (mem_join (c + m) (c + m + BHEAD)); [done|]. iSplitL "Hbp Hbs"; [iApply (hdr_mem _ 0 n); iFrame|].
    iApply (mem_join (c + m + BHEAD) (c + m + 16)); [unfold BHEAD; lia|]. rw links_mem. iFrame.
Qed.

(** Where the pools lie does not change. *)
Definition extents (ps : list pool) : list (Z * Z) := (fun p => (p.1, bend p.1 p.2)) <$> ps.
Definition useds_of (ps : list pool) : list (Z * Z) := ps ≫= pool_select false.

Lemma extents_replace ps1 a bs bs' ps2 : bend a bs' = bend a bs -> extents (ps1 ++ (a, bs') :: ps2) = extents (ps1 ++ (a, bs) :: ps2).
Proof. intros E. unfold extents. rw !fmap_app !fmap_cons. cbn [fst snd]. by rw E. Qed.

(** A block in use is given back with its memory. *)
Lemma wpm_brel ps b n (Q : unit -> mpropI) :
  (b, n) ∈ useds_of ps ->
  heap ps ∗ mem (b + BHEAD) (n - BHEAD) ∗
    (∀ ps', ⌜extents ps' = extents ps /\ useds_of ps ≡ₚ (b, n) :: useds_of ps'⌝ ∗ heap ps' -∗ Q tt) ⊢
  wpm (brel (b + BHEAD)) Q.
Proof.
  iIntros (Hin) "((%l & [%Hok %Hl] & Hc & Hps) & Hm & HQ)".
  destruct (pools_size_range _ _ _ _ Hok Hin) as (Hn & Hb0 & _).
  destruct (pools_elem _ _ _ _ Hin) as (ps1 & a & bs1 & bs2 & ps2 & -> & Eb). clear Hin.
  rw pools_app. iDestruct "Hps" as "(Ht & Hps)".
  pose proof Hok as [_ [(Ha & Ha8 & Hbs & Hlen & Hend) _]%Forall_cons]%Forall_app. cbn [fst snd] in *.
  rw pools_select in Hl. rw bend_app -Eb in Hlen Hend. rw select_app -Eb in Hl.
  rw tail_app -Eb. apply bwf_app in Hbs as [Hb1 (_ & Hn8 & _ & Hb2)%bwf_inv].
  cbn [tail body bend select fst snd signed pfree Bool.eqb app] in *.
  pose proof (bend_le _ a _ Hb1) as Hab. rw -Eb in Hab. pose proof (bend_le _ (b + n) _ Hb2).
  iDestruct "Ht" as "(H1 & [Hp Hs] & _ & Ht)". rw -app_assoc in Hl.
  unfold brel. rw (_ : b + BHEAD - BHEAD = b); [|lia].
  iApply wpm_bind. iApply wpm_assert_pure; [by rw (proj2 (Z.eqb_neq (b + BHEAD) 0)); [|unfold BHEAD; lia]|].
  iApply wpm_bind. iApply (wpm_massert_rds _ (- n)); [lia|apply Z.ltb_lt; lia|]. iFrame "Hs". iIntros "Hs".
  iDestruct (tail_head with "Ht") as "[[Hnp Hns] Ht]". iApply wpm_bind.
  iApply (wpm_massert_keep _ (bsize b ↦ u32 (- n) ∗ prevfree (b + n) ↦ u32 0)%I).
  { iIntros "[H1 H2]". iApply wpm_bind. iApply (wpm_rds _ (- n)); [lia|]. iFrame "H1". iIntros "H1". rw Z.sub_opp_r.
    iApply wpm_bind. iApply (wpm_rds _ 0); [lia|]. iFrame "H2". iIntros "H2". iApply wpm_ret. by iFrame. }
  iFrame "Hs Hnp". iIntros "[Hs Hnp]". iSpecialize ("Ht" with "[$Hnp $Hns]").
  iApply wpm_bind. iApply (wpm_join_prev a bs1 b n l); [done|done|lia|done|lia|exact Hl|]. iFrame "Hc H1 Hp Hs Hm".
  iIntros (c) "(%bsL & %m & %l' & (%Ec & %Em & %Hm & %Hm8 & %HbL & %HlL & %HuL & %Hl') & HtL & Hh & Hcm & Hc)".
  iApply wpm_bind. rw -Em. pose proof (bend_le _ a _ HbL).
  assert (Hl'' : l' ≡ₚ (c, m) :: frees (c + m) bs2 ++ frees a bsL ++ (ps1 ++ ps2) ≫= pool_select true).
  { rw Hl' -Em. rewrite <- Permutation_middle. apply Permutation_skip. apply Permutation_app_swap_app. }
  iApply (wpm_join_next c m bs2 l'); [done|lia|done|rw Em; lia|exact Hl''|]. iFrame "Hc Hh Hcm Ht".
  iIntros (bn) "(%m' & %bs2' & %pf & %lf & (-> & %Hm' & %Hm8' & %Hb2' & %Hh2' & %Hu2 & %He2 & %Hlf) & [Hhp Hhs] & Hcm & Ht & Hc)".
  pose proof (bend_le _ (c + m') _ Hb2') as Hcm. rw He2 Em in Hcm.
  assert (Hr : - 2 ^ 31 <= head_size bs2' < 2 ^ 31) by (eapply (head_size_range (c + m')); [done|rw He2 Em; lia]).
  iDestruct (tail_head with "Ht") as "[[Hnp Hns] Ht]".
  iApply wpm_bind. iApply (wpm_massert_rds _ (head_size bs2')); [done|by apply Z.ltb_lt|]. iFrame "Hns". iIntros "Hns".
  iApply wpm_bind. iApply (wpm_rds _ m'); [lia|]. iFrame "Hhs". iIntros "Hhs".
  iApply (wpm_wrs _ (u32 pf)). iFrame "Hnp". iIntros "Hnp". iSpecialize ("Ht" $! m' with "[$Hnp $Hns]").
  set (bs' := bsL ++ (m', true) :: bs2').
  assert (Ee : bend a bs' = bend (b + n) bs2) by (unfold bs'; rw bend_app -Ec; cbn [bend fst]; by rw He2 Em).
  iApply ("HQ" $! (ps1 ++ (a, bs') :: ps2)). iSplitR.
  - iPureIntro. split.
    + apply extents_replace. rw bend_app -Eb. exact Ee.
    + unfold useds_of. rw !pools_select !select_app -Eb -Ec. cbn [select Bool.eqb app fst snd].
      rw Hu2 Em HuL -!app_assoc. cbn [app]. by rewrite <- Permutation_middle.
  - iExists lf. rw pools_app. unfold bs' at 2. rw tail_app HlL -Ec. cbn [tail signed body pfree fst snd].
    iFrame. iPureIntro. split.
    + eapply pools_ok; [done|]. unfold pool_ok. cbn [fst snd]. rw Ee. split_and!; try done.
      apply bwf_app. rw HlL. split; [done|]. apply bwf_cons. by split_and!.
    + rw Hlf pools_select select_app -Ec. cbn [select Bool.eqb app fst snd]. rw -app_assoc. cbn [app].
      rewrite <- Permutation_middle. apply Permutation_skip. apply Permutation_app_swap_app.
Qed.

(** Memory becomes a pool of one free block. *)
Lemma wpm_bpool ps buf len (Q : unit -> mpropI) :
  let n := len / 8 * 8 in
  0 < buf -> buf mod 8 = 0 -> 24 <= len < 2 ^ 31 -> buf + n <= 2 ^ 32 ->
  heap ps ∗ mem buf n ∗ (heap (ps ++ [(buf, [(n - BHEAD, true)])]) -∗ Q tt) ⊢ wpm (bpool buf len) Q.
Proof.
  iIntros (n Hb Hb8 Hlen Hend) "((%l & [%Hok %Hl] & Hc & Hps) & Hm & HQ)".
  assert (Hn : 24 <= n <= len) by (unfold n; Z.div_mod_to_equations; lia).
  assert (Hn8 : n mod 8 = 0) by (unfold n; apply Z.mod_mul; done).
  unfold bpool. rw land_quantum. fold n. rw (u32_small n); [|unfold is_u32; lia].
  assert (E : u32 (n - BHEAD) = n - BHEAD) by (apply u32_small; unfold is_u32, BHEAD; lia). rw E.
  assert (E' : i32 (n - BHEAD) = n - BHEAD) by (apply i32_small; unfold BHEAD; lia). rw E'. unfold BHEAD in *.
  rw (_ : n = 8 + (8 + (n - 24 + 8))); [|lia]. rw mem_split; [|done|done|lia]. rw (mem_split (buf + 8)); [|done|done|lia].
  rw (mem_split (buf + 8 + 8)); [|lia|Z.div_mod_to_equations; lia|done].
  rw (_ : 8 + (8 + (n - 24 + 8)) = n); [|lia]. rw -links_mem. rw (_ : buf + 8 + 8 + (n - 24) = buf + (n - 8)); [|lia].
  rw !mem_words. iDestruct "Hm" as "([[%v1 Hp] [%v2 Hs]] & Hk & Hm & ([%v3 Hnp] & [%v4 Hns]))".
  iApply wpm_bind. iApply wpm_assert_pure; [apply Z.leb_le; change (- (ESent + 1)) with 2147483647; lia|].
  iApply wpm_bind. iApply (wpm_wrs _ v1). iFrame "Hp". iIntros "Hp".
  iApply wpm_bind. iApply wpm_link_last. iFrame "Hc Hk". iIntros "Hc".
  iApply wpm_bind. iApply (wpm_wrs _ v2). iFrame "Hs". iIntros "Hs".
  iApply wpm_bind. iApply (wpm_wrs _ v3). iFrame "Hnp". iIntros "Hnp".
  iApply (wpm_wrs _ v4). iFrame "Hns". iIntros "Hns".
  iApply "HQ". iExists (l ++ [(buf, n - 8)]). rw fmap_app pools_app. iFrame "Hc Hps".
  cbn [tail body signed pfree fst snd]. iFrame "Hp Hs Hnp Hns". rw (_ : buf + 8 + 8 = buf + 16); [|lia].
  rw (_ : n - 8 - 16 = n - 24); [|lia]. iFrame "Hm". iSplit; [|by rw /pools].
  iPureIntro. split.
  - apply Forall_app. split; [done|]. constructor; [|done]. unfold pool_ok, BHEAD. cbn [fst snd bend].
    split_and!; try done; [|lia|lia]. apply bwf_cons. cbn [fst snd]. split_and!; try done; [lia|Z.div_mod_to_equations; lia].
  - rw bind_app Hl. by cbn.
Qed.
End release.
