(* ===== verification/Malloc.v ===== *)
(** * What the memory allocator promises: clients of malloc

    An abstract allocator hands out buffers that do not overlap and keeps what
    is stored in them ([astep]).  The routines of bget_malloc.c refine it: every
    client that is correct with the abstract allocator runs on them without a
    fault, with the same results. *)

From stdpp Require Import prelude gmap list sorting.
From Stdlib Require Import ZArith Lia.
From iris.proofmode Require Import proofmode.
From S2P Require Import Prelude CoreMmu SepLogic Bget BgetSpec.
#[local] Open Scope Z_scope.

Section ops.
Context {cfg : Config} {hl : HeapLayout}.

(** What taking a block means for the blocks in use. *)
Lemma gives_useds k ps ps' b g : 16 <= k -> Forall pool_ok ps -> gives k ps ps' b g ->
  extents ps' = extents ps /\ useds_of ps' ≡ₚ (b, g) :: useds_of ps /\ k <= g <= k + 16.
Proof.
  intros Hk Hok (ps1 & a & bs1 & n & bs2 & ps2 & -> & -> & Hkn & -> & ->). split_and!.
  - apply extents_replace, bend_taken.
  - unfold useds_of. rw !pools_select !(select_app false a bs1) select_taken. cbn [select Bool.eqb app fst snd].
    rw -!app_assoc. cbn [app]. by rewrite <- Permutation_middle.
  - unfold given. case_match; lia.
  - unfold given. case_match; lia.
Qed.

(** A request as it is passed on. *)
Lemma request_size n : 0 <= n <= 2 ^ 31 - 16 -> i32 (if n =? 0 then 1 else n) = Z.max n 1.
Proof.
  intros H. destruct (Z.eqb_spec n 0) as [->|]; [done|]. rw Z.max_l; [|lia].
  apply i32_small. lia.
Qed.
Lemma wpm_malloc n ps : 0 <= n <= 2 ^ 31 - 16 -> heap ps ⊢ wpm (malloc n) (bget_post (block_size (Z.max n 1)) ps).
Proof.
  iIntros (Hn) "H". unfold malloc, raw_malloc. rw Z.add_0_l u32_small; [|unfold is_u32; lia].
  rw (proj2 (Z.ltb_ge n n)); [|lia].
  rw request_size; [|done]. by iApply wpm_bget; [lia|].
Qed.

Lemma pools_header ps b n : Forall pool_ok ps -> (b, n) ∈ useds_of ps ->
  pools ps ⊢ bsize b ↦ u32 (- n) ∗ (bsize b ↦ u32 (- n) -∗ pools ps).
Proof. intros _. apply (pools_bsize false). Qed.

(** The size of a buffer, read from its header. *)
Lemma used_size n : 16 <= n < 2 ^ 31 -> i32 (u32 (- - n) - BHEAD) = n - BHEAD.
Proof.
  intros H. rw Z.opp_involutive u32_small; [|unfold is_u32; lia].
  unfold BHEAD. apply i32_small. lia.
Qed.

(** ** Clearing and copying words *)

Lemma seqZ_S i k : seqZ i (Z.of_nat (S k)) = i :: seqZ (i + 1) (Z.of_nat k).
Proof. rw seqZ_cons; [|lia]. by rw (_ : Z.pred (Z.of_nat (S k)) = Z.of_nat k); [|lia]. Qed.

Lemma wpm_zero_words a i k l (Q : unit -> mpropI) : k = Z.of_nat (length l) ->
  cells (a + 4 * i) l ∗ (cells (a + 4 * i) (replicate (length l) 0) -∗ Q tt) ⊢
  wpm (for_each (seqZ i k) (fun i => wr (a + 4 * i) 0)) Q.
Proof.
  intros ->. revert i. induction l as [|v l IH]; intros i; cbn [length].
  - iIntros "[H HQ]". iApply wpm_ret. by iApply "HQ".
  - rw seqZ_S. cbn [for_each cells replicate]. iIntros "[[Hv Hl] HQ]".
    iApply wpm_bind. iApply (wpm_wr _ v). iFrame "Hv". iIntros "Hv". iApply IH.
    rw (_ : a + 4 * (i + 1) = a + 4 * i + 4); [|lia]. iFrame "Hl". iIntros "Hl". iApply "HQ". iFrame.
Qed.
Lemma wpm_copy_words d s i k c e (Q : unit -> mpropI) : k = Z.of_nat (length c) -> length e = length c ->
  cells (s + 4 * i) c ∗ cells (d + 4 * i) e ∗ (cells (s + 4 * i) c ∗ cells (d + 4 * i) c -∗ Q tt) ⊢
  wpm (for_each (seqZ i k) (fun i => v <- rd (s + 4 * i);; wr (d + 4 * i) v)%K) Q.
Proof.
  intros ->. revert i e. induction c as [|v c IH]; intros i [|w e] He; cbn [length] in *; try done.
  - iIntros "(Hs & Hd & HQ)". iApply wpm_ret. iApply "HQ". by iFrame.
  - rw seqZ_S. cbn [for_each cells]. iIntros "([Hv Hc] & [Hw He] & HQ)".
    iApply wpm_bind. iApply wpm_bind. iApply wpm_rd. iFrame "Hv". iIntros "Hv".
    iApply (wpm_wr _ w). iFrame "Hw". iIntros "Hw". iApply (IH _ e); [lia|].
    rw (_ : s + 4 * (i + 1) = s + 4 * i + 4); [|lia]. rw (_ : d + 4 * (i + 1) = d + 4 * i + 4); [|lia].
    iFrame "Hc He". iIntros "[Hc He]". iApply "HQ". iFrame.
Qed.

(** The bytes of a buffer. *)
Definition byte (c : list Z) (k : Z) : Z := Z.land (Z.shiftr (nth (Z.to_nat (k / 4)) c 0) (8 * (k mod 4))) 255.

Lemma byte_merge v w j r : 0 <= j < r -> r <= 3 ->
  Z.land (Z.shiftr (Z.lor (Z.land w (not32 (2 ^ (8 * r) - 1))) (Z.land v (2 ^ (8 * r) - 1))) (8 * j)) 255 =
  Z.land (Z.shiftr v (8 * j)) 255.
Proof.
  intros Hj Hr. change 255 with (Z.ones 8). rw (_ : 2 ^ (8 * r) - 1 = Z.ones (8 * r)); [|rw Z.ones_equiv; lia].
  apply Z.bits_inj'. intros i Hi. rw !Z.land_spec. destruct (Z.ltb_spec i 8); [|rw Z.ones_spec_high; [by rw !andb_false_r|lia]].
  f_equal. rw !Z.shiftr_spec; [|lia..]. rw Z.lor_spec !Z.land_spec not32_testbit; [|lia].
  rw Z.ones_spec_low; [|lia]. cbn [negb]. by rw !andb_false_r andb_true_r.
Qed.

(** The first [n] bytes of one buffer are those of another. *)
Definition same_bytes (n : Z) (c e : list Z) : Prop := forall k, 0 <= k < n -> byte e k = byte c k.

Lemma same_bytes_words n c c1 c2 e2 :
  c = c1 ++ c2 -> (n <= bytes c1 \/ exists v w c2' e2', c2 = v :: c2' /\ e2 = w :: e2' /\ n <= bytes c1 + 3 /\
     forall j, 0 <= j < n - bytes c1 -> Z.land (Z.shiftr w (8 * j)) 255 = Z.land (Z.shiftr v (8 * j)) 255) ->
  same_bytes n c (c1 ++ e2).
Proof.
  unfold bytes. intros -> H k Hk. unfold byte. destruct (decide (k < 4 * Z.of_nat (length c1))) as [Hlt|Hge].
  - rw !app_nth1; [done|Z.div_mod_to_equations; lia..].
  - destruct H as [H|(v & w & c2' & e2' & -> & -> & H3 & H)]; [lia|].
    assert (E : Z.to_nat (k / 4) = length c1) by (Z.div_mod_to_equations; lia).
    rw !app_nth2; [|lia..]. rw E Nat.sub_diag. cbn [nth]. apply H. Z.div_mod_to_equations; lia.
Qed.

Lemma wpm_memcpy d s n c e (Q : unit -> mpropI) :
  0 <= n <= bytes c -> n <= bytes e ->
  cells s c ∗ cells d e ∗
    (∀ e', ⌜bytes e' = bytes e /\ same_bytes n c e'⌝ ∗ cells s c ∗ cells d e' -∗ Q tt) ⊢
  wpm (memcpy d s n) Q.
Proof.
  iIntros (Hc He) "(Hs & Hd & HQ)". unfold memcpy.
  set (q := Z.to_nat (n / 4)). assert (Hq : n / 4 = Z.of_nat q) by (unfold q; rw Z2Nat.id; [done|Z.div_mod_to_equations; lia]).
  unfold bytes in Hc, He. assert (Hqc : length (take q c) = q) by (rw length_take; Z.div_mod_to_equations; lia).
  assert (Hqe : length (take q e) = q) by (rw length_take; Z.div_mod_to_equations; lia).
  assert (Hbc : bytes (take q c) = 4 * (n / 4)) by (unfold bytes; lia).
  assert (Hbe : bytes (take q e) = 4 * (n / 4)) by (unfold bytes; lia).
  assert (Es : cells s c ⊣⊢ cells s (take q c) ∗ cells (s + 4 * (n / 4)) (drop q c)) by (by rw -{1}(take_drop q c) cells_app Hbc).
  assert (Ed : cells d e ⊣⊢ cells d (take q e) ∗ cells (d + 4 * (n / 4)) (drop q e)) by (by rw -{1}(take_drop q e) cells_app Hbe).
  iDestruct (bi.equiv_entails_1_1 _ _ Es with "Hs") as "[Hs1 Hs2]". iDestruct (bi.equiv_entails_1_1 _ _ Ed with "Hd") as "[Hd1 Hd2]".
  iApply wpm_bind. iApply (wpm_copy_words d s 0 _ (take q c) (take q e)); [by rw Hqc|by rw Hqe|].
  rw !Z.mul_0_r !Z.add_0_r. iFrame "Hs1 Hd1". iIntros "[Hs1 Hd1]".
  destruct (Z.eqb_spec (n mod 4) 0) as [Hm|Hm].
  - iApply wpm_ret. iApply ("HQ" $! (take q c ++ drop q e)).
    rw cells_app Hbc Es. iFrame. iPureIntro. split.
    + rw bytes_app. unfold bytes. rw Hqc length_drop. Z.div_mod_to_equations; lia.
    + eapply (same_bytes_words n c (take q c) (drop q c)); [by rw take_drop|]. left. unfold bytes. rw Hqc. Z.div_mod_to_equations; lia.
  - destruct (drop q c) as [|v c2] eqn:Ec; [apply (f_equal length) in Ec; rw length_drop in Ec; cbn in Ec; Z.div_mod_to_equations; lia|].
    destruct (drop q e) as [|w e2] eqn:Ee; [apply (f_equal length) in Ee; rw length_drop in Ee; cbn in Ee; Z.div_mod_to_equations; lia|].
    cbn [cells]. iDestruct "Hs2" as "[Hv Hs2]". iDestruct "Hd2" as "[Hw Hd2]".
    iApply wpm_bind. iApply wpm_rd. iFrame "Hv". iIntros "Hv".
    iApply wpm_bind. iApply wpm_rd. iFrame "Hw". iIntros "Hw".
    iApply (wpm_wr _ w). iFrame "Hw". iIntros "Hw". set (x := Z.lor _ _).
    iApply ("HQ" $! (take q c ++ x :: e2)).
    rw cells_app Hbc. cbn [cells]. iFrame "Hd1 Hd2 Hw". rw Es. cbn [cells]. iFrame. iPureIntro. split.
    + rw (_ : bytes e = bytes (take q e ++ w :: e2)); [|by rw -Ee take_drop]. rw !bytes_app. unfold bytes. cbn [length]. lia.
    + eapply (same_bytes_words n c (take q c) (v :: c2)); [by rw -Ec take_drop|]. right. exists v, x, c2, e2. split_and!; [done|done|rw Hbc; Z.div_mod_to_equations; lia|].
      intros j Hj. rw Hbc in Hj. unfold x. apply byte_merge; Z.div_mod_to_equations; lia.
Qed.

(** ** calloc and realloc *)

Definition calloc_post (k : Z) (ps : list pool) (r : Z) : mpropI :=
  ((⌜r = 0 /\ Forall (fun x => x.2 < k) (ps ≫= pool_select true)⌝ ∗ heap ps) ∨
   (∃ ps' b g, ⌜r = (b + BHEAD)%Z /\ gives k ps ps' b g⌝ ∗ heap ps' ∗ cells r (replicate (Z.to_nat ((g - BHEAD) / 4)) 0)))%I.

(** The facts about a block just taken. *)
Lemma gives_range k ps ps' b g l l' : 16 <= k -> heap_ok l ps -> gives k ps ps' b g -> heap_ok l' ps' ->
  (b, g) ∈ useds_of ps' /\ k <= g < 2 ^ 31 /\ 0 < b /\ g mod 8 = 0 /\ b mod 8 = 0.
Proof.
  intros Hk [Hok _] Hg [Hok' _]. destruct (gives_useds k ps ps' b g Hk Hok Hg) as (_ & Hu & Hkg).
  assert (Hin : (b, g) ∈ useds_of ps') by (rw Hu; apply list_elem_of_here).
  destruct (pools_size_range _ _ _ _ Hok' Hin) as (? & ? & ? & ?). split_and!; try done; lia.
Qed.
Lemma heap_pure ps : heap ps ⊢ ∃ l, ⌜heap_ok l ps⌝ ∗ heap ps.
Proof. iIntros "(%l & %H & H)". iExists l. iSplit; [done|]. iExists l. by iFrame. Qed.
Lemma heap_header ps b n : (b, n) ∈ useds_of ps ->
  heap ps ⊢ bsize b ↦ u32 (- n) ∗ (bsize b ↦ u32 (- n) -∗ heap ps).
Proof.
  iIntros (Hin) "(%l & %H & Hc & Hps)". iDestruct (pools_header with "Hps") as "[$ Hps]"; [apply H|done|].
  iIntros "Hb". iExists l. iFrame. iSplit; [done|]. by iApply "Hps".
Qed.

Lemma wpm_bgetz req ps :
  0 < req <= 2 ^ 31 - 16 -> heap ps ⊢ wpm (bgetz req) (calloc_post (block_size req) ps).
Proof.
  iIntros (Hreq) "H". iDestruct (heap_pure with "H") as (l Hok) "H". pose proof (block_size_spec req Hreq) as (Hk & _ & Hk').
  iApply wpm_bind. iApply wpm_wand. iSplitL "H"; [by iApply (wpm_bget req ps)|].
  iIntros (r) "[[[-> %Hno] H]|(%ps' & %b & %g & [-> %Hg] & H & Hm)]".
  - iApply wpm_ret. iLeft. by iFrame.
  - iDestruct (heap_pure with "H") as (l' Hok') "H".
    destruct (gives_range _ _ _ _ _ _ _ (proj1 Hk) Hok Hg Hok') as (Hin & Hgr & Hb0 & Hg8 & _).
    rw (proj2 (Z.eqb_neq (b + BHEAD) 0)); [|unfold BHEAD; lia]. rw (_ : b + BHEAD - BHEAD = b); [|lia].
    iDestruct (heap_header _ _ _ Hin with "H") as "[Hs H]".
    iApply wpm_bind. iApply (wpm_rds _ (- g)); [lia|]. iFrame "Hs". iIntros "Hs". iSpecialize ("H" with "Hs").
    rw (proj2 (Z.eqb_neq (- g) 0)); [|lia]. rw used_size; [|lia]. iApply wpm_bind. iApply wpm_ret.
    iApply wpm_bind. iApply wpm_assert_pure; [apply Z.leb_le; unfold BHEAD; lia|].
    iDestruct "Hm" as (c) "[%Hc Hm]". iApply wpm_bind.
    assert (Hlen : (g - BHEAD) / 4 = Z.of_nat (length c)) by (rw -Hc; unfold bytes; rw Z.mul_comm Z.div_mul; done).
    iApply (wpm_zero_words (b + BHEAD) 0 _ c); [done|]. rw Z.mul_0_r Z.add_0_r. iFrame "Hm". iIntros "Hm".
    iApply wpm_ret. iRight. iExists ps', b, g. rw Hlen Nat2Z.id. by iFrame.
Qed.
(** The size is the product as computed, and the check passes when neither
    factor exceeds it. *)
Lemma wpm_calloc_product nmemb size s ps :
  u32 (nmemb * size) = s -> nmemb <= s -> size <= s -> 0 < s <= 2 ^ 31 - 16 ->
  heap ps ⊢ wpm (calloc nmemb size) (calloc_post (block_size s) ps).
Proof.
  iIntros (Es Hn Hs Hsr) "H". unfold calloc, raw_calloc. rw Es Z.add_0_l u32_small; [|unfold is_u32; lia].
  rw (proj2 (Z.ltb_ge _ nmemb)); [|lia]. rw (proj2 (Z.ltb_ge _ size)); [|lia]. cbn [orb].
  rw request_size; [|lia]. rw Z.max_l; [|lia]. by iApply wpm_bgetz; [lia|].
Qed.
Lemma wpm_calloc nmemb size ps : 0 < nmemb -> 0 < size -> nmemb * size <= 2 ^ 31 - 16 ->
  heap ps ⊢ wpm (calloc nmemb size) (calloc_post (block_size (nmemb * size)) ps).
Proof. intros. apply wpm_calloc_product; [apply u32_small; unfold is_u32; nia|nia..]. Qed.

(** A new block with the first bytes of the old one, which is given back; or the
    old one stays as it is. *)
Definition realloc_post (size b n : Z) (c : list Z) (ps : list pool) (r : Z) : mpropI :=
  ((⌜r = 0 /\ Forall (fun x => x.2 < block_size size) (ps ≫= pool_select true)⌝ ∗ heap ps ∗ cells (b + BHEAD) c) ∨
   (∃ ps' b' g e, ⌜r = (b' + BHEAD)%Z /\ extents ps' = extents ps /\ block_size size <= g /\
        (b', g) :: useds_of ps ≡ₚ (b, n) :: useds_of ps' /\
        bytes e = (g - BHEAD)%Z /\ same_bytes (Z.min size (n - BHEAD)) c e⌝ ∗ heap ps' ∗ cells r e))%I.

Lemma wpm_bgetr size b n c ps :
  0 < size <= 2 ^ 31 - 16 -> (b, n) ∈ useds_of ps -> bytes c = n - BHEAD ->
  heap ps ∗ cells (b + BHEAD) c ⊢ wpm (bgetr (b + BHEAD) size) (realloc_post size b n c ps).
Proof.
  iIntros (Hsize Hin Hc) "[H Hm]". iDestruct (heap_pure with "H") as (l Hok) "H".
  pose proof (block_size_spec size Hsize) as (Hk & _ & Hk').
  destruct (pools_size_range _ _ _ _ (proj1 Hok) Hin) as (Hn & Hb0 & _).
  iApply wpm_bind. iApply wpm_wand. iSplitL "H"; [by iApply (wpm_bget size ps)|].
  iIntros (r) "[[[-> %Hno] H]|(%ps' & %b' & %g & [-> %Hg] & H & Hm')]".
  - iApply wpm_ret. iLeft. by iFrame.
  - iDestruct (heap_pure with "H") as (l' Hok') "H".
    destruct (gives_range _ _ _ _ _ _ _ (proj1 Hk) Hok Hg Hok') as (_ & Hgr & Hb0' & Hg8 & _).
    destruct (gives_useds _ _ _ _ _ (proj1 Hk) (proj1 Hok) Hg) as (He & Hu & _).
    rw (proj2 (Z.eqb_neq (b' + BHEAD) 0)); [|unfold BHEAD; lia].
    rw (proj2 (Z.eqb_neq (b + BHEAD) 0)); [|unfold BHEAD; lia]. rw (_ : b + BHEAD - BHEAD = b); [|lia].
    assert (Hin' : (b, n) ∈ useds_of ps') by (rw Hu; by apply list_elem_of_further).
    iDestruct (heap_header _ _ _ Hin' with "H") as "[Hs H]".
    iApply wpm_bind. iApply (wpm_rds _ (- n)); [lia|]. iFrame "Hs". iIntros "Hs". iSpecialize ("H" with "Hs").
    rw used_size; [|done]. iApply wpm_bind. iApply wpm_assert_pure; [apply Z.ltb_lt; unfold BHEAD; lia|].
    iDestruct "Hm'" as (e) "[%He' Hm']".
    rw (_ : (if size <? n - BHEAD then size else n - BHEAD) = Z.min size (n - BHEAD)); [|case_match; lia].
    iApply wpm_bind. iApply (wpm_memcpy _ _ _ c e); [unfold BHEAD in *; lia|unfold BHEAD in *; lia|]. iFrame "Hm Hm'".
    iIntros (e') "([%Hle %Hsame] & Hm & Hm')". iApply wpm_bind. iApply (wpm_brel ps' b n); [done|]. iFrame "H".
    iSplitL "Hm"; [iExists c; by iFrame|].
    iIntros (ps'') "([%He'' %Hu''] & H)". iApply wpm_ret. iRight. iExists ps'', b', g, e'. iFrame. iPureIntro.
    split_and!; [done|by rw He''|lia|by rewrite <- Hu'', Hu|lia|done].
Qed.
Lemma wpm_realloc size b n c ps :
  0 <= size <= 2 ^ 31 - 16 -> (b, n) ∈ useds_of ps -> bytes c = n - BHEAD ->
  heap ps ∗ cells (b + BHEAD) c ⊢ wpm (realloc (b + BHEAD) size) (realloc_post (Z.max size 1) b n c ps).
Proof.
  intros Hs Hin Hc. unfold realloc, realloc_unlocked, raw_realloc. rw Z.add_0_l u32_small; [|unfold is_u32; lia].
  rw (proj2 (Z.ltb_ge size size)); [|lia].
  rw request_size; [|done]. apply wpm_bgetr; [lia|done..].
Qed.
Lemma wpm_realloc_null size ps :
  0 <= size <= 2 ^ 31 - 16 -> heap ps ⊢ wpm (realloc 0 size) (bget_post (block_size (Z.max size 1)) ps).
Proof.
  iIntros (Hs) "H". unfold realloc, realloc_unlocked, raw_realloc. rw Z.add_0_l u32_small; [|unfold is_u32; lia].
  rw (proj2 (Z.ltb_ge size size)); [|lia]. rw request_size; [|done].
  iApply wpm_bind. iApply wpm_wand. iSplitL "H"; [by iApply (wpm_bget _ ps); [lia|]|].
  iIntros (r) "H". destruct (Z.eqb_spec r 0) as [->|]; by iApply wpm_ret.
Qed.
End ops.

(** ** The abstract allocator *)

(** The buffers a client has, with what is stored in them. *)
Abbreviation buffers := (gmap Z (list Z)).

Inductive op :=
| Malloc (n : Z)
| Calloc (k n : Z)
| Realloc (p n : Z)
| Free (p : Z)
| Load (p : Z) (i : nat)
| Store (p : Z) (i : nat) (v : Z).

(** The largest request: up to it the size of the block is a positive [bufsize]. *)
Definition max_request : Z := 2 ^ 31 - 16.
Definition legal (live : buffers) (o : op) : Prop :=
  match o with
  | Malloc n => 0 <= n <= max_request
  | Calloc k n => 0 < k /\ 0 < n /\ k * n <= max_request
  | Realloc p n => 0 <= n <= max_request /\ (p = 0 \/ is_Some (live !! p))
  | Free p => p = 0 \/ is_Some (live !! p)
  | Load p i | Store p i _ => is_Some (live !! p ≫= lookup i)
  end.

(** A buffer at [r] apart from all others. *)
Definition apart (live : buffers) (r : Z) (c : list Z) : Prop :=
  0 < r /\ r mod 8 = 0 /\ 8 <= bytes c /\
  forall p d, live !! p = Some d -> r + bytes c <= p \/ p + bytes d <= r.

Inductive astep (live : buffers) : op -> Z -> buffers -> Prop :=
| A_malloc n r c : apart live r c -> n <= bytes c -> astep live (Malloc n) r (<[r := c]> live)
| A_malloc_null n : astep live (Malloc n) 0 live
| A_calloc k n r j : apart live r (replicate j 0) -> k * n <= bytes (replicate j 0) ->
    astep live (Calloc k n) r (<[r := replicate j 0]> live)
| A_calloc_null k n : astep live (Calloc k n) 0 live
| A_realloc p n r c e : live !! p = Some c -> apart (delete p live) r e -> n <= bytes e ->
    same_bytes (Z.min n (bytes c)) c e -> astep live (Realloc p n) r (<[r := e]> (delete p live))
| A_realloc_new n r c : apart live r c -> n <= bytes c -> astep live (Realloc 0 n) r (<[r := c]> live)
| A_realloc_null p n : astep live (Realloc p n) 0 live
| A_free p : astep live (Free p) 0 (delete p live)
| A_load p c i v : live !! p = Some c -> c !! i = Some v -> astep live (Load p i) v live
| A_store p c i v : live !! p = Some c -> astep live (Store p i v) 0 (<[p := <[i := v]> c]> live).

(** A client asks for operations and goes on with their results. *)
Inductive client := Done | Do (o : op) (k : Z -> client).

(** A client is correct when the abstract allocator never answers it with
    something after which it does what is not legal. *)
Fixpoint correct (live : buffers) (c : client) : Prop :=
  match c with
  | Done => True
  | Do o k => legal live o /\ forall r live', astep live o r live' -> correct live' (k r)
  end.
Inductive arun : buffers -> client -> buffers -> Prop :=
| R_done live : arun live Done live
| R_do live o k r live' live'' : astep live o r live' -> arun live' (k r) live'' -> arun live (Do o k) live''.

Section client.
Context {cfg : Config} {hl : HeapLayout}.

(** The operations of the code. *)
Definition exec (o : op) : M memory Z :=
  (match o with
   | Malloc n => malloc n
   | Calloc k n => calloc k n
   | Realloc p n => realloc p n
   | Free p => free p;;; ret 0
   | Load p i => rd (p + 4 * Z.of_nat i)
   | Store p i v => wr (p + 4 * Z.of_nat i) v;;; ret 0
   end)%K.
Fixpoint run (c : client) : M memory unit :=
  match c with Done => ret tt | Do o k => (r <- exec o;; run (k r))%K end.

(** The memory represents the buffers: their blocks are those in use, and the
    client owns what is in them. *)
Definition blocks_of (live : buffers) : list (Z * Z) :=
  (fun x => (x.1 - BHEAD, bytes x.2 + BHEAD)) <$> map_to_list live.
Definition owned (live : buffers) : mpropI := ([∗ map] p ↦ c ∈ live, cells p c)%I.
Definition allocator (exts : list (Z * Z)) (live : buffers) : mpropI :=
  (∃ ps, ⌜extents ps = exts /\ useds_of ps ≡ₚ blocks_of live⌝ ∗ heap ps ∗ owned live)%I.

Lemma blocks_of_insert live r c : live !! r = None ->
  blocks_of (<[r := c]> live) ≡ₚ (r - BHEAD, bytes c + BHEAD) :: blocks_of live.
Proof. intros H. unfold blocks_of. by rw map_to_list_insert. Qed.
Lemma blocks_of_delete live p c : live !! p = Some c ->
  blocks_of live ≡ₚ (p - BHEAD, bytes c + BHEAD) :: blocks_of (delete p live).
Proof. intros H. unfold blocks_of. by rewrite <- (map_to_list_delete live p c). Qed.
Lemma blocks_of_elem live p c : live !! p = Some c -> (p - BHEAD, bytes c + BHEAD) ∈ blocks_of live.
Proof. intros H. apply list_elem_of_fmap. exists (p, c). split; [done|]. by apply elem_of_map_to_list. Qed.

Lemma live_block l ps live p c : heap_ok l ps -> useds_of ps ≡ₚ blocks_of live -> live !! p = Some c ->
  (p - BHEAD, bytes c + BHEAD) ∈ useds_of ps /\ 0 < p /\ p mod 8 = 0 /\ 8 <= bytes c.
Proof.
  intros [Hok _] Hu Hp. assert (Hin : (p - BHEAD, bytes c + BHEAD) ∈ useds_of ps) by (rw Hu; by apply blocks_of_elem).
  destruct (pools_size_range _ _ _ _ Hok Hin) as (H1 & H2 & _ & H4). unfold BHEAD in *.
  split_and!; [done|lia|Z.div_mod_to_equations; lia|lia].
Qed.

Lemma mod8_mod4 x : x mod 8 = 0 -> x mod 4 = 0.
Proof. intros H. Z.div_mod_to_equations. lia. Qed.
(** Words that are owned twice do not exist. *)
Lemma cells_word a c i : (i < length c)%nat -> cells a c ⊢ ∃ v, (a + 4 * Z.of_nat i) ↦ v.
Proof.
  revert a i. induction c as [|v c IH]; intros a i Hi; cbn [length] in Hi; [lia|]. cbn [cells]. destruct i as [|i].
  - rw Z.mul_0_r Z.add_0_r. iIntros "[H _]". by iExists v.
  - iIntros "[_ H]". rw (_ : a + 4 * Z.of_nat (S i) = a + 4 + 4 * Z.of_nat i); [|lia]. iApply (IH with "H"). lia.
Qed.
Lemma cells_apart p c r d : p mod 4 = 0 -> r mod 4 = 0 -> 0 < bytes c -> 0 < bytes d ->
  cells p c ∗ cells r d ⊢ ⌜r + bytes d <= p \/ p + bytes c <= r⌝.
Proof.
  iIntros (Hp Hr Hc Hd) "[H1 H2]". unfold bytes in *.
  destruct (decide (r + bytes d <= p)); [by iLeft|]. destruct (decide (p + bytes c <= r)); [by iRight|].
  unfold bytes in *. iExFalso.
  destruct (decide (p <= r)).
  - iDestruct (cells_word p c (Z.to_nat ((r - p) / 4)) with "H1") as (v) "H1"; [Z.div_mod_to_equations; lia|].
    iDestruct (cells_word r d 0 with "H2") as (w) "H2"; [lia|]. iDestruct (points_to_ne with "[$H1 $H2]") as %H.
    iPureIntro. apply H. Z.div_mod_to_equations; lia.
  - iDestruct (cells_word r d (Z.to_nat ((p - r) / 4)) with "H2") as (v) "H2"; [Z.div_mod_to_equations; lia|].
    iDestruct (cells_word p c 0 with "H1") as (w) "H1"; [lia|]. iDestruct (points_to_ne with "[$H1 $H2]") as %H.
    iPureIntro. apply H. Z.div_mod_to_equations; lia.
Qed.
Lemma owned_apart live r c :
  (forall p d, live !! p = Some d -> p mod 8 = 0 /\ 8 <= bytes d) -> 0 < r -> r mod 8 = 0 -> 8 <= bytes c ->
  cells r c ∗ owned live ⊢ ⌜apart live r c⌝.
Proof.
  iIntros (Hl Hr Hr8 Hc) "[Hr Ho]". iSplit; [done|]. iSplit; [done|]. iSplit; [done|].
  iIntros (p d Hp). destruct (Hl p d Hp) as [Hp8 Hd]. unfold owned. iDestruct (big_sepM_lookup _ _ _ _ Hp with "Ho") as "Hp".
  iDestruct (cells_apart p d r c with "[$Hp $Hr]") as %H; [by apply mod8_mod4|by apply mod8_mod4|lia|lia|]. done.
Qed.
Lemma apart_fresh live r c :
  (forall p d, live !! p = Some d -> p mod 8 = 0 /\ 8 <= bytes d) -> apart live r c -> live !! r = None.
Proof.
  intros Hl (_ & _ & Hc & H). destruct (live !! r) as [d|] eqn:E; [|done]. destruct (Hl r d E). destruct (H r d E); lia.
Qed.

(** A new block is a new buffer. *)
Lemma new_buffer exts ps' live b g c :
  extents ps' = exts -> useds_of ps' ≡ₚ (b, g) :: blocks_of live ->
  bytes c = g - BHEAD ->
  heap ps' ∗ cells (b + BHEAD) c ∗ owned live ⊢ ⌜apart live (b + BHEAD) c⌝ ∗ allocator exts (<[b + BHEAD := c]> live).
Proof.
  iIntros (<- Hu' Hc) "(H & Hr & Ho)". iDestruct (heap_pure with "H") as (l Hok) "H".
  assert (Hin : (b, g) ∈ useds_of ps') by (rw Hu'; apply list_elem_of_here).
  destruct (pools_size_range _ _ _ _ (proj1 Hok) Hin) as (Hg & Hb & _ & Hb8). unfold BHEAD in *.
  assert (Hl : forall p d, live !! p = Some d -> p mod 8 = 0 /\ 8 <= bytes d).
  { intros p d Hp. assert (Hin' : (p - BHEAD, bytes d + BHEAD) ∈ useds_of ps').
    { rw Hu'. apply list_elem_of_further. by apply blocks_of_elem. }
    destruct (pools_size_range _ _ _ _ (proj1 Hok) Hin') as (H1 & _ & _ & H4). unfold BHEAD in *.
    split; [Z.div_mod_to_equations; lia|lia]. }
  iAssert (⌜apart live (b + 8) c⌝)%I as %Ha.
  { iApply (owned_apart with "[$Hr $Ho]"); [done|lia|Z.div_mod_to_equations; lia|lia]. }
  iSplit; [done|]. iExists ps'. iFrame "H". pose proof (apart_fresh _ _ _ Hl Ha) as Hf. iSplitR.
  - iPureIntro. split; [done|]. rw Hu' blocks_of_insert; [|done]. unfold BHEAD.
    rw (_ : b + 8 - 8 = b); [|lia]. by rw (_ : bytes c + 8 = g); [|lia].
  - unfold owned. rw big_sepM_insert; [|done]. iFrame.
Qed.

(** The free memory is divided into blocks that are smaller than [k]. *)
Definition no_room (exts : list (Z * Z)) (live : buffers) (k : Z) : Prop :=
  exists ps, Forall pool_ok ps /\ extents ps = exts /\ useds_of ps ≡ₚ blocks_of live /\
             Forall (fun x => x.2 < k) (ps ≫= pool_select true).
(** The answer to a request: a new buffer, or nothing. *)
Definition granted (exts : list (Z * Z)) (live : buffers) (k : Z) (ok : list Z -> Prop) (r : Z) : mpropI :=
  ((⌜r = 0 /\ no_room exts live k⌝ ∗ allocator exts live) ∨
   (∃ c, ⌜apart live r c /\ k - BHEAD <= bytes c <= k + 8 /\ ok c⌝ ∗ allocator exts (<[r := c]> live)))%I.

Lemma bget_granted exts live ps k r :
  16 <= k -> Forall pool_ok ps -> extents ps = exts -> useds_of ps ≡ₚ blocks_of live ->
  bget_post k ps r ∗ owned live ⊢ granted exts live k (fun c => bytes c mod 8 = 0) r.
Proof.
  iIntros (Hk Hok He Hu) "[[[[-> %Hno] H]|(%ps' & %b & %g & [-> %Hg] & H & %c & %Hc & Hm)] Ho]".
  - iLeft. iSplit; [iPureIntro; split; [done|by exists ps]|]. iExists ps. by iFrame.
  - destruct (gives_useds _ _ _ _ _ Hk Hok Hg) as (He' & Hu' & Hkg). rw He in He'. rw Hu in Hu'. iRight. iExists c.
    iDestruct (heap_pure with "H") as (l Hok') "H".
    assert (Hin : (b, g) ∈ useds_of ps') by (rw Hu'; apply list_elem_of_here).
    destruct (pools_size_range _ _ _ _ (proj1 Hok') Hin) as (_ & _ & Hg8 & _).
    iDestruct (new_buffer _ _ _ _ _ _ He' Hu' Hc with "[$H $Hm $Ho]") as "[%Ha $]".
    iPureIntro. unfold BHEAD in *. split_and!; [done|lia..|].
    rw Hc Zminus_mod Hg8. done.
Qed.
Lemma calloc_granted exts live ps k r :
  16 <= k -> Forall pool_ok ps -> extents ps = exts -> useds_of ps ≡ₚ blocks_of live ->
  calloc_post k ps r ∗ owned live ⊢
  granted exts live k (fun c => exists j, c = replicate j 0) r.
Proof.
  iIntros (Hk Hok He Hu) "[[[[-> %Hno] H]|(%ps' & %b & %g & [-> %Hg] & H & Hm)] Ho]".
  - iLeft. iSplit; [iPureIntro; split; [done|by exists ps]|]. iExists ps. by iFrame.
  - destruct (gives_useds _ _ _ _ _ Hk Hok Hg) as (He' & Hu' & Hkg). rw He in He'. rw Hu in Hu'. iRight. iExists (replicate _ 0).
    iDestruct (heap_pure with "H") as (l Hok') "H".
    assert (Hin : (b, g) ∈ useds_of ps') by (rw Hu'; apply list_elem_of_here).
    destruct (pools_size_range _ _ _ _ (proj1 Hok') Hin) as (_ & _ & Hg8 & _).
    assert (Hc : bytes (replicate (Z.to_nat ((g - BHEAD) / 4)) 0) = g - BHEAD).
    { unfold bytes, BHEAD in *. rw length_replicate. Z.div_mod_to_equations; lia. }
    iDestruct (new_buffer _ _ _ _ _ _ He' Hu' Hc with "[$H $Hm $Ho]") as "[%Ha $]".
    iPureIntro. rw Hc. unfold BHEAD in *. split_and!; [done|lia..|by eexists].
Qed.

Lemma allocator_open exts live : allocator exts live ⊢
  ∃ ps l, ⌜heap_ok l ps /\ extents ps = exts /\ useds_of ps ≡ₚ blocks_of live⌝ ∗ heap ps ∗ owned live.
Proof.
  iIntros "(%ps & [%He %Hu] & H & Ho)". iDestruct (heap_pure with "H") as (l Hok) "H". iExists ps, l. by iFrame.
Qed.

Lemma block_size_max n : 0 <= n <= max_request ->
  16 <= block_size (Z.max n 1) /\ n <= block_size (Z.max n 1) - BHEAD.
Proof. intros H. unfold max_request, BHEAD in *. pose proof (block_size_spec (Z.max n 1)). lia. Qed.

(** The steps of the code are those of the abstract allocator. *)
Definition simulates (exts : list (Z * Z)) (live : buffers) (o : op) : Prop :=
  allocator exts live ⊢ wpm (exec o) (fun r => ∃ live', ⌜astep live o r live'⌝ ∗ allocator exts live')%I.

Lemma malloc_simulates exts live n : legal live (Malloc n) -> simulates exts live (Malloc n).
Proof.
  unfold simulates. iIntros (Hn) "H". destruct (block_size_max n Hn) as [Hk Hk'].
  iDestruct (allocator_open with "H") as (ps l (Hok & He & Hu)) "[H Ho]".
  iApply wpm_wand. iSplitL "H"; [by iApply (wpm_malloc n ps)|]. iIntros (r) "H".
  iDestruct (bget_granted exts live with "[$H $Ho]") as "[[[-> _] H]|(%c & (%Ha & %Hc & _) & H)]"; [done|apply Hok|done|done|..].
  - iExists live. iFrame. iPureIntro. constructor.
  - iExists _. iFrame. iPureIntro. constructor; [done|lia].
Qed.
Lemma calloc_simulates exts live k n : legal live (Calloc k n) -> simulates exts live (Calloc k n).
Proof.
  unfold simulates. iIntros ((Hk0 & Hn0 & Hn)) "H". unfold max_request in Hn.
  destruct (block_size_spec (k * n)) as (Hk & _ & Hk'); [lia|].
  iDestruct (allocator_open with "H") as (ps l (Hok & He & Hu)) "[H Ho]".
  iApply wpm_wand. iSplitL "H"; [by iApply (wpm_calloc k n ps)|]. iIntros (r) "H".
  iDestruct (calloc_granted exts live with "[$H $Ho]") as "[[[-> _] H]|(%c & (%Ha & %Hc & %j & ->) & H)]"; [apply Hk|apply Hok|done|done|..].
  - iExists live. iFrame. iPureIntro. constructor.
  - iExists _. iFrame. iPureIntro. constructor; [done|]. unfold BHEAD in *. lia.
Qed.
Lemma owned_take live p c : live !! p = Some c -> owned live ⊢ cells p c ∗ owned (delete p live).
Proof. intros H. unfold owned. by rw big_sepM_delete. Qed.
Lemma mem_cells a c n : bytes c = n -> cells a c ⊢ mem a n.
Proof. iIntros (H) "H". iExists c. by iFrame. Qed.
Lemma free_simulates exts live p : legal live (Free p) -> simulates exts live (Free p).
Proof.
  unfold simulates. iIntros (Hp) "H". iDestruct (allocator_open with "H") as (ps l (Hok & He & Hu)) "[H Ho]".
  cbn [exec]. unfold free, raw_free. iApply wpm_bind. destruct (Z.eqb_spec p 0) as [->|Hp0].
  - iApply wpm_ret. iApply wpm_ret. iExists live. iSplitR; [|iExists ps; by iFrame].
    iPureIntro. rewrite <- (delete_id live 0) at 2; [constructor|].
    destruct (live !! 0) as [c|] eqn:E; [|done]. destruct (live_block _ _ _ _ _ Hok Hu E). lia.
  - destruct Hp as [->|[c Hc]]; [done|]. destruct (live_block _ _ _ _ _ Hok Hu Hc) as (Hin & Hp1 & _).
    iDestruct (owned_take _ _ _ Hc with "Ho") as "[Hm Ho]". rw {3}(_ : p = p - BHEAD + BHEAD); [|lia].
    iApply (wpm_brel ps (p - BHEAD) (bytes c + BHEAD)); [done|]. iFrame "H".
    rw (_ : p - BHEAD + BHEAD = p); [|lia]. rw (_ : bytes c + BHEAD - BHEAD = bytes c); [|lia].
    iSplitL "Hm"; [by iApply mem_cells|]. iIntros (ps') "([%He' %Hu'] & H)". iApply wpm_ret.
    iExists (delete p live). iSplitR; [iPureIntro; constructor|]. iExists ps'. iFrame. iPureIntro. split; [by rw He'|].
    apply (Permutation_cons_inv (a := (p - BHEAD, bytes c + BHEAD))). by rewrite <- Hu', Hu, blocks_of_delete.
Qed.

Lemma cells_acc a c i v : c !! i = Some v ->
  cells a c ⊢ (a + 4 * Z.of_nat i) ↦ v ∗ (∀ w, (a + 4 * Z.of_nat i) ↦ w -∗ cells a (<[i := w]> c)).
Proof.
  revert a i. induction c as [|u c IH]; intros a i Hi; [done|]. cbn [cells]. destruct i as [|i]; cbn in Hi.
  - injection Hi as ->. rw Z.mul_0_r Z.add_0_r. iIntros "[$ Hc]". iIntros (w) "Hw". cbn [insert list_insert cells]. iFrame.
  - iIntros "[Hu Hc]". rw (_ : a + 4 * Z.of_nat (S i) = a + 4 + 4 * Z.of_nat i); [|lia].
    iDestruct (IH _ _ Hi with "Hc") as "[$ Hc]". iIntros (w) "Hw". cbn. iFrame. by iApply "Hc".
Qed.
(** A buffer changes its contents, not its size. *)
Lemma blocks_of_resize live p c e : live !! p = Some c -> bytes e = bytes c -> blocks_of (<[p := e]> live) ≡ₚ blocks_of live.
Proof.
  intros Hp He. rewrite <- insert_delete_eq. rw blocks_of_insert; [|apply lookup_delete_eq]. rw He. symmetry. by apply blocks_of_delete.
Qed.
Lemma owned_put live p c e : live !! p = Some c -> cells p e ∗ owned (delete p live) ⊢ owned (<[p := e]> live).
Proof. intros Hp. unfold owned. rewrite <- (insert_delete_eq live p e). by rw big_sepM_insert; [|apply lookup_delete_eq]. Qed.

Lemma load_simulates exts live p i : legal live (Load p i) -> simulates exts live (Load p i).
Proof.
  unfold simulates. iIntros ([v (c & Hc & Hv)%bind_Some]) "H". iDestruct (allocator_open with "H") as (ps l (Hok & He & Hu)) "[H Ho]".
  iDestruct (owned_take _ _ _ Hc with "Ho") as "[Hm Ho]". iDestruct (cells_acc _ _ _ _ Hv with "Hm") as "[Hw Hm]".
  iApply wpm_rd. iFrame "Hw". iIntros "Hw". iSpecialize ("Hm" with "Hw"). rw list_insert_id; [|done].
  iExists live. iSplitR; [iPureIntro; by econstructor|]. iExists ps. iFrame "H". iSplitR; [done|].
  rewrite <- (insert_id live p c Hc) at 2. iApply owned_put; [done|]. iFrame.
Qed.
Lemma store_simulates exts live p i v : legal live (Store p i v) -> simulates exts live (Store p i v).
Proof.
  unfold simulates. iIntros ([w (c & Hc & Hw)%bind_Some]) "H". iDestruct (allocator_open with "H") as (ps l (Hok & He & Hu)) "[H Ho]".
  iDestruct (owned_take _ _ _ Hc with "Ho") as "[Hm Ho]". iDestruct (cells_acc _ _ _ _ Hw with "Hm") as "[Hw Hm]".
  iApply wpm_bind. iApply (wpm_wr _ w). iFrame "Hw". iIntros "Hw". iSpecialize ("Hm" with "Hw"). iApply wpm_ret.
  iExists (<[p := <[i := v]> c]> live). iSplitR; [iPureIntro; by constructor|]. iExists ps. iFrame "H". iSplitR.
  - iPureIntro. split; [done|]. rw Hu (blocks_of_resize live p c); [done|done|]. unfold bytes. by rw length_insert.
  - iApply owned_put; [done|]. iFrame.
Qed.

Lemma realloc_simulates exts live p n : legal live (Realloc p n) -> simulates exts live (Realloc p n).
Proof.
  unfold simulates. iIntros ((Hn & Hp)) "H". destruct (block_size_max n Hn) as [Hk Hk'].
  iDestruct (allocator_open with "H") as (ps l (Hok & He & Hu)) "[H Ho]". cbn [exec].
  destruct (decide (p = 0)) as [->|Hp0].
  - iApply wpm_wand. iSplitL "H"; [by iApply (wpm_realloc_null n ps)|]. iIntros (r) "H".
    iDestruct (bget_granted exts live with "[$H $Ho]") as "[[[-> _] H]|(%c & (%Ha & %Hc & _) & H)]"; [done|apply Hok|done|done|..].
    + iExists live. iFrame. iPureIntro. constructor.
    + iExists _. iFrame. iPureIntro. constructor; [done|lia].
  - destruct Hp as [->|[c Hc]]; [done|]. destruct (live_block _ _ _ _ _ Hok Hu Hc) as (Hin & Hp1 & _ & Hc8).
    iDestruct (owned_take _ _ _ Hc with "Ho") as "[Hm Ho]".
    iApply wpm_wand. iSplitL "H Hm".
    { rw {2}(_ : p = p - BHEAD + BHEAD); [|lia].
      iApply (wpm_realloc n (p - BHEAD) (bytes c + BHEAD) c ps); [done|done|lia|]. rw (_ : p - BHEAD + BHEAD = p); [|lia]. iFrame. }
    iIntros (r) "[([-> _] & H & Hm)|(%ps' & %b & %g & %e & (-> & %He' & %Hg & %Hu' & %Hce & %Hsame) & H & Hm)]".
    + iExists live. iSplitR; [iPureIntro; constructor|]. iExists ps. iFrame "H". iSplitR; [done|].
      rewrite <- (insert_id live p c Hc) at 2. iApply owned_put; [done|]. rw (_ : p - BHEAD + BHEAD = p); [|lia]. iFrame.
    + assert (Hu'' : useds_of ps' ≡ₚ (b, g) :: blocks_of (delete p live)).
      { apply (Permutation_cons_inv (a := (p - BHEAD, bytes c + BHEAD))). rewrite <- Hu'. rw perm_swap.
        apply Permutation_skip. rw Hu. by apply blocks_of_delete. }
      rw He in He'. iDestruct (new_buffer _ _ _ _ _ _ He' Hu'' Hce with "[$H $Hm $Ho]") as "[%Ha H]".
      iExists _. iFrame "H". iPureIntro. econstructor; [exact Hc|done|lia|].
      intros i Hi. apply Hsame. lia.
Qed.

Lemma op_simulates exts live o : legal live o -> simulates exts live o.
Proof.
  destruct o; [apply malloc_simulates|apply calloc_simulates|apply realloc_simulates|apply free_simulates
    |apply load_simulates|apply store_simulates].
Qed.
Lemma run_simulates exts c live : correct live c ->
  allocator exts live ⊢ wpm (run c) (fun _ => ∃ live', ⌜arun live c live'⌝ ∗ allocator exts live')%I.
Proof.
  revert live. induction c as [|o k IH]; intros live; cbn [correct run].
  - iIntros "_ H". iApply wpm_ret. iExists live. iFrame. iPureIntro. constructor.
  - iIntros ([Ho Hk]) "H". iApply wpm_bind. iApply wpm_wand. iSplitL "H"; [by iApply (op_simulates exts)|].
    iIntros (r) "(%live' & %Hs & H)". iApply wpm_wand. iSplitL "H"; [iApply (IH r live' with "H"); by apply Hk|].
    iIntros (u) "(%live'' & %Hr & H)". iExists live''. iFrame. iPureIntro. by econstructor.
Qed.

(** ** The first pool *)

Lemma land_not32_quantum x : is_u32 x -> Z.land x (not32 (SizeQuant - 1)) = x / 8 * 8.
Proof.
  intros Hx. rw -land_quantum. apply Z.bits_inj'. intros i Hi. rw !Z.land_spec not32_testbit; [|done].
  rw (Z.lnot_spec _ i); [|done]. destruct (Z.ltb_spec i 32); [done|]. by rw (is_u32_testbit x i Hx).
Qed.
(** The part of a region that can be divided into quanta. *)
Definition pool_start (buf : Z) : Z := (buf + 7) / 8 * 8.
Definition pool_end (buf len : Z) : Z := (buf + len) / 8 * 8.
Lemma pool_bounds buf len : 0 < buf -> buf + len < 2 ^ 32 -> 24 <= pool_end buf len - pool_start buf ->
  ROUNDUP buf SizeQuant = pool_start buf /\ ROUNDDOWN (u32 (buf + len)) SizeQuant = pool_end buf len /\
  0 < pool_start buf /\ pool_start buf mod 8 = 0 /\ pool_end buf len <= 2 ^ 32 /\ (pool_end buf len - pool_start buf) mod 8 = 0.
Proof.
  unfold pool_start, pool_end. intros Hb Hl H.
  assert (Hs : buf + 7 < 2 ^ 32) by (Z.div_mod_to_equations; lia).
  unfold ROUNDUP, ROUNDDOWN. rw !land_not32_quantum; [|apply u32_range..].
  change (u32 (SizeQuant - 1)) with 7. rw !u32_small; [|unfold is_u32; Z.div_mod_to_equations; lia..].
  split_and!; try done; Z.div_mod_to_equations; lia.
Qed.

(** The memory of the kernel before its first pool. *)
Definition no_pools : mpropI := (circ [] ∗ malloc_pool_at ↦ 0 ∗ malloc_pool_len_at ↦ 0)%I.
(** The heap keeps the array of its pools in its first buffer. *)
Definition pool_array (start size : Z) (c : list Z) : list Z := start :: size :: c.

Lemma wpm_malloc_add_pool buf len (Q : unit -> mpropI) :
  let start := pool_start buf in let size := pool_end buf len - pool_start buf in
  0 < buf -> buf + len < 2 ^ 32 -> 24 <= size < 2 ^ 31 ->
  no_pools ∗ mem start size ∗
    (∀ p c, ⌜bytes c <= 16⌝ ∗ allocator [(start, start + size - BHEAD)] {[p := pool_array start size c]} ∗
            malloc_pool_at ↦ p ∗ malloc_pool_len_at ↦ 1 -∗ Q tt) ⊢
  wpm (malloc_add_pool buf len) Q.
Proof.
  iIntros (start size Hb Hl Hsize) "((Hc & Hpa & Hpl) & Hm & HQ)".
  destruct (pool_bounds buf len Hb Hl (proj1 Hsize)) as (Es & Ee & Hs & Hs8 & He & Hsize8). fold start size in Es, Ee, Hs, Hs8, Hsize8.
  unfold malloc_add_pool. rw Es Ee. fold start. rw (_ : pool_end buf len = start + size); [|unfold size; lia].
  rw (_ : start + size - start = size); [|lia].
  iApply wpm_bind. iApply wpm_assert_pure; [apply Z.ltb_lt; lia|]. rw (u32_small size); [|unfold is_u32; lia].
  change (Z.land _ _ + BHEAD * 2) with 24. rw (proj2 (Z.ltb_ge size 24)); [|lia].
  rw (i32_small size); [|lia].
  assert (Esize : size / 8 * 8 = size) by (Z.div_mod_to_equations; lia).
  iApply wpm_bind. iApply (wpm_bpool [] start size); [done|done|lia|rw Esize; unfold size, start; lia|].
  rw Esize. iFrame "Hm". iSplitL "Hc"; [iExists []; iFrame; iSplit; [done|by rw /pools]|]. iIntros "H". cbn [app].
  iApply wpm_bind. iApply wpm_rd. iFrame "Hpl". iIntros "Hpl". iApply wpm_bind. iApply wpm_rd. iFrame "Hpa". iIntros "Hpa".
  change (u32 (MALLOC_POOL * u32 (0 + 1))) with 8. change (u32 (0 + 1)) with 1.
  iDestruct (heap_pure with "H") as (l Hok) "H".
  iApply wpm_bind. iApply wpm_wand. iSplitL "H"; [by iApply (wpm_realloc_null 8)|]. change (block_size (Z.max 8 1)) with 16.
  iIntros (p) "[[[-> %Hno] H]|(%ps' & %b & %g & [-> %Hg] & H & %c & %Hc & Hm)]".
  { exfalso. cbn in Hno. apply Forall_cons in Hno as [Hno _]. cbn in Hno. unfold BHEAD in Hno. lia. }
  iDestruct (heap_pure with "H") as (l' Hok') "H".
  destruct (gives_range _ _ _ _ _ _ _ (reflexivity 16) Hok Hg Hok') as (Hin & Hgr & Hb0 & _).
  destruct (gives_useds _ _ _ _ _ (reflexivity 16) (proj1 Hok) Hg) as (He' & Hu' & Hg16).
  rw (proj2 (Z.eqb_neq (b + BHEAD) 0)); [|unfold BHEAD; lia].
  destruct c as [|v [|w c]]; [unfold bytes, BHEAD in Hc; cbn [length] in Hc; lia..|]. cbn [cells].
  iDestruct "Hm" as "(Hv & Hw & Hm)". set (p := b + BHEAD) in *.
  iApply wpm_bind. iApply wpm_assert_pure; [done|]. iApply wpm_bind. iApply (wpm_wr _ 0). iFrame "Hpa". iIntros "Hpa".
  iApply wpm_bind. iApply wpm_rd. iFrame "Hpl". iIntros "Hpl". change (8 * 0) with 0. rw Z.add_0_r.
  iApply wpm_bind. iApply (wpm_wr _ v). iFrame "Hv". iIntros "Hv".
  iApply wpm_bind. iApply wpm_rd. iFrame "Hpl". iIntros "Hpl". change (8 * 0) with 0. rw Z.add_0_r.
  iApply wpm_bind. iApply (wpm_wr _ w). iFrame "Hw". iIntros "Hw".
  iApply (wpm_wr _ 0). iFrame "Hpl". iIntros "Hpl". iApply ("HQ" $! p c). iFrame "Hpa Hpl".
  assert (Hu'' : useds_of ps' ≡ₚ (b, g) :: blocks_of ∅) by (rw Hu'; unfold blocks_of; by rw map_to_list_empty).
  iDestruct (new_buffer _ ps' ∅ b g (pool_array start size c) He' Hu'' with "[$H Hv Hw Hm]") as "[_ H]".
  { rewrite <- Hc. done. }
  { cbn [cells pool_array]. iFrame. unfold owned. by rw big_sepM_empty. }
  iSplitR; [iPureIntro; unfold bytes, BHEAD in *; cbn [length] in Hc; lia|].
  unfold extents. cbn [fmap list_fmap fst snd bend]. by rw (_ : start + (size - BHEAD) = start + size - BHEAD); [|lia].
Qed.
End client.
