(* ===== verification/MallocSpec.v ===== *)
(** * The correctness of the memory allocator

    The theorems about [Bget] in terms of memory alone: what a client may rely
    on from the first pool on, when a request is served, and what the code does
    with requests whose size it computes wrongly. *)

From stdpp Require Import prelude gmap list sorting.
From Stdlib Require Import ZArith Lia.
From iris.proofmode Require Import proofmode.
From S2P Require Import Prelude CoreMmu SepLogic Bget BgetSpec Malloc.
#[local] Open Scope Z_scope.

Section spec.
Context {cfg : Config} {hl : HeapLayout}.

(** ** The memory before the first pool *)

Definition statics : list (Z * Z) :=
  [(flink freelist, freelist); (blink freelist, freelist); (malloc_pool_at, 0); (malloc_pool_len_at, 0)].
(** The statics have the values of their initialisers, and the words of the
    region exist and lie elsewhere. *)
Record fresh_memory (start size : Z) (m : memory) : Prop := {
  fm_distinct : NoDup statics.*1;
  fm_statics : Forall (fun x => m !! x.1 = Some x.2) statics;
  fm_apart : Forall (fun x => x.1 < start \/ start + size <= x.1) statics;
  fm_words : Forall (fun i => is_Some (m !! (start + 4 * i))) (seqZ 0 (size / 4)) }.
#[global] Instance fresh_memory_dec start size m : Decision (fresh_memory start size m).
Proof.
  refine (cast_if (decide (NoDup statics.*1 /\ Forall (fun x => m !! x.1 = Some x.2) statics /\
    Forall (fun x => x.1 < start \/ start + size <= x.1) statics /\
    Forall (fun i => is_Some (m !! (start + 4 * i))) (seqZ 0 (size / 4)))));
    [abstract (destruct_and!; by constructor)|abstract (intros []; tauto)].
Defined.

Lemma holds_word a v (Q : mpropI) m : m !! a = Some v -> holds Q (delete a m) -> holds (a ↦ v ∗ Q)%I m.
Proof.
  intros Ha HQ. exists {[a := v]}, (delete a m). split_and!.
  - apply map_disjoint_singleton_l, lookup_delete_eq.
  - rewrite <- insert_union_singleton_l. by rw insert_delete_id.
  - apply lookup_singleton_eq.
  - done.
Qed.
Lemma holds_mem (k : nat) a m :
  (forall i, (i < k)%nat -> is_Some (m !! (a + 4 * Z.of_nat i))) -> holds (mem a (4 * Z.of_nat k)) m.
Proof.
  intros H. assert (exists l, length l = k /\ holds (cells a l) m) as (l & <- & Hl).
  2: { eapply mentails_holds; [|exact Hl]. iIntros "H". iExists l. by iFrame. }
  revert a m H. induction k as [|k IH]; intros a m H; [exists []; split; [done|exact I]|].
  destruct (H 0%nat) as [v Hv]; [lia|]. rw Z.mul_0_r Z.add_0_r in Hv.
  destruct (IH (a + 4) (delete a m)) as (l & Hl & Hc).
  - intros i Hi. rw lookup_delete_ne; [|lia]. rw (_ : a + 4 + 4 * Z.of_nat i = a + 4 * Z.of_nat (S i)); [|lia]. apply H. lia.
  - exists (v :: l). split; [by cbn; rw Hl|]. by apply holds_word.
Qed.

Lemma fresh_holds start size m : 0 <= size -> size mod 4 = 0 -> fresh_memory start size m ->
  holds (no_pools ∗ mem start size)%I m.
Proof.
  intros Hs Hs4 [Hd Hst Ha Hw].
  enough (H : holds (flink freelist ↦ freelist ∗ blink freelist ↦ freelist ∗ malloc_pool_at ↦ 0 ∗
                     malloc_pool_len_at ↦ 0 ∗ mem start size)%I m).
  { revert m H Hst Hw. intros m H _ _. eapply mentails_holds; [|exact H].
    unfold no_pools, circ. cbn [path]. unfold edge. iIntros "($ & $ & $ & $ & $)". }
  unfold statics in *. cbn [fmap list_fmap fst] in Hd.
  repeat match goal with
  | H : Forall _ (_ :: _) |- _ => apply Forall_cons in H as [? H]; cbn [fst snd] in *
  | H : NoDup (_ :: _) |- _ => apply NoDup_cons in H as [? H]
  | H : _ ∉ _ :: _ |- _ => apply not_elem_of_cons in H as [? H]
  end.
  repeat (apply holds_word; [rw ?lookup_delete_ne; done|]).
  rw (_ : size = 4 * Z.of_nat (Z.to_nat (size / 4))); [|Z.div_mod_to_equations; lia]. apply holds_mem.
  intros i Hi. rw !lookup_delete_ne; [|Z.div_mod_to_equations; lia..].
  eapply Forall_forall in Hw; [exact Hw|]. apply elem_of_seqZ. lia.
Qed.

(** ** Room *)

Definition sizes (l : list (Z * Z)) : Z := foldr (fun x s => x.2 + s) 0 l.
Definition capacity (exts : list (Z * Z)) : Z := foldr (fun x s => (x.2 - x.1) + s) 0 exts.

Lemma sizes_app l1 l2 : sizes (l1 ++ l2) = sizes l1 + sizes l2.
Proof. unfold sizes. induction l1 as [|x l1 IH]; cbn [app foldr]; lia. Qed.
Lemma sizes_perm l1 l2 : l1 ≡ₚ l2 -> sizes l1 = sizes l2.
Proof. unfold sizes. induction 1; cbn [foldr]; lia. Qed.
Lemma sizes_bound k l : Forall (fun x => x.2 < k) l -> sizes l <= Z.of_nat (length l) * (k - 1).
Proof. unfold sizes. induction 1; cbn [foldr length]; lia. Qed.

Lemma pool_sizes a bs : sizes (frees a bs) + sizes (useds a bs) = bend a bs - a.
Proof.
  revert a. induction bs as [|[n f] bs IH]; intros a; cbn [select bend fst snd]; [cbn; lia|].
  specialize (IH (a + n)). destruct f; cbn [Bool.eqb app]; unfold sizes in *; cbn [foldr snd]; lia.
Qed.
(** Free blocks are separated by blocks in use. *)
Lemma pool_count pf a bs : bwf pf bs ->
  (length (frees a bs) <= length (useds a bs) + (if (pf =? 0)%Z then 1 else 0))%nat.
Proof.
  revert pf a. induction bs as [|[n f] bs IH]; intros pf a; [cbn; lia|].
  intros (Hn & _ & Hf & Hb)%bwf_inv. specialize (IH _ (a + n) Hb). cbn [select fst snd] in *.
  destruct f; cbn [Bool.eqb app length pfree snd fst] in *.
  - rw (Hf eq_refl) Z.eqb_refl. rw (proj2 (Z.eqb_neq n 0)) in IH; [|lia]. lia.
  - case_match; lia.
Qed.
Lemma heap_room ps : Forall pool_ok ps ->
  sizes (ps ≫= pool_select true) + sizes (useds_of ps) = capacity (extents ps) /\
  (length (ps ≫= pool_select true) <= length (useds_of ps) + length ps)%nat.
Proof.
  induction 1 as [|[a bs] ps (_ & _ & Hb & _) _ [IH1 IH2]]; [done|].
  unfold useds_of in *. rw !bind_cons !sizes_app !length_app. cbn [capacity foldr extents fmap list_fmap length fst snd] in *.
  pose proof (pool_sizes a bs). pose proof (pool_count 0 a bs Hb) as Hc. rw Z.eqb_refl in Hc.
  unfold capacity, extents, pool_select in *. cbn [fst snd] in *. lia.
Qed.

(** How much of the heap the buffers of a client take. *)
Definition taken_by (live : buffers) : Z := sizes (blocks_of live).
(** Between [n] buffers there are at most [n] gaps and one more in each pool.
    The request fits in one of them however the free memory is divided. *)
Definition room_for (exts : list (Z * Z)) (live : buffers) (k : Z) : Prop :=
  (Z.of_nat (size live) + Z.of_nat (length exts)) * (k - 1) < capacity exts - taken_by live.

Lemma room_free exts live ps k :
  Forall pool_ok ps -> extents ps = exts -> useds_of ps ≡ₚ blocks_of live -> 0 < k -> room_for exts live k ->
  ~ Forall (fun x => x.2 < k) (ps ≫= pool_select true).
Proof.
  unfold room_for, taken_by. intros Hok <- Hu Hk Hroom Hall. apply sizes_bound in Hall.
  destruct (heap_room ps Hok) as [Hs Hl]. pose proof (sizes_perm _ _ Hu) as Hsu.
  assert (Hlen : length (useds_of ps) = size live).
  { rw (Permutation_length Hu). unfold blocks_of. rw length_fmap. apply length_map_to_list. }
  assert (length (extents ps) = length ps) by apply length_fmap. nia.
Qed.

(** ** What clients get *)

(** The heap after the first pool was added: the abstract allocator with one buffer,
    in which the allocator keeps the array of its pools. *)
Definition first_heap (start size : Z) (m : memory) : Prop := exists p c, bytes c <= 16 /\
  holds (allocator [(start, start + size - BHEAD)] {[p := pool_array start size c]}) m.
Lemma first_pool_run buf len m : let start := pool_start buf in let size := pool_end buf len - pool_start buf in
  0 < buf -> buf + len < 2 ^ 32 -> 24 <= size < 2 ^ 31 -> fresh_memory start size m ->
  wp (malloc_add_pool buf len) m (fun _ m' => first_heap start size m').
Proof.
  intros start size Hb Hl Hs Hm. destruct (pool_bounds buf len Hb Hl (proj1 Hs)) as (_ & _ & _ & _ & _ & Hs8). fold size in Hs8.
  destruct (wpm_adequate (malloc_add_pool buf len) (no_pools ∗ mem start size)%I
    (fun _ => ∃ p c, ⌜bytes c <= 16⌝ ∗ allocator [(start, start + size - BHEAD)] {[p := pool_array start size c]})%I m) as ([] & m' & E & HQ).
  - iIntros "[H0 Hm]". iApply (wpm_malloc_add_pool buf len); [done..|]. iFrame "H0 Hm".
    iIntros (p c) "(% & H & _ & _)". iExists p, c. by iFrame.
  - apply fresh_holds; [lia|Z.div_mod_to_equations; lia|done].
  - eapply wp_intro; [exact E|]. apply holds_exist in HQ as [p [c [Hc H]%holds_pure_sep]%holds_exist]. by exists p, c.
Qed.

(** C11: every client that is correct with the abstract allocator runs on the code,
    from the first pool on, to an end the abstract allocator allows. *)
Theorem clients_run buf len m cl :
  let start := pool_start buf in let size := pool_end buf len - pool_start buf in
  0 < buf -> buf + len < 2 ^ 32 -> 24 <= size < 2 ^ 31 -> fresh_memory start size m ->
  (forall p c, correct {[p := pool_array start size c]} cl) ->
  wp (malloc_add_pool buf len;;; run cl)%K m (fun _ m' =>
    exists p c live, arun {[p := pool_array start size c]} cl live /\
                     holds (allocator [(start, start + size - BHEAD)] live) m').
Proof.
  intros start size Hb Hl Hs Hm Hcl.
  destruct (pool_bounds buf len Hb Hl (proj1 Hs)) as (_ & _ & _ & _ & _ & Hs8). fold size in Hs8.
  destruct (wpm_adequate (malloc_add_pool buf len;;; run cl)%K (no_pools ∗ mem start size)%I
    (fun _ => ∃ p c live, ⌜arun {[p := pool_array start size c]} cl live⌝ ∗
                          allocator [(start, start + size - BHEAD)] live)%I m) as ([] & m' & E & HQ).
  - iIntros "[H0 Hm]". iApply wpm_bind. iApply (wpm_malloc_add_pool buf len); [done..|]. iFrame "H0 Hm".
    iIntros (p c) "(_ & H & _ & _)". iApply wpm_wand. iSplitL "H"; [iApply (run_simulates with "H"); apply Hcl|].
    iIntros (u) "(%live & %Hr & H)". iExists p, c, live. by iFrame.
  - apply fresh_holds; [lia|Z.div_mod_to_equations; lia|done].
  - eapply wp_intro; [exact E|].
    apply holds_exist in HQ as [p [c [live [Hr H]%holds_pure_sep]%holds_exist]%holds_exist]. by exists p, c, live.
Qed.

(** The memory holds what is stored in the buffers. *)
Definition represents (live : buffers) (m : memory) : Prop :=
  forall p c i v, live !! p = Some c -> c !! i = Some v -> m !! (p + 4 * Z.of_nat i) = Some v.
Record buffers_ok (exts : list (Z * Z)) (live : buffers) : Prop := {
  bo_place p c : live !! p = Some c -> 0 < p /\ p mod 8 = 0 /\ 8 <= bytes c /\
    exists a e, (a, e) ∈ exts /\ a + BHEAD <= p /\ p + bytes c <= e;
  bo_apart p q c d : live !! p = Some c -> live !! q = Some d -> p <> q -> p + bytes c <= q \/ q + bytes d <= p }.

Lemma useds_place ps b n : Forall pool_ok ps -> (b, n) ∈ useds_of ps ->
  exists a e, (a, e) ∈ extents ps /\ a <= b /\ b + n <= e.
Proof.
  intros Hok (ps1 & a & bs1 & bs2 & ps2 & -> & ->)%pools_elem.
  apply Forall_app in Hok as [_ [(_ & _ & H3 & _) _]%Forall_cons]. cbn [fst snd] in *.
  exists a, (bend a (bs1 ++ (n, false) :: bs2)). apply bwf_app in H3 as [H0 (_ & _ & _ & H2)%bwf_inv].
  split; [|rw bend_app; cbn [bend fst]; pose proof (bend_le _ a _ H0); pose proof (bend_le _ (bend a bs1 + n) _ H2); lia].
  unfold extents. rw fmap_app fmap_cons. apply elem_of_app. right. apply list_elem_of_here.
Qed.

(** C12: buffers lie in the heap, aligned and apart from each other, and keep what is
    stored in them. *)
Theorem allocator_buffers exts live m :
  holds (allocator exts live) m -> buffers_ok exts live /\ represents live m.
Proof.
  intros H. apply (mentails_holds _ _ _ (allocator_open exts live)) in H.
  apply holds_exist in H as [ps [l [(Hok & <- & Hu) H]%holds_pure_sep]%holds_exist].
  assert (Hlive : forall p c, live !! p = Some c ->
    (p - BHEAD, bytes c + BHEAD) ∈ useds_of ps /\ 0 < p /\ p mod 8 = 0 /\ 8 <= bytes c) by (intros p c; by apply (live_block l)).
  split; [split|].
  - intros p c Hp. destruct (Hlive p c Hp) as (Hin & ? & ? & ?). split_and!; [done..|].
    destruct (useds_place ps _ _ (proj1 Hok) Hin) as (a & e & Hae & ? & ?). exists a, e. split_and!; [done|lia|lia].
  - intros p q c d Hp Hq Hne. refine (holds_pure _ _ _ _ H). iIntros "[_ Ho]".
    destruct (Hlive p c Hp) as (_ & _ & Hp8%mod8_mod4 & ?). destruct (Hlive q d Hq) as (_ & _ & Hq8%mod8_mod4 & ?).
    iDestruct (owned_take _ _ _ Hp with "Ho") as "[Hp Ho]".
    iDestruct (owned_take _ q d with "Ho") as "[Hq _]"; [by rw lookup_delete_ne|].
    iDestruct (cells_apart q d p c with "[$Hq $Hp]") as %Hap; [done|done|lia|lia|]. iPureIntro. tauto.
  - intros p c i v Hp Hi. eapply mentails_holds in H.
    2: { iIntros "[_ Ho]". iDestruct (owned_take _ _ _ Hp with "Ho") as "[Hp _]".
         iDestruct (cells_acc _ _ _ _ Hi with "Hp") as "[Hw _]". iExact "Hw". }
    exact H.
Qed.

Lemma room_no_room exts live k : 0 < k -> room_for exts live k -> ~ no_room exts live k.
Proof. intros Hk Hr (ps & Hok & He & Hu & Hf). by eapply room_free. Qed.

(** C13: a request the free memory has room for is served. *)
Theorem malloc_served exts live n m :
  let k := block_size (Z.max n 1) in
  holds (allocator exts live) m -> 0 <= n <= max_request -> room_for exts live k ->
  wp (malloc n) m (fun r m' => exists c, apart live r c /\ n <= bytes c <= k + 8 /\
    holds (allocator exts (<[r := c]> live)) m').
Proof.
  intros k H Hn Hroom. destruct (block_size_max n Hn) as [Hk Hk'].
  destruct (wpm_adequate (malloc n) (allocator exts live)
    (fun r => ∃ c, ⌜apart live r c /\ n <= bytes c <= k + 8⌝ ∗ allocator exts (<[r := c]> live))%I m) as (r & m' & E & HQ).
  - iIntros "H". iDestruct (allocator_open with "H") as (ps l (Hok & He & Hu)) "[H Ho]".
    iApply wpm_wand. iSplitL "H"; [by iApply (wpm_malloc n ps)|]. iIntros (r) "H".
    iDestruct (bget_granted exts live with "[$H $Ho]") as "[[[-> %Hno] H]|(%c & (%Ha & %Hc & _) & H)]"; [done|apply Hok|done|done|..].
    + exfalso. eapply room_no_room; [|exact Hroom|exact Hno]. lia.
    + iExists c. iFrame. iPureIntro. unfold k. split; [done|lia].
  - done.
  - eapply wp_intro; [exact E|]. apply holds_exist in HQ as [c [[Ha Hc] H']%holds_pure_sep]. by exists c.
Qed.

(** C38: the check of calloc against an overflow of the product lets products pass
    whose low 32 bits are no smaller than the factors: the buffer is too small. *)
Theorem calloc_wraps exts live nmemb size m :
  let s := u32 (nmemb * size) in
  holds (allocator exts live) m -> nmemb <= s -> size <= s -> 0 < s <= max_request -> room_for exts live (block_size s) ->
  wp (calloc nmemb size) m (fun r m' => exists c, apart live r c /\ bytes c <= s + 31 /\
    holds (allocator exts (<[r := c]> live)) m').
Proof.
  intros s H Hn Hs Hsr Hroom. destruct (block_size_spec s Hsr) as (Hk & _ & Hk').
  destruct (wpm_adequate (calloc nmemb size) (allocator exts live)
    (fun r => ∃ c, ⌜apart live r c /\ bytes c <= s + 31⌝ ∗ allocator exts (<[r := c]> live))%I m) as (r & m' & E & HQ).
  - iIntros "H". iDestruct (allocator_open with "H") as (ps l (Hok & He & Hu)) "[H Ho]".
    iApply wpm_wand. iSplitL "H"; [by iApply (wpm_calloc_product _ _ s ps)|]. iIntros (r) "H".
    iDestruct (calloc_granted exts live with "[$H $Ho]") as "[[[-> %Hno] H]|(%c & (%Ha & %Hc & _) & H)]"; [apply Hk|apply Hok|done|done|..].
    + exfalso. eapply room_no_room; [|exact Hroom|exact Hno]. lia.
    + iExists c. iFrame. iPureIntro. split; [done|lia].
  - done.
  - eapply wp_intro; [exact E|]. apply holds_exist in HQ as [c [[Ha Hc] H']%holds_pure_sep]. by exists c.
Qed.

(** What the heap says of the memory when some of it is free. *)
Lemma free_head exts live m : holds (allocator exts live) m -> taken_by live < capacity exts ->
  exists b n, 16 <= n < 2 ^ 31 /\ b <> freelist /\ m !! flink freelist = Some b /\ m !! bsize b = Some (u32 n).
Proof.
  intros H Hroom. apply holds_exist in H as [ps [(He & Hu) H]%holds_pure_sep].
  eapply (mentails_holds _ (heap ps)) in H; [|by iIntros "[$ _]"].
  apply holds_exist in H as [l [Hok H]%holds_pure_sep]. destruct l as [|[b n] l].
  - exfalso. destruct Hok as [Hok Hl]. apply Permutation_nil_l in Hl. destruct (heap_room ps Hok) as [Hs _]. rw -Hl He in Hs.
    unfold taken_by in Hroom. rw -(sizes_perm _ _ Hu) in Hroom. cbn [sizes foldr] in Hs. unfold sizes in *. cbn [foldr] in Hs. lia.
  - exists b, n. assert (Hin : (b, n) ∈ ps ≫= pool_select true) by (destruct Hok as [_ Hl]; rewrite <- Hl; apply list_elem_of_here).
    split; [apply (pools_size_range _ _ _ _ (proj1 Hok) Hin)|]. split; [|split].
    + refine (holds_pure _ _ _ _ H). iIntros "[Hc _]". by iApply (circ_ne []).
    + refine (mentails_holds _ _ _ _ H : holds (flink freelist ↦ b)%I m). iIntros "[Hc _]".
      iDestruct (circ_flink with "Hc") as "[Hf _]". iExact "Hf".
    + refine (mentails_holds _ _ _ _ H : holds (bsize b ↦ u32 n)%I m). iIntros "[_ Hp]".
      iDestruct (pools_bsize _ _ _ _ Hin with "Hp") as "[Hb _]". iExact "Hb".
Qed.

(** A request above the limit overflows the signed size of a block. *)
Theorem malloc_overflows exts live n m :
  holds (allocator exts live) m -> taken_by live < capacity exts -> max_request < n < 2 ^ 31 ->
  malloc n m = Fault.
Proof.
  intros H Hroom Hn. unfold max_request in Hn. destruct (free_head _ _ _ H Hroom) as (b & k & Hk & Hb & Hf & Hs).
  unfold malloc, raw_malloc. rw Z.add_0_l u32_small; [|unfold is_u32; lia].
  rw (proj2 (Z.ltb_ge n n)); [|lia]. rw (proj2 (Z.eqb_neq n 0)); [|lia].
  rw (i32_small n); [|lia].
  unfold bget. rw (bind_run _ _ _ _ _ (massert_ok (ret (0 <? n)) m _)); [|unfold ret; by rw (proj2 (Z.ltb_lt 0 n)); [|lia]].
  unfold round_size. rw (u32_small n); [|unfold is_u32; lia]. change SizeQ with 8. rw (proj2 (Z.ltb_ge n 8)); [|lia].
  change (SizeQuant - 1) with 7. destruct (decide (n + 7 < 2 ^ 31)).
  - assert (Er : Z.land (n + 7) (Z.lnot 7) = 2 ^ 31 - 8).
    { change 7 with (SizeQuant - 1) at 2. rw land_quantum. Z.div_mod_to_equations; lia. }
    rw (bind_run _ _ _ (- 2 ^ 31) m); [|rw (bind_run _ _ _ _ _ (int_result_run (n + 7) m _)); [by rw Er|lia]].
    rw (bind_run _ _ _ b m); [|by unfold rd; rw Hf]. rw (bind_run _ _ _ (size m) m); [|done].
    cbn [bget_loop]. rw (proj2 (Z.eqb_neq b freelist)); [|done].
    assert (Erds : rds (bsize b) m = Ret k m) by (unfold rds, bind, rd; rw Hs i32_u32; [done|lia]).
    rw (bind_run _ _ _ _ _ Erds). rw (proj2 (Z.leb_le (- 2 ^ 31) k)); [|lia].
    unfold take_block. rw (bind_run _ _ _ _ _ Erds). unfold bind, int_result.
    rw (proj2 (Z.ltb_ge (k - - 2 ^ 31) _)); [|lia]. by rw andb_false_r.
  - unfold bind at 1 2, int_result. rw (proj2 (Z.ltb_ge (n + 7) _)); [|lia]. by rw andb_false_r.
Qed.
End spec.

(** ** A concrete heap *)

Definition demo_config : Config := {| cfg_ndebug := false |}.
Definition demo_layout : HeapLayout := {| freelist := 0x100; malloc_pool_at := 0x200; malloc_pool_len_at := 0x204 |}.
#[local] Existing Instances demo_config demo_layout.

(** A megabyte at 0x1000. *)
Definition demo_memory : memory :=
  list_to_map statics ∪ list_to_map ((fun i => (0x1000 + 4 * i, 0)) <$> seqZ 0 0x40000).
Lemma demo_statics : Forall (fun x => (list_to_map statics : memory) !! x.1 = Some x.2) statics.
Proof. by apply (bool_decide_unpack _). Qed.
Lemma words_is_Some a l (i : Z) : i ∈ l ->
  is_Some ((list_to_map ((fun i => (a + 4 * i, 0)) <$> l) : memory) !! (a + 4 * i)).
Proof.
  intros Hi. apply not_eq_None_Some. intros Hn%not_elem_of_list_to_map_2. apply Hn.
  apply list_elem_of_fmap. exists (a + 4 * i, 0). split; [done|]. apply list_elem_of_fmap. by exists i.
Qed.
Lemma demo_fresh : fresh_memory 0x1000 0x100000 demo_memory.
Proof.
  split.
  - by apply (bool_decide_unpack _).
  - eapply Forall_impl; [exact demo_statics|]. intros x Hx. unfold demo_memory. by apply lookup_union_Some_l.
  - by apply (bool_decide_unpack _).
  - apply Forall_forall. intros i Hi. unfold demo_memory. rw lookup_union_is_Some. right.
    by apply words_is_Some.
Qed.

(** The heap after the first pool was added. *)
Definition demo_extents : list (Z * Z) := [(0x1000, 0x100ff8)].
Lemma demo_heap : exists p c m, bytes c <= 16 /\ holds (allocator demo_extents {[p := pool_array 0x1000 0x100000 c]}) m.
Proof.
  destruct (wp_elim _ _ _ (first_pool_run 0x1000 0x100000 demo_memory eq_refl eq_refl ltac:(done) demo_fresh)) as (? & m & _ & p & c & Hc & H).
  by exists p, c, m.
Qed.
Lemma demo_taken p c : bytes c <= 16 -> taken_by {[p := pool_array 0x1000 0x100000 c]} <= 32.
Proof.
  intros Hc. unfold taken_by, blocks_of. rw map_to_list_singleton. unfold sizes, bytes, BHEAD in *.
  cbn [fmap list_fmap foldr fst snd pool_array length]. lia.
Qed.
Lemma demo_room p c k : bytes c <= 16 -> k <= 0x40000 -> room_for demo_extents {[p := pool_array 0x1000 0x100000 c]} k.
Proof.
  intros Hc Hk. unfold room_for. rw map_size_singleton. change (capacity demo_extents) with 0xffff8.
  pose proof (demo_taken p c Hc). cbn [length demo_extents]. lia.
Qed.

Lemma allocator_buffers_witness :
  exists live m, holds (allocator demo_extents live) m /\ buffers_ok demo_extents live /\ represents live m.
Proof.
  destruct demo_heap as (p & c & m & _ & H). eexists _, m. split; [exact H|]. by apply (allocator_buffers demo_extents).
Defined.
Lemma malloc_served_witness :
  exists live m, holds (allocator demo_extents live) m /\ wp (malloc 100) m (fun r _ => exists c, apart live r c /\ 100 <= bytes c).
Proof.
  destruct demo_heap as (p & c & m & Hc & H). eexists _, m. split; [exact H|].
  eapply wp_mono; [|apply (malloc_served demo_extents _ 100 m H); [by unfold max_request|apply demo_room; [done|by vm_compute]]].
  intros r m' (d & Ha & Hd & _). exists d. split; [done|]. lia.
Defined.
Lemma calloc_wraps_witness :
  exists live m, holds (allocator demo_extents live) m /\
    wp (calloc 65537 65537) m (fun r _ => exists c, apart live r c /\ bytes c <= 131104 < 65537 * 65537).
Proof.
  destruct demo_heap as (p & c & m & Hc & H). eexists _, m. split; [exact H|].
  eapply wp_mono; [|apply (calloc_wraps demo_extents _ 65537 65537 m H); [by vm_compute..|apply demo_room; [done|by vm_compute]]].
  intros r m' (d & Ha & Hd & _). exists d. split; [done|]. by change (u32 (65537 * 65537)) with 131073 in Hd.
Defined.
Lemma malloc_overflows_witness :
  exists live m, holds (allocator demo_extents live) m /\ malloc 0x7ffffff5 m = Fault.
Proof.
  destruct demo_heap as (p & c & m & Hc & H). eexists _, m. split; [exact H|].
  apply (malloc_overflows demo_extents _ _ m H); [|by vm_compute].
  pose proof (demo_taken p c Hc). change (capacity demo_extents) with 0xffff8. lia.
Defined.

(** A client that stores a word, lets another buffer be cleared, and relies on
    reading its word back: it goes on with an illegal access otherwise. *)
Definition demo_client : client :=
  Do (Malloc 100) (fun p => if p =? 0 then Done else
  Do (Store p 3 7) (fun _ => Do (Calloc 3 7) (fun q =>
  Do (Load p 3) (fun v => if v =? 7 then Do (Free p) (fun _ => Done) else Do (Load 0 0) (fun _ => Done))))).
(** The rest of the client once its word is stored. *)
Lemma demo_client_tail live p c :
  live !! p = Some c -> c !! 3%nat = Some 7 ->
  correct live (Do (Load p 3) (fun v => if v =? 7 then Do (Free p) (fun _ => Done) else Do (Load 0 0) (fun _ => Done))).
Proof.
  intros Hp H3. split; [cbn; rw Hp; cbn; by rw H3|]. intros v live' Hs. inversion Hs as [| | | | | | | |? d ? ? Hd Hv|]; subst.
  rw Hp in Hd. injection Hd as <-. rw H3 in Hv. injection Hv as <-. cbn. split; [|done]. right. by rw Hp.
Qed.
Lemma demo_client_correct live : correct live demo_client.
Proof.
  split; [cbn; by unfold max_request|]. intros p live1 Hs. inversion Hs as [? ? c Ha Hn| | | | | | | | |]; subst; [|done].
  rw (proj2 (Z.eqb_neq p 0)); [|by destruct Ha as [? _]; lia].
  destruct (lookup_lt_is_Some_2 c 3) as [w Hw]; [unfold bytes in Hn; lia|].
  split; [cbn; by rw lookup_insert_eq; cbn; rw Hw|]. intros u live2 Hs2. inversion Hs2 as [| | | | | | | | |? d ? ? Hd]; subst.
  rw lookup_insert_eq in Hd. injection Hd as <-.
  assert (Hp : forall l : buffers, (<[p := <[3%nat := 7]> c]> l) !! p = Some (<[3%nat := 7]> c)) by (intros l; apply lookup_insert_eq).
  assert (H3 : <[3%nat := 7]> c !! 3%nat = Some 7) by (apply list_lookup_insert_eq; unfold bytes in Hn; lia).
  split; [cbn; by unfold max_request|]. intros q live3 Hs3.
  inversion Hs3 as [| |? ? ? j Hq _| | | | | | |]; subst; [|by eapply demo_client_tail].
  eapply demo_client_tail; [|exact H3]. rw lookup_insert_ne; [done|]. intros ->.
  destruct Hq as (_ & _ & Hj & Hq). specialize (Hq _ _ (Hp _)). unfold bytes in *. rw length_insert in Hq. lia.
Qed.
Lemma clients_run_witness :
  wp (malloc_add_pool 0x1000 0x100000;;; run demo_client)%K demo_memory (fun _ m' =>
    exists p c live, arun {[p := pool_array 0x1000 0x100000 c]} demo_client live /\
                     holds (allocator demo_extents live) m').
Proof.
  apply (clients_run 0x1000 0x100000); [done..|apply demo_fresh|]. intros p c. apply demo_client_correct.
Defined.
