(* ===== verification/GenericBoot.v ===== *)
(** * Booting (core/arch/arm/kernel/generic_boot.c, plat-imx/main.c)

    What each core does in C before it enters the normal world: exceptions, heap,
    threads, the return address of the monitor, the device tree, the console, the
    security unit and the initial calls.  The state of the threads has the rest of
    the chip as its world. *)

From stdpp Require Import prelude gmap list strings.
From Stdlib Require Import ZArith Lia.
From S2P Require Import Prelude Platform State CoreMmu Csu Interrupt Gic Emulation Fdt DtProbe Thread Newlib FdtPack Bget Console.
#[local] Open Scope Z_scope.
#[local] Open Scope kernel_scope.

Definition PADDR_INVALID : Z := 2 ^ 32 - 1.
Definition NSACR_CP10 : Z := Z.shiftl 1 10.
Definition NSACR_CP11 : Z := Z.shiftl 1 11.

(** Everything but the threads.  Of each core there are the context of the monitor,
    which [sm_get_nsec_ctx] finds behind the stack pointer of the monitor, and the
    access register of the coprocessors. *)
Record soc (P : Type) := mk_soc {
  soc_console : console P;
  soc_heap : gmap Z Z;
  soc_ctx : list sm_ctx;
  soc_nsacr : list Z;
  soc_entry_addrs : list Z;
  soc_spin_table : list Z;
}.
Arguments mk_soc {P} _ _ _ _ _ _.
Arguments soc_console {P} _.
Arguments soc_heap {P} _.
Arguments soc_ctx {P} _.
Arguments soc_nsacr {P} _.
Arguments soc_entry_addrs {P} _.
Arguments soc_spin_table {P} _.
Definition set_soc_console {P} (v : console P) (s : soc P) := mk_soc v (soc_heap s) (soc_ctx s) (soc_nsacr s) (soc_entry_addrs s) (soc_spin_table s).
Definition set_soc_heap {P} (v : gmap Z Z) (s : soc P) := mk_soc (soc_console s) v (soc_ctx s) (soc_nsacr s) (soc_entry_addrs s) (soc_spin_table s).
Definition set_soc_ctx {P} (v : list sm_ctx) (s : soc P) := mk_soc (soc_console s) (soc_heap s) v (soc_nsacr s) (soc_entry_addrs s) (soc_spin_table s).
Definition set_soc_nsacr {P} (v : list Z) (s : soc P) := mk_soc (soc_console s) (soc_heap s) (soc_ctx s) v (soc_entry_addrs s) (soc_spin_table s).
Definition set_soc_entry_addrs {P} (v : list Z) (s : soc P) := mk_soc (soc_console s) (soc_heap s) (soc_ctx s) (soc_nsacr s) v (soc_spin_table s).
Definition set_soc_spin_table {P} (v : list Z) (s : soc P) := mk_soc (soc_console s) (soc_heap s) (soc_ctx s) (soc_nsacr s) (soc_entry_addrs s) v.

(** Addresses and sizes of the build. *)
Class BootConfig := {
  CFG_DTB_MAX_SIZE : Z;
  CFG_DT_ADDR : Z;
  CSU_BASE : Z;
  heap1_start : Z;
  heap1_end : Z;
}.

(** ** The device tree *)

Section tree.
Context {P : Type} {plat : Platform P} {cfg : Config} {build : StrBuild} {bc : BootConfig} {drv : IrqDrivers P}.
#[local] Abbreviation K := (M (console P)).

Definition init_fdt (phys_fdt : Z) : K unit :=
  if phys_fdt =? 0 then ret tt else
  fdt <- in_kern (phys_to_virt phys_fdt MEM_AREA_RAM_NSEC);;
  if fdt =? 0 then panic else
  r <- in_mem (fdt_open_into fdt fdt CFG_DTB_MAX_SIZE);;
  if r <? 0 then panic else
  r <- in_mem (fdt_pack fdt);;
  if r <? 0 then panic else ret tt.

(** [dt_probe] as the initial call it is: the tree it reads is in memory, at the
    address at which it looks for it; a read beyond the space that [init_fdt] has
    opened would be a fault. *)
Definition dt_probe_call (dt_drivers : list (dt_driver P)) (n : nat) : K Z :=
  fdt <- in_kern (phys_to_virt CFG_DT_ADDR MEM_AREA_RAM_NSEC);;
  m <- gets con_mem;;
  in_kern (dt_probe (bytes_from (Z.to_nat CFG_DTB_MAX_SIZE) m fdt) dt_drivers n CFG_DT_ADDR).
End tree.

(** ** The cores *)

Section boot.
Context {P : Type} {plat : Platform P} {cfg : Config} {tcfg : ThreadConfig} {build : StrBuild} {bc : BootConfig} {drv : IrqDrivers P} {hl : HeapLayout} {ops : SerialOps P}.
Context (c : nat).
#[local] Abbreviation K := (M (tstate (soc P))).

Definition put_world {W} (w : W) (s : tstate W) : tstate W :=
  mk_tstate (threads s) (core_locals s) (cores s) (thread_global_lock s) (handlers s) (stack_tmp s) (stack_abt s) (stack_thread s) w.
Definition in_world {W A} (m : M W A) : M (tstate W) A := on_part world put_world m.
Definition in_console {A} (m : M (console P) A) : K A := in_world (on_part soc_console set_soc_console m).
Definition in_heap {A} (m : M (gmap Z Z) A) : K A := in_world (on_part soc_heap set_soc_heap m).

(** The other routine of this name is that of thread.c. *)
Definition init_sec_mon (nsec_entry : Z) : K unit :=
  massert (ret (negb (nsec_entry =? PADDR_INVALID)));;;
  in_world (
    l <- gets soc_ctx;; x <- aget l (Z.of_nat c);;
    let nsec_ctx := set_wc_mon_spsr (Z.lor CPSR_MODE_SVC ARM32_CPSR_I) (set_wc_mon_lr nsec_entry (sc_nsec x)) in
    l <- aset l (Z.of_nat c) (set_sc_nsec nsec_ctx x);; modify (set_soc_ctx l)).
Definition init_vfp_nsec : K unit :=
  in_world (
    l <- gets soc_nsacr;; v <- aget l (Z.of_nat c);;
    l <- aset l (Z.of_nat c) (Z.lor (Z.lor v NSACR_CP10) NSACR_CP11);; modify (set_soc_nsacr l)).
Definition init_vfp_sec : K unit := ret tt.
Definition init_runtime : K unit :=
  thread_init_boot_thread c;;;
  in_heap (malloc_add_pool heap1_start (u32 (heap1_end - heap1_start))).

(** plat-imx/main.c *)
Definition main_init_primary : M (console P) unit := in_kern (csu_init CSU_BASE).
Definition main_init_secondary : M (console P) unit := in_kern gic_cpu_init.

(** The results of the initial calls are only printed. *)
Definition call_initcalls (initcalls : list (M (console P) Z)) : M (console P) unit :=
  for_each initcalls (fun call => call;;; ret tt).
(** In the order of the linker: a call of level 3 and one of level 4. *)
Definition initcalls (dt_drivers : list (dt_driver P)) (n : nat) : list (M (console P) Z) :=
  [dt_probe_call dt_drivers n; in_kern emulation_init].

(** The call of [configure_console_from_dt] is [configure_console]. *)
Definition init_primary_helper (h : thread_handlers) (dt_drivers : list (dt_driver P)) (n : nat)
    (configure_console : Z -> M (console P) unit) (nsec_entry fdt : Z) : K unit :=
  thread_set_exceptions c THREAD_EXCP_ALL;;;
  init_vfp_sec;;;
  init_runtime;;;
  thread_init_primary h;;;
  thread_init_per_cpu c;;;
  init_sec_mon nsec_entry;;;
  in_console (init_fdt fdt);;;
  in_console (configure_console fdt);;;
  in_console main_init_primary;;;
  init_vfp_nsec;;;
  in_console (call_initcalls (initcalls dt_drivers n)).
Definition init_secondary_helper (nsec_entry : Z) : K unit :=
  thread_set_exceptions c THREAD_EXCP_ALL;;;
  thread_init_per_cpu c;;;
  init_sec_mon nsec_entry;;;
  in_console main_init_secondary;;;
  init_vfp_sec;;;
  init_vfp_nsec.

(** The console is configured from the memory that [init_fdt] has packed. *)
Definition generic_boot_init_primary (h : thread_handlers) (dt_drivers : list (dt_driver P))
    (driver_of : dt_driver P -> option (serial_driver (P := P))) (n : nat) (nsec_entry fdt : Z) : K unit :=
  init_primary_helper h dt_drivers n (fun fdt =>
    va <- in_kern (phys_to_virt fdt MEM_AREA_RAM_NSEC);; m <- gets con_mem;;
    configure_console_from_dt driver_of (bytes_from (Z.to_nat CFG_DTB_MAX_SIZE) m va) dt_drivers n fdt) nsec_entry fdt.
Definition generic_boot_init_secondary (nsec_entry : Z) : K unit := init_secondary_helper nsec_entry.

(** ** Requests to start a core *)

Definition generic_boot_core_release (core_idx entry : Z) : K Z :=
  if (core_idx =? 0) || (core_idx >=? Z.of_nat CFG_TEE_CORE_NB_CORE) then ret (-1) else
  in_world (
    l <- gets soc_entry_addrs;; l <- aset l core_idx entry;; modify (set_soc_entry_addrs l);;;
    l <- gets soc_spin_table;; l <- aset l core_idx 1;; modify (set_soc_spin_table l));;;
  ret 0.
(** [wfe] waits for an event; [psci] is [CFG_PSCI_ARM32]. *)
Definition generic_boot_core_hpen (psci : bool) : K Z :=
  in_world (
    (if psci then ret tt else
     l <- gets soc_spin_table;; v <- aget l (Z.of_nat c);; if truth v then ret tt else spin);;;
    l <- gets soc_entry_addrs;; aget l (Z.of_nat c)).
End boot.
