(* ===== verification/GenericBootSpec.v ===== *)
(** * What booting leaves behind

    The primary core packs the device tree and builds the device table of that
    tree; its threads, its heap and the return address of the monitor are ready when
    it enters the normal world.  The theorems of the components are put together
    here: the libfdt theorems on packing and on paths, the one on probing, those on
    threads and the adequacy of the allocator. *)

From stdpp Require Import prelude gmap list strings.
From Stdlib Require Import ZArith Lia.
From S2P Require Import Prelude Platform State CoreMmu Csu Interrupt Gic Dt Emulation Fdt FdtTree FdtScan FdtSpec DtProbe DtPlaces FdtPath DtProbeSpec Drivers Thread ThreadInv Newlib NewlibSpec FdtPack FdtPackSpec Console Bget Malloc MallocSpec GenericBoot.
#[local] Open Scope Z_scope.
#[local] Open Scope kernel_scope.

(** ** The device tree *)

Lemma bytes_from_at m fdt L : at_mem m fdt L -> bytes_from (length L) m fdt = L.
Proof.
  revert fdt. induction L as [|b L IH]; intros fdt; [done|]. intros [Hb HL]. cbn. rewrite Hb. by rewrite IH.
Qed.

Section tree.
Context {P : Type} {plat : Platform P} {cfg : Config} {build : StrBuild} {bc : BootConfig} {drv : IrqDrivers P}.
Implicit Types k : console P.

Lemma in_kern_run {A} (m : M (kernel P) A) k a x : m (con_kernel k) = Ret a x -> in_kern m k = Ret a (set_con_kernel x k).
Proof. intros H. unfold in_kern, on_part. by rewrite H. Qed.
Lemma in_mem_run {A} (m : M bmem A) k a x : m (con_mem k) = Ret a x -> in_mem m k = Ret a (set_con_mem x k).
Proof. intros H. unfold in_mem, on_part. by rewrite H. Qed.

(** At the address of the boot loader there is the tree [t]. *)
Record tree_given k (phys fdt : Z) (t : tree) : Prop := {
  tg_phys : phys <> 0;
  tg_virt : phys_to_virt phys MEM_AREA_RAM_NSEC (con_kernel k) = Ret fdt (con_kernel k);
  tg_tree : exists L l strs o_r o_s o_t total, tree_at fdt CFG_DTB_MAX_SIZE L l strs t o_r o_s o_t total /\ at_mem (con_mem k) fdt L /\
    40 + bytes_len (enc_rsv l) + bytes_len (struct_of t) + 4 <= CFG_DTB_MAX_SIZE }.
(** A packed tree is at [fdt], and the other bytes of memory are those of [m]. *)
Definition tree_packed (m : bmem) (fdt : Z) (t : tree) k : Prop := exists L, con_mem k = put_bytes fdt L m /\
  bytes_len L = CFG_DTB_MAX_SIZE /\ holds_tree fdt L t /\ off_struct L + size_struct L + 4 <= bytes_len L.

Lemma init_fdt_run k phys fdt t : tree_given k phys fdt t ->
  exists m', init_fdt phys k = Ret tt (set_con_mem m' k) /\ tree_packed (con_mem k) fdt t (set_con_mem m' k).
Proof.
  intros [Hp Hv (L & l & strs & o_r & o_s & o_t & total & Ht & HL & Hroom)]. pose proof (ta_addr _ _ _ _ _ _ _ _ _ _ Ht) as (Hf & _ & HW).
  destruct (open_pack_run fdt CFG_DTB_MAX_SIZE L l strs t o_r o_s o_t total Ht (con_mem k) HL) as (m1 & L' & H1 & H2 & HL' & (r & Hr) & Hh).
  exists (put_bytes fdt L' (con_mem k)). unfold init_fdt. rewrite (proj2 (Z.eqb_neq phys 0)) by done.
  rewrite (bind_run _ _ _ _ _ (in_kern_run _ k _ _ Hv)), (proj2 (Z.eqb_neq fdt 0)) by lia.
  assert (Ek : set_con_kernel (con_kernel k) k = k) by (by destruct k). rewrite Ek.
  rewrite (bind_run _ _ _ _ _ (in_mem_run _ k _ _ H1)). change (0 <? 0) with false. cbv iota.
  rewrite (bind_run _ _ _ _ _ (in_mem_run _ (set_con_mem m1 k) _ _ H2)). split; [done|]. exists L'. split_and!; [done|done|done|].
  rewrite Hr in HL' |- *. rewrite bytes_len_app in HL'. pose proof (bytes_len_nonneg r).
  assert (Hlast : is_u32 (kept_last L l t o_r o_s o_t)).
  { unfold kept_last. pose proof (window_word _ L 24 (lo_win _ _ _ _ _ _ _ _ (ta_laid _ _ _ _ _ _ _ _ _ _ Ht))). destruct (ordered_blocks _ _ _ _ _); [done|by split]. }
  destruct (packed_words_at (enc_rsv l) (struct_of t) strs (kept_last L l t o_r o_s o_t) (kept_boot L l t o_r o_s o_t total) r ltac:(lia) Hlast)
    as (_ & H8 & _ & _ & _ & H36).
  unfold off_struct, size_struct. rewrite H8, H36, bytes_len_app. lia.
Qed.

(** The device table is that of the tree that was given. *)
Lemma dt_probe_call_run {J : kernel P -> Prop} k m fdt t dt_drivers rank R n :
  tree_packed m fdt t k -> 0 < CFG_DTB_MAX_SIZE ->
  conventional t rank -> (forall p, p ∈ all_places t -> (rank (pl_off p) < R)%nat) -> (R + height t <= n)%nat ->
  probe_env fdt t dt_drivers J -> J (con_kernel k) -> device_objs (k_dt (con_kernel k)) = ∅ ->
  phys_to_virt CFG_DT_ADDR MEM_AREA_RAM_NSEC (con_kernel k) = Ret fdt (con_kernel k) ->
  wpp (dt_probe_call dt_drivers n) k (fun r k' => r = 0 /\ J (con_kernel k') /\ table_built t (con_kernel k') /\ k' = set_con_kernel (con_kernel k') k).
Proof.
  intros (L & Hm & HL & Hh & Hroom) HW Hcv HR Hn He HJ Hobj Hva. unfold dt_probe_call.
  assert (Ek : set_con_kernel (con_kernel k) k = k) by (by destruct k).
  eapply wpp_run; [exact (in_kern_run _ k _ _ Hva)|]. rewrite Ek. eapply wpp_run; [reflexivity|].
  assert (Hb : bytes_from (Z.to_nat CFG_DTB_MAX_SIZE) (con_mem k) fdt = L).
  { rewrite Hm, <- HL. unfold bytes_len. rewrite Nat2Z.id. apply bytes_from_at, put_at. }
  rewrite Hb. unfold in_kern, on_part, wpp.
  pose proof (dt_probe_run fdt L t dt_drivers J rank R n CFG_DT_ADDR (con_kernel k) Hh Hroom Hcv HR Hn He HJ Hobj Hva) as H. unfold wpp in H.
  destruct (dt_probe L dt_drivers n CFG_DT_ADDR (con_kernel k)) as [r x| | |]; try done. destruct H as (-> & H1 & H2). done.
Qed.

(** Without the node that names a console, the console stays as it is. *)
Lemma no_console_configured {ops : SerialOps P} driver_of k m fdt t dt_drivers n phys :
  tree_packed m fdt t k -> find_kid (root_place t) (chars "secure-chosen") = None -> phys <> 0 -> 0 < fdt ->
  phys_to_virt phys MEM_AREA_RAM_NSEC (con_kernel k) = Ret fdt (con_kernel k) ->
  (va <- in_kern (phys_to_virt phys MEM_AREA_RAM_NSEC);; m <- gets con_mem;;
   configure_console_from_dt driver_of (bytes_from (Z.to_nat CFG_DTB_MAX_SIZE) m va) dt_drivers (S n) phys) k = Ret tt k.
Proof.
  intros (L & Hm & HL & Hh & _) Hno Hp Hf Hva. assert (Ek : set_con_kernel (con_kernel k) k = k) by (by destruct k).
  rewrite (bind_run _ _ _ _ _ (in_kern_run _ k _ _ Hva)), Ek. rewrite (bind_run _ _ _ (con_mem k) k) by done.
  assert (Hb : bytes_from (Z.to_nat CFG_DTB_MAX_SIZE) (con_mem k) fdt = L).
  { rewrite Hm, <- HL. unfold bytes_len. rewrite Nat2Z.id. apply bytes_from_at, put_at. }
  rewrite Hb. unfold configure_console_from_dt. rewrite (proj2 (Z.eqb_neq phys 0)) by done.
  rewrite (bind_run _ _ _ _ _ (in_kern_run _ k _ _ Hva)), Ek, (proj2 (Z.eqb_neq fdt 0)) by lia.
  assert (Hok : Forall name_ok [chars "secure-chosen"]).
  { apply Forall_singleton. split_and!; [done|cbn; by repeat constructor|done]. }
  pose proof (path_offset_run fdt L t Hh [chars "secure-chosen"] n (con_kernel k) Hok) as Hr.
  cbn [resolve] in Hr. rewrite Hno in Hr. cbn [mbind option_bind offset_or_notfound] in Hr.
  change (path_of [chars "secure-chosen"]) with (chars "/secure-chosen") in Hr.
  by rewrite (bind_run _ _ _ _ _ (in_kern_run _ k _ _ Hr)), Ek.
Qed.
End tree.

(** ** The threads and the rest *)

(** What leaves the world of the threads alone. *)
Definition keeps {W A} (m : M (tstate W) A) : Prop := forall s, match m s with Ret _ s' => world s' = world s | _ => True end.
Section keeps.
Context {cfg : Config} {tcfg : ThreadConfig} {W : Type}.
Lemma keeps_bind {A B} (m : M (tstate W) A) (k : A -> M (tstate W) B) : keeps m -> (forall a, keeps (k a)) -> keeps (bind m k).
Proof.
  intros Hm Hk s. unfold bind. pose proof (Hm s) as H1. destruct (m s) as [a s1| | |]; try done. pose proof (Hk a s1) as H2.
  destruct (k a s1); try done. by rewrite H2.
Qed.
Lemma keeps_ret {A} (a : A) : keeps (W := W) (ret a).
Proof. done. Qed.
Lemma keeps_gets {A} (f : tstate W -> A) : keeps (gets f).
Proof. done. Qed.
Lemma keeps_modify (f : tstate W -> tstate W) : (forall s, world (f s) = world s) -> keeps (modify f).
Proof. intros H s. apply H. Qed.
Lemma keeps_panic {A} : keeps (W := W) (A := A) panic.
Proof. done. Qed.
Lemma keeps_aget {A} (l : list A) i : keeps (W := W) (aget l i).
Proof. intros s. unfold aget, deref. destruct (i <? 0); [done|]. by destruct (l !! Z.to_nat i). Qed.
Lemma keeps_aset {A} (l : list A) i v : keeps (W := W) (aset l i v).
Proof. intros s. unfold aset. by destruct (_ && _). Qed.
Lemma keeps_massert (b : M (tstate W) bool) : keeps b -> keeps (massert b).
Proof. intros Hb. unfold massert. destruct cfg_ndebug; [done|]. apply keeps_bind; [done|]. by intros []. Qed.
Lemma keeps_when (b : bool) m : keeps (W := W) m -> keeps (when b m).
Proof. by destruct b. Qed.
Lemma keeps_for_each {A} (l : list A) (f : A -> M (tstate W) unit) : (forall x, keeps (f x)) -> keeps (for_each l f).
Proof. intros Hf. induction l as [|x l IH]; [done|]. by apply keeps_bind. Qed.
End keeps.
Create HintDb keeps discriminated.
#[export] Hint Resolve keeps_ret keeps_gets keeps_panic keeps_aget keeps_aset : keeps.
Ltac keeps := repeat first
  [ apply keeps_bind; [|intros ?] | apply keeps_massert | apply keeps_when | apply keeps_for_each; intros ? | apply keeps_modify; intros []; reflexivity
  | solve [auto with keeps] | match goal with |- keeps (if ?b then _ else _) => destruct b end
  | match goal with |- keeps (let '(_, _) := ?x in _) => destruct x end | progress cbv zeta ].

Section threads.
Context {cfg : Config} {tcfg : ThreadConfig} {W : Type} (c : nat).
Lemma keeps_set_exceptions e : keeps (W := W) (thread_set_exceptions c e).
Proof. unfold thread_set_exceptions, assert_have_no_spinlock, have_spinlock, thread_foreign_intr_disabled, thread_get_exceptions, thread_get_core_local, get_core_pos, thread_get_exceptions, write_cpsr, read_cpsr, upd_core, get_core, get_local. keeps. Qed.
Lemma keeps_init_boot_thread : keeps (W := W) (thread_init_boot_thread c).
Proof. unfold thread_init_boot_thread, thread_get_core_local, get_core_pos, thread_get_exceptions, read_cpsr, get_core, upd_thread, upd_local. keeps. Qed.
Lemma keeps_init_primary h : keeps (W := W) (thread_init_primary h).
Proof. unfold thread_init_primary, init_handlers, init_canaries, init_thread_stacks, thread_init_stack, upd_thread. keeps. Qed.
Lemma keeps_init_per_cpu : keeps (W := W) (thread_init_per_cpu c).
Proof. unfold thread_init_per_cpu, Thread.init_sec_mon, sm_init, set_tmp_stack, set_abt_stack, thread_get_core_local, get_core_pos, thread_get_exceptions, read_cpsr, upd_core, upd_local, get_core. keeps. Qed.
Lemma keeps_clr_boot_thread : keeps (W := W) (thread_clr_boot_thread c).
Proof. unfold thread_clr_boot_thread, thread_get_core_local, get_core_pos, thread_get_exceptions, read_cpsr, get_core, get_local, get_thread, upd_thread, upd_local. keeps. Qed.
Lemma wpp_kept {A} (m : M (tstate W) A) s (Q : A -> tstate W -> Prop) : keeps m -> wp m s Q -> wpp m s (fun a s' => Q a s' /\ world s' = world s).
Proof. intros Hk Hm. pose proof (Hk s) as H. unfold wp, wpp in *. by destruct (m s). Qed.
End threads.

(** ** The device table does not depend on the rest of the kernel *)

Section table.
Context {P : Type}.
Implicit Types s : kernel P.
Lemma lookup_same s s' node r : k_dt s' = k_dt s -> device_lookup node s = Ret r s -> device_lookup node s' = Ret r s'.
Proof.
  intros E. unfold device_lookup, bucket, bind, get_dt, gets. rewrite E. destruct (aget _ _ s) as [l s1| | |] eqn:Ea; try done.
  assert (s1 = s /\ aget (device_table (k_dt s)) (hash_32 node DEVICE_TABLE_SIZE_LOG2) s' = Ret l s') as [-> Ha].
  { unfold aget, deref in *. destruct (_ <? 0); [done|]. destruct (_ !! _); [|done]. by injection Ea as -> ->. }
  rewrite Ha. clear Ea Ha. revert r. induction l as [|d l IH]; intros r; cbn [lookup_in]; [by intros [= <-]|].
  unfold get_device, get_dt, bind, gets. rewrite E. unfold deref. destruct (device_objs (k_dt s) !! d) as [v|]; [|done]. unfold ret.
  destruct (dv_node v =? node); [by intros [= <-]|apply IH].
Qed.
Lemma table_built_same t s s' : k_dt s' = k_dt s -> table_built t s -> table_built t s'.
Proof.
  intros E (H1 & H2 & H3 & H4 & H5). split_and!.
  - unfold dt_wf in *. by rewrite E.
  - unfold dt_hashed in *. by rewrite E.
  - intros p Hp Ha. destruct (H3 p Hp Ha) as (d & par & irqs & Hl & Ho & Hpar). exists d, par, irqs. rewrite E.
    split_and!; [by apply (lookup_same s)|done|]. destruct par as [[e q]|]; [|done].
    destruct Hpar as (? & ? & ? & ?). split_and!; try done. by apply (lookup_same s).
  - intros p Hp Ha. apply (lookup_same s); [done|]. by apply H4.
  - intros d Hd. rewrite E in *. destruct (H5 d Hd) as (? & p & ? & ?). split; [done|]. exists p. split; [done|]. by apply (lookup_same s).
Qed.
Lemma emulation_init_keeps {plat : Platform P} {cfg : Config} s : wpp emulation_init s (fun _ s' => k_dt s' = k_dt s).
Proof.
  unfold emulation_init. eapply wpp_run; [reflexivity|]. destruct (find_map_by_type_and_pa _ _ _) as [[? m]|]; [|done].
  eapply wpp_run; [reflexivity|]. destruct (find_map_by_type _ _) as [[? m']|]; [|done]. eapply wpp_run; [reflexivity|]. done.
Qed.
End table.

(** ** The primary core *)

Section primary.
Context {P : Type} {plat : Platform P} {cfg : Config} {tcfg : ThreadConfig} {build : StrBuild} {bc : BootConfig} {drv : IrqDrivers P} {hl : HeapLayout} {ops : SerialOps P}.
Context (h : thread_handlers) (dt_drivers : list (dt_driver P)) (driver_of : dt_driver P -> option (serial_driver (P := P))).
Context (n : nat) (nsec_entry fdt : Z) (t : tree) (J : kernel P -> Prop) (rank : Z -> nat) (R : nat).
Implicit Types (s : tstate (soc P)).
#[local] Abbreviation kern s := (con_kernel (soc_console (world s))).
#[local] Abbreviation heap_len := (u32 (heap1_end - heap1_start)).
#[local] Abbreviation heap_from := (pool_start heap1_start).
#[local] Abbreviation heap_size := (pool_end heap1_start heap_len - pool_start heap1_start).

(** What the primary core finds when it is started. *)
Record started s : Prop := {
  st_cold : cold s;
  st_entry : nsec_entry <> PADDR_INVALID;
  st_core : is_Some (soc_ctx (world s) !! 0%nat) /\ is_Some (soc_nsacr (world s) !! 0%nat);
  st_heap : 0 < heap1_start /\ heap1_start + heap_len < 2 ^ 32 /\ 24 <= heap_size < 2 ^ 31 /\ fresh_memory heap_from heap_size (soc_heap (world s));
  st_tree : tree_given (soc_console (world s)) CFG_DT_ADDR fdt t;
  st_console : find_kid (root_place t) (chars "secure-chosen") = None;
  st_csu : wpp (csu_init CSU_BASE) (kern s) (fun _ k => J k /\ device_objs (k_dt k) = ∅ /\
    phys_to_virt CFG_DT_ADDR MEM_AREA_RAM_NSEC k = Ret fdt k);
  st_conventional : conventional t rank /\ (forall p, p ∈ all_places t -> (rank (pl_off p) < R)%nat) /\ (R + height t <= S n)%nat;
  st_probe : probe_env fdt t dt_drivers J }.

(** What it leaves to the normal world. *)
Record ready s s' : Prop := {
  rd_threads : inv (mk_machine s' (fun _ => Outside)) /\ handlers s' = h /\
    (forall i x, threads s' !! i = Some x -> stack_va_end x = GET_STACK stack_thread_addr STACK_THREAD_SIZE i);
  rd_return : exists x, soc_ctx (world s') !! 0%nat = Some x /\ wc_mon_lr (sc_nsec x) = nsec_entry /\
    wc_mon_spsr (sc_nsec x) = Z.lor CPSR_MODE_SVC ARM32_CPSR_I;
  rd_heap : first_heap heap_from heap_size (soc_heap (world s'));
  rd_table : table_built t (kern s');
  rd_packed : tree_packed (con_mem (soc_console (world s))) fdt t (soc_console (world s')) }.

Lemma wpp_in_console {A} (m : M (console P) A) s Q (F : A -> tstate (soc P) -> Prop) : wpp m (soc_console (world s)) Q ->
  (forall a k, Q a k -> F a (put_world (set_soc_console k (world s)) s)) -> wpp (in_console m) s F.
Proof. unfold wpp, in_console, in_world, on_part. intros Hm H. destruct (m (soc_console (world s))); try done. by apply H. Qed.
Lemma in_console_run {A} (m : M (console P) A) s k a k' : soc_console (world s) = k -> m k = Ret a k' ->
  in_console m s = Ret a (put_world (set_soc_console k' (world s)) s).
Proof. intros <- H. unfold in_console, in_world, on_part. by rewrite H. Qed.
Lemma wpp_in_heap {A} (m : M (gmap Z Z) A) s Q (F : A -> tstate (soc P) -> Prop) : wp m (soc_heap (world s)) Q ->
  (forall a k, Q a k -> F a (put_world (set_soc_heap k (world s)) s)) -> wpp (in_heap m) s F.
Proof. unfold wp, wpp, in_heap, in_world, on_part. intros Hm H. destruct (m (soc_heap (world s))); try done. by apply H. Qed.

Lemma init_sec_mon_run s x : nsec_entry <> PADDR_INVALID -> soc_ctx (world s) !! 0%nat = Some x ->
  let x' := set_sc_nsec (set_wc_mon_spsr (Z.lor CPSR_MODE_SVC ARM32_CPSR_I) (set_wc_mon_lr nsec_entry (sc_nsec x))) x in
  init_sec_mon 0 nsec_entry s = Ret tt (put_world (set_soc_ctx (<[0%nat := x']> (soc_ctx (world s))) (world s)) s).
Proof.
  intros He Hx x'. unfold init_sec_mon. assert (Ha : massert (ret (negb (nsec_entry =? PADDR_INVALID))) s = Ret tt s).
  { apply massert_run. by rewrite (proj2 (Z.eqb_neq _ _)). }
  rewrite (bind_run _ _ _ _ _ Ha). unfold in_world, on_part. rewrite (bind_run _ _ _ (soc_ctx (world s)) (world s)) by done.
  rewrite (bind_run _ _ _ _ _ (aget_lookup _ 0 x (world s) Hx)).
  rewrite (bind_run _ _ _ _ _ (aset_insert _ 0 x' (world s) ltac:(by eapply lookup_lt_Some))). done.
Qed.
Lemma init_vfp_nsec_run s v : soc_nsacr (world s) !! 0%nat = Some v ->
  exists l, init_vfp_nsec (P := P) 0 s = Ret tt (put_world (set_soc_nsacr l (world s)) s).
Proof.
  intros Hv. unfold init_vfp_nsec, in_world, on_part. rewrite (bind_run _ _ _ (soc_nsacr (world s)) (world s)) by done.
  rewrite (bind_run _ _ _ _ _ (aget_lookup _ 0 v (world s) Hv)).
  rewrite (bind_run _ _ _ _ _ (aset_insert _ 0 _ (world s) ltac:(by eapply lookup_lt_Some))). by eexists.
Qed.

(** The threads and the heap are up. *)
Record threads_up s s4 : Prop := {
  tu_booting : booting true s4;
  tu_masked : masked s4 0%nat;
  tu_canaries : canaries_ok s4;
  tu_handlers : handlers s4 = h;
  tu_stacks : forall i x, threads s4 !! i = Some x -> stack_va_end x = GET_STACK stack_thread_addr STACK_THREAD_SIZE i;
  tu_world : exists hp, first_heap heap_from heap_size hp /\ world s4 = set_soc_heap hp (world s) }.
Lemma threads_up_run s (rest : M (tstate (soc P)) unit) (Q : unit -> tstate (soc P) -> Prop) : started s ->
  (forall s4, threads_up s s4 -> wpp rest s4 Q) ->
  wpp (thread_set_exceptions 0 THREAD_EXCP_ALL;;; init_vfp_sec;;; init_runtime 0;;; thread_init_primary h;;; thread_init_per_cpu 0;;; rest) s Q.
Proof.
  intros Hst Hrest. pose proof (st_cold s Hst) as Hcold. pose proof Hcold as (Hnt & Hnc & Hlt & Hfree & Hll & Hlc & Hlr & Hlk & Hstk).
  destruct (lookup_lt_is_Some_2 (core_locals s) 0) as [l Hl]; [lia|]. destruct (lookup_lt_is_Some_2 (cores s) 0) as [r Hr]; [lia|].
  assert (Hn : count_is 0 l) by (intros _; by eapply (Forall_lookup_1 _ _ _ _ Hlc)).
  eapply wpp_run; [by eapply set_exceptions_run|]. set (s1 := upd_cores _ s).
  assert (Hm : masked s1 0%nat) by (apply masked_upd; [done|by rewrite put_excp_foreign]).
  assert (Hcold1 : cold s1) by (unfold cold; cbn; rewrite length_insert; by split_and!).
  eapply wpp_run; [reflexivity|]. unfold init_runtime. apply wpp_bind, wpp_bind.
  eapply wpp_mono; [eapply (wpp_kept _ s1 _ (keeps_init_boot_thread 0) (init_boot_thread_run s1 Hcold1 Hm))|].
  intros [] s2 ((Hb & Hcr & Hst1 & Hst2 & Hst3) & Hw2).
  destruct (st_heap s Hst) as (Hh1 & Hh2 & Hh3 & Hh4). change (world s1) with (world s) in Hw2.
  eapply wpp_in_heap; [rewrite Hw2; by apply first_pool_run|]. cbn beta. intros [] hp Hhp. rewrite Hw2.
  set (s2' := put_world _ s2). apply wpp_bind.
  eapply wpp_mono; [eapply (wpp_kept _ s2' _ (keeps_init_primary h)); apply init_primary_run; [apply Hb|unfold s2'; cbn; by rewrite Hst1, Hst2, Hst3]|].
  intros [] s3 ((Ht3 & Hl3 & Hc3 & Hlk3 & Hh3' & Hcan3) & Hw3). change (threads s2') with (threads s2) in Ht3.
  change (core_locals s2') with (core_locals s2) in Hl3. change (cores s2') with (cores s2) in Hc3. change (thread_global_lock s2') with (thread_global_lock s2) in Hlk3.
  assert (Hb3 : booting true s3).
  { destruct Hb as (H1 & H2 & H3 & H4 & H5 & H6). unfold booting. rewrite Ht3, Hl3, Hc3, Hlk3, length_imap. split_and!; try done. intros i x.
    rewrite list_lookup_imap. destruct (threads s2 !! i) eqn:E; intros ?; simplify_eq/=. by apply H5. }
  assert (Hm3 : masked s3 0%nat) by (unfold masked; by rewrite Hc3, Hcr).
  apply wpp_bind. eapply wpp_mono; [eapply (wpp_kept _ s3 _ (keeps_init_per_cpu 0)); by apply (init_per_cpu_run true)|].
  intros [] s4 ((Hb4 & Hm4 & Ht4 & Hh4' & Hcan4) & Hw4). apply Hrest. split; try done; [congruence| |exists hp; by rewrite Hw4, Hw3].
  intros i x. rewrite Ht4, Ht3, list_lookup_imap. destruct (threads s2 !! i); cbn; [by intros [= <-]|done].
Qed.

(** The initial calls: the device table, and then what does not touch it. *)
Lemma initcalls_run s k m : started s -> tree_packed m fdt t k -> 0 < CFG_DTB_MAX_SIZE ->
  J (con_kernel k) -> device_objs (k_dt (con_kernel k)) = ∅ ->
  phys_to_virt CFG_DT_ADDR MEM_AREA_RAM_NSEC (con_kernel k) = Ret fdt (con_kernel k) ->
  wpp (call_initcalls (initcalls dt_drivers (S n))) k (fun _ k' => table_built t (con_kernel k') /\ k' = set_con_kernel (con_kernel k') k).
Proof.
  intros Hst Hpk HW HJ Hobj Hva. destruct (st_conventional s Hst) as (Hcv & HR & Hn). unfold call_initcalls, initcalls. cbn [for_each].
  apply wpp_bind, wpp_bind. eapply wpp_mono; [by apply (dt_probe_call_run k m fdt t dt_drivers rank R (S n) Hpk HW Hcv HR Hn (st_probe s Hst))|].
  intros r k1 (_ & _ & Ht & Ek1). apply wpp_ret, wpp_bind, wpp_bind. unfold in_kern at 1, on_part, wpp.
  pose proof (emulation_init_keeps (con_kernel k1)) as He. unfold wpp in He.
  destruct (emulation_init (con_kernel k1)) as [e x| | |]; try done. cbn. split; [by apply (table_built_same t (con_kernel k1))|].
  rewrite Ek1. done.
Qed.

Definition set_entry (x : sm_ctx) : sm_ctx :=
  set_sc_nsec (set_wc_mon_spsr (Z.lor CPSR_MODE_SVC ARM32_CPSR_I) (set_wc_mon_lr nsec_entry (sc_nsec x))) x.
(** Everything behind the threads and the heap. *)
Lemma devices_up_run s s4 (Q : unit -> tstate (soc P) -> Prop) : started s -> threads_up s s4 ->
  (forall w, (exists x, soc_ctx w !! 0%nat = Some (set_entry x)) -> soc_heap w = soc_heap (world s4) ->
     table_built t (con_kernel (soc_console w)) -> tree_packed (con_mem (soc_console (world s))) fdt t (soc_console w) -> Q tt (put_world w s4)) ->
  wpp (init_sec_mon 0 nsec_entry;;; in_console (init_fdt CFG_DT_ADDR);;;
       in_console (va <- in_kern (phys_to_virt CFG_DT_ADDR MEM_AREA_RAM_NSEC);; m <- gets con_mem;;
         configure_console_from_dt driver_of (bytes_from (Z.to_nat CFG_DTB_MAX_SIZE) m va) dt_drivers (S n) CFG_DT_ADDR);;;
       in_console main_init_primary;;; init_vfp_nsec 0;;; in_console (call_initcalls (initcalls dt_drivers (S n)))) s4 Q.
Proof.
  intros Hst Htu HQ. destruct (tu_world s s4 Htu) as (hp & _ & Hw4). destruct (st_core s Hst) as ([x Hx] & [v Hv]).
  pose proof (st_tree s Hst) as Htree. destruct (tg_tree _ _ _ _ Htree) as (L & l & strs & o_r & o_s & o_t & total & Hat & _ & _).
  pose proof (ta_addr _ _ _ _ _ _ _ _ _ _ Hat) as (Hf & _ & HW). pose proof (tg_phys _ _ _ _ Htree) as Hp. pose proof (tg_virt _ _ _ _ Htree) as Hva.
  assert (Hx4 : soc_ctx (world s4) !! 0%nat = Some x) by (by rewrite Hw4).
  eapply wpp_run; [exact (init_sec_mon_run s4 x (st_entry s Hst) Hx4)|]. set (s5 := put_world _ s4).
  assert (Hc5 : soc_console (world s5) = soc_console (world s)) by (unfold s5; cbn; by rewrite Hw4).
  destruct (init_fdt_run _ _ _ _ Htree) as (m' & Hrun & Hpk). set (k1 := set_con_mem m' _) in *.
  eapply wpp_run; [exact (in_console_run _ s5 _ _ _ Hc5 Hrun)|]. set (s6 := put_world _ s5).
  eapply wpp_run; [exact (in_console_run _ s6 k1 _ _ eq_refl
    (no_console_configured driver_of k1 _ fdt t dt_drivers n _ Hpk (st_console s Hst) Hp ltac:(lia) Hva))|]. set (s7 := put_world _ s6).
  apply wpp_bind. eapply (wpp_in_console _ s7 (fun _ k => J (con_kernel k) /\ device_objs (k_dt (con_kernel k)) = ∅ /\
    phys_to_virt CFG_DT_ADDR MEM_AREA_RAM_NSEC (con_kernel k) = Ret fdt (con_kernel k) /\ k = set_con_kernel (con_kernel k) k1)).
  { pose proof (st_csu s Hst) as Hcsu. unfold main_init_primary, in_kern, on_part, wpp in *. change (con_kernel (soc_console (world s7))) with (kern s).
    destruct (csu_init CSU_BASE (kern s)); try done. destruct Hcsu as (? & ? & ?). by split_and!. }
  intros [] k2 (HJ & Hobj & Hva2 & Ek2). set (s8 := put_world _ s7).
  assert (Hv8 : soc_nsacr (world s8) !! 0%nat = Some v) by (unfold s8, s7, s6, s5; cbn; by rewrite Hw4).
  destruct (init_vfp_nsec_run s8 v Hv8) as [l9 Hr9]. eapply wpp_run; [exact Hr9|]. set (s9 := put_world _ s8).
  assert (Hpk2 : tree_packed (con_mem (soc_console (world s))) fdt t k2) by (rewrite Ek2; exact Hpk).
  eapply wpp_in_console; [by apply (initcalls_run s k2 _ Hst Hpk2 ltac:(lia) HJ Hobj Hva2)|].
  intros [] k3 [Ht3 Ek3]. apply HQ.
  - exists x. cbn. rewrite list_lookup_insert_eq; [done|]. by eapply lookup_lt_Some.
  - done.
  - done.
  - cbn. rewrite Ek3. exact Hpk2.
Qed.

End primary.

(** ** A concrete board *)

(** The tree of the board with its blocks in another order, and a reservation. *)
Definition boot_rsv : list (Z * Z) := [(0x10000000, 0x1000)].
Definition boot_strs : list Z := strtab board_names.
Definition boot_o_s : Z := 40 + bytes_len boot_strs.
Definition boot_o_r : Z := boot_o_s + bytes_len (struct_of board_tree).
Definition boot_total : Z := boot_o_r + bytes_len (enc_rsv boot_rsv).
Definition boot_window : list Z :=
  be32 FDT_MAGIC ++ be32 boot_total ++ be32 boot_o_s ++ be32 40 ++ be32 boot_o_r ++ be32 17 ++ be32 16 ++ be32 0 ++
  be32 (bytes_len boot_strs) ++ be32 (bytes_len (struct_of board_tree)) ++
  boot_strs ++ struct_of board_tree ++ enc_rsv boot_rsv ++ replicate (Z.to_nat (0x3a0 - boot_total)) 0.
Lemma boot_tree_at : tree_at board_addr 0x3a0 boot_window boot_rsv boot_strs board_tree boot_o_r boot_o_s 40 boot_total.
Proof.
  split.
  - done.
  - split; try (vm_compute; by split_and!); try (vm_compute; reflexivity). split; [by vm_compute|]. apply values_bytes. by vm_compute.
  - split; try (vm_compute; by split); try (vm_compute; reflexivity). by vm_compute.
  - by vm_compute.
  - by repeat constructor.
  - by vm_compute.
  - right. by vm_compute.
Qed.

#[local] Existing Instances probe_cfg board_threads.
#[local] Instance boot_build : StrBuild := {| small_code := false |}.
#[local] Instance boot_cfg : BootConfig :=
  {| CFG_DTB_MAX_SIZE := 0x3a0; CFG_DT_ADDR := board_addr; CSU_BASE := 0x021C0000; heap1_start := 0x1000; heap1_end := 0x1100 |}.
#[local] Instance boot_heap : HeapLayout := {| freelist := 0x100; malloc_pool_at := 0x200; malloc_pool_len_at := 0x204 |}.
#[local] Instance boot_ops : SerialOps bigram := imx_uart_ops true 3.
#[local] Instance boot_drivers : IrqDrivers bigram := drivers 3.

Definition boot_kernel : kernel bigram :=
  set_k_mmu (MmuData [TeeMmapRegion MEM_AREA_RAM_NSEC 0x1000 board_addr board_addr 0x100000 0;
                      TeeMmapRegion MEM_AREA_IO_SEC 0x100000 0x01000000 0x01000000 0x01200000 0] ∅ ∅ 0) (kernel_init (mk_bigram ∅)).
Definition boot_words : gmap Z Z := list_to_map (statics ++ ((fun i => (0x1000 + 4 * i, 0)) <$> seqZ 0 0x40)).
Definition no_world : sm_world_ctx := SmWorldCtx [] [] 0 [] 0 0.
Definition boot_soc : soc bigram :=
  mk_soc (mk_console boot_kernel None [] 0 0 (put_bytes board_addr boot_window ∅)) boot_words (replicate 4 (SmCtx no_world no_world)) (replicate 4 0)
    (replicate 4 0) (replicate 4 0).
Definition boot_start : tstate (soc bigram) :=
  mk_tstate (threads board_cold) (core_locals board_cold) (cores board_cold) 0 (handlers board_cold) (stack_tmp board_cold) (stack_abt board_cold) (stack_thread board_cold) boot_soc.

Lemma boot_cold_start : cold boot_start.
Proof. exact board_is_cold. Qed.
Lemma boot_fresh : fresh_memory (pool_start 0x1000) (pool_end 0x1000 0x100 - pool_start 0x1000) boot_words.
Proof. apply (bool_decide_unpack _). by vm_compute. Qed.
Lemma boot_tree_given : tree_given (soc_console boot_soc) board_addr board_addr board_tree.
Proof.
  split; [done|by vm_compute|]. exists boot_window, boot_rsv, boot_strs, boot_o_r, boot_o_s, 40, boot_total.
  split_and!; [exact boot_tree_at|apply put_at|by vm_compute].
Qed.
Definition csu_returns : option (kernel bigram) := match csu_init 0x021C0000 boot_kernel with Ret _ k => Some k | _ => None end.
Lemma boot_csu : wpp (csu_init CSU_BASE) boot_kernel (fun _ k => no_chips k /\ device_objs (k_dt k) = ∅ /\
  phys_to_virt CFG_DT_ADDR MEM_AREA_RAM_NSEC k = Ret board_addr k).
Proof. unfold wpp. vm_compute. by repeat split. Qed.
Lemma boot_started : started system_drivers 999 0x80800000 board_addr board_tree no_chips Z.to_nat 990 boot_start.
Proof.
  split.
  - exact boot_cold_start.
  - done.
  - split; by eexists.
  - split_and!; try done. exact boot_fresh.
  - exact boot_tree_given.
  - by vm_compute.
  - exact boot_csu.
  - split; [exact board_conventional|]. split; [exact board_rank|exact board_fuel].
  - exact board_env.
Qed.
Definition boot_run : M (tstate (soc bigram)) unit :=
  (generic_boot_init_primary 0 board_handlers system_drivers (fun _ => None) 1000 0x80800000 board_addr;;; thread_clr_boot_thread 0).
Lemma boot_returns : returns boot_run boot_start = true.
Proof. vm_compute. reflexivity. Qed.
