(* ===== verification/Trap.v ===== *)
(** * Traps of the normal world (arch/arm/sm/sm_a32.S, kernel/thread_a32.S,
      plat-imx/main.c)

    Two exceptions of the normal world are taken to the monitor: the data abort of
    an access that the security unit refuses, which the monitor hands to the
    emulation, and the fast interrupt, which the secure kernel handles before the
    normal world goes on. *)

From stdpp Require Import prelude list.
From Stdlib Require Import ZArith Lia.
From S2P Require Import Prelude Platform State MmuDesc CoreMmu Emulation Interrupt Gic Thread Monitor Smc.
#[local] Open Scope Z_scope.
#[local] Open Scope kernel_scope.

(** ** The data abort *)

(** What the monitor reads of a data abort: the status, the virtual address, and
    the translation of a page of the normal world. *)
Record fault_regs := mk_fault { dfsr : Z; dfar : Z; ats12nsopr : Z -> Z }.

(** Only the address of the page is translated; the offset is put back. *)
Definition abort_pa (f : fault_regs) (va : Z) : Z :=
  let r6 := 0xFFF in
  Z.lor (Z.land va r6) (Z.land (ats12nsopr f (Z.land va (not32 r6))) (not32 r6)).

(** [svc_lr] in [struct sm_mode_regs]. *)
Definition SVC_LR : Z := 10.

Section abort.
Context {P : Type} {plat : Platform P} {cfg : Config} {clients : EmuClients P}.
Context {A : Type} (getk : A -> kernel P) (putk : kernel P -> A -> A).
#[local] Abbreviation K := (M (mon A)).

(** [sm_da_entry].  [cpu_pc] is the [lr] of the exception: eight bytes behind the
    instruction.  What the C code leaves in [r0]-[r3] and [r12] is overwritten. *)
Definition sm_da_entry (f : fault_regs) : K unit :=
  c <- get_cpu;;
  x <- get_ctx;;
  let lr := u32 (cpu_pc c - 4) in
  put_cpu (set_ns false c) ;;;
  svc_lr <- aget (modes c) SVC_LR;;
  let nsec := set_wc_mon_spsr (cpu_psr c) (set_wc_mon_lr lr (set_wc_r0 (lo c) (sc_nsec x))) in
  let nsec := set_wc_r8 (r8_12 c) (set_wc_lr svc_lr nsec) in
  nsec <- in_kernel getk putk (emu_handle nsec (dfsr f) (abort_pa f (dfar f)) (abort_pa f (u32 (lr - 4))));;
  put_ctx (set_sc_nsec nsec x) ;;;
  c <- get_cpu;;
  modes <- aset (modes c) SVC_LR (wc_lr nsec);;
  put_cpu (mk_cpu (wc_r0 nsec) (wc_r8 nsec) modes (wc_mon_lr nsec) (wc_mon_spsr nsec) true).
End abort.

(** ** The fast interrupt *)

(** [THREAD_VECTOR_TABLE_FIQ_ENTRY] is the offset of the seventh branch. *)
Definition fiq_entry `{MonitorConfig} : Z := u32 (thread_vector_table_addr + 24).

Section fiq.
Context {P : Type} {plat : Platform P} {cfg : Config} {tcfg : ThreadConfig} {drv : IrqDrivers P} {mc : MonitorConfig}.
Abbreviation secure := (tstate (kernel P)).

(** [sm_fiq_entry].  [r0]-[r2] are what the monitor used them for last, [scratch];
    the other registers are still those of the normal world. *)
Definition sm_fiq_entry (scratch : list Z) : M (mon secure) unit :=
  c <- get_cpu;;
  x <- get_ctx;;
  let lr := u32 (cpu_pc c - 4) in
  put_cpu (set_ns false c) ;;;
  nsec <- sm_save_modes_regs (set_wc_mon_spsr (cpu_psr c) (set_wc_mon_lr lr (set_wc_r0 (lo c) (sc_nsec x))));;
  let nsec := set_wc_r8 (r8_12 c) nsec in
  let sec := set_wc_mon_lr fiq_entry (sc_sec x) in
  put_ctx (SmCtx sec nsec) ;;;
  sm_restore_modes_regs sec ;;;
  c <- get_cpu;;
  put_cpu (mk_cpu (scratch ++ drop 3 (lo c)) (r8_12 c) (modes c) (wc_mon_lr sec) (wc_mon_spsr sec) (ns c)).

(** [vector_fiq_entry], up to its [smc]; [h] runs the function at an address. *)
Definition vector_fiq_entry (h : Z -> M secure unit) : M secure unit :=
  thread_check_canaries ;;; hs <- gets handlers;; h (nintr hs).

(** main.c registers [main_fiq] for the interrupts of the secure world. *)
Definition main_fiq : M (kernel P) unit := gic_it_handle.
Definition fiq_handler (h : Z) : M secure unit := in_world main_fiq.

(** The secure world between its entry and its own [smc]: [r0] is
    [TEESMC_OPTEED_RETURN_FIQ_DONE], everything else is what [after] says. *)
Definition fiq_world (c : nat) (h : Z -> M secure unit) (after : cpu) : M (mon secure) unit :=
  r <- get_cpu;;
  in_secure (write_cpsr c (cpu_psr r)) ;;;
  (if cpu_pc r =? fiq_entry then in_secure (vector_fiq_entry h) else fault) ;;;
  put_cpu (mk_cpu (TEESMC_OPTEED_RETURN_FIQ_DONE :: lo after) (r8_12 after) (modes after) (cpu_pc after) (cpu_psr after) false).

(** A fast interrupt of the normal world on core [c]. *)
Definition fiq_call (c : nat) (h : Z -> M secure unit) (scratch : list Z) (after : cpu) : M (mon secure) unit :=
  sm_fiq_entry scratch ;;; fiq_world c h after ;;; sm_smc_entry world put_world.
End fiq.
