(* ===== verification/TrapSpec.v ===== *)
(** * What the normal world notices of a trap

    A trapped access of the normal world is carried out, or replaced by a zero,
    between two of its instructions; an interrupt of the secure world is invisible
    to it.  Together with the correctness of the device layer: an access to a device
    that the user has denied ends without an access of the device. *)

From stdpp Require Import prelude gmap list strings.
From Stdlib Require Import ZArith Lia.
From S2P Require Import Prelude Platform State Frame MmuDesc CoreMmu Csu Emulation Interrupt Gic Dt Protection Entry Drivers Cloak Thread ThreadInv Monitor Smc Trap.
#[local] Open Scope Z_scope.
#[local] Open Scope kernel_scope.

(** ** Registers of the normal world *)

Definition set_pc (v : Z) (c : cpu) : cpu := mk_cpu (lo c) (r8_12 c) (modes c) v (cpu_psr c) (ns c).
(** The register an instruction names; [lr] is the one of supervisor mode. *)
Definition get_rt (rt : reg_slot) (c : cpu) : Z :=
  match rt with
  | SLOT_R0 i => nth (Z.to_nat i) (lo c) 0
  | SLOT_R8 i => nth (Z.to_nat i) (r8_12 c) 0
  | SLOT_LR => nth 10 (modes c) 0
  end.
Definition set_rt (rt : reg_slot) (v : Z) (c : cpu) : cpu :=
  match rt with
  | SLOT_R0 i => mk_cpu (<[Z.to_nat i := v]> (lo c)) (r8_12 c) (modes c) (cpu_pc c) (cpu_psr c) (ns c)
  | SLOT_R8 i => mk_cpu (lo c) (<[Z.to_nat i := v]> (r8_12 c)) (modes c) (cpu_pc c) (cpu_psr c) (ns c)
  | SLOT_LR => mk_cpu (lo c) (r8_12 c) (<[10%nat := v]> (modes c)) (cpu_pc c) (cpu_psr c) (ns c)
  end.

Lemma lookup_nth (l : list Z) i : (i < length l)%nat -> l !! i = Some (nth i l 0).
Proof. intros Hi. destruct (lookup_lt_is_Some_2 l i Hi) as [v Hv]. by rewrite (nth_lookup_Some _ _ 0 _ Hv). Qed.
Lemma insert_nth (l : list Z) i : (i < length l)%nat -> <[i := nth i l 0]> l = l.
Proof. intros Hi. by apply list_insert_id, lookup_nth. Qed.
Lemma aget_nth {S} (l : list Z) i (s : S) : 0 <= i < Z.of_nat (length l) -> aget l i s = Ret (nth (Z.to_nat i) l 0) s.
Proof. intros Hi. apply aget_run; [lia|]. apply lookup_nth. lia. Qed.
Lemma aset_nth {S} (l : list Z) i v (s : S) : 0 <= i < Z.of_nat (length l) -> aset l i v s = Ret (<[Z.to_nat i := v]> l) s.
Proof. intros Hi. rewrite <- (Z2Nat.id i) at 1 by lia. apply aset_insert. lia. Qed.

Lemma u32_sub_sub a b c : u32 (u32 (a - b) - c) = u32 (a - (b + c)).
Proof. unfold u32. rewrite Zminus_mod_idemp_l. f_equal. lia. Qed.

(** ** The emulation of an access that no driver filters *)

Section access.
Context {P : Type} {plat : Platform P} {cfg : Config} {clients : EmuClients P}.
Implicit Types k : kernel P.

Definition refused (e : emu_data) (pa : Z) : bool := existsb (fun r => region_covers pa r && denies r) (regions e).
Definition driver_free (e : emu_data) (pa : Z) : Prop := Forall (fun r => region_covers pa r = true -> driverless r = true) (regions e).

Lemma no_drivers e pa : forallb driverless (regions e) = true -> driver_free e pa.
Proof. rewrite forallb_forall. intros H. apply Forall_forall. intros r Hr _. by apply H, list_elem_of_In. Qed.
Lemma emu_check_run pa st v k : driver_free (k_emu k) pa -> emu_check pa st v k = Ret (negb (refused (k_emu k) pa), v) k.
Proof.
  intros H. unfold emu_check, get_emu. erewrite bind_run by done. rewrite emu_check_loop_driverless by done.
  f_equal. f_equal. unfold refused, driver_free in *. cbn [andb]. induction (regions (k_emu k)) as [|r l IH]; [done|].
  apply Forall_cons in H as [_ H]. cbn. by rewrite negb_orb, IH.
Qed.

(** Reading and writing only concern the platform. *)
Lemma emu_read_plat a n k : exists v p, emu_read a n k = Ret v (set_k_plat p k).
Proof.
  unfold emu_read, read8, read16, read32, io_load. repeat case_match; try (eexists _, _; reflexivity).
  exists 0, (k_plat k). by destruct k.
Qed.
Lemma emu_write_plat v a n k : exists p, emu_write v a n k = Ret tt (set_k_plat p k).
Proof.
  unfold emu_write, write8, write16, write32, io_store. repeat case_match; try (eexists _; reflexivity).
  exists (k_plat k). by destruct k.
Qed.

Lemma load_run pa va reg n sign k v k' : driver_free (k_emu k) pa -> emu_read va n k = Ret v k' -> k_emu k' = k_emu k ->
  emu_handle_load pa va reg n sign k =
    if refused (k_emu k) pa then Ret 0 k else Ret (if sign then sign_extend v n else v) k'.
Proof.
  intros Hd Hr He. unfold emu_handle_load. rewrite (bind_run _ _ _ _ _ (emu_check_run pa _ _ k Hd)).
  destruct (refused (k_emu k) pa); [done|]. cbn [negb]. rewrite (bind_run _ _ _ _ _ Hr).
  assert (Hd' : driver_free (k_emu k') pa) by (by rewrite He). by rewrite (bind_run _ _ _ _ _ (emu_check_run pa _ _ k' Hd')).
Qed.
Lemma store_run pa va reg n k k' : driver_free (k_emu k) pa -> emu_write reg va n k = Ret tt k' ->
  emu_handle_store pa va reg n k = if refused (k_emu k) pa then Ret reg k else Ret reg k'.
Proof.
  intros Hd Hw. unfold emu_handle_store. rewrite (bind_run _ _ _ _ _ (emu_check_run pa _ _ k Hd)). cbn [default].
  destruct (refused (k_emu k) pa); [done|]. cbn [negb when]. by rewrite (bind_run _ _ _ _ _ Hw).
Qed.
End access.

(** ** The data abort *)

Section abort.
Context {P : Type} {plat : Platform P} {cfg : Config} {clients : EmuClients P}.
Context {A : Type} (getk : A -> kernel P) (putk : kernel P -> A -> A).
Implicit Types (s : mon A) (k : kernel P) (r : cpu).

(** The core was in the normal world. *)
Definition nsec_abort s : Prop :=
  let r := m_cpu s in ns r = true /\ length (lo r) = 8%nat /\ length (r8_12 r) = 5%nat /\ length (modes r) = 17%nat.
(** The core goes on with the registers [r], and the kernel is [k]; nothing else has
    changed but the context of the normal world, which the monitor writes anew when
    it is entered. *)
Definition goes_on s (m : outcome (mon A) unit) r k : Prop :=
  exists x, m = Ret tt (mk_mon r x (ns_entry_addrs s) (putk k (m_rest s))) /\ sc_sec x = sc_sec (m_ctx s).

(** The context in which [emu_handle] finds the registers, and the core after it. *)
Definition abort_ctx r (w : sm_world_ctx) : sm_world_ctx :=
  SmWorldCtx (wc_mode_regs w) (r8_12 r) (nth 10 (modes r) 0) (lo r) (u32 (cpu_pc r - 4)) (cpu_psr r).
Definition resume r (w : sm_world_ctx) : cpu :=
  mk_cpu (wc_r0 w) (wc_r8 w) (<[10%nat := wc_lr w]> (modes r)) (wc_mon_lr w) (wc_mon_spsr w) true.

Lemma da_entry_eq f s : nsec_abort s ->
  sm_da_entry getk putk f s =
    match emu_handle (abort_ctx (m_cpu s) (sc_nsec (m_ctx s))) (dfsr f) (abort_pa f (dfar f)) (abort_pa f (u32 (cpu_pc (m_cpu s) - 8)))
            (getk (m_rest s)) with
    | Ret w k => Ret tt (mk_mon (resume (m_cpu s) w) (set_sc_nsec w (m_ctx s)) (ns_entry_addrs s) (putk k (m_rest s)))
    | Panic => Panic | Fault => Fault | Spin => Spin
    end.
Proof.
  intros (Hns & Hlo & Hhi & Hm). destruct s as [r x a t]. cbn [m_cpu m_ctx m_rest ns_entry_addrs] in *.
  assert (Hin : 0 <= SVC_LR < Z.of_nat (length (modes r))) by (unfold SVC_LR; lia).
  unfold sm_da_entry, get_cpu, get_ctx, put_cpu, put_ctx, in_kernel, bind, gets, modify, ret.
  cbn [m_cpu m_ctx m_rest ns_entry_addrs set_ns modes cpu_pc cpu_psr lo r8_12]. rewrite (aget_nth _ _ _ Hin), u32_sub_sub. change (4 + 4) with 8. change (Z.to_nat SVC_LR) with 10%nat.
  unfold abort_ctx. destruct (emu_handle _ _ _ _ _) as [w k| | |]; [|done..].
  cbn [m_cpu m_ctx m_rest ns_entry_addrs set_ns modes cpu_pc cpu_psr lo r8_12]. by rewrite (aset_nth _ _ _ _ Hin).
Qed.

(** The slot of a register in the context is the register. *)
Lemma slot_of_rt instr rt : reg_slot_of (instr_rt instr) = Some rt ->
  match rt with SLOT_R0 i => 0 <= i < 8 | SLOT_R8 i => 0 <= i < 5 | SLOT_LR => True end.
Proof. pose proof (instr_rt_range instr). unfold reg_slot_of. intros H1. repeat case_match; simplify_eq; lia. Qed.

Lemma slot_get_rt s k w rt instr : nsec_abort s -> reg_slot_of (instr_rt instr) = Some rt ->
  slot_get (abort_ctx (m_cpu s) w) rt k = Ret (get_rt rt (m_cpu s)) k.
Proof.
  intros (_ & Hlo & Hhi & _) Hrt. apply slot_of_rt in Hrt.
  destruct rt; cbn [slot_get get_rt abort_ctx wc_r0 wc_r8 wc_lr]; [apply aget_nth; lia|apply aget_nth; lia|done].
Qed.
Lemma slot_set_rt s k w rt instr v : nsec_abort s -> reg_slot_of (instr_rt instr) = Some rt ->
  exists w', slot_set (abort_ctx (m_cpu s) w) rt v k = Ret w' k /\
    resume (m_cpu s) w' = set_rt rt v (set_pc (u32 (cpu_pc (m_cpu s) - 4)) (m_cpu s)).
Proof.
  intros (Hns & Hlo & Hhi & Hm) Hrt. apply slot_of_rt in Hrt.
  pose proof (insert_nth (modes (m_cpu s)) 10 ltac:(lia)) as Hid.
  destruct (m_cpu s) as [l h m pc psr b]. cbn [lo r8_12 modes cpu_pc cpu_psr ns] in *. subst b.
  destruct rt; cbn [slot_set abort_ctx wc_r0 wc_r8 wc_lr].
  - rewrite (bind_run _ _ _ _ _ (aset_nth l i v k ltac:(lia))). eexists. split; [reflexivity|]. unfold resume. cbn. by rewrite Hid.
  - rewrite (bind_run _ _ _ _ _ (aset_nth h i v k ltac:(lia))). eexists. split; [reflexivity|]. unfold resume. cbn. by rewrite Hid.
  - eexists. split; [reflexivity|]. done.
Qed.
Lemma resume_id s w : nsec_abort s -> resume (m_cpu s) (abort_ctx (m_cpu s) w) = set_pc (u32 (cpu_pc (m_cpu s) - 4)) (m_cpu s).
Proof.
  intros (Hns & _ & _ & Hm). destruct (m_cpu s) as [l h m pc psr b]. cbn in *. subst b. unfold resume, set_pc. cbn.
  by rewrite (insert_nth m 10) by lia.
Qed.
Lemma set_get_rt s rt instr : nsec_abort s -> reg_slot_of (instr_rt instr) = Some rt ->
  set_rt rt (get_rt rt (m_cpu s)) (set_pc (u32 (cpu_pc (m_cpu s) - 4)) (m_cpu s)) = set_pc (u32 (cpu_pc (m_cpu s) - 4)) (m_cpu s).
Proof.
  intros (Hns & Hlo & Hhi & Hm) Hrt. apply slot_of_rt in Hrt. destruct (m_cpu s) as [l h m pc psr b]. cbn [lo r8_12 modes ns] in *.
  destruct rt; unfold set_rt, get_rt, set_pc; cbn [lo r8_12 modes cpu_pc cpu_psr ns]; f_equal; apply insert_nth; lia.
Qed.

Lemma goes_on_intro s m w r k :
  m = Ret tt (mk_mon (resume (m_cpu s) w) (set_sc_nsec w (m_ctx s)) (ns_entry_addrs s) (putk k (m_rest s))) ->
  resume (m_cpu s) w = r -> goes_on s m r k.
Proof. intros -> <-. by eexists. Qed.

(** The whole of a data abort, as long as no driver filters the address. *)
Lemma data_abort_run f s : nsec_abort s ->
  let r := m_cpu s in let k := getk (m_rest s) in
  let pa := abort_pa f (dfar f) in let ipa := abort_pa f (u32 (cpu_pc r - 8)) in
  let next := set_pc (u32 (cpu_pc r - 4)) r in let m := sm_da_entry getk putk f s in
  if negb (is_translation_abort (dfsr f)) then goes_on s m (set_pc (u32 (cpu_pc r - 8)) r) k
  else if negb (in_windows (k_emu k) pa ipa) then goes_on s m next k
  else driver_free (k_emu k) pa ->
    exists instr p, read32 (instr_va (k_emu k) ipa) k = Ret instr (set_k_plat p k) /\
    match reg_slot_of (instr_rt instr), decode_access instr with
    | Some rt, Some (LOAD size sign) =>
        if refused (k_emu k) pa then goes_on s m (set_rt rt 0 next) (set_k_plat p k)
        else exists v q, emu_read (data_va (k_emu k) pa) size (set_k_plat p k) = Ret v (set_k_plat q k) /\
               goes_on s m (set_rt rt (if sign then sign_extend v size else v) next) (set_k_plat q k)
    | Some rt, Some (STORE size) =>
        if refused (k_emu k) pa then goes_on s m next (set_k_plat p k)
        else exists q, emu_write (get_rt rt r) (data_va (k_emu k) pa) size (set_k_plat p k) = Ret tt (set_k_plat q k) /\
               goes_on s m next (set_k_plat q k)
    | _, _ => m = Panic
    end.
Proof.
  intros Hs r k pa ipa next m. pose proof (da_entry_eq f s Hs) as Hm. fold r k pa ipa m in Hm.
  set (w := abort_ctx r (sc_nsec (m_ctx s))) in *.
  destruct (is_translation_abort (dfsr f)) eqn:Est; cbn [negb]; cycle 1.
  { unfold emu_handle in Hm. unfold is_translation_abort in Est. rewrite Est in Hm. cbn [negb] in Hm. unfold ret in Hm.
    refine (goes_on_intro _ _ _ _ _ Hm _). unfold w. cbn [abort_ctx wc_mon_lr]. rewrite u32_sub_sub. change (4 + 4) with 8.
    pose proof (resume_id s (sc_nsec (m_ctx s)) Hs) as Hr. fold r in Hr.
    transitivity (set_pc (u32 (cpu_pc r - 8)) (resume r (abort_ctx r (sc_nsec (m_ctx s))))); [done|]. by rewrite Hr. }
  destruct (in_windows (k_emu k) pa ipa) eqn:Ew; cbn [negb]; cycle 1.
  { assert (He : emu_handle w (dfsr f) pa ipa k = Ret w k).
    { unfold emu_handle. unfold is_translation_abort in Est. rewrite Est. cbn [negb]. unfold get_emu. erewrite bind_run by done.
      unfold in_windows in Ew. unfold id. cbv zeta. destruct ((pa <? _) || _) eqn:E1; [done|]. destruct ((ipa <? _) || _) eqn:E2; [done|]. lia. }
    rewrite He in Hm. refine (goes_on_intro _ _ _ _ _ Hm _). by apply resume_id. }
  intros Hd. destruct (read32_plat (instr_va (k_emu k) ipa) k) as (instr & p & Hr & _). exists instr, p. split; [done|].
  rewrite (emu_handle_executes _ _ _ _ _ _ _ Est Ew Hr) in Hm. unfold emu_execute in Hm.
  destruct (reg_slot_of (instr_rt instr)) as [rt|] eqn:Ert; [|exact Hm]. set (k1 := set_k_plat p k) in *.
  assert (Hback : forall v k2, exists w', slot_set w rt v k2 = Ret w' k2 /\ resume r w' = set_rt rt v next) by (intros; by apply (slot_set_rt s k2 _ rt instr)).
  assert (Hget : slot_get w rt k1 = Ret (get_rt rt r) k1) by (by apply (slot_get_rt s k1 _ rt instr)).
  destruct (decode_access instr) as [[size sign|size]|]; [| |exact Hm]; rewrite (bind_run _ _ _ _ _ Hget) in Hm.
  - destruct (emu_read_plat (data_va (k_emu k) pa) size k1) as (v & q & Hv).
    unfold bind in Hm. rewrite (load_run pa _ (get_rt rt r) size sign k1 v _ Hd Hv eq_refl) in Hm. change (k_emu k1) with (k_emu k) in Hm.
    destruct (refused (k_emu k) pa).
    + destruct (Hback 0 k1) as (w' & E & Er). rewrite E in Hm. by refine (goes_on_intro _ _ _ _ _ Hm _).
    + exists v, q. split; [exact Hv|]. destruct (Hback (if sign then sign_extend v size else v) (set_k_plat q k1)) as (w' & E & Er).
      rewrite E in Hm. by refine (goes_on_intro _ _ _ _ _ Hm _).
  - destruct (emu_write_plat (get_rt rt r) (data_va (k_emu k) pa) size k1) as (q & Hv).
    unfold bind in Hm. rewrite (store_run pa _ (get_rt rt r) size k1 _ Hd Hv) in Hm. change (k_emu k1) with (k_emu k) in Hm.
    pose proof (set_get_rt s rt instr Hs Ert) as Hid. fold r next in Hid.
    destruct (refused (k_emu k) pa); [|exists q; split; [exact Hv|]];
      [destruct (Hback (get_rt rt r) k1) as (w' & E & Er)|destruct (Hback (get_rt rt r) (set_k_plat q k1)) as (w' & E & Er)];
      rewrite E in Hm; rewrite Hid in Er; by refine (goes_on_intro _ _ _ _ _ Hm _).
Qed.
End abort.

(** ** The fast interrupt *)

Section fiq.
Context {P : Type} {plat : Platform P} {cfg : Config} {drv : IrqDrivers P} {tcfg : ThreadConfig} {mc : MonitorConfig}.
#[local] Abbreviation secure := (tstate (kernel P)).
Implicit Types (s : mon secure) (k : kernel P).

(** The interrupt that the controller reports in [k] is handled so that [Q] holds:
    the chip is the power controller when a handler is registered there; a spurious
    interrupt has no handler. *)
Definition served k (Q : kernel P -> Prop) : Prop :=
  exists iar k1, gic_read_iar k = Ret iar k1 /\
  let id := Z.land iar GICC_IAR_IT_ID_MASK in
  let ends k2 := exists k3, gic_write_eoir iar k2 = Ret tt k3 /\ Q k3 in
  if id <? max_it (k_gic k1) then
    exists gpc h, chip_objs (k_irq k1) !! CHIP_GPC = Some gpc /\ ic_handlers gpc !! Z.to_nat id = Some h /\
      wp (irq_handle (if bool_decide (is_Some h) then CHIP_GPC else CHIP_GIC) id) k1 (fun _ k2 => ends k2)
  else ends k1.

Lemma gic_it_handle_run k Q : served k Q -> wp gic_it_handle k (fun _ k' => Q k').
Proof.
  intros (iar & k1 & Hr & H). unfold gic_it_handle. apply wp_bind. eapply wp_intro; [exact Hr|]. cbv zeta in H |- *.
  set (id := Z.land iar GICC_IAR_IT_ID_MASK) in *. unfold get_gic. apply wp_bind, wp_gets, wp_bind, wp_when.
  assert (Hid : 0 <= id) by (apply Z.land_nonneg; right; by vm_compute).
  destruct (id <? max_it (k_gic k1)).
  - destruct H as (gpc & h & Hg & Hh & Hw). apply wp_bind. eapply wp_intro; [unfold get_chip, get_irq; erewrite bind_run by done; by rewrite Hg|].
    apply wp_bind. eapply wp_intro; [by apply aget_run|].
    assert (Hend : forall m : M (kernel P) irq_return, wp m k1 (fun _ k2 => exists k3, gic_write_eoir iar k2 = Ret tt k3 /\ Q k3) ->
      wp (m ;;; ret tt) k1 (fun _ k2 => wp (gic_write_eoir iar) k2 (fun _ => Q))).
    { intros m Hm. apply wp_bind. eapply wp_mono; [|exact Hm]. intros x k2 (k3 & Hk3 & HQ). apply wp_ret. by eapply wp_intro. }
    apply Hend in Hw. by destruct (bool_decide (is_Some h)).
  - destruct H as (k3 & Hk3 & HQ). by eapply wp_intro.
Qed.

(** The registers of the normal world are saved on the way in, and its interrupted
    instruction is where it goes on. *)
Lemma fiq_enter_run s scratch : length scratch = 3%nat ->
  sm_fiq_entry scratch s = Ret tt (mk_mon
    (mk_cpu (scratch ++ drop 3 (lo (m_cpu s))) (r8_12 (m_cpu s)) (wc_mode_regs (sc_sec (m_ctx s))) fiq_entry (wc_mon_spsr (sc_sec (m_ctx s))) false)
    (SmCtx (set_wc_mon_lr fiq_entry (sc_sec (m_ctx s)))
           (saved_nsec (set_pc (u32 (cpu_pc (m_cpu s) - 4)) (m_cpu s)) (sc_nsec (m_ctx s))))
    (ns_entry_addrs s) (m_rest s)).
Proof. intros _. by destruct s. Qed.
Lemma fiq_leave_run s rest : ns (m_cpu s) = false -> lo (m_cpu s) = TEESMC_OPTEED_RETURN_FIQ_DONE :: rest ->
  exists sec, sm_smc_entry world put_world s = Ret tt (mk_mon
      (mk_cpu (wc_r0 (sc_nsec (m_ctx s))) (wc_r8 (sc_nsec (m_ctx s))) (wc_mode_regs (sc_nsec (m_ctx s))) (wc_mon_lr (sc_nsec (m_ctx s)))
         (wc_mon_spsr (sc_nsec (m_ctx s))) true)
      (SmCtx sec (sc_nsec (m_ctx s))) (ns_entry_addrs s) (m_rest s)) /\
    wc_mode_regs sec = modes (m_cpu s) /\ wc_mon_spsr sec = cpu_psr (m_cpu s).
Proof.
  intros Hns Hlo. exists (set_wc_mode_regs (modes (m_cpu s)) (push_regs (m_cpu s) (sc_sec (m_ctx s)))). split; [|done].
  destruct s as [r x a t]. cbn [m_cpu] in *. unfold sm_smc_entry, sm_save_modes_regs, sm_restore_modes_regs, sm_ret_to_nsec, sm_exit,
    get_cpu, get_ctx, put_ctx, put_cpu, bind, gets, modify, ret. cbn [m_cpu m_ctx]. rewrite Hns.
  destruct r as [l h m pc psr b]. cbn [lo] in Hlo. subst l. cbn [nth wc_r0 push_regs set_wc_r0 set_wc_mon_spsr set_wc_mon_lr set_wc_mode_regs lo cpu_pc cpu_psr].
  by rewrite Z.eqb_refl.
Qed.

Lemma fiq_call_run s c scratch after (Q : kernel P -> Prop) :
  nsec_core s -> idle (m_rest s) c -> length scratch = 3%nat -> served (world (m_rest s)) Q ->
  wp (fiq_call c fiq_handler scratch after) s (fun _ s' =>
    m_cpu s' = set_pc (u32 (cpu_pc (m_cpu s) - 4)) (m_cpu s) /\ Q (world (m_rest s')) /\
    states (m_rest s') = states (m_rest s) /\ ns_entry_addrs s' = ns_entry_addrs s /\
    wc_mode_regs (sc_sec (m_ctx s')) = modes after /\ wc_mon_spsr (sc_sec (m_ctx s')) = cpu_psr after).
Proof.
  intros (Hns & Hlen & Hpsr) Hidle Hscr Hserved. unfold fiq_call. apply wp_bind. eapply wp_intro; [by apply fiq_enter_run|].
  set (s1 := mk_mon _ _ _ _). apply wp_bind. unfold fiq_world. apply wp_bind, wp_gets.
  destruct (idle_write_cpsr (m_rest s) c _ Hidle Hpsr) as (r & Hw & Hidle').
  apply wp_bind. eapply wp_intro; [unfold in_secure; cbn [m_rest s1 m_cpu cpu_psr]; by rewrite Hw|].
  set (t1 := upd_cores _ _) in *. cbn [m_cpu cpu_pc s1]. rewrite Z.eqb_refl.
  destruct (wp_elim _ _ _ (gic_it_handle_run (world t1) Q Hserved)) as ([] & k2 & Hg & HQ).
  assert (Hv : vector_fiq_entry fiq_handler t1 = Ret tt (put_world k2 t1)).
  { unfold vector_fiq_entry. destruct Hidle' as (_ & _ & Hcan & _). rewrite (bind_run _ _ _ _ _ (check_canaries_run t1 Hcan)).
    erewrite bind_run by done. unfold fiq_handler, in_world, main_fiq. by rewrite Hg. }
  apply wp_bind. eapply wp_intro; [unfold in_secure; cbn [m_rest]; by rewrite Hv|]. unfold put_cpu. apply wp_modify.
  match goal with |- wp _ ?s0 _ => destruct (fiq_leave_run s0 (lo after) eq_refl eq_refl) as (sec & Hl & Hs1 & Hs2) end.
  eapply wp_intro; [exact Hl|]. cbn [m_cpu m_ctx m_rest ns_entry_addrs s1]. split_and!; [|exact HQ|done|done|exact Hs1|exact Hs2].
  destruct (m_cpu s) as [l h m pc psr b]. cbn in Hns |- *. by subst b.
Qed.
End fiq.

(** ** A denied device *)

Section denied.
Context {P : Type} {plat : Platform P} {cfg : Config} {clients : EmuClients P}.
Context {A : Type} (getk : A -> kernel P) (putk : kernel P -> A -> A).

(** The abort ends without an access of the device: the kernel is as before, or as
    it is after the instruction was read; the core goes on, with a zero in the
    register of a load, unless the instruction is one that stops the kernel. *)
Definition ends_without_access f (s : mon A) : Prop :=
  let r := m_cpu s in let k := getk (m_rest s) in let m := sm_da_entry getk putk f s in
  let next := set_pc (u32 (cpu_pc r - 4)) r in
  goes_on putk s m (set_pc (u32 (cpu_pc r - 8)) r) k \/ goes_on putk s m next k \/
  exists instr p, read32 (instr_va (k_emu k) (abort_pa f (u32 (cpu_pc r - 8)))) k = Ret instr (set_k_plat p k) /\
    match reg_slot_of (instr_rt instr), decode_access instr with
    | Some rt, Some (LOAD _ _) => goes_on putk s m (set_rt rt 0 next) (set_k_plat p k)
    | Some rt, Some (STORE _) => goes_on putk s m next (set_k_plat p k)
    | _, _ => m = Panic
    end.

Lemma refused_run f (s : mon A) rg : nsec_abort s -> rg ∈ regions (k_emu (getk (m_rest s))) -> denies rg = true ->
  region_covers (abort_pa f (dfar f)) rg = true -> driver_free (k_emu (getk (m_rest s))) (abort_pa f (dfar f)) ->
  ends_without_access f s.
Proof.
  intros Hs Hin Hd Hcov Hfree. pose proof (data_abort_run getk putk f s Hs) as H. cbv zeta in H.
  assert (Hr : refused (k_emu (getk (m_rest s))) (abort_pa f (dfar f)) = true).
  { unfold refused. apply existsb_exists. exists rg. rewrite <- list_elem_of_In. by rewrite Hcov, Hd. }
  unfold ends_without_access. destruct (negb (is_translation_abort _)); [by left|right].
  destruct (negb (in_windows _ _ _)); [by left|right]. specialize (H Hfree). by rewrite Hr in H.
Qed.

(** The regions of a device deny. *)
Lemma dev_region_denies rg v : rg ∈ dev_regions v -> denies rg = true.
Proof.
  unfold dev_regions. rewrite list_elem_of_omap. intros (r & _ & Hr). unfold res_region in Hr.
  destruct (rs_address r), (rs_size r); try done. by injection Hr as <-.
Qed.
End denied.

(** ** Properties *)

(** C0: a data abort of the normal world, from the refused access to the next
    instruction, when no driver filters the address.  An abort of another kind lets
    the instruction run again; outside the windows of the emulation the instruction
    is skipped.  Otherwise the instruction is read from the memory of the normal
    world: a load that a region denies finds 0 in its register and reaches no
    device, a denied store does nothing, and an access that is allowed is carried
    out with its width and its sign.  In every case all other registers of the
    normal world, those of every mode included, are as before, and it goes on behind
    the instruction; only instructions that the emulation does not know stop the
    kernel. *)
Theorem data_abort_end_to_end {P} {plat : Platform P} {cfg : Config} {clients : EmuClients P}
    {A} (getk : A -> kernel P) (putk : kernel P -> A -> A) f (s : mon A) :
  nsec_abort s ->
  let r := m_cpu s in let k := getk (m_rest s) in
  let pa := abort_pa f (dfar f) in let ipa := abort_pa f (u32 (cpu_pc r - 8)) in
  let next := set_pc (u32 (cpu_pc r - 4)) r in let m := sm_da_entry getk putk f s in
  if negb (is_translation_abort (dfsr f)) then goes_on putk s m (set_pc (u32 (cpu_pc r - 8)) r) k
  else if negb (in_windows (k_emu k) pa ipa) then goes_on putk s m next k
  else driver_free (k_emu k) pa ->
    exists instr p, read32 (instr_va (k_emu k) ipa) k = Ret instr (set_k_plat p k) /\
    match reg_slot_of (instr_rt instr), decode_access instr with
    | Some rt, Some (LOAD size sign) =>
        if refused (k_emu k) pa then goes_on putk s m (set_rt rt 0 next) (set_k_plat p k)
        else exists v q, emu_read (data_va (k_emu k) pa) size (set_k_plat p k) = Ret v (set_k_plat q k) /\
               goes_on putk s m (set_rt rt (if sign then sign_extend v size else v) next) (set_k_plat q k)
    | Some rt, Some (STORE size) =>
        if refused (k_emu k) pa then goes_on putk s m next (set_k_plat p k)
        else exists q, emu_write (get_rt rt r) (data_va (k_emu k) pa) size (set_k_plat p k) = Ret tt (set_k_plat q k) /\
               goes_on putk s m next (set_k_plat q k)
    | _, _ => m = Panic
    end.
Proof. intros Hs. by apply data_abort_run. Qed.

(** The normal world reads the registers of two devices at their virtual
    addresses, with [ldr r1, [r0]] at 0x80008000. *)
Definition demo_fault (va : Z) : fault_regs :=
  mk_fault 0x008 va (fun page => if page =? 0x80008000 then 0x10000000 else page - 0xEE000000 + 0x5A).
Definition demo_abort : mon (kernel bigram) :=
  mk_mon (mk_cpu [0; 1; 2; 3; 4; 5; 6; 7] [8; 9; 10; 11; 12] (seqZ 20 17) 0x80008008 0x13 true)
    (SmCtx (SmWorldCtx (replicate 17 2) (replicate 5 0) 0 (replicate 8 0) 0 0x1d3)
           (SmWorldCtx (replicate 17 0) (replicate 5 0) 0 (replicate 8 0) 0 0))
    (replicate 4 0)
    (set_k_emu (EmuData 0x02000000 0x02000000 0x00200000 0x10000000 0x10000000 0x1000
        [Region 0x02100000 0x4000 EMU_DENY_ALL; Region 0x02000000 0x4000 EMU_ALLOW_ALL])
      (kernel_init (mk_bigram (<[0x10000000 := 0xE5901000]> (<[0x02000004 := 0xBEEF]> (<[0x02100004 := 0xCAFE]> ∅)))))).
Lemma data_abort_end_to_end_witness :
  (exists s', @sm_da_entry bigram _ (@emu_drivers bigram _ board_cfg) _ id (fun k _ => k) (demo_fault 0xF0100004) demo_abort = Ret tt s' /\
     m_cpu s' = mk_cpu [0; 0; 2; 3; 4; 5; 6; 7] [8; 9; 10; 11; 12] (seqZ 20 17) 0x80008004 0x13 true) /\
  (exists s', @sm_da_entry bigram _ (@emu_drivers bigram _ board_cfg) _ id (fun k _ => k) (demo_fault 0xF0000004) demo_abort = Ret tt s' /\
     m_cpu s' = mk_cpu [0; 0xBEEF; 2; 3; 4; 5; 6; 7] [8; 9; 10; 11; 12] (seqZ 20 17) 0x80008004 0x13 true).
Proof.
  assert (Hs : nsec_abort demo_abort) by done. split.
  - pose proof (@data_abort_end_to_end bigram _ board_cfg (@emu_drivers bigram _ board_cfg) _ id (fun k _ => k) (demo_fault 0xF0100004) demo_abort Hs) as H.
    destruct (H ltac:(repeat constructor)) as (instr & p & Hr & Hcase).
    assert (instr = 0xE5901000) as -> by (vm_compute in Hr; congruence).
    destruct Hcase as (x & E & _). eexists. split; [exact E|]. vm_compute. reflexivity.
  - pose proof (@data_abort_end_to_end bigram _ board_cfg (@emu_drivers bigram _ board_cfg) _ id (fun k _ => k) (demo_fault 0xF0000004) demo_abort Hs) as H.
    destruct (H ltac:(repeat constructor)) as (instr & p & Hr & Hcase).
    assert (instr = 0xE5901000) as -> by (vm_compute in Hr; congruence).
    destruct Hcase as (v & q & Hv & x & E & _). eexists. split; [exact E|].
    assert (v = 0xBEEF) as -> by (vm_compute in Hr; injection Hr as <-; vm_compute in Hv; congruence). vm_compute. reflexivity.
Defined.

(** C0: what the user denies stays out of reach.  After [cloak_apply] has applied the
    settings, take any device on the chain of a device of a denied class that can be
    protected.  Its CSU fields deny the normal world, so that an access is an abort;
    and whatever the normal world runs, and whatever the hardware and the rest of
    the kernel have become in the meantime, as long as the regions of the emulation
    are those: the abort of an access to a register of the device ends without an
    access of the device, and a load finds a zero. *)
Theorem denied_device_unreachable {P} {plat : Platform P} {cfg : Config} {drv : IrqDrivers P} {clients : EmuClients P}
    (R : Z -> Prop) `{!PlainRegs P R} (hok : P -> Prop) `{!HeapAvailable P hok}
    (W : bool -> Z -> Z -> Prop) (Iok : kernel P -> Prop) (D : irq_desc -> Prop)
    `{!IrqQuiet W Iok D false, !IrqQuiet W Iok D true}
    {A} (getk : A -> kernel P) (putk : kernel P -> A -> A)
    cb c0 m0 dv0 t n (classes : list cloak_class) E (k0 : kernel P) :
  table_ok dv0 t n -> prot_static R W D cb c0 m0 dv0 -> prot hok Iok cb c0 m0 dv0 E k0 -> table_of t n k0 ->
  justified dv0 (concat t) (cc_name <$> classes) E ->
  wp (cloak_apply classes) k0 (fun _ k1 =>
    forall i v nm d, dv0 !! i = Some v -> can_protect v = true ->
      CloakClass nm false ∈ classes -> d ∈ concat t -> has_class dv0 d nm = true -> i ∈ chain_of dv0 d ->
      (forall csl, csl ∈ dv_csu v -> csl_field (k_plat k1) (csu_base (k_csu k1)) csl = 0x33) /\
      forall rg f (s : mon A), rg ∈ dev_regions v -> region_covers (abort_pa f (dfar f)) rg = true ->
        nsec_abort s -> k_emu (getk (m_rest s)) = k_emu k1 -> driver_free (k_emu k1) (abort_pa f (dfar f)) ->
        ends_without_access getk putk f s).
Proof.
  intros Hk Hps Hp Ht HJ.
  eapply wp_mono; [|by apply (cloak_apply_spec R hok W Iok D cb c0 m0 dv0 t n classes E k0)].
  intros [] k1 [Hp1 _] i v nm d Hi Hcp Hcl Hd Hhas Hch.
  assert (Hoff : a_apply dv0 (concat t) (class_pair <$> classes) E i = false)
    by (apply (cloak_apply_off R W D cb c0 m0 dv0 t n classes E i v); [done..|by exists nm, d]).
  destruct (prot_shut R hok W Iok D cb c0 m0 dv0 _ k1 i v Hps Hp1 Hi Hcp Hoff) as [Hf Hr].
  split; [exact Hf|]. intros rg f s Hrg Hcov Hs Hemu Hfree.
  apply (refused_run getk putk f s rg Hs); rewrite ?Hemu; [by apply Hr|by eapply dev_region_denies|exact Hcov|exact Hfree].
Qed.

(** The board of [Cloak], with the windows of the emulation. *)
Definition trap_windows : emu_data := EmuData 0x02000000 0x02000000 0x00200000 0x10000000 0x10000000 0x1000 [].
Definition trap_board : kernel bigram := set_k_emu trap_windows board.
Lemma trap_board_prot :
  prot (fun _ => True) (gic_chips_ok 0x00A01000) 0x021C0000 (fun _ => 0) (fun _ => 0) board_devices (fun _ => true) trap_board.
Proof. destruct board_prot as [H1 H2 H3 H4 H5 H6 H7 H8]. split; [exact H1|destruct H2; by split|exact H3|exact H4|exact H5|exact H6|exact H7|exact H8]. Qed.
(** The normal world has [ldr r1, [r0]] in its memory; [r0] points to the SD host
    controller, behind which is the WLAN module. *)
Definition wifi_access (k : kernel bigram) : mon (kernel bigram) :=
  mk_mon (m_cpu demo_abort) (m_ctx demo_abort) (ns_entry_addrs demo_abort) (set_k_plat (mk_bigram {[0x10000000 := 0xE5901000]}) k).
Lemma denied_device_unreachable_witness :
  exists k1, @cloak_apply _ _ board_cfg (@drivers _ _ board_cfg 4) board_classes trap_board = Ret tt k1 /\
    csl_field (k_plat k1) (csu_base (k_csu k1)) 12 = 0x33 /\
    exists s', @sm_da_entry bigram _ (@emu_drivers bigram _ board_cfg) _ id (fun k _ => k) (demo_fault 0xF0190010) (wifi_access k1) = Ret tt s' /\
      m_cpu s' = mk_cpu [0; 0; 2; 3; 4; 5; 6; 7] [8; 9; 10; 11; 12] (seqZ 20 17) 0x80008004 0x13 true.
Proof.
  pose proof board_cfg as Hc.
  pose proof (@denied_device_unreachable _ _ board_cfg (@drivers _ _ board_cfg 4) (@emu_drivers bigram _ board_cfg) (fun _ => True) _ (fun _ => True) _
    (gicd_window 0x00A01000) (gic_chips_ok 0x00A01000) gic_line
    (@gic_quiet _ _ board_cfg 4 0x00A01000 eq_refl ltac:(lia) ltac:(lia) false)
    (@gic_quiet _ _ board_cfg 4 0x00A01000 eq_refl ltac:(lia) ltac:(lia) true)
    (kernel bigram) id (fun k _ => k)
    0x021C0000 (fun _ => 0) (fun _ => 0) board_devices board_table 4 board_classes (fun _ => true) trap_board
    board_table_ok board_static trap_board_prot (conj eq_refl eq_refl) ltac:(intros i _ [=])) as H.
  set (k1 := match @cloak_apply _ _ board_cfg (@drivers _ _ board_cfg 4) board_classes trap_board with Ret _ k => k | _ => trap_board end).
  assert (Hk1 : @cloak_apply _ _ board_cfg (@drivers _ _ board_cfg 4) board_classes trap_board = Ret tt k1) by (vm_compute; reflexivity).
  unfold wp in H. rewrite Hk1 in H. exists k1. split; [exact Hk1|].
  destruct (H 1%nat _ "wifi" 2%nat eq_refl eq_refl ltac:(left) ltac:(by_decide) eq_refl ltac:(by_decide)) as [Hf Ha].
  split; [apply Hf; vm_compute; left|].
  assert (Hs : nsec_abort (wifi_access k1)) by (split_and!; reflexivity).
  assert (He : k_emu (m_rest (wifi_access k1)) = k_emu k1) by reflexivity.
  assert (Hfree : driver_free (k_emu k1) (abort_pa (demo_fault 0xF0190010) 0xF0190010)) by (apply no_drivers; vm_compute; reflexivity).
  assert (Hcov : region_covers (abort_pa (demo_fault 0xF0190010) 0xF0190010) (Region 0x02190000 0x4000 EMU_DENY_ALL) = true) by (vm_compute; reflexivity).
  assert (Hok : ends_without_access id (fun k _ => k) (demo_fault 0xF0190010) (wifi_access k1)).
  { refine (Ha _ _ _ _ Hcov Hs He Hfree). vm_compute. left. }
  clear H Ha Hf Hfree Hcov Hs He. destruct Hok as [G|[G|G]].
  - exfalso. destruct G as (x & E & _). vm_compute in E. congruence.
  - exfalso. destruct G as (x & E & _). vm_compute in E. congruence.
  - destruct G as (instr & p & Hr & G). assert (instr = 0xE5901000) as -> by (vm_compute in Hr; congruence).
    destruct G as (x & E & _). eexists. split; [exact E|]. vm_compute. reflexivity.
Defined.
